(* ===== verification/_CoqProject ===== *)
-Q . S2P
Prelude.v
Bits.v
Insns.v
State.v
Mem.v
Wf.v
Exc.v
Tlb.v
LoadStore.v
Alu.v
Fp.v
Fpu.v
Cp0.v
Branch.v
Exec.v
Arch.v
Utlb.v
NonInterf.v
ExcProps.v
ExecProps.v
TlbSpec.v
TlbProps.v
LsProps.v
Unaligned.v
AluProps.v
Decode.v
Control.v
LlSc.v
FpuProps.v
Cosim.v
Frame.v
CosimProps.v
Arith64.v
Arith64Bits.v
Helpers.v
HelpersProps.v
Bitvec.v
BitvecProps.v
Devices.v
Bus.v
BusProps.v
PortProps.v
Loader.v
LoaderProps.v
Snoop.v
SnoopProps.v
Latency.v
Stats.v
StatsProps.v
Doubles.v
StageStats.v
Rounding.v
FpProps.v
FpArith.v
Firmware.v
FirmwareProps.v
Setup.v
SetupProps.v
Printf.v
PrintfProps.v
PrintfNum.v
PrintfExp.v
PrintfEnds.v
Bench.v
BenchProps.v
Report.v
ReportProps.v
Viewer.v
ViewerProps.v
Encode.v
Harness.v
Dump.v
DumpProps.v
Lockstep.v
BenchTrace.v
