(* ===== verification/Prelude.v ===== *)
(** * Verification of the r9999 simulator

    r9999 is an out-of-order MIPS core in SystemVerilog with a C++ test bench.
    The test bench ([src/top.cc]) clocks the core, serves its memory port, and
    checks every retired instruction against an instruction-set simulator of the
    R4400 ([src/interpret.cc]).  This library models the C++ and C of the
    repository and proves what makes it a trustworthy reference: that the
    simulator implements its architecture, what the checker flags and which correct
    cores it accepts, and that what surrounds them (memory, devices, loader,
    statistics, reports, firmware, guest support libraries) keeps its contract.  The
    core is not modelled; its outputs are inputs of the definitions.

    ** Conventions

    A fixed-width integer is a [Z] and each C++ conversion is written out
    ([u32], [s64], ...: [Prelude]).  An array or [std::map] is a finite map with
    its initial value as default, and the type invariant ([Wf.wf], [mem_ok]) says
    that no index leaves it.  A function that can stop the process returns
    [result]: [Ok], or [Stop] with [HostExit] ([exit], [abort], a failed
    [assert]), [HostUB] (undefined behaviour of the host: a trap, an access outside
    an object) or [OutOfFuel] (the bound of the model, never of the code).  Names
    are those of the source.  Instruction handlers are state transformers; what the
    host compiler or the build decides is the class [Config], what IEEE leaves to
    the host is the class [HostFP].

    ** The parts and the files

    - The simulator, [src/interpret.cc], [interpret.hh], [mips_insns.hh]:
      [Insns] (the instruction histogram's enumeration), [State] ([state_t] and the
      file-scope statics the handlers share, [initState]), [Exc] (the [raise_] and
      [take_exception_] routines, the vectors, the operating modes), [Tlb]
      ([va_translate] with the micro-TLB in front of the CAM, the TLB
      instructions), [LoadStore], [Alu], [Fp] and [Fpu], [Cp0] and [Branch] (one
      definition per handler or [case]), [Exec] ([execMips]: fetch, gates,
      LL/SC link, dispatch), [Decode] (the classifiers of [interpret.hh]).
      [execMips] calls itself to run a delay slot: [Branch] takes the recursive
      call as an argument and [Exec] ties the knot with fuel.
    - Memory, [src/sparse_mem.hh], [sparse_mem.cc], [helper.hh]: [Mem].
    - The co-simulation checker, [src/top.cc] (the cycle loop of [main],
      [iss_step], [tlb_wr_log]): [Cosim].  One [cycle] takes the ports of the core
      ([tb_t]) and the checker's state, in which the simulator's state is a field.
    - The memory port and the devices, [src/top.cc] ([perform_word_load],
      [perform_word_store], the negative-edge protocol), [src/sgi_*]: [Devices] and
      [Bus]; the snoop injector that shares the port: [Snoop]; the latency drawn
      for each request: [Latency].
    - The loader and the checkpoint reader, [src/loadelf.cc], [saveState.cc]:
      [Loader].
    - The statistics the core reports, [src/top.cc], [top.hh],
      [pipeline_record.hh]: [Stats]; the stage latencies and means, summed in a
      [double] ([Doubles]): [StageStats].
    - Bringing the test bench up, [src/top.cc] (the start of [main]): [Setup],
      which loads both machines and hands them to [Cosim].
    - The main loop, [src/top.cc]: [Bench].  Reset, resume and one [iteration] per
      cycle, which runs the injector ([Snoop]), the core (the class [Core], a
      synchronous machine that holds its pins), the checker ([Cosim]) and the memory
      port ([Bus], [Latency]) in the order of the code; [simulate] is [main] from
      the set-up to the end of the loop.
    - The report after the loop, [src/top.cc], [top.hh]: [Report], over the
      counters of [Bench], [Stats] and [StageStats].
    - The pipe-trace viewer, [src/gen_html.cc], [pipeline_record.hh]: [Viewer].
    - The text of a machine, [src/disassemble.cc] and the printers of [interpret.cc]
      and [sparse_mem.hh], and the [--memdump] request: [Dump].  The encoders of
      [top.hh]: [Encode].
    - The bit vector and the helpers, [src/sim_bitvec.hh], [helper.hh],
      [helper.cc]: [Bitvec] and [Helpers].
    - The boot firmware, [src/arcs/henry_fw.c], [henry_newport.c]: [Firmware],
      over the interface [Platform] of volatile accesses; its model-checking harness
      [src/arcs/cbmc_harness.c]: [Harness], for all inputs.
    - The guest's 64-bit arithmetic, [src/hello/arith64.c]: [Arith64]; its
      formatted output, [src/hello/printf.c]: [Printf], over the widths of the
      platform's types (the class [Abi]) and an output function.

    [Prelude] and [Bits] hold the shared notation, the [result] monad, finite
    arrays, the bounded search loop, ranges of machine integers (hint database
    [ranges]) and the byte codec.

    ** The theorems

    - Type safety: [Wf] has the invariant and its setters (database [wf]), each
      component proves its handlers preserve it, [ExecProps] lifts it to runs.
    - Transparency of the micro-TLB: [Arch] (equality up to the micro-TLB),
      [Utlb] (coherence), [NonInterf] (every handler respects it),
      [ExecProps.micro_tlb_transparent].
    - Translation: [TlbSpec] is an abstract map of windows and page pairs;
      [TlbProps] proves that [va_translate] refines it, what TLBWI, TLBWR, TLBP and
      TLBR do to it, the fault state, and the refill round trip.
    - Exceptions: [ExcProps] (entry of every general exception, SYSCALL, BREAK and
      interrupts included, nesting, ERET), [Control] (delay slots and the exceptions
      they raise under [execMips], termination, transfer targets, register zero).
    - Loads and stores against the abstract map: [LsProps], [Unaligned]; the LL/SC
      link, which stores disarm it and which escape it: [LlSc].  Arithmetic: [AluProps].  FPU control state: [FpuProps]; comparisons and
      conversions to integers on the exact values: [FpProps]; the arithmetic and the
      other conversions are correctly rounded: [Rounding] (any binary format),
      [FpArith] (the instructions).
    - The checker: [Frame] (what no instruction writes) and [CosimProps] (the
      invariant of a whole co-simulation, exact detection of divergence, the TLB
      mirror, the watchdog, interrupts); [Lockstep] (a core that follows the
      interpreter is accepted when each of its retirements is of a kind the checker
      can follow, [clear]; a core of each other kind that is accused or stopped);
      [BenchTrace] (a run of the whole loop is the run of the checker on the core's
      events, so such a simulation ends unaccused).
    - The surroundings: [BusProps] and [PortProps] (line transfers, EEPROM, every
      request answered once), [SnoopProps] (the ledger of snooped lines, draining),
      [LoaderProps] (the image, the refusals), [StatsProps] (the slots add up, the
      pipe trace is exact), [FirmwareProps] (the hand-off to the kernel, against the
      laws [PlatformLaws]), [Arith64] and [Arith64Bits] (division, shifts, counts),
      [Latency] (bounded answers under random latencies), [StageStats] (exact sums
      and means), [BitvecProps] (the vector is a set, its searches are exact),
      [HelpersProps] (powers of two, error detection of the CRC).
    - Formatted output: [PrintfProps] (every entry point produces the text of one
      renderer; the console gets it in order) [PrintfNum] (integers read back,
      through [snprintf_], within the stated limits; buffers are not overrun; departures
      from ISO C), [PrintfExp] (the decimal
      exponent of any double is close enough) and [PrintfEnds] (termination).
    - Reports: [ReportProps] (every cycle is charged once, the histogram files) and
      [ViewerProps] (the page reads back as the records of the window), [DumpProps]
      (the text of a state and the dump request read back).
    - The composition: [SetupProps] goes from the image files to a checker in step,
      [BenchProps] from there to the end of the simulation: the invariant of the
      closed system, the resume of the core at the interpreter's pc, the exits, the end
      within the limits, the hang detection.

    ** Bounds and fuel

    - [execMips]: one level of fuel per nested delay slot.  A slot that is not
      itself a branch needs two levels; [Control.delay_slot_recursion_terminates]
      shows that fuel beyond the nesting never changes the result.
    - The firmware's polls and copies: [FirmwareProps.fsbl_hands_off] asks for more
      fuel than the platform's patience and the lengths of the copies.
    - [Helpers.doubling_fuel]: 64 rounds; the loop ends within them or never.
    - [Bench.main_loop]: more turns than cycles are left
      ([BenchProps.simulation_ends]); [wait_ready] has no bound in the code, and
      what is proved of [bring_up] is partial in it.
    - [Printf]: a buffer loop stops at its 32 characters ([BUF_FUEL]), a padding
      loop at its width, the format loop at the end of the format; [_ftoa] and
      [_etoa] call each other at most twice, one less than [FLOAT_FUEL].  All this is
      proved enough for every format and every argument ([PrintfEnds]).
    - Everything else is structural: the TLB walk has its 48 entries, byte loops
      their width, the division its 64 bits, a run its list of inputs.
    - A counter of cycles or retirements is assumed not to pass 2^60 or 2^62 where a
      theorem compares it with an exact count; the hypothesis is in the statement.

    ** What the theorems rely on

    The core's outputs are arbitrary except where a statement says otherwise:
    port widths ([CosimProps.tb_ok]), the reporting contract of the top-down
    counters ([StatsProps.report_ok]), in-order pairs of retirements
    ([ReportProps.pairs_ok]), a core that follows the interpreter with the kinds of
    retirement the checker can follow ([Lockstep.follows], [clear]), the platform laws and linker layout of the firmware,
    the laws of the console FIFO ([PrintfProps.FifoLaws]).  Each such hypothesis has a
    concrete instance.

    ** Not modelled

    The SystemVerilog core, the Murphi protocol models and the tests; the text of
    the command line (boost; the options and their defaults are
    [Bench.parse_options]) and Verilator's glue; how a stream renders a number of
    the report, and the progress messages of the loop; the capstone library;
    the archive between the bench and the viewer (boost); the assembly
    half of the firmware; the SSE4.2 variant of the CRC, which is the processor's
    instruction; [dumpState], which is declared but not defined; the ELF constants
    the loader does not read.  Diagnostics written to stdout are left out, console
    bytes and the report are not.  Environment variables that only add traces are
    left out; [NOUTLB] is the switch [no_utlb].  The guest's doubles are rounded
    after every operation: no contraction into fused multiply-add is assumed. *)
From stdpp Require Export prelude gmap zmap fin_maps.
From Stdlib Require Export ZArith Lia Bool.
#[global] Open Scope Z_scope.

(** * C++ integers: a fixed-width integer is a [Z]; every conversion is written
    out.  [wrapu w] is the conversion to [uintw_t], [wraps w] to [intw_t]. *)
Definition wrapu (w x : Z) : Z := x mod 2 ^ w.
Definition wraps (w x : Z) : Z :=
  let m := x mod 2 ^ w in if m <? 2 ^ (w - 1) then m else m - 2 ^ w.

Abbreviation u8 := (wrapu 8).
Abbreviation u16 := (wrapu 16).
Abbreviation u32 := (wrapu 32).
Abbreviation u64 := (wrapu 64).
Abbreviation s8 := (wraps 8).
Abbreviation s16 := (wraps 16).
Abbreviation s32 := (wraps 32).
Abbreviation s64 := (wraps 64).

Declare Scope cpp_scope.
Delimit Scope cpp_scope with cpp.
Infix ".&" := Z.land (at level 40, left associativity) : cpp_scope.
Infix ".|" := Z.lor (at level 45, left associativity) : cpp_scope.
Infix ".^" := Z.lxor (at level 44, left associativity) : cpp_scope.
Notation ".~ x" := (Z.lnot x) (at level 35, right associativity) : cpp_scope.
Infix ">>" := Z.shiftr (at level 38, left associativity) : cpp_scope.
Infix "<<" := Z.shiftl (at level 38, left associativity) : cpp_scope.
Notation "x =/? y" := (negb (x =? y)) (at level 70) : cpp_scope.
Notation "s |> f" := (f s) (at level 69, left associativity, only parsing) : cpp_scope.
#[global] Open Scope cpp_scope.

(** * Results: a handler of the interpreter returns the new machine state, or
    the reason the host process stopped. *)
Inductive stop :=
  | HostExit      (* exit(-1) *)
  | HostUB        (* undefined behaviour of the host: a trap, an access outside the mapping *)
  | OutOfFuel.    (* the recursion bound of the model *)

Inductive result (A : Type) :=
  | Ok (a : A)
  | Stop (why : stop).
Arguments Ok {A} a.
Arguments Stop {A} why.

#[export] Instance stop_eq_dec : EqDecision stop.
Proof. solve_decision. Defined.
#[export] Instance result_ret : MRet result := @Ok.
#[export] Instance result_bind : MBind result := fun A B f m =>
  match m with Ok a => f a | Stop w => Stop w end.
#[export] Instance result_fmap : FMap result := fun A B f m =>
  match m with Ok a => Ok (f a) | Stop w => Stop w end.

Notation "'let!' x := m 'in' k" := (mbind (M:=result) (fun x => k) m)
  (at level 10, x pattern, m at level 100, k at level 200, only parsing) : cpp_scope.

Lemma result_bind_assoc {A B C} (m : result A) (f : A -> result B) (g : B -> result C) :
  mbind (M:=result) g (mbind (M:=result) f m) = mbind (M:=result) (fun a => mbind (M:=result) g (f a)) m.
Proof. by destruct m. Qed.

Lemma bind_Ok {A B} (m : result A) (f : A -> result B) b :
  mbind (M:=result) f m = Ok b -> exists a, m = Ok a /\ f a = Ok b.
Proof. destruct m as [a|]; [by exists a|done]. Qed.
(** Opens the first bind of a hypothesis [_ = Ok _]: its result [x] and [E]. *)
Ltac bind_inv H x E := apply bind_Ok in H as (x & E & H).

(** * Fixed arrays, zero-initialised as the C++ members are ([= {0}]): a finite
    map from the index, an absent key holding the initial value. *)
Class Zero (A : Type) := zero_val : A.
#[export] Instance zero_Z : Zero Z := 0.
#[export] Instance zero_bool : Zero bool := false.

Definition rd {A} `{Zero A} (a : Zmap A) (i : Z) : A := default zero_val (a !! i).
Definition wr {A} (i : Z) (v : A) (a : Zmap A) : Zmap A := <[i := v]> a.
Notation "a .[ i ]" := (rd a i) (at level 1, left associativity, format "a .[ i ]") : cpp_scope.

Section arrays.
Context {A : Type} `{Zero A}.
Implicit Types (a : Zmap A) (i j : Z) (v : A).

Lemma rd_wr_eq a i v : rd (wr i v a) i = v.
Proof. unfold rd, wr. by rewrite lookup_insert_eq. Qed.
Lemma rd_wr_ne a i j v : i <> j -> rd (wr i v a) j = rd a j.
Proof. intros Hne. unfold rd, wr. by rewrite lookup_insert_ne. Qed.
Lemma rd_wr a i j v : rd (wr i v a) j = if Z.eqb i j then v else rd a j.
Proof. destruct (Z.eqb_spec i j) as [->|?]; [apply rd_wr_eq | by apply rd_wr_ne]. Qed.
Lemma rd_empty i : rd (∅ : Zmap A) i = zero_val.
Proof. unfold rd. by rewrite lookup_empty. Qed.
Lemma wr_wr_eq a i v w : wr i v (wr i w a) = wr i v a.
Proof. unfold wr. apply insert_insert_eq. Qed.
Lemma wr_comm a i j v w : i <> j -> wr i v (wr j w a) = wr j w (wr i v a).
Proof. intros Hne. unfold wr. by apply insert_insert_ne. Qed.
End arrays.
Create Rewrite HintDb arrays.
#[export] Hint Rewrite @rd_wr_eq @rd_empty @wr_wr_eq : arrays.
#[export] Hint Rewrite @rd_wr_ne using (done || lia) : arrays.

(** * The bounded search loop [for(int i = 0; i < n; i++) if(p(i)) ...]: the
    first index that satisfies [p]. *)
Fixpoint first_from (p : Z -> bool) (i : Z) (n : nat) : option Z :=
  match n with
  | O => None
  | S n => if p i then Some i else first_from p (i + 1) n
  end.

Section first_from.
Implicit Types (p q : Z -> bool).
Lemma first_from_Some p i n k :
  first_from p i n = Some k ->
  i <= k < i + Z.of_nat n /\ p k = true /\ forall j, i <= j < k -> p j = false.
Proof.
  revert i; induction n as [|n IH]; intros i; cbn; [done|].
  destruct (p i) eqn:Hp; [intros [= ->]; repeat split; lia || done|].
  intros (Hr & Hk & Hlt)%IH. repeat split; try lia; [done|].
  intros j Hj. destruct (decide (j = i)) as [->|]; [done|]. apply Hlt; lia.
Qed.
Lemma first_from_None p i n :
  first_from p i n = None <-> forall j, i <= j < i + Z.of_nat n -> p j = false.
Proof.
  revert i; induction n as [|n IH]; intros i; cbn; [split; [intros; lia|done]|].
  destruct (p i) eqn:Hp; split; intros Hn.
  - done.
  - specialize (Hn i ltac:(lia)). congruence.
  - intros j Hj. destruct (decide (j = i)) as [->|]; [done|].
    apply (proj1 (IH (i + 1))); [done|lia].
  - apply IH. intros j Hj. apply Hn; lia.
Qed.
Lemma first_from_is p i n k :
  i <= k < i + Z.of_nat n -> p k = true -> (forall j, i <= j < k -> p j = false) ->
  first_from p i n = Some k.
Proof.
  intros Hk Hp Hlt. destruct (first_from p i n) as [k'|] eqn:Hf.
  - apply first_from_Some in Hf as (Hr & Hp' & Hlt'). f_equal.
    destruct (Z.lt_trichotomy k k') as [?|[->|?]]; [|done|].
    + rewrite Hlt' in Hp; [done|lia].
    + rewrite Hlt in Hp'; [done|lia].
  - apply first_from_None with (j := k) in Hf; [congruence|lia].
Qed.
Lemma first_from_ext p q i n :
  (forall j, i <= j < i + Z.of_nat n -> p j = q j) -> first_from p i n = first_from q i n.
Proof.
  revert i; induction n as [|n IH]; intros i Hpq; cbn; [done|].
  rewrite Hpq by lia. destruct (q i); [done|]. apply IH. intros; apply Hpq; lia.
Qed.
End first_from.

(** * Byte sequences of the little-endian host *)
Fixpoint le_join (l : list Z) : Z :=
  match l with
  | [] => 0
  | b :: l => b .| (le_join l << 8)
  end.
Fixpoint le_split (n : nat) (v : Z) : list Z :=
  match n with
  | O => []
  | S n => u8 v :: le_split n (v >> 8)
  end.
(** [__builtin_bswap16/32/64] on [n] bytes. *)
Definition byteswap (n : nat) (v : Z) : Z := le_join (rev (le_split n v)).
