(* ===== verification/Bits.v ===== *)
(** Lemmas on machine integers, bit fields and byte sequences shared by the
    components: ranges of [wrapu]/[wraps] and of the bit operations (hint
    database [ranges]), conversions, and the little-endian byte codec. *)
From S2P Require Import Prelude.

Definition in_u (w x : Z) : Prop := 0 <= x < 2 ^ w.
Definition in_s (w x : Z) : Prop := - 2 ^ (w - 1) <= x < 2 ^ (w - 1).

Create HintDb ranges discriminated.
Create HintDb wf discriminated.
#[export] Hint Constants Opaque : ranges wf.
#[export] Hint Variables Opaque : ranges wf.

(** ** Ranges of the conversions *)
Lemma wrapu_range w x : 0 <= w -> in_u w (wrapu w x).
Proof. intros. unfold in_u, wrapu. apply Z.mod_pos_bound. by apply Z.pow_pos_nonneg. Qed.
Lemma pow2_half w : 0 < w -> 2 ^ w = 2 * 2 ^ (w - 1).
Proof. intros. rewrite <- Z.pow_succ_r by lia. f_equal; lia. Qed.
Lemma wraps_range w x : 0 < w -> in_s w (wraps w x).
Proof.
  intros Hw. unfold in_s, wraps. pose proof (pow2_half w Hw).
  pose proof (Z.mod_pos_bound x (2 ^ w)). pose proof (Z.pow_pos_nonneg 2 (w - 1)).
  destruct (Z.ltb_spec (x mod 2 ^ w) (2 ^ (w - 1))); lia.
Qed.
Lemma wrapu_id w x : in_u w x -> wrapu w x = x.
Proof. intros. unfold wrapu. by apply Z.mod_small. Qed.
Lemma wraps_id w x : 0 < w -> in_s w x -> wraps w x = x.
Proof.
  intros Hw [Hl Hh]. unfold wraps. pose proof (pow2_half w Hw).
  pose proof (Z.pow_pos_nonneg 2 (w - 1)).
  destruct (decide (0 <= x)).
  - rewrite Z.mod_small by lia. destruct (Z.ltb_spec x (2 ^ (w - 1))); lia.
  - replace (x mod 2 ^ w) with (x + 2 ^ w).
    + destruct (Z.ltb_spec (x + 2 ^ w) (2 ^ (w - 1))); lia.
    + rewrite <- (Z.mod_small (x + 2 ^ w) (2 ^ w)) by lia.
      replace (x + 2 ^ w) with (x + 1 * 2 ^ w) by lia. by rewrite Z.mod_add by lia.
Qed.

(** ** Congruences: both conversions only see the value modulo [2 ^ w]. *)
Lemma wraps_mod w x : 0 < w -> wraps w x mod 2 ^ w = x mod 2 ^ w.
Proof.
  intros Hw. unfold wraps. pose proof (Z.pow_pos_nonneg 2 w).
  destruct (x mod 2 ^ w <? 2 ^ (w - 1)).
  - apply Z.mod_mod; lia.
  - rewrite <- (Z.mod_mod x (2 ^ w)) at 2 by lia.
    replace (x mod 2 ^ w - 2 ^ w) with (x mod 2 ^ w + (-1) * 2 ^ w) by lia.
    rewrite Z.mod_add by lia. done.
Qed.
Lemma wrapu_wraps w x : 0 < w -> wrapu w (wraps w x) = wrapu w x.
Proof. apply wraps_mod. Qed.
Lemma wraps_cong w x y : x mod 2 ^ w = y mod 2 ^ w -> wraps w x = wraps w y.
Proof. unfold wraps. by intros ->. Qed.
Lemma wraps_wrapu w x : 0 <= w -> wraps w (wrapu w x) = wraps w x.
Proof. intros. apply wraps_cong. unfold wrapu. apply Z.mod_mod. pose proof (Z.pow_pos_nonneg 2 w). lia. Qed.
Lemma wraps_wraps w x : 0 < w -> wraps w (wraps w x) = wraps w x.
Proof. intros. apply wraps_cong. by apply wraps_mod. Qed.
Lemma wrapu_wrapu w x : 0 <= w -> wrapu w (wrapu w x) = wrapu w x.
Proof. intros. apply Z.mod_mod. pose proof (Z.pow_pos_nonneg 2 w). lia. Qed.
Lemma wrapu_add_l w x y : 0 <= w -> wrapu w (wrapu w x + y) = wrapu w (x + y).
Proof. intros. unfold wrapu. rewrite Z.add_mod_idemp_l; [done|]. pose proof (Z.pow_pos_nonneg 2 w); lia. Qed.
Lemma wrapu_mul_add w x k : 0 <= w -> wrapu w (x + k * 2 ^ w) = wrapu w x.
Proof. intros. unfold wrapu. rewrite Z.mod_add; [done|]. pose proof (Z.pow_pos_nonneg 2 w); lia. Qed.
(** A narrow conversion after a wide one. *)
Lemma wrapu_narrow v w x : 0 <= v <= w -> wrapu v (wrapu w x) = wrapu v x.
Proof.
  intros. unfold wrapu. rewrite Z.mod_mod_divide; [done|].
  exists (2 ^ (w - v)). rewrite <- Z.pow_add_r by lia. f_equal; lia.
Qed.
Lemma wrapu_narrow_s v w x : 0 < v <= w -> wrapu v (wraps w x) = wrapu v x.
Proof.
  intros. rewrite <- (wrapu_narrow v w (wraps w x)) by lia.
  rewrite wrapu_wraps by lia. apply wrapu_narrow; lia.
Qed.
Lemma wraps_narrow v w x : 0 < v <= w -> wraps v (wrapu w x) = wraps v x.
Proof.
  intros. rewrite <- (wraps_wrapu v (wrapu w x)) by lia. rewrite wrapu_narrow by lia.
  by rewrite wraps_wrapu by lia.
Qed.
Lemma wraps_narrow_s v w x : 0 < v <= w -> wraps v (wraps w x) = wraps v x.
Proof.
  intros. rewrite <- (wraps_wrapu v (wraps w x)) by lia. rewrite wrapu_narrow_s by lia.
  by rewrite wraps_wrapu by lia.
Qed.

(** ** Ranges of the bit operations, through the bits above the width *)
Lemma in_u_shiftr w x : 0 <= w -> in_u w x <-> x >> w = 0.
Proof.
  intros Hw. unfold in_u. rewrite Z.shiftr_div_pow2 by done.
  pose proof (Z.pow_pos_nonneg 2 w). split.
  - intros. apply Z.div_small; lia.
  - intros Hd%Z.div_small_iff; lia.
Qed.
Lemma in_s_shiftr w x : 0 < w -> in_s w x <-> x >> (w - 1) = 0 \/ x >> (w - 1) = -1.
Proof.
  intros Hw. unfold in_s. rewrite Z.shiftr_div_pow2 by lia.
  pose proof (Z.pow_pos_nonneg 2 (w - 1)). split.
  - intros Hx. destruct (decide (0 <= x)); [left; apply Z.div_small; lia|right].
    symmetry. apply (Z.div_unique _ _ _ (x + 2 ^ (w - 1))); lia.
  - intros [Hd|Hd]; pose proof (Z.div_mod x (2 ^ (w - 1)));
      pose proof (Z.mod_pos_bound x (2 ^ (w - 1))); nia.
Qed.

Section ranges.
Implicit Types (w x y n : Z).
Lemma in_u_land_l w x y : 0 <= w -> in_u w x -> in_u w (x .& y).
Proof. intros Hw. rewrite !in_u_shiftr, Z.shiftr_land by done. by intros ->. Qed.
Lemma in_u_land_r w x y : 0 <= w -> in_u w y -> in_u w (x .& y).
Proof. rewrite Z.land_comm. apply in_u_land_l. Qed.
Lemma in_u_lor w x y : 0 <= w -> in_u w x -> in_u w y -> in_u w (x .| y).
Proof. intros Hw. rewrite !in_u_shiftr, Z.shiftr_lor by done. by intros -> ->. Qed.
Lemma in_u_lxor w x y : 0 <= w -> in_u w x -> in_u w y -> in_u w (x .^ y).
Proof. intros Hw. rewrite !in_u_shiftr, Z.shiftr_lxor by done. by intros -> ->. Qed.
Lemma in_u_shr w x n : 0 <= w -> 0 <= n -> in_u w x -> in_u w (x >> n).
Proof.
  intros Hw Hn. rewrite !in_u_shiftr by done.
  rewrite Z.shiftr_shiftr, Z.add_comm, <- Z.shiftr_shiftr by lia. intros ->. apply Z.shiftr_0_l.
Qed.
Lemma in_u_shl w v x n : 0 <= v -> 0 <= n -> v + n <= w -> in_u v x -> in_u w (x << n).
Proof.
  intros Hv Hn Hle [H0 H1]. unfold in_u. rewrite Z.shiftl_mul_pow2 by done.
  pose proof (Z.pow_le_mono_r 2 (v + n) w). rewrite Z.pow_add_r in H by lia.
  pose proof (Z.pow_pos_nonneg 2 n). nia.
Qed.
Lemma in_u_mono v w x : 0 <= v <= w -> in_u v x -> in_u w x.
Proof. unfold in_u. intros Hvw. pose proof (Z.pow_le_mono_r 2 v w). lia. Qed.
Lemma in_u_ones n x : 0 <= n -> in_u n (x .& Z.ones n).
Proof. intros. rewrite Z.land_ones by done. by apply wrapu_range. Qed.

Lemma in_s_land w x y : 0 < w -> in_s w x -> in_s w y -> in_s w (x .& y).
Proof.
  intros Hw. rewrite !in_s_shiftr, Z.shiftr_land by done.
  by intros [->| ->] [->| ->]; [left|left|left|right].
Qed.
Lemma in_s_lor w x y : 0 < w -> in_s w x -> in_s w y -> in_s w (x .| y).
Proof.
  intros Hw. rewrite !in_s_shiftr, Z.shiftr_lor by done.
  by intros [->| ->] [->| ->]; [left|right|right|right].
Qed.
Lemma in_s_lxor w x y : 0 < w -> in_s w x -> in_s w y -> in_s w (x .^ y).
Proof.
  intros Hw. rewrite !in_s_shiftr, Z.shiftr_lxor by done.
  by intros [->| ->] [->| ->]; [left|right|right|left].
Qed.
Lemma in_s_lnot w x : in_s w x -> in_s w (.~ x).
Proof. unfold in_s. pose proof (Z.add_lnot_diag x). lia. Qed.
Lemma in_s_shr w x n : 0 < w -> 0 <= n -> in_s w x -> in_s w (x >> n).
Proof.
  intros Hw Hn. unfold in_s. rewrite Z.shiftr_div_pow2 by done. intros [Hl Hh].
  pose proof (Z.pow_pos_nonneg 2 n). pose proof (Z.pow_pos_nonneg 2 (w - 1)). split.
  - apply Z.div_le_lower_bound; nia.
  - destruct (decide (0 <= x)).
    + apply Z.le_lt_trans with x; [|done]. apply Z.div_le_upper_bound; nia.
    + apply Z.lt_le_trans with 0; [|lia]. apply Z.div_lt_upper_bound; lia.
Qed.
Lemma in_s_land_u w v x y : 0 <= v < w -> in_u v y -> in_s w (x .& y).
Proof.
  intros Hv Hy. pose proof (in_u_land_r v x y ltac:(lia) Hy) as [H0 H1].
  unfold in_s. pose proof (Z.pow_le_mono_r 2 v (w - 1)). lia.
Qed.
Lemma in_s_of_u w v x : 0 <= v < w -> in_u v x -> in_s w x.
Proof. unfold in_s, in_u. intros. pose proof (Z.pow_le_mono_r 2 v (w - 1)). lia. Qed.
Lemma in_s_mono v w x : 0 < v <= w -> in_s v x -> in_s w x.
Proof. unfold in_s. intros. pose proof (Z.pow_le_mono_r 2 (v - 1) (w - 1)). lia. Qed.
Lemma in_u_b2z w b : 0 < w -> in_u w (Z.b2z b).
Proof. intros. unfold in_u. pose proof (Z.pow_gt_1 2 w). destruct b; cbn; lia. Qed.
Lemma in_s_b2z w b : 1 < w -> in_s w (Z.b2z b).
Proof. intros. apply in_s_of_u with 1; [lia|]. by apply in_u_b2z. Qed.
End ranges.

(** Literals are in range by computation. *)
Ltac ground x :=
  tryif (match x with context [?v] => is_var v end) then fail else idtac.
Ltac range_lit :=
  lazymatch goal with |- in_u ?w ?x => ground x | |- in_s ?w ?x => ground x end;
  match goal with
  | |- in_u ?w ?x => let v := eval vm_compute in (andb (0 <=? x) (x <? 2 ^ w)) in
      match v with true => vm_compute; split; [discriminate|reflexivity] end
  | |- in_s ?w ?x => let v := eval vm_compute in (andb (- 2 ^ (w - 1) <=? x) (x <? 2 ^ (w - 1))) in
      match v with true => vm_compute; split; [discriminate|reflexivity] end
  end.
#[export] Hint Extern 1 (in_u _ _) => range_lit : ranges.
#[export] Hint Extern 1 (in_s _ _) => range_lit : ranges.
#[export] Hint Extern 1 (_ <= _)%Z => lia : ranges.
#[export] Hint Extern 1 (_ < _)%Z => lia : ranges.
#[export] Hint Extern 1 (_ <= _ < _)%Z => lia : ranges.
#[export] Hint Extern 1 (_ <= _ <= _)%Z => lia : ranges.
#[export] Hint Resolve wrapu_range wraps_range in_u_lor in_u_lxor in_u_shr in_s_land in_s_lor
  in_s_lxor in_s_lnot in_s_shr in_u_b2z in_s_b2z : ranges.

(** Shift distances are nonnegative: literals and masked fields. *)
Lemma land_nonneg_r x y : 0 <= y -> 0 <= x .& y.
Proof. intros. apply Z.land_nonneg. by right. Qed.
Lemma in_u_nonneg w x : in_u w x -> 0 <= x.
Proof. by intros []. Qed.
Lemma wrapu_nonneg w x : 0 <= w -> 0 <= wrapu w x.
Proof. apply wrapu_range. Qed.
#[export] Hint Resolve land_nonneg_r wrapu_nonneg : ranges.
Ltac nonneg := first [lia | solve [eauto with ranges] | solve [eapply in_u_nonneg; eauto with ranges]].

(** [rng] proves range goals by the shape of the term. *)
Ltac rng :=
  cbv beta;
  try solve [eassumption | range_lit | unfold in_u, in_s in *; lia];
  lazymatch goal with
  | |- in_u ?w (wrapu ?v _) =>
      first [ solve [apply wrapu_range; lia]
            | solve [apply (in_u_mono v w); [lia | apply wrapu_range; lia]] ]
  | |- in_s ?w (wraps ?v _) =>
      first [ solve [apply wraps_range; lia]
            | solve [apply (in_s_mono v w); [lia | apply wraps_range; lia]] ]
  | |- in_s ?w (wrapu ?v _) => apply (in_s_of_u w v); [lia | apply wrapu_range; lia]
  | |- in_u ?w (Z.land _ _) =>
      first [ solve [apply in_u_land_l; [lia | rng]] | solve [apply in_u_land_r; [lia | rng]] ]
  | |- in_u ?w (Z.lor _ _) => apply in_u_lor; [lia | rng | rng]
  | |- in_u ?w (Z.lxor _ _) => apply in_u_lxor; [lia | rng | rng]
  | |- in_u ?w (Z.shiftr _ _) => apply in_u_shr; [lia | nonneg | rng]
  | |- in_u ?w (Z.shiftl _ ?n) =>
      ground n; let v := eval vm_compute in (w - n) in apply (in_u_shl w v); [lia | done | done | rng]
  | |- in_u ?w (Z.b2z _) => apply in_u_b2z; lia
  | |- in_s ?w (Z.b2z _) => apply in_s_b2z; lia
  | |- in_s ?w (Z.land _ ?y) =>
      first [ solve [apply in_s_land; [lia | rng | rng]]
            | solve [apply (in_s_land_u w (w - 1)); [lia | rng]] ]
  | |- in_s ?w (Z.lor _ _) => apply in_s_lor; [lia | rng | rng]
  | |- in_s ?w (Z.lxor _ _) => apply in_s_lxor; [lia | rng | rng]
  | |- in_s ?w (Z.lnot _) => apply in_s_lnot; rng
  | |- in_s ?w (Z.shiftr _ _) => apply in_s_shr; [lia | nonneg | rng]
  | |- context [if ?c then _ else _] => destruct c; rng
  | |- _ => solve [eauto with ranges]
  end.

(** ** Bit-field extraction is below the mask. *)
Lemma land_mask_range x n : 0 <= n -> 0 <= x .& Z.ones n < 2 ^ n.
Proof. intros. by apply in_u_ones. Qed.
Lemma land_31_range x : 0 <= x .& 31 < 32.
Proof. apply (land_mask_range x 5). lia. Qed.
Lemma land_63_range x : 0 <= x .& 63 < 64.
Proof. apply (land_mask_range x 6). lia. Qed.
Lemma land_7_range x : 0 <= x .& 7 < 8.
Proof. apply (land_mask_range x 3). lia. Qed.
Lemma land_3_range x : 0 <= x .& 3 < 4.
Proof. apply (land_mask_range x 2). lia. Qed.
Lemma land_1_range x : 0 <= x .& 1 < 2.
Proof. apply (land_mask_range x 1). lia. Qed.
#[export] Hint Resolve land_31_range land_63_range land_7_range land_3_range land_1_range : ranges.

(** ** Disjoint fields: [lor] of a low field and a shifted high one adds. *)
Lemma in_u_testbit w x i : 0 <= w -> in_u w x -> w <= i -> Z.testbit x i = false.
Proof.
  intros Hw Hx%in_u_shiftr Hi; [|done].
  replace i with ((i - w) + w) by lia. rewrite <- Z.shiftr_spec by lia.
  by rewrite Hx, Z.bits_0.
Qed.
Lemma testbit_wrapu w x i : 0 <= i -> 0 <= w -> Z.testbit (wrapu w x) i = (i <? w) && Z.testbit x i.
Proof.
  intros. unfold wrapu. destruct (Z.ltb_spec i w); cbn.
  - apply Z.mod_pow2_bits_low. lia.
  - apply Z.mod_pow2_bits_high. lia.
Qed.
Lemma testbit_wraps w x i :
  0 <= i -> 0 < w -> Z.testbit (wraps w x) i = Z.testbit x (if i <? w then i else w - 1).
Proof.
  intros Hi Hw.
  assert (forall j, 0 <= j < w -> Z.testbit (wraps w x) j = Z.testbit x j) as Hlow.
  { intros j Hj. rewrite <- (Z.mod_pow2_bits_low (wraps w x) w j), wraps_mod by lia. apply Z.mod_pow2_bits_low; lia. }
  destruct (Z.ltb_spec i w); [apply Hlow; lia|]. rewrite <- Hlow by lia.
  replace i with ((i - (w - 1)) + (w - 1)) by lia. replace (w - 1) with (0 + (w - 1)) at 3 by lia.
  rewrite <- !Z.shiftr_spec by lia.
  destruct (proj1 (in_s_shiftr w (wraps w x) Hw) (wraps_range w x Hw)) as [-> | ->];
    [by rewrite !Z.bits_0|by rewrite !Z.bits_m1 by lia].
Qed.
(** A conversion to [intw_t] only sees the low [w] bits. *)
Lemma wraps_ext w x y :
  0 < w -> (forall i, 0 <= i < w -> Z.testbit x i = Z.testbit y i) -> wraps w x = wraps w y.
Proof.
  intros Hw Hxy. apply Z.bits_inj'. intros i Hi. rewrite !testbit_wraps by done.
  apply Hxy. destruct (Z.ltb_spec i w); lia.
Qed.
Lemma land_shl_0 n b x : 0 <= n -> in_u n b -> b .& (x << n) = 0.
Proof.
  intros Hn Hb. apply Z.bits_inj'. intros i Hi. rewrite Z.land_spec, Z.bits_0.
  destruct (decide (i < n)).
  - rewrite Z.shiftl_spec_low by done. apply andb_false_r.
  - by rewrite (in_u_testbit n) by lia || done.
Qed.
Lemma lor_shl_add n b x : 0 <= n -> in_u n b -> b .| (x << n) = b + x * 2 ^ n.
Proof.
  intros Hn Hb. pose proof (Z.add_lor_land b (x << n)) as Hs.
  rewrite land_shl_0 in Hs by done. rewrite <- Z.shiftl_mul_pow2 by done. lia.
Qed.

(** ** The little-endian codec *)
Section le_codec.
Implicit Types (l : list Z) (n : nat) (v : Z).
Abbreviation bytes_ok := (Forall (in_u 8)).

Lemma length_le_split n v : length (le_split n v) = n.
Proof. revert v; induction n; intros; cbn; auto. Qed.
Lemma le_split_bytes n v : bytes_ok (le_split n v).
Proof. revert v; induction n; intros; cbn; constructor; [by apply wrapu_range | done]. Qed.
Lemma le_join_range l : bytes_ok l -> in_u (8 * Z.of_nat (length l)) (le_join l).
Proof.
  induction 1 as [|b l Hb Hl IH]; cbn -[Z.mul]; [unfold in_u; lia|].
  apply in_u_lor; [lia| |].
  - apply (in_u_mono 8); [lia|done].
  - eapply in_u_shl; [| |shelve|exact IH]; lia.
    Unshelve. lia.
Qed.
Lemma le_join_cons b l : in_u 8 b -> le_join (b :: l) = b + le_join l * 2 ^ 8.
Proof. intros. cbn [le_join]. by apply lor_shl_add. Qed.
Lemma le_split_S n v : le_split (S n) v = u8 v :: le_split n (v >> 8).
Proof. done. Qed.
Lemma le_join_split n v : le_join (le_split n v) = wrapu (8 * Z.of_nat n) v.
Proof.
  revert v; induction n as [|n IH]; intros v.
  - unfold wrapu. by rewrite Z.mod_1_r.
  - rewrite le_split_S, le_join_cons, IH by (by apply wrapu_range).
    unfold wrapu. rewrite Z.shiftr_div_pow2 by lia.
    replace (8 * Z.of_nat (S n)) with (8 + 8 * Z.of_nat n) by lia.
    rewrite Z.pow_add_r, Z.rem_mul_r by (try lia; apply Z.pow_nonzero; lia). lia.
Qed.
Lemma le_split_join l : bytes_ok l -> le_split (length l) (le_join l) = l.
Proof.
  induction 1 as [|b l Hb Hl IH]; [done|]. cbn [length]. rewrite le_split_S, le_join_cons by done.
  f_equal.
  - change (2 ^ 8) with 256. unfold wrapu. change (2 ^ 8) with 256.
    rewrite Z.mod_add by lia. by apply Z.mod_small.
  - rewrite Z.shiftr_div_pow2, Z.div_add by lia. rewrite (Z.div_small b) by done. done.
Qed.
Lemma le_split_wrapu n v : le_split n (wrapu (8 * Z.of_nat n) v) = le_split n v.
Proof.
  rewrite <- le_join_split. rewrite <- (length_le_split n v) at 1.
  apply le_split_join, le_split_bytes.
Qed.
Lemma rev_bytes l : bytes_ok l -> bytes_ok (rev l).
Proof. intros. by apply Forall_rev. Qed.
Lemma byteswap_range n v : in_u (8 * Z.of_nat n) (byteswap n v).
Proof.
  unfold byteswap. pose proof (le_join_range (rev (le_split n v))) as Hr.
  rewrite length_rev, length_le_split in Hr. apply Hr, rev_bytes, le_split_bytes.
Qed.
Lemma le_split_byteswap n v : le_split n (byteswap n v) = rev (le_split n v).
Proof.
  unfold byteswap. rewrite <- (length_le_split n v) at 1. rewrite <- length_rev.
  apply le_split_join, rev_bytes, le_split_bytes.
Qed.
Lemma byteswap_involutive n v : in_u (8 * Z.of_nat n) v -> byteswap n (byteswap n v) = v.
Proof.
  intros. unfold byteswap at 1. rewrite le_split_byteswap, rev_involutive, le_join_split.
  by apply wrapu_id.
Qed.
End le_codec.

(** ** Address ranges *)
Definition inside (lo n c : Z) : bool := (lo <=? c) && (c <? lo + n).
Lemma insideP lo n c : reflect (lo <= c < lo + n) (inside lo n c).
Proof. apply iff_reflect. unfold inside. rewrite andb_true_iff, Z.leb_le, Z.ltb_lt. tauto. Qed.
