(* ===== verification/Insns.v ===== *)
(** The instruction classes of [src/mips_insns.hh], counted by the
    interpreter's [insn_histo].  [mipsInsn.t] has the constructors of the
    [INSN_LIST] macro in its order; the [Countable] instance numbers them, so
    that the histogram is a [gmap] keyed by them. *)
From S2P Require Import Prelude.

Module mipsInsn.
Inductive t :=
  | SLL | SRL | SRA | SLLV | SRLV | SRAV | JR | JALR | SYSCALL | MFHI | MTHI | MULT
  | MULTU | DIV | DIVU | ADD | ADDU | SUB | SUBU | AND | OR | XOR | NOR | SLT | SLTU
  | MFLO | MTLO | BEQ | BNE | BLEZ | BGTZ | ADDI | ADDIU | SLTI | SLTIU | ANDI | ORI
  | XORI | LUI | J | JAL | MFC0 | MTC0 | DMFC0 | DMTC0 | MFC1 | MTC1 | DMFC1 | DMTC1
  | CFC1 | CTC1 | LW | LWU | LB | LBU | LH | LHU | SB | SH | SW | BEQL | BNEL | BLTZ
  | BGEZ | BLTZL | BGEZL | BGTZL | BLEZL | MOVN | MOVZ | TEQ | TNE | TGE | TGEU | TLT
  | TLTU | TGEI | TGEIU | TLTI | TLTIU | TEQI | TNEI | LWL | LWR | SWL | SWR | DADD
  | DADDU | DADDI | DADDIU | DSUB | DSUBU | DMULT | DMULTU | DDIV | DDIVU | DSLL | DSRL
  | DSRA | DSLL32 | DSRL32 | DSRA32 | DSLLV | DSRLV | DSRAV | LD | SD | LDL | LDR | SDL
  | SDR | BAL | BGEZAL | BGEZALL | BLTZAL | BLTZALL | SC | LLD | SCD | SYNC | BREAK
  | SDC1 | LDC1 | SWC1 | LWC1 | SP_ABS | DP_ABS | SP_NEG | DP_NEG | SP_SQRT | DP_SQRT
  | SP_RSQRT | DP_RSQRT | SP_RECIP | DP_RECIP | SP_ADD | DP_ADD | SP_SUB | DP_SUB
  | SP_MUL | DP_MUL | SP_DIV | DP_DIV | SP_MOV | DP_MOV | BC1TL | BC1T | BC1FL | BC1F
  | SP_CMP_LT | DP_CMP_LT | SP_CMP_EQ | DP_CMP_EQ | SP_CMP_LE | DP_CMP_LE | TRUNC_DP_W
  | TRUNC_SP_W | CVT_W_DP | CVT_W_SP | CVT_SP_DP | CVT_DP_SP | MOVF | MOVT | FP_MOVN
  | FP_MOVZ | FP_MOVF | FP_MOVT | ERET | TLBR | TLBWI | TLBWR | TLBP | DI | EI | WAIT
  | MOVI | MOV | MONITOR | NOP | II.

(** Every class, in the order of the macro. *)
Definition all : list t :=
  [SLL; SRL; SRA; SLLV; SRLV; SRAV; JR; JALR; SYSCALL; MFHI; MTHI; MULT; MULTU;
   DIV; DIVU; ADD; ADDU; SUB; SUBU; AND; OR; XOR; NOR; SLT; SLTU; MFLO; MTLO; BEQ;
   BNE; BLEZ; BGTZ; ADDI; ADDIU; SLTI; SLTIU; ANDI; ORI; XORI; LUI; J; JAL; MFC0;
   MTC0; DMFC0; DMTC0; MFC1; MTC1; DMFC1; DMTC1; CFC1; CTC1; LW; LWU; LB; LBU; LH;
   LHU; SB; SH; SW; BEQL; BNEL; BLTZ; BGEZ; BLTZL; BGEZL; BGTZL; BLEZL; MOVN;
   MOVZ; TEQ; TNE; TGE; TGEU; TLT; TLTU; TGEI; TGEIU; TLTI; TLTIU; TEQI; TNEI;
   LWL; LWR; SWL; SWR; DADD; DADDU; DADDI; DADDIU; DSUB; DSUBU; DMULT; DMULTU;
   DDIV; DDIVU; DSLL; DSRL; DSRA; DSLL32; DSRL32; DSRA32; DSLLV; DSRLV; DSRAV; LD;
   SD; LDL; LDR; SDL; SDR; BAL; BGEZAL; BGEZALL; BLTZAL; BLTZALL; SC; LLD; SCD;
   SYNC; BREAK; SDC1; LDC1; SWC1; LWC1; SP_ABS; DP_ABS; SP_NEG; DP_NEG; SP_SQRT;
   DP_SQRT; SP_RSQRT; DP_RSQRT; SP_RECIP; DP_RECIP; SP_ADD; DP_ADD; SP_SUB;
   DP_SUB; SP_MUL; DP_MUL; SP_DIV; DP_DIV; SP_MOV; DP_MOV; BC1TL; BC1T; BC1FL;
   BC1F; SP_CMP_LT; DP_CMP_LT; SP_CMP_EQ; DP_CMP_EQ; SP_CMP_LE; DP_CMP_LE;
   TRUNC_DP_W; TRUNC_SP_W; CVT_W_DP; CVT_W_SP; CVT_SP_DP; CVT_DP_SP; MOVF; MOVT;
   FP_MOVN; FP_MOVZ; FP_MOVF; FP_MOVT; ERET; TLBR; TLBWI; TLBWR; TLBP; DI; EI;
   WAIT; MOVI; MOV; MONITOR; NOP; II].

(** The position of a class in the list is its code. *)
Definition code (x : t) : nat :=
  match x with
  | SLL => 0 | SRL => 1 | SRA => 2 | SLLV => 3 | SRLV => 4 | SRAV => 5 | JR => 6
  | JALR => 7 | SYSCALL => 8 | MFHI => 9 | MTHI => 10 | MULT => 11 | MULTU => 12
  | DIV => 13 | DIVU => 14 | ADD => 15 | ADDU => 16 | SUB => 17 | SUBU => 18 | AND => 19
  | OR => 20 | XOR => 21 | NOR => 22 | SLT => 23 | SLTU => 24 | MFLO => 25 | MTLO => 26
  | BEQ => 27 | BNE => 28 | BLEZ => 29 | BGTZ => 30 | ADDI => 31 | ADDIU => 32
  | SLTI => 33 | SLTIU => 34 | ANDI => 35 | ORI => 36 | XORI => 37 | LUI => 38 | J => 39
  | JAL => 40 | MFC0 => 41 | MTC0 => 42 | DMFC0 => 43 | DMTC0 => 44 | MFC1 => 45
  | MTC1 => 46 | DMFC1 => 47 | DMTC1 => 48 | CFC1 => 49 | CTC1 => 50 | LW => 51
  | LWU => 52 | LB => 53 | LBU => 54 | LH => 55 | LHU => 56 | SB => 57 | SH => 58
  | SW => 59 | BEQL => 60 | BNEL => 61 | BLTZ => 62 | BGEZ => 63 | BLTZL => 64
  | BGEZL => 65 | BGTZL => 66 | BLEZL => 67 | MOVN => 68 | MOVZ => 69 | TEQ => 70
  | TNE => 71 | TGE => 72 | TGEU => 73 | TLT => 74 | TLTU => 75 | TGEI => 76
  | TGEIU => 77 | TLTI => 78 | TLTIU => 79 | TEQI => 80 | TNEI => 81 | LWL => 82
  | LWR => 83 | SWL => 84 | SWR => 85 | DADD => 86 | DADDU => 87 | DADDI => 88
  | DADDIU => 89 | DSUB => 90 | DSUBU => 91 | DMULT => 92 | DMULTU => 93 | DDIV => 94
  | DDIVU => 95 | DSLL => 96 | DSRL => 97 | DSRA => 98 | DSLL32 => 99 | DSRL32 => 100
  | DSRA32 => 101 | DSLLV => 102 | DSRLV => 103 | DSRAV => 104 | LD => 105 | SD => 106
  | LDL => 107 | LDR => 108 | SDL => 109 | SDR => 110 | BAL => 111 | BGEZAL => 112
  | BGEZALL => 113 | BLTZAL => 114 | BLTZALL => 115 | SC => 116 | LLD => 117
  | SCD => 118 | SYNC => 119 | BREAK => 120 | SDC1 => 121 | LDC1 => 122 | SWC1 => 123
  | LWC1 => 124 | SP_ABS => 125 | DP_ABS => 126 | SP_NEG => 127 | DP_NEG => 128
  | SP_SQRT => 129 | DP_SQRT => 130 | SP_RSQRT => 131 | DP_RSQRT => 132
  | SP_RECIP => 133 | DP_RECIP => 134 | SP_ADD => 135 | DP_ADD => 136 | SP_SUB => 137
  | DP_SUB => 138 | SP_MUL => 139 | DP_MUL => 140 | SP_DIV => 141 | DP_DIV => 142
  | SP_MOV => 143 | DP_MOV => 144 | BC1TL => 145 | BC1T => 146 | BC1FL => 147
  | BC1F => 148 | SP_CMP_LT => 149 | DP_CMP_LT => 150 | SP_CMP_EQ => 151
  | DP_CMP_EQ => 152 | SP_CMP_LE => 153 | DP_CMP_LE => 154 | TRUNC_DP_W => 155
  | TRUNC_SP_W => 156 | CVT_W_DP => 157 | CVT_W_SP => 158 | CVT_SP_DP => 159
  | CVT_DP_SP => 160 | MOVF => 161 | MOVT => 162 | FP_MOVN => 163 | FP_MOVZ => 164
  | FP_MOVF => 165 | FP_MOVT => 166 | ERET => 167 | TLBR => 168 | TLBWI => 169
  | TLBWR => 170 | TLBP => 171 | DI => 172 | EI => 173 | WAIT => 174 | MOVI => 175
  | MOV => 176 | MONITOR => 177 | NOP => 178 | II => 179
  end%nat.

Lemma all_code x : all !! code x = Some x.
Proof. by destruct x. Qed.
Lemma code_inj x y : code x = code y -> x = y.
Proof. intros H. pose proof (all_code x) as Hx. rewrite H, all_code in Hx. by simplify_eq. Qed.

#[export] Instance t_eq_dec : EqDecision t := fun x y =>
  match decide (code x = code y) with
  | left H => left (code_inj x y H)
  | right H => right (fun e => H (f_equal code e))
  end.
#[export] Instance t_countable : Countable t :=
  inj_countable code (fun k => all !! k) all_code.
End mipsInsn.
Export (hints) mipsInsn.
