(* ===== verification/State.v ===== *)
(** The data of the interpreter: [state_t] of [src/interpret.hh] with the
    file-scope statics of [src/interpret.cc] the handlers share, the memory
    object of [src/sparse_mem.hh] (its operations are in [Mem]), the build
    configuration, and the CP0, FP-control and status constants. *)
From S2P Require Import Prelude Insns.

(** * Build configuration: the preprocessor switches of the interpreter. *)
Class Config := {
  ENABLE_R10000 : bool;       (* -DENABLE_R10000 *)
  ENABLE_MIPS4 : bool;        (* -DENABLE_MIPS4 *)
  ISS_FULL_MIPS4 : bool;      (* -DISS_FULL_MIPS4 *)
  LLSC_BREAK_ON_LOAD : bool;  (* interpret.hh: the conservative LL/SC model *)
  STORE_CHECK : bool;         (* -DSTORE_CHECK *)
}.
(** The switches of the committed [machine.vh] and Makefile: an R4400. *)
Definition r4400_config : Config :=
  {| ENABLE_R10000 := false; ENABLE_MIPS4 := false; ISS_FULL_MIPS4 := false;
     LLSC_BREAK_ON_LOAD := false; STORE_CHECK := false |}.

Definition IS_LITTLE_ENDIAN : bool := false.

Section config.
Context `{Config}.
Definition NUM_TLB_ENTRIES : Z := if ENABLE_R10000 then 64 else 48.
Definition SEGBITS : Z := if ENABLE_R10000 then 44 else 40.
Definition VPN2_MASK : Z := (1 << (SEGBITS - 13)) - 1.
Definition ISS_MIPS4 : bool := ISS_FULL_MIPS4.
Definition ISS_MIPS4_CMOV : bool := ENABLE_MIPS4 || ISS_FULL_MIPS4.
End config.

(** * CP0 Status bits and register numbers *)
Definition SR_IE : Z := 1 << 0.
Definition SR_EXL : Z := 1 << 1.
Definition SR_ERL : Z := 1 << 2.
Definition SR_UX : Z := 1 << 5.
Definition SR_SX : Z := 1 << 6.
Definition SR_KX : Z := 1 << 7.
Definition SR_BEV : Z := 1 << 22.
Definition SR_FR : Z := 1 << 26.
Definition SR_CU0 : Z := 1 << 28.
Definition SR_CU1 : Z := 1 << 29.
Definition SR_CU2 : Z := 1 << 30.
Definition SR_CU3 : Z := 1 << 31.

Definition CPR0_INDEX : Z := 0.
Definition CPR0_RANDOM : Z := 1.
Definition CPR0_ENTRYLO0 : Z := 2.
Definition CPR0_ENTRYLO1 : Z := 3.
Definition CPR0_CONTEXT : Z := 4.
Definition CPR0_PAGEMASK : Z := 5.
Definition CPR0_WIRED : Z := 6.
Definition CPR0_BADVADDR : Z := 8.
Definition CPR0_COUNT : Z := 9.
Definition CPR0_ENTRYHI : Z := 10.
Definition CPR0_COMPARE : Z := 11.
Definition CPR0_SR : Z := 12.
Definition CPR0_CAUSE : Z := 13.
Definition CPR0_EPC : Z := 14.
Definition CPR0_PRID : Z := 15.
Definition CPR0_CONFIG : Z := 16.
Definition CPR0_XCONTEXT : Z := 20.
Definition CPR0_ERROREPC : Z := 30.

Definition PRID_R4400 : Z := 0x00000440.
Definition PRID_VALUE : Z := PRID_R4400.
Definition CONFIG_VALUE : Z := 0x0002e483.

(** disassemble.hh: the compact FP-control indices and the .fmt codes. *)
Definition CP1_CR0 : Z := 0.
Definition CP1_CR31 : Z := 1.
Definition CP1_CR25 : Z := 2.
Definition CP1_CR26 : Z := 3.
Definition CP1_CR28 : Z := 4.
Definition FMT_S : Z := 16.
Definition FMT_D : Z := 17.
Definition FMT_W : Z := 20.
Definition FMT_L : Z := 21.

(** * Records *)
Inductive fp_reg_state := fp_unknown | fp_sp | fp_dp.
#[export] Instance fp_reg_state_zero : Zero fp_reg_state := fp_unknown.
#[export] Instance fp_reg_state_eq_dec : EqDecision fp_reg_state.
Proof. solve_decision. Defined.

Record tlb_entry_t := mk_tlb_entry {
  entry_hi : Z;    (* R[63:62] + VPN2[39:13] + ASID[7:0] *)
  entry_lo0 : Z;   (* PFN[33:6] + C[5:3] + D[2] + V[1] + G[0] *)
  entry_lo1 : Z;
  page_mask : Z;   (* variable page size bits [24:13] *)
}.
#[export] Instance tlb_entry_zero : Zero tlb_entry_t := mk_tlb_entry 0 0 0 0.

Record utlb_entry := mk_utlb_entry {
  u_vpn : Z; u_asid : Z; u_ppn : Z; u_dirty : bool; u_valid : bool;
}.
#[export] Instance utlb_entry_zero : Zero utlb_entry := mk_utlb_entry 0 0 0 false false.

(** co-sim store record: (pc, physical address, data) *)
Record store_rec := mk_store_rec { sr_pc : Z; sr_addr : Z; sr_data : Z }.

Inductive host_event :=
  | EvPutChar (c : Z)                          (* fputc / putchar *)
  | EvBreakOrSyscall                           (* "got break or syscall" *)
  | EvUnimplemented (opcode funct vpc : Z).    (* raise_ri's diagnostic *)

Record sparse_mem := mk_sparse_mem {
  mem_bytes : Zmap Z;       (* the 4 GB anonymous mapping, zero-filled *)
  route_devices : bool;     (* the IP22 low-memory alias *)
}.

(** * The machine state *)
#[projections(primitive)]
Record state := mkState {
  pc : Z;   (* reg_t: the program counter, [int64_t] *)
  gpr : Zmap Z;   (* the 32 general registers, [int64_t] *)
  lo : Z;
  hi : Z;
  cpr0 : Zmap Z;   (* CP0 registers, the [uint32_t] view *)
  cpr1 : Zmap Z;   (* FP registers, [uint64_t] *)
  fcr1 : Zmap Z;   (* FP control registers, [uint32_t] *)
  icnt : Z;
  brk : Z;
  mem : sparse_mem;
  cpr1_state : Zmap fp_reg_state;
  insn_histo : gmap mipsInsn.t Z;
  tlb : Zmap tlb_entry_t;   (* the architectural TLB *)
  cpr0_64 : Zmap Z;   (* CP0 registers, the [uint64_t] shadow *)
  silent : bool;
  ll_link_valid : bool;
  ll_link_addr : Z;
  in_delay_slot : bool;
  tlb_fault : bool;
  g_utlb : Zmap utlb_entry;   (* file-scope statics of interpret.cc from here *)
  g_iss_last_ld_va : Z;
  g_iss_tlb_ext : bool;
  g_iss_os_mode : bool;
  no_utlb : bool;   (* [getenv(NOUTLB)]: the micro-TLB bypass *)
  g_iss_stores : list store_rec;
  host_out : list host_event;   (* what the host process printed, latest first *)
}.

(** Field updates, [set_f v s] for [s->f = v]. *)
Definition set_pc (v : Z) (s : state) : state :=
  {| pc := v; gpr := gpr s; lo := lo s; hi := hi s; cpr0 := cpr0 s; cpr1 := cpr1 s; fcr1 := fcr1
     s; icnt := icnt s; brk := brk s; mem := mem s; cpr1_state := cpr1_state s; insn_histo :=
     insn_histo s; tlb := tlb s; cpr0_64 := cpr0_64 s; silent := silent s; ll_link_valid :=
     ll_link_valid s; ll_link_addr := ll_link_addr s; in_delay_slot := in_delay_slot s; tlb_fault
     := tlb_fault s; g_utlb := g_utlb s; g_iss_last_ld_va := g_iss_last_ld_va s; g_iss_tlb_ext :=
     g_iss_tlb_ext s; g_iss_os_mode := g_iss_os_mode s; no_utlb := no_utlb s; g_iss_stores :=
     g_iss_stores s; host_out := host_out s |}.
Definition set_gpr (v : Zmap Z) (s : state) : state :=
  {| pc := pc s; gpr := v; lo := lo s; hi := hi s; cpr0 := cpr0 s; cpr1 := cpr1 s; fcr1 := fcr1
     s; icnt := icnt s; brk := brk s; mem := mem s; cpr1_state := cpr1_state s; insn_histo :=
     insn_histo s; tlb := tlb s; cpr0_64 := cpr0_64 s; silent := silent s; ll_link_valid :=
     ll_link_valid s; ll_link_addr := ll_link_addr s; in_delay_slot := in_delay_slot s; tlb_fault
     := tlb_fault s; g_utlb := g_utlb s; g_iss_last_ld_va := g_iss_last_ld_va s; g_iss_tlb_ext :=
     g_iss_tlb_ext s; g_iss_os_mode := g_iss_os_mode s; no_utlb := no_utlb s; g_iss_stores :=
     g_iss_stores s; host_out := host_out s |}.
Definition set_lo (v : Z) (s : state) : state :=
  {| pc := pc s; gpr := gpr s; lo := v; hi := hi s; cpr0 := cpr0 s; cpr1 := cpr1 s; fcr1 := fcr1
     s; icnt := icnt s; brk := brk s; mem := mem s; cpr1_state := cpr1_state s; insn_histo :=
     insn_histo s; tlb := tlb s; cpr0_64 := cpr0_64 s; silent := silent s; ll_link_valid :=
     ll_link_valid s; ll_link_addr := ll_link_addr s; in_delay_slot := in_delay_slot s; tlb_fault
     := tlb_fault s; g_utlb := g_utlb s; g_iss_last_ld_va := g_iss_last_ld_va s; g_iss_tlb_ext :=
     g_iss_tlb_ext s; g_iss_os_mode := g_iss_os_mode s; no_utlb := no_utlb s; g_iss_stores :=
     g_iss_stores s; host_out := host_out s |}.
Definition set_hi (v : Z) (s : state) : state :=
  {| pc := pc s; gpr := gpr s; lo := lo s; hi := v; cpr0 := cpr0 s; cpr1 := cpr1 s; fcr1 := fcr1
     s; icnt := icnt s; brk := brk s; mem := mem s; cpr1_state := cpr1_state s; insn_histo :=
     insn_histo s; tlb := tlb s; cpr0_64 := cpr0_64 s; silent := silent s; ll_link_valid :=
     ll_link_valid s; ll_link_addr := ll_link_addr s; in_delay_slot := in_delay_slot s; tlb_fault
     := tlb_fault s; g_utlb := g_utlb s; g_iss_last_ld_va := g_iss_last_ld_va s; g_iss_tlb_ext :=
     g_iss_tlb_ext s; g_iss_os_mode := g_iss_os_mode s; no_utlb := no_utlb s; g_iss_stores :=
     g_iss_stores s; host_out := host_out s |}.
Definition set_cpr0 (v : Zmap Z) (s : state) : state :=
  {| pc := pc s; gpr := gpr s; lo := lo s; hi := hi s; cpr0 := v; cpr1 := cpr1 s; fcr1 := fcr1 s;
     icnt := icnt s; brk := brk s; mem := mem s; cpr1_state := cpr1_state s; insn_histo :=
     insn_histo s; tlb := tlb s; cpr0_64 := cpr0_64 s; silent := silent s; ll_link_valid :=
     ll_link_valid s; ll_link_addr := ll_link_addr s; in_delay_slot := in_delay_slot s; tlb_fault
     := tlb_fault s; g_utlb := g_utlb s; g_iss_last_ld_va := g_iss_last_ld_va s; g_iss_tlb_ext :=
     g_iss_tlb_ext s; g_iss_os_mode := g_iss_os_mode s; no_utlb := no_utlb s; g_iss_stores :=
     g_iss_stores s; host_out := host_out s |}.
Definition set_cpr1 (v : Zmap Z) (s : state) : state :=
  {| pc := pc s; gpr := gpr s; lo := lo s; hi := hi s; cpr0 := cpr0 s; cpr1 := v; fcr1 := fcr1 s;
     icnt := icnt s; brk := brk s; mem := mem s; cpr1_state := cpr1_state s; insn_histo :=
     insn_histo s; tlb := tlb s; cpr0_64 := cpr0_64 s; silent := silent s; ll_link_valid :=
     ll_link_valid s; ll_link_addr := ll_link_addr s; in_delay_slot := in_delay_slot s; tlb_fault
     := tlb_fault s; g_utlb := g_utlb s; g_iss_last_ld_va := g_iss_last_ld_va s; g_iss_tlb_ext :=
     g_iss_tlb_ext s; g_iss_os_mode := g_iss_os_mode s; no_utlb := no_utlb s; g_iss_stores :=
     g_iss_stores s; host_out := host_out s |}.
Definition set_fcr1 (v : Zmap Z) (s : state) : state :=
  {| pc := pc s; gpr := gpr s; lo := lo s; hi := hi s; cpr0 := cpr0 s; cpr1 := cpr1 s; fcr1 := v;
     icnt := icnt s; brk := brk s; mem := mem s; cpr1_state := cpr1_state s; insn_histo :=
     insn_histo s; tlb := tlb s; cpr0_64 := cpr0_64 s; silent := silent s; ll_link_valid :=
     ll_link_valid s; ll_link_addr := ll_link_addr s; in_delay_slot := in_delay_slot s; tlb_fault
     := tlb_fault s; g_utlb := g_utlb s; g_iss_last_ld_va := g_iss_last_ld_va s; g_iss_tlb_ext :=
     g_iss_tlb_ext s; g_iss_os_mode := g_iss_os_mode s; no_utlb := no_utlb s; g_iss_stores :=
     g_iss_stores s; host_out := host_out s |}.
Definition set_icnt (v : Z) (s : state) : state :=
  {| pc := pc s; gpr := gpr s; lo := lo s; hi := hi s; cpr0 := cpr0 s; cpr1 := cpr1 s; fcr1 :=
     fcr1 s; icnt := v; brk := brk s; mem := mem s; cpr1_state := cpr1_state s; insn_histo :=
     insn_histo s; tlb := tlb s; cpr0_64 := cpr0_64 s; silent := silent s; ll_link_valid :=
     ll_link_valid s; ll_link_addr := ll_link_addr s; in_delay_slot := in_delay_slot s; tlb_fault
     := tlb_fault s; g_utlb := g_utlb s; g_iss_last_ld_va := g_iss_last_ld_va s; g_iss_tlb_ext :=
     g_iss_tlb_ext s; g_iss_os_mode := g_iss_os_mode s; no_utlb := no_utlb s; g_iss_stores :=
     g_iss_stores s; host_out := host_out s |}.
Definition set_brk (v : Z) (s : state) : state :=
  {| pc := pc s; gpr := gpr s; lo := lo s; hi := hi s; cpr0 := cpr0 s; cpr1 := cpr1 s; fcr1 :=
     fcr1 s; icnt := icnt s; brk := v; mem := mem s; cpr1_state := cpr1_state s; insn_histo :=
     insn_histo s; tlb := tlb s; cpr0_64 := cpr0_64 s; silent := silent s; ll_link_valid :=
     ll_link_valid s; ll_link_addr := ll_link_addr s; in_delay_slot := in_delay_slot s; tlb_fault
     := tlb_fault s; g_utlb := g_utlb s; g_iss_last_ld_va := g_iss_last_ld_va s; g_iss_tlb_ext :=
     g_iss_tlb_ext s; g_iss_os_mode := g_iss_os_mode s; no_utlb := no_utlb s; g_iss_stores :=
     g_iss_stores s; host_out := host_out s |}.
Definition set_mem (v : sparse_mem) (s : state) : state :=
  {| pc := pc s; gpr := gpr s; lo := lo s; hi := hi s; cpr0 := cpr0 s; cpr1 := cpr1 s; fcr1 :=
     fcr1 s; icnt := icnt s; brk := brk s; mem := v; cpr1_state := cpr1_state s; insn_histo :=
     insn_histo s; tlb := tlb s; cpr0_64 := cpr0_64 s; silent := silent s; ll_link_valid :=
     ll_link_valid s; ll_link_addr := ll_link_addr s; in_delay_slot := in_delay_slot s; tlb_fault
     := tlb_fault s; g_utlb := g_utlb s; g_iss_last_ld_va := g_iss_last_ld_va s; g_iss_tlb_ext :=
     g_iss_tlb_ext s; g_iss_os_mode := g_iss_os_mode s; no_utlb := no_utlb s; g_iss_stores :=
     g_iss_stores s; host_out := host_out s |}.
Definition set_cpr1_state (v : Zmap fp_reg_state) (s : state) : state :=
  {| pc := pc s; gpr := gpr s; lo := lo s; hi := hi s; cpr0 := cpr0 s; cpr1 := cpr1 s; fcr1 :=
     fcr1 s; icnt := icnt s; brk := brk s; mem := mem s; cpr1_state := v; insn_histo :=
     insn_histo s; tlb := tlb s; cpr0_64 := cpr0_64 s; silent := silent s; ll_link_valid :=
     ll_link_valid s; ll_link_addr := ll_link_addr s; in_delay_slot := in_delay_slot s; tlb_fault
     := tlb_fault s; g_utlb := g_utlb s; g_iss_last_ld_va := g_iss_last_ld_va s; g_iss_tlb_ext :=
     g_iss_tlb_ext s; g_iss_os_mode := g_iss_os_mode s; no_utlb := no_utlb s; g_iss_stores :=
     g_iss_stores s; host_out := host_out s |}.
Definition set_insn_histo (v : gmap mipsInsn.t Z) (s : state) : state :=
  {| pc := pc s; gpr := gpr s; lo := lo s; hi := hi s; cpr0 := cpr0 s; cpr1 := cpr1 s; fcr1 :=
     fcr1 s; icnt := icnt s; brk := brk s; mem := mem s; cpr1_state := cpr1_state s; insn_histo
     := v; tlb := tlb s; cpr0_64 := cpr0_64 s; silent := silent s; ll_link_valid := ll_link_valid
     s; ll_link_addr := ll_link_addr s; in_delay_slot := in_delay_slot s; tlb_fault := tlb_fault
     s; g_utlb := g_utlb s; g_iss_last_ld_va := g_iss_last_ld_va s; g_iss_tlb_ext :=
     g_iss_tlb_ext s; g_iss_os_mode := g_iss_os_mode s; no_utlb := no_utlb s; g_iss_stores :=
     g_iss_stores s; host_out := host_out s |}.
Definition set_tlb (v : Zmap tlb_entry_t) (s : state) : state :=
  {| pc := pc s; gpr := gpr s; lo := lo s; hi := hi s; cpr0 := cpr0 s; cpr1 := cpr1 s; fcr1 :=
     fcr1 s; icnt := icnt s; brk := brk s; mem := mem s; cpr1_state := cpr1_state s; insn_histo
     := insn_histo s; tlb := v; cpr0_64 := cpr0_64 s; silent := silent s; ll_link_valid :=
     ll_link_valid s; ll_link_addr := ll_link_addr s; in_delay_slot := in_delay_slot s; tlb_fault
     := tlb_fault s; g_utlb := g_utlb s; g_iss_last_ld_va := g_iss_last_ld_va s; g_iss_tlb_ext :=
     g_iss_tlb_ext s; g_iss_os_mode := g_iss_os_mode s; no_utlb := no_utlb s; g_iss_stores :=
     g_iss_stores s; host_out := host_out s |}.
Definition set_cpr0_64 (v : Zmap Z) (s : state) : state :=
  {| pc := pc s; gpr := gpr s; lo := lo s; hi := hi s; cpr0 := cpr0 s; cpr1 := cpr1 s; fcr1 :=
     fcr1 s; icnt := icnt s; brk := brk s; mem := mem s; cpr1_state := cpr1_state s; insn_histo
     := insn_histo s; tlb := tlb s; cpr0_64 := v; silent := silent s; ll_link_valid :=
     ll_link_valid s; ll_link_addr := ll_link_addr s; in_delay_slot := in_delay_slot s; tlb_fault
     := tlb_fault s; g_utlb := g_utlb s; g_iss_last_ld_va := g_iss_last_ld_va s; g_iss_tlb_ext :=
     g_iss_tlb_ext s; g_iss_os_mode := g_iss_os_mode s; no_utlb := no_utlb s; g_iss_stores :=
     g_iss_stores s; host_out := host_out s |}.
Definition set_silent (v : bool) (s : state) : state :=
  {| pc := pc s; gpr := gpr s; lo := lo s; hi := hi s; cpr0 := cpr0 s; cpr1 := cpr1 s; fcr1 :=
     fcr1 s; icnt := icnt s; brk := brk s; mem := mem s; cpr1_state := cpr1_state s; insn_histo
     := insn_histo s; tlb := tlb s; cpr0_64 := cpr0_64 s; silent := v; ll_link_valid :=
     ll_link_valid s; ll_link_addr := ll_link_addr s; in_delay_slot := in_delay_slot s; tlb_fault
     := tlb_fault s; g_utlb := g_utlb s; g_iss_last_ld_va := g_iss_last_ld_va s; g_iss_tlb_ext :=
     g_iss_tlb_ext s; g_iss_os_mode := g_iss_os_mode s; no_utlb := no_utlb s; g_iss_stores :=
     g_iss_stores s; host_out := host_out s |}.
Definition set_ll_link_valid (v : bool) (s : state) : state :=
  {| pc := pc s; gpr := gpr s; lo := lo s; hi := hi s; cpr0 := cpr0 s; cpr1 := cpr1 s; fcr1 :=
     fcr1 s; icnt := icnt s; brk := brk s; mem := mem s; cpr1_state := cpr1_state s; insn_histo
     := insn_histo s; tlb := tlb s; cpr0_64 := cpr0_64 s; silent := silent s; ll_link_valid := v;
     ll_link_addr := ll_link_addr s; in_delay_slot := in_delay_slot s; tlb_fault := tlb_fault s;
     g_utlb := g_utlb s; g_iss_last_ld_va := g_iss_last_ld_va s; g_iss_tlb_ext := g_iss_tlb_ext
     s; g_iss_os_mode := g_iss_os_mode s; no_utlb := no_utlb s; g_iss_stores := g_iss_stores s;
     host_out := host_out s |}.
Definition set_ll_link_addr (v : Z) (s : state) : state :=
  {| pc := pc s; gpr := gpr s; lo := lo s; hi := hi s; cpr0 := cpr0 s; cpr1 := cpr1 s; fcr1 :=
     fcr1 s; icnt := icnt s; brk := brk s; mem := mem s; cpr1_state := cpr1_state s; insn_histo
     := insn_histo s; tlb := tlb s; cpr0_64 := cpr0_64 s; silent := silent s; ll_link_valid :=
     ll_link_valid s; ll_link_addr := v; in_delay_slot := in_delay_slot s; tlb_fault := tlb_fault
     s; g_utlb := g_utlb s; g_iss_last_ld_va := g_iss_last_ld_va s; g_iss_tlb_ext :=
     g_iss_tlb_ext s; g_iss_os_mode := g_iss_os_mode s; no_utlb := no_utlb s; g_iss_stores :=
     g_iss_stores s; host_out := host_out s |}.
Definition set_in_delay_slot (v : bool) (s : state) : state :=
  {| pc := pc s; gpr := gpr s; lo := lo s; hi := hi s; cpr0 := cpr0 s; cpr1 := cpr1 s; fcr1 :=
     fcr1 s; icnt := icnt s; brk := brk s; mem := mem s; cpr1_state := cpr1_state s; insn_histo
     := insn_histo s; tlb := tlb s; cpr0_64 := cpr0_64 s; silent := silent s; ll_link_valid :=
     ll_link_valid s; ll_link_addr := ll_link_addr s; in_delay_slot := v; tlb_fault := tlb_fault
     s; g_utlb := g_utlb s; g_iss_last_ld_va := g_iss_last_ld_va s; g_iss_tlb_ext :=
     g_iss_tlb_ext s; g_iss_os_mode := g_iss_os_mode s; no_utlb := no_utlb s; g_iss_stores :=
     g_iss_stores s; host_out := host_out s |}.
Definition set_tlb_fault (v : bool) (s : state) : state :=
  {| pc := pc s; gpr := gpr s; lo := lo s; hi := hi s; cpr0 := cpr0 s; cpr1 := cpr1 s; fcr1 :=
     fcr1 s; icnt := icnt s; brk := brk s; mem := mem s; cpr1_state := cpr1_state s; insn_histo
     := insn_histo s; tlb := tlb s; cpr0_64 := cpr0_64 s; silent := silent s; ll_link_valid :=
     ll_link_valid s; ll_link_addr := ll_link_addr s; in_delay_slot := in_delay_slot s; tlb_fault
     := v; g_utlb := g_utlb s; g_iss_last_ld_va := g_iss_last_ld_va s; g_iss_tlb_ext :=
     g_iss_tlb_ext s; g_iss_os_mode := g_iss_os_mode s; no_utlb := no_utlb s; g_iss_stores :=
     g_iss_stores s; host_out := host_out s |}.
Definition set_g_utlb (v : Zmap utlb_entry) (s : state) : state :=
  {| pc := pc s; gpr := gpr s; lo := lo s; hi := hi s; cpr0 := cpr0 s; cpr1 := cpr1 s; fcr1 :=
     fcr1 s; icnt := icnt s; brk := brk s; mem := mem s; cpr1_state := cpr1_state s; insn_histo
     := insn_histo s; tlb := tlb s; cpr0_64 := cpr0_64 s; silent := silent s; ll_link_valid :=
     ll_link_valid s; ll_link_addr := ll_link_addr s; in_delay_slot := in_delay_slot s; tlb_fault
     := tlb_fault s; g_utlb := v; g_iss_last_ld_va := g_iss_last_ld_va s; g_iss_tlb_ext :=
     g_iss_tlb_ext s; g_iss_os_mode := g_iss_os_mode s; no_utlb := no_utlb s; g_iss_stores :=
     g_iss_stores s; host_out := host_out s |}.
Definition set_g_iss_last_ld_va (v : Z) (s : state) : state :=
  {| pc := pc s; gpr := gpr s; lo := lo s; hi := hi s; cpr0 := cpr0 s; cpr1 := cpr1 s; fcr1 :=
     fcr1 s; icnt := icnt s; brk := brk s; mem := mem s; cpr1_state := cpr1_state s; insn_histo
     := insn_histo s; tlb := tlb s; cpr0_64 := cpr0_64 s; silent := silent s; ll_link_valid :=
     ll_link_valid s; ll_link_addr := ll_link_addr s; in_delay_slot := in_delay_slot s; tlb_fault
     := tlb_fault s; g_utlb := g_utlb s; g_iss_last_ld_va := v; g_iss_tlb_ext := g_iss_tlb_ext s;
     g_iss_os_mode := g_iss_os_mode s; no_utlb := no_utlb s; g_iss_stores := g_iss_stores s;
     host_out := host_out s |}.
Definition set_g_iss_tlb_ext (v : bool) (s : state) : state :=
  {| pc := pc s; gpr := gpr s; lo := lo s; hi := hi s; cpr0 := cpr0 s; cpr1 := cpr1 s; fcr1 :=
     fcr1 s; icnt := icnt s; brk := brk s; mem := mem s; cpr1_state := cpr1_state s; insn_histo
     := insn_histo s; tlb := tlb s; cpr0_64 := cpr0_64 s; silent := silent s; ll_link_valid :=
     ll_link_valid s; ll_link_addr := ll_link_addr s; in_delay_slot := in_delay_slot s; tlb_fault
     := tlb_fault s; g_utlb := g_utlb s; g_iss_last_ld_va := g_iss_last_ld_va s; g_iss_tlb_ext :=
     v; g_iss_os_mode := g_iss_os_mode s; no_utlb := no_utlb s; g_iss_stores := g_iss_stores s;
     host_out := host_out s |}.
Definition set_g_iss_os_mode (v : bool) (s : state) : state :=
  {| pc := pc s; gpr := gpr s; lo := lo s; hi := hi s; cpr0 := cpr0 s; cpr1 := cpr1 s; fcr1 :=
     fcr1 s; icnt := icnt s; brk := brk s; mem := mem s; cpr1_state := cpr1_state s; insn_histo
     := insn_histo s; tlb := tlb s; cpr0_64 := cpr0_64 s; silent := silent s; ll_link_valid :=
     ll_link_valid s; ll_link_addr := ll_link_addr s; in_delay_slot := in_delay_slot s; tlb_fault
     := tlb_fault s; g_utlb := g_utlb s; g_iss_last_ld_va := g_iss_last_ld_va s; g_iss_tlb_ext :=
     g_iss_tlb_ext s; g_iss_os_mode := v; no_utlb := no_utlb s; g_iss_stores := g_iss_stores s;
     host_out := host_out s |}.
Definition set_no_utlb (v : bool) (s : state) : state :=
  {| pc := pc s; gpr := gpr s; lo := lo s; hi := hi s; cpr0 := cpr0 s; cpr1 := cpr1 s; fcr1 :=
     fcr1 s; icnt := icnt s; brk := brk s; mem := mem s; cpr1_state := cpr1_state s; insn_histo
     := insn_histo s; tlb := tlb s; cpr0_64 := cpr0_64 s; silent := silent s; ll_link_valid :=
     ll_link_valid s; ll_link_addr := ll_link_addr s; in_delay_slot := in_delay_slot s; tlb_fault
     := tlb_fault s; g_utlb := g_utlb s; g_iss_last_ld_va := g_iss_last_ld_va s; g_iss_tlb_ext :=
     g_iss_tlb_ext s; g_iss_os_mode := g_iss_os_mode s; no_utlb := v; g_iss_stores :=
     g_iss_stores s; host_out := host_out s |}.
Definition set_g_iss_stores (v : list store_rec) (s : state) : state :=
  {| pc := pc s; gpr := gpr s; lo := lo s; hi := hi s; cpr0 := cpr0 s; cpr1 := cpr1 s; fcr1 :=
     fcr1 s; icnt := icnt s; brk := brk s; mem := mem s; cpr1_state := cpr1_state s; insn_histo
     := insn_histo s; tlb := tlb s; cpr0_64 := cpr0_64 s; silent := silent s; ll_link_valid :=
     ll_link_valid s; ll_link_addr := ll_link_addr s; in_delay_slot := in_delay_slot s; tlb_fault
     := tlb_fault s; g_utlb := g_utlb s; g_iss_last_ld_va := g_iss_last_ld_va s; g_iss_tlb_ext :=
     g_iss_tlb_ext s; g_iss_os_mode := g_iss_os_mode s; no_utlb := no_utlb s; g_iss_stores := v;
     host_out := host_out s |}.
Definition set_host_out (v : list host_event) (s : state) : state :=
  {| pc := pc s; gpr := gpr s; lo := lo s; hi := hi s; cpr0 := cpr0 s; cpr1 := cpr1 s; fcr1 :=
     fcr1 s; icnt := icnt s; brk := brk s; mem := mem s; cpr1_state := cpr1_state s; insn_histo
     := insn_histo s; tlb := tlb s; cpr0_64 := cpr0_64 s; silent := silent s; ll_link_valid :=
     ll_link_valid s; ll_link_addr := ll_link_addr s; in_delay_slot := in_delay_slot s; tlb_fault
     := tlb_fault s; g_utlb := g_utlb s; g_iss_last_ld_va := g_iss_last_ld_va s; g_iss_tlb_ext :=
     g_iss_tlb_ext s; g_iss_os_mode := g_iss_os_mode s; no_utlb := no_utlb s; g_iss_stores :=
     g_iss_stores s; host_out := v |}.

(** Array-element updates. *)
Definition set_gpr_at (i v : Z) (s : state) : state := set_gpr (wr i v (gpr s)) s.
Definition set_cpr0_at (i v : Z) (s : state) : state := set_cpr0 (wr i v (cpr0 s)) s.
Definition set_cpr0_64_at (i v : Z) (s : state) : state := set_cpr0_64 (wr i v (cpr0_64 s)) s.
Definition set_cpr1_at (i v : Z) (s : state) : state := set_cpr1 (wr i v (cpr1 s)) s.
Definition set_fcr1_at (i v : Z) (s : state) : state := set_fcr1 (wr i v (fcr1 s)) s.
Definition set_cpr1_state_at (i : Z) (v : fp_reg_state) (s : state) : state :=
  set_cpr1_state (wr i v (cpr1_state s)) s.
Definition set_tlb_at (i : Z) (e : tlb_entry_t) (s : state) : state := set_tlb (wr i e (tlb s)) s.

(** [s->pc += n] in [int64_t] *)
Definition add_pc (n : Z) (s : state) : state := set_pc (s64 (pc s + n)) s.
(** [s->insn_histo[i]++]; the bare [s->insn_histo[i];] inserts a zero count. *)
Definition histo (i : mipsInsn.t) (s : state) : state :=
  set_insn_histo (<[i := u64 (default 0 (insn_histo s !! i) + 1)]> (insn_histo s)) s.
Definition histo_touch (i : mipsInsn.t) (s : state) : state :=
  set_insn_histo (<[i := default 0 (insn_histo s !! i)]> (insn_histo s)) s.
Definition emit (e : host_event) (s : state) : state := set_host_out (e :: host_out s) s.

(** * Construction: the member initialisers of [state_t], over a given memory;
    the statics start as the C++ zero initialisation leaves them. *)
Definition state_init (m : sparse_mem) (noutlb : bool) : state := {|
  pc := 0; gpr := ∅; lo := 0; hi := 0; cpr0 := ∅; cpr1 := ∅; fcr1 := ∅; icnt := 0; brk := 0;
  mem := m; cpr1_state := ∅; insn_histo := ∅; tlb := ∅; cpr0_64 := ∅; silent := false;
  ll_link_valid := false; ll_link_addr := 0; in_delay_slot := false; tlb_fault := false;
  g_utlb := ∅; g_iss_last_ld_va := 0; g_iss_tlb_ext := false; g_iss_os_mode := false;
  no_utlb := noutlb; g_iss_stores := []; host_out := [] |}.

(** [initState] of interpret.cc. *)
Definition initState `{Config} (s : state) : state :=
  s |> set_cpr0_at CPR0_SR ((cpr0 s).[CPR0_SR] .| (SR_ERL .| SR_BEV .| SR_CU0 .| SR_CU2 .| SR_FR))
    |> set_cpr0_at CPR0_RANDOM (NUM_TLB_ENTRIES - 1)
    |> set_cpr0_at CPR0_PRID PRID_VALUE
    |> set_cpr0_64_at CPR0_PRID PRID_VALUE
    |> set_cpr0_at CPR0_CONFIG CONFIG_VALUE
    |> set_cpr0_64_at CPR0_CONFIG CONFIG_VALUE.

(** Read a field of an updated state. *)
Ltac st_simpl :=
  cbn [set_pc set_gpr set_lo set_hi set_cpr0 set_cpr1 set_fcr1 set_icnt set_brk set_mem
    set_cpr1_state set_insn_histo set_tlb set_cpr0_64 set_silent set_ll_link_valid
    set_ll_link_addr set_in_delay_slot set_tlb_fault set_g_utlb set_g_iss_last_ld_va
    set_g_iss_tlb_ext set_g_iss_os_mode set_no_utlb set_g_iss_stores set_host_out set_gpr_at
    set_cpr0_at set_cpr0_64_at set_cpr1_at set_fcr1_at set_cpr1_state_at set_tlb_at add_pc
    histo histo_touch emit pc gpr lo hi cpr0 cpr1 fcr1 icnt brk mem cpr1_state insn_histo
    tlb cpr0_64 silent ll_link_valid ll_link_addr in_delay_slot tlb_fault g_utlb
    g_iss_last_ld_va g_iss_tlb_ext g_iss_os_mode no_utlb g_iss_stores host_out].
Ltac st_simpl_in H :=
  cbn [set_pc set_gpr set_lo set_hi set_cpr0 set_cpr1 set_fcr1 set_icnt set_brk set_mem
    set_cpr1_state set_insn_histo set_tlb set_cpr0_64 set_silent set_ll_link_valid
    set_ll_link_addr set_in_delay_slot set_tlb_fault set_g_utlb set_g_iss_last_ld_va
    set_g_iss_tlb_ext set_g_iss_os_mode set_no_utlb set_g_iss_stores set_host_out set_gpr_at
    set_cpr0_at set_cpr0_64_at set_cpr1_at set_fcr1_at set_cpr1_state_at set_tlb_at add_pc
    histo histo_touch emit pc gpr lo hi cpr0 cpr1 fcr1 icnt brk mem cpr1_state insn_histo
    tlb cpr0_64 silent ll_link_valid ll_link_addr in_delay_slot tlb_fault g_utlb
    g_iss_last_ld_va g_iss_tlb_ext g_iss_os_mode no_utlb g_iss_stores host_out] in H.
(** Read an array cell of an updated state; the indices are literals. *)
Ltac rd_simpl := st_simpl; repeat (rewrite rd_wr_eq || rewrite rd_wr_ne by (done || lia)).
