(* ===== verification/Mem.v ===== *)
(** The simulated physical memory: [sparse_mem] of [src/sparse_mem.hh] and the
    byte swap of [src/helper.hh].  A typed access is [n] bytes in the host's
    little-endian order; an address past the 4 GB mapping is host undefined
    behaviour, and the class's own assertion stops the process before it. *)
From S2P Require Import Prelude Bits State.

Definition mem_sz : Z := 1 << 32.

(** [mc_alias]: the low 512 KB mirror the base of DRAM. *)
Definition mc_alias (pa : Z) : Z := if pa <? 0x80000 then u64 (pa + 0x08000000) else pa.
Definition route (m : sparse_mem) (byte_addr : Z) : Z :=
  if route_devices m then mc_alias byte_addr else byte_addr.

Fixpoint load_bytes (b : Zmap Z) (a : Z) (n : nat) : list Z :=
  match n with
  | O => []
  | S n => b.[a] :: load_bytes b (a + 1) n
  end.
Fixpoint store_bytes (b : Zmap Z) (a : Z) (l : list Z) : Zmap Z :=
  match l with
  | [] => b
  | x :: l => store_bytes (wr a x b) (a + 1) l
  end.

(** [assert(byte_addr < 1UL<<32)], then the host access of [n] bytes. *)
Definition check_addr (n : nat) (a : Z) : result unit :=
  if negb (a <? mem_sz) then Stop HostExit
  else if mem_sz <? a + Z.of_nat n then Stop HostUB
  else Ok tt.
Definition mem_get (n : nat) (byte_addr : Z) (m : sparse_mem) : result Z :=
  let a := route m byte_addr in
  let! _ := check_addr n a in
  Ok (le_join (load_bytes (mem_bytes m) a n)).
Definition mem_set (n : nat) (byte_addr v : Z) (m : sparse_mem) : result sparse_mem :=
  let a := route m byte_addr in
  let! _ := check_addr n a in
  Ok {| mem_bytes := store_bytes (mem_bytes m) a (le_split n v);
        route_devices := route_devices m |}.

(** [bswap<EL, T>] of an [n]-byte T. *)
Definition bswap (EL : bool) (n : nat) (x : Z) : Z := if EL then x else byteswap n x.

(** [clear()] maps a fresh zero-filled region. *)
Definition mem_clear (m : sparse_mem) : sparse_mem :=
  {| mem_bytes := ∅; route_devices := route_devices m |}.

(** Access through the machine state. *)
Definition get (n : nat) (a : Z) (s : state) : result Z := mem_get n a (mem s).
Definition put (n : nat) (a v : Z) (s : state) : result state :=
  let! m := mem_set n a v (mem s) in Ok (set_mem m s).

(** * Theorems *)

(** ** Byte ranges of the mapping *)
Section bytes.
Implicit Types (b : Zmap Z) (a c : Z) (l : list Z) (n : nat).

Lemma length_load_bytes b a n : length (load_bytes b a n) = n.
Proof. revert a; induction n; intros; cbn; auto. Qed.
Lemma rd_store_bytes_out b a l c :
  c < a \/ a + Z.of_nat (length l) <= c -> rd (store_bytes b a l) c = rd b c.
Proof.
  revert b a; induction l as [|x l IH]; intros b a; cbn [store_bytes length]; [done|].
  intros. rewrite IH by lia. apply rd_wr_ne. lia.
Qed.
Lemma load_bytes_ext b b' a n :
  (forall c, a <= c < a + Z.of_nat n -> rd b c = rd b' c) ->
  load_bytes b a n = load_bytes b' a n.
Proof.
  revert a; induction n as [|n IH]; intros a Hb; cbn; [done|].
  f_equal; [apply Hb; lia|]. apply IH. intros; apply Hb; lia.
Qed.
Lemma load_store_bytes b a l : load_bytes (store_bytes b a l) a (length l) = l.
Proof.
  revert b a; induction l as [|x l IH]; intros b a; cbn; [done|]. f_equal; [|apply IH].
  rewrite rd_store_bytes_out by lia. apply rd_wr_eq.
Qed.
Lemma load_store_bytes_disjoint b a l c n :
  c + Z.of_nat n <= a \/ a + Z.of_nat (length l) <= c ->
  load_bytes (store_bytes b a l) c n = load_bytes b c n.
Proof. intros. apply load_bytes_ext. intros. apply rd_store_bytes_out. lia. Qed.
Lemma load_bytes_app b a n m :
  load_bytes b a (n + m) = load_bytes b a n ++ load_bytes b (a + Z.of_nat n) m.
Proof.
  revert a; induction n as [|n IH]; intros a; cbn [load_bytes Nat.add app].
  - f_equal; lia.
  - rewrite IH. do 2 f_equal. f_equal; lia.
Qed.
Lemma store_bytes_app b a l k :
  store_bytes b a (l ++ k) = store_bytes (store_bytes b a l) (a + Z.of_nat (length l)) k.
Proof.
  revert b a; induction l as [|x l IH]; intros b a; cbn [store_bytes length app].
  - f_equal; lia.
  - rewrite IH. f_equal; lia.
Qed.
End bytes.

(** ** Every stored cell is a byte inside the mapping. *)
Definition mem_ok (m : sparse_mem) : Prop :=
  map_Forall (fun a x => 0 <= a < mem_sz /\ in_u 8 x) (mem_bytes m).
Lemma mem_ok_rd m a : mem_ok m -> in_u 8 (rd (mem_bytes m) a).
Proof.
  intros Hm. unfold rd. destruct (mem_bytes m !! a) eqn:Ha; cbn; [|rng].
  apply (Hm _ _ Ha).
Qed.
Lemma load_bytes_ok m a n : mem_ok m -> Forall (in_u 8) (load_bytes (mem_bytes m) a n).
Proof.
  intros Hm. revert a; induction n; intros a; cbn; constructor; [by apply mem_ok_rd | done].
Qed.

(** ** Typed accesses *)
Lemma check_addr_Ok n a : 0 <= a -> a + Z.of_nat n <= mem_sz -> (0 < n)%nat -> check_addr n a = Ok tt.
Proof.
  intros Ha Hn Hpos. unfold check_addr.
  destruct (Z.ltb_spec a mem_sz); [|lia]. destruct (Z.ltb_spec mem_sz (a + Z.of_nat n)); [lia|done].
Qed.
Lemma check_addr_inv n a : check_addr n a = Ok tt -> a + Z.of_nat n <= mem_sz.
Proof.
  unfold check_addr. destruct (Z.ltb_spec a mem_sz); [|done].
  by destruct (Z.ltb_spec mem_sz (a + Z.of_nat n)).
Qed.
Lemma route_nonneg m a : 0 <= a -> 0 <= route m a.
Proof.
  intros. unfold route, mc_alias. destruct (route_devices m); [|done].
  destruct (_ <? _); [|done]. by apply wrapu_range.
Qed.
Lemma mem_get_range n a m v : mem_ok m -> mem_get n a m = Ok v -> in_u (8 * Z.of_nat n) v.
Proof.
  intros Hm. unfold mem_get. destruct (check_addr n _); [|done]. cbn. intros [= <-].
  pose proof (le_join_range (load_bytes (mem_bytes m) (route m a) n)) as Hr.
  rewrite length_load_bytes in Hr. by apply Hr, load_bytes_ok.
Qed.
Lemma mem_set_ok n a v m m' : mem_ok m -> 0 <= a -> mem_set n a v m = Ok m' -> mem_ok m'.
Proof.
  intros Hm Ha. unfold mem_set. destruct (check_addr n _) as [[]|] eqn:Hc; [|done].
  apply check_addr_inv in Hc. pose proof (route_nonneg m a Ha). cbn. intros [= <-].
  unfold mem_ok in *; cbn. pose proof (le_split_bytes n v) as Hb.
  rewrite <- (length_le_split n v) in Hc. revert Hb Hc.
  generalize (le_split n v) as l, (mem_bytes m) as b, (route m a) as c, Hm, H. clear.
  intros l; induction l as [|x l IH]; intros b c Hm H Hb Hc; [done|].
  cbn [store_bytes]. apply Forall_cons in Hb as [Hx Hl]. cbn [length] in Hc. apply IH; try lia; [|done].
  unfold wr. apply map_Forall_insert_2; [|done]. split; [lia|done].
Qed.

(** Reading back what was written, and reading elsewhere. *)
Lemma mem_get_set_eq n a v m m' :
  mem_set n a v m = Ok m' -> mem_get n a m' = Ok (wrapu (8 * Z.of_nat n) v).
Proof.
  unfold mem_set, mem_get. destruct (check_addr n (route m a)) as [[]|] eqn:Hc; [|done].
  cbn. intros [= <-]. change (route _ a) with (route m a). rewrite Hc. cbn. do 2 f_equal.
  rewrite <- (length_le_split n v) at 2. rewrite load_store_bytes. apply le_join_split.
Qed.
Lemma mem_get_set_ne n k a c v m m' :
  route m c + Z.of_nat k <= route m a \/ route m a + Z.of_nat n <= route m c ->
  mem_set n a v m = Ok m' -> mem_get k c m' = mem_get k c m.
Proof.
  intros Hd. unfold mem_set, mem_get. destruct (check_addr n (route m a)) as [[]|] eqn:Hc; [|done].
  cbn. intros [= <-]. change (route _ c) with (route m c). destruct (check_addr k _); [|done]. cbn.
  do 2 f_equal. apply load_store_bytes_disjoint. rewrite length_le_split. lia.
Qed.
Lemma mem_set_route n a v m m' : mem_set n a v m = Ok m' -> route_devices m' = route_devices m.
Proof. unfold mem_set. destruct (check_addr _ _); [|done]. by intros [= <-]. Qed.

(** An aligned access never leaves the mapping: 2^32 is a multiple of its size,
    and the alias moves by a multiple of it. *)
Lemma mc_alias_small pa : 0 <= pa < 0x80000 -> mc_alias pa = pa + 0x08000000.
Proof.
  intros. unfold mc_alias. destruct (Z.ltb_spec pa 0x80000); [|lia].
  apply wrapu_id. unfold in_u. lia.
Qed.
Lemma route_aligned n m a :
  (n = 1 \/ n = 2 \/ n = 4 \/ n = 8)%nat -> in_u 32 a -> a mod Z.of_nat n = 0 ->
  0 <= route m a /\ route m a + Z.of_nat n <= mem_sz.
Proof.
  intros Hn [H0 H1] Ha. change (2 ^ 32) with 4294967296 in H1.
  unfold mem_sz; change (1 << 32) with 4294967296.
  assert (a + Z.of_nat n <= 4294967296).
  { destruct Hn as [->|[->|[->| ->]]]; cbn [Z.of_nat Pos.of_succ_nat Pos.succ] in *;
      Z.div_mod_to_equations; lia. }
  unfold route. destruct (route_devices m); [|lia].
  destruct (decide (a < 0x80000)).
  - rewrite mc_alias_small by lia. lia.
  - unfold mc_alias. destruct (Z.ltb_spec a 0x80000); lia.
Qed.
Lemma mem_get_aligned n m a :
  (n = 1 \/ n = 2 \/ n = 4 \/ n = 8)%nat -> in_u 32 a -> a mod Z.of_nat n = 0 ->
  mem_get n a m = Ok (le_join (load_bytes (mem_bytes m) (route m a) n)).
Proof.
  intros Hn Ha Hal. destruct (route_aligned n m a Hn Ha Hal) as [H0 H1].
  unfold mem_get. rewrite check_addr_Ok; [done|lia|lia|]. destruct Hn as [->|[->|[->| ->]]]; lia.
Qed.
Lemma mem_set_aligned n m a v :
  (n = 1 \/ n = 2 \/ n = 4 \/ n = 8)%nat -> in_u 32 a -> a mod Z.of_nat n = 0 ->
  mem_set n a v m = Ok {| mem_bytes := store_bytes (mem_bytes m) (route m a) (le_split n v);
                          route_devices := route_devices m |}.
Proof.
  intros Hn Ha Hal. destruct (route_aligned n m a Hn Ha Hal) as [H0 H1].
  unfold mem_set. rewrite check_addr_Ok; [done|lia|lia|]. destruct Hn as [->|[->|[->| ->]]]; lia.
Qed.
