(* ===== verification/Wf.v ===== *)
(** The type invariant of the machine state: every integer is in the range of
    its C++ type and every array cell written lies inside its array; the counters of
    the histogram and the records of the store log included.  The
    setters preserve it when the stored value is in range; the database [wf]
    collects these lemmas for the handlers' proofs. *)
From S2P Require Import Prelude Bits Insns State Mem.

Definition arr_ok {A} (n : Z) (P : A -> Prop) (a : Zmap A) : Prop :=
  map_Forall (fun i v => 0 <= i < n /\ P v) a.

Definition tlb_entry_ok (e : tlb_entry_t) : Prop :=
  in_u 64 (entry_hi e) /\ in_u 64 (entry_lo0 e) /\ in_u 64 (entry_lo1 e) /\ in_u 32 (page_mask e).
Definition utlb_entry_ok (e : utlb_entry) : Prop :=
  in_u 64 (u_vpn e) /\ in_u 64 (u_asid e) /\ in_u 32 (u_ppn e).
Definition store_rec_ok (r : store_rec) : Prop :=
  in_u 64 (sr_pc r) /\ in_u 64 (sr_addr r) /\ in_u 64 (sr_data r).

Record wf `{Config} (s : state) : Prop := {
  wf_pc : in_s 64 (pc s);
  wf_gpr : arr_ok 32 (in_s 64) (gpr s);
  wf_lo : in_s 64 (lo s);
  wf_hi : in_s 64 (hi s);
  wf_cpr0 : arr_ok 32 (in_u 32) (cpr0 s);
  wf_cpr0_64 : arr_ok 32 (in_u 64) (cpr0_64 s);
  wf_cpr1 : arr_ok 32 (in_u 64) (cpr1 s);
  wf_fcr1 : arr_ok 5 (in_u 32) (fcr1 s);
  wf_cpr1_state : arr_ok 32 (fun _ => True) (cpr1_state s);
  wf_icnt : in_u 64 (icnt s);
  wf_brk : in_u 8 (brk s);
  wf_insn_histo : map_Forall (fun _ => in_u 64) (insn_histo s);
  wf_mem : mem_ok (mem s);
  wf_tlb : arr_ok NUM_TLB_ENTRIES tlb_entry_ok (tlb s);
  wf_utlb : arr_ok 64 utlb_entry_ok (g_utlb s);
  wf_ll : in_u 64 (ll_link_addr s);
  wf_ld_va : in_u 64 (g_iss_last_ld_va s);
  wf_stores : Forall store_rec_ok (g_iss_stores s);
}.

(** A postcondition of a handler: it holds of the value returned, if any. *)
Definition post {A} (P : A -> Prop) (r : result A) : Prop :=
  match r with Ok a => P a | Stop _ => True end.

(** * Theorems *)
Lemma arr_ok_rd {A} `{Zero A} n (P : A -> Prop) a i : P zero_val -> arr_ok n P a -> P (rd a i).
Proof. intros Hz Ha. unfold rd. destruct (a !! i) eqn:Hi; [|done]. apply (Ha _ _ Hi). Qed.
Lemma arr_ok_wr {A} n (P : A -> Prop) a i v : 0 <= i < n -> P v -> arr_ok n P a -> arr_ok n P (wr i v a).
Proof. intros. by apply map_Forall_insert_2. Qed.
Lemma arr_ok_empty {A} n (P : A -> Prop) : arr_ok n P ∅.
Proof. apply map_Forall_empty. Qed.
Lemma arr_ok_fmap {A} n (P : A -> Prop) f a : (forall v, P v -> P (f v)) -> arr_ok n P a -> arr_ok n P (f <$> a).
Proof.
  intros Hf Ha i v. rewrite lookup_fmap. destruct (a !! i) eqn:Hi; [|done]. cbn. intros [= <-].
  destruct (Ha _ _ Hi). auto.
Qed.

Lemma post_bind {A B} (P : A -> Prop) (Q : B -> Prop) (m : result A) f :
  post P m -> (forall a, P a -> post Q (f a)) -> post Q (m ≫= f).
Proof. destruct m; cbn; auto. Qed.
Lemma post_Ok {A} (P : A -> Prop) a : P a -> post P (Ok a).
Proof. done. Qed.

Section wf.
Context `{Config}.
Implicit Types (s : state) (i v : Z).

Lemma wf_gpr_rd s i : wf s -> in_s 64 (rd (gpr s) i).
Proof. intros Hw. eapply arr_ok_rd; [rng|apply Hw]. Qed.
Lemma wf_cpr0_rd s i : wf s -> in_u 32 (rd (cpr0 s) i).
Proof. intros Hw. eapply arr_ok_rd; [rng|apply Hw]. Qed.
Lemma wf_cpr0_rd_s s i : wf s -> in_s 64 (rd (cpr0 s) i).
Proof. intros. apply (in_s_of_u 64 32); [done|]. by apply wf_cpr0_rd. Qed.
Lemma wf_cpr0_64_rd s i : wf s -> in_u 64 (rd (cpr0_64 s) i).
Proof. intros Hw. eapply arr_ok_rd; [rng|apply Hw]. Qed.
Lemma wf_cpr1_rd s i : wf s -> in_u 64 (rd (cpr1 s) i).
Proof. intros Hw. eapply arr_ok_rd; [rng|apply Hw]. Qed.
Lemma wf_fcr1_rd s i : wf s -> in_u 32 (rd (fcr1 s) i).
Proof. intros Hw. eapply arr_ok_rd; [rng|apply Hw]. Qed.
Lemma wf_tlb_rd s i : wf s -> tlb_entry_ok (rd (tlb s) i).
Proof. intros Hw. eapply arr_ok_rd; [repeat split; done|apply Hw]. Qed.

(** Fields with a range. *)
Lemma wf_set_pc v s : in_s 64 v -> wf s -> wf (set_pc v s).
Proof. by intros ? []. Qed.
Lemma wf_set_lo v s : in_s 64 v -> wf s -> wf (set_lo v s).
Proof. by intros ? []. Qed.
Lemma wf_set_hi v s : in_s 64 v -> wf s -> wf (set_hi v s).
Proof. by intros ? []. Qed.
Lemma wf_set_icnt v s : in_u 64 v -> wf s -> wf (set_icnt v s).
Proof. by intros ? []. Qed.
Lemma wf_set_ll_link_addr v s : in_u 64 v -> wf s -> wf (set_ll_link_addr v s).
Proof. by intros ? []. Qed.
Lemma wf_set_g_iss_last_ld_va v s : in_u 64 v -> wf s -> wf (set_g_iss_last_ld_va v s).
Proof. by intros ? []. Qed.
Lemma wf_set_mem m s : mem_ok m -> wf s -> wf (set_mem m s).
Proof. by intros ? []. Qed.
Lemma wf_set_g_utlb u s : arr_ok 64 utlb_entry_ok u -> wf s -> wf (set_g_utlb u s).
Proof. by intros ? []. Qed.
(** Array cells. *)
Lemma wf_set_gpr_at i v s : 0 <= i < 32 -> in_s 64 v -> wf s -> wf (set_gpr_at i v s).
Proof. intros ?? []. constructor; try done. by apply arr_ok_wr. Qed.
Lemma wf_set_cpr0_at i v s : 0 <= i < 32 -> in_u 32 v -> wf s -> wf (set_cpr0_at i v s).
Proof. intros ?? []. constructor; try done. by apply arr_ok_wr. Qed.
Lemma wf_set_cpr0_64_at i v s : 0 <= i < 32 -> in_u 64 v -> wf s -> wf (set_cpr0_64_at i v s).
Proof. intros ?? []. constructor; try done. by apply arr_ok_wr. Qed.
Lemma wf_set_cpr1_at i v s : 0 <= i < 32 -> in_u 64 v -> wf s -> wf (set_cpr1_at i v s).
Proof. intros ?? []. constructor; try done. by apply arr_ok_wr. Qed.
Lemma wf_set_fcr1_at i v s : 0 <= i < 5 -> in_u 32 v -> wf s -> wf (set_fcr1_at i v s).
Proof. intros ?? []. constructor; try done. by apply arr_ok_wr. Qed.
Lemma wf_set_cpr1_state_at i (v : fp_reg_state) s : 0 <= i < 32 -> wf s -> wf (set_cpr1_state_at i v s).
Proof. intros ? []. constructor; try done. by apply arr_ok_wr. Qed.
Lemma wf_set_tlb_at i e s :
  0 <= i < NUM_TLB_ENTRIES -> tlb_entry_ok e -> wf s -> wf (set_tlb_at i e s).
Proof. intros ?? []. constructor; try done. by apply arr_ok_wr. Qed.
Lemma wf_set_brk v s : in_u 8 v -> wf s -> wf (set_brk v s).
Proof. by intros ? []. Qed.
Lemma wf_set_g_iss_stores l s : Forall store_rec_ok l -> wf s -> wf (set_g_iss_stores l s).
Proof. by intros ? []. Qed.
(** The counters of the instruction histogram. *)
Lemma wf_histo_rd (i : mipsInsn.t) s : wf s -> in_u 64 (default 0 (insn_histo s !! i)).
Proof. intros Hw. destruct (insn_histo s !! i) eqn:E; [exact (wf_insn_histo s Hw _ _ E)|cbn; unfold in_u; lia]. Qed.
Lemma wf_histo (i : mipsInsn.t) s : wf s -> wf (histo i s).
Proof. intros []. constructor; try done. by apply map_Forall_insert_2; [rng|]. Qed.
Lemma wf_histo_touch (i : mipsInsn.t) s : wf s -> wf (histo_touch i s).
Proof. intros Hw. pose proof (wf_histo_rd i s Hw). destruct Hw. constructor; try done. by apply map_Forall_insert_2. Qed.
(** Fields with no constraint. *)
Lemma wf_set_ll_link_valid b s : wf s -> wf (set_ll_link_valid b s).
Proof. by intros []. Qed.
Lemma wf_set_in_delay_slot b s : wf s -> wf (set_in_delay_slot b s).
Proof. by intros []. Qed.
Lemma wf_set_tlb_fault b s : wf s -> wf (set_tlb_fault b s).
Proof. by intros []. Qed.
Lemma wf_emit e s : wf s -> wf (emit e s).
Proof. by intros []. Qed.
Lemma wf_add_pc n s : wf s -> wf (add_pc n s).
Proof. intros. apply wf_set_pc; [rng|done]. Qed.

(** Memory accesses. *)
Lemma post_get n a s : wf s -> post (in_u (8 * Z.of_nat n)) (get n a s).
Proof. intros Hw. destruct (get n a s) eqn:Hg; [|done]. eapply mem_get_range; [apply Hw|done]. Qed.
Lemma post_put n a v s : wf s -> 0 <= a -> post wf (put n a v s).
Proof.
  unfold put. intros Hw Ha. destruct (mem_set n a v (mem s)) eqn:Hs; [|done].
  cbn. apply wf_set_mem; [|done]. eapply mem_set_ok; [apply Hw|done|done].
Qed.

(** The initial state is well formed. *)
Lemma wf_state_init m b : mem_ok m -> wf (state_init m b).
Proof.
  intros. constructor; cbn; first [apply arr_ok_empty | done | apply map_Forall_empty | apply List.Forall_nil | unfold in_u, in_s; lia].
Qed.
End wf.

#[export] Hint Resolve wf_gpr_rd wf_cpr0_rd wf_cpr0_rd_s wf_cpr0_64_rd wf_cpr1_rd wf_fcr1_rd wf_pc wf_lo wf_hi wf_icnt
  wf_ll wf_ld_va : ranges.
#[export] Hint Resolve wf_set_pc wf_set_lo wf_set_hi wf_set_icnt wf_set_ll_link_addr
  wf_set_g_iss_last_ld_va wf_set_mem wf_set_g_utlb wf_set_gpr_at wf_set_cpr0_at wf_set_cpr0_64_at
  wf_set_cpr1_at wf_set_fcr1_at wf_set_cpr1_state_at wf_set_tlb_at wf_set_brk wf_set_ll_link_valid
  wf_set_in_delay_slot wf_set_tlb_fault wf_set_g_iss_stores wf_histo wf_histo_touch wf_emit
  wf_add_pc post_Ok post_get post_put wf_gpr_rd wf_cpr0_rd wf_cpr0_64_rd wf_cpr1_rd wf_fcr1_rd : wf.
#[export] Hint Extern 5 (in_u _ _) => rng : wf.
#[export] Hint Extern 5 (in_s _ _) => rng : wf.
#[export] Hint Extern 1 (wf (if ?c then _ else _)) => destruct c : wf.
#[export] Hint Extern 1 (0 <= _)%Z => nonneg : wf.
#[export] Hint Extern 1 (_ <= _ < _)%Z =>
  first [lia | apply land_31_range | by (split; vm_compute)] : wf.

(** [wf_auto]: symbolic execution of an unfolded handler.  A state bound by a
    [let] is generalised to any well-formed state, branches are split, and the
    setters are resolved by the database. *)
Ltac wf_let P e b :=
  let t := type of e in
  lazymatch t with
  | state =>
      let H := fresh "Hwf" in
      assert (wf e) as H;
      [| let g := fresh "s" in
         change (P (b e)); generalize e H; clear H; intros g H; cbv beta ]
  | _ => change (P (b e)); cbv beta
  end.
Ltac wf_auto :=
  repeat (intros;
    match goal with
    | |- wf (let x := ?e in @?b x) => wf_let (fun y : state => wf y) e b
    | |- post wf (let x := ?e in @?b x) => wf_let (fun y : result state => post wf y) e b
    | |- wf (if ?c then _ else _) => destruct c
    | |- wf (match ?c with _ => _ end) => destruct c
    | |- post _ (Ok _) => cbn [post]
    | |- post _ (Stop _) => exact I
    | |- post _ (if ?c then _ else _) => destruct c
    | |- post _ (match ?c with _ => _ end) => destruct c
    | |- post _ (_ ≫= _) => eapply post_bind; [solve [wf_auto] |]
    | |- post _ ((fun _ => _) _) => cbv beta
    end);
  eauto 30 with wf.
(** [wf_of f]: open the handler [f] keeping its [let]s, then [wf_auto]. *)
Tactic Notation "wf_of" reference(f) := intros; cbv delta [f]; cbv beta; wf_auto.
