(* ===== verification/Exc.v ===== *)
(** Exceptions, operating modes and condition codes of [src/interpret.cc]:
    [set_exc_pc], the vectors, the [raise_*] and [take_exception_*] helpers,
    [in_64b_mode], [is_64b_gated], [is_64b_addr_mode], and the FCSR/FCCR
    condition-code mirror. *)
From S2P Require Import Prelude Bits Insns State Mem Wf.

(** [sext64] and [sext32] take a [uint32_t]. *)
Definition sext64 (x : Z) : Z :=
  let xx := s64 (u32 x) in s64 (xx << 32) >> 32.
Definition sext32 (v : Z) : Z := s64 (s32 (u32 v)).

Definition sr_bit (s : state) (b : Z) : bool := (cpr0 s).[CPR0_SR] .& b =/? 0.

Definition set_exc_pc (s : state) : state :=
  let s := set_ll_link_valid false s in
  if sr_bit s SR_EXL then s
  else if in_delay_slot s then
    let s := set_cpr0_at CPR0_EPC (u32 (pc s - 4)) s in
    let s := set_cpr0_64_at CPR0_EPC (u64 (s64 (pc s - 4))) s in
    set_cpr0_at CPR0_CAUSE ((cpr0 s).[CPR0_CAUSE] .| (1 << 31)) s
  else
    let s := set_cpr0_at CPR0_EPC (u32 (pc s)) s in
    let s := set_cpr0_64_at CPR0_EPC (u64 (pc s)) s in
    set_cpr0_at CPR0_CAUSE ((cpr0 s).[CPR0_CAUSE] .& .~ (1 << 31)) s.

Definition exc_vector_general (s : state) : Z :=
  let base := if sr_bit s SR_BEV then 0xBFC00200 else 0x80000000 in
  base .| 0x180.

(** The common tail of every general exception: [Cause.ExcCode], [SR.EXL] set
    and [SR.ERL] cleared, and the pc at the general vector. *)
Definition set_exccode (code : Z) (s : state) : state :=
  set_cpr0_at CPR0_CAUSE (((cpr0 s).[CPR0_CAUSE] .& .~ (0x1f << 2)) .| (code << 2)) s.
Definition enter_exl (s : state) : state :=
  set_cpr0_at CPR0_SR (((cpr0 s).[CPR0_SR] .& .~ SR_ERL) .| SR_EXL) s.
Definition goto_general (s : state) : state := set_pc (sext32 (exc_vector_general s)) s.

Definition raise_adel (s : state) : state :=
  s |> set_exc_pc |> set_exccode 4 |> enter_exl |> goto_general.
Definition raise_ades (s : state) : state :=
  s |> set_exc_pc |> set_exccode 5 |> enter_exl |> goto_general.
Definition take_exception_ri (s : state) : state :=
  s |> set_exc_pc |> set_exccode 10 |> enter_exl |> goto_general.
Definition take_exception_cpu (ce : Z) (s : state) : state :=
  let s := set_exc_pc s in
  let s := set_cpr0_at CPR0_CAUSE
    (((((cpr0 s).[CPR0_CAUSE] .& .~ (0x1f << 2)) .& .~ (0x3 << 28)) .| (11 << 2)) .| ((ce .& 0x3) << 28)) s in
  s |> enter_exl |> goto_general.
Definition take_exception_fpe (s : state) : state :=
  let s := s |> set_exc_pc |> set_exccode 15 |> enter_exl in
  let s := set_fcr1_at CP1_CR31 ((fcr1 s).[CP1_CR31] .| (1 << 17)) s in
  goto_general s.
Definition raise_ri (inst : Z) (s : state) : state :=
  s |> emit (EvUnimplemented (inst >> 26) (inst .& 0x3f) (u32 (pc s))) |> take_exception_ri.
Definition raise_overflow (s : state) : state :=
  s |> set_exc_pc |> set_exccode 12 |> enter_exl |> goto_general.
Definition raise_trap (s : state) : state :=
  s |> set_exc_pc |> set_exccode 13 |> enter_exl |> goto_general.

Definition raise_int (epc ip : Z) (s : state) : state :=
  let s := set_ll_link_valid false s in
  let s := set_cpr0_at CPR0_EPC (u32 epc) s in
  let s := set_cpr0_64_at CPR0_EPC epc s in
  let s := set_cpr0_at CPR0_CAUSE ((ip .& 0xff) << 8) s in
  s |> enter_exl |> goto_general.

(** Operating modes: the three predicates both functions start from. *)
Definition sr_ksu (s : state) : Z := ((cpr0 s).[CPR0_SR] >> 3) .& 3.
Definition kernel_mode (s : state) : bool :=
  (sr_ksu s =? 0) || sr_bit s SR_EXL || sr_bit s SR_ERL.
Definition user_mode (s : state) : bool :=
  (sr_ksu s =? 2) && negb (sr_bit s SR_EXL) && negb (sr_bit s SR_ERL).
Definition super_mode (s : state) : bool :=
  (sr_ksu s =? 1) && negb (sr_bit s SR_EXL) && negb (sr_bit s SR_ERL).

Definition in_64b_mode (s : state) : bool :=
  kernel_mode s || (user_mode s && sr_bit s SR_UX) || (super_mode s && sr_bit s SR_SX).
Definition is_64b_addr_mode (s : state) : bool :=
  (kernel_mode s && sr_bit s SR_KX) || (super_mode s && sr_bit s SR_SX)
  || (user_mode s && sr_bit s SR_UX).

Definition is_64b_gated (inst : Z) : bool :=
  let op := inst >> 26 in
  if op =? 0x18 then true
  else if op =? 0x19 then true
  else if op =? 0x34 then true
  else if op =? 0x3c then true
  else if op =/? 0 then false
  else match inst .& 0x3f with
  | 0x14 | 0x16 | 0x17
  | 0x1c | 0x1d | 0x1e | 0x1f
  | 0x2c | 0x2d | 0x2e | 0x2f
  | 0x38 | 0x3a | 0x3b => true
  | _ => false
  end.

(** FP condition codes: FCC0 is FCSR bit 23, FCC1..7 are bits 25..31; FCCR is
    the alternate view, kept in step. *)
Definition fcc_bit (cc : Z) : Z := if cc =? 0 then 23 else 24 + cc.

Definition fcc_mirror_to_fccr (s : state) : state :=
  let f := (fcr1 s).[CP1_CR31] in
  let v := fold_left (fun v c => v .| (((f >> (24 + c)) .& 1) << c))
                     [1; 2; 3; 4; 5; 6; 7] ((f >> 23) .& 1) in
  set_fcr1_at CP1_CR25 v s.
Definition fcc_mirror_from_fccr (s : state) : state :=
  let v := (fcr1 s).[CP1_CR25] in
  let f := (fcr1 s).[CP1_CR31] .& .~ ((1 << 23) .| 0xfe000000) in
  let f := f .| ((v .& 1) << 23) in
  let f := fold_left (fun f c => f .| (((v >> c) .& 1) << (24 + c)))
                     [1; 2; 3; 4; 5; 6; 7] f in
  set_fcr1_at CP1_CR31 f s.
Definition getConditionCode (s : state) (cc : Z) : Z :=
  ((fcr1 s).[CP1_CR31] >> fcc_bit cc) .& 0x1.
Definition setConditionCode (v cc : Z) (s : state) : state :=
  let b := fcc_bit cc in
  let f := (fcr1 s).[CP1_CR31] in
  let s := if v =/? 0 then set_fcr1_at CP1_CR31 (f .| (1 << b)) s
           else set_fcr1_at CP1_CR31 (f .& .~ (1 << b)) s in
  fcc_mirror_to_fccr s.

(** * Theorems *)

(** ** The type invariant *)
Lemma sext64_range x : in_s 64 (sext64 x).
Proof. unfold sext64. rng. Qed.
Lemma sext32_range x : in_s 64 (sext32 x).
Proof. unfold sext32. rng. Qed.
#[export] Hint Resolve sext64_range sext32_range : ranges.

Section wf.
Context `{Config}.
Implicit Types (s : state).
Lemma wf_set_exc_pc s : wf s -> wf (set_exc_pc s).
Proof. wf_of set_exc_pc. Qed.
Lemma wf_set_exccode code s : in_u 5 code -> wf s -> wf (set_exccode code s).
Proof.
  unfold set_exccode. intros. apply wf_set_cpr0_at; [done| |done].
  apply in_u_lor; [done|rng|]. by apply (in_u_shl 32 5).
Qed.
Lemma wf_enter_exl s : wf s -> wf (enter_exl s).
Proof. wf_of enter_exl. Qed.
Lemma wf_goto_general s : wf s -> wf (goto_general s).
Proof. wf_of goto_general. Qed.
#[local] Hint Resolve wf_set_exc_pc wf_set_exccode wf_enter_exl wf_goto_general : wf.

Lemma wf_raise_adel s : wf s -> wf (raise_adel s).
Proof. wf_of raise_adel. Qed.
Lemma wf_raise_ades s : wf s -> wf (raise_ades s).
Proof. wf_of raise_ades. Qed.
Lemma wf_take_exception_ri s : wf s -> wf (take_exception_ri s).
Proof. wf_of take_exception_ri. Qed.
Lemma wf_take_exception_cpu ce s : wf s -> wf (take_exception_cpu ce s).
Proof. wf_of take_exception_cpu. Qed.
Lemma wf_take_exception_fpe s : wf s -> wf (take_exception_fpe s).
Proof. wf_of take_exception_fpe. Qed.
Lemma wf_raise_ri inst s : wf s -> wf (raise_ri inst s).
Proof. unfold raise_ri. intros. by apply wf_take_exception_ri, wf_emit. Qed.
Lemma wf_raise_overflow s : wf s -> wf (raise_overflow s).
Proof. wf_of raise_overflow. Qed.
Lemma wf_raise_trap s : wf s -> wf (raise_trap s).
Proof. wf_of raise_trap. Qed.
Lemma wf_raise_int epc ip s : in_u 64 epc -> wf s -> wf (raise_int epc ip s).
Proof. wf_of raise_int. Qed.

(** The condition-code registers. *)
Lemma fold_lor_range w (f : Z -> Z -> Z) l v :
  (forall v c, c ∈ l -> in_u w v -> in_u w (f v c)) -> in_u w v -> in_u w (fold_left f l v).
Proof.
  revert v; induction l as [|c l IH]; intros v Hf Hv; cbn; [done|].
  apply IH; [intros; apply Hf; [set_solver|done]|]. apply Hf; [set_solver|done].
Qed.
Lemma wf_fcc_mirror_to_fccr s : wf s -> wf (fcc_mirror_to_fccr s).
Proof.
  intros. unfold fcc_mirror_to_fccr. apply wf_set_fcr1_at; [done| |done].
  apply fold_lor_range; [|rng]. intros v c Hc Hv. apply in_u_lor; [done|done|].
  apply (in_u_shl 32 1); [done| | |by apply (in_u_ones 1)];
    rewrite !elem_of_cons in Hc; destruct_or?; try set_solver; subst; lia.
Qed.
Lemma wf_fcc_mirror_from_fccr s : wf s -> wf (fcc_mirror_from_fccr s).
Proof.
  intros. unfold fcc_mirror_from_fccr. apply wf_set_fcr1_at; [done| |done].
  apply fold_lor_range.
  - intros v c Hc Hv. apply in_u_lor; [done|done|].
    apply (in_u_shl 32 1); [done| | |by apply (in_u_ones 1)];
    rewrite !elem_of_cons in Hc; destruct_or?; try set_solver; subst; lia.
  - apply in_u_lor; [done|rng|]. apply (in_u_shl 32 1); try done. by apply (in_u_ones 1).
Qed.
Lemma wf_setConditionCode v cc s : 0 <= cc < 8 -> wf s -> wf (setConditionCode v cc s).
Proof.
  intros Hcc Hw. unfold setConditionCode, fcc_bit. cbv zeta. apply wf_fcc_mirror_to_fccr.
  assert (in_u 32 (1 << (if cc =? 0 then 23 else 24 + cc))).
  { apply (in_u_shl 32 1); try done; destruct (cc =? 0); lia. }
  destruct (v =/? 0); apply wf_set_fcr1_at; try done; rng.
Qed.
End wf.
#[export] Hint Resolve wf_set_exc_pc wf_set_exccode wf_enter_exl wf_goto_general wf_raise_adel
  wf_raise_ades wf_take_exception_ri wf_take_exception_cpu wf_take_exception_fpe wf_raise_ri
  wf_raise_overflow wf_raise_trap wf_raise_int wf_fcc_mirror_to_fccr wf_fcc_mirror_from_fccr
  wf_setConditionCode : wf.
