(* ===== verification/Tlb.v ===== *)
(** Address translation of [src/interpret.cc]: the non-faulting probe
    [tlb_probe_ro], [va_translate] with its direct-mapped micro-TLB in front of
    the architectural entries, the TLB exceptions, the TLB instructions and the
    co-simulation mirror [iss_apply_tlb_write]. *)
From S2P Require Import Prelude Bits Insns State Mem Wf Exc.

Inductive tlb_op := op_fetch | op_load | op_store.
#[export] Instance tlb_op_eq_dec : EqDecision tlb_op.
Proof. solve_decision. Defined.
Definition is_store (op : tlb_op) : bool := match op with op_store => true | _ => false end.
Definition is_load (op : tlb_op) : bool := match op with op_load => true | _ => false end.

(** interpret.hh [va2pa]: the historical 1:1 mapping. *)
Definition va2pa (va : Z) : Z := if (va >> 31) .& 1 =? 1 then va .& 0x1fffffff else va.

(** Both 32-bit halves of a canonical 32-bit address. *)
Definition compat32 (hi32 : Z) : bool := (hi32 =? 0x00000000) || (hi32 =? 0xffffffff).

(** The pair geometry of an entry: the page mask, the offset mask of one page
    of the pair, the bit that selects the odd page, and the half it selects. *)
Definition pm_of (e : tlb_entry_t) : Z := page_mask e .& 0x1ffe000.
Definition pair_mask (e : tlb_entry_t) : Z := pm_of e .| 0x1fff.
Definition off_mask (e : tlb_entry_t) : Z := pair_mask e >> 1.
Definition sel_bit (e : tlb_entry_t) : Z := (pair_mask e + 1) >> 1.
Definition sel_lo (e : tlb_entry_t) (va : Z) : Z :=
  if va .& sel_bit e =/? 0 then entry_lo1 e else entry_lo0 e.
Definition is_global (e : tlb_entry_t) : bool :=
  (entry_lo0 e .& 1 =/? 0) && (entry_lo1 e .& 1 =/? 0).
Definition asid_match (e : tlb_entry_t) (cur_asid : Z) : bool :=
  is_global e || (cur_asid =? entry_hi e .& 0xff).
Definition lo_pfn (e_lo : Z) : Z := (e_lo >> 6) .& 0xfffffff.
Definition entry_pa (e : tlb_entry_t) (va : Z) : Z :=
  (lo_pfn (sel_lo e va) << 12) .| (va .& off_mask e).

Section tlb.
Context `{Config}.

Definition tlb_n : nat := Z.to_nat NUM_TLB_ENTRIES.

(** ** [tlb_probe_ro] *)
Definition probe_match (va cur_asid : Z) (wide : bool) (e : tlb_entry_t) : bool :=
  let cmp_mask := if wide then .~ 0x3 else 0xffffffff in
  let mask := u64 (.~ pair_mask e) .& cmp_mask in
  let vpn_match := va .& mask =? entry_hi e .& mask in
  let vpn_match := if wide then vpn_match && ((va >> 62) .& 3 =? (entry_hi e >> 62) .& 3)
                   else vpn_match in
  vpn_match && asid_match e cur_asid.
Definition tlb_probe_ro (s : state) (va : Z) (for_store : bool) : option Z :=
  let va := u64 va in
  let hi32 := u32 (va >> 32) in
  let lo32 := u32 va in
  let seg := lo32 >> 29 in
  if compat32 hi32 && ((seg =? 4) || (seg =? 5)) then Some (lo32 .& 0x1fffffff)
  else if negb (compat32 hi32) && ((va >> 62) .& 3 =? 2) then Some (u32 (va .& 0xffffffffff))
  else
    let wide := negb (compat32 hi32) in
    let cur_asid := (cpr0_64 s).[CPR0_ENTRYHI] .& 0xff in
    match first_from (fun i => probe_match va cur_asid wide (tlb s).[i]) 0 tlb_n with
    | None => None
    | Some i =>
        let e := (tlb s).[i] in
        let e_lo := sel_lo e va in
        if e_lo .& 2 =? 0 then None
        else if for_store && (e_lo .& 4 =? 0) then None
        else Some (u32 (entry_pa e va))
    end.

(** [iss_fetch_inst]: the instruction word at a virtual pc and its physical
    address; (0, 0) when the pc does not translate. *)
Definition iss_fetch_inst (s : state) (vpc : Z) : result (Z * Z) :=
  match tlb_probe_ro s vpc false with
  | None => Ok (0, 0)
  | Some pa => let! w := get 4 pa s in Ok (bswap IS_LITTLE_ENDIAN 4 w, pa)
  end.

(** ** TLB exceptions *)
Definition exc_vector (s : state) (is_refill exl_was_set is_xtlb : bool) : Z :=
  let base := if sr_bit s SR_BEV then 0xBFC00200 else 0x80000000 in
  let offset := if is_refill && negb exl_was_set
                then (if is_xtlb then 0x080 else 0x000) else 0x180 in
  u32 (base + offset).

Definition tlb_set_fault_state (va : Z) (s : state) : state :=
  let s := set_cpr0_at CPR0_BADVADDR (u32 va) s in
  let s := set_cpr0_64_at CPR0_BADVADDR va s in
  let r := (va >> 62) .& 0x3 in
  let vpn2 := (va >> 13) .& VPN2_MASK in
  let asid := (cpr0_64 s).[CPR0_ENTRYHI] .& 0xff in
  let ehi := ((r << 62) .| (vpn2 << 13)) .| asid in
  let s := set_cpr0_64_at CPR0_ENTRYHI ehi s in
  let s := set_cpr0_at CPR0_ENTRYHI (u32 ehi) s in
  let ctx := (cpr0_64 s).[CPR0_CONTEXT] .& .~ 0x7fffff in
  let ctx := ctx .| (((va >> 13) .& 0x7ffff) << 4) in
  let s := set_cpr0_64_at CPR0_CONTEXT ctx s in
  let s := set_cpr0_at CPR0_CONTEXT (u32 ctx) s in
  let xctx := (cpr0_64 s).[CPR0_XCONTEXT] .& u64 (.~ 0 << (SEGBITS - 7)) in
  let xctx := xctx .| (vpn2 << 4) in
  let xctx := xctx .| (r << (SEGBITS - 9)) in
  let s := set_cpr0_64_at CPR0_XCONTEXT xctx s in
  set_cpr0_at CPR0_XCONTEXT (u32 xctx) s.

Definition raise_tlb (va exccode : Z) (is_refill is_xtlb : bool) (s : state) : state :=
  let exl_was_set := sr_bit s SR_EXL in
  let s := s |> tlb_set_fault_state va |> set_exc_pc |> set_exccode exccode |> enter_exl in
  let s := set_pc (sext32 (exc_vector s (is_refill && negb exl_was_set) exl_was_set is_xtlb)) s in
  set_tlb_fault true s.

(** ** The micro-TLB *)
Definition UTLB_SZ : Z := 64.
Definition utlb_invalidate (e : utlb_entry) : utlb_entry :=
  mk_utlb_entry (u_vpn e) (u_asid e) (u_ppn e) (u_dirty e) false.
Definition utlb_flush (s : state) : state := set_g_utlb (utlb_invalidate <$> g_utlb s) s.

Definition iss_apply_tlb_write (idx ehi elo0 elo1 pm : Z) (s : state) : state :=
  if (idx <? 0) || (NUM_TLB_ENTRIES <=? idx) then s
  else s |> set_tlb_at idx (mk_tlb_entry ehi elo0 elo1 pm) |> utlb_flush.

(** ** [va_translate] *)
Definition cam_match (va cur_asid : Z) (e : tlb_entry_t) : bool :=
  let vpnMask := u64 (.~ pair_mask e) .& (VPN2_MASK << 13) in
  let vpn_match := (va .& vpnMask =? entry_hi e .& vpnMask)
                   && ((va >> 62) .& 3 =? (entry_hi e >> 62) .& 3) in
  vpn_match && asid_match e cur_asid.

Definition utlb_hit (s : state) (vpn cur_asid : Z) (op : tlb_op) : bool :=
  let ce := (g_utlb s).[vpn .& (UTLB_SZ - 1)] in
  negb (no_utlb s) && u_valid ce && (u_vpn ce =? vpn) && (u_asid ce =? cur_asid)
  && negb (is_store op && negb (u_dirty ce)).

(** The walk of the architectural entries; a hit refills the micro-TLB. *)
Definition cam_translate (va : Z) (op : tlb_op) (cur_asid : Z) (xtlb : bool) (s : state) : Z * state :=
  let vpn := va >> 12 in
  match first_from (fun i => cam_match va cur_asid (tlb s).[i]) 0 tlb_n with
  | Some i =>
      let e := (tlb s).[i] in
      let e_lo := sel_lo e va in
      if e_lo .& 2 =? 0 then
        (0, raise_tlb va (if is_store op then 3 else 2) false xtlb s)
      else if is_store op && (e_lo .& 4 =? 0) then
        (0, raise_tlb va 1 false xtlb s)
      else
        let pa := entry_pa e va in
        let ce := mk_utlb_entry vpn cur_asid (u32 (pa >> 12)) (e_lo .& 4 =/? 0) true in
        (u32 pa, set_g_utlb (wr (vpn .& (UTLB_SZ - 1)) ce (g_utlb s)) s)
  | None => (0, raise_tlb va (if is_store op then 3 else 2) true xtlb s)
  end.

Definition va_translate (s : state) (va : Z) (op : tlb_op) : Z * state :=
  let va := u64 va in
  let va := if negb (is_64b_addr_mode s) then u64 (s32 va) else va in
  let s := if is_load op then set_g_iss_last_ld_va va s else s in
  let hi32 := u32 (va >> 32) in
  let lo32 := u32 va in
  let seg := lo32 >> 29 in
  if compat32 hi32 && ((seg =? 4) || (seg =? 5)) then (lo32 .& 0x1fffffff, s)
  else if negb (compat32 hi32) && ((va >> 62) .& 3 =? 2) then (u32 (va .& 0xffffffffff), s)
  else
    let xtlb := is_64b_addr_mode s in
    let cur_asid := (cpr0_64 s).[CPR0_ENTRYHI] .& 0xff in
    let vpn := va >> 12 in
    if utlb_hit s vpn cur_asid op then
      let ce := (g_utlb s).[vpn .& (UTLB_SZ - 1)] in
      (u32 (u_ppn ce << 12) .| u32 (va .& 0xfff), s)
    else cam_translate va op cur_asid xtlb s.

(** [uint32_t ea = va_translate(s, va, op); if(s->tlb_fault) return; ...] *)
Definition translated (va : Z) (op : tlb_op) (k : Z -> state -> result state) (s : state)
  : result state :=
  let (ea, s) := va_translate s va op in
  if tlb_fault s then Ok s else k ea s.

(** ** TLB instructions (CO=1 of COP0) *)
(** [s->tlb[i]] at an index the guest chooses.  Past the end of the array C++ has no
    value to give: the model answers with one outside every field's type. *)
Definition tlb_at (i : Z) (s : state) : tlb_entry_t :=
  if (0 <=? i) && (i <? NUM_TLB_ENTRIES) then (tlb s).[i] else mk_tlb_entry (-1) (-1) (-1) (-1).
Definition tlbr (s : state) : state :=
  let idx := (cpr0 s).[CPR0_INDEX] .& 63 in
  let s :=
    if idx <? NUM_TLB_ENTRIES then
      let e := tlb_at idx s in
      s |> set_cpr0_64_at CPR0_ENTRYHI (entry_hi e)
        |> set_cpr0_64_at CPR0_ENTRYLO0 (entry_lo0 e)
        |> set_cpr0_64_at CPR0_ENTRYLO1 (entry_lo1 e)
        |> set_cpr0_at CPR0_ENTRYHI (u32 (entry_hi e))
        |> set_cpr0_at CPR0_ENTRYLO0 (u32 (entry_lo0 e))
        |> set_cpr0_at CPR0_ENTRYLO1 (u32 (entry_lo1 e))
        |> set_cpr0_at CPR0_PAGEMASK (page_mask e)
    else s in
  histo mipsInsn.TLBR s.

Definition staged_entry (s : state) : tlb_entry_t :=
  mk_tlb_entry (cpr0_64 s).[CPR0_ENTRYHI] (cpr0_64 s).[CPR0_ENTRYLO0]
               (cpr0_64 s).[CPR0_ENTRYLO1] (cpr0 s).[CPR0_PAGEMASK].

(** Under co-simulation the entry comes from the core's write log instead. *)
Definition write_staged (idx : Z) (s : state) : state :=
  if negb (g_iss_tlb_ext s) && (idx <? NUM_TLB_ENTRIES)
  then set_tlb_at idx (staged_entry s) s else s.

Definition tlbwi (s : state) : state :=
  let idx := (cpr0 s).[CPR0_INDEX] .& 63 in
  let s := write_staged idx s in
  s |> utlb_flush |> histo mipsInsn.TLBWI.

Definition tlbwr (s : state) : state :=
  let idx := (cpr0 s).[CPR0_RANDOM] .& 63 in
  let s := write_staged idx s in
  let s := utlb_flush s in
  let s := if negb (g_iss_tlb_ext s) then
             let wired := (cpr0 s).[CPR0_WIRED] .& 63 in
             let random := (cpr0 s).[CPR0_RANDOM] .& 63 in
             set_cpr0_at CPR0_RANDOM
               (if random <=? wired then NUM_TLB_ENTRIES - 1 else random - 1) s
           else s in
  histo mipsInsn.TLBWR s.

Definition tlbp_match (probe_hi : Z) (e : tlb_entry_t) : bool :=
  let mask := u64 (.~ (page_mask e .| 0x1fff)) in
  (probe_hi .& mask =? entry_hi e .& mask)
  && (is_global e || (probe_hi .& 0xff =? entry_hi e .& 0xff)).
Definition tlbp (s : state) : state :=
  let probe_hi := (cpr0_64 s).[CPR0_ENTRYHI] in
  let s := match first_from (fun i => tlbp_match probe_hi (tlb s).[i]) 0 tlb_n with
           | Some i => set_cpr0_at CPR0_INDEX i s
           | None => set_cpr0_at CPR0_INDEX (1 << 31) s
           end in
  histo mipsInsn.TLBP s.
End tlb.

(** * Theorems *)

(** ** The type invariant *)
Section wf.
Context `{Config}.
Implicit Types (s : state) (va : Z).

Lemma vpn2_mask_ones : VPN2_MASK = Z.ones (SEGBITS - 13).
Proof. unfold VPN2_MASK, SEGBITS. by destruct ENABLE_R10000. Qed.
Lemma in_u_vpn2 x : in_u 31 (x .& VPN2_MASK).
Proof. unfold VPN2_MASK, SEGBITS. destruct ENABLE_R10000; apply in_u_land_r; done. Qed.

Lemma wf_tlb_set_fault_state va s : in_u 64 va -> wf s -> wf (tlb_set_fault_state va s).
Proof.
  intros Hva Hw. pose proof (in_u_vpn2 (va >> 13)) as Hv.
  cbv delta [tlb_set_fault_state]; cbv beta.
  assert (in_u 64 ((((va >> 62) .& 0x3) << 62) .| (((va >> 13) .& VPN2_MASK) << 13))).
  { apply in_u_lor; [done|rng|]. by apply (in_u_shl 64 31). }
  assert (in_u 64 (((va >> 13) .& VPN2_MASK) << 4)) by (by apply (in_u_shl 64 31)).
  assert (in_u 64 (((va >> 62) .& 0x3) << (SEGBITS - 9))).
  { unfold SEGBITS. apply (in_u_shl 64 2); try (destruct ENABLE_R10000; done). rng. }
  assert (forall x, in_u 64 (((x >> 13) .& 0x7ffff) << 4)) by (intros; rng).
  wf_auto.
Qed.
Lemma exc_vector_range s b1 b2 b3 : in_u 32 (exc_vector s b1 b2 b3).
Proof. apply wrapu_range. done. Qed.
Lemma wf_raise_tlb va code b1 b2 s : in_u 64 va -> in_u 5 code -> wf s -> wf (raise_tlb va code b1 b2 s).
Proof.
  intros. unfold raise_tlb. apply wf_set_tlb_fault, wf_set_pc; [rng|].
  by apply wf_enter_exl, wf_set_exccode, wf_set_exc_pc, wf_tlb_set_fault_state.
Qed.

Lemma wf_utlb_flush s : wf s -> wf (utlb_flush s).
Proof.
  intros Hw. apply wf_set_g_utlb; [|done]. apply arr_ok_fmap; [|apply Hw]. by intros [] (?&?&?).
Qed.
Lemma wf_iss_apply_tlb_write idx ehi elo0 elo1 pm s :
  in_u 64 ehi -> in_u 64 elo0 -> in_u 64 elo1 -> in_u 32 pm -> wf s ->
  wf (iss_apply_tlb_write idx ehi elo0 elo1 pm s).
Proof.
  intros. unfold iss_apply_tlb_write. destruct (_ || _) eqn:Hi; [done|].
  apply wf_utlb_flush, wf_set_tlb_at; [lia|done|done].
Qed.

Lemma wf_cam_translate va op asid xtlb s :
  in_u 64 va -> in_u 64 asid -> wf s ->
  in_u 32 (cam_translate va op asid xtlb s).1 /\ wf (cam_translate va op asid xtlb s).2.
Proof.
  intros Hva Has Hw. unfold cam_translate. cbv zeta.
  repeat case_match; cbn [fst snd]; split; try rng; try by apply wf_raise_tlb.
  apply wf_set_g_utlb; [|done]. apply arr_ok_wr; [apply land_63_range| |apply Hw].
  unfold utlb_entry_ok; cbn [u_vpn u_asid u_ppn]; split_and!; rng.
Qed.
Lemma wf_va_translate s va op :
  wf s -> in_u 32 (va_translate s va op).1 /\ wf (va_translate s va op).2.
Proof.
  intros Hw. cbv delta [va_translate]; cbv beta.
  set (va0 := u64 va). assert (in_u 64 va0) by (unfold va0; rng). generalize dependent va0. clear va. intros va0 Hva0.
  cbv zeta. set (va := if negb (is_64b_addr_mode s) then _ else _).
  assert (in_u 64 va) by (unfold va; rng). generalize dependent va. clear va0 Hva0. intros va Hva.
  set (s' := if is_load op then _ else _).
  assert (wf s') by (unfold s'; destruct (is_load op); [by apply wf_set_g_iss_last_ld_va|done]).
  generalize dependent s'. clear s Hw. intros s Hw.
  repeat case_match; cbn [fst snd]; try (split; [rng|done]).
  - apply wf_cam_translate; [done|rng|done].
Qed.
Lemma wf_translated (Q : state -> Prop) va op k s :
  wf s -> (forall s, wf s -> Q s) -> (forall ea s, in_u 32 ea -> wf s -> post Q (k ea s)) ->
  post Q (translated va op k s).
Proof.
  intros Hw Hq Hk. unfold translated. pose proof (wf_va_translate s va op Hw) as [He Hs].
  destruct (va_translate s va op) as [ea s']. cbn [fst snd] in *. destruct (tlb_fault s'); cbn; auto.
Qed.

Lemma staged_entry_ok s : wf s -> tlb_entry_ok (staged_entry s).
Proof. intros. unfold tlb_entry_ok, staged_entry; cbn [entry_hi entry_lo0 entry_lo1 page_mask].
  split_and!; (apply wf_cpr0_64_rd || apply wf_cpr0_rd); done. Qed.
Lemma idx_range (i : Z) : 0 <= i -> (i <? NUM_TLB_ENTRIES) = true -> 0 <= i < NUM_TLB_ENTRIES.
Proof. intros ? ?%Z.ltb_lt. lia. Qed.
Lemma tlb_entries_pos : 0 < NUM_TLB_ENTRIES <= 64.
Proof. unfold NUM_TLB_ENTRIES. destruct ENABLE_R10000; lia. Qed.

Lemma tlb_at_in i s : 0 <= i < NUM_TLB_ENTRIES -> tlb_at i s = rd (tlb s) i.
Proof. intros [??]. unfold tlb_at. by rewrite (proj2 (Z.leb_le 0 i)), (proj2 (Z.ltb_lt i _)). Qed.
Lemma tlb_at_ok i s : wf s -> 0 <= i < NUM_TLB_ENTRIES -> tlb_entry_ok (tlb_at i s).
Proof. intros ??. rewrite tlb_at_in by done. by apply wf_tlb_rd. Qed.
Lemma wf_tlbr s : wf s -> wf (tlbr s).
Proof.
  intros Hw. unfold tlbr. destruct (_ <? _) eqn:Hi; [|wf_auto].
  destruct (tlb_at_ok (rd (cpr0 s) CPR0_INDEX .& 63) s) as (?&?&?&?); [done|by apply idx_range; [nonneg|]|]. wf_auto.
Qed.
Lemma wf_write_staged i s : 0 <= i -> wf s -> wf (write_staged i s).
Proof.
  intros. unfold write_staged. destruct (_ && _) eqn:Hi; [|done]. apply andb_true_iff in Hi as [_ Hi].
  apply wf_set_tlb_at; [|by apply staged_entry_ok|done].
  by apply idx_range.
Qed.
#[local] Hint Resolve wf_utlb_flush wf_write_staged : wf.
Lemma wf_tlbwi s : wf s -> wf (tlbwi s).
Proof. wf_of tlbwi. Qed.
Lemma random_step_range (random wired : Z) :
  in_u 32 (if random .& 63 <=? wired .& 63 then NUM_TLB_ENTRIES - 1 else random .& 63 - 1).
Proof.
  pose proof tlb_entries_pos. pose proof (land_63_range random). pose proof (land_63_range wired).
  unfold in_u. destruct (Z.leb_spec (random .& 63) (wired .& 63)); lia.
Qed.
#[local] Hint Resolve random_step_range : wf.
Lemma wf_tlbwr s : wf s -> wf (tlbwr s).
Proof. wf_of tlbwr. Qed.
Lemma wf_tlbp s : wf s -> wf (tlbp s).
Proof.
  intros Hw. unfold tlbp. apply wf_histo. case_match eqn:Hf.
  - apply first_from_Some in Hf as [Hr _]. pose proof tlb_entries_pos. unfold tlb_n in Hr.
    apply wf_set_cpr0_at; [done|unfold in_u; lia|done].
  - by apply wf_set_cpr0_at.
Qed.
End wf.
#[export] Hint Resolve wf_raise_tlb wf_utlb_flush wf_tlbr wf_tlbwi wf_tlbwr wf_tlbp : wf.
