(* ===== verification/LoadStore.v ===== *)
(** Loads and stores of [src/interpret.cc], generic in the endianness [EL] as
    the C++ templates are.  Every handler translates its effective address
    first and returns early on a TLB exception. *)
From S2P Require Import Prelude Bits Insns State Mem Wf Exc Tlb.

(** Instruction fields. *)
Definition f_rs (inst : Z) : Z := (inst >> 21) .& 31.
Definition f_rt (inst : Z) : Z := (inst >> 16) .& 31.
Definition f_rd (inst : Z) : Z := (inst >> 11) .& 31.
Definition f_sa (inst : Z) : Z := (inst >> 6) .& 31.
Definition f_simm (inst : Z) : Z := s16 (inst .& 0xffff).
(** [s->gpr[rs] + imm] *)
Definition base_imm (inst : Z) (s : state) : Z := s64 ((gpr s).[f_rs inst] + f_simm inst).
(** [ea & ~UINT64_C(0xf)]: the 16-byte line. *)
Definition cache_line (ea : Z) : Z := ea .& u64 (.~ 0xf).
Definition fr0 (s : state) : bool := negb (sr_bit s SR_FR).

Section load_store.
Context `{Config}.
Variable EL : bool.

(** ** Integer loads *)
Definition _lw (inst : Z) : state -> result state := fun s =>
  translated (base_imm inst s) op_load (fun ea s =>
    if ea .& 3 =/? 0 then Ok (raise_adel s) else
    let! v := get 4 ea s in
    Ok (s |> set_gpr_at (f_rt inst) (s32 (bswap EL 4 v)) |> add_pc 4 |> histo mipsInsn.LW)) s.
Definition _lh (inst : Z) : state -> result state := fun s =>
  translated (base_imm inst s) op_load (fun ea s =>
    if ea .& 1 =/? 0 then Ok (raise_adel s) else
    let! v := get 2 ea s in
    Ok (s |> set_gpr_at (f_rt inst) (s16 (bswap EL 2 v)) |> add_pc 4 |> histo mipsInsn.LH)) s.
Definition _lb (inst : Z) : state -> result state := fun s =>
  translated (base_imm inst s) op_load (fun ea s =>
    let! v := get 1 ea s in
    Ok (s |> set_gpr_at (f_rt inst) (s8 v) |> add_pc 4 |> histo mipsInsn.LB)) s.
Definition _lbu (inst : Z) : state -> result state := fun s =>
  translated (base_imm inst s) op_load (fun ea s =>
    let! v := get 1 ea s in
    Ok (s |> set_gpr_at (f_rt inst) (u8 v) |> add_pc 4 |> histo mipsInsn.LBU)) s.
Definition _lhu (inst : Z) : state -> result state := fun s =>
  translated (base_imm inst s) op_load (fun ea s =>
    if ea .& 1 =/? 0 then Ok (raise_adel s) else
    let! v := get 2 ea s in
    Ok (s |> set_gpr_at (f_rt inst) (u16 (bswap EL 2 v)) |> add_pc 4 |> histo mipsInsn.LHU)) s.
Definition _lwu (inst : Z) : state -> result state := fun s =>
  translated (base_imm inst s) op_load (fun ea s =>
    if ea .& 3 =/? 0 then Ok (raise_adel s) else
    let! v := get 4 ea s in
    Ok (s |> set_gpr_at (f_rt inst) (u32 (bswap EL 4 v)) |> add_pc 4 |> histo mipsInsn.LWU)) s.
Definition _ld (inst : Z) : state -> result state := fun s =>
  translated (base_imm inst s) op_load (fun ea s =>
    if ea .& 7 =/? 0 then Ok (raise_adel s) else
    let! v := get 8 ea s in
    Ok (s |> set_gpr_at (f_rt inst) (s64 (bswap EL 8 v)) |> add_pc 4 |> histo mipsInsn.LD)) s.
Definition _lld (inst : Z) : state -> result state := fun s =>
  translated (base_imm inst s) op_load (fun ea s =>
    if ea .& 7 =/? 0 then Ok (raise_adel s) else
    let! v := get 8 ea s in
    Ok (s |> set_gpr_at (f_rt inst) (s64 (bswap EL 8 v)) |> add_pc 4 |> histo mipsInsn.LLD)) s.

(** ** Integer stores *)
Definition _sw (inst : Z) : state -> result state := fun s =>
  translated (base_imm inst s) op_store (fun ea s =>
    if ea .& 3 =/? 0 then Ok (raise_ades s) else
    let! s := put 4 ea (bswap EL 4 (u32 (gpr s).[f_rt inst])) s in
    Ok (s |> add_pc 4 |> histo mipsInsn.SW)) s.
Definition _sd (inst : Z) : state -> result state := fun s =>
  translated (base_imm inst s) op_store (fun ea s =>
    if ea .& 7 =/? 0 then Ok (raise_ades s) else
    let! s := put 8 ea (bswap EL 8 (u64 (gpr s).[f_rt inst])) s in
    Ok (s |> add_pc 4 |> histo mipsInsn.SD)) s.
Definition _sh (inst : Z) : state -> result state := fun s =>
  translated (base_imm inst s) op_store (fun ea s =>
    if ea .& 1 =/? 0 then Ok (raise_ades s) else
    let! s := put 2 ea (bswap EL 2 (u16 (gpr s).[f_rt inst])) s in
    Ok (s |> add_pc 4 |> histo mipsInsn.SH)) s.
Definition _sb (inst : Z) : state -> result state := fun s =>
  translated (base_imm inst s) op_store (fun ea s =>
    let! s := put 1 ea (u8 (gpr s).[f_rt inst]) s in
    Ok (s |> add_pc 4 |> histo mipsInsn.SB)) s.

(** ** Store-conditional: the reservation must be valid and on this line. *)
Definition sc_ok (ea : Z) (s : state) : bool :=
  ll_link_valid s && (ll_link_addr s =? cache_line ea).
Definition _sc (inst : Z) : state -> result state := fun s =>
  translated (base_imm inst s) op_store (fun ea s =>
    let ok := sc_ok ea s in
    let! s := if ok then put 4 ea (bswap EL 4 (u32 (gpr s).[f_rt inst])) s else Ok s in
    Ok (s |> set_ll_link_valid false |> set_gpr_at (f_rt inst) (if ok then 1 else 0)
          |> add_pc 4 |> histo mipsInsn.SC)) s.
Definition _scd (inst : Z) : state -> result state := fun s =>
  translated (base_imm inst s) op_store (fun ea s =>
    if ea .& 7 =/? 0 then Ok (raise_ades s) else
    let ok := sc_ok ea s in
    let! s := if ok then put 8 ea (bswap EL 8 (u64 (gpr s).[f_rt inst])) s else Ok s in
    Ok (s |> set_ll_link_valid false |> set_gpr_at (f_rt inst) (if ok then 1 else 0)
          |> add_pc 4 |> histo mipsInsn.SCD)) s.

(** ** Unaligned words: the byte position in the aligned word, mirrored for a
    little-endian guest. *)
Definition byte_pos (n ea : Z) : Z :=
  let ma := ea .& (n - 1) in if EL then (n - 1) - ma else ma.

Definition swl_merge (r x ma : Z) : Z :=
  let xs := x >> (8 * ma) in
  let m := u32 (.~ ((1 << (8 * (4 - ma))) - 1)) in
  (r .& m) .| xs.
Definition swr_merge (r x ma : Z) : Z :=
  let xs := 8 * (3 - ma) in
  let rm := (1 << xs) - 1 in
  u32 (x << xs) .| (rm .& r).
Definition lwl_merge (r x ma : Z) : Z :=
  match ma with
  | 0 => sext64 r
  | 1 => sext64 (u32 ((r .& 0x00ffffff) << 8) .| (x .& 0x000000ff))
  | 2 => sext64 (u32 ((r .& 0x0000ffff) << 16) .| (x .& 0x0000ffff))
  | 3 => sext64 (u32 ((r .& 0x00ffffff) << 24) .| (x .& 0x00ffffff))
  | _ => x
  end.
Definition lwr_merge (r x ma : Z) : Z :=
  match ma with
  | 0 => sext64 ((x .& 0xffffff00) .| (r >> 24))
  | 1 => sext64 ((x .& 0xffff0000) .| (r >> 16))
  | 2 => sext64 ((x .& 0xff000000) .| (r >> 8))
  | 3 => sext64 r
  | _ => x
  end.

Definition _swl (inst : Z) : state -> result state := fun s =>
  translated (base_imm inst s) op_store (fun ea s =>
    let ma := byte_pos 4 ea in
    let ea := ea .& 0xfffffffc in
    let! v := get 4 ea s in
    let! s := put 4 ea (bswap EL 4 (swl_merge (bswap EL 4 v) (u32 (gpr s).[f_rt inst]) ma)) s in
    Ok (s |> add_pc 4 |> histo mipsInsn.SWL)) s.
Definition _swr (inst : Z) : state -> result state := fun s =>
  translated (base_imm inst s) op_store (fun ea s =>
    let ma := byte_pos 4 ea in
    let ea := ea .& u32 (.~ 3) in
    let! v := get 4 ea s in
    let! s := put 4 ea (bswap EL 4 (swr_merge (bswap EL 4 v) (u32 (gpr s).[f_rt inst]) ma)) s in
    Ok (s |> add_pc 4 |> histo mipsInsn.SWR)) s.
Definition _lwl (inst : Z) : state -> result state := fun s =>
  translated (base_imm inst s) op_load (fun ea s =>
    let ma := byte_pos 4 ea in
    let ea := ea .& 0xfffffffc in
    let! v := get 4 ea s in
    let x := (gpr s).[f_rt inst] in
    Ok (s |> set_gpr_at (f_rt inst) (lwl_merge (bswap EL 4 v) x ma)
          |> add_pc 4 |> histo mipsInsn.LWL)) s.
Definition _lwr (inst : Z) : state -> result state := fun s =>
  translated (base_imm inst s) op_load (fun ea s =>
    let ma := byte_pos 4 ea in
    let ea := ea .& 0xfffffffc in
    let! v := get 4 ea s in
    let x := (gpr s).[f_rt inst] in
    Ok (s |> set_gpr_at (f_rt inst) (lwr_merge (bswap EL 4 v) x ma)
          |> add_pc 4 |> histo mipsInsn.LWR)) s.

(** ** Unaligned doublewords; the value goes to an [int64_t] register. *)
Definition ldl_merge (r x ma : Z) : Z :=
  match ma with
  | 0 => r
  | 1 => u64 ((r .& 0x00ffffffffffffff) << 8) .| (x .& 0xff)
  | 2 => u64 ((r .& 0x0000ffffffffffff) << 16) .| (x .& 0xffff)
  | 3 => u64 ((r .& 0x000000ffffffffff) << 24) .| (x .& 0xffffff)
  | 4 => u64 ((r .& 0x00000000ffffffff) << 32) .| (x .& 0xffffffff)
  | 5 => u64 ((r .& 0x0000000000ffffff) << 40) .| (x .& 0xffffffffff)
  | 6 => u64 ((r .& 0x000000000000ffff) << 48) .| (x .& 0xffffffffffff)
  | 7 => u64 ((r .& 0x00000000000000ff) << 56) .| (x .& 0x00ffffffffffffff)
  | _ => x
  end.
Definition ldr_merge (r x ma : Z) : Z :=
  match ma with
  | 0 => (x .& 0xffffffffffffff00) .| (r >> 56)
  | 1 => (x .& 0xffffffffffff0000) .| (r >> 48)
  | 2 => (x .& 0xffffffffff000000) .| (r >> 40)
  | 3 => (x .& 0xffffffff00000000) .| (r >> 32)
  | 4 => (x .& 0xffffff0000000000) .| (r >> 24)
  | 5 => (x .& 0xffff000000000000) .| (r >> 16)
  | 6 => (x .& 0xff00000000000000) .| (r >> 8)
  | 7 => r
  | _ => x
  end.
Definition sdl_merge (r x ma : Z) : Z :=
  let xs := x >> (8 * ma) in
  let m := if ma =? 0 then 0 else u64 (- u64 (1 << (8 * (8 - ma)))) in
  (r .& m) .| xs.
Definition sdr_merge (r x ma : Z) : Z :=
  let xs_bits := 8 * (7 - ma) in
  let rm := if xs_bits =? 0 then 0 else (1 << xs_bits) - 1 in
  u64 (x << xs_bits) .| (rm .& r).

Definition _ldl (inst : Z) : state -> result state := fun s =>
  translated (base_imm inst s) op_load (fun ea s =>
    let ma := byte_pos 8 ea in
    let ea := ea .& u32 (.~ 7) in
    let! v := get 8 ea s in
    let x := u64 (gpr s).[f_rt inst] in
    Ok (s |> set_gpr_at (f_rt inst) (s64 (ldl_merge (bswap EL 8 v) x ma))
          |> add_pc 4 |> histo mipsInsn.LDL)) s.
Definition _ldr (inst : Z) : state -> result state := fun s =>
  translated (base_imm inst s) op_load (fun ea s =>
    let ma := byte_pos 8 ea in
    let ea := ea .& u32 (.~ 7) in
    let! v := get 8 ea s in
    let x := u64 (gpr s).[f_rt inst] in
    Ok (s |> set_gpr_at (f_rt inst) (s64 (ldr_merge (bswap EL 8 v) x ma))
          |> add_pc 4 |> histo mipsInsn.LDR)) s.
Definition _sdl (inst : Z) : state -> result state := fun s =>
  translated (base_imm inst s) op_store (fun ea s =>
    let ma := byte_pos 8 ea in
    let ea := ea .& u32 (.~ 7) in
    let! v := get 8 ea s in
    let! s := put 8 ea (bswap EL 8 (sdl_merge (bswap EL 8 v) (u64 (gpr s).[f_rt inst]) ma)) s in
    Ok (s |> add_pc 4 |> histo mipsInsn.SDL)) s.
Definition _sdr (inst : Z) : state -> result state := fun s =>
  translated (base_imm inst s) op_store (fun ea s =>
    let ma := byte_pos 8 ea in
    let ea := ea .& u32 (.~ 7) in
    let! v := get 8 ea s in
    let! s := put 8 ea (bswap EL 8 (sdr_merge (bswap EL 8 v) (u64 (gpr s).[f_rt inst]) ma)) s in
    Ok (s |> add_pc 4 |> histo mipsInsn.SDR)) s.

(** ** FP loads and stores *)
(** FR=0: the word merged into the selected half of the even register;
    FR=1: the sign-extended word. *)
Definition fpr_half (odd : bool) (old w : Z) : Z :=
  if odd then (old .& 0xffffffff) .| (w << 32) else (old .& 0xffffffff00000000) .| w.
Definition even_reg (r : Z) : Z := r .& .~ 1.
Definition is_odd (r : Z) : bool := r .& 1 =/? 0.
Definition write_fpr_word (r w : Z) (s : state) : state :=
  if fr0 s then set_cpr1_at (even_reg r) (fpr_half (is_odd r) (cpr1 s).[even_reg r] w) s
  else set_cpr1_at r (u64 (s32 w)) s.
Definition read_fpr_word (r : Z) (s : state) : Z :=
  let rv := (cpr1 s).[if fr0 s then even_reg r else r] in
  if fr0 s && is_odd r then u32 (rv >> 32) else u32 rv.

Definition _ldc1 (inst : Z) : state -> result state := fun s =>
  let ft := f_rt inst in
  if fr0 s && is_odd ft then Ok (take_exception_ri s) else
  translated (base_imm inst s) op_load (fun ea s =>
    let! v := get 8 ea s in
    Ok (s |> set_cpr1_at ft (bswap EL 8 v) |> add_pc 4 |> histo mipsInsn.LDC1)) s.
Definition _sdc1 (inst : Z) : state -> result state := fun s =>
  let ft := f_rt inst in
  if fr0 s && is_odd ft then Ok (take_exception_ri s) else
  translated (base_imm inst s) op_store (fun ea s =>
    let! s := put 8 ea (bswap EL 8 (cpr1 s).[ft]) s in
    Ok (s |> add_pc 4 |> histo mipsInsn.SDC1)) s.
Definition _lwc1 (inst : Z) : state -> result state := fun s =>
  translated (base_imm inst s) op_load (fun ea s =>
    let! v := get 4 ea s in
    Ok (s |> write_fpr_word (f_rt inst) (bswap EL 4 v) |> add_pc 4 |> histo mipsInsn.LWC1)) s.
Definition _swc1 (inst : Z) : state -> result state := fun s =>
  translated (base_imm inst s) op_store (fun ea s =>
    let v := read_fpr_word (f_rt inst) s in
    let! s := put 4 ea (bswap EL 4 v) s in
    Ok (s |> add_pc 4 |> histo mipsInsn.SWC1)) s.

(** ** CACHE: a Hit-type operation translates, nothing else has an effect. *)
Definition _cache (inst : Z) : state -> result state := fun s =>
  let cop := (inst >> 16) .& 0x1f in
  if 0x10 <=? cop
  then translated (base_imm inst s) op_load (fun _ s => Ok (add_pc 4 s)) s
  else Ok (add_pc 4 s).
End load_store.

(** * Theorems *)

(** ** The type invariant *)
Lemma f_sa_range inst : 0 <= f_sa inst < 32.
Proof. apply land_31_range. Qed.
Lemma f_rt_range inst : 0 <= f_rt inst < 32.
Proof. apply land_31_range. Qed.
Lemma f_rd_range inst : 0 <= f_rd inst < 32.
Proof. apply land_31_range. Qed.
Lemma f_rs_range inst : 0 <= f_rs inst < 32.
Proof. apply land_31_range. Qed.
Lemma even_reg_range r : 0 <= r < 32 -> 0 <= even_reg r < 32.
Proof. intros. apply (in_u_land_l 5); done. Qed.
#[export] Hint Resolve f_sa_range f_rt_range f_rd_range f_rs_range even_reg_range : ranges wf.
Lemma f_sa_nonneg inst : 0 <= f_sa inst.
Proof. apply f_sa_range. Qed.
Lemma f_sa32_nonneg inst : 0 <= f_sa inst + 32.
Proof. pose proof (f_sa_range inst). lia. Qed.
Lemma f_simm_range inst : in_s 16 (f_simm inst).
Proof. unfold f_simm. rng. Qed.
Lemma bswap_range EL n x : in_u (8 * Z.of_nat n) x -> in_u (8 * Z.of_nat n) (bswap EL n x).
Proof. destruct EL; cbn [bswap]; [done|]. intros. apply byteswap_range. Qed.
(** The same bounds at the literal widths the handlers use. *)
Lemma bswap4_range EL x : in_u 32 x -> in_u 32 (bswap EL 4 x).
Proof. apply (bswap_range EL 4). Qed.
Lemma bswap8_range EL x : in_u 64 x -> in_u 64 (bswap EL 8 x).
Proof. apply (bswap_range EL 8). Qed.
#[export] Hint Resolve f_sa_nonneg f_sa32_nonneg f_simm_range bswap4_range bswap8_range : ranges.

(** The merges of the unaligned loads stay sign-extended words. *)
Lemma lwl_merge_range r x ma : in_s 64 x -> in_s 64 (lwl_merge r x ma).
Proof. intros. unfold lwl_merge. repeat case_match; rng. Qed.
Lemma lwr_merge_range r x ma : in_s 64 x -> in_s 64 (lwr_merge r x ma).
Proof. intros. unfold lwr_merge. repeat case_match; rng. Qed.
Lemma fpr_half_range odd old w : in_u 64 old -> in_u 32 w -> in_u 64 (fpr_half odd old w).
Proof.
  intros. assert (in_u 64 w) by (apply (in_u_mono 32); done).
  unfold fpr_half. destruct odd; rng.
Qed.
#[export] Hint Resolve lwl_merge_range lwr_merge_range fpr_half_range : ranges.

Section wf.
Context `{Config}.
Variable EL : bool.
Implicit Types (s : state) (inst : Z).

Lemma wf_write_fpr_word r w s : 0 <= r < 32 -> in_u 32 w -> wf s -> wf (write_fpr_word r w s).
Proof. wf_of write_fpr_word. Qed.
#[local] Hint Resolve wf_write_fpr_word : wf.

(** A handler is [translated] with a continuation the database covers. *)
#[local] Tactic Notation "wf_ls" reference(f) :=
  intros; cbv delta [f]; cbv beta;
  repeat match goal with
  | |- post wf (let x := ?e in @?b x) => wf_let (fun y : result state => post wf y) e b
  | |- post wf (if ?c then _ else _) => destruct c
  | |- post wf (translated _ _ _ _) => apply wf_translated; [done|done|]
  end; wf_auto.

Lemma wf_lw inst s : wf s -> post wf (_lw EL inst s).
Proof. wf_ls _lw. Qed.
Lemma wf_lh inst s : wf s -> post wf (_lh EL inst s).
Proof. wf_ls _lh. Qed.
Lemma wf_lb inst s : wf s -> post wf (_lb inst s).
Proof. wf_ls _lb. Qed.
Lemma wf_lbu inst s : wf s -> post wf (_lbu inst s).
Proof. wf_ls _lbu. Qed.
Lemma wf_lhu inst s : wf s -> post wf (_lhu EL inst s).
Proof. wf_ls _lhu. Qed.
Lemma wf_lwu inst s : wf s -> post wf (_lwu EL inst s).
Proof. wf_ls _lwu. Qed.
Lemma wf_ld inst s : wf s -> post wf (_ld EL inst s).
Proof. wf_ls _ld. Qed.
Lemma wf_lld inst s : wf s -> post wf (_lld EL inst s).
Proof. wf_ls _lld. Qed.
Lemma wf_sw inst s : wf s -> post wf (_sw EL inst s).
Proof. wf_ls _sw. Qed.
Lemma wf_sd inst s : wf s -> post wf (_sd EL inst s).
Proof. wf_ls _sd. Qed.
Lemma wf_sh inst s : wf s -> post wf (_sh EL inst s).
Proof. wf_ls _sh. Qed.
Lemma wf_sb inst s : wf s -> post wf (_sb inst s).
Proof. wf_ls _sb. Qed.
Lemma wf_sc inst s : wf s -> post wf (_sc EL inst s).
Proof. wf_ls _sc. Qed.
Lemma wf_scd inst s : wf s -> post wf (_scd EL inst s).
Proof. wf_ls _scd. Qed.
Lemma wf_swl inst s : wf s -> post wf (_swl EL inst s).
Proof. wf_ls _swl. Qed.
Lemma wf_swr inst s : wf s -> post wf (_swr EL inst s).
Proof. wf_ls _swr. Qed.
Lemma wf_lwl inst s : wf s -> post wf (_lwl EL inst s).
Proof. wf_ls _lwl. Qed.
Lemma wf_lwr inst s : wf s -> post wf (_lwr EL inst s).
Proof. wf_ls _lwr. Qed.
Lemma wf_ldl inst s : wf s -> post wf (_ldl EL inst s).
Proof. wf_ls _ldl. Qed.
Lemma wf_ldr inst s : wf s -> post wf (_ldr EL inst s).
Proof. wf_ls _ldr. Qed.
Lemma wf_sdl inst s : wf s -> post wf (_sdl EL inst s).
Proof. wf_ls _sdl. Qed.
Lemma wf_sdr inst s : wf s -> post wf (_sdr EL inst s).
Proof. wf_ls _sdr. Qed.
Lemma wf_ldc1 inst s : wf s -> post wf (_ldc1 EL inst s).
Proof. wf_ls _ldc1. Qed.
Lemma wf_sdc1 inst s : wf s -> post wf (_sdc1 EL inst s).
Proof. wf_ls _sdc1. Qed.
Lemma wf_lwc1 inst s : wf s -> post wf (_lwc1 EL inst s).
Proof. wf_ls _lwc1. Qed.
Lemma wf_swc1 inst s : wf s -> post wf (_swc1 EL inst s).
Proof. wf_ls _swc1. Qed.
Lemma wf_cache inst s : wf s -> post wf (_cache inst s).
Proof. wf_ls _cache. Qed.
End wf.
#[export] Hint Resolve wf_write_fpr_word wf_lw wf_lh wf_lb wf_lbu wf_lhu wf_lwu wf_ld wf_lld wf_sw wf_sd wf_sh wf_sb wf_sc wf_scd wf_swl wf_swr wf_lwl wf_lwr wf_ldl wf_ldr wf_sdl wf_sdr wf_ldc1 wf_sdc1 wf_lwc1 wf_swc1 wf_cache : wf.
