(* ===== verification/Alu.v ===== *)
(** The integer instructions of [execMips] in [src/interpret.cc]: the SPECIAL
    (R-type) arithmetic, shift, multiply/divide, move and trap instructions, the
    immediate instructions, and SYSCALL/BREAK.  One definition per [case]. *)
From S2P Require Import Prelude Bits Insns State Mem Wf Exc Tlb LoadStore.

Definition u32_rs (inst : Z) (s : state) : Z := u32 (gpr s).[f_rs inst].
Definition u32_rt (inst : Z) (s : state) : Z := u32 (gpr s).[f_rt inst].
Definition u64_rs (inst : Z) (s : state) : Z := u64 (gpr s).[f_rs inst].
Definition u64_rt (inst : Z) (s : state) : Z := u64 (gpr s).[f_rt inst].
Definition r_rs (inst : Z) (s : state) : Z := (gpr s).[f_rs inst].
Definition r_rt (inst : Z) (s : state) : Z := (gpr s).[f_rt inst].

(** [s->gpr[rd] = v; s->pc += 4; s->insn_histo[i]++;] and its variants. *)
Definition ret_rd (inst v : Z) (i : mipsInsn.t) (s : state) : state :=
  s |> set_gpr_at (f_rd inst) v |> add_pc 4 |> histo i.
Definition ret_rt (inst v : Z) (i : mipsInsn.t) (s : state) : state :=
  s |> set_gpr_at (f_rt inst) v |> add_pc 4 |> histo i.
Definition ret_hilo (hi_v lo_v : Z) (i : mipsInsn.t) (s : state) : state :=
  s |> set_lo lo_v |> set_hi hi_v |> add_pc 4 |> histo i.
Definition next (i : mipsInsn.t) (s : state) : state := s |> add_pc 4 |> histo i.

(** ** 32-bit shifts *)
Definition _sll (inst : Z) (s : state) : state :=
  ret_rd inst (s32 (s32 (r_rt inst s) << f_sa inst))
         (if inst =? 0 then mipsInsn.NOP else mipsInsn.SLL) s.
Definition _srl (inst : Z) (s : state) : state :=
  ret_rd inst (sext64 (u32_rt inst s >> f_sa inst)) mipsInsn.SRL s.
Definition _sra (inst : Z) (s : state) : state :=
  ret_rd inst (s32 (r_rt inst s) >> f_sa inst) mipsInsn.SRA s.
Definition _sllv (inst : Z) (s : state) : state :=
  ret_rd inst (sext64 (u32 (u32_rt inst s << (r_rs inst s .& 0x1f)))) mipsInsn.SLLV s.
Definition _srlv (inst : Z) (s : state) : state :=
  ret_rd inst (sext64 (u32_rt inst s >> (r_rs inst s .& 0x1f))) mipsInsn.SRLV s.
Definition _srav (inst : Z) (s : state) : state :=
  ret_rd inst (s32 (r_rt inst s) >> (r_rs inst s .& 0x1f)) mipsInsn.SRAV s.

(** ** SYSCALL and BREAK *)
Definition _syscall_break (inst : Z) (s : state) : state :=
  let funct := inst .& 63 in
  let s :=
    if g_iss_os_mode s then
      s |> set_exc_pc |> set_exccode (if funct =? 0x0C then 8 else 9) |> enter_exl |> goto_general
    else
      let s := s |> set_brk 1 |> add_pc 4 in
      if negb (silent s) then emit EvBreakOrSyscall s else s in
  histo mipsInsn.BREAK s.

(** ** HI/LO moves *)
Definition _mfhi (inst : Z) (s : state) : state := ret_rd inst (hi s) mipsInsn.MFHI s.
Definition _mthi (inst : Z) (s : state) : state :=
  s |> set_hi (r_rs inst s) |> next mipsInsn.MTHI.
Definition _mflo (inst : Z) (s : state) : state := ret_rd inst (lo s) mipsInsn.MFLO s.
Definition _mtlo (inst : Z) (s : state) : state :=
  s |> set_lo (r_rs inst s) |> next mipsInsn.MTLO.

(** ** Multiply and divide; the C++ quotient truncates toward zero. *)
Definition _mult (inst : Z) (s : state) : state :=
  let y := s64 (s32 (r_rs inst s) * s32 (r_rt inst s)) in
  ret_hilo (s32 (y >> 32)) (s32 (y .& 0xffffffff)) mipsInsn.MULT s.
Definition _multu (inst : Z) (s : state) : state :=
  let y := u64 (u32_rs inst s * u32_rt inst s) in
  ret_hilo (sext64 (u32 (y >> 32))) (sext64 (u32 y)) mipsInsn.MULTU s.
Definition _div (inst : Z) (s : state) : state :=
  if s32 (r_rt inst s) =/? 0 then
    let a := s32 (r_rs inst s) in let b := s32 (r_rt inst s) in
    ret_hilo (sext64 (u32 (s32 (Z.rem a b)))) (sext64 (u32 (s32 (Z.quot a b)))) mipsInsn.DIV s
  else next mipsInsn.DIV s.
(** The guard tests the full register, the host divides the low words. *)
Definition _divu (inst : Z) (s : state) : result state :=
  if r_rt inst s =/? 0 then
    if u32_rt inst s =? 0 then Stop HostUB
    else Ok (ret_hilo (sext64 (u32_rs inst s mod u32_rt inst s))
                      (sext64 (u32_rs inst s / u32_rt inst s)) mipsInsn.DIVU s)
  else Ok (next mipsInsn.DIVU s).
Definition _dmult (inst : Z) (s : state) : state :=
  let y := wraps 128 (r_rs inst s * r_rt inst s) in
  ret_hilo (s64 (y >> 64)) (s64 (y .& 0xffffffffffffffff)) mipsInsn.DMULT s.
Definition _dmultu (inst : Z) (s : state) : state :=
  let y := wrapu 128 (u64_rs inst s * u64_rt inst s) in
  ret_hilo (s64 (u64 (y >> 64))) (s64 (y .& 0xffffffffffffffff)) mipsInsn.DMULTU s.
Definition INT64_MIN : Z := - 2 ^ 63.
Definition _ddiv (inst : Z) (s : state) : state :=
  if r_rt inst s =/? 0 then
    if (r_rs inst s =? INT64_MIN) && (r_rt inst s =? -1) then
      ret_hilo 0 (r_rs inst s) mipsInsn.DDIV s
    else ret_hilo (Z.rem (r_rs inst s) (r_rt inst s)) (Z.quot (r_rs inst s) (r_rt inst s))
                  mipsInsn.DDIV s
  else next mipsInsn.DDIV s.
Definition _ddivu (inst : Z) (s : state) : state :=
  if r_rt inst s =/? 0 then
    ret_hilo (s64 (u64_rs inst s mod u64_rt inst s)) (s64 (u64_rs inst s / u64_rt inst s))
             mipsInsn.DDIVU s
  else next mipsInsn.DDIVU s.

(** ** 32-bit arithmetic *)
Definition _add (inst : Z) (s : state) : state :=
  let u_rs := u32_rs inst s in let u_rt := u32_rt inst s in
  let result := u32 (u_rs + u_rt) in
  if (result >> 31 =/? u_rt >> 31) && (u_rs >> 31 =? u_rt >> 31) then raise_overflow s
  else ret_rd inst (sext64 result) mipsInsn.ADD s.
Definition _addu (inst : Z) (s : state) : state :=
  ret_rd inst (sext64 (u32 (u32_rs inst s + u32_rt inst s))) mipsInsn.ADDU s.
Definition _sub (inst : Z) (s : state) : state :=
  let u_rs := u32_rs inst s in let u_rt := u32_rt inst s in
  let result := u32 (u_rs - u_rt) in
  if (result >> 31 =/? u_rs >> 31) && (u_rs >> 31 =/? u_rt >> 31) then raise_overflow s
  else ret_rd inst (sext64 result) mipsInsn.SUB s.
Definition _subu (inst : Z) (s : state) : state :=
  ret_rd inst (sext64 (u32 (u32_rs inst s - u32_rt inst s))) mipsInsn.SUBU s.

(** ** Logic and comparison *)
Definition _and (inst : Z) (s : state) : state :=
  ret_rd inst (r_rs inst s .& r_rt inst s) mipsInsn.AND s.
Definition _or (inst : Z) (s : state) : state :=
  let s := if f_rd inst =/? 0
           then set_gpr_at (f_rd inst) (r_rs inst s .| r_rt inst s) s else s in
  next mipsInsn.OR s.
Definition _xor (inst : Z) (s : state) : state :=
  ret_rd inst (r_rs inst s .^ r_rt inst s) mipsInsn.XOR s.
Definition _nor (inst : Z) (s : state) : state :=
  ret_rd inst (.~ (r_rs inst s .| r_rt inst s)) mipsInsn.NOR s.
Definition _slt (inst : Z) (s : state) : state :=
  ret_rd inst (Z.b2z (r_rs inst s <? r_rt inst s)) mipsInsn.SLT s.
Definition _sltu (inst : Z) (s : state) : state :=
  ret_rd inst (Z.b2z (u64_rs inst s <? u64_rt inst s)) mipsInsn.SLTU s.

(** ** Conditional traps *)
Definition trap_if (c : bool) (i : mipsInsn.t) (s : state) : state :=
  if c then raise_trap s else next i s.
Definition _tge (inst : Z) (s : state) : state :=
  trap_if (r_rt inst s <=? r_rs inst s) mipsInsn.TGE s.
Definition _tgeu (inst : Z) (s : state) : state :=
  trap_if (u64_rt inst s <=? u64_rs inst s) mipsInsn.TGEU s.
Definition _tlt (inst : Z) (s : state) : state :=
  trap_if (r_rs inst s <? r_rt inst s) mipsInsn.TLT s.
Definition _tltu (inst : Z) (s : state) : state :=
  trap_if (u64_rs inst s <? u64_rt inst s) mipsInsn.TLTU s.
Definition _teq (inst : Z) (s : state) : state :=
  trap_if (r_rs inst s =? r_rt inst s) mipsInsn.TEQ s.
Definition _tne (inst : Z) (s : state) : state :=
  trap_if (r_rs inst s =/? r_rt inst s) mipsInsn.TNE s.

(** ** 64-bit arithmetic; [int64_t] sums wrap. *)
Definition _dadd (inst : Z) (s : state) : state :=
  let u_rs := u64_rs inst s in let u_rt := u64_rt inst s in
  let result := u64 (u_rs + u_rt) in
  if (result >> 63 =/? u_rt >> 63) && (u_rs >> 63 =? u_rt >> 63) then raise_overflow s
  else ret_rd inst (s64 result) mipsInsn.DADD s.
Definition _daddu (inst : Z) (s : state) : state :=
  ret_rd inst (s64 (r_rs inst s + r_rt inst s)) mipsInsn.DADDU s.
Definition _dsub (inst : Z) (s : state) : state :=
  let u_rs := u64_rs inst s in let u_rt := u64_rt inst s in
  let result := u64 (u_rs - u_rt) in
  if (result >> 63 =/? u_rs >> 63) && (u_rs >> 63 =/? u_rt >> 63) then raise_overflow s
  else ret_rd inst (s64 result) mipsInsn.DSUB s.
Definition _dsubu (inst : Z) (s : state) : state :=
  ret_rd inst (s64 (r_rs inst s - r_rt inst s)) mipsInsn.DSUBU s.

(** ** 64-bit shifts *)
Definition _dsllv (inst : Z) (s : state) : state :=
  ret_rd inst (s64 (r_rt inst s << (r_rs inst s .& 63))) mipsInsn.DSLLV s.
Definition _dsrlv (inst : Z) (s : state) : state :=
  ret_rd inst (s64 (u64_rt inst s >> (r_rs inst s .& 63))) mipsInsn.DSRLV s.
Definition _dsrav (inst : Z) (s : state) : state :=
  ret_rd inst (r_rt inst s >> (r_rs inst s .& 63)) mipsInsn.DSRAV s.
Definition _dsll (inst : Z) (s : state) : state :=
  ret_rd inst (s64 (r_rt inst s << f_sa inst)) mipsInsn.DSLL s.
Definition _dsrl (inst : Z) (s : state) : state :=
  ret_rd inst (s64 (u64_rt inst s >> f_sa inst)) mipsInsn.DSRL s.
Definition _dsra (inst : Z) (s : state) : state :=
  ret_rd inst (r_rt inst s >> f_sa inst) mipsInsn.DSRA s.
Definition _dsll32 (inst : Z) (s : state) : state :=
  ret_rd inst (s64 (r_rt inst s << (f_sa inst + 32))) mipsInsn.DSLL32 s.
Definition _dsrl32 (inst : Z) (s : state) : state :=
  ret_rd inst (s64 (u64_rt inst s >> (f_sa inst + 32))) mipsInsn.DSRL32 s.
Definition _dsra32 (inst : Z) (s : state) : state :=
  ret_rd inst (r_rt inst s >> (f_sa inst + 32)) mipsInsn.DSRA32 s.

(** ** Immediates *)
Definition f_uimm (inst : Z) : Z := inst .& ((1 << 16) - 1).
Definition _addi (inst : Z) (s : state) : state :=
  let u_rs := u32_rs inst s in let u_imm := u32 (f_simm inst) in
  let result := u32 (u_rs + u_imm) in
  if (result >> 31 =/? u_imm >> 31) && (u_rs >> 31 =? u_imm >> 31) then raise_overflow s
  else ret_rt inst (sext64 result) mipsInsn.ADDI s.
Definition _addiu (inst : Z) (s : state) : state :=
  let tmp := s32 (sext64 (u32 (s64 (r_rs inst s + f_simm inst)))) in
  ret_rt inst tmp mipsInsn.ADDIU s.
Definition _slti (inst : Z) (s : state) : state :=
  ret_rt inst (Z.b2z (r_rs inst s <? f_simm inst)) mipsInsn.SLTI s.
Definition _sltiu (inst : Z) (s : state) : state :=
  ret_rt inst (Z.b2z (u64_rs inst s <? u64 (f_simm inst))) mipsInsn.SLTIU s.
Definition _andi (inst : Z) (s : state) : state :=
  ret_rt inst (r_rs inst s .& f_uimm inst) mipsInsn.ANDI s.
Definition _ori (inst : Z) (s : state) : state :=
  ret_rt inst (r_rs inst s .| f_uimm inst) mipsInsn.ORI s.
Definition _xori (inst : Z) (s : state) : state :=
  ret_rt inst (r_rs inst s .^ f_uimm inst) mipsInsn.XORI s.
Definition _lui (inst : Z) (s : state) : state :=
  ret_rt inst (sext64 (u32 (f_uimm inst << 16))) mipsInsn.LUI s.
Definition _daddi (inst : Z) (s : state) : state :=
  let a := r_rs inst s in let b := f_simm inst in
  let result := s64 (u64 (u64 a + u64 b)) in
  if (result >> 63 =/? b >> 63) && (a >> 63 =? b >> 63) then raise_overflow s
  else ret_rt inst result mipsInsn.DADDI s.
Definition _daddiu (inst : Z) (s : state) : state :=
  ret_rt inst (s64 (r_rs inst s + f_simm inst)) mipsInsn.DADDIU s.

Section mips4.
Context `{Config}.
(** The MIPS IV conditional moves raise RI on a MIPS III build. *)
Definition mips4_gate (inst : Z) (k : state -> state) (s : state) : state :=
  if negb ISS_MIPS4 && negb ISS_MIPS4_CMOV then raise_ri inst s else k s.
Definition _movci (inst : Z) (s : state) : state :=
  let cc := (inst >> 18) .& 7 in
  let tf := (inst >> 16) .& 1 in
  let c := getConditionCode s cc =/? 0 in
  let rdv := (gpr s).[f_rd inst] in
  let s := if tf =? 0
           then s |> set_gpr_at (f_rd inst) (if c then rdv else r_rs inst s) |> histo mipsInsn.MOVF
           else s |> set_gpr_at (f_rd inst) (if c then r_rs inst s else rdv) |> histo mipsInsn.MOVT in
  add_pc 4 s.
Definition _movn (inst : Z) (s : state) : state :=
  ret_rd inst (if r_rt inst s =/? 0 then r_rs inst s else (gpr s).[f_rd inst]) mipsInsn.MOVN s.
Definition _movz (inst : Z) (s : state) : state :=
  ret_rd inst (if r_rt inst s =? 0 then r_rs inst s else (gpr s).[f_rd inst]) mipsInsn.MOVZ s.
End mips4.

(** * Theorems *)

(** ** The type invariant *)
(** Truncating and flooring division stay within the operands' width. *)
Lemma quot_range w a b : 0 < w -> in_s w a -> b <> 0 -> ~ (a = - 2 ^ (w - 1) /\ b = -1) -> in_s w (Z.quot a b).
Proof.
  unfold in_s. intros Hw Ha Hb Hne. pose proof (Z.quot_abs a b Hb) as Hq.
  assert (Z.abs (Z.quot a b) <= Z.abs a) as Hle.
  { rewrite <- Hq. apply Z.quot_le_upper_bound; nia. }
  destruct (decide (Z.abs b = 1)).
  - assert (b = 1 \/ b = -1) as [->| ->] by lia; [rewrite Z.quot_1_r; lia|].
    replace (-1) with (- (1)) by lia. rewrite Z.quot_opp_r, Z.quot_1_r by lia. lia.
  - destruct (decide (a = 0)) as [->|]; [rewrite Z.quot_0_l by done; lia|].
    assert (Z.abs (Z.quot a b) < Z.abs a); [|lia].
    rewrite <- Hq. apply Z.quot_lt; lia.
Qed.
Lemma rem_range w a b : 0 < w -> in_s w b -> b <> 0 -> in_s w (Z.rem a b).
Proof. unfold in_s. intros. pose proof (Z.rem_bound_abs a b). lia. Qed.

Lemma r_rs_range `{Config} inst s : wf s -> in_s 64 (r_rs inst s).
Proof. apply wf_gpr_rd. Qed.
Lemma r_rt_range `{Config} inst s : wf s -> in_s 64 (r_rt inst s).
Proof. apply wf_gpr_rd. Qed.
Lemma u32_rs_range inst s : in_u 32 (u32_rs inst s).
Proof. by apply wrapu_range. Qed.
Lemma u32_rt_range inst s : in_u 32 (u32_rt inst s).
Proof. by apply wrapu_range. Qed.
Lemma u64_rs_range inst s : in_u 64 (u64_rs inst s).
Proof. by apply wrapu_range. Qed.
Lemma u64_rt_range inst s : in_u 64 (u64_rt inst s).
Proof. by apply wrapu_range. Qed.
Lemma f_uimm_range inst : in_s 64 (f_uimm inst).
Proof. unfold f_uimm. apply (in_s_of_u 64 16); [done|]. apply in_u_land_r; done. Qed.
#[export] Hint Resolve r_rs_range r_rt_range u32_rs_range u32_rt_range u64_rs_range u64_rt_range
  f_uimm_range : ranges.

Section wf.
Context `{Config}.
Implicit Types (s : state) (inst : Z).

Lemma wf_ret_rd inst v i s : in_s 64 v -> wf s -> wf (ret_rd inst v i s).
Proof. wf_of ret_rd. Qed.
Lemma wf_ret_rt inst v i s : in_s 64 v -> wf s -> wf (ret_rt inst v i s).
Proof. wf_of ret_rt. Qed.
Lemma wf_ret_hilo h l i s : in_s 64 h -> in_s 64 l -> wf s -> wf (ret_hilo h l i s).
Proof. wf_of ret_hilo. Qed.
Lemma wf_next i s : wf s -> wf (next i s).
Proof. wf_of next. Qed.
Lemma wf_trap_if c i s : wf s -> wf (trap_if c i s).
Proof. intros. unfold trap_if. destruct c; [by apply wf_raise_trap|by apply wf_next]. Qed.
#[local] Hint Resolve wf_ret_rd wf_ret_rt wf_ret_hilo wf_next wf_trap_if : wf.

Lemma wf_sll inst s : wf s -> wf (_sll inst s).
Proof. wf_of _sll. Qed.
Lemma wf_srl inst s : wf s -> wf (_srl inst s).
Proof. wf_of _srl. Qed.
Lemma wf_sra inst s : wf s -> wf (_sra inst s).
Proof. wf_of _sra. Qed.
Lemma wf_sllv inst s : wf s -> wf (_sllv inst s).
Proof. wf_of _sllv. Qed.
Lemma wf_srlv inst s : wf s -> wf (_srlv inst s).
Proof. wf_of _srlv. Qed.
Lemma wf_srav inst s : wf s -> wf (_srav inst s).
Proof. wf_of _srav. Qed.
Lemma wf_syscall_break inst s : wf s -> wf (_syscall_break inst s).
Proof. wf_of _syscall_break. Qed.
Lemma wf_mfhi inst s : wf s -> wf (_mfhi inst s).
Proof. wf_of _mfhi. Qed.
Lemma wf_mthi inst s : wf s -> wf (_mthi inst s).
Proof. wf_of _mthi. Qed.
Lemma wf_mflo inst s : wf s -> wf (_mflo inst s).
Proof. wf_of _mflo. Qed.
Lemma wf_mtlo inst s : wf s -> wf (_mtlo inst s).
Proof. wf_of _mtlo. Qed.
Lemma wf_mult inst s : wf s -> wf (_mult inst s).
Proof. wf_of _mult. Qed.
Lemma wf_multu inst s : wf s -> wf (_multu inst s).
Proof. wf_of _multu. Qed.
Lemma wf_div inst s : wf s -> wf (_div inst s).
Proof. wf_of _div. Qed.
Lemma wf_dmult inst s : wf s -> wf (_dmult inst s).
Proof. wf_of _dmult. Qed.
Lemma wf_dmultu inst s : wf s -> wf (_dmultu inst s).
Proof. wf_of _dmultu. Qed.
Lemma wf_ddiv inst s : wf s -> wf (_ddiv inst s).
Proof.
  intros Hw. pose proof (r_rs_range inst s Hw). pose proof (r_rt_range inst s Hw).
  unfold _ddiv. destruct (Z.eqb_spec (r_rt inst s) 0) as [|Hb]; cbn [negb]; [wf_auto|].
  destruct (_ && _) eqn:Hov; [wf_auto|]. apply wf_ret_hilo; [by apply rem_range| |done].
  apply quot_range; [done|done|done|]. intros [Ha Hb'].
  rewrite Ha, Hb' in Hov. done.
Qed.
Lemma wf_ddivu inst s : wf s -> wf (_ddivu inst s).
Proof. wf_of _ddivu. Qed.
Lemma wf_add inst s : wf s -> wf (_add inst s).
Proof. wf_of _add. Qed.
Lemma wf_addu inst s : wf s -> wf (_addu inst s).
Proof. wf_of _addu. Qed.
Lemma wf_sub inst s : wf s -> wf (_sub inst s).
Proof. wf_of _sub. Qed.
Lemma wf_subu inst s : wf s -> wf (_subu inst s).
Proof. wf_of _subu. Qed.
Lemma wf_and inst s : wf s -> wf (_and inst s).
Proof. wf_of _and. Qed.
Lemma wf_or inst s : wf s -> wf (_or inst s).
Proof. wf_of _or. Qed.
Lemma wf_xor inst s : wf s -> wf (_xor inst s).
Proof. wf_of _xor. Qed.
Lemma wf_nor inst s : wf s -> wf (_nor inst s).
Proof. wf_of _nor. Qed.
Lemma wf_slt inst s : wf s -> wf (_slt inst s).
Proof. wf_of _slt. Qed.
Lemma wf_sltu inst s : wf s -> wf (_sltu inst s).
Proof. wf_of _sltu. Qed.
Lemma wf_tge inst s : wf s -> wf (_tge inst s).
Proof. wf_of _tge. Qed.
Lemma wf_tgeu inst s : wf s -> wf (_tgeu inst s).
Proof. wf_of _tgeu. Qed.
Lemma wf_tlt inst s : wf s -> wf (_tlt inst s).
Proof. wf_of _tlt. Qed.
Lemma wf_tltu inst s : wf s -> wf (_tltu inst s).
Proof. wf_of _tltu. Qed.
Lemma wf_teq inst s : wf s -> wf (_teq inst s).
Proof. wf_of _teq. Qed.
Lemma wf_tne inst s : wf s -> wf (_tne inst s).
Proof. wf_of _tne. Qed.
Lemma wf_dadd inst s : wf s -> wf (_dadd inst s).
Proof. wf_of _dadd. Qed.
Lemma wf_daddu inst s : wf s -> wf (_daddu inst s).
Proof. wf_of _daddu. Qed.
Lemma wf_dsub inst s : wf s -> wf (_dsub inst s).
Proof. wf_of _dsub. Qed.
Lemma wf_dsubu inst s : wf s -> wf (_dsubu inst s).
Proof. wf_of _dsubu. Qed.
Lemma wf_dsllv inst s : wf s -> wf (_dsllv inst s).
Proof. wf_of _dsllv. Qed.
Lemma wf_dsrlv inst s : wf s -> wf (_dsrlv inst s).
Proof. wf_of _dsrlv. Qed.
Lemma wf_dsrav inst s : wf s -> wf (_dsrav inst s).
Proof. wf_of _dsrav. Qed.
Lemma wf_dsll inst s : wf s -> wf (_dsll inst s).
Proof. wf_of _dsll. Qed.
Lemma wf_dsrl inst s : wf s -> wf (_dsrl inst s).
Proof. wf_of _dsrl. Qed.
Lemma wf_dsra inst s : wf s -> wf (_dsra inst s).
Proof. wf_of _dsra. Qed.
Lemma wf_dsll32 inst s : wf s -> wf (_dsll32 inst s).
Proof. wf_of _dsll32. Qed.
Lemma wf_dsrl32 inst s : wf s -> wf (_dsrl32 inst s).
Proof. wf_of _dsrl32. Qed.
Lemma wf_dsra32 inst s : wf s -> wf (_dsra32 inst s).
Proof. wf_of _dsra32. Qed.
Lemma wf_addi inst s : wf s -> wf (_addi inst s).
Proof. wf_of _addi. Qed.
Lemma wf_addiu inst s : wf s -> wf (_addiu inst s).
Proof. wf_of _addiu. Qed.
Lemma wf_slti inst s : wf s -> wf (_slti inst s).
Proof. wf_of _slti. Qed.
Lemma wf_sltiu inst s : wf s -> wf (_sltiu inst s).
Proof. wf_of _sltiu. Qed.
Lemma wf_andi inst s : wf s -> wf (_andi inst s).
Proof. wf_of _andi. Qed.
Lemma wf_ori inst s : wf s -> wf (_ori inst s).
Proof. wf_of _ori. Qed.
Lemma wf_xori inst s : wf s -> wf (_xori inst s).
Proof. wf_of _xori. Qed.
Lemma wf_lui inst s : wf s -> wf (_lui inst s).
Proof. wf_of _lui. Qed.
Lemma wf_daddi inst s : wf s -> wf (_daddi inst s).
Proof. wf_of _daddi. Qed.
Lemma wf_daddiu inst s : wf s -> wf (_daddiu inst s).
Proof. wf_of _daddiu. Qed.
Lemma wf_movci inst s : wf s -> wf (_movci inst s).
Proof. wf_of _movci. Qed.
Lemma wf_movn inst s : wf s -> wf (_movn inst s).
Proof. wf_of _movn. Qed.
Lemma wf_movz inst s : wf s -> wf (_movz inst s).
Proof. wf_of _movz. Qed.
Lemma wf_divu inst s : wf s -> post wf (_divu inst s).
Proof. wf_of _divu. Qed.
Lemma wf_mips4_gate inst k s : (forall s, wf s -> wf (k s)) -> wf s -> wf (mips4_gate inst k s).
Proof. intros. unfold mips4_gate. destruct (_ && _); [by apply wf_raise_ri|auto]. Qed.
End wf.
#[export] Hint Resolve wf_ret_rd wf_ret_rt wf_ret_hilo wf_next wf_trap_if wf_mips4_gate wf_sll
  wf_srl wf_sra wf_sllv wf_srlv wf_srav wf_syscall_break wf_mfhi wf_mthi wf_mflo wf_mtlo wf_mult
  wf_multu wf_div wf_dmult wf_dmultu wf_ddiv wf_ddivu wf_add wf_addu wf_sub wf_subu wf_and wf_or
  wf_xor wf_nor wf_slt wf_sltu wf_tge wf_tgeu wf_tlt wf_tltu wf_teq wf_tne wf_dadd wf_daddu
  wf_dsub wf_dsubu wf_dsllv wf_dsrlv wf_dsrav wf_dsll wf_dsrl wf_dsra wf_dsll32 wf_dsrl32
  wf_dsra32 wf_addi wf_addiu wf_slti wf_sltiu wf_andi wf_ori wf_xori wf_lui wf_daddi wf_daddiu
  wf_movci wf_movn wf_movz wf_divu : wf.
