(* ===== verification/Fp.v ===== *)
(** The host's IEEE-754 arithmetic behind the C++ [float] and [double]
    operators of [src/interpret.cc], computed on bit patterns with the Standard
    Library's [SpecFloat] in round-to-nearest-even, the C++ default.  What the
    language leaves to the host, the bits of a NaN result and the integer an
    out-of-range conversion gives, is the interface [HostFP]. *)
From S2P Require Import Prelude.
From Stdlib Require Import SpecFloat.

(** A binary interchange format. *)
Record fp_format := { fprec : Z; femax : Z }.
Definition binary32 : fp_format := {| fprec := 24; femax := 128 |}.
Definition binary64 : fp_format := {| fprec := 53; femax := 1024 |}.

Section format.
Variable F : fp_format.
Definition fmw : Z := fprec F - 1.                    (* mantissa field width *)
Definition few : Z := Z.log2 (femax F) + 1.           (* exponent field width *)
Definition fwidth : Z := fmw + few + 1.
Definition femin : Z := 3 - femax F - fprec F.

Definition bits_sign (b : Z) : bool := Z.testbit b (fmw + few).
Definition bits_exp (b : Z) : Z := (b >> fmw) .& Z.ones few.
Definition bits_man (b : Z) : Z := b .& Z.ones fmw.
Definition pack (s : bool) (e m : Z) : Z := (Z.b2z s << (fmw + few)) .| (e << fmw) .| m.

Definition sf_of_bits (b : Z) : spec_float :=
  let s := bits_sign b in let e := bits_exp b in let m := bits_man b in
  if e =? Z.ones few then (if m =? 0 then S754_infinity s else S754_nan)
  else if e =? 0 then
    match m with
    | Zpos p => S754_finite s p femin
    | _ => S754_zero s
    end
  else match m + 2 ^ fmw with
       | Zpos p => S754_finite s p (e - 1 + femin)
       | _ => S754_nan
       end.
Definition bits_of_sf (nan : Z) (x : spec_float) : Z :=
  match x with
  | S754_nan => nan
  | S754_zero s => pack s 0 0
  | S754_infinity s => pack s (Z.ones few) 0
  | S754_finite s m e =>
      if Zpos m <? 2 ^ fmw then pack s 0 (Zpos m)
      else pack s (e - femin + 1) (Zpos m - 2 ^ fmw)
  end.
Definition is_nan_bits (b : Z) : bool :=
  (bits_exp b =? Z.ones few) && (bits_man b =/? 0).
(** [std::abs], unary minus. *)
Definition fp_abs (b : Z) : Z := b .& Z.ones (fmw + few).
Definition fp_neg (b : Z) : Z := b .^ (1 << (fmw + few)).
End format.

(** What the language does not fix: the NaN an operation returns, from its
    operands' bits, and the result of a conversion whose value does not fit. *)
Class HostFP := {
  nan_result : fp_format -> list Z -> Z;
  nan_result32_is_nan : forall ops, is_nan_bits binary32 (nan_result binary32 ops) = true;
  nan_result64_is_nan : forall ops, is_nan_bits binary64 (nan_result binary64 ops) = true;
  nan_result32_range : forall ops, 0 <= nan_result binary32 ops < 2 ^ 32;
  nan_result64_range : forall ops, 0 <= nan_result binary64 ops < 2 ^ 64;
  invalid_to_int : Z -> Z;
  invalid_to_int_range : forall w, 0 < w -> - 2 ^ (w - 1) <= invalid_to_int w < 2 ^ (w - 1);
}.

(** A concrete host: always the default quiet NaN, the "integer indefinite". *)
#[refine] Definition indefinite_host : HostFP := {|
  nan_result F _ := pack F true (Z.ones (few F)) (2 ^ (fmw F - 1));
  invalid_to_int w := - 2 ^ (w - 1);
|}.
Proof.
  all: try (intros; vm_compute; (done || by split)).
  intros w Hw. pose proof (Z.pow_pos_nonneg 2 (w - 1)). lia.
Defined.

Section ops.
Context `{HostFP}.
Variable F : fp_format.
(** The result's bit pattern, in the format's storage word. *)
Definition fp_result (ops : list Z) (x : spec_float) : Z :=
  wrapu (fwidth F) (bits_of_sf F (nan_result F ops) x).
Definition sf (b : Z) : spec_float := sf_of_bits F b.
Definition fp_add (a b : Z) : Z := fp_result [a; b] (SFadd (fprec F) (femax F) (sf a) (sf b)).
Definition fp_sub (a b : Z) : Z := fp_result [a; b] (SFsub (fprec F) (femax F) (sf a) (sf b)).
Definition fp_mul (a b : Z) : Z := fp_result [a; b] (SFmul (fprec F) (femax F) (sf a) (sf b)).
Definition fp_div (a b : Z) : Z := fp_result [a; b] (SFdiv (fprec F) (femax F) (sf a) (sf b)).
Definition fp_sqrt (a : Z) : Z := fp_result [a] (SFsqrt (fprec F) (femax F) (sf a)).
(** [static_cast<T>(1.0)] *)
Definition fp_one : Z := pack F false (femax F - 1) 0.
Definition fp_lt (a b : Z) : bool := SFltb (sf a) (sf b).
Definition fp_eq (a b : Z) : bool := SFeqb (sf a) (sf b).
Definition fp_isnan (a : Z) : bool := match sf a with S754_nan => true | _ => false end.
(** integer to floating point *)
Definition fp_of_int (v : Z) : Z :=
  fp_result [v] (binary_normalize (fprec F) (femax F) v 0 false).
End ops.

(** Conversion between the two formats. *)
Definition fp_convert `{HostFP} (F G : fp_format) (a : Z) : Z :=
  fp_result G [a]
    match sf F a with
    | S754_finite s m e => binary_normalize (fprec G) (femax G) (cond_Zopp s (Zpos m)) e s
    | x => x
    end.

(** [nearbyint] (half to even), [trunc], [ceil] and [floor] of [n / d], d > 0. *)
Definition round_half_even (n d : Z) : Z :=
  let q := n / d in let r := 2 * (n mod d) in
  if r <? d then q else if d <? r then q + 1 else if Z.even q then q else q + 1.
Definition round_div (rm n d : Z) : Z :=
  match rm with
  | 0 => round_half_even n d
  | 1 => Z.quot n d
  | 2 => - ((- n) / d)
  | _ => n / d
  end.
Definition fp_round_to_int (F : fp_format) (rm a : Z) : option Z :=
  match sf F a with
  | S754_zero _ => Some 0
  | S754_finite s m e =>
      let v := cond_Zopp s (Zpos m) in
      Some (if 0 <=? e then v << e else round_div rm v (2 ^ (- e)))
  | _ => None
  end.
(** [(intw_t)r] of the rounded value. *)
Definition to_int `{HostFP} (w : Z) (r : option Z) : Z :=
  match r with
  | Some v => if (- 2 ^ (w - 1) <=? v) && (v <? 2 ^ (w - 1)) then v else invalid_to_int w
  | None => invalid_to_int w
  end.
