(* ===== verification/Fpu.v ===== *)
(** The floating-point coprocessor of [src/interpret.cc]: register moves, the
    FP control registers, arithmetic, comparison, conversion, the MIPS IV
    conditional moves, and COP1X.  The BC1 branches are in [Branch]. *)
From S2P Require Import Prelude Bits Insns State Mem Wf Exc Tlb LoadStore Alu Fp.

(** Register fields of COP1: fs = rd, ft = rt, fd = sa, fmt = rs. *)
Definition f_fs (inst : Z) : Z := f_rd inst.
Definition f_ft (inst : Z) : Z := f_rt inst.
Definition f_fd (inst : Z) : Z := f_sa inst.
Definition f_fmt (inst : Z) : Z := f_rs inst.

(** The template parameter T: [float] or [double]. *)
Inductive fp_type := T_float | T_double.
Definition fmt_of (T : fp_type) : fp_format :=
  match T with T_float => binary32 | T_double => binary64 end.
(** [*reinterpret_cast<T*>(s->cpr1+r)] on the little-endian host: a float is
    the low word of the register, a store to it keeps the high word. *)
Definition low_word (old w : Z) : Z := (old .& 0xffffffff00000000) .| u32 w.
Definition read_T (T : fp_type) (r : Z) (s : state) : Z :=
  match T with T_float => u32 (cpr1 s).[r] | T_double => (cpr1 s).[r] end.
Definition write_T (T : fp_type) (r v : Z) (s : state) : state :=
  match T with
  | T_float => set_cpr1_at r (low_word (cpr1 s).[r] v) s
  | T_double => set_cpr1_at r v s
  end.
Definition read_w (r : Z) (s : state) : Z := s32 (cpr1 s).[r].
Definition read_l (r : Z) (s : state) : Z := s64 (cpr1 s).[r].
Definition set_fp_state (T : fp_type) (r : Z) (s : state) : state :=
  set_cpr1_state_at r (match T with T_float => fp_sp | T_double => fp_dp end) s.
Definition select_fp_insn (T : fp_type) (dp sp : mipsInsn.t) : mipsInsn.t :=
  match T with T_float => sp | T_double => dp end.

(** ** Moves *)
Definition _mtc1 (inst : Z) (s : state) : state :=
  s |> write_fpr_word (f_fs inst) (u32 (r_rt inst s)) |> next mipsInsn.MTC1.
Definition _mfc1 (inst : Z) (s : state) : state :=
  ret_rt inst (s32 (read_fpr_word (f_fs inst) s)) mipsInsn.MFC1 s.
Definition _dmtc1 (inst : Z) (s : state) : state :=
  s |> set_cpr1_at (f_fs inst) (u64 (r_rt inst s)) |> next mipsInsn.DMTC1.
Definition _dmfc1 (inst : Z) (s : state) : state :=
  ret_rt inst (s64 (cpr1 s).[f_fs inst]) mipsInsn.DMFC1 s.
Definition fcr_index (cr : Z) : Z :=
  match cr with
  | 0 => CP1_CR0
  | 31 => CP1_CR31
  | 25 => CP1_CR25
  | 26 => CP1_CR26
  | 28 => CP1_CR28
  | _ => CP1_CR31
  end.
Definition _cfc1 (inst : Z) (s : state) : state :=
  let cr := f_rd inst in
  let v := if cr =? 0 then 0x00000500 else (fcr1 s).[fcr_index cr] in
  ret_rt inst (s32 v) mipsInsn.CFC1 s.
Definition _ctc1 (inst : Z) (s : state) : state :=
  let cr := f_rd inst in
  let s := if cr =/? 0 then
             let s := set_fcr1_at (fcr_index cr) (u32 (r_rt inst s)) s in
             if cr =? 31 then fcc_mirror_to_fccr s
             else if cr =? 25 then fcc_mirror_from_fccr s else s
           else s in
  next mipsInsn.CTC1 s.

(** ** MIPS IV conditional moves *)
Definition _movnd (inst : Z) (s : state) : state :=
  let v := if r_rt inst s =/? 0 then (cpr1 s).[f_fs inst] else (cpr1 s).[f_fd inst] in
  s |> set_cpr1_at (f_fd inst) v |> add_pc 4.
Definition _movns (inst : Z) (s : state) : state := _movnd inst s.
Definition _movzd (inst : Z) (s : state) : state :=
  let v := if r_rt inst s =? 0 then (cpr1 s).[f_fs inst] else (cpr1 s).[f_fd inst] in
  s |> set_cpr1_at (f_fd inst) v |> add_pc 4.
Definition _movzs (inst : Z) (s : state) : state := _movzd inst s.
Definition _movcd (inst : Z) (s : state) : state :=
  let cc := (inst >> 18) .& 7 in
  let tf := (inst >> 16) .& 1 in
  let mv s := set_cpr1_at (f_fd inst) (cpr1 s).[f_fs inst] s in
  let s := if tf =? 0
           then histo_touch mipsInsn.FP_MOVF (if getConditionCode s cc =? 0 then mv s else s)
           else histo_touch mipsInsn.FP_MOVT (if getConditionCode s cc =? 1 then mv s else s) in
  add_pc 4 s.
Definition _movcs (inst : Z) (s : state) : state :=
  let cc := (inst >> 18) .& 7 in
  let tf := (inst >> 16) .& 1 in
  let c := getConditionCode s cc =/? 0 in
  let vfs := (cpr1 s).[f_fs inst] in
  let vfd := (cpr1 s).[f_fd inst] in
  let s := if tf =? 0
           then s |> set_cpr1_at (f_fd inst) (if c then vfd else vfs) |> histo_touch mipsInsn.FP_MOVF
           else s |> set_cpr1_at (f_fd inst) (if c then vfs else vfd) |> histo_touch mipsInsn.FP_MOVT in
  add_pc 4 s.
Definition by_fmt (inst : Z) (fs fd : state -> state) (s : state) : result state :=
  match f_fmt inst with
  | 16 => Ok (fs s)
  | 17 => Ok (fd s)
  | _ => Stop HostExit
  end.
Definition _fmovn (inst : Z) : state -> result state := by_fmt inst (_movns inst) (_movnd inst).
Definition _fmovz (inst : Z) : state -> result state := by_fmt inst (_movzs inst) (_movzd inst).
Definition _fmovc (inst : Z) : state -> result state := by_fmt inst (_movcs inst) (_movcd inst).

(** ** Arithmetic *)
Inductive fpOperation :=
  | fp_op_abs | fp_op_neg | fp_op_mov | fp_op_add | fp_op_sub | fp_op_mul | fp_op_div
  | fp_op_sqrt | fp_op_rsqrt | fp_op_recip | fp_op_truncl | fp_op_truncw | fp_op_cvts
  | fp_op_cvtd | fp_op_unknown.

(** interpret.hh [decode_fp]. *)
Definition decode_fp (inst : Z) : fpOperation :=
  let opcode := inst >> 26 in
  let functField := (inst >> 21) .& 31 in
  let lowop := inst .& 63 in
  let fmt := (inst >> 21) .& 31 in
  let lowbits := inst .& ((1 << 11) - 1) in
  if opcode =/? 0x11 then fp_op_unknown
  else if fmt =? 0x8 then fp_op_unknown
  else if (lowbits =? 0) && ((functField =? 0x0) || (functField =? 0x4)) then fp_op_unknown
  else if lowop >> 4 =? 3 then fp_op_unknown
  else match lowop with
  | 0x0 => fp_op_add
  | 0x1 => fp_op_sub
  | 0x2 => fp_op_mul
  | 0x3 => fp_op_div
  | 0x4 => fp_op_sqrt
  | 0x5 => fp_op_abs
  | 0x6 => fp_op_mov
  | 0x7 => fp_op_neg
  | 0x15 => fp_op_recip
  | 0x16 => fp_op_rsqrt
  | _ => fp_op_unknown
  end.

Section arith.
Context `{HostFP}.

(** The value and the counted class of one operation; [None] is UNREACHABLE(). *)
Definition fp_compute (T : fp_type) (op : fpOperation) (a b : Z) : option (Z * mipsInsn.t) :=
  let F := fmt_of T in
  match op with
  | fp_op_abs => Some (fp_abs F a, select_fp_insn T mipsInsn.DP_ABS mipsInsn.SP_ABS)
  | fp_op_neg => Some (fp_neg F a, select_fp_insn T mipsInsn.DP_NEG mipsInsn.SP_NEG)
  | fp_op_mov => Some (a, select_fp_insn T mipsInsn.DP_MOV mipsInsn.SP_MOV)
  | fp_op_add => Some (fp_add F a b, select_fp_insn T mipsInsn.DP_ADD mipsInsn.SP_ADD)
  | fp_op_sub => Some (fp_sub F a b, select_fp_insn T mipsInsn.DP_SUB mipsInsn.SP_SUB)
  | fp_op_mul => Some (fp_mul F a b, select_fp_insn T mipsInsn.DP_MUL mipsInsn.SP_MUL)
  | fp_op_div => Some (fp_div F a b, select_fp_insn T mipsInsn.DP_DIV mipsInsn.SP_DIV)
  | fp_op_sqrt => Some (fp_sqrt F a, select_fp_insn T mipsInsn.DP_SQRT mipsInsn.SP_SQRT)
  | fp_op_rsqrt => Some (fp_div F (fp_one F) (fp_sqrt F a),
                         select_fp_insn T mipsInsn.DP_RSQRT mipsInsn.SP_RSQRT)
  | fp_op_recip => Some (fp_div F (fp_one F) a,
                         select_fp_insn T mipsInsn.DP_RECIP mipsInsn.SP_RECIP)
  | _ => None
  end.
Definition execFP (T : fp_type) (op : fpOperation) (inst : Z) (s : state) : result state :=
  match fp_compute T op (read_T T (f_fs inst) s) (read_T T (f_ft inst) s) with
  | Some (v, i) => Ok (s |> write_T T (f_fd inst) v |> histo i |> add_pc 4)
  | None => Stop HostUB
  end.
Definition do_fp_op (op : fpOperation) (inst : Z) (s : state) : result state :=
  match f_fmt inst with
  | 16 => let! s := execFP T_float op inst s in Ok (set_fp_state T_float (f_fd inst) s)
  | 17 => let! s := execFP T_double op inst s in Ok (set_fp_state T_double (f_fd inst) s)
  | _ => Stop HostUB
  end.

(** ** Comparison *)
Definition fp_cond (T : fp_type) (cond a b : Z) : bool :=
  let F := fmt_of T in
  let un := fp_isnan F a || fp_isnan F b in
  let lt := fp_lt F a b in
  let eq := fp_eq F a b in
  ((cond .& 4 =/? 0) && lt) || ((cond .& 2 =/? 0) && eq) || ((cond .& 1 =/? 0) && un).
Definition fpCmp (T : fp_type) (inst : Z) (s : state) : state :=
  let cond := inst .& 15 in
  let cc := (inst >> 8) .& 7 in
  let v := Z.b2z (fp_cond T cond (read_T T (f_fs inst) s) (read_T T (f_ft inst) s)) in
  s |> setConditionCode v cc |> add_pc 4.
Definition _c (inst : Z) : state -> result state :=
  by_fmt inst (fpCmp T_float inst) (fpCmp T_double inst).

(** ** Conversions *)
Definition _truncw (inst : Z) (s : state) : result state :=
  let put v s := set_cpr1_at (f_fd inst) (low_word (cpr1 s).[f_fd inst] v) s in
  match f_fmt inst with
  | 16 => Ok (s |> put (to_int 32 (fp_round_to_int binary32 1 (read_T T_float (f_fs inst) s)))
                |> histo mipsInsn.TRUNC_SP_W |> add_pc 4)
  | 17 => Ok (s |> put (to_int 32 (fp_round_to_int binary64 1 (read_T T_double (f_fs inst) s)))
                |> histo mipsInsn.TRUNC_DP_W |> add_pc 4)
  | _ => Stop HostExit
  end.
(** Any format other than S is read as a double. *)
Definition rounded (inst rm : Z) (s : state) : option Z :=
  if f_fmt inst =? FMT_S then fp_round_to_int binary32 rm (read_T T_float (f_fs inst) s)
  else fp_round_to_int binary64 rm (read_T T_double (f_fs inst) s).
Definition _cvtw_rm (inst rm : Z) (s : state) : state :=
  let v := to_int 32 (rounded inst rm s) in
  s |> set_cpr1_at (f_fd inst) (low_word (cpr1 s).[f_fd inst] v) |> add_pc 4.
Definition _cvtl_rm (inst rm : Z) (s : state) : state :=
  let v := to_int 64 (rounded inst rm s) in
  s |> set_cpr1_at (f_fd inst) (u64 v) |> add_pc 4.
Definition _cvts (inst : Z) (s : state) : result state :=
  let fd := f_fd inst in let fs := f_fs inst in
  match f_fmt inst with
  | 17 => Ok (s |> write_T T_float fd (fp_convert binary64 binary32 (read_T T_double fs s))
                |> set_fp_state T_float fd |> add_pc 4)
  | 20 => Ok (s |> write_T T_float fd (fp_of_int binary32 (read_w fs s)) |> add_pc 4)
  | 21 => Ok (s |> write_T T_float fd (fp_of_int binary32 (read_l fs s)) |> add_pc 4)
  | _ => Stop HostExit
  end.
Definition _cvtd (inst : Z) (s : state) : result state :=
  let fd := f_fd inst in let fs := f_fs inst in
  match f_fmt inst with
  | 16 => Ok (s |> write_T T_double fd (fp_convert binary32 binary64 (read_T T_float fs s))
                |> set_fp_state T_double fd |> add_pc 4)
  | 20 => Ok (s |> write_T T_double fd (fp_of_int binary64 (read_w fs s)) |> add_pc 4)
  | 21 => Ok (s |> write_T T_double fd (fp_of_int binary64 (read_l fs s)) |> add_pc 4)
  | _ => Stop HostExit
  end.

(** ** COP1X *)
Definition c1x_madd (T : fp_type) (inst : Z) (s : state) : state :=
  let F := fmt_of T in
  let fr := read_T T (f_rs inst) s in
  let p := fp_mul F (read_T T (f_fs inst) s) (read_T T (f_ft inst) s) in
  let v := match (inst >> 3) .& 7 with
           | 4 => fp_add F p fr
           | 5 => fp_sub F p fr
           | 6 => fp_neg F (fp_add F p fr)
           | _ => fp_neg F (fp_sub F p fr)
           end in
  write_T T (f_fd inst) v s.
End arith.

Section cop1.
Context `{Config, HostFP}.
Variable EL : bool.

(** The multiply-add group, by op4 = funct[5:3] and fmt3 = funct[2:0]. *)
Definition c1x_arith (inst : Z) (s : state) : state :=
  let funct := inst .& 63 in
  let op4 := funct >> 3 in let fmt3 := funct .& 7 in
  let fr := f_rs inst in let ft := f_rt inst in
  let fs := f_fs inst in let fd := f_fd inst in
  if (op4 <? 4) || (1 <? fmt3) || (fr0 s && (((fr .| ft .| fs .| fd) .& 1) =/? 0))
  then take_exception_ri s
  else if fmt3 =? 0
  then s |> c1x_madd T_float inst |> set_fp_state T_float fd |> add_pc 4
  else s |> c1x_madd T_double inst |> set_fp_state T_double fd |> add_pc 4.
Definition execCoproc1x (inst : Z) (s : state) : result state :=
  let base := f_rs inst in let index := f_rt inst in
  let fs := f_fs inst in let fd := f_fd inst in
  let funct := inst .& 63 in
  let fr0 := fr0 s in
  let va := s64 ((gpr s).[base] + (gpr s).[index]) in
  match funct with
  | 0x00 => translated va op_load (fun ea s =>
      let! v := get 4 ea s in
      Ok (s |> write_fpr_word fd (bswap EL 4 v) |> add_pc 4)) s
  | 0x01 =>
      if fr0 && is_odd fd then Ok (take_exception_ri s) else
      translated va op_load (fun ea s =>
        let! v := get 8 ea s in
        Ok (s |> set_cpr1_at fd (bswap EL 8 v) |> add_pc 4)) s
  | 0x08 => translated va op_store (fun ea s =>
      let! s := put 4 ea (bswap EL 4 (read_fpr_word fs s)) s in
      Ok (add_pc 4 s)) s
  | 0x09 =>
      if fr0 && is_odd fs then Ok (take_exception_ri s) else
      translated va op_store (fun ea s =>
        let! s := put 8 ea (bswap EL 8 (cpr1 s).[fs]) s in
        Ok (add_pc 4 s)) s
  | 0x0f => Ok (add_pc 4 s)
  | _ => Ok (c1x_arith inst s)
  end.

(** The COP1 register moves: rs selects, with the low 11 bits clear. *)
Definition is_cop1_move (inst : Z) : bool :=
  let functField := f_rs inst in
  (inst .& ((1 << 11) - 1) =? 0) &&
  ((functField =? 0x0) || (functField =? 0x4) || (functField =? 0x2) ||
   (functField =? 0x6) || (functField =? 0x1) || (functField =? 0x5)).
Definition exec_cop1_move (inst : Z) (s : state) : state :=
  let functField := f_rs inst in
  if functField =? 0x0 then _mfc1 inst s
  else if functField =? 0x4 then _mtc1 inst s
  else if functField =? 0x1 then _dmfc1 inst s
  else if functField =? 0x5 then _dmtc1 inst s
  else if functField =? 0x2 then _cfc1 inst s
  else if functField =? 0x6 then _ctc1 inst s
  else s.

(** Arithmetic, comparison and conversion. *)
Definition exec_cop1_op (inst : Z) (s : state) : result state :=
  let lowop := inst .& 63 in
  let fcmov := ISS_MIPS4_CMOV && (0x11 <=? lowop) && (lowop <=? 0x13) in
  let rm := (fcr1 s).[CP1_CR31] .& 3 in
  if fr0 s &&
     ((((inst >> 11) .| (if fcmov then 0 else inst >> 16) .| (inst >> 6)) .& 1) =/? 0)
  then Ok (take_exception_ri s)
  else if lowop >> 4 =? 3 then _c inst s
  else
    let mips4 k := if negb ISS_MIPS4 && negb ISS_MIPS4_CMOV
                   then Ok (take_exception_fpe s) else k in
    match lowop with
    | 0x0 => do_fp_op fp_op_add inst s
    | 0x1 => do_fp_op fp_op_sub inst s
    | 0x2 => do_fp_op fp_op_mul inst s
    | 0x3 => do_fp_op fp_op_div inst s
    | 0x4 => do_fp_op fp_op_sqrt inst s
    | 0x5 => do_fp_op fp_op_abs inst s
    | 0x6 => do_fp_op fp_op_mov inst s
    | 0x7 => do_fp_op fp_op_neg inst s
    | 0x8 => Ok (_cvtl_rm inst 0 s)
    | 0xa => Ok (_cvtl_rm inst 2 s)
    | 0xb => Ok (_cvtl_rm inst 3 s)
    | 0x25 => Ok (_cvtl_rm inst rm s)
    | 0x9 => Ok (_cvtl_rm inst 1 s)
    | 0xc => Ok (_cvtw_rm inst 0 s)
    | 0xe => Ok (_cvtw_rm inst 2 s)
    | 0xf => Ok (_cvtw_rm inst 3 s)
    | 0x24 => Ok (_cvtw_rm inst rm s)
    | 0xd => _truncw inst s
    | 0x11 => mips4 (_fmovc inst s)
    | 0x12 => mips4 (_fmovz inst s)
    | 0x13 => mips4 (_fmovn inst s)
    | 0x15 => mips4 (do_fp_op fp_op_recip inst s)
    | 0x16 => mips4 (do_fp_op fp_op_rsqrt inst s)
    | 0x20 => _cvts inst s
    | 0x21 => _cvtd inst s
    | _ => Ok (take_exception_fpe s)
    end.
End cop1.

(** * Theorems *)

(** ** The type invariant *)
Lemma f_fs_range inst : 0 <= f_fs inst < 32.
Proof. apply land_31_range. Qed.
Lemma f_ft_range inst : 0 <= f_ft inst < 32.
Proof. apply land_31_range. Qed.
Lemma f_fd_range inst : 0 <= f_fd inst < 32.
Proof. apply land_31_range. Qed.
Lemma fcr_index_range cr : 0 <= fcr_index cr < 5.
Proof. unfold fcr_index. repeat case_match; done. Qed.
#[export] Hint Resolve f_fs_range f_ft_range f_fd_range fcr_index_range : ranges wf.
Lemma low_word_range old w : in_u 64 old -> in_u 64 (low_word old w).
Proof. intros. unfold low_word. rng. Qed.
(** The storage width of the template type. *)
Definition T_width (T : fp_type) : Z := match T with T_float => 32 | T_double => 64 end.
Lemma fwidth_fmt T : fwidth (fmt_of T) = T_width T.
Proof. by destruct T. Qed.

Section wf.
Context `{Config, HostFP}.
Variable EL : bool.
Implicit Types (s : state) (inst : Z) (T : fp_type).

Lemma read_fpr_word_range r s : in_u 32 (read_fpr_word r s).
Proof. unfold read_fpr_word. case_match; rng. Qed.
Lemma read_T_range T r s : wf s -> in_u (T_width T) (read_T T r s).
Proof. destruct T; cbn; intros; rng. Qed.
Lemma fp_result_range T ops x : in_u (T_width T) (fp_result (fmt_of T) ops x).
Proof. unfold fp_result. rewrite fwidth_fmt. by destruct T; apply wrapu_range. Qed.
Lemma fp_abs_range T a : in_u (T_width T) (fp_abs (fmt_of T) a).
Proof. destruct T; apply in_u_land_r; done. Qed.
Lemma fp_neg_range T a : in_u (T_width T) a -> in_u (T_width T) (fp_neg (fmt_of T) a).
Proof. destruct T; intros; apply in_u_lxor; done. Qed.
Lemma fp_convert_range F T a : in_u (T_width T) (fp_convert F (fmt_of T) a).
Proof. apply fp_result_range. Qed.
Lemma fp_of_int_range T v : in_u (T_width T) (fp_of_int (fmt_of T) v).
Proof. apply fp_result_range. Qed.
(** The same bounds at the concrete formats of CVT.S and CVT.D. *)
Lemma fp_convert_S_range F a : in_u (T_width T_float) (fp_convert F binary32 a).
Proof. apply (fp_convert_range F T_float). Qed.
Lemma fp_convert_D_range F a : in_u (T_width T_double) (fp_convert F binary64 a).
Proof. apply (fp_convert_range F T_double). Qed.
Lemma fp_of_int_S_range v : in_u (T_width T_float) (fp_of_int binary32 v).
Proof. apply (fp_of_int_range T_float). Qed.
Lemma fp_of_int_D_range v : in_u (T_width T_double) (fp_of_int binary64 v).
Proof. apply (fp_of_int_range T_double). Qed.
Lemma fp_compute_range T op a b v i :
  in_u (T_width T) a -> fp_compute T op a b = Some (v, i) -> in_u (T_width T) v.
Proof.
  intros Ha. unfold fp_compute, fp_add, fp_sub, fp_mul, fp_div, fp_sqrt.
  destruct op; intros [= <- <-];
    (apply fp_abs_range || by apply fp_neg_range) || (apply fp_result_range || done).
Qed.
Lemma to_int_range w r : 0 < w -> in_s w (to_int w r).
Proof.
  intros Hw. unfold to_int. pose proof (invalid_to_int_range w Hw).
  destruct r as [v|]; [|done]. destruct (_ && _) eqn:Hv; [unfold in_s; lia|done].
Qed.

Lemma wf_write_T T r v s :
  0 <= r < 32 -> in_u (T_width T) v -> wf s -> wf (write_T T r v s).
Proof.
  intros. destruct T; cbn [write_T]; apply wf_set_cpr1_at; try done.
  apply low_word_range. rng.
Qed.
Lemma wf_set_fp_state T r s : 0 <= r < 32 -> wf s -> wf (set_fp_state T r s).
Proof. wf_of set_fp_state. Qed.
#[local] Hint Resolve low_word_range read_fpr_word_range read_T_range fp_result_range
  fp_convert_range fp_of_int_range fp_neg_range : ranges.
#[local] Hint Resolve wf_write_T wf_set_fp_state fp_result_range fp_convert_S_range fp_convert_D_range
  fp_of_int_S_range fp_of_int_D_range : wf.

Lemma wf_mtc1 inst s : wf s -> wf (_mtc1 inst s).
Proof. wf_of _mtc1. Qed.
Lemma wf_mfc1 inst s : wf s -> wf (_mfc1 inst s).
Proof. wf_of _mfc1. Qed.
Lemma wf_dmtc1 inst s : wf s -> wf (_dmtc1 inst s).
Proof. wf_of _dmtc1. Qed.
Lemma wf_dmfc1 inst s : wf s -> wf (_dmfc1 inst s).
Proof. wf_of _dmfc1. Qed.
Lemma wf_cfc1 inst s : wf s -> wf (_cfc1 inst s).
Proof. wf_of _cfc1. Qed.
Lemma wf_ctc1 inst s : wf s -> wf (_ctc1 inst s).
Proof. wf_of _ctc1. Qed.
Lemma wf_movnd inst s : wf s -> wf (_movnd inst s).
Proof. wf_of _movnd. Qed.
Lemma wf_movns inst s : wf s -> wf (_movns inst s).
Proof. apply wf_movnd. Qed.
Lemma wf_movzd inst s : wf s -> wf (_movzd inst s).
Proof. wf_of _movzd. Qed.
Lemma wf_movzs inst s : wf s -> wf (_movzs inst s).
Proof. apply wf_movzd. Qed.
Lemma wf_movcd inst s : wf s -> wf (_movcd inst s).
Proof. wf_of _movcd. Qed.
Lemma wf_movcs inst s : wf s -> wf (_movcs inst s).
Proof. wf_of _movcs. Qed.
Lemma wf_by_fmt inst f g s :
  (forall s, wf s -> wf (f s)) -> (forall s, wf s -> wf (g s)) -> wf s -> post wf (by_fmt inst f g s).
Proof. intros. unfold by_fmt. repeat case_match; cbn; auto. Qed.
Lemma wf_fmovn inst s : wf s -> post wf (_fmovn inst s).
Proof. intros. unfold _fmovn. apply wf_by_fmt; [apply wf_movns|apply wf_movnd|done]. Qed.
Lemma wf_fmovz inst s : wf s -> post wf (_fmovz inst s).
Proof. intros. unfold _fmovz. apply wf_by_fmt; [apply wf_movzs|apply wf_movzd|done]. Qed.
Lemma wf_fmovc inst s : wf s -> post wf (_fmovc inst s).
Proof. intros. unfold _fmovc. apply wf_by_fmt; [apply wf_movcs|apply wf_movcd|done]. Qed.

Lemma wf_execFP T op inst s : wf s -> post wf (execFP T op inst s).
Proof.
  intros Hw. unfold execFP. destruct (fp_compute _ _ _ _) as [[v i]|] eqn:Hc; [|done].
  apply fp_compute_range in Hc; [|by apply read_T_range]. wf_auto.
Qed.
#[local] Hint Resolve wf_execFP : wf.
Lemma wf_do_fp_op op inst s : wf s -> post wf (do_fp_op op inst s).
Proof. wf_of do_fp_op. Qed.
Lemma wf_fpCmp T inst s : wf s -> wf (fpCmp T inst s).
Proof. intros. unfold fpCmp. apply wf_add_pc, wf_setConditionCode; [apply land_7_range|done]. Qed.
Lemma wf_c inst s : wf s -> post wf (_c inst s).
Proof. intros. unfold _c. apply wf_by_fmt; (apply wf_fpCmp || done). Qed.
Lemma wf_truncw inst s : wf s -> post wf (_truncw inst s).
Proof. wf_of _truncw. Qed.
Lemma wf_cvtw_rm inst rm s : wf s -> wf (_cvtw_rm inst rm s).
Proof. wf_of _cvtw_rm. Qed.
Lemma wf_cvtl_rm inst rm s : wf s -> wf (_cvtl_rm inst rm s).
Proof. wf_of _cvtl_rm. Qed.
Lemma wf_cvts inst s : wf s -> post wf (_cvts inst s).
Proof. wf_of _cvts. Qed.
Lemma wf_cvtd inst s : wf s -> post wf (_cvtd inst s).
Proof. wf_of _cvtd. Qed.
Lemma wf_c1x_madd T inst s : wf s -> wf (c1x_madd T inst s).
Proof.
  intros. apply wf_write_T; [apply f_fd_range| |done].
  pose proof (read_T_range T (f_rs inst) s).
  repeat case_match; unfold fp_add, fp_sub, fp_mul;
    try apply fp_neg_range; apply fp_result_range.
Qed.
#[local] Hint Resolve wf_c1x_madd : wf.

Lemma wf_c1x_arith inst s : wf s -> wf (c1x_arith inst s).
Proof. wf_of c1x_arith. Qed.
#[local] Hint Resolve wf_c1x_arith : wf.
Lemma wf_execCoproc1x inst s : wf s -> post wf (execCoproc1x EL inst s).
Proof.
  intros Hw. unfold execCoproc1x. cbv zeta.
  repeat match goal with
  | |- post wf (match ?c with _ => _ end) => destruct c
  | |- post wf (translated _ _ _ _) => apply wf_translated; [done|done|]
  end; wf_auto.
Qed.
Lemma wf_exec_cop1_move inst s : wf s -> wf (exec_cop1_move inst s).
Proof.
  intros. unfold exec_cop1_move.
  repeat case_match; auto using wf_mfc1, wf_mtc1, wf_dmfc1, wf_dmtc1, wf_cfc1, wf_ctc1.
Qed.
#[local] Hint Resolve wf_do_fp_op wf_c wf_cvtl_rm wf_cvtw_rm wf_truncw wf_cvts wf_cvtd
  wf_fmovc wf_fmovz wf_fmovn : wf.
Lemma wf_exec_cop1_op inst s : wf s -> post wf (exec_cop1_op inst s).
Proof. intros. unfold exec_cop1_op. cbv zeta. wf_auto. Qed.
End wf.
#[export] Hint Resolve wf_execCoproc1x wf_exec_cop1_move wf_exec_cop1_op : wf.
