(* ===== verification/Cp0.v ===== *)
(** Coprocessor 0 of [src/interpret.cc] [execMips]: the CO=1 operations (TLB,
    ERET, WAIT), DI/EI, and the CP0 register moves. *)
From S2P Require Import Prelude Bits Insns State Mem Wf Exc Tlb LoadStore Alu.

(** [1U] complemented in [uint32_t] *)
Definition not1 : Z := u32 (.~ 1).

Definition eret (s : state) : state :=
  let s := set_ll_link_valid false s in
  let s :=
    if sr_bit s SR_ERL then
      let s := set_pc (s32 (s32 (cpr0 s).[CPR0_ERROREPC] - 4)) s in
      set_cpr0_at CPR0_SR ((cpr0 s).[CPR0_SR] .& .~ SR_ERL) s
    else
      let s := set_pc (s64 (u64 ((cpr0_64 s).[CPR0_EPC] - 4))) s in
      set_cpr0_at CPR0_SR ((cpr0 s).[CPR0_SR] .& .~ SR_EXL) s in
  histo mipsInsn.ERET s.

Definition wait (s : state) : result state :=
  if (cpr0 s).[CPR0_SR] .& 1 =? 0 then Stop HostExit
  else Ok (histo mipsInsn.WAIT s).

Definition _di (inst : Z) (s : state) : state :=
  let s := if f_rt inst =/? 0 then set_gpr_at (f_rt inst) (cpr0 s).[CPR0_SR] s else s in
  s |> set_cpr0_at CPR0_SR ((cpr0 s).[CPR0_SR] .& not1) |> histo mipsInsn.DI.
Definition _ei (inst : Z) (s : state) : state :=
  let s := if f_rt inst =/? 0 then set_gpr_at (f_rt inst) (cpr0 s).[CPR0_SR] s else s in
  s |> set_cpr0_at CPR0_SR ((cpr0 s).[CPR0_SR] .| 1) |> histo mipsInsn.EI.

(** Register 7 is the simulator's putchar port, register 15 (PRId) and Config
    are read-only. *)
Definition cp0_writable (r : Z) : bool := (r =/? 15) && (r =/? CPR0_CONFIG).
Definition putchar_port (inst : Z) (s : state) : state :=
  if (f_rd inst =? 7) && negb (silent s) then emit (EvPutChar (r_rt inst s .& 0xff)) s else s.

Definition _mfc0 (inst : Z) (s : state) : state :=
  let rd_ := f_rd inst in
  let s :=
    if rd_ =? 7 then set_gpr_at (f_rt inst) 0 s
    else
      let v := (cpr0 s).[rd_] in
      let v := if rd_ =? CPR0_SR then v .| 0x40000000 else v in
      set_gpr_at (f_rt inst) (sext32 v) s in
  histo mipsInsn.MFC0 s.
Definition _dmfc0 (inst : Z) (s : state) : state :=
  s |> set_gpr_at (f_rt inst) (s64 (cpr0_64 s).[f_rd inst]) |> histo mipsInsn.DMFC0.
Definition _mtc0 (inst : Z) (s : state) : state :=
  let rd_ := f_rd inst in
  let s :=
    if cp0_writable rd_ then
      let v := if (rd_ =? CPR0_ENTRYHI) || (rd_ =? CPR0_EPC) || (rd_ =? CPR0_ERROREPC)
               then u64 (r_rt inst s) else u64 (s32 (r_rt inst s)) in
      s |> set_cpr0_64_at rd_ v |> set_cpr0_at rd_ (u32 v)
    else s in
  s |> putchar_port inst |> histo mipsInsn.MTC0.
Definition _dmtc0 (inst : Z) (s : state) : state :=
  let rd_ := f_rd inst in
  let s :=
    if cp0_writable rd_ then
      s |> set_cpr0_64_at rd_ (u64 (r_rt inst s)) |> set_cpr0_at rd_ (u32 (r_rt inst s))
    else s in
  s |> putchar_port inst |> histo mipsInsn.DMTC0.

Section cop0.
Context `{Config}.

Definition exec_cop0_co (inst : Z) (s : state) : result state :=
  match inst .& 63 with
  | 0x1 => Ok (tlbr s)
  | 0x2 => Ok (tlbwi s)
  | 0x6 => Ok (tlbwr s)
  | 0x8 => Ok (tlbp s)
  | 24 => Ok (eret s)
  | 32 => wait s
  | _ => Stop HostExit
  end.
Definition exec_cop0_move (inst : Z) (s : state) : result state :=
  match f_rs inst with
  | 0x0 => Ok (_mfc0 inst s)
  | 0x1 => Ok (_dmfc0 inst s)
  | 0x4 => Ok (_mtc0 inst s)
  | 0x5 => Ok (_dmtc0 inst s)
  | _ => Stop HostExit
  end.
Definition execCoproc0 (inst : Z) (s : state) : result state :=
  let! s :=
    if (inst >> 25) .& 1 =/? 0 then exec_cop0_co inst s
    else if (f_rs inst =? 11) && (inst .& 65535 =? 0x6000) then Ok (_di inst s)
    else if (f_rs inst =? 11) && (inst .& 65535 =? 0x6020) then Ok (_ei inst s)
    else exec_cop0_move inst s in
  Ok (add_pc 4 s).
End cop0.

(** * Theorems *)

(** ** The type invariant *)
Section wf.
Context `{Config}.
Implicit Types (s : state) (inst : Z).

Lemma wf_eret s : wf s -> wf (eret s).
Proof. wf_of eret. Qed.
Lemma wf_wait s : wf s -> post wf (wait s).
Proof. wf_of wait. Qed.
Lemma wf_di inst s : wf s -> wf (_di inst s).
Proof. wf_of _di. Qed.
Lemma wf_ei inst s : wf s -> wf (_ei inst s).
Proof. wf_of _ei. Qed.
Lemma wf_putchar_port inst s : wf s -> wf (putchar_port inst s).
Proof. wf_of putchar_port. Qed.
#[local] Hint Resolve wf_putchar_port wf_di wf_ei wf_eret wf_wait : wf.
Lemma wf_mfc0 inst s : wf s -> wf (_mfc0 inst s).
Proof. wf_of _mfc0. Qed.
Lemma wf_dmfc0 inst s : wf s -> wf (_dmfc0 inst s).
Proof. wf_of _dmfc0. Qed.
Lemma wf_mtc0 inst s : wf s -> wf (_mtc0 inst s).
Proof. wf_of _mtc0. Qed.
Lemma wf_dmtc0 inst s : wf s -> wf (_dmtc0 inst s).
Proof. wf_of _dmtc0. Qed.
#[local] Hint Resolve wf_mfc0 wf_dmfc0 wf_mtc0 wf_dmtc0 : wf.
Lemma wf_exec_cop0_co inst s : wf s -> post wf (exec_cop0_co inst s).
Proof. wf_of exec_cop0_co. Qed.
Lemma wf_exec_cop0_move inst s : wf s -> post wf (exec_cop0_move inst s).
Proof. wf_of exec_cop0_move. Qed.
#[local] Hint Resolve wf_exec_cop0_co wf_exec_cop0_move : wf.
Lemma wf_execCoproc0 inst s : wf s -> post wf (execCoproc0 inst s).
Proof. wf_of execCoproc0. Qed.
End wf.
#[export] Hint Resolve wf_execCoproc0 : wf.
