(* ===== verification/Branch.v ===== *)
(** Branches, jumps and delay slots of [src/interpret.cc].  [execMips] runs the
    delay slot by calling itself, so these definitions take the recursive call
    [step] as an argument; [Exec] ties the knot. *)
From S2P Require Import Prelude Bits Insns State Mem Wf Exc Tlb LoadStore Alu.

Inductive branch_type :=
  | beq | bne | blez | bgtz | beql | bnel | blezl | bgtzl
  | bgez | bgezl | bltz | bltzl | bgezal | bltzal | bgezall | bltzall
  | bc1f | bc1t | bc1fl | bc1tl.
#[export] Instance branch_type_eq_dec : EqDecision branch_type.
Proof. solve_decision. Defined.

(** The switch of [branch]: direction, likely, link, and the counted class. *)
Definition takeBranch (bt : branch_type) (inst : Z) (s : state) : bool :=
  let rt := r_rt inst s in let rs := r_rs inst s in
  let cc := (inst >> 18) .& 7 in
  match bt with
  | beq | beql => rt =? rs
  | bne | bnel => rt =/? rs
  | blez | blezl => rs <=? 0
  | bgtz | bgtzl => 0 <? rs
  | bgez | bgezl | bgezal | bgezall => 0 <=? rs
  | bltz | bltzl | bltzal | bltzall => rs <? 0
  | bc1t | bc1tl => getConditionCode s cc =? 1
  | bc1f | bc1fl => getConditionCode s cc =? 0
  end.
Definition isLikely (bt : branch_type) : bool :=
  match bt with
  | beql | bnel | blezl | bgtzl | bgezl | bltzl | bgezall | bltzall | bc1fl | bc1tl => true
  | _ => false
  end.
Definition saveReturn (bt : branch_type) : bool :=
  match bt with bgezal | bltzal | bgezall | bltzall => true | _ => false end.
Definition branch_insn (bt : branch_type) : mipsInsn.t :=
  match bt with
  | beq => mipsInsn.BEQ | bne => mipsInsn.BNE | blez => mipsInsn.BLEZ | bgtz => mipsInsn.BGTZ
  | beql => mipsInsn.BEQL | bnel => mipsInsn.BNEL | blezl => mipsInsn.BLEZL
  | bgtzl => mipsInsn.BGTZL | bgez => mipsInsn.BGEZ | bgezl => mipsInsn.BGEZL
  | bltz => mipsInsn.BLTZ | bltzl => mipsInsn.BLTZL | bgezal => mipsInsn.BGEZAL
  | bltzal => mipsInsn.BLTZAL | bgezall => mipsInsn.BGEZALL | bltzall => mipsInsn.BLTZALL
  | bc1f => mipsInsn.BC1F | bc1t => mipsInsn.BC1T | bc1fl => mipsInsn.BC1FL
  | bc1tl => mipsInsn.BC1TL
  end.
Definition branch_imm (inst : Z) : Z := s32 (f_simm inst << 2).

Section branch.
Variable step : state -> result state.

(** Runs the delay slot; true iff it raised an exception (EXL went 0 to 1). *)
Definition run_delay_slot (s : state) : result (bool * state) :=
  let exl_before := sr_bit s SR_EXL in
  let saved := in_delay_slot s in
  let! s := step (set_in_delay_slot true s) in
  let s := set_in_delay_slot saved s in
  Ok (negb exl_before && sr_bit s SR_EXL, s).

Definition branch (bt : branch_type) (inst : Z) (s : state) : result state :=
  let imm := branch_imm inst in
  let npc := s64 (pc s + 4) in
  let take := takeBranch bt inst s in
  let link s := if saveReturn bt then set_gpr_at 31 (s64 (npc + 4)) s else s in
  let s := s |> histo (branch_insn bt) |> add_pc 4 in
  if isLikely bt then
    let s := link s in
    if take then
      let! (ds_faulted, s) := run_delay_slot s in
      Ok (if negb ds_faulted then set_pc (s64 (imm + npc)) s else s)
    else Ok (add_pc 4 s)
  else
    let! (ds_faulted, s) := run_delay_slot s in
    let s := link s in
    Ok (if take && negb ds_faulted then set_pc (s64 (imm + npc)) s else s).

(** REGIMM: the branches against zero and the trap immediates, which are
    counted whether or not they trap. *)
Definition trap_imm_if (c : bool) (i : mipsInsn.t) (s : state) : state :=
  let s := histo i s in if c then raise_trap s else add_pc 4 s.
Definition trap_imm (inst : Z) (s : state) : state :=
  let a := r_rs inst s in
  let simm := f_simm inst in
  match f_rt inst with
  | 8 => trap_imm_if (simm <=? a) mipsInsn.TGEI s
  | 9 => trap_imm_if (u64 simm <=? u64 a) mipsInsn.TGEIU s
  | 10 => trap_imm_if (a <? simm) mipsInsn.TLTI s
  | 11 => trap_imm_if (u64 a <? u64 simm) mipsInsn.TLTIU s
  | 12 => trap_imm_if (a =? simm) mipsInsn.TEQI s
  | 14 => trap_imm_if (a =/? simm) mipsInsn.TNEI s
  | _ => s
  end.
Definition _bgez_bltz (inst : Z) (s : state) : result state :=
  match f_rt inst with
  | 0 => branch bltz inst s
  | 1 => branch bgez inst s
  | 2 => branch bltzl inst s
  | 3 => branch bgezl inst s
  | 17 => branch bgezal inst s
  | 16 => branch bltzal inst s
  | 18 => branch bltzall inst s
  | 19 => branch bgezall inst s
  | 8 | 9 | 10 | 11 | 12 | 14 => Ok (trap_imm inst s)
  | _ => Stop HostExit
  end.

(** BC1: bits 17:16 select the condition and the likely form. *)
Definition exec_bc1 (inst : Z) (s : state) : result state :=
  match (inst >> 16) .& 3 with
  | 0x0 => branch bc1f inst s
  | 0x1 => branch bc1t inst s
  | 0x2 => branch bc1fl inst s
  | _ => branch bc1tl inst s
  end.

Definition jump_to (jaddr : Z) (s : state) : result state :=
  let! (ds_faulted, s) := run_delay_slot s in
  Ok (if negb ds_faulted then set_pc jaddr s else s).
Definition _jr (inst : Z) (s : state) : result state :=
  let jaddr := r_rs inst s in
  let! s := jump_to jaddr (add_pc 4 s) in
  Ok (histo mipsInsn.JR s).
Definition _jalr (inst : Z) (s : state) : result state :=
  let jaddr := r_rs inst s in
  let s := if f_rd inst =/? 0 then set_gpr_at (f_rd inst) (s64 (pc s + 8)) s else s in
  let! s := jump_to jaddr (add_pc 4 s) in
  Ok (histo mipsInsn.JALR s).
(** J and JAL; the target keeps the high bits of the delay slot's pc. *)
Definition exec_jtype (inst : Z) (s : state) : result state :=
  let jaddr := (inst .& ((1 << 26) - 1)) << 2 in
  let s := if inst >> 26 =? 0x2
           then s |> add_pc 4 |> histo mipsInsn.J
           else s |> set_gpr_at 31 (s64 (pc s + 8)) |> add_pc 4 |> histo mipsInsn.JAL in
  jump_to (jaddr .| (pc s .& .~ ((1 << 28) - 1))) s.
End branch.

(** * Theorems *)

(** ** The type invariant, given that it holds across the delay slot *)
Section wf.
Context `{Config}.
Variable step : state -> result state.
Hypothesis wf_step : forall s, wf s -> post wf (step s).
Implicit Types (s : state) (inst : Z).

Lemma wf_run_delay_slot s : wf s -> post (fun p => wf p.2) (run_delay_slot step s).
Proof.
  intros. unfold run_delay_slot. eapply post_bind; [by apply wf_step, wf_set_in_delay_slot|].
  intros s' Hs'. cbn. by apply wf_set_in_delay_slot.
Qed.
(** Whatever the branch does with the outcome of its delay slot. *)
Lemma wf_delayed s (k : bool -> state -> state) :
  wf s -> (forall b s, wf s -> wf (k b s)) ->
  post wf (let! (ds_faulted, s) := run_delay_slot step s in Ok (k ds_faulted s)).
Proof.
  intros Hs Hk. eapply post_bind; [by apply wf_run_delay_slot|]. intros [b s'] Hs'. cbn. by apply Hk.
Qed.
Lemma wf_branch bt inst s : wf s -> post wf (branch step bt inst s).
Proof.
  intros Hs. cbv delta [branch]; cbv beta zeta. destruct (isLikely bt).
  - destruct (takeBranch bt inst s); [apply wf_delayed|]; wf_auto.
  - apply wf_delayed; wf_auto.
Qed.
Lemma wf_trap_imm_if c i s : wf s -> wf (trap_imm_if c i s).
Proof. wf_of trap_imm_if. Qed.
Lemma wf_trap_imm inst s : wf s -> wf (trap_imm inst s).
Proof. intros. unfold trap_imm. repeat case_match; auto using wf_trap_imm_if. Qed.
#[local] Hint Resolve wf_branch wf_trap_imm : wf.
Lemma wf_bgez_bltz inst s : wf s -> post wf (_bgez_bltz step inst s).
Proof. wf_of _bgez_bltz. Qed.
Lemma wf_exec_bc1 inst s : wf s -> post wf (exec_bc1 step inst s).
Proof. wf_of exec_bc1. Qed.
Lemma wf_jump_to a s : in_s 64 a -> wf s -> post wf (jump_to step a s).
Proof. intros. unfold jump_to. apply wf_delayed; wf_auto. Qed.
Lemma wf_jr inst s : wf s -> post wf (_jr step inst s).
Proof.
  intros. unfold _jr. eapply post_bind; [apply wf_jump_to; [rng|wf_auto]|]. wf_auto.
Qed.
Lemma wf_jalr inst s : wf s -> post wf (_jalr step inst s).
Proof.
  intros. unfold _jalr. eapply post_bind; [apply wf_jump_to; [rng|wf_auto]|]. wf_auto.
Qed.
Lemma wf_exec_jtype inst s : wf s -> post wf (exec_jtype step inst s).
Proof.
  intros. cbv delta [exec_jtype]; cbv beta.
  assert (in_s 64 ((inst .& ((1 << 26) - 1)) << 2)) by (apply (in_s_of_u 64 28); [done|rng]).
  wf_auto. apply wf_jump_to; [rng|done].
Qed.
End wf.
#[export] Hint Resolve wf_branch wf_bgez_bltz wf_exec_bc1 wf_jr wf_jalr wf_exec_jtype : wf.
