(* ===== verification/Exec.v ===== *)
(** [execMips] of [src/interpret.cc]: fetch, the mode and coprocessor gates, the
    LL/SC link bookkeeping, the store log, and the dispatch.  The recursion into
    a delay slot is bounded by a fuel argument. *)
From S2P Require Import Prelude Bits Insns State Mem Wf Exc Tlb LoadStore Alu Fp Fpu Cp0 Branch.

Section exec.
Context `{Config, HostFP}.
Variable EL : bool.

(** ** Gates before the dispatch *)
Definition is_cp1_gated (opcode : Z) : bool :=
  (opcode =? 0x11) || (opcode =? 0x31) || (opcode =? 0x35) || (opcode =? 0x39)
  || (opcode =? 0x3d) || (ISS_MIPS4 && (opcode =? 0x13)).

(** ** The LL/SC link and an intervening access *)
Definition is_mem_store (inst : Z) : bool :=
  let opcode := inst >> 26 in
  ((0x28 <=? opcode) && (opcode <=? 0x2e)) || (opcode =? 0x3f) || (opcode =? 0x39)
  || (opcode =? 0x3d)
  || (ISS_MIPS4 && (opcode =? 0x13) && ((inst .& 63 =? 0x08) || (inst .& 63 =? 0x09))).
Definition is_mem_load (inst : Z) : bool :=
  let opcode := inst >> 26 in
  ((0x20 <=? opcode) && (opcode <=? 0x27)) || (opcode =? 0x1a) || (opcode =? 0x1b)
  || (opcode =? 0x37) || (opcode =? 0x31) || (opcode =? 0x35).
(** The probe's physical address, the 1:1 mapping when it does not translate. *)
Definition probe_or_va2pa (inst : Z) (s : state) : Z :=
  let va := base_imm inst s in
  match tlb_probe_ro s va false with
  | Some pa => pa
  | None => va2pa (u32 va)
  end.
Definition break_link (inst : Z) (s : state) : state :=
  if LLSC_BREAK_ON_LOAD then
    if is_mem_load inst || is_mem_store inst then set_ll_link_valid false s else s
  else if is_mem_store inst && ll_link_valid s then
    if cache_line (probe_or_va2pa inst s) =? ll_link_addr s
    then set_ll_link_valid false s else s
  else s.

(** ** The co-simulation store log (-DSTORE_CHECK) *)
Definition store_size (opcode : Z) : Z :=
  match opcode with
  | 0x28 => 1 | 0x29 => 2 | 0x2b => 4 | 0x3f => 8 | 0x39 => 4 | 0x3d => 8 | _ => 0
  end.
Definition uncached_store (sva spa : Z) : bool :=
  let xkphys_uc := (sva >> 62 =? 2) && (((sva >> 59) .& 7 =? 2) || ((sva >> 59) .& 7 =? 7)) in
  (u32 sva .& 0xe0000000 =? 0xa0000000) || xkphys_uc
  || ((0x1f000000 <=? spa) && (spa <=? 0x1fffffff)).
Definition log_store (inst : Z) (s : state) : state :=
  if negb STORE_CHECK then s else
  let opcode := inst >> 26 in
  let store_sz := store_size opcode in
  let is_fp_store := (opcode =? 0x39) || (opcode =? 0x3d) in
  if store_sz =? 0 then s else
  let sva := u64 (base_imm inst s) in
  match tlb_probe_ro s sva true with
  | None => s
  | Some spa =>
      if uncached_store sva spa then s else
      let srt := f_rt inst in
      let sdata := if is_fp_store then (cpr1 s).[srt] else u64 (gpr s).[srt] in
      let sdata := if store_sz <? 8 then sdata .& ((1 << (store_sz * 8)) - 1) else sdata in
      set_g_iss_stores (g_iss_stores s ++ [mk_store_rec (u64 (pc s)) spa sdata]) s
  end.

(** ** Load-linked and store-conditional *)
Definition exec_ll (inst : Z) (s : state) : result state :=
  let ll_ea := probe_or_va2pa inst s in
  let s := s |> set_ll_link_valid true |> set_ll_link_addr (cache_line ll_ea) in
  if inst >> 26 =? 0x34 then _lld EL inst s else _lw EL inst s.
Definition exec_sc (inst : Z) (s : state) : result state :=
  if inst >> 26 =? 0x3c then _scd EL inst s else _sc EL inst s.

Section dispatch.
Variable step : state -> result state.

(** ** SPECIAL *)
Definition exec_rtype (inst : Z) (s : state) : result state :=
  match inst .& 63 with
  | 0x00 => Ok (_sll inst s)
  | 0x01 => Ok (mips4_gate inst (_movci inst) s)
  | 0x02 => Ok (_srl inst s)
  | 0x03 => Ok (_sra inst s)
  | 0x04 => Ok (_sllv inst s)
  | 0x06 => Ok (_srlv inst s)
  | 0x07 => Ok (_srav inst s)
  | 0x08 => _jr step inst s
  | 0x09 => _jalr step inst s
  | 0x0C | 0x0D => Ok (_syscall_break inst s)
  | 0x0f => Ok (next mipsInsn.SYNC s)
  | 0x10 => Ok (_mfhi inst s)
  | 0x11 => Ok (_mthi inst s)
  | 0x12 => Ok (_mflo inst s)
  | 0x13 => Ok (_mtlo inst s)
  | 0x18 => Ok (_mult inst s)
  | 0x19 => Ok (_multu inst s)
  | 0x1A => Ok (_div inst s)
  | 0x1B => _divu inst s
  | 0x1C => Ok (_dmult inst s)
  | 0x1D => Ok (_dmultu inst s)
  | 0x1E => Ok (_ddiv inst s)
  | 0x1F => Ok (_ddivu inst s)
  | 0x20 => Ok (_add inst s)
  | 0x21 => Ok (_addu inst s)
  | 0x22 => Ok (_sub inst s)
  | 0x23 => Ok (_subu inst s)
  | 0x24 => Ok (_and inst s)
  | 0x25 => Ok (_or inst s)
  | 0x26 => Ok (_xor inst s)
  | 0x27 => Ok (_nor inst s)
  | 0x2A => Ok (_slt inst s)
  | 0x2B => Ok (_sltu inst s)
  | 0x0B => Ok (mips4_gate inst (_movn inst) s)
  | 0x0A => Ok (mips4_gate inst (_movz inst) s)
  | 0x30 => Ok (_tge inst s)
  | 0x31 => Ok (_tgeu inst s)
  | 0x32 => Ok (_tlt inst s)
  | 0x33 => Ok (_tltu inst s)
  | 0x34 => Ok (_teq inst s)
  | 0x36 => Ok (_tne inst s)
  | 0x2C => Ok (_dadd inst s)
  | 0x2D => Ok (_daddu inst s)
  | 0x2E => Ok (_dsub inst s)
  | 0x2F => Ok (_dsubu inst s)
  | 0x14 => Ok (_dsllv inst s)
  | 0x16 => Ok (_dsrlv inst s)
  | 0x17 => Ok (_dsrav inst s)
  | 0x38 => Ok (_dsll inst s)
  | 0x3A => Ok (_dsrl inst s)
  | 0x3B => Ok (_dsra inst s)
  | 0x3C => Ok (_dsll32 inst s)
  | 0x3E => Ok (_dsrl32 inst s)
  | 0x3F => Ok (_dsra32 inst s)
  | _ => Ok (raise_ri inst s)
  end.

(** ** COP1 *)
Definition execCoproc1 (inst : Z) (s : state) : result state :=
  if f_fmt inst =? 0x8 then exec_bc1 step inst s
  else if is_cop1_move inst then Ok (exec_cop1_move inst s)
  else exec_cop1_op inst s.

(** ** Immediates, branches, loads and stores *)
Definition exec_itype (inst : Z) (s : state) : result state :=
  match inst >> 26 with
  | 0x01 => _bgez_bltz step inst s
  | 0x04 => branch step beq inst s
  | 0x05 => branch step bne inst s
  | 0x06 => branch step blez inst s
  | 0x07 => branch step bgtz inst s
  | 0x08 => Ok (_addi inst s)
  | 0x09 => Ok (_addiu inst s)
  | 0x0A => Ok (_slti inst s)
  | 0x0B => Ok (_sltiu inst s)
  | 0x0c => Ok (_andi inst s)
  | 0x0d => Ok (_ori inst s)
  | 0x0e => Ok (_xori inst s)
  | 0x0F => Ok (_lui inst s)
  | 0x14 => branch step beql inst s
  | 0x16 => branch step blezl inst s
  | 0x15 => branch step bnel inst s
  | 0x17 => branch step bgtzl inst s
  | 0x18 => Ok (_daddi inst s)
  | 0x19 => Ok (_daddiu inst s)
  | 0x1a => _ldl EL inst s
  | 0x1b => _ldr EL inst s
  | 0x20 => _lb inst s
  | 0x21 => _lh EL inst s
  | 0x22 => _lwl EL inst s
  | 0x23 => _lw EL inst s
  | 0x24 => _lbu inst s
  | 0x27 => _lwu EL inst s
  | 0x25 => _lhu EL inst s
  | 0x26 => _lwr EL inst s
  | 0x28 => _sb inst s
  | 0x29 => _sh EL inst s
  | 0x2a => _swl EL inst s
  | 0x2B => _sw EL inst s
  | 0x2c => _sdl EL inst s
  | 0x2d => _sdr EL inst s
  | 0x2e => _swr EL inst s
  | 0x2f => _cache inst s
  | 0x31 => _lwc1 EL inst s
  | 0x33 => Ok (add_pc 4 s)
  | 0x35 => _ldc1 EL inst s
  | 0x39 => _swc1 EL inst s
  | 0x37 => _ld EL inst s
  | 0x3D => _sdc1 EL inst s
  | 0x3F => _sd EL inst s
  | _ => Ok (raise_ri inst s)
  end.

Definition dispatch (inst : Z) (s : state) : result state :=
  let opcode := inst >> 26 in
  if opcode =? 0 then exec_rtype inst s
  else if (opcode =? 0x1c) || (opcode =? 0x1f) then Ok (raise_ri inst s)
  else if opcode >> 1 =? 1 then exec_jtype step inst s
  else if opcode =? 0x10 then execCoproc0 inst s
  else if opcode =? 0x11 then execCoproc1 inst s
  else if opcode =? 0x13 then
    (if negb ISS_MIPS4 && negb ISS_MIPS4_CMOV then Ok (raise_ri inst s)
     else execCoproc1x EL inst s)
  else if opcode =? 0x12 then Stop HostExit
  else if (opcode =? 0x30) || (opcode =? 0x34) then exec_ll inst s
  else if (opcode =? 0x38) || (opcode =? 0x3c) then exec_sc inst s
  else exec_itype inst s.

(** The fetched instruction: count it, apply the gates, execute it. *)
Definition exec_inst (inst : Z) (s : state) : result state :=
  let s := set_icnt (u64 (icnt s + 1)) s in
  if is_64b_gated inst && negb (in_64b_mode s) then Ok (take_exception_ri s)
  else if is_cp1_gated (inst >> 26) && negb (sr_bit s SR_CU1)
  then Ok (take_exception_cpu 1 s)
  else s |> break_link inst |> log_store inst |> dispatch inst.

Definition execMips_body (s : state) : result state :=
  let s := s |> set_gpr_at 0 0 |> set_tlb_fault false in
  let (ipa, s) := va_translate s (pc s) op_fetch in
  if tlb_fault s then Ok s else
  let! w := get 4 ipa s in
  exec_inst (bswap EL 4 w) s.
End dispatch.

Fixpoint execMips_fuel (fuel : nat) (s : state) : result state :=
  match fuel with
  | O => Stop OutOfFuel
  | S fuel => execMips_body (execMips_fuel fuel) s
  end.
End exec.

(** The exported entry point runs the big-endian instance. *)
Definition execMips `{Config, HostFP} (fuel : nat) (s : state) : result state :=
  execMips_fuel IS_LITTLE_ENDIAN fuel s.

(** [k] consecutive calls of [execMips], as the checker's loop makes them. *)
Fixpoint execMips_n `{Config, HostFP} (fuel k : nat) (s : state) : result state :=
  match k with
  | O => Ok s
  | S k => let! s := execMips fuel s in execMips_n fuel k s
  end.

(** * Theorems *)

(** ** The type invariant *)
Section wf.
Context `{Config, HostFP}.
Variable EL : bool.
Implicit Types (s : state) (inst : Z).

Lemma tlb_probe_ro_range s va b pa : tlb_probe_ro s va b = Some pa -> in_u 32 pa.
Proof.
  unfold tlb_probe_ro. cbv zeta. repeat case_match; intros; simplify_eq; rng.
Qed.
Lemma probe_or_va2pa_range inst s : in_u 32 (probe_or_va2pa inst s).
Proof.
  unfold probe_or_va2pa. case_match eqn:Hp; [by eapply tlb_probe_ro_range|].
  unfold va2pa. case_match; rng.
Qed.
Lemma cache_line_range ea : in_u 64 (cache_line ea).
Proof. apply in_u_land_r; [done|]. by apply wrapu_range. Qed.
#[local] Hint Resolve cache_line_range : ranges.

Lemma wf_break_link inst s : wf s -> wf (break_link inst s).
Proof. wf_of break_link. Qed.
Lemma wf_log_store inst s : wf s -> wf (log_store inst s).
Proof.
  intros Hw. unfold log_store. cbv zeta. destruct (negb _); [done|]. destruct (store_size _ =? 0); [done|].
  destruct (tlb_probe_ro _ _ _) as [spa|] eqn:Hp; [|done]. apply tlb_probe_ro_range in Hp. destruct (uncached_store _ _); [done|].
  apply wf_set_g_iss_stores; [|done]. apply Forall_app. split; [by apply wf_stores|]. apply Forall_singleton.
  assert (in_u 64 (if (inst >> 26 =? 0x39) || (inst >> 26 =? 0x3d) then rd (cpr1 s) (f_rt inst) else u64 (rd (gpr s) (f_rt inst)))) as Hd.
  { destruct (_ || _); [by apply wf_cpr1_rd|rng]. }
  split_and!; cbn [sr_pc sr_addr sr_data]; [rng|by apply (in_u_mono 32 64)|]. destruct (_ <? 8); [|done]. by apply in_u_land_l.
Qed.
Lemma wf_exec_ll inst s : wf s -> post wf (exec_ll EL inst s).
Proof. wf_of exec_ll. Qed.
Lemma wf_exec_sc inst s : wf s -> post wf (exec_sc EL inst s).
Proof. wf_of exec_sc. Qed.
#[local] Hint Resolve wf_break_link wf_log_store wf_exec_ll wf_exec_sc wf_movci wf_movn wf_movz : wf.

Section dispatch.
Variable step : state -> result state.
Hypothesis wf_step : forall s, wf s -> post wf (step s).

Lemma wf_exec_rtype inst s : wf s -> post wf (exec_rtype step inst s).
Proof. wf_of exec_rtype. Qed.
Lemma wf_execCoproc1 inst s : wf s -> post wf (execCoproc1 step inst s).
Proof. wf_of execCoproc1. Qed.
Lemma wf_exec_itype inst s : wf s -> post wf (exec_itype EL step inst s).
Proof. wf_of exec_itype. Qed.
#[local] Hint Resolve wf_exec_rtype wf_execCoproc1 wf_exec_itype : wf.
Lemma wf_dispatch inst s : wf s -> post wf (dispatch EL step inst s).
Proof. wf_of dispatch. Qed.
Lemma wf_exec_inst inst s : wf s -> post wf (exec_inst EL step inst s).
Proof.
  intros. unfold exec_inst. assert (wf (set_icnt (u64 (icnt s + 1)) s)) by wf_auto.
  repeat case_match; cbn [post]; [wf_auto..|].
  by apply wf_dispatch, wf_log_store, wf_break_link.
Qed.
Lemma wf_execMips_body s : wf s -> post wf (execMips_body EL step s).
Proof.
  intros Hw. unfold execMips_body.
  assert (wf (s |> set_gpr_at 0 0 |> set_tlb_fault false)) as Hw1 by wf_auto.
  pose proof (wf_va_translate _ (pc (s |> set_gpr_at 0 0 |> set_tlb_fault false)) op_fetch Hw1)
    as [_ Hw2].
  destruct (va_translate _ _ _) as [ipa s']. cbn [snd] in Hw2. destruct (tlb_fault s'); [done|].
  eapply post_bind; [by apply post_get|]. intros w _. by apply wf_exec_inst.
Qed.
End dispatch.

Lemma wf_execMips_fuel n s : wf s -> post wf (execMips_fuel EL n s).
Proof.
  revert s; induction n as [|n IH]; intros s Hw; cbn [execMips_fuel]; [done|].
  by apply wf_execMips_body.
Qed.
End wf.
