(* ===== verification/Arch.v ===== *)
(** Architectural equality: two machine states that agree on everything but the
    micro-TLB, its switch, the instruction histogram and the FP-register tags.
    The relation [R] adds that both micro-TLBs are coherent with the
    architectural TLB; every setter and every exception helper respects it. *)
From S2P Require Import Prelude Bits Insns State Mem Wf Exc Tlb.

(** The four fields a run may differ in. *)
Definition over (u : Zmap utlb_entry) (b : bool) (h : gmap mipsInsn.t Z) (c : Zmap fp_reg_state)
    (s : state) : state :=
  set_g_utlb u (set_no_utlb b (set_insn_histo h (set_cpr1_state c s))).
Definition arch (s : state) : state := over ∅ false ∅ ∅ s.

Section coherence.
Context `{Config}.
(** A valid micro-TLB entry caches what the walk finds for its page: for
    every address of the page, the first match is a valid page with the cached
    frame and dirty bit. *)
Definition caches (t : Zmap tlb_entry_t) (ce : utlb_entry) : Prop :=
  forall va, va >> 12 = u_vpn ce ->
  exists i, first_from (fun i => cam_match va (u_asid ce) t.[i]) 0 tlb_n = Some i /\
    let e_lo := sel_lo t.[i] va in
    (e_lo .& 2 =? 0) = false /\ u_dirty ce = (e_lo .& 4 =/? 0) /\
    u32 (entry_pa t.[i] va) = u32 (u_ppn ce << 12) .| u32 (va .& 0xfff).
Definition utlb_coh (t : Zmap tlb_entry_t) (u : Zmap utlb_entry) : Prop :=
  forall i, u_valid u.[i] = true -> caches t u.[i].
Definition coherent (s : state) : Prop := utlb_coh (tlb s) (g_utlb s).

Definition R (s t : state) : Prop := coherent s /\ coherent t /\ arch s = arch t.
End coherence.

(** Results related componentwise, stops for the same reason. *)
Definition rel {A B} (Q : A -> B -> Prop) (m : result A) (m' : result B) : Prop :=
  match m, m' with
  | Ok a, Ok b => Q a b
  | Stop w, Stop w' => w = w'
  | _, _ => False
  end.

(** * Theorems *)
Lemma rel_bind {A B A' B'} (Q : A -> B -> Prop) (Q' : A' -> B' -> Prop) m m' f f' :
  rel Q m m' -> (forall a b, Q a b -> rel Q' (f a) (f' b)) -> rel Q' (m ≫= f) (m' ≫= f').
Proof. destruct m, m'; cbn; auto; done. Qed.

Lemma over_eta s t : arch s = arch t -> t = over (g_utlb t) (no_utlb t) (insn_histo t) (cpr1_state t) s.
Proof.
  intros Ha. transitivity (over (g_utlb t) (no_utlb t) (insn_histo t) (cpr1_state t) (arch t)); [done|].
  by rewrite <- Ha.
Qed.

(** Reads of the fields outside the four. *)
Section reads.
Variables (u : Zmap utlb_entry) (b : bool) (h : gmap mipsInsn.t Z) (c : Zmap fp_reg_state).
Implicit Types (s : state).
Lemma pc_over s : pc (over u b h c s) = pc s.
Proof. done. Qed.
Lemma gpr_over s : gpr (over u b h c s) = gpr s.
Proof. done. Qed.
Lemma lo_over s : lo (over u b h c s) = lo s.
Proof. done. Qed.
Lemma hi_over s : hi (over u b h c s) = hi s.
Proof. done. Qed.
Lemma cpr0_over s : cpr0 (over u b h c s) = cpr0 s.
Proof. done. Qed.
Lemma cpr1_over s : cpr1 (over u b h c s) = cpr1 s.
Proof. done. Qed.
Lemma fcr1_over s : fcr1 (over u b h c s) = fcr1 s.
Proof. done. Qed.
Lemma icnt_over s : icnt (over u b h c s) = icnt s.
Proof. done. Qed.
Lemma brk_over s : brk (over u b h c s) = brk s.
Proof. done. Qed.
Lemma mem_over s : mem (over u b h c s) = mem s.
Proof. done. Qed.
Lemma tlb_over s : tlb (over u b h c s) = tlb s.
Proof. done. Qed.
Lemma cpr0_64_over s : cpr0_64 (over u b h c s) = cpr0_64 s.
Proof. done. Qed.
Lemma silent_over s : silent (over u b h c s) = silent s.
Proof. done. Qed.
Lemma ll_link_valid_over s : ll_link_valid (over u b h c s) = ll_link_valid s.
Proof. done. Qed.
Lemma ll_link_addr_over s : ll_link_addr (over u b h c s) = ll_link_addr s.
Proof. done. Qed.
Lemma in_delay_slot_over s : in_delay_slot (over u b h c s) = in_delay_slot s.
Proof. done. Qed.
Lemma tlb_fault_over s : tlb_fault (over u b h c s) = tlb_fault s.
Proof. done. Qed.
Lemma g_iss_last_ld_va_over s : g_iss_last_ld_va (over u b h c s) = g_iss_last_ld_va s.
Proof. done. Qed.
Lemma g_iss_tlb_ext_over s : g_iss_tlb_ext (over u b h c s) = g_iss_tlb_ext s.
Proof. done. Qed.
Lemma g_iss_os_mode_over s : g_iss_os_mode (over u b h c s) = g_iss_os_mode s.
Proof. done. Qed.
Lemma g_iss_stores_over s : g_iss_stores (over u b h c s) = g_iss_stores s.
Proof. done. Qed.
Lemma host_out_over s : host_out (over u b h c s) = host_out s.
Proof. done. Qed.
Lemma sr_bit_over s n : sr_bit (over u b h c s) n = sr_bit s n.
Proof. done. Qed.
Lemma exc_vector_general_over s : exc_vector_general (over u b h c s) = exc_vector_general s.
Proof. done. Qed.
Lemma in_64b_mode_over s : in_64b_mode (over u b h c s) = in_64b_mode s.
Proof. done. Qed.
Lemma is_64b_addr_mode_over s : is_64b_addr_mode (over u b h c s) = is_64b_addr_mode s.
Proof. done. Qed.
Lemma getConditionCode_over s n : getConditionCode (over u b h c s) n = getConditionCode s n.
Proof. done. Qed.
Lemma exc_vector_over s x y z : exc_vector (over u b h c s) x y z = exc_vector s x y z.
Proof. done. Qed.
Lemma staged_entry_over s : staged_entry (over u b h c s) = staged_entry s.
Proof. done. Qed.
Lemma tlb_probe_ro_over `{Config} s va st : tlb_probe_ro (over u b h c s) va st = tlb_probe_ro s va st.
Proof. done. Qed.
Lemma get_over s n a : get n a (over u b h c s) = get n a s.
Proof. done. Qed.
End reads.
Create Rewrite HintDb over.
#[export] Hint Rewrite pc_over gpr_over lo_over hi_over cpr0_over cpr1_over fcr1_over icnt_over brk_over mem_over tlb_over cpr0_64_over silent_over ll_link_valid_over ll_link_addr_over in_delay_slot_over tlb_fault_over g_iss_last_ld_va_over g_iss_tlb_ext_over g_iss_os_mode_over g_iss_stores_over host_out_over sr_bit_over exc_vector_general_over in_64b_mode_over is_64b_addr_mode_over getConditionCode_over exc_vector_over staged_entry_over get_over : over.
#[export] Hint Rewrite @tlb_probe_ro_over : over.

(** ** The relation and the setters *)
Create HintDb arch discriminated.
#[export] Hint Constants Opaque : arch.
#[export] Hint Variables Opaque : arch.

Section setters.
Context `{Config}.
Implicit Types (s t : state) (i v : Z).

Lemma R_inv s t :
  R s t -> coherent s /\ exists u b h c, utlb_coh (tlb s) u /\ t = over u b h c s.
Proof.
  intros (Hs & Ht & Ha). split; [done|]. exists (g_utlb t), (no_utlb t), (insn_histo t), (cpr1_state t).
  pose proof (over_eta s t Ha) as He. split; [|done]. unfold coherent in Ht. by rewrite He in Ht at 1.
Qed.
Lemma R_over s u b h c : coherent s -> utlb_coh (tlb s) u -> R s (over u b h c s).
Proof. done. Qed.
(** A function that keeps both TLBs and whose result does not depend on the
    four fields preserves the relation. *)
Lemma R_map (f f' : state -> state) s t :
  (forall s, tlb (f s) = tlb s /\ g_utlb (f s) = g_utlb s) ->
  (forall s, tlb (f' s) = tlb s /\ g_utlb (f' s) = g_utlb s) ->
  (forall u b h c s, arch (f' (over u b h c s)) = arch (f s)) ->
  R s t -> R (f s) (f' t).
Proof.
  intros Hf Hf' Ha (Hc & u & b & h & c & Hu & ->)%R_inv. split_and!.
  - unfold coherent. by destruct (Hf s) as [-> ->].
  - unfold coherent. by destruct (Hf' (over u b h c s)) as [-> ->].
  - symmetry. apply Ha.
Qed.
Lemma R_set_pc v s t : R s t -> R (set_pc v s) (set_pc v t).
Proof. by apply R_map. Qed.
Lemma R_set_lo v s t : R s t -> R (set_lo v s) (set_lo v t).
Proof. by apply R_map. Qed.
Lemma R_set_hi v s t : R s t -> R (set_hi v s) (set_hi v t).
Proof. by apply R_map. Qed.
Lemma R_set_icnt v s t : R s t -> R (set_icnt v s) (set_icnt v t).
Proof. by apply R_map. Qed.
Lemma R_set_brk v s t : R s t -> R (set_brk v s) (set_brk v t).
Proof. by apply R_map. Qed.
Lemma R_set_mem x s t : R s t -> R (set_mem x s) (set_mem x t).
Proof. by apply R_map. Qed.
Lemma R_set_ll_link_valid x s t : R s t -> R (set_ll_link_valid x s) (set_ll_link_valid x t).
Proof. by apply R_map. Qed.
Lemma R_set_ll_link_addr v s t : R s t -> R (set_ll_link_addr v s) (set_ll_link_addr v t).
Proof. by apply R_map. Qed.
Lemma R_set_in_delay_slot x s t : R s t -> R (set_in_delay_slot x s) (set_in_delay_slot x t).
Proof. by apply R_map. Qed.
Lemma R_set_tlb_fault x s t : R s t -> R (set_tlb_fault x s) (set_tlb_fault x t).
Proof. by apply R_map. Qed.
Lemma R_set_g_iss_last_ld_va v s t : R s t -> R (set_g_iss_last_ld_va v s) (set_g_iss_last_ld_va v t).
Proof. by apply R_map. Qed.
Lemma R_set_g_iss_stores x s t : R s t -> R (set_g_iss_stores x s) (set_g_iss_stores x t).
Proof. by apply R_map. Qed.
Lemma R_set_gpr_at i v s t : R s t -> R (set_gpr_at i v s) (set_gpr_at i v t).
Proof. by apply R_map. Qed.
Lemma R_set_cpr0_at i v s t : R s t -> R (set_cpr0_at i v s) (set_cpr0_at i v t).
Proof. by apply R_map. Qed.
Lemma R_set_cpr0_64_at i v s t : R s t -> R (set_cpr0_64_at i v s) (set_cpr0_64_at i v t).
Proof. by apply R_map. Qed.
Lemma R_set_cpr1_at i v s t : R s t -> R (set_cpr1_at i v s) (set_cpr1_at i v t).
Proof. by apply R_map. Qed.
Lemma R_set_fcr1_at i v s t : R s t -> R (set_fcr1_at i v s) (set_fcr1_at i v t).
Proof. by apply R_map. Qed.
Lemma R_set_cpr1_state_at i x s t : R s t -> R (set_cpr1_state_at i x s) (set_cpr1_state_at i x t).
Proof. by apply R_map. Qed.
Lemma R_histo x s t : R s t -> R (histo x s) (histo x t).
Proof. by apply R_map. Qed.
Lemma R_histo_touch x s t : R s t -> R (histo_touch x s) (histo_touch x t).
Proof. by apply R_map. Qed.
Lemma R_emit x s t : R s t -> R (emit x s) (emit x t).
Proof. by apply R_map. Qed.
Lemma R_add_pc v s t : R s t -> R (add_pc v s) (add_pc v t).
Proof. by apply R_map. Qed.
End setters.
#[export] Hint Resolve R_set_pc R_set_lo R_set_hi R_set_icnt R_set_brk R_set_mem
  R_set_ll_link_valid R_set_ll_link_addr R_set_in_delay_slot R_set_tlb_fault
  R_set_g_iss_last_ld_va R_set_g_iss_stores R_set_gpr_at R_set_cpr0_at R_set_cpr0_64_at
  R_set_cpr1_at R_set_fcr1_at R_set_cpr1_state_at R_histo R_histo_touch R_emit R_add_pc R_over :
  arch.

(** Memory writes. *)
Lemma rel_put `{Config} n a v s t : R s t -> rel R (put n a v s) (put n a v t).
Proof.
  intros HR. apply R_inv in HR as (Hc & u & b & h & c & Hu & ->). unfold put. autorewrite with over.
  destruct (mem_set n a v (mem s)); cbn; auto with arch.
Qed.
#[export] Hint Resolve rel_put : arch.

(** ** Relational symbolic execution *)
Ltac R_open H :=
  let u := fresh "u" in let b := fresh "b" in let h := fresh "h" in let c := fresh "c" in
  let Hc := fresh "Hc" in let Hu := fresh "Hu" in
  apply R_inv in H as (Hc & u & b & h & c & Hu & ->).
(** Two [let]s over related states: relate the bound states, then forget how
    they were built. *)
Ltac rel_let P e b e' b' :=
  let t := type of e in
  lazymatch t with
  | state =>
      let H := fresh "HR" in
      assert (R e e') as H;
      [| let g := fresh "s" in let g' := fresh "t" in
         change (P (b e) (b' e')); generalize e e' H; clear H; intros g g' H; R_open H; cbv beta ]
  | _ => change (P (b e) (b' e')); cbv beta
  end.
Ltac rel_auto :=
  repeat (intros; autorewrite with over;
    lazymatch goal with
    | |- R (let x := ?e in @?b x) (let y := ?e' in @?b' y) => rel_let (fun x y : state => R x y) e b e' b'
    | |- rel ?Q (let x := ?e in @?b x) (let y := ?e' in @?b' y) => rel_let (fun x y => rel Q x y) e b e' b'
    | |- R (if ?c then _ else _) (if ?c then _ else _) => destruct c
    | |- R (match ?c with _ => _ end) (match ?c with _ => _ end) => destruct c
    | |- rel _ (Ok _) (Ok _) => cbn [rel]
    | |- rel _ (Stop _) (Stop _) => reflexivity
    | |- rel _ (if ?c then _ else _) (if ?c then _ else _) => destruct c
    | |- rel _ (match ?c with _ => _ end) (match ?c with _ => _ end) => destruct c
    | |- rel _ (get _ _ ?s ≫= _) (get _ _ ?s ≫= _) =>
        destruct (get _ _ s); [change (mbind (M:=result) ?f (Ok ?a)) with (f a); cbv beta | reflexivity]
    | |- rel _ (_ ≫= _) (_ ≫= _) =>
        let H := fresh "HR" in
        apply (rel_bind R); [solve [rel_auto] | intros ? ? H; R_open H]
    end);
  eauto 30 with arch.
#[export] Hint Extern 1 (R (if ?c then _ else _) (if ?c then _ else _)) => destruct c : arch.
(** [rel_of f]: open [f] on both sides, with related inputs. *)
Tactic Notation "rel_of" reference(f) :=
  let H := fresh "HR" in
  intros H; R_open H; cbv delta [f]; cbv beta; rel_auto.

(** ** Exceptions *)
Section exc.
Context `{Config}.
Implicit Types (s t : state).
Lemma R_set_exc_pc s t : R s t -> R (set_exc_pc s) (set_exc_pc t).
Proof. rel_of set_exc_pc. Qed.
#[local] Hint Resolve R_set_exc_pc : arch.
Lemma R_set_exccode code s t : R s t -> R (set_exccode code s) (set_exccode code t).
Proof. rel_of set_exccode. Qed.
#[local] Hint Resolve R_set_exccode : arch.
Lemma R_enter_exl s t : R s t -> R (enter_exl s) (enter_exl t).
Proof. rel_of enter_exl. Qed.
#[local] Hint Resolve R_enter_exl : arch.
Lemma R_goto_general s t : R s t -> R (goto_general s) (goto_general t).
Proof. rel_of goto_general. Qed.
#[local] Hint Resolve R_goto_general : arch.
Lemma R_raise_adel s t : R s t -> R (raise_adel s) (raise_adel t).
Proof. rel_of raise_adel. Qed.
#[local] Hint Resolve R_raise_adel : arch.
Lemma R_raise_ades s t : R s t -> R (raise_ades s) (raise_ades t).
Proof. rel_of raise_ades. Qed.
#[local] Hint Resolve R_raise_ades : arch.
Lemma R_take_exception_ri s t : R s t -> R (take_exception_ri s) (take_exception_ri t).
Proof. rel_of take_exception_ri. Qed.
#[local] Hint Resolve R_take_exception_ri : arch.
Lemma R_take_exception_fpe s t : R s t -> R (take_exception_fpe s) (take_exception_fpe t).
Proof. rel_of take_exception_fpe. Qed.
#[local] Hint Resolve R_take_exception_fpe : arch.
Lemma R_raise_overflow s t : R s t -> R (raise_overflow s) (raise_overflow t).
Proof. rel_of raise_overflow. Qed.
#[local] Hint Resolve R_raise_overflow : arch.
Lemma R_raise_trap s t : R s t -> R (raise_trap s) (raise_trap t).
Proof. rel_of raise_trap. Qed.
#[local] Hint Resolve R_raise_trap : arch.
Lemma R_take_exception_cpu ce s t : R s t -> R (take_exception_cpu ce s) (take_exception_cpu ce t).
Proof. rel_of take_exception_cpu. Qed.
#[local] Hint Resolve R_take_exception_cpu : arch.
Lemma R_raise_ri inst s t : R s t -> R (raise_ri inst s) (raise_ri inst t).
Proof. rel_of raise_ri. Qed.
#[local] Hint Resolve R_raise_ri : arch.
Lemma R_fcc_mirror_to_fccr s t : R s t -> R (fcc_mirror_to_fccr s) (fcc_mirror_to_fccr t).
Proof. rel_of fcc_mirror_to_fccr. Qed.
#[local] Hint Resolve R_fcc_mirror_to_fccr : arch.
Lemma R_fcc_mirror_from_fccr s t : R s t -> R (fcc_mirror_from_fccr s) (fcc_mirror_from_fccr t).
Proof. rel_of fcc_mirror_from_fccr. Qed.
#[local] Hint Resolve R_fcc_mirror_from_fccr : arch.
Lemma R_setConditionCode v cc s t : R s t -> R (setConditionCode v cc s) (setConditionCode v cc t).
Proof. rel_of setConditionCode. Qed.
#[local] Hint Resolve R_setConditionCode : arch.
Lemma R_tlb_set_fault_state va s t : R s t -> R (tlb_set_fault_state va s) (tlb_set_fault_state va t).
Proof. rel_of tlb_set_fault_state. Qed.
#[local] Hint Resolve R_tlb_set_fault_state : arch.
Lemma R_raise_tlb va code b1 b2 s t : R s t -> R (raise_tlb va code b1 b2 s) (raise_tlb va code b1 b2 t).
Proof. rel_of raise_tlb. Qed.
#[local] Hint Resolve R_raise_tlb : arch.
End exc.
#[export] Hint Resolve R_set_exc_pc R_set_exccode R_enter_exl R_goto_general R_raise_adel
  R_raise_ades R_take_exception_ri R_take_exception_fpe R_raise_overflow R_raise_trap
  R_take_exception_cpu R_raise_ri R_fcc_mirror_to_fccr R_fcc_mirror_from_fccr R_setConditionCode
  R_tlb_set_fault_state R_raise_tlb : arch.
