(* ===== verification/Utlb.v ===== *)
(** Coherence of the micro-TLB of [src/interpret.cc]: what a refill caches, why
    a hit answers what the walk of the architectural entries would, and that
    translation and the TLB instructions respect architectural equality. *)
From S2P Require Import Prelude Bits Insns State Mem Wf Exc Tlb Arch.

Section page.
Implicit Types (va vb m : Z) (e : tlb_entry_t).
Lemma testbit_page va vb i : va >> 12 = vb >> 12 -> 12 <= i -> Z.testbit va i = Z.testbit vb i.
Proof.
  intros Hp Hi. replace i with ((i - 12) + 12) by lia. rewrite <- !Z.shiftr_spec by lia. by rewrite Hp.
Qed.
Lemma land_page va vb m :
  va >> 12 = vb >> 12 -> (forall i, 0 <= i < 12 -> Z.testbit m i = false) -> va .& m = vb .& m.
Proof.
  intros Hp Hm. apply Z.bits_inj'. intros i Hi. rewrite !Z.land_spec.
  destruct (decide (i < 12)); [rewrite Hm by lia; by rewrite !andb_false_r|].
  by rewrite (testbit_page va vb) by (done || lia).
Qed.
Lemma testbit_ones_false n i : 0 <= i < n -> Z.testbit (Z.lnot (Z.ones n)) i = false.
Proof. intros. rewrite Z.lnot_spec, Z.ones_spec_low by lia. done. Qed.

Lemma vpn_mask_low `{Config} e i :
  0 <= i < 12 -> Z.testbit (u64 (.~ pair_mask e) .& (VPN2_MASK << 13)) i = false.
Proof. intros. rewrite Z.land_spec, Z.shiftl_spec_low, andb_false_r by lia. done. Qed.
Lemma pm_of_mul e : pm_of e = (pm_of e >> 13) << 13.
Proof.
  apply Z.bits_inj'. intros i Hi. destruct (decide (i < 13)).
  - rewrite Z.shiftl_spec_low by lia. unfold pm_of. rewrite Z.land_spec.
    change 0x1ffe000 with (0xfff << 13). rewrite Z.shiftl_spec_low by lia. apply andb_false_r.
  - rewrite Z.shiftl_spec, Z.shiftr_spec by lia. f_equal; lia.
Qed.
Lemma pair_mask_add e : pair_mask e = 0x1fff + (pm_of e >> 13) * 2 ^ 13.
Proof. unfold pair_mask. rewrite pm_of_mul at 1. rewrite Z.lor_comm. by apply lor_shl_add. Qed.
Lemma sel_bit_eq e : sel_bit e = (1 + (pm_of e >> 13)) << 12.
Proof.
  unfold sel_bit. rewrite pair_mask_add, Z.shiftr_div_pow2, Z.shiftl_mul_pow2 by lia.
  symmetry. apply Z.div_unique with 0; lia.
Qed.
Lemma off_mask_low e i : 0 <= i < 12 -> Z.testbit (off_mask e) i = true.
Proof.
  intros. unfold off_mask, pair_mask. rewrite Z.shiftr_spec, Z.lor_spec by lia.
  change 0x1fff with (Z.ones 13). rewrite Z.ones_spec_low by lia. apply orb_true_r.
Qed.

Lemma cam_match_page `{Config} va vb asid e : va >> 12 = vb >> 12 -> cam_match va asid e = cam_match vb asid e.
Proof.
  intros Hp. unfold cam_match. rewrite (land_page va vb) by (done || apply vpn_mask_low).
  replace (va >> 62) with (vb >> 62); [done|].
  change 62 with (12 + 50). rewrite <- !Z.shiftr_shiftr by lia. by rewrite Hp.
Qed.
Lemma sel_lo_page va vb e : va >> 12 = vb >> 12 -> sel_lo e va = sel_lo e vb.
Proof.
  intros Hp. unfold sel_lo. rewrite (land_page va vb); [done|done|].
  intros. rewrite sel_bit_eq. apply Z.shiftl_spec_low. lia.
Qed.
(** The physical page of an address, and the offset in it. *)
Lemma entry_pa_page va vb e :
  va >> 12 = vb >> 12 ->
  u32 (entry_pa e vb) = u32 (u32 (entry_pa e va >> 12) << 12) .| u32 (vb .& 0xfff).
Proof.
  intros Hp. apply Z.bits_inj'. intros i Hi.
  rewrite Z.lor_spec, !testbit_wrapu, Z.land_spec by lia. unfold entry_pa. rewrite Z.lor_spec, Z.land_spec.
  change 0xfff with (Z.ones 12). destruct (Z.ltb_spec i 32) as [Hi32|]; [cbn|done].
  destruct (decide (i < 12)).
  - rewrite !Z.shiftl_spec_low, Z.ones_spec_low, off_mask_low by lia. by rewrite andb_true_r.
  - rewrite Z.ones_spec_high, andb_false_r, orb_false_r by lia.
    rewrite (Z.shiftl_spec (u32 _)), testbit_wrapu, Z.shiftr_spec by lia.
    replace (i - 12 + 12) with i by lia. destruct (Z.ltb_spec (i - 12) 32); [|lia]. cbn.
    rewrite Z.lor_spec, Z.land_spec, (testbit_page va vb), (sel_lo_page va vb) by (done || lia). done.
Qed.
End page.

(** ** Coherence *)
Section coherence.
Context `{Config}.
Implicit Types (s t : state) (va vpn asid : Z) (op : tlb_op).

(** The entry a successful walk writes caches its page. *)
Lemma refill_caches va asid i (T : Zmap tlb_entry_t) :
  first_from (fun i => cam_match va asid T.[i]) 0 tlb_n = Some i ->
  (sel_lo T.[i] va .& 2 =? 0) = false ->
  caches T (mk_utlb_entry (va >> 12) asid (u32 (entry_pa T.[i] va >> 12)) (sel_lo T.[i] va .& 4 =/? 0) true).
Proof.
  intros Hf Hv vb Hp. cbn [u_vpn u_asid u_dirty u_ppn] in *. exists i. split; [|cbv zeta].
  - rewrite <- Hf. apply first_from_ext. intros. by apply cam_match_page.
  - rewrite (sel_lo_page vb va) by done. split_and!; [done|done|]. by apply entry_pa_page.
Qed.
Lemma coh_wr T u i ce : utlb_coh T u -> caches T ce -> utlb_coh T (wr i ce u).
Proof.
  intros Hu Hce j. rewrite rd_wr. destruct (i =? j); [done|apply Hu].
Qed.
Lemma coh_flush T u : utlb_coh T (utlb_invalidate <$> u).
Proof.
  intros i. unfold rd. rewrite lookup_fmap. by destruct (u !! i).
Qed.
Lemma coh_empty T : utlb_coh T ∅.
Proof. intros i. by rewrite rd_empty. Qed.
Lemma coherent_flush s : coherent (utlb_flush s).
Proof. apply coh_flush. Qed.

Lemma R_refl s : coherent s -> R s s.
Proof. done. Qed.
Lemma R_sym s t : R s t -> R t s.
Proof. by intros (?&?&?). Qed.
Lemma R_trans s t r : R s t -> R t r -> R s r.
Proof. intros (Hs & _ & Hst) (_ & Hr & Htr). split; [done|split; [done|by transitivity (arch t)]]. Qed.

(** The walk is a function of the architectural state. *)
Lemma R_cam va op asid xtlb s t :
  R s t -> (cam_translate va op asid xtlb s).1 = (cam_translate va op asid xtlb t).1 /\
           R (cam_translate va op asid xtlb s).2 (cam_translate va op asid xtlb t).2.
Proof.
  intros HR. R_open HR. unfold cam_translate. autorewrite with over. cbv zeta.
  destruct (first_from _ _ _) as [i|] eqn:Hf; cbn [fst snd]; [|auto with arch].
  destruct (_ =? 0) eqn:Hv; cbn [fst snd]; [auto with arch|].
  destruct (_ && _); cbn [fst snd]; [auto with arch|]. split; [done|]. split_and!.
  - apply coh_wr; [done|]. by apply refill_caches.
  - apply coh_wr; [done|]. by apply refill_caches.
  - done.
Qed.

(** A micro-TLB hit answers what the walk would. *)
Definition utlb_or_cam va op asid xtlb s : Z * state :=
  if utlb_hit s (va >> 12) asid op then
    let ce := (g_utlb s).[(va >> 12) .& (UTLB_SZ - 1)] in
    (u32 (u_ppn ce << 12) .| u32 (va .& 0xfff), s)
  else cam_translate va op asid xtlb s.
Lemma utlb_hit_inv s vpn asid op :
  utlb_hit s vpn asid op = true ->
  let ce := (g_utlb s).[vpn .& (UTLB_SZ - 1)] in
  u_valid ce = true /\ u_vpn ce = vpn /\ u_asid ce = asid /\ (is_store op = true -> u_dirty ce = true).
Proof.
  unfold utlb_hit. cbv zeta. rewrite !andb_true_iff, !Z.eqb_eq. intros [[[[_ Hv] Hp] Ha] Hd].
  split_and!; try done. intros Hs. rewrite Hs in Hd. by destruct (u_dirty _).
Qed.
Lemma utlb_transparent va op asid xtlb s :
  coherent s ->
  (utlb_or_cam va op asid xtlb s).1 = (cam_translate va op asid xtlb s).1 /\
  R (utlb_or_cam va op asid xtlb s).2 (cam_translate va op asid xtlb s).2.
Proof.
  intros Hc. unfold utlb_or_cam. destruct (utlb_hit _ _ _ _) eqn:Hh; cycle 1.
  { split; [done|]. apply (R_cam va op asid xtlb s s), R_refl, Hc. }
  apply utlb_hit_inv in Hh as (Hv & Hp & Ha & Hd). cbv zeta in *.
  destruct (Hc _ Hv va) as (i & Hf & Hv2 & Hdir & Hpa); [done|]. rewrite Ha in Hf.
  unfold cam_translate. rewrite Hf. cbv zeta. rewrite Hv2.
  destruct (is_store op && _) eqn:Hst.
  { apply andb_true_iff in Hst as [Hs Hst]. rewrite Hdir, Hst in Hd. by specialize (Hd Hs). }
  cbn [fst snd]. split; [done|]. split_and!; [done| |done].
  apply coh_wr; [done|]. by apply refill_caches.
Qed.

Lemma va_translate_eq s va op :
  va_translate s va op =
  (let va := u64 va in
  let va := if negb (is_64b_addr_mode s) then u64 (s32 va) else va in
  let s := if is_load op then set_g_iss_last_ld_va va s else s in
  let hi32 := u32 (va >> 32) in
  let lo32 := u32 va in
  let seg := lo32 >> 29 in
  if compat32 hi32 && ((seg =? 4) || (seg =? 5)) then (lo32 .& 0x1fffffff, s)
  else if negb (compat32 hi32) && ((va >> 62) .& 3 =? 2) then (u32 (va .& 0xffffffffff), s)
  else utlb_or_cam va op ((cpr0_64 s).[CPR0_ENTRYHI] .& 0xff) (is_64b_addr_mode s) s).
Proof. done. Qed.

Lemma R_utlb_or_cam va op asid xtlb s t :
  R s t -> (utlb_or_cam va op asid xtlb s).1 = (utlb_or_cam va op asid xtlb t).1 /\
           R (utlb_or_cam va op asid xtlb s).2 (utlb_or_cam va op asid xtlb t).2.
Proof.
  intros HR. pose proof (proj1 HR) as Hs. pose proof (proj1 (proj2 HR)) as Ht.
  destruct (utlb_transparent va op asid xtlb s Hs) as [-> H1].
  destruct (utlb_transparent va op asid xtlb t Ht) as [-> H2].
  destruct (R_cam va op asid xtlb s t HR) as [-> H3]. split; [done|].
  eauto using R_trans, R_sym.
Qed.
Lemma R_va_translate s t va op :
  R s t -> (va_translate s va op).1 = (va_translate t va op).1 /\
           R (va_translate s va op).2 (va_translate t va op).2.
Proof.
  intros HR. rewrite !va_translate_eq. cbv zeta.
  assert (is_64b_addr_mode t = is_64b_addr_mode s) as -> by (R_open HR; done).
  set (v := if negb _ then _ else _). clearbody v.
  assert (R (if is_load op then set_g_iss_last_ld_va v s else s)
            (if is_load op then set_g_iss_last_ld_va v t else t)) as HR'
    by (destruct (is_load op); auto with arch).
  generalize dependent (if is_load op then set_g_iss_last_ld_va v s else s).
  generalize dependent (if is_load op then set_g_iss_last_ld_va v t else t). intros t' s' HR'.
  destruct (_ && _); [done|]. destruct (_ && _); [done|].
  assert (cpr0_64 t' = cpr0_64 s' /\ is_64b_addr_mode t' = is_64b_addr_mode s') as [-> ->]
    by (R_open HR'; done).
  by apply R_utlb_or_cam.
Qed.
Lemma rel_translated va op k k' s t :
  R s t -> (forall ea s t, R s t -> rel R (k ea s) (k' ea t)) ->
  rel R (translated va op k s) (translated va op k' t).
Proof.
  intros HR Hk. unfold translated. pose proof (R_va_translate s t va op HR) as [He Hr].
  destruct (va_translate s va op) as [ea s'], (va_translate t va op) as [ea' t']. cbn in *. subst ea'.
  assert (tlb_fault t' = tlb_fault s') as -> by (R_open Hr; done).
  destruct (tlb_fault s'); [done|auto].
Qed.
(** The TLB instructions; a write flushes the micro-TLB. *)
Lemma R_tlbr s t : R s t -> R (tlbr s) (tlbr t).
Proof. rel_of tlbr. Qed.
Lemma R_tlbp s t : R s t -> R (tlbp s) (tlbp t).
Proof. rel_of tlbp. Qed.
Lemma R_write_flush i s t : R s t -> R (utlb_flush (write_staged i s)) (utlb_flush (write_staged i t)).
Proof.
  intros HR. split_and!; [apply coherent_flush..|]. R_open HR.
  unfold write_staged. autorewrite with over. by destruct (_ && _).
Qed.
Lemma R_tlbwi s t : R s t -> R (tlbwi s) (tlbwi t).
Proof.
  intros HR. unfold tlbwi. apply R_histo.
  assert (cpr0 t = cpr0 s) as -> by (R_open HR; done). by apply R_write_flush.
Qed.
Lemma R_tlbwr s t : R s t -> R (tlbwr s) (tlbwr t).
Proof.
  intros HR. unfold tlbwr. apply R_histo.
  assert (cpr0 t = cpr0 s) as -> by (R_open HR; done).
  pose proof (R_write_flush ((cpr0 s).[CPR0_RANDOM] .& 63) s t HR) as HR'.
  generalize dependent (utlb_flush (write_staged ((cpr0 s).[CPR0_RANDOM] .& 63) s)).
  generalize dependent (utlb_flush (write_staged ((cpr0 s).[CPR0_RANDOM] .& 63) t)).
  intros t' s' HR'. R_open HR'. rel_auto.
Qed.
End coherence.
#[export] Hint Resolve R_tlbr R_tlbp R_tlbwi R_tlbwr : arch.
