(* ===== verification/NonInterf.v ===== *)
(** Every handler of the interpreter respects architectural equality, so a run
    of [execMips] is a function of the architectural state: the micro-TLB, its
    switch, the histogram and the FP-register tags never influence it. *)
From S2P Require Import Prelude Bits Insns State Mem Wf Exc Tlb LoadStore Alu Fp Fpu Cp0 Branch Exec Arch Utlb.

(** Reads of the four fields' complement, through the operand accessors. *)
Section reads.
Variables (u : Zmap utlb_entry) (b : bool) (h : gmap mipsInsn.t Z) (c : Zmap fp_reg_state).
Implicit Types (s : state) (inst : Z).
Lemma base_imm_over inst s : base_imm inst (over u b h c s) = base_imm inst s.
Proof. done. Qed.
Lemma fr0_over s : fr0 (over u b h c s) = fr0 s.
Proof. done. Qed.
Lemma sc_ok_over n s : sc_ok n (over u b h c s) = sc_ok n s.
Proof. done. Qed.
Lemma read_fpr_word_over n s : read_fpr_word n (over u b h c s) = read_fpr_word n s.
Proof. done. Qed.
Lemma u32_rs_over inst s : u32_rs inst (over u b h c s) = u32_rs inst s.
Proof. done. Qed.
Lemma u32_rt_over inst s : u32_rt inst (over u b h c s) = u32_rt inst s.
Proof. done. Qed.
Lemma u64_rs_over inst s : u64_rs inst (over u b h c s) = u64_rs inst s.
Proof. done. Qed.
Lemma u64_rt_over inst s : u64_rt inst (over u b h c s) = u64_rt inst s.
Proof. done. Qed.
Lemma r_rs_over inst s : r_rs inst (over u b h c s) = r_rs inst s.
Proof. done. Qed.
Lemma r_rt_over inst s : r_rt inst (over u b h c s) = r_rt inst s.
Proof. done. Qed.
Lemma read_T_over T n s : read_T T n (over u b h c s) = read_T T n s.
Proof. done. Qed.
Lemma read_w_over n s : read_w n (over u b h c s) = read_w n s.
Proof. done. Qed.
Lemma read_l_over n s : read_l n (over u b h c s) = read_l n s.
Proof. done. Qed.
Lemma rounded_over inst n s : rounded inst n (over u b h c s) = rounded inst n s.
Proof. done. Qed.
Lemma takeBranch_over bt inst s : takeBranch bt inst (over u b h c s) = takeBranch bt inst s.
Proof. done. Qed.
Lemma probe_or_va2pa_over `{Config} inst s : probe_or_va2pa inst (over u b h c s) = probe_or_va2pa inst s.
Proof. done. Qed.
End reads.
#[export] Hint Rewrite base_imm_over fr0_over sc_ok_over read_fpr_word_over u32_rs_over u32_rt_over u64_rs_over u64_rt_over r_rs_over r_rt_over read_T_over read_w_over read_l_over rounded_over takeBranch_over : over.
#[export] Hint Rewrite @probe_or_va2pa_over : over.

(** [rel_ls f]: a handler that translates its address first. *)
Tactic Notation "rel_ls" reference(f) :=
  let H := fresh "HR" in
  intros H; R_open H; cbv delta [f]; cbv beta;
  repeat (autorewrite with over; lazymatch goal with
  | |- rel R (let x := ?e in @?b x) (let y := ?e' in @?b' y) =>
      rel_let (fun x y => rel R x y) e b e' b'
  | |- rel R (if ?c then _ else _) (if ?c then _ else _) => destruct c
  | |- rel R (match ?c with _ => _ end) (match ?c with _ => _ end) => destruct c
  | |- rel R (translated _ _ _ _) (translated _ _ _ _) =>
      apply rel_translated; [by apply R_over|];
      let H := fresh "HR" in intros ? ? ? H; R_open H
  end); rel_auto.

Section handlers.
Context `{Config, HostFP}.
Variable EL : bool.
Implicit Types (s t : state) (inst : Z).
Lemma R_write_fpr_word r w s t : R s t -> R (write_fpr_word r w s) (write_fpr_word r w t).
Proof. rel_of write_fpr_word. Qed.
#[local] Hint Resolve R_write_fpr_word : arch.
Lemma rel_lw inst s t : R s t -> rel R (_lw EL inst s) (_lw EL inst t).
Proof. rel_ls _lw. Qed.
#[local] Hint Resolve rel_lw : arch.
Lemma rel_lh inst s t : R s t -> rel R (_lh EL inst s) (_lh EL inst t).
Proof. rel_ls _lh. Qed.
#[local] Hint Resolve rel_lh : arch.
Lemma rel_lb inst s t : R s t -> rel R (_lb inst s) (_lb inst t).
Proof. rel_ls _lb. Qed.
#[local] Hint Resolve rel_lb : arch.
Lemma rel_lbu inst s t : R s t -> rel R (_lbu inst s) (_lbu inst t).
Proof. rel_ls _lbu. Qed.
#[local] Hint Resolve rel_lbu : arch.
Lemma rel_lhu inst s t : R s t -> rel R (_lhu EL inst s) (_lhu EL inst t).
Proof. rel_ls _lhu. Qed.
#[local] Hint Resolve rel_lhu : arch.
Lemma rel_lwu inst s t : R s t -> rel R (_lwu EL inst s) (_lwu EL inst t).
Proof. rel_ls _lwu. Qed.
#[local] Hint Resolve rel_lwu : arch.
Lemma rel_ld inst s t : R s t -> rel R (_ld EL inst s) (_ld EL inst t).
Proof. rel_ls _ld. Qed.
#[local] Hint Resolve rel_ld : arch.
Lemma rel_lld inst s t : R s t -> rel R (_lld EL inst s) (_lld EL inst t).
Proof. rel_ls _lld. Qed.
#[local] Hint Resolve rel_lld : arch.
Lemma rel_sw inst s t : R s t -> rel R (_sw EL inst s) (_sw EL inst t).
Proof. rel_ls _sw. Qed.
#[local] Hint Resolve rel_sw : arch.
Lemma rel_sd inst s t : R s t -> rel R (_sd EL inst s) (_sd EL inst t).
Proof. rel_ls _sd. Qed.
#[local] Hint Resolve rel_sd : arch.
Lemma rel_sh inst s t : R s t -> rel R (_sh EL inst s) (_sh EL inst t).
Proof. rel_ls _sh. Qed.
#[local] Hint Resolve rel_sh : arch.
Lemma rel_sb inst s t : R s t -> rel R (_sb inst s) (_sb inst t).
Proof. rel_ls _sb. Qed.
#[local] Hint Resolve rel_sb : arch.
Lemma rel_sc inst s t : R s t -> rel R (_sc EL inst s) (_sc EL inst t).
Proof. rel_ls _sc. Qed.
#[local] Hint Resolve rel_sc : arch.
Lemma rel_scd inst s t : R s t -> rel R (_scd EL inst s) (_scd EL inst t).
Proof. rel_ls _scd. Qed.
#[local] Hint Resolve rel_scd : arch.
Lemma rel_swl inst s t : R s t -> rel R (_swl EL inst s) (_swl EL inst t).
Proof. rel_ls _swl. Qed.
#[local] Hint Resolve rel_swl : arch.
Lemma rel_swr inst s t : R s t -> rel R (_swr EL inst s) (_swr EL inst t).
Proof. rel_ls _swr. Qed.
#[local] Hint Resolve rel_swr : arch.
Lemma rel_lwl inst s t : R s t -> rel R (_lwl EL inst s) (_lwl EL inst t).
Proof. rel_ls _lwl. Qed.
#[local] Hint Resolve rel_lwl : arch.
Lemma rel_lwr inst s t : R s t -> rel R (_lwr EL inst s) (_lwr EL inst t).
Proof. rel_ls _lwr. Qed.
#[local] Hint Resolve rel_lwr : arch.
Lemma rel_ldl inst s t : R s t -> rel R (_ldl EL inst s) (_ldl EL inst t).
Proof. rel_ls _ldl. Qed.
#[local] Hint Resolve rel_ldl : arch.
Lemma rel_ldr inst s t : R s t -> rel R (_ldr EL inst s) (_ldr EL inst t).
Proof. rel_ls _ldr. Qed.
#[local] Hint Resolve rel_ldr : arch.
Lemma rel_sdl inst s t : R s t -> rel R (_sdl EL inst s) (_sdl EL inst t).
Proof. rel_ls _sdl. Qed.
#[local] Hint Resolve rel_sdl : arch.
Lemma rel_sdr inst s t : R s t -> rel R (_sdr EL inst s) (_sdr EL inst t).
Proof. rel_ls _sdr. Qed.
#[local] Hint Resolve rel_sdr : arch.
Lemma rel_ldc1 inst s t : R s t -> rel R (_ldc1 EL inst s) (_ldc1 EL inst t).
Proof. rel_ls _ldc1. Qed.
#[local] Hint Resolve rel_ldc1 : arch.
Lemma rel_sdc1 inst s t : R s t -> rel R (_sdc1 EL inst s) (_sdc1 EL inst t).
Proof. rel_ls _sdc1. Qed.
#[local] Hint Resolve rel_sdc1 : arch.
Lemma rel_lwc1 inst s t : R s t -> rel R (_lwc1 EL inst s) (_lwc1 EL inst t).
Proof. rel_ls _lwc1. Qed.
#[local] Hint Resolve rel_lwc1 : arch.
Lemma rel_swc1 inst s t : R s t -> rel R (_swc1 EL inst s) (_swc1 EL inst t).
Proof. rel_ls _swc1. Qed.
#[local] Hint Resolve rel_swc1 : arch.
Lemma rel_cache inst s t : R s t -> rel R (_cache inst s) (_cache inst t).
Proof. rel_ls _cache. Qed.
#[local] Hint Resolve rel_cache : arch.
Lemma R_ret_rd inst v i s t : R s t -> R (ret_rd inst v i s) (ret_rd inst v i t).
Proof. rel_of ret_rd. Qed.
#[local] Hint Resolve R_ret_rd : arch.
Lemma R_ret_rt inst v i s t : R s t -> R (ret_rt inst v i s) (ret_rt inst v i t).
Proof. rel_of ret_rt. Qed.
#[local] Hint Resolve R_ret_rt : arch.
Lemma R_ret_hilo hv lv i s t : R s t -> R (ret_hilo hv lv i s) (ret_hilo hv lv i t).
Proof. rel_of ret_hilo. Qed.
#[local] Hint Resolve R_ret_hilo : arch.
Lemma R_next i s t : R s t -> R (next i s) (next i t).
Proof. rel_of next. Qed.
#[local] Hint Resolve R_next : arch.
Lemma R_trap_if c i s t : R s t -> R (trap_if c i s) (trap_if c i t).
Proof. rel_of trap_if. Qed.
#[local] Hint Resolve R_trap_if : arch.
Lemma R_sll inst s t : R s t -> R (_sll inst s) (_sll inst t).
Proof. rel_of _sll. Qed.
#[local] Hint Resolve R_sll : arch.
Lemma R_srl inst s t : R s t -> R (_srl inst s) (_srl inst t).
Proof. rel_of _srl. Qed.
#[local] Hint Resolve R_srl : arch.
Lemma R_sra inst s t : R s t -> R (_sra inst s) (_sra inst t).
Proof. rel_of _sra. Qed.
#[local] Hint Resolve R_sra : arch.
Lemma R_sllv inst s t : R s t -> R (_sllv inst s) (_sllv inst t).
Proof. rel_of _sllv. Qed.
#[local] Hint Resolve R_sllv : arch.
Lemma R_srlv inst s t : R s t -> R (_srlv inst s) (_srlv inst t).
Proof. rel_of _srlv. Qed.
#[local] Hint Resolve R_srlv : arch.
Lemma R_srav inst s t : R s t -> R (_srav inst s) (_srav inst t).
Proof. rel_of _srav. Qed.
#[local] Hint Resolve R_srav : arch.
Lemma R_syscall_break inst s t : R s t -> R (_syscall_break inst s) (_syscall_break inst t).
Proof. rel_of _syscall_break. Qed.
#[local] Hint Resolve R_syscall_break : arch.
Lemma R_mfhi inst s t : R s t -> R (_mfhi inst s) (_mfhi inst t).
Proof. rel_of _mfhi. Qed.
#[local] Hint Resolve R_mfhi : arch.
Lemma R_mthi inst s t : R s t -> R (_mthi inst s) (_mthi inst t).
Proof. rel_of _mthi. Qed.
#[local] Hint Resolve R_mthi : arch.
Lemma R_mflo inst s t : R s t -> R (_mflo inst s) (_mflo inst t).
Proof. rel_of _mflo. Qed.
#[local] Hint Resolve R_mflo : arch.
Lemma R_mtlo inst s t : R s t -> R (_mtlo inst s) (_mtlo inst t).
Proof. rel_of _mtlo. Qed.
#[local] Hint Resolve R_mtlo : arch.
Lemma R_mult inst s t : R s t -> R (_mult inst s) (_mult inst t).
Proof. rel_of _mult. Qed.
#[local] Hint Resolve R_mult : arch.
Lemma R_multu inst s t : R s t -> R (_multu inst s) (_multu inst t).
Proof. rel_of _multu. Qed.
#[local] Hint Resolve R_multu : arch.
Lemma R_div inst s t : R s t -> R (_div inst s) (_div inst t).
Proof. rel_of _div. Qed.
#[local] Hint Resolve R_div : arch.
Lemma R_dmult inst s t : R s t -> R (_dmult inst s) (_dmult inst t).
Proof. rel_of _dmult. Qed.
#[local] Hint Resolve R_dmult : arch.
Lemma R_dmultu inst s t : R s t -> R (_dmultu inst s) (_dmultu inst t).
Proof. rel_of _dmultu. Qed.
#[local] Hint Resolve R_dmultu : arch.
Lemma R_ddiv inst s t : R s t -> R (_ddiv inst s) (_ddiv inst t).
Proof. rel_of _ddiv. Qed.
#[local] Hint Resolve R_ddiv : arch.
Lemma R_ddivu inst s t : R s t -> R (_ddivu inst s) (_ddivu inst t).
Proof. rel_of _ddivu. Qed.
#[local] Hint Resolve R_ddivu : arch.
Lemma R_add inst s t : R s t -> R (_add inst s) (_add inst t).
Proof. rel_of _add. Qed.
#[local] Hint Resolve R_add : arch.
Lemma R_addu inst s t : R s t -> R (_addu inst s) (_addu inst t).
Proof. rel_of _addu. Qed.
#[local] Hint Resolve R_addu : arch.
Lemma R_sub inst s t : R s t -> R (_sub inst s) (_sub inst t).
Proof. rel_of _sub. Qed.
#[local] Hint Resolve R_sub : arch.
Lemma R_subu inst s t : R s t -> R (_subu inst s) (_subu inst t).
Proof. rel_of _subu. Qed.
#[local] Hint Resolve R_subu : arch.
Lemma R_and inst s t : R s t -> R (_and inst s) (_and inst t).
Proof. rel_of _and. Qed.
#[local] Hint Resolve R_and : arch.
Lemma R_or inst s t : R s t -> R (_or inst s) (_or inst t).
Proof. rel_of _or. Qed.
#[local] Hint Resolve R_or : arch.
Lemma R_xor inst s t : R s t -> R (_xor inst s) (_xor inst t).
Proof. rel_of _xor. Qed.
#[local] Hint Resolve R_xor : arch.
Lemma R_nor inst s t : R s t -> R (_nor inst s) (_nor inst t).
Proof. rel_of _nor. Qed.
#[local] Hint Resolve R_nor : arch.
Lemma R_slt inst s t : R s t -> R (_slt inst s) (_slt inst t).
Proof. rel_of _slt. Qed.
#[local] Hint Resolve R_slt : arch.
Lemma R_sltu inst s t : R s t -> R (_sltu inst s) (_sltu inst t).
Proof. rel_of _sltu. Qed.
#[local] Hint Resolve R_sltu : arch.
Lemma R_tge inst s t : R s t -> R (_tge inst s) (_tge inst t).
Proof. rel_of _tge. Qed.
#[local] Hint Resolve R_tge : arch.
Lemma R_tgeu inst s t : R s t -> R (_tgeu inst s) (_tgeu inst t).
Proof. rel_of _tgeu. Qed.
#[local] Hint Resolve R_tgeu : arch.
Lemma R_tlt inst s t : R s t -> R (_tlt inst s) (_tlt inst t).
Proof. rel_of _tlt. Qed.
#[local] Hint Resolve R_tlt : arch.
Lemma R_tltu inst s t : R s t -> R (_tltu inst s) (_tltu inst t).
Proof. rel_of _tltu. Qed.
#[local] Hint Resolve R_tltu : arch.
Lemma R_teq inst s t : R s t -> R (_teq inst s) (_teq inst t).
Proof. rel_of _teq. Qed.
#[local] Hint Resolve R_teq : arch.
Lemma R_tne inst s t : R s t -> R (_tne inst s) (_tne inst t).
Proof. rel_of _tne. Qed.
#[local] Hint Resolve R_tne : arch.
Lemma R_dadd inst s t : R s t -> R (_dadd inst s) (_dadd inst t).
Proof. rel_of _dadd. Qed.
#[local] Hint Resolve R_dadd : arch.
Lemma R_daddu inst s t : R s t -> R (_daddu inst s) (_daddu inst t).
Proof. rel_of _daddu. Qed.
#[local] Hint Resolve R_daddu : arch.
Lemma R_dsub inst s t : R s t -> R (_dsub inst s) (_dsub inst t).
Proof. rel_of _dsub. Qed.
#[local] Hint Resolve R_dsub : arch.
Lemma R_dsubu inst s t : R s t -> R (_dsubu inst s) (_dsubu inst t).
Proof. rel_of _dsubu. Qed.
#[local] Hint Resolve R_dsubu : arch.
Lemma R_dsllv inst s t : R s t -> R (_dsllv inst s) (_dsllv inst t).
Proof. rel_of _dsllv. Qed.
#[local] Hint Resolve R_dsllv : arch.
Lemma R_dsrlv inst s t : R s t -> R (_dsrlv inst s) (_dsrlv inst t).
Proof. rel_of _dsrlv. Qed.
#[local] Hint Resolve R_dsrlv : arch.
Lemma R_dsrav inst s t : R s t -> R (_dsrav inst s) (_dsrav inst t).
Proof. rel_of _dsrav. Qed.
#[local] Hint Resolve R_dsrav : arch.
Lemma R_dsll inst s t : R s t -> R (_dsll inst s) (_dsll inst t).
Proof. rel_of _dsll. Qed.
#[local] Hint Resolve R_dsll : arch.
Lemma R_dsrl inst s t : R s t -> R (_dsrl inst s) (_dsrl inst t).
Proof. rel_of _dsrl. Qed.
#[local] Hint Resolve R_dsrl : arch.
Lemma R_dsra inst s t : R s t -> R (_dsra inst s) (_dsra inst t).
Proof. rel_of _dsra. Qed.
#[local] Hint Resolve R_dsra : arch.
Lemma R_dsll32 inst s t : R s t -> R (_dsll32 inst s) (_dsll32 inst t).
Proof. rel_of _dsll32. Qed.
#[local] Hint Resolve R_dsll32 : arch.
Lemma R_dsrl32 inst s t : R s t -> R (_dsrl32 inst s) (_dsrl32 inst t).
Proof. rel_of _dsrl32. Qed.
#[local] Hint Resolve R_dsrl32 : arch.
Lemma R_dsra32 inst s t : R s t -> R (_dsra32 inst s) (_dsra32 inst t).
Proof. rel_of _dsra32. Qed.
#[local] Hint Resolve R_dsra32 : arch.
Lemma R_addi inst s t : R s t -> R (_addi inst s) (_addi inst t).
Proof. rel_of _addi. Qed.
#[local] Hint Resolve R_addi : arch.
Lemma R_addiu inst s t : R s t -> R (_addiu inst s) (_addiu inst t).
Proof. rel_of _addiu. Qed.
#[local] Hint Resolve R_addiu : arch.
Lemma R_slti inst s t : R s t -> R (_slti inst s) (_slti inst t).
Proof. rel_of _slti. Qed.
#[local] Hint Resolve R_slti : arch.
Lemma R_sltiu inst s t : R s t -> R (_sltiu inst s) (_sltiu inst t).
Proof. rel_of _sltiu. Qed.
#[local] Hint Resolve R_sltiu : arch.
Lemma R_andi inst s t : R s t -> R (_andi inst s) (_andi inst t).
Proof. rel_of _andi. Qed.
#[local] Hint Resolve R_andi : arch.
Lemma R_ori inst s t : R s t -> R (_ori inst s) (_ori inst t).
Proof. rel_of _ori. Qed.
#[local] Hint Resolve R_ori : arch.
Lemma R_xori inst s t : R s t -> R (_xori inst s) (_xori inst t).
Proof. rel_of _xori. Qed.
#[local] Hint Resolve R_xori : arch.
Lemma R_lui inst s t : R s t -> R (_lui inst s) (_lui inst t).
Proof. rel_of _lui. Qed.
#[local] Hint Resolve R_lui : arch.
Lemma R_daddi inst s t : R s t -> R (_daddi inst s) (_daddi inst t).
Proof. rel_of _daddi. Qed.
#[local] Hint Resolve R_daddi : arch.
Lemma R_daddiu inst s t : R s t -> R (_daddiu inst s) (_daddiu inst t).
Proof. rel_of _daddiu. Qed.
#[local] Hint Resolve R_daddiu : arch.
Lemma R_movci inst s t : R s t -> R (_movci inst s) (_movci inst t).
Proof. rel_of _movci. Qed.
#[local] Hint Resolve R_movci : arch.
Lemma R_movn inst s t : R s t -> R (_movn inst s) (_movn inst t).
Proof. rel_of _movn. Qed.
#[local] Hint Resolve R_movn : arch.
Lemma R_movz inst s t : R s t -> R (_movz inst s) (_movz inst t).
Proof. rel_of _movz. Qed.
#[local] Hint Resolve R_movz : arch.
Lemma rel_divu inst s t : R s t -> rel R (_divu inst s) (_divu inst t).
Proof. rel_of _divu. Qed.
Lemma R_mips4_gate inst k s t :
  (forall s t, R s t -> R (k s) (k t)) -> R s t -> R (mips4_gate inst k s) (mips4_gate inst k t).
Proof. intros Hk HR. unfold mips4_gate. destruct (_ && _); [by apply R_raise_ri|auto]. Qed.
Lemma R_write_T T r v s t : R s t -> R (write_T T r v s) (write_T T r v t).
Proof. rel_of write_T. Qed.
#[local] Hint Resolve R_write_T : arch.
Lemma R_set_fp_state T r s t : R s t -> R (set_fp_state T r s) (set_fp_state T r t).
Proof. rel_of set_fp_state. Qed.
#[local] Hint Resolve R_set_fp_state : arch.
Lemma R_mtc1 inst s t : R s t -> R (_mtc1 inst s) (_mtc1 inst t).
Proof. rel_of _mtc1. Qed.
#[local] Hint Resolve R_mtc1 : arch.
Lemma R_mfc1 inst s t : R s t -> R (_mfc1 inst s) (_mfc1 inst t).
Proof. rel_of _mfc1. Qed.
#[local] Hint Resolve R_mfc1 : arch.
Lemma R_dmtc1 inst s t : R s t -> R (_dmtc1 inst s) (_dmtc1 inst t).
Proof. rel_of _dmtc1. Qed.
#[local] Hint Resolve R_dmtc1 : arch.
Lemma R_dmfc1 inst s t : R s t -> R (_dmfc1 inst s) (_dmfc1 inst t).
Proof. rel_of _dmfc1. Qed.
#[local] Hint Resolve R_dmfc1 : arch.
Lemma R_cfc1 inst s t : R s t -> R (_cfc1 inst s) (_cfc1 inst t).
Proof. rel_of _cfc1. Qed.
#[local] Hint Resolve R_cfc1 : arch.
Lemma R_ctc1 inst s t : R s t -> R (_ctc1 inst s) (_ctc1 inst t).
Proof. rel_of _ctc1. Qed.
#[local] Hint Resolve R_ctc1 : arch.
Lemma R_movnd inst s t : R s t -> R (_movnd inst s) (_movnd inst t).
Proof. rel_of _movnd. Qed.
#[local] Hint Resolve R_movnd : arch.
Lemma R_movns inst s t : R s t -> R (_movns inst s) (_movns inst t).
Proof. apply R_movnd. Qed.
#[local] Hint Resolve R_movns : arch.
Lemma R_movzd inst s t : R s t -> R (_movzd inst s) (_movzd inst t).
Proof. rel_of _movzd. Qed.
#[local] Hint Resolve R_movzd : arch.
Lemma R_movzs inst s t : R s t -> R (_movzs inst s) (_movzs inst t).
Proof. apply R_movzd. Qed.
#[local] Hint Resolve R_movzs : arch.
Lemma R_movcd inst s t : R s t -> R (_movcd inst s) (_movcd inst t).
Proof. rel_of _movcd. Qed.
#[local] Hint Resolve R_movcd : arch.
Lemma R_movcs inst s t : R s t -> R (_movcs inst s) (_movcs inst t).
Proof. rel_of _movcs. Qed.
#[local] Hint Resolve R_movcs : arch.
Lemma rel_by_fmt inst f g s t :
  (forall s t, R s t -> R (f s) (f t)) -> (forall s t, R s t -> R (g s) (g t)) ->
  R s t -> rel R (by_fmt inst f g s) (by_fmt inst f g t).
Proof. intros. unfold by_fmt. repeat case_match; cbn; auto. Qed.
Lemma rel_fmovn inst s t : R s t -> rel R (_fmovn inst s) (_fmovn inst t).
Proof. intros. unfold _fmovn. by apply rel_by_fmt; [apply R_movns|apply R_movnd|]. Qed.
#[local] Hint Resolve rel_fmovn : arch.
Lemma rel_fmovz inst s t : R s t -> rel R (_fmovz inst s) (_fmovz inst t).
Proof. intros. unfold _fmovz. by apply rel_by_fmt; [apply R_movzs|apply R_movzd|]. Qed.
#[local] Hint Resolve rel_fmovz : arch.
Lemma rel_fmovc inst s t : R s t -> rel R (_fmovc inst s) (_fmovc inst t).
Proof. intros. unfold _fmovc. by apply rel_by_fmt; [apply R_movcs|apply R_movcd|]. Qed.
#[local] Hint Resolve rel_fmovc : arch.
Lemma rel_execFP T op inst s t : R s t -> rel R (execFP T op inst s) (execFP T op inst t).
Proof. rel_ls execFP. Qed.
#[local] Hint Resolve rel_execFP : arch.
Lemma rel_do_fp_op op inst s t : R s t -> rel R (do_fp_op op inst s) (do_fp_op op inst t).
Proof. rel_ls do_fp_op. Qed.
#[local] Hint Resolve rel_do_fp_op : arch.
Lemma R_fpCmp T inst s t : R s t -> R (fpCmp T inst s) (fpCmp T inst t).
Proof. rel_of fpCmp. Qed.
#[local] Hint Resolve R_fpCmp : arch.
Lemma rel_c inst s t : R s t -> rel R (_c inst s) (_c inst t).
Proof. intros. unfold _c. by apply rel_by_fmt; [apply R_fpCmp..|]. Qed.
#[local] Hint Resolve rel_c : arch.
Lemma rel_truncw inst s t : R s t -> rel R (_truncw inst s) (_truncw inst t).
Proof. rel_ls _truncw. Qed.
#[local] Hint Resolve rel_truncw : arch.
Lemma R_cvtw_rm inst rm s t : R s t -> R (_cvtw_rm inst rm s) (_cvtw_rm inst rm t).
Proof. rel_of _cvtw_rm. Qed.
#[local] Hint Resolve R_cvtw_rm : arch.
Lemma R_cvtl_rm inst rm s t : R s t -> R (_cvtl_rm inst rm s) (_cvtl_rm inst rm t).
Proof. rel_of _cvtl_rm. Qed.
#[local] Hint Resolve R_cvtl_rm : arch.
Lemma rel_cvts inst s t : R s t -> rel R (_cvts inst s) (_cvts inst t).
Proof. rel_ls _cvts. Qed.
#[local] Hint Resolve rel_cvts : arch.
Lemma rel_cvtd inst s t : R s t -> rel R (_cvtd inst s) (_cvtd inst t).
Proof. rel_ls _cvtd. Qed.
#[local] Hint Resolve rel_cvtd : arch.
Lemma R_c1x_madd T inst s t : R s t -> R (c1x_madd T inst s) (c1x_madd T inst t).
Proof. rel_of c1x_madd. Qed.
#[local] Hint Resolve R_c1x_madd : arch.
Lemma R_c1x_arith inst s t : R s t -> R (c1x_arith inst s) (c1x_arith inst t).
Proof. rel_of c1x_arith. Qed.
#[local] Hint Resolve R_c1x_arith : arch.
Lemma rel_execCoproc1x inst s t : R s t -> rel R (execCoproc1x EL inst s) (execCoproc1x EL inst t).
Proof. rel_ls execCoproc1x. Qed.
#[local] Hint Resolve rel_execCoproc1x : arch.
Lemma R_exec_cop1_move inst s t : R s t -> R (exec_cop1_move inst s) (exec_cop1_move inst t).
Proof. rel_of exec_cop1_move. Qed.
#[local] Hint Resolve R_exec_cop1_move : arch.
Lemma rel_exec_cop1_op inst s t : R s t -> rel R (exec_cop1_op inst s) (exec_cop1_op inst t).
Proof. rel_ls exec_cop1_op. Qed.
#[local] Hint Resolve rel_exec_cop1_op : arch.
Lemma R_eret s t : R s t -> R (eret s) (eret t).
Proof. rel_of eret. Qed.
#[local] Hint Resolve R_eret : arch.
Lemma rel_wait s t : R s t -> rel R (wait s) (wait t).
Proof. rel_ls wait. Qed.
#[local] Hint Resolve rel_wait : arch.
Lemma R_di inst s t : R s t -> R (_di inst s) (_di inst t).
Proof. rel_of _di. Qed.
#[local] Hint Resolve R_di : arch.
Lemma R_ei inst s t : R s t -> R (_ei inst s) (_ei inst t).
Proof. rel_of _ei. Qed.
#[local] Hint Resolve R_ei : arch.
Lemma R_putchar_port inst s t : R s t -> R (putchar_port inst s) (putchar_port inst t).
Proof. rel_of putchar_port. Qed.
#[local] Hint Resolve R_putchar_port : arch.
Lemma R_mfc0 inst s t : R s t -> R (_mfc0 inst s) (_mfc0 inst t).
Proof. rel_of _mfc0. Qed.
#[local] Hint Resolve R_mfc0 : arch.
Lemma R_dmfc0 inst s t : R s t -> R (_dmfc0 inst s) (_dmfc0 inst t).
Proof. rel_of _dmfc0. Qed.
#[local] Hint Resolve R_dmfc0 : arch.
Lemma R_mtc0 inst s t : R s t -> R (_mtc0 inst s) (_mtc0 inst t).
Proof. rel_of _mtc0. Qed.
#[local] Hint Resolve R_mtc0 : arch.
Lemma R_dmtc0 inst s t : R s t -> R (_dmtc0 inst s) (_dmtc0 inst t).
Proof. rel_of _dmtc0. Qed.
#[local] Hint Resolve R_dmtc0 : arch.
Lemma rel_exec_cop0_co inst s t : R s t -> rel R (exec_cop0_co inst s) (exec_cop0_co inst t).
Proof. rel_ls exec_cop0_co. Qed.
#[local] Hint Resolve rel_exec_cop0_co : arch.
Lemma rel_exec_cop0_move inst s t : R s t -> rel R (exec_cop0_move inst s) (exec_cop0_move inst t).
Proof. rel_ls exec_cop0_move. Qed.
#[local] Hint Resolve rel_exec_cop0_move : arch.
Lemma rel_execCoproc0 inst s t : R s t -> rel R (execCoproc0 inst s) (execCoproc0 inst t).
Proof. rel_ls execCoproc0. Qed.
#[local] Hint Resolve rel_execCoproc0 : arch.
Lemma R_break_link inst s t : R s t -> R (break_link inst s) (break_link inst t).
Proof. rel_of break_link. Qed.
#[local] Hint Resolve R_break_link : arch.
Lemma R_log_store inst s t : R s t -> R (log_store inst s) (log_store inst t).
Proof. rel_of log_store. Qed.
#[local] Hint Resolve R_log_store : arch.
Lemma rel_exec_ll inst s t : R s t -> rel R (exec_ll EL inst s) (exec_ll EL inst t).
Proof. rel_ls exec_ll. Qed.
#[local] Hint Resolve rel_exec_ll : arch.
Lemma rel_exec_sc inst s t : R s t -> rel R (exec_sc EL inst s) (exec_sc EL inst t).
Proof. rel_ls exec_sc. Qed.
#[local] Hint Resolve rel_exec_sc : arch.
End handlers.
#[export] Hint Resolve rel_divu R_write_fpr_word rel_lw rel_lh rel_lb rel_lbu rel_lhu rel_lwu rel_ld
  rel_lld rel_sw rel_sd rel_sh rel_sb rel_sc rel_scd rel_swl rel_swr rel_lwl rel_lwr rel_ldl
  rel_ldr rel_sdl rel_sdr rel_ldc1 rel_sdc1 rel_lwc1 rel_swc1 rel_cache R_ret_rd R_ret_rt
  R_ret_hilo R_next R_trap_if R_sll R_srl R_sra R_sllv R_srlv R_srav R_syscall_break R_mfhi
  R_mthi R_mflo R_mtlo R_mult R_multu R_div R_dmult R_dmultu R_ddiv R_ddivu R_add R_addu R_sub
  R_subu R_and R_or R_xor R_nor R_slt R_sltu R_tge R_tgeu R_tlt R_tltu R_teq R_tne R_dadd
  R_daddu R_dsub R_dsubu R_dsllv R_dsrlv R_dsrav R_dsll R_dsrl R_dsra R_dsll32 R_dsrl32 R_dsra32
  R_addi R_addiu R_slti R_sltiu R_andi R_ori R_xori R_lui R_daddi R_daddiu R_movci R_movn R_movz
  R_mips4_gate R_write_T R_set_fp_state R_mtc1 R_mfc1 R_dmtc1 R_dmfc1 R_cfc1 R_ctc1 R_movnd
  R_movns R_movzd R_movzs R_movcd R_movcs rel_fmovn rel_fmovz rel_fmovc rel_execFP rel_do_fp_op
  R_fpCmp rel_c rel_truncw R_cvtw_rm R_cvtl_rm rel_cvts rel_cvtd R_c1x_madd R_c1x_arith
  rel_execCoproc1x R_exec_cop1_move rel_exec_cop1_op R_eret rel_wait R_di R_ei R_putchar_port
  R_mfc0 R_dmfc0 R_mtc0 R_dmtc0 rel_exec_cop0_co rel_exec_cop0_move rel_execCoproc0 R_break_link
  R_log_store rel_exec_ll rel_exec_sc : arch.

Section steps.
Context `{Config, HostFP}.
Variable EL : bool.
Implicit Types (s t : state) (inst : Z).

Section dispatch.
Variable step : state -> result state.
Hypothesis rel_step : forall s t, R s t -> rel R (step s) (step t).

Definition same_outcome (p q : bool * state) : Prop := p.1 = q.1 /\ R p.2 q.2.
Lemma rel_run_delay_slot s t :
  R s t -> rel same_outcome (run_delay_slot step s) (run_delay_slot step t).
Proof.
  intros HR. unfold run_delay_slot. eapply rel_bind; [by apply rel_step, R_set_in_delay_slot|].
  intros s' t' HR'. cbn [rel]. R_open HR. R_open HR'. split; [done|].
  autorewrite with over. by apply R_set_in_delay_slot, R_over.
Qed.
Lemma rel_delayed s t (k k' : bool -> state -> state) :
  R s t -> (forall b s t, R s t -> R (k b s) (k' b t)) ->
  rel R (let! (d, s) := run_delay_slot step s in Ok (k d s))
        (let! (d, t) := run_delay_slot step t in Ok (k' d t)).
Proof.
  intros HR Hk. eapply rel_bind; [by apply rel_run_delay_slot|].
  intros [d s'] [d' t'] [Hd HR']. cbn in *. subst d'. by apply Hk.
Qed.
Lemma rel_branch bt inst s t : R s t -> rel R (branch step bt inst s) (branch step bt inst t).
Proof.
  intros HR. R_open HR. cbv delta [branch]; cbv beta zeta. autorewrite with over.
  destruct (isLikely bt).
  - destruct (takeBranch bt inst s); [apply rel_delayed|]; rel_auto.
  - apply rel_delayed; rel_auto.
Qed.
Lemma R_trap_imm_if b i s t : R s t -> R (trap_imm_if b i s) (trap_imm_if b i t).
Proof. rel_of trap_imm_if. Qed.
#[local] Hint Resolve rel_branch R_trap_imm_if : arch.
Lemma R_trap_imm inst s t : R s t -> R (trap_imm inst s) (trap_imm inst t).
Proof. rel_of trap_imm. Qed.
#[local] Hint Resolve R_trap_imm : arch.
Lemma rel_bgez_bltz inst s t : R s t -> rel R (_bgez_bltz step inst s) (_bgez_bltz step inst t).
Proof. rel_of _bgez_bltz. Qed.
Lemma rel_exec_bc1 inst s t : R s t -> rel R (exec_bc1 step inst s) (exec_bc1 step inst t).
Proof. rel_of exec_bc1. Qed.
Lemma rel_jump_to a s t : R s t -> rel R (jump_to step a s) (jump_to step a t).
Proof. intros. unfold jump_to. apply rel_delayed; rel_auto. Qed.
#[local] Hint Resolve rel_jump_to : arch.
Lemma rel_jr inst s t : R s t -> rel R (_jr step inst s) (_jr step inst t).
Proof. rel_of _jr. Qed.
Lemma rel_jalr inst s t : R s t -> rel R (_jalr step inst s) (_jalr step inst t).
Proof. rel_of _jalr. Qed.
Lemma rel_exec_jtype inst s t : R s t -> rel R (exec_jtype step inst s) (exec_jtype step inst t).
Proof. rel_of exec_jtype. Qed.
#[local] Hint Resolve rel_bgez_bltz rel_exec_bc1 rel_jr rel_jalr rel_exec_jtype : arch.

Lemma rel_exec_rtype inst s t : R s t -> rel R (exec_rtype step inst s) (exec_rtype step inst t).
Proof.
  intros HR. unfold exec_rtype. rel_auto.
Qed.
Lemma rel_execCoproc1 inst s t : R s t -> rel R (execCoproc1 step inst s) (execCoproc1 step inst t).
Proof. rel_of execCoproc1. Qed.
Lemma rel_exec_itype inst s t :
  R s t -> rel R (exec_itype EL step inst s) (exec_itype EL step inst t).
Proof.
  intros HR. unfold exec_itype. rel_auto.
Qed.
#[local] Hint Resolve rel_exec_rtype rel_execCoproc1 rel_exec_itype : arch.
Lemma rel_dispatch inst s t : R s t -> rel R (dispatch EL step inst s) (dispatch EL step inst t).
Proof. rel_of dispatch. Qed.
#[local] Hint Resolve rel_dispatch : arch.
Lemma rel_exec_inst inst s t :
  R s t -> rel R (exec_inst EL step inst s) (exec_inst EL step inst t).
Proof. rel_of exec_inst. Qed.
Lemma rel_execMips_body s t : R s t -> rel R (execMips_body EL step s) (execMips_body EL step t).
Proof.
  intros HR. unfold execMips_body.
  assert (R (s |> set_gpr_at 0 0 |> set_tlb_fault false)
            (t |> set_gpr_at 0 0 |> set_tlb_fault false)) as HR1 by auto with arch.
  change (rel R (translated (pc s) op_fetch (fun ipa s =>
      let! w := get 4 ipa s in exec_inst EL step (bswap EL 4 w) s)
      (s |> set_gpr_at 0 0 |> set_tlb_fault false))
    (translated (pc t) op_fetch (fun ipa t =>
      let! w := get 4 ipa t in exec_inst EL step (bswap EL 4 w) t)
      (t |> set_gpr_at 0 0 |> set_tlb_fault false))).
  assert (pc t = pc s) as -> by (R_open HR; done).
  apply rel_translated; [done|]. intros ea s' t' HR'.
  assert (get 4 ea t' = get 4 ea s') as -> by (R_open HR'; done).
  destruct (get 4 ea s'); [|done]. by apply rel_exec_inst.
Qed.
End dispatch.

Lemma rel_execMips_fuel n s t : R s t -> rel R (execMips_fuel EL n s) (execMips_fuel EL n t).
Proof.
  revert s t; induction n as [|n IH]; intros s t HR; cbn [execMips_fuel]; [done|].
  by apply rel_execMips_body.
Qed.
End steps.
