(* ===== verification/ExcProps.v ===== *)
(** What an exception entry does to the machine, nested entries, and the return
    by ERET ([src/interpret.cc]: [set_exc_pc], the [raise_*] and
    [take_exception_*] helpers, and the ERET case of [execMips]). *)
From S2P Require Import Prelude Bits Insns State Mem Wf Exc Tlb LoadStore Alu Cp0.

(** The exceptions that enter the general vector from an instruction, with their
    ExcCode: address errors, SYSCALL and BREAK in OS mode, reserved instruction,
    coprocessor unusable, overflow, trap, floating point.  (The TLB exceptions choose
    their vector, see [TlbProps]; the interrupt is [interrupted] below.) *)
Inductive general_exception (s : state) : (state -> state) -> Z -> Prop :=
  | exc_adel : general_exception s raise_adel 4
  | exc_ades : general_exception s raise_ades 5
  | exc_syscall inst : g_iss_os_mode s = true -> inst .& 63 = 0x0c -> general_exception s (_syscall_break inst) 8
  | exc_break inst : g_iss_os_mode s = true -> inst .& 63 = 0x0d -> general_exception s (_syscall_break inst) 9
  | exc_ri : general_exception s take_exception_ri 10
  | exc_raise_ri inst : general_exception s (raise_ri inst) 10
  | exc_cpu : general_exception s (take_exception_cpu 1) 11
  | exc_overflow : general_exception s raise_overflow 12
  | exc_trap : general_exception s raise_trap 13
  | exc_fpe : general_exception s take_exception_fpe 15.

Definition Cause_BD (s : state) : bool := Z.testbit (cpr0 s).[CPR0_CAUSE] 31.
Definition Cause_ExcCode (s : state) : Z := ((cpr0 s).[CPR0_CAUSE] >> 2) .& 0x1f.
(** The vector as the program counter holds it. *)
Definition general_vector (s : state) : Z :=
  if sr_bit s SR_BEV then 0xBFC00380 - 2 ^ 32 else 0x80000180 - 2 ^ 32.

(** [t] is [s] after entering an exception with code [code] at [vec]. *)
Record entered (vec code : Z) (s t : state) : Prop := {
  ent_pc : pc t = vec;
  ent_code : Cause_ExcCode t = code;
  ent_sr : (cpr0 t).[CPR0_SR] = ((cpr0 s).[CPR0_SR] .& .~ SR_ERL) .| SR_EXL;
  ent_exl : sr_bit t SR_EXL = true;
  ent_erl : sr_bit t SR_ERL = false;
  ent_link : ll_link_valid t = false;
  ent_gpr : gpr t = gpr s;
  ent_mem : mem t = mem s;
  ent_tlb : tlb t = tlb s;
  ent_epc : sr_bit s SR_EXL = false ->
    (cpr0_64 t).[CPR0_EPC] = u64 (if in_delay_slot s then pc s - 4 else pc s) /\
    (cpr0 t).[CPR0_EPC] = u32 (if in_delay_slot s then pc s - 4 else pc s) /\
    Cause_BD t = in_delay_slot s;
  ent_nested : sr_bit s SR_EXL = true ->
    (cpr0_64 t).[CPR0_EPC] = (cpr0_64 s).[CPR0_EPC] /\
    (cpr0 t).[CPR0_EPC] = (cpr0 s).[CPR0_EPC] /\ Cause_BD t = Cause_BD s;
}.
(** [t] is [s] after an interrupt that the core took at [epc] with pending bits [ip]:
    the pc to return to is the core's, whatever EXL was. *)
Record interrupted (epc ip : Z) (s t : state) : Prop := {
  int_pc : pc t = general_vector s;
  int_code : Cause_ExcCode t = 0;
  int_bd : Cause_BD t = false;
  int_ip : ((cpr0 t).[CPR0_CAUSE] >> 8) .& 0xff = ip .& 0xff;
  int_epc64 : (cpr0_64 t).[CPR0_EPC] = epc;
  int_epc : (cpr0 t).[CPR0_EPC] = u32 epc;
  int_sr : (cpr0 t).[CPR0_SR] = ((cpr0 s).[CPR0_SR] .& .~ SR_ERL) .| SR_EXL;
  int_exl : sr_bit t SR_EXL = true;
  int_erl : sr_bit t SR_ERL = false;
  int_link : ll_link_valid t = false;
  int_gpr : gpr t = gpr s;
  int_mem : mem t = mem s;
  int_tlb : tlb t = tlb s;
}.

(** * Theorems *)

(** ** Single bits of a word *)
Lemma land_bit x n : 0 <= n -> (x .& (1 << n) =/? 0) = Z.testbit x n.
Proof.
  intros Hn. rewrite Z.shiftl_1_l. destruct (Z.testbit x n) eqn:Hb.
  - apply negb_true_iff, Z.eqb_neq. intros H0. apply (f_equal (fun z => Z.testbit z n)) in H0.
    rewrite Z.land_spec, Hb, Z.pow2_bits_true, Z.bits_0 in H0 by done. done.
  - apply negb_false_iff, Z.eqb_eq. apply Z.bits_inj'. intros i Hi.
    rewrite Z.land_spec, Z.bits_0. destruct (decide (i = n)) as [->|]; [by rewrite Hb|].
    rewrite Z.pow2_bits_false by done. apply andb_false_r.
Qed.
Lemma sr_bit_testbit s n : 0 <= n -> sr_bit s (1 << n) = Z.testbit (cpr0 s).[CPR0_SR] n.
Proof. apply land_bit. Qed.
Lemma sr_exl s : sr_bit s SR_EXL = Z.testbit (cpr0 s).[CPR0_SR] 1.
Proof. by apply (sr_bit_testbit s 1). Qed.
Lemma sr_erl s : sr_bit s SR_ERL = Z.testbit (cpr0 s).[CPR0_SR] 2.
Proof. by apply (sr_bit_testbit s 2). Qed.
Lemma sr_bev s : sr_bit s SR_BEV = Z.testbit (cpr0 s).[CPR0_SR] 22.
Proof. by apply (sr_bit_testbit s 22). Qed.
(** The status word after an entry, bit by bit. *)
Lemma exl_word_bits x i :
  0 <= i -> Z.testbit ((x .& .~ SR_ERL) .| SR_EXL) i =
            if i =? 1 then true else if i =? 2 then false else Z.testbit x i.
Proof.
  intros Hi. unfold SR_ERL, SR_EXL. rewrite Z.lor_spec, Z.land_spec, Z.lnot_spec by done.
  rewrite !Z.shiftl_1_l, !Z.pow2_bits_eqb by done.
  destruct (Z.eqb_spec i 1) as [->|]; [by rewrite orb_true_r|].
  rewrite (proj2 (Z.eqb_neq 1 i)) by lia. destruct (Z.eqb_spec i 2) as [->|].
  - by rewrite andb_false_r.
  - rewrite (proj2 (Z.eqb_neq 2 i)) by lia. by rewrite andb_true_r, orb_false_r.
Qed.
(** The Cause word after the ExcCode update. *)
Lemma exccode_word_bits x code i :
  in_u 5 code -> 0 <= i ->
  Z.testbit ((x .& .~ (0x1f << 2)) .| (code << 2)) i =
  if (2 <=? i) && (i <? 7) then Z.testbit code (i - 2) else Z.testbit x i.
Proof.
  intros Hc Hi. rewrite Z.lor_spec, Z.land_spec, Z.lnot_spec by done. change 0x1f with (Z.ones 5).
  destruct (Z.leb_spec 2 i); cbn [andb].
  - rewrite !Z.shiftl_spec by done. destruct (Z.ltb_spec i 7).
    + rewrite Z.ones_spec_low by lia. by rewrite andb_false_r.
    + rewrite Z.ones_spec_high, (in_u_testbit 5 code) by (done || lia). by rewrite andb_true_r, orb_false_r.
  - rewrite !Z.shiftl_spec_low by lia. by rewrite andb_true_r, orb_false_r.
Qed.
Lemma exccode_field x code : in_u 5 code -> ((x .& .~ (0x1f << 2)) .| (code << 2)) >> 2 .& 0x1f = code.
Proof.
  intros Hc. apply Z.bits_inj'. intros i Hi. rewrite Z.land_spec, Z.shiftr_spec by done.
  rewrite exccode_word_bits by (done || lia). change 0x1f with (Z.ones 5).
  destruct (decide (i < 5)).
  - rewrite Z.ones_spec_low by lia. destruct (Z.leb_spec 2 (i + 2)), (Z.ltb_spec (i + 2) 7); try lia.
    cbn [andb]. rewrite andb_true_r. f_equal; lia.
  - rewrite Z.ones_spec_high, andb_false_r by lia. symmetry. apply (in_u_testbit 5); [done|done|lia].
Qed.
Lemma exccode_bd x code : in_u 5 code -> Z.testbit ((x .& .~ (0x1f << 2)) .| (code << 2)) 31 = Z.testbit x 31.
Proof. intros. by rewrite exccode_word_bits. Qed.
(** The Cause word of a coprocessor-unusable exception. *)
Ltac lit_bits :=
  repeat match goal with
  | |- context [Z.testbit ?c ?i] => ground c; ground i;
      let v := eval vm_compute in (Z.testbit c i) in change (Z.testbit c i) with v
  end.
Lemma cpu_word_field x :
  ((((x .& .~ (0x1f << 2)) .& .~ (0x3 << 28)) .| (11 << 2)) .| ((1 .& 0x3) << 28)) >> 2 .& 0x1f = 11.
Proof.
  apply Z.bits_inj'. intros i Hi. rewrite Z.land_spec, Z.shiftr_spec by done.
  destruct (decide (i < 5)).
  - assert (i = 0 \/ i = 1 \/ i = 2 \/ i = 3 \/ i = 4) as Hcases by lia.
    destruct_or!; subst i; rewrite !Z.lor_spec, !Z.land_spec, !Z.lnot_spec by done; lit_bits;
      by rewrite ?andb_false_r.
  - change 0x1f with (Z.ones 5). rewrite Z.ones_spec_high, andb_false_r by lia.
    symmetry. apply (in_u_testbit 4); [done|done|lia].
Qed.
Lemma cpu_word_bd x :
  Z.testbit ((((x .& .~ (0x1f << 2)) .& .~ (0x3 << 28)) .| (11 << 2)) .| ((1 .& 0x3) << 28)) 31 = Z.testbit x 31.
Proof.
  rewrite !Z.lor_spec, !Z.land_spec, !Z.lnot_spec by done. lit_bits.
  by rewrite !andb_true_r, !orb_false_r.
Qed.

(** ** Entry *)
Section entry.
Implicit Types (s t : state).

Lemma bev_enter s c : sr_bit (set_cpr0_at CPR0_CAUSE c s) SR_BEV = sr_bit s SR_BEV.
Proof. unfold sr_bit. rd_simpl. done. Qed.
(** [set_exc_pc] leaves Status alone and records where to return. *)
Lemma set_exc_pc_sr s n : sr_bit (set_exc_pc s) n = sr_bit s n.
Proof. unfold set_exc_pc. repeat case_match; unfold sr_bit; rd_simpl; done. Qed.
Lemma set_exc_pc_cpr0_sr s : (cpr0 (set_exc_pc s)).[CPR0_SR] = (cpr0 s).[CPR0_SR].
Proof. unfold set_exc_pc. repeat case_match; rd_simpl; done. Qed.
Lemma set_exc_pc_frame s :
  ll_link_valid (set_exc_pc s) = false /\ gpr (set_exc_pc s) = gpr s /\
  mem (set_exc_pc s) = mem s /\ tlb (set_exc_pc s) = tlb s.
Proof. unfold set_exc_pc. by repeat case_match. Qed.
Lemma set_exc_pc_epc s :
  sr_bit s SR_EXL = false ->
  (cpr0_64 (set_exc_pc s)).[CPR0_EPC] = u64 (if in_delay_slot s then pc s - 4 else pc s) /\
  (cpr0 (set_exc_pc s)).[CPR0_EPC] = u32 (if in_delay_slot s then pc s - 4 else pc s) /\
  Z.testbit (cpr0 (set_exc_pc s)).[CPR0_CAUSE] 31 = in_delay_slot s.
Proof.
  intros He. unfold set_exc_pc. change (sr_bit (set_ll_link_valid false s) SR_EXL) with (sr_bit s SR_EXL).
  rewrite He. change (in_delay_slot (set_ll_link_valid false s)) with (in_delay_slot s).
  destruct (in_delay_slot s); rd_simpl.
  - split; [by rewrite wrapu_narrow_s|]. split; [done|]. rewrite Z.lor_spec. lit_bits. apply orb_true_r.
  - split; [done|]. split; [done|]. rewrite Z.land_spec, Z.lnot_spec by done. lit_bits. apply andb_false_r.
Qed.
Lemma set_exc_pc_nested s : sr_bit s SR_EXL = true -> set_exc_pc s = set_ll_link_valid false s.
Proof.
  intros He. unfold set_exc_pc. change (sr_bit (set_ll_link_valid false s) SR_EXL) with (sr_bit s SR_EXL).
  by rewrite He.
Qed.

(** Every entry is [set_exc_pc], a Cause word that keeps BD, and the jump. *)
Lemma entered_intro vec code c s :
  let t := set_exc_pc s in
  (c >> 2 .& 0x1f = code) -> Z.testbit c 31 = Z.testbit (cpr0 t).[CPR0_CAUSE] 31 ->
  entered vec code s (set_pc vec (enter_exl (set_cpr0_at CPR0_CAUSE c t))).
Proof.
  intros t Hcode Hbd. pose proof (set_exc_pc_frame s) as (Hl & Hg & Hm & Ht).
  constructor; try done; unfold enter_exl, Cause_ExcCode, Cause_BD.
  - rd_simpl. done.
  - rd_simpl. subst t. by rewrite set_exc_pc_cpr0_sr.
  - rewrite sr_exl. rd_simpl. by rewrite exl_word_bits.
  - rewrite sr_erl. rd_simpl. by rewrite exl_word_bits.
  - intros He. rd_simpl. rewrite Hbd. by apply set_exc_pc_epc.
  - intros He. rd_simpl. rewrite Hbd. subst t. by rewrite set_exc_pc_nested by done.
Qed.
Lemma bev_entered c s :
  sr_bit (enter_exl (set_cpr0_at CPR0_CAUSE c (set_exc_pc s))) SR_BEV = sr_bit s SR_BEV.
Proof.
  unfold enter_exl. rewrite !sr_bev. rd_simpl. rewrite exl_word_bits by done. cbn [Z.eqb Pos.eqb].
  by rewrite set_exc_pc_cpr0_sr.
Qed.
Lemma entered_goto code c s :
  (c >> 2 .& 0x1f = code) -> Z.testbit c 31 = Z.testbit (cpr0 (set_exc_pc s)).[CPR0_CAUSE] 31 ->
  entered (general_vector s) code s (goto_general (enter_exl (set_cpr0_at CPR0_CAUSE c (set_exc_pc s)))).
Proof.
  intros. unfold goto_general, exc_vector_general. rewrite bev_entered.
  replace (sext32 _) with (general_vector s) by (unfold general_vector; by destruct (sr_bit s _)).
  by apply entered_intro.
Qed.
Lemma entered_general code s :
  in_u 5 code ->
  entered (general_vector s) code s (s |> set_exc_pc |> set_exccode code |> enter_exl |> goto_general).
Proof. intros. apply entered_goto; [by apply exccode_field | by apply exccode_bd]. Qed.
Lemma entered_fcr1 vec code s t i v : entered vec code s t -> entered vec code s (set_fcr1_at i v t).
Proof. by intros []. Qed.
Lemma entered_cpu s : entered (general_vector s) 11 s (take_exception_cpu 1 s).
Proof. apply entered_goto; [apply cpu_word_field | apply cpu_word_bd]. Qed.
Lemma entered_fpe s : entered (general_vector s) 15 s (take_exception_fpe s).
Proof.
  change (take_exception_fpe s) with
    (set_fcr1_at CP1_CR31 ((fcr1 (s |> set_exc_pc |> set_exccode 15 |> enter_exl)).[CP1_CR31] .| (1 << 17))
       (s |> set_exc_pc |> set_exccode 15 |> enter_exl |> goto_general)).
  by apply entered_fcr1, entered_general.
Qed.
Lemma entered_histo vec code s t i : entered vec code s t -> entered vec code s (histo i t).
Proof. by intros []. Qed.
Lemma entered_emit vec code s t e : entered vec code (emit e s) t -> entered vec code s t.
Proof. by intros []. Qed.
Lemma entered_syscall inst s :
  g_iss_os_mode s = true -> entered (general_vector s) (if inst .& 63 =? 0x0c then 8 else 9) s (_syscall_break inst s).
Proof.
  intros Hos. unfold _syscall_break. rewrite Hos. apply entered_histo, entered_general. by destruct (_ =? _).
Qed.
Lemma all_entered s raise code : general_exception s raise code -> entered (general_vector s) code s (raise s).
Proof.
  intros []; try (by apply entered_general).
  - pose proof (entered_syscall inst s) as He. rewrite H0 in He. by apply He.
  - pose proof (entered_syscall inst s) as He. rewrite H0 in He. by apply He.
  - eapply (entered_emit _ _ s _ (EvUnimplemented (inst >> 26) (inst .& 0x3f) (u32 (pc s)))).
    by apply (entered_general 10 (emit (EvUnimplemented (inst >> 26) (inst .& 0x3f) (u32 (pc s))) s)).
  - apply entered_cpu.
  - apply entered_fpe.
Qed.
(** The Cause word of an interrupt. *)
Lemma int_word_bits ip i : 0 <= i -> Z.testbit ((ip .& 0xff) << 8) i = (8 <=? i) && (i <? 16) && Z.testbit ip (i - 8).
Proof.
  intros Hi. rewrite Z.shiftl_spec by done. destruct (Z.leb_spec 8 i); cbn [andb]; [|by rewrite Z.testbit_neg_r by lia].
  rewrite Z.land_spec. change 0xff with (Z.ones 8). destruct (Z.ltb_spec i 16); cbn [andb].
  - by rewrite Z.ones_spec_low, andb_true_r by lia.
  - by rewrite Z.ones_spec_high, andb_false_r by lia.
Qed.
Lemma int_entered epc ip s : interrupted epc ip s (raise_int epc ip s).
Proof.
  constructor; try done; unfold raise_int, goto_general, exc_vector_general, enter_exl, Cause_ExcCode, Cause_BD; cbv zeta.
  - st_simpl. unfold general_vector. rewrite !sr_bev. rd_simpl. rewrite exl_word_bits by done. cbn [Z.eqb Pos.eqb]. by destruct (Z.testbit _ 22).
  - rd_simpl. apply Z.bits_inj'. intros i Hi. rewrite Z.bits_0, Z.land_spec, Z.shiftr_spec, int_word_bits by lia.
    change 0x1f with (Z.ones 5). destruct (Z.ltb_spec i 5); [|by rewrite Z.ones_spec_high, andb_false_r by lia].
    by rewrite (proj2 (Z.leb_gt 8 _)) by lia.
  - rd_simpl. by rewrite int_word_bits.
  - rd_simpl. apply Z.bits_inj'. intros i Hi. rewrite !Z.land_spec, Z.shiftr_spec, int_word_bits by lia. change 0xff with (Z.ones 8).
    destruct (Z.ltb_spec i 8); [|by rewrite !Z.ones_spec_high, !andb_false_r by lia].
    rewrite (proj2 (Z.leb_le 8 _)), (proj2 (Z.ltb_lt _ 16)), Z.add_simpl_r by lia. done.
  - by rd_simpl.
  - by rd_simpl.
  - by rd_simpl.
  - rewrite sr_exl. rd_simpl. by rewrite exl_word_bits.
  - rewrite sr_erl. rd_simpl. by rewrite exl_word_bits.
Qed.
(** Cause.CE of a coprocessor-unusable exception, the unimplemented-operation bit of
    a floating-point one. *)
Lemma cpu_word_ce x :
  ((((x .& .~ (0x1f << 2)) .& .~ (0x3 << 28)) .| (11 << 2)) .| ((1 .& 0x3) << 28)) >> 28 .& 0x3 = 1.
Proof.
  apply Z.bits_inj'. intros i Hi. rewrite Z.land_spec, Z.shiftr_spec by done. destruct (decide (i < 2)).
  - assert (i = 0 \/ i = 1) as [-> | ->] by lia; rewrite !Z.lor_spec, !Z.land_spec, !Z.lnot_spec by done; lit_bits;
      by rewrite ?andb_false_r, ?orb_true_r, ?andb_true_r, ?orb_false_r.
  - change 0x3 with (Z.ones 2) at 3. rewrite Z.ones_spec_high, andb_false_r by lia. symmetry. apply (in_u_testbit 1); [done|done|lia].
Qed.
End entry.

(** C6. Exception entry.  Every exception an instruction takes to the general vector
    (address errors, SYSCALL and BREAK in OS mode, reserved instruction, coprocessor
    unusable, overflow, trap, floating point) enters the vector BEV chooses with its
    ExcCode, EXL set and ERL cleared, breaks the LL/SC link, and keeps registers, memory
    and TLB.  With EXL clear it records the faulting pc in EPC (the branch's pc and BD=1
    in a delay slot); a nested entry leaves EPC and BD as they were.  Coprocessor
    unusable names coprocessor 1 in Cause.CE, a floating-point exception raises the
    unimplemented-operation bit of the FCSR alone.  An interrupt enters the same vector
    with ExcCode 0, BD = 0, the pending bits in Cause.IP and, even when EXL was set, EPC
    as the core gives it. *)
Theorem exception_entry (s : state) :
  (forall raise code, general_exception s raise code -> entered (general_vector s) code s (raise s)) /\
  (cpr0 (take_exception_cpu 1 s)).[CPR0_CAUSE] >> 28 .& 0x3 = 1 /\
  fcr1 (take_exception_fpe s) = wr CP1_CR31 ((fcr1 s).[CP1_CR31] .| (1 << 17)) (fcr1 s) /\
  (forall epc ip, interrupted epc ip s (raise_int epc ip s)).
Proof.
  split; [exact (all_entered s)|]. split.
  - unfold take_exception_cpu, goto_general, enter_exl. cbv zeta. rd_simpl. apply cpu_word_ce.
  - split; [|exact (fun epc ip => int_entered epc ip s)].
    unfold take_exception_fpe, goto_general, enter_exl, set_exccode. st_simpl. unfold set_exc_pc. by repeat case_match.
Qed.
(** SYSCALL under a guest operating system. *)
Lemma exception_entry_witness :
  let s := set_g_iss_os_mode true (set_pc 0x1000 (state_init (mk_sparse_mem ∅ false) false)) in
  entered (general_vector s) 8 s (_syscall_break 0x0000000c s) /\ interrupted 0x2000 0x80 s (raise_int 0x2000 0x80 s).
Proof.
  intros s. destruct (exception_entry s) as (He & _ & _ & Hi). split; [|apply Hi].
  apply (He (_syscall_break 0x0000000c)). apply exc_syscall; reflexivity.
Defined.

(** ** ERET *)
Definition ERET_INST : Z := 0x42000018.
Lemma sr_restored x :
  Z.testbit x 1 = false -> Z.testbit x 2 = false -> ((x .& .~ SR_ERL) .| SR_EXL) .& .~ SR_EXL = x.
Proof.
  intros H1 H2. apply Z.bits_inj'. intros i Hi. rewrite Z.land_spec, exl_word_bits by done.
  unfold SR_EXL. rewrite Z.lnot_spec, Z.shiftl_1_l, Z.pow2_bits_eqb by done.
  destruct (Z.eqb_spec i 1) as [->|]; [by rewrite H1|].
  rewrite (proj2 (Z.eqb_neq 1 i)) by lia. rewrite andb_true_r.
  destruct (Z.eqb_spec i 2) as [->|]; [by rewrite H2|done].
Qed.
Lemma eret_pc x : in_s 64 x -> s64 (s64 (u64 (u64 x - 4)) + 4) = x.
Proof.
  intros Hx. rewrite wraps_wrapu by done. transitivity (s64 x); [|by apply wraps_id].
  apply wraps_cong. rewrite <- Z.add_mod_idemp_l by done. rewrite wraps_mod by done. unfold wrapu.
  rewrite Z.add_mod_idemp_l by done. rewrite <- Z.add_mod_idemp_l, Zminus_mod_idemp_l by done.
  rewrite Z.add_mod_idemp_l by done. f_equal. lia.
Qed.
Lemma eret_epc x : s64 (s64 (u64 (u64 x - 4)) + 4) = s64 x.
Proof. rewrite <- (wrapu_wraps 64 x) by done. apply eret_pc. rng. Qed.
(** The EXL return: the pc from EPC, EXL cleared, the rest untouched. *)
Lemma eret_exl `{Config} t :
  sr_bit t SR_ERL = false ->
  exists r, execCoproc0 ERET_INST t = Ok r /\
    pc r = s64 (s64 (u64 ((cpr0_64 t).[CPR0_EPC] - 4)) + 4) /\
    (cpr0 r).[CPR0_SR] = (cpr0 t).[CPR0_SR] .& .~ SR_EXL /\ ll_link_valid r = false /\
    gpr r = gpr t /\ mem r = mem t /\ tlb r = tlb t /\ cpr0_64 r = cpr0_64 t /\ g_utlb r = g_utlb t.
Proof.
  intros Herl. eexists. split; [reflexivity|]. unfold eret. rewrite sr_erl. st_simpl.
  rewrite <- sr_erl, Herl. rd_simpl. done.
Qed.
Lemma eret_after `{Config} vec code s t :
  entered vec code s t -> sr_bit s SR_EXL = false -> sr_bit s SR_ERL = false ->
  exists r, execCoproc0 ERET_INST t = Ok r /\
    pc r = s64 (if in_delay_slot s then pc s - 4 else pc s) /\
    (cpr0 r).[CPR0_SR] = (cpr0 s).[CPR0_SR] /\ gpr r = gpr s /\ mem r = mem s.
Proof.
  intros He Hexl Herl. destruct (ent_epc _ _ _ _ He Hexl) as [Hepc _].
  destruct (eret_exl t (ent_erl _ _ _ _ He)) as (r & Hr & Hpc & Hsr & _ & Hg & Hm & _).
  exists r. rewrite Hpc, Hepc, eret_epc, Hsr, (ent_sr _ _ _ _ He), Hg, Hm.
  split_and!; [done|done| |apply (ent_gpr _ _ _ _ He)|apply (ent_mem _ _ _ _ He)].
  rewrite sr_exl in Hexl. rewrite sr_erl in Herl. by apply sr_restored.
Qed.

Lemma eret_after_int `{Config} epc ip s t :
  interrupted epc ip s t -> sr_bit s SR_EXL = false -> sr_bit s SR_ERL = false ->
  exists r, execCoproc0 ERET_INST t = Ok r /\ pc r = s64 (s64 (u64 (epc - 4)) + 4) /\
    (cpr0 r).[CPR0_SR] = (cpr0 s).[CPR0_SR] /\ gpr r = gpr s /\ mem r = mem s.
Proof.
  intros He Hexl Herl. destruct (eret_exl t (int_erl _ _ _ _ He)) as (r & Hr & Hpc & Hsr & _ & Hg & Hm & _).
  exists r. rewrite Hpc, (int_epc64 _ _ _ _ He), Hsr, (int_sr _ _ _ _ He), Hg, Hm.
  split_and!; [done|done| |apply (int_gpr _ _ _ _ He)|apply (int_mem _ _ _ _ He)].
  rewrite sr_exl in Hexl. rewrite sr_erl in Herl. by apply sr_restored.
Qed.

(** C7. ERET undoes an exception entry.  From a state with EXL and ERL clear, taking any
    of the exceptions of C6 and then executing ERET resumes at the faulting instruction,
    at the branch when it was in a delay slot; after an interrupt it resumes at the pc
    the core gave.  Status, registers and memory are as before the exception. *)
Theorem eret_resumes `{Config} (s : state)
    (Hexl : sr_bit s SR_EXL = false) (Herl : sr_bit s SR_ERL = false) :
  (forall raise code, general_exception s raise code ->
      exists r, execCoproc0 ERET_INST (raise s) = Ok r /\
        pc r = s64 (if in_delay_slot s then pc s - 4 else pc s) /\
        (cpr0 r).[CPR0_SR] = (cpr0 s).[CPR0_SR] /\ gpr r = gpr s /\ mem r = mem s) /\
  (forall epc ip, in_s 64 epc ->
      exists r, execCoproc0 ERET_INST (raise_int (u64 epc) ip s) = Ok r /\ pc r = epc /\
        (cpr0 r).[CPR0_SR] = (cpr0 s).[CPR0_SR] /\ gpr r = gpr s /\ mem r = mem s).
Proof.
  split.
  - intros raise code He. exact (eret_after _ code s (raise s) (all_entered s raise code He) Hexl Herl).
  - intros epc ip He. destruct (eret_after_int (u64 epc) ip s _ (int_entered _ _ _) Hexl Herl) as (r & Hr & Hpc & Hrest).
    exists r. by rewrite eret_pc in Hpc.
Qed.
(** BREAK under a guest operating system, and an interrupt. *)
Lemma eret_resumes_witness :
  let s := set_g_iss_os_mode true (set_pc 0x1000 (state_init (mk_sparse_mem ∅ false) false)) in
  (exists r, @execCoproc0 r4400_config ERET_INST (_syscall_break 0x0000000d s) = Ok r /\ pc r = 0x1000) /\
  (exists r, @execCoproc0 r4400_config ERET_INST (raise_int (u64 (-4096)) 0x80 s) = Ok r /\ pc r = -4096).
Proof.
  intros s. destruct (@eret_resumes r4400_config s eq_refl eq_refl) as [He Hi]. split.
  - destruct (He (_syscall_break 0x0000000d) 9) as (r & Hr & Hpc & _); [apply exc_break; reflexivity|].
    exists r. split; [exact Hr|]. etransitivity; [exact Hpc|]. vm_compute. reflexivity.
  - destruct (Hi (-4096) 0x80) as (r & Hr & Hpc & _); [unfold in_s; lia|]. exists r. split; [exact Hr|exact Hpc].
Defined.
