(* ===== verification/ExecProps.v ===== *)
(** Properties of the whole interpreter: the type invariant along a run, and
    the transparency of the micro-TLB. *)
From S2P Require Import Prelude Bits Insns State Mem Wf Exc Tlb LoadStore Alu Fp Fpu Cp0 Branch Exec Arch Utlb NonInterf.

(** The reset state over a zero-filled memory. *)
Definition boot_state : state := initState (H:=r4400_config) (state_init (mk_sparse_mem ∅ true) false).

Section run.
Context `{Config, HostFP}.
Implicit Types (s t : state) (fuel k : nat).

Lemma wf_execMips_n fuel k s : wf s -> post wf (execMips_n fuel k s).
Proof.
  revert s; induction k as [|k IH]; intros s Hw; [done|]. cbn [execMips_n].
  eapply post_bind; [by apply wf_execMips_fuel|done].
Qed.
Lemma rel_execMips_n fuel k s t : R s t -> rel R (execMips_n fuel k s) (execMips_n fuel k t).
Proof.
  revert s t; induction k as [|k IH]; intros s t HR; [done|]. cbn [execMips_n].
  eapply rel_bind; [by apply rel_execMips_fuel|done].
Qed.
Lemma wf_initState s : wf s -> wf (initState s).
Proof.
  intros Hw. pose proof tlb_entries_pos. pose proof (wf_cpr0_rd s CPR0_SR Hw).
  unfold initState. apply wf_set_cpr0_64_at, wf_set_cpr0_at, wf_set_cpr0_64_at, wf_set_cpr0_at,
    wf_set_cpr0_at, wf_set_cpr0_at; try done; [unfold in_u; lia|rng].
Qed.
Lemma coherent_initState m b : coherent (initState (state_init m b)).
Proof. apply coh_empty. Qed.
End run.

(** C1. The micro-TLB is transparent.  From a state whose micro-TLB is coherent
    (as the reset state's is), any number of calls of [execMips] with the
    micro-TLB enabled and the same calls with it bypassed stop for the same
    reason, or both return, with equal architectural states (everything but the
    micro-TLB itself, its switch, the instruction histogram and the FP-register
    tags) and a micro-TLB that is coherent again. *)
Theorem micro_tlb_transparent `{Config, HostFP} (fuel k : nat) (s : state) (Hcoh : coherent s) :
  rel (fun a b => arch a = arch b /\ coherent a /\ coherent b)
      (execMips_n fuel k (set_no_utlb false s)) (execMips_n fuel k (set_no_utlb true s)).
Proof.
  assert (R (set_no_utlb false s) (set_no_utlb true s)) as HR by done.
  pose proof (rel_execMips_n fuel k _ _ HR) as Hr. revert Hr.
  destruct (execMips_n fuel k (set_no_utlb false s)), (execMips_n fuel k (set_no_utlb true s)); try done.
  by intros (?&?&?).
Qed.
Lemma micro_tlb_transparent_witness :
  rel (fun a b => arch a = arch b /\ @coherent r4400_config a /\ @coherent r4400_config b)
      (@execMips_n r4400_config indefinite_host 2 1 (set_no_utlb false boot_state))
      (@execMips_n r4400_config indefinite_host 2 1 (set_no_utlb true boot_state)).
Proof. apply (@micro_tlb_transparent r4400_config indefinite_host). apply coh_empty. Defined.

(** C2. Type safety of a run.  Over any number of instructions from any well-formed
    state, [execMips] keeps every integer field of the state and of the file-scope
    statics in the range of its C++ type: pc, HI, LO, the counters [icnt] and [brk], the
    link and the last load address, the registers, the CP0 registers and their shadows,
    the fields of the TLB and micro-TLB entries, the bytes of memory, the counters of
    the histogram and the records of the store log.  Every cell it writes lies inside
    its array (cells never written hold their initial zero), and so does the one TLB
    entry the guest reads by an index of its own, that of TLBR.  The witness starts at
    the reset state. *)
Theorem execMips_type_safe `{Config, HostFP} (fuel k : nat) (s : state) (Hw : wf s) :
  post wf (execMips_n fuel k s).
Proof. by apply wf_execMips_n. Qed.
Lemma execMips_type_safe_witness :
  post (@wf r4400_config) (@execMips_n r4400_config indefinite_host 2 3 boot_state).
Proof.
  apply (@execMips_type_safe r4400_config indefinite_host).
  apply wf_initState, wf_state_init, map_Forall_empty.
Defined.
