(* ===== verification/TlbSpec.v ===== *)
(** The abstract specification of address translation: a memory map with three
    unmapped windows and a set of page pairs, independent of the micro-TLB and of
    the machine's bookkeeping.  [va_translate] refines it; the TLB instructions
    maintain it. *)
From S2P Require Import Prelude Bits Insns State Mem Wf Exc Tlb Arch Utlb.

(** What a translation promises its caller. *)
Inductive xlate :=
  | Phys (pa : Z)
  | TlbRefill
  | TlbInvalid
  | TlbModified.

(** Unmapped windows: kseg0 and kseg1 in either canonical form, xkphys. *)
Definition unmapped_pa (va : Z) : option Z :=
  if compat32 (u32 (va >> 32)) then
    if (u32 va >> 29 =? 4) || (u32 va >> 29 =? 5) then Some (u32 va .& 0x1fffffff) else None
  else if (va >> 62) .& 3 =? 2 then Some (u32 (va .& 0xffffffffff)) else None.

(** The address the operating mode sees. *)
Definition mode_va (s : state) (va : Z) : Z :=
  if is_64b_addr_mode s then u64 va else u64 (s32 (u64 va)).

(** A page pair's answer for an address inside it. *)
Definition page_answer (e : tlb_entry_t) (va : Z) (op : tlb_op) : xlate :=
  if sel_lo e va .& 2 =? 0 then TlbInvalid
  else if is_store op && (sel_lo e va .& 4 =? 0) then TlbModified
  else Phys (u32 (entry_pa e va)).

Section spec.
Context `{Config}.
Definition asid_of (s : state) : Z := (cpr0_64 s).[CPR0_ENTRYHI] .& 0xff.
Definition lookup_tlb (T : Zmap tlb_entry_t) (asid va : Z) : option Z :=
  first_from (fun i => cam_match va asid T.[i]) 0 tlb_n.
Definition translate (s : state) (va : Z) (op : tlb_op) : xlate :=
  let va := mode_va s va in
  match unmapped_pa va with
  | Some pa => Phys pa
  | None => match lookup_tlb (tlb s) (asid_of s) va with
            | Some i => page_answer (tlb s).[i] va op
            | None => TlbRefill
            end
  end.
(** The exception a failed translation raises. *)
Definition fault_code (op : tlb_op) (x : xlate) : Z :=
  match x with TlbModified => 1 | _ => if is_store op then 3 else 2 end.
Definition is_refill (x : xlate) : bool := match x with TlbRefill => true | _ => false end.
Definition deliver (x : xlate) (va : Z) (op : tlb_op) (xtlb : bool) (s : state) : state :=
  match x with
  | Phys _ => s
  | _ => raise_tlb va (fault_code op x) (is_refill x) xtlb s
  end.
Definition after_translate (s : state) (va : Z) (op : tlb_op) : state :=
  deliver (translate s va op) (mode_va s va) op (is_64b_addr_mode s)
    (if is_load op then set_g_iss_last_ld_va (mode_va s va) s else s).
Definition phys_or_0 (x : xlate) : Z := match x with Phys pa => pa | _ => 0 end.
End spec.

(** * Theorems *)
Section refinement.
Context `{Config}.
Implicit Types (s t : state) (va : Z) (op : tlb_op).

Lemma mode_va_eq s va :
  (if negb (is_64b_addr_mode s) then u64 (s32 (u64 va)) else u64 va) = mode_va s va.
Proof. unfold mode_va. by destruct (is_64b_addr_mode s). Qed.
Lemma R_arch s t : coherent s -> coherent t -> arch s = arch t -> R s t.
Proof. done. Qed.

Lemma cam_translate_spec va op xtlb s :
  coherent s ->
  let x := match lookup_tlb (tlb s) (asid_of s) va with
           | Some i => page_answer (tlb s).[i] va op | None => TlbRefill end in
  (cam_translate va op (asid_of s) xtlb s).1 = phys_or_0 x /\
  R (cam_translate va op (asid_of s) xtlb s).2
    (deliver x va op xtlb s).
Proof.
  intros Hc. pose proof (R_refl s Hc) as HR. unfold cam_translate, lookup_tlb, page_answer. cbv zeta.
  destruct (first_from _ _ _) as [i|] eqn:Hf; cbn [fst snd phys_or_0]; [|by (split; [done|apply R_raise_tlb])].
  destruct (_ =? 0) eqn:Hv; cbn [fst snd phys_or_0]; [by (split; [done|apply R_raise_tlb])|].
  destruct (_ && _); cbn [fst snd phys_or_0]; [by (split; [done|apply R_raise_tlb])|]. split; [done|].
  split_and!; [|done|done]. apply coh_wr; [done|]. by apply refill_caches.
Qed.
Lemma utlb_or_cam_spec va op xtlb s :
  coherent s ->
  let x := match lookup_tlb (tlb s) (asid_of s) va with
           | Some i => page_answer (tlb s).[i] va op | None => TlbRefill end in
  (utlb_or_cam va op (asid_of s) xtlb s).1 = phys_or_0 x /\
  R (utlb_or_cam va op (asid_of s) xtlb s).2
    (deliver x va op xtlb s).
Proof.
  intros Hc. destruct (utlb_transparent va op (asid_of s) xtlb s Hc) as [E1 R1].
  destruct (cam_translate_spec va op xtlb s Hc) as [E2 R2]. cbv zeta in *.
  split; [by rewrite E1|]. by eapply R_trans.
Qed.
(** The model's translation is the specification, whatever the micro-TLB holds. *)
Lemma va_translate_refines s va op :
  coherent s ->
  (va_translate s va op).1 = phys_or_0 (translate s va op) /\
  R (va_translate s va op).2 (after_translate s va op).
Proof.
  intros Hc. rewrite va_translate_eq. cbv zeta. rewrite mode_va_eq.
  unfold after_translate, translate. cbv zeta. set (v := mode_va s va). clearbody v.
  set (s1 := if is_load op then set_g_iss_last_ld_va v s else s).
  assert (coherent s1) as Hc1 by (unfold s1; by destruct (is_load op)).
  assert (tlb s1 = tlb s /\ asid_of s1 = asid_of s /\ is_64b_addr_mode s1 = is_64b_addr_mode s)
    as (HT & Ha & Hm) by (unfold s1; by destruct (is_load op)).
  rewrite <- HT, <- Ha, <- Hm. fold (asid_of s1). clearbody s1. unfold unmapped_pa.
  destruct (compat32 _); cbn [andb negb].
  - destruct ((_ =? 4) || _); cbn [fst snd phys_or_0]; [by split|]. by apply utlb_or_cam_spec.
  - destruct (_ =? 2); cbn [fst snd phys_or_0]; [by split|]. by apply utlb_or_cam_spec.
Qed.
End refinement.
