(* ===== verification/TlbProps.v ===== *)
(** Properties of address translation: the refinement of the abstract memory
    map, the arithmetic of a page pair, the TLB exceptions, the TLB
    instructions, and the refill handler's round trip. *)
From S2P Require Import Prelude Bits Insns State Mem Wf Exc Tlb Arch Utlb TlbSpec LoadStore Alu Cp0 ExcProps.

(** Page sizes: 4 KB, 16 KB, ... 16 MB. *)
Definition page_size (k : Z) : Z := 2 ^ (12 + 2 * k).
Definition PageMask_of (k : Z) : Z := (4 ^ k - 1) << 13.
Section geometry.
Context `{Config}.
(** The page pair and the region of an address. *)
Definition pair_of (k va : Z) : Z := (va mod 2 ^ SEGBITS) / (2 * page_size k).
Definition region (va : Z) : Z := (va / 2 ^ 62) mod 4.
End geometry.

(** * Theorems *)

(** ** The arithmetic of a page pair *)
Lemma pm_pair_mask k e : 0 <= k -> pm_of e = PageMask_of k -> pair_mask e = Z.ones (13 + 2 * k).
Proof.
  intros Hk He. rewrite pair_mask_add, He. unfold PageMask_of. rewrite Z.shiftr_shiftl_l by lia.
  change (13 - 13) with 0. rewrite Z.shiftl_0_r, Z.ones_equiv, Z.pow_add_r by lia.
  replace (4 ^ k) with (2 ^ (2 * k)) by (rewrite Z.pow_mul_r by lia; done). lia.
Qed.
Lemma pm_off_mask k e : 0 <= k -> pm_of e = PageMask_of k -> off_mask e = Z.ones (12 + 2 * k).
Proof.
  intros Hk He. unfold off_mask. rewrite (pm_pair_mask k) by done.
  apply Z.bits_inj'. intros i Hi. rewrite Z.shiftr_spec, !Z.testbit_ones by lia. lia.
Qed.
Lemma pm_sel_bit k e : 0 <= k -> pm_of e = PageMask_of k -> sel_bit e = 1 << (12 + 2 * k).
Proof.
  intros Hk He. unfold sel_bit. rewrite (pm_pair_mask k) by done.
  rewrite Z.ones_equiv, Z.add_1_r, Z.succ_pred, Z.shiftl_1_l.
  rewrite Z.shiftr_div_pow2 by lia. replace (13 + 2 * k) with (12 + 2 * k + 1) by lia.
  rewrite Z.pow_add_r by lia. by apply Z.div_mul.
Qed.
Lemma field_eqb lo n x y :
  0 <= lo -> 0 <= n ->
  (x .& (Z.ones n << lo) =? y .& (Z.ones n << lo)) =
  ((x mod 2 ^ (lo + n)) / 2 ^ lo =? (y mod 2 ^ (lo + n)) / 2 ^ lo).
Proof.
  intros Hlo Hn.
  assert (forall z, z .& (Z.ones n << lo) = ((z mod 2 ^ (lo + n)) / 2 ^ lo) << lo) as Hz.
  { intros z. apply Z.bits_inj'. intros i Hi. rewrite Z.land_spec, !Z.shiftl_spec by done.
    destruct (decide (i < lo)); [rewrite !(Z.testbit_neg_r _ (i - lo)) by lia; apply andb_false_r|].
    rewrite <- Z.shiftr_div_pow2, Z.shiftr_spec, Z.testbit_ones by lia.
    replace (i - lo + lo) with i by lia. destruct (decide (i < lo + n)).
    - rewrite Z.mod_pow2_bits_low by lia. replace ((_ <=? _) && _) with true by lia. apply andb_true_r.
    - rewrite Z.mod_pow2_bits_high by lia. replace ((_ <=? _) && _) with false by lia. apply andb_false_r. }
  rewrite !Hz, !Z.shiftl_mul_pow2 by done. pose proof (Z.pow_pos_nonneg 2 lo).
  destruct (Z.eqb_spec (x mod 2 ^ (lo + n) / 2 ^ lo) (y mod 2 ^ (lo + n) / 2 ^ lo)) as [->|];
    [apply Z.eqb_refl|]. apply Z.eqb_neq. nia.
Qed.
Lemma vpn_mask_field `{Config} k e :
  0 <= k <= 6 -> pm_of e = PageMask_of k ->
  u64 (.~ pair_mask e) .& (VPN2_MASK << 13) = Z.ones (SEGBITS - (13 + 2 * k)) << (13 + 2 * k).
Proof.
  intros Hk He. rewrite (pm_pair_mask k) by (done || lia). rewrite vpn2_mask_ones.
  assert (SEGBITS = 40 \/ SEGBITS = 44) as HS by (unfold SEGBITS; destruct ENABLE_R10000; auto).
  apply Z.bits_inj'. intros i Hi.
  rewrite Z.land_spec, testbit_wrapu, Z.lnot_spec, !Z.shiftl_spec, !Z.testbit_ones by lia. lia.
Qed.
Lemma region_field va : (va >> 62) .& 3 = region va.
Proof. unfold region. change 3 with (Z.ones 2). by rewrite Z.land_ones, Z.shiftr_div_pow2. Qed.
Lemma cam_match_arith `{Config} k va asid e :
  0 <= k <= 6 -> pm_of e = PageMask_of k ->
  cam_match va asid e =
  (pair_of k va =? pair_of k (entry_hi e)) && (region va =? region (entry_hi e)) && asid_match e asid.
Proof.
  intros Hk He. unfold cam_match. rewrite (vpn_mask_field k) by done. rewrite !region_field.
  assert (SEGBITS = 40 \/ SEGBITS = 44) as HS by (unfold SEGBITS; destruct ENABLE_R10000; auto).
  rewrite field_eqb by lia. unfold pair_of, page_size.
  replace (13 + 2 * k + (SEGBITS - (13 + 2 * k))) with SEGBITS by lia.
  replace (2 * 2 ^ (12 + 2 * k)) with (2 ^ (13 + 2 * k)); [done|].
  replace (13 + 2 * k) with (1 + (12 + 2 * k)) by lia. by rewrite Z.pow_add_r by lia.
Qed.
Lemma sel_lo_arith k va e :
  0 <= k -> pm_of e = PageMask_of k ->
  sel_lo e va = if Z.odd (va / page_size k) then entry_lo1 e else entry_lo0 e.
Proof.
  intros Hk He. unfold sel_lo. rewrite (pm_sel_bit k) by done. rewrite land_bit by lia.
  unfold page_size. rewrite <- Z.shiftr_div_pow2 by lia. rewrite <- Z.bit0_odd, Z.shiftr_spec by done. done.
Qed.
Lemma entry_pa_arith k va e :
  0 <= k -> pm_of e = PageMask_of k -> (lo_pfn (sel_lo e va)) mod 4 ^ k = 0 ->
  entry_pa e va = lo_pfn (sel_lo e va) * 4096 + va mod page_size k.
Proof.
  intros Hk He Ha. unfold entry_pa. rewrite (pm_off_mask k) by done. set (p := lo_pfn _) in *.
  rewrite Z.land_ones by lia. fold (page_size k).
  assert (4096 * 4 ^ k = page_size k) as Hps.
  { unfold page_size. rewrite Z.pow_add_r, (Z.pow_mul_r 2 2) by lia. done. }
  assert (p << 12 = (p / 4 ^ k) << (12 + 2 * k)) as ->.
  { rewrite !Z.shiftl_mul_pow2 by lia. fold (page_size k). rewrite <- Hps.
    rewrite (Z.div_mod p (4 ^ k)) at 1 by (apply Z.pow_nonzero; lia). rewrite Ha. lia. }
  rewrite Z.lor_comm, lor_shl_add; [|lia|].
  - fold (page_size k). rewrite <- Hps. rewrite (Z.div_mod p (4 ^ k)) at 2 by (apply Z.pow_nonzero; lia). lia.
  - unfold in_u. fold (page_size k). apply Z.mod_pos_bound. unfold page_size. apply Z.pow_pos_nonneg; lia.
Qed.

(** ** The TLB exceptions *)
Section faults.
Context `{Config}.
Implicit Types (s t : state) (va : Z) (op : tlb_op).
(** EntryHi, Context and XContext as a fault on [va] leaves them. *)
Definition fault_EntryHi (asid va : Z) : Z :=
  (((va >> 62) .& 0x3) << 62 .| ((va >> 13) .& VPN2_MASK) << 13) .| asid.
Definition fault_Context (ctx va : Z) : Z := (ctx .& .~ 0x7fffff) .| (((va >> 13) .& 0x7ffff) << 4).
Definition fault_XContext (xctx va : Z) : Z :=
  ((xctx .& u64 (.~ 0 << (SEGBITS - 7))) .| (((va >> 13) .& VPN2_MASK) << 4))
  .| (((va >> 62) .& 0x3) << (SEGBITS - 9)).
(** The vector: the refill vectors only for a refill with EXL clear. *)
Definition tlb_vector (s : state) (refill xtlb : bool) : Z :=
  (if sr_bit s SR_BEV then 0xBFC00200 else 0x80000000) - 2 ^ 32
  + (if refill && negb (sr_bit s SR_EXL) then if xtlb then 0x80 else 0 else 0x180).

Record fault_recorded (va : Z) (s t : state) : Prop := {
  fr_badvaddr : (cpr0_64 t).[CPR0_BADVADDR] = va;
  fr_entryhi : (cpr0_64 t).[CPR0_ENTRYHI] = fault_EntryHi (asid_of s) va;
  fr_context : (cpr0_64 t).[CPR0_CONTEXT] = fault_Context (cpr0_64 s).[CPR0_CONTEXT] va;
  fr_xcontext : (cpr0_64 t).[CPR0_XCONTEXT] = fault_XContext (cpr0_64 s).[CPR0_XCONTEXT] va;
  fr_shadow : Forall (fun r => (cpr0 t).[r] = u32 (cpr0_64 t).[r])
                [CPR0_BADVADDR; CPR0_ENTRYHI; CPR0_CONTEXT; CPR0_XCONTEXT];
  fr_fault : tlb_fault t = true;
}.

Lemma set_exc_pc_cpr0_64 s i : i <> CPR0_EPC -> (cpr0_64 (set_exc_pc s)).[i] = (cpr0_64 s).[i].
Proof. intros. unfold set_exc_pc. repeat case_match; rd_simpl; done. Qed.
Lemma set_exc_pc_cpr0 s i :
  i <> CPR0_EPC -> i <> CPR0_CAUSE -> (cpr0 (set_exc_pc s)).[i] = (cpr0 s).[i].
Proof. intros. unfold set_exc_pc. repeat case_match; rd_simpl; done. Qed.
Lemma fault_state_sr va s n : sr_bit (tlb_set_fault_state va s) n = sr_bit s n.
Proof. unfold sr_bit, tlb_set_fault_state. rd_simpl. done. Qed.

Lemma raise_tlb_records va code refill xtlb s : fault_recorded va s (raise_tlb va code refill xtlb s).
Proof.
  unfold raise_tlb, set_exccode, enter_exl.
  constructor; try (apply Forall_cons; split; [|repeat (apply Forall_cons; split)]);
    try done; rd_simpl; rewrite ?set_exc_pc_cpr0_64, ?set_exc_pc_cpr0 by done;
    unfold tlb_set_fault_state; rd_simpl; done.
Qed.
Lemma raise_tlb_enters va code refill xtlb s :
  in_u 5 code -> entered (tlb_vector s refill xtlb) code s (raise_tlb va code refill xtlb s).
Proof.
  intros Hc. unfold raise_tlb. set (f := tlb_set_fault_state va s).
  set (v := sext32 _).
  assert (entered v code f (set_pc v (enter_exl (set_exccode code (set_exc_pc f))))) as He.
  { apply entered_intro; [by apply exccode_field | by apply exccode_bd]. }
  assert (v = tlb_vector s refill xtlb) as Hv.
  { subst v. unfold exc_vector, set_exccode, tlb_vector. rewrite bev_entered. subst f.
    rewrite fault_state_sr. by destruct (sr_bit s SR_BEV), (sr_bit s SR_EXL), refill, xtlb. }
  rewrite <- Hv. destruct He as [? ? Hsr ? ? ? ? ? ? ? Hnest]. constructor; try done.
  - transitivity (((cpr0 f).[CPR0_SR] .& .~ SR_ERL) .| SR_EXL); [exact Hsr|].
    subst f. unfold tlb_set_fault_state. rd_simpl. done.
  - rewrite <- (fault_state_sr va). done.
  - rewrite <- (fault_state_sr va). intros Hx. destruct (Hnest Hx) as (E1 & E2 & E3). 
    subst f. revert E1 E2 E3. unfold tlb_set_fault_state, Cause_BD. rd_simpl. done.
Qed.
End faults.

(** ** Writing an entry *)
Section writes.
Context `{Config}.
Implicit Types (s t : state) (va asid : Z) (op : tlb_op) (T : Zmap tlb_entry_t).

Lemma lookup_install T asid va i e :
  0 <= i < NUM_TLB_ENTRIES -> cam_match va asid e = true ->
  (forall j, 0 <= j < i -> cam_match va asid T.[j] = false) ->
  lookup_tlb (wr i e T) asid va = Some i.
Proof.
  intros Hi He Hlt. apply first_from_is.
  - unfold tlb_n. lia.
  - by rewrite rd_wr_eq.
  - intros j Hj. rewrite rd_wr_ne by lia. by apply Hlt.
Qed.
Lemma lookup_other T asid va i e :
  cam_match va asid e = false -> cam_match va asid T.[i] = false ->
  lookup_tlb (wr i e T) asid va = lookup_tlb T asid va.
Proof.
  intros He Hi. apply first_from_ext. intros j Hj. rewrite rd_wr.
  destruct (Z.eqb_spec i j) as [->|]; [by rewrite He, Hi|done].
Qed.
Lemma lookup_ne T asid va i : lookup_tlb T asid va = Some i -> cam_match va asid T.[i] = true.
Proof. by intros (_ & ? & _)%first_from_Some. Qed.

(** Mode, ASID and TLB decide a translation. *)
Lemma translate_ext s t va op :
  tlb s = tlb t -> asid_of s = asid_of t -> is_64b_addr_mode s = is_64b_addr_mode t ->
  translate s va op = translate t va op.
Proof. intros HT Ha Hm. unfold translate, mode_va. by rewrite HT, Ha, Hm. Qed.
Lemma mode_sr s t : (cpr0 s).[CPR0_SR] = (cpr0 t).[CPR0_SR] -> is_64b_addr_mode s = is_64b_addr_mode t.
Proof.
  intros E. unfold is_64b_addr_mode, kernel_mode, super_mode, user_mode, sr_ksu, sr_bit. by rewrite E.
Qed.

(** TLBWI and TLBWR outside co-simulation. *)
Lemma tlb_tlbwi s :
  g_iss_tlb_ext s = false -> (cpr0 s).[CPR0_INDEX] .& 63 < NUM_TLB_ENTRIES ->
  tlb (tlbwi s) = wr ((cpr0 s).[CPR0_INDEX] .& 63) (staged_entry s) (tlb s).
Proof. intros Hx Hi%Z.ltb_lt. unfold tlbwi, write_staged. by rewrite Hx, Hi. Qed.
Lemma tlbwr_frame s :
  g_iss_tlb_ext s = false -> (cpr0 s).[CPR0_RANDOM] .& 63 < NUM_TLB_ENTRIES ->
  tlb (tlbwr s) = wr ((cpr0 s).[CPR0_RANDOM] .& 63) (staged_entry s) (tlb s) /\
  cpr0_64 (tlbwr s) = cpr0_64 s /\ gpr (tlbwr s) = gpr s /\ mem (tlbwr s) = mem s /\
  g_iss_tlb_ext (tlbwr s) = false /\
  cpr0 (tlbwr s) = wr CPR0_RANDOM
    (if (cpr0 s).[CPR0_RANDOM] .& 63 <=? (cpr0 s).[CPR0_WIRED] .& 63
     then NUM_TLB_ENTRIES - 1 else (cpr0 s).[CPR0_RANDOM] .& 63 - 1) (cpr0 s).
Proof. intros Hx Hi%Z.ltb_lt. unfold tlbwr, write_staged. rewrite Hx, Hi. cbn. rewrite Hx. done. Qed.

Lemma coherent_tlbwr s : coherent (tlbwr s).
Proof. unfold tlbwr. destruct (negb _); apply coh_flush. Qed.

(** EntryHi of a fault names the faulting page and keeps the ASID. *)
Lemma fault_EntryHi_bits asid va i :
  in_u 8 asid -> 0 <= i -> Z.testbit (fault_EntryHi asid va) i =
  if i <? 13 then Z.testbit asid i
  else if i <? SEGBITS then Z.testbit va i
  else (62 <=? i) && (i <? 64) && Z.testbit va i.
Proof.
  intros Ha Hi. unfold fault_EntryHi. rewrite vpn2_mask_ones. change 3 with (Z.ones 2).
  assert (SEGBITS = 40 \/ SEGBITS = 44) as HS by (unfold SEGBITS; destruct ENABLE_R10000; auto).
  rewrite !Z.lor_spec, !Z.shiftl_spec by done.
  destruct (Z.ltb_spec i 13).
  { rewrite !(Z.testbit_neg_r _ (i - _)) by lia. done. }
  rewrite (in_u_testbit 8 asid i) by (done || lia). rewrite orb_false_r.
  rewrite (Z.land_spec _ _ (i - 13)), Z.shiftr_spec, (Z.testbit_ones (SEGBITS - 13)) by lia.
  replace (i - 13 + 13) with i by lia. destruct (Z.ltb_spec i SEGBITS).
  - rewrite (Z.testbit_neg_r _ (i - 62)) by lia. replace (_ && (i - 13 <? _)) with true by lia. apply andb_true_r.
  - replace (_ && (i - 13 <? _)) with false by lia. rewrite andb_false_r, orb_false_r.
    destruct (Z.leb_spec 62 i); [|by rewrite Z.testbit_neg_r by lia].
    rewrite Z.land_spec, Z.shiftr_spec, Z.testbit_ones by lia. replace (i - 62 + 62) with i by lia.
    destruct (Z.ltb_spec i 64).
    + replace (_ && (i - 62 <? 2)) with true by lia. apply andb_true_r.
    + replace (_ && (i - 62 <? 2)) with false by lia. apply andb_false_r.
Qed.
Lemma asid_fault_EntryHi asid va : in_u 8 asid -> fault_EntryHi asid va .& 0xff = asid.
Proof.
  intros Ha. apply Z.bits_inj'. intros i Hi. rewrite Z.land_spec, fault_EntryHi_bits by done.
  change 0xff with (Z.ones 8). rewrite Z.testbit_ones by done. destruct (Z.ltb_spec i 8).
  - replace (i <? 13) with true by lia. replace (_ && true) with true by lia. apply andb_true_r.
  - rewrite andb_false_r, andb_false_r. symmetry. by apply (in_u_testbit 8).
Qed.
Lemma cam_match_fault asid va lo0 lo1 :
  in_u 8 asid -> cam_match va asid (mk_tlb_entry (fault_EntryHi asid va) lo0 lo1 0) = true.
Proof.
  intros Ha. unfold cam_match. rewrite (vpn_mask_field 0) by done. cbn [entry_hi].
  unfold asid_match. cbn [entry_hi]. rewrite asid_fault_EntryHi, Z.eqb_refl, orb_true_r, andb_true_r by done.
  assert (SEGBITS = 40 \/ SEGBITS = 44) as HS by (unfold SEGBITS; destruct ENABLE_R10000; auto).
  apply andb_true_iff; split; apply Z.eqb_eq, Z.bits_inj'; intros i Hi; rewrite !Z.land_spec.
  - rewrite Z.shiftl_spec, Z.testbit_ones by lia. destruct ((_ <=? _) && _) eqn:Hb; [|by rewrite !andb_false_r].
    rewrite fault_EntryHi_bits by done. replace (i <? 13) with false by lia.
    by replace (i <? SEGBITS) with true by lia.
  - rewrite !Z.shiftr_spec by done. change 3 with (Z.ones 2). rewrite Z.testbit_ones by done.
    destruct ((_ <=? _) && _) eqn:Hb; [|by rewrite !andb_false_r]. rewrite fault_EntryHi_bits by (done || lia).
    replace (i + 62 <? 13) with false by lia. replace (i + 62 <? SEGBITS) with false by lia.
    by replace (_ && (i + 62 <? 64)) with true by lia.
Qed.
End writes.

(** ** The refill handler *)
Section refill.
Context `{Config}.
Implicit Types (s t : state) (va : Z) (op : tlb_op).
(** What an operating system's refill handler does before ERET: the page table's
    pair into EntryLo, 4 KB pages, TLBWR. *)
Definition refill_handler (lo0 lo1 : Z) (s : state) : state :=
  s |> set_cpr0_64_at CPR0_ENTRYLO0 lo0 |> set_cpr0_64_at CPR0_ENTRYLO1 lo1
    |> set_cpr0_at CPR0_PAGEMASK 0 |> tlbwr.
Definition valid_dirty (lo : Z) : Prop := (lo .& 2 =? 0) = false /\ (lo .& 4 =? 0) = false.
(** What ERET must find to complete the round trip. *)
Definition refilled (lo0 lo1 : Z) (s : state) (va : Z) (op : tlb_op) (t : state) : Prop :=
  let v := mode_va s va in
  let lo := if Z.odd (v / 4096) then lo1 else lo0 in
  pc t = s64 (if in_delay_slot s then pc s - 4 else pc s) /\
  gpr t = gpr s /\ mem t = mem s /\ (cpr0 t).[CPR0_SR] = (cpr0 s).[CPR0_SR] /\
  translate t va op = Phys (u32 (entry_pa (mk_tlb_entry 0 lo lo 0) v)) /\
  (va_translate t va op).1 = u32 (entry_pa (mk_tlb_entry 0 lo lo 0) v).

Lemma miss_no_match s va op :
  translate s va op = TlbRefill ->
  unmapped_pa (mode_va s va) = None /\ lookup_tlb (tlb s) (asid_of s) (mode_va s va) = None.
Proof.
  unfold translate, page_answer. cbv zeta. destruct (unmapped_pa _); [done|]. by repeat case_match.
Qed.
Lemma asid_range s : in_u 8 (asid_of s).
Proof. unfold asid_of. apply in_u_land_r; done. Qed.
Lemma sel_lo_4k hi lo0 lo1 v :
  sel_lo (mk_tlb_entry hi lo0 lo1 0) v = if Z.odd (v / 4096) then lo1 else lo0.
Proof. by rewrite (sel_lo_arith 0). Qed.
Lemma entry_pa_4k hi lo0 lo1 v (lo := if Z.odd (v / 4096) then lo1 else lo0) :
  entry_pa (mk_tlb_entry hi lo0 lo1 0) v = entry_pa (mk_tlb_entry 0 lo lo 0) v.
Proof. unfold entry_pa. rewrite !sel_lo_4k. subst lo. by destruct (Z.odd _). Qed.
Lemma installed_answer hi lo0 lo1 v op (lo := if Z.odd (v / 4096) then lo1 else lo0) :
  valid_dirty lo0 -> valid_dirty lo1 ->
  page_answer (mk_tlb_entry hi lo0 lo1 0) v op = Phys (u32 (entry_pa (mk_tlb_entry 0 lo lo 0) v)).
Proof.
  intros [] []. unfold page_answer. rewrite entry_pa_4k, sel_lo_4k. fold lo.
  assert ((lo .& 2 =? 0) = false /\ (lo .& 4 =? 0) = false) as [-> ->] by (unfold lo; by destruct (Z.odd _)).
  by rewrite andb_false_r.
Qed.
(** After the miss: the TLB as it was, EntryHi staged for the faulting page. *)
Lemma after_miss s va op :
  translate s va op = TlbRefill ->
  let x := after_translate s va op in
  entered (tlb_vector s true (is_64b_addr_mode s)) (if is_store op then 3 else 2) s x /\
  (cpr0_64 x).[CPR0_ENTRYHI] = fault_EntryHi (asid_of s) (mode_va s va) /\
  (cpr0 x).[CPR0_RANDOM] = (cpr0 s).[CPR0_RANDOM] /\ g_iss_tlb_ext x = g_iss_tlb_ext s.
Proof.
  intros Hm. cbv zeta. unfold after_translate. rewrite Hm. cbn [deliver is_refill fault_code].
  set (v := mode_va s va). set (s1 := if is_load op then _ else s).
  set (c := if is_store op then 3 else 2).
  assert (in_u 5 c) as Hc by (subst c; by destruct (is_store op)).
  pose proof (raise_tlb_enters v c true (is_64b_addr_mode s) s1 Hc) as He.
  pose proof (fr_entryhi _ _ _ (raise_tlb_records v c true (is_64b_addr_mode s) s1)) as Hh.
  rewrite Hh. assert (forall A (f : state -> A), (forall w, f (set_g_iss_last_ld_va w s) = f s) -> f s1 = f s) as Hf.
  { intros A f Hw. subst s1. by destruct (is_load op). }
  rewrite (Hf _ asid_of) by done. split_and!; [by subst s1; destruct (is_load op), He|done| |].
  - rewrite <- (Hf _ (fun s => (cpr0 s).[CPR0_RANDOM])) by done.
    unfold raise_tlb, enter_exl, set_exccode. rd_simpl. rewrite set_exc_pc_cpr0 by done.
    unfold tlb_set_fault_state. rd_simpl. done.
  - transitivity (g_iss_tlb_ext s1); [|by apply (Hf _ g_iss_tlb_ext)].
    unfold raise_tlb, set_exc_pc. by repeat case_match.
Qed.

(** The handler, run in any state outside co-simulation. *)
Lemma handler_frame lo0 lo1 y :
  g_iss_tlb_ext y = false -> (cpr0 y).[CPR0_RANDOM] .& 63 < NUM_TLB_ENTRIES ->
  let h := refill_handler lo0 lo1 y in
  tlb h = wr ((cpr0 y).[CPR0_RANDOM] .& 63) (mk_tlb_entry (cpr0_64 y).[CPR0_ENTRYHI] lo0 lo1 0) (tlb y) /\
  (cpr0_64 h).[CPR0_EPC] = (cpr0_64 y).[CPR0_EPC] /\ asid_of h = asid_of y /\
  (cpr0 h).[CPR0_SR] = (cpr0 y).[CPR0_SR] /\ gpr h = gpr y /\ mem h = mem y /\ coherent h.
Proof.
  intros Hx Hr. cbv zeta. unfold refill_handler.
  set (z := y |> set_cpr0_64_at CPR0_ENTRYLO0 lo0 |> set_cpr0_64_at CPR0_ENTRYLO1 lo1
              |> set_cpr0_at CPR0_PAGEMASK 0).
  assert ((cpr0 z).[CPR0_RANDOM] = (cpr0 y).[CPR0_RANDOM]) as Hzr by (subst z; by rd_simpl).
  destruct (tlbwr_frame z Hx) as (Ht & H64 & Hg & Hm & _ & H0); [by rewrite Hzr|].
  unfold asid_of. rewrite Ht, H64, Hg, Hm, H0, rd_wr_ne, Hzr by done. unfold staged_entry. subst z. rd_simpl.
  split_and!; try done. apply coherent_tlbwr.
Qed.
(** The handler after the miss: the staged pair is in the TLB, the return state intact. *)
Lemma handled_miss s va op lo0 lo1 :
  coherent s -> translate s va op = TlbRefill -> sr_bit s SR_EXL = false ->
  g_iss_tlb_ext s = false -> (cpr0 s).[CPR0_RANDOM] .& 63 < NUM_TLB_ENTRIES ->
  let h := refill_handler lo0 lo1 (va_translate s va op).2 in
  tlb h = wr ((cpr0 s).[CPR0_RANDOM] .& 63)
    (mk_tlb_entry (fault_EntryHi (asid_of s) (mode_va s va)) lo0 lo1 0) (tlb s) /\
  (cpr0_64 h).[CPR0_EPC] = u64 (if in_delay_slot s then pc s - 4 else pc s) /\ asid_of h = asid_of s /\
  (cpr0 h).[CPR0_SR] = ((cpr0 s).[CPR0_SR] .& .~ SR_ERL) .| SR_EXL /\
  gpr h = gpr s /\ mem h = mem s /\ coherent h.
Proof.
  intros Hcoh Hm Hexl Hext Hrand. destruct (va_translate_refines s va op Hcoh) as [_ (_ & _ & Harch)].
  destruct (after_miss s va op Hm) as (He & Hehi & Hran & Hx).
  set (x := after_translate s va op) in *. set (y := (va_translate s va op).2) in *. clearbody x y.
  assert (Hf : forall A (f : state -> A), (forall s, f (arch s) = f s) -> f y = f x).
  { intros A f Hw. rewrite <- (Hw y), <- (Hw x). by rewrite Harch. }
  assert (g_iss_tlb_ext y = false) as Hyx by (transitivity (g_iss_tlb_ext x); [by apply Hf|by rewrite Hx]).
  assert (cpr0 y = cpr0 x /\ cpr0_64 y = cpr0_64 x /\ tlb y = tlb x /\ gpr y = gpr x /\ mem y = mem x)
    as (E0 & E64 & Et & Eg & Em) by (split_and!; by apply Hf).
  rewrite <- Hran, <- E0 in Hrand.
  destruct (handler_frame lo0 lo1 y Hyx Hrand) as (Ht & Hp & Ha & Hs & Hg & Hme & Hc). cbv zeta.
  rewrite Ht, Hp, Ha, Hs, Hg, Hme, Et, Eg, Em, E0, E64. unfold asid_of at 2. rewrite E64, Hehi, Hran, (ent_sr _ _ _ _ He), (proj1 (ent_epc _ _ _ _ He Hexl)),
    (ent_tlb _ _ _ _ He), (ent_gpr _ _ _ _ He), (ent_mem _ _ _ _ He).
  split_and!; try done. apply asid_fault_EntryHi, asid_range.
Qed.
Lemma refill_completes s va op lo0 lo1 :
  coherent s -> translate s va op = TlbRefill ->
  sr_bit s SR_EXL = false -> sr_bit s SR_ERL = false ->
  g_iss_tlb_ext s = false -> (cpr0 s).[CPR0_RANDOM] .& 63 < NUM_TLB_ENTRIES ->
  valid_dirty lo0 -> valid_dirty lo1 ->
  exists t, execCoproc0 ERET_INST (refill_handler lo0 lo1 (va_translate s va op).2) = Ok t /\
    refilled lo0 lo1 s va op t.
Proof.
  intros Hcoh Hm Hexl Herl Hext Hrand Hlo0 Hlo1. destruct (miss_no_match s va op Hm) as [Hun Hno].
  destruct (handled_miss s va op lo0 lo1 Hcoh Hm Hexl Hext Hrand) as (Ht & Hp & Ha & Hs & Hg & Hme & Hc).
  set (h := refill_handler lo0 lo1 (va_translate s va op).2) in *. clearbody h.
  rewrite sr_exl in Hexl. rewrite sr_erl in Herl.
  destruct (eret_exl h) as (t & Heret & Hpc & Hsr & _ & Hg' & Hm' & Ht' & H64' & Hu).
  { rewrite sr_erl, Hs. by rewrite exl_word_bits. }
  exists t. split; [exact Heret|].
  assert (coherent t) as Hct by (unfold coherent; by rewrite Ht', Hu).
  assert ((cpr0 t).[CPR0_SR] = (cpr0 s).[CPR0_SR]) as ESR by (rewrite Hsr, Hs; by apply sr_restored).
  assert (asid_of t = asid_of s) as Easid by (unfold asid_of; by rewrite H64').
  unfold refilled. cbv zeta. rewrite (proj1 (va_translate_refines t va op Hct)).
  assert (forall P : xlate -> Prop, P (Phys (u32 (entry_pa
    (let lo := if Z.odd (mode_va s va / 4096) then lo1 else lo0 in mk_tlb_entry 0 lo lo 0) (mode_va s va)))) ->
    P (translate t va op)) as Etr.
  { intros P HP. unfold translate, mode_va. rewrite (mode_sr t s ESR), Easid, Ht', Ht. fold (mode_va s va). cbv zeta.
    rewrite Hun, lookup_install, rd_wr_eq; [by rewrite installed_answer| | |].
    - split; [apply land_63_range|done].
    - apply cam_match_fault, asid_range.
    - intros j Hj. apply (proj1 (first_from_None _ _ _) Hno). unfold tlb_n. lia. }
  rewrite Hpc, Hp, eret_epc, Hg', Hg, Hm', Hme. split_and!; try done; by apply Etr.
Qed.
End refill.

(** ** The claims *)

(** C3. Translation refines the memory map.  With a coherent micro-TLB, [va_translate]
    returns the physical address the abstract map gives (unmapped windows, else
    the first matching page pair) and, up to the micro-TLB, leaves the state
    alone on success; on a miss, an invalid page or a write to a clean page it
    raises exactly that fault with its code, for the address the operating
    mode sees. *)
Theorem va_translate_refines_map `{Config} (s : state) (va : Z) (op : tlb_op) (Hc : coherent s) :
  (va_translate s va op).1 = phys_or_0 (translate s va op) /\
  arch (va_translate s va op).2 = arch (after_translate s va op) /\
  coherent (va_translate s va op).2.
Proof. by destruct (va_translate_refines s va op Hc) as [? (?&?&?)]. Qed.
Lemma va_translate_refines_map_witness :
  let s := state_init (mk_sparse_mem ∅ false) false in
  (@va_translate r4400_config s 0x1234 op_load).1 = phys_or_0 (@translate r4400_config s 0x1234 op_load) /\
  arch (@va_translate r4400_config s 0x1234 op_load).2 = arch (@after_translate r4400_config s 0x1234 op_load) /\
  @coherent r4400_config (@va_translate r4400_config s 0x1234 op_load).2.
Proof. intros s. apply (@va_translate_refines_map r4400_config). apply coh_empty. Defined.

(** The bit masks of the walk compute page-pair arithmetic.  For every
    architected page size (4 KB times 4^k, up to 16 MB): an entry matches an address
    iff they lie in the same page pair of the segment, the same region, and the ASID
    matches or the entry is global; the odd page serves the odd pages of the
    pair; and with an aligned frame number the physical address is the frame plus
    the offset inside the page. *)
Theorem page_pair_arithmetic `{Config} (k va asid : Z) (e : tlb_entry_t)
    (Hk : 0 <= k <= 6) (Hpm : pm_of e = PageMask_of k) (Hal : lo_pfn (sel_lo e va) mod 4 ^ k = 0) :
  cam_match va asid e = (pair_of k va =? pair_of k (entry_hi e)) && (region va =? region (entry_hi e))
                        && asid_match e asid /\
  sel_lo e va = (if Z.odd (va / page_size k) then entry_lo1 e else entry_lo0 e) /\
  entry_pa e va = lo_pfn (sel_lo e va) * 4096 + va mod page_size k.
Proof. split_and!; [by apply cam_match_arith|apply sel_lo_arith; [lia|done]|apply entry_pa_arith; [lia|done..]]. Qed.
Lemma page_pair_arithmetic_witness :
  let e := mk_tlb_entry 0x400008 (4 << 6) (8 << 6) 0x6000 in
  @cam_match r4400_config 0x404567 8 e =
    (@pair_of r4400_config 1 0x404567 =? @pair_of r4400_config 1 (entry_hi e))
    && (region 0x404567 =? region (entry_hi e)) && asid_match e 8 /\
  sel_lo e 0x404567 = (if Z.odd (0x404567 / page_size 1) then entry_lo1 e else entry_lo0 e) /\
  entry_pa e 0x404567 = lo_pfn (sel_lo e 0x404567) * 4096 + 0x404567 mod page_size 1.
Proof. intros e. apply (@page_pair_arithmetic r4400_config 1); [lia|reflexivity|reflexivity]. Defined.

(** C8. A TLB exception records the faulting address and enters its vector:
    BadVAddr, EntryHi (page pair and region of the address, current ASID), the BadVPN2
    fields of Context and XContext (PTEBase kept), each with its 32-bit view; the refill
    vectors are used only for a refill with EXL clear, the general one
    otherwise; EPC, BD, Status, registers, memory and TLB as for any exception. *)
Theorem tlb_exception_entry `{Config} (va code : Z) (refill xtlb : bool) (s : state) (Hcode : in_u 5 code) :
  fault_recorded va s (raise_tlb va code refill xtlb s) /\
  entered (tlb_vector s refill xtlb) code s (raise_tlb va code refill xtlb s).
Proof. split; [apply raise_tlb_records|by apply raise_tlb_enters]. Qed.
Lemma tlb_exception_entry_witness :
  let s := state_init (mk_sparse_mem ∅ false) false in
  @fault_recorded r4400_config 0x7fff1234 s (@raise_tlb r4400_config 0x7fff1234 2 true false s) /\
  entered (tlb_vector s true false) 2 s (@raise_tlb r4400_config 0x7fff1234 2 true false s).
Proof. intros s. apply (@tlb_exception_entry r4400_config). unfold in_u. lia. Defined.

(** TLBWI installs the staged page pair.  Outside co-simulation and with Index in
    range, an address the staged pair covers (and no lower entry does)
    translates through it afterwards, and every address that neither the new
    nor the replaced pair covers translates as before. *)
Theorem tlbwi_installs `{Config} (s : state) (Hext : g_iss_tlb_ext s = false)
    (Hidx : (cpr0 s).[CPR0_INDEX] .& 63 < NUM_TLB_ENTRIES) :
  let i := (cpr0 s).[CPR0_INDEX] .& 63 in
  forall va op, let v := mode_va s va in
  let covers e := cam_match v (asid_of s) e = true in
  (unmapped_pa v = None -> covers (staged_entry s) ->
   (forall j, 0 <= j < i -> ~ covers (tlb s).[j]) ->
   translate (tlbwi s) va op = page_answer (staged_entry s) v op) /\
  (~ covers (staged_entry s) -> ~ covers (tlb s).[i] ->
   translate (tlbwi s) va op = translate s va op).
Proof.
  cbv zeta. intros va op. set (v := mode_va s va).
  assert (mode_va (tlbwi s) va = v) as Hv.
  { unfold v, mode_va. rewrite (mode_sr (tlbwi s) s); [done|]. unfold tlbwi, write_staged. by destruct (_ && _). }
  assert (asid_of (tlbwi s) = asid_of s) as Ha by (unfold tlbwi, write_staged; by destruct (_ && _)).
  unfold translate. rewrite Hv, Ha, tlb_tlbwi by done. fold v. split.
  - intros -> He Hlt. rewrite lookup_install, rd_wr_eq; [done|split; [apply land_63_range|done]|done|].
    intros j Hj. by apply not_true_is_false, Hlt.
  - intros He%not_true_is_false Hi%not_true_is_false. rewrite lookup_other by done.
    destruct (lookup_tlb _ _ _) as [k|] eqn:Hl; [|done]. rewrite rd_wr_ne; [done|].
    intros <-. apply lookup_ne in Hl. congruence.
Qed.
Lemma tlbwi_installs_witness :
  let s := set_cpr0_64_at CPR0_ENTRYLO0 0x4007 (state_init (mk_sparse_mem ∅ false) false) in
  @translate r4400_config (@tlbwi r4400_config s) 0x123 op_load = page_answer (staged_entry s) 0x123 op_load.
Proof.
  intros s. apply (@tlbwi_installs r4400_config s); [reflexivity|reflexivity|reflexivity|reflexivity|].
  intros j Hj. exfalso. revert Hj. vm_compute. intros [? ?]. by destruct j.
Defined.

(** C4. The refill round trip.  After a TLB miss in normal mode, a handler that loads a
    valid, writable page pair into EntryLo0/1 (4 KB pages), executes TLBWR and
    returns by ERET resumes at the faulting instruction (or its branch) with
    registers, memory and Status unchanged, and the retried access translates,
    without a fault, to the frame of the selected page. *)
Theorem tlb_refill_round_trip `{Config} (s : state) (va : Z) (op : tlb_op) (lo0 lo1 : Z)
    (Hcoh : coherent s) (Hmiss : translate s va op = TlbRefill)
    (Hexl : sr_bit s SR_EXL = false) (Herl : sr_bit s SR_ERL = false)
    (Hext : g_iss_tlb_ext s = false) (Hrand : (cpr0 s).[CPR0_RANDOM] .& 63 < NUM_TLB_ENTRIES)
    (Hlo0 : valid_dirty lo0) (Hlo1 : valid_dirty lo1) :
  exists t, execCoproc0 ERET_INST (refill_handler lo0 lo1 (va_translate s va op).2) = Ok t /\
    refilled lo0 lo1 s va op t.
Proof. by apply refill_completes. Qed.
Lemma tlb_refill_round_trip_witness :
  let s := set_cpr0_64_at CPR0_ENTRYHI 5 (set_pc 0x400100 (state_init (mk_sparse_mem ∅ false) false)) in
  exists t, @execCoproc0 r4400_config ERET_INST
      (@refill_handler r4400_config 0x4006 0x8006 (@va_translate r4400_config s 0x5010 op_store).2) = Ok t /\
    @refilled r4400_config 0x4006 0x8006 s 0x5010 op_store t.
Proof.
  intros s. apply (@tlb_refill_round_trip r4400_config); try reflexivity; [apply coh_empty|done|done].
Defined.

Section random.
Context `{Config}.
Implicit Types (s : state).
Definition Random_of (s : state) : Z := (cpr0 s).[CPR0_RANDOM] .& 63.
Definition Wired_of (s : state) : Z := (cpr0 s).[CPR0_WIRED] .& 63.
Lemma small_land_63 x : 0 <= x < 64 -> x .& 63 = x.
Proof. intros. change 63 with (Z.ones 6). rewrite Z.land_ones by done. by apply Z.mod_small. Qed.
Lemma tlbwr_step s :
  g_iss_tlb_ext s = false -> Wired_of s <= Random_of s < NUM_TLB_ENTRIES ->
  let t := tlbwr s in
  g_iss_tlb_ext t = false /\ Wired_of t = Wired_of s /\ Wired_of t <= Random_of t < NUM_TLB_ENTRIES /\
  forall j, j < Wired_of s -> (tlb t).[j] = (tlb s).[j].
Proof.
  intros Hx Hr. pose proof tlb_entries_pos. pose proof (land_63_range (cpr0 s).[CPR0_WIRED]) as Hw.
  destruct (tlbwr_frame s Hx) as (Ht & _ & _ & _ & Hx' & E0); [apply Hr|]. cbv zeta.
  assert (Wired_of (tlbwr s) = Wired_of s) as Hwe by (unfold Wired_of; rewrite E0; by rd_simpl).
  rewrite Ht, Hwe. unfold Random_of at 1 2. rewrite E0, rd_wr_eq. fold (Random_of s) (Wired_of s) in *.
  split_and!; try done.
  1,2: destruct (Z.leb_spec (Random_of s) (Wired_of s)); rewrite small_land_63; lia.
  intros j Hj. rewrite rd_wr_ne; [done|]. fold (Random_of s). lia.
Qed.
End random.

(** C15. TLBWR never touches a wired entry.  Outside co-simulation, any number of
    TLBWRs from a state with Wired <= Random < NUM_TLB_ENTRIES (as reset leaves
    it) keeps that invariant and leaves every entry below Wired as it was. *)
Theorem tlbwr_spares_wired `{Config} (k : nat) (s : state) (Hext : g_iss_tlb_ext s = false)
    (Hr : Wired_of s <= Random_of s < NUM_TLB_ENTRIES) :
  let t := Nat.iter k tlbwr s in
  Wired_of t <= Random_of t < NUM_TLB_ENTRIES /\
  forall j, j < Wired_of s -> (tlb t).[j] = (tlb s).[j].
Proof.
  cbv zeta. enough (g_iss_tlb_ext (Nat.iter k tlbwr s) = false /\
    Wired_of (Nat.iter k tlbwr s) = Wired_of s /\
    Wired_of (Nat.iter k tlbwr s) <= Random_of (Nat.iter k tlbwr s) < NUM_TLB_ENTRIES /\
    forall j, j < Wired_of s -> (tlb (Nat.iter k tlbwr s)).[j] = (tlb s).[j]) as (_ & _ & ? & ?) by done.
  induction k as [|k (Hx & Hw & Hr' & Ht)]; [done|]. cbn [Nat.iter nat_rect].
  destruct (tlbwr_step _ Hx Hr') as (Hx' & Hw' & [] & Ht'). rewrite <- Hw. split_and!; try done.
  intros j Hj. rewrite Ht' by done. apply Ht. by rewrite <- Hw.
Qed.
Lemma tlbwr_spares_wired_witness :
  let s := set_cpr0_at CPR0_WIRED 8 (@initState r4400_config (state_init (mk_sparse_mem ∅ false) false)) in
  let t := Nat.iter 100 (@tlbwr r4400_config) s in
  (Wired_of t <= Random_of t < @NUM_TLB_ENTRIES r4400_config) /\
  forall j, j < Wired_of s -> (tlb t).[j] = (tlb s).[j].
Proof. intros s. apply (@tlbwr_spares_wired r4400_config 100 s); [reflexivity|vm_compute; split; [intros E; discriminate E|reflexivity]]. Defined.

(** C14. TLBWI, TLBP and TLBR agree.  After TLBWI at Index i, TLBP with the same EntryHi
    finds i (if no lower entry matches), and TLBR there reads back EntryHi,
    EntryLo0, EntryLo1 and PageMask exactly, whatever was left in EntryLo and PageMask
    in between. *)
Theorem tlb_write_probe_read `{Config} (s : state) (x y z : Z) (Hext : g_iss_tlb_ext s = false)
    (Hidx : (cpr0 s).[CPR0_INDEX] .& 63 < NUM_TLB_ENTRIES)
    (Hlow : forall j, 0 <= j < (cpr0 s).[CPR0_INDEX] .& 63 ->
            tlbp_match (cpr0_64 s).[CPR0_ENTRYHI] (tlb s).[j] = false) :
  let t := tlbp (tlbwi s) in
  (cpr0 t).[CPR0_INDEX] = (cpr0 s).[CPR0_INDEX] .& 63 /\
  staged_entry (tlbr (t |> set_cpr0_64_at CPR0_ENTRYLO0 x |> set_cpr0_64_at CPR0_ENTRYLO1 y
                        |> set_cpr0_at CPR0_PAGEMASK z)) = staged_entry s.
Proof.
  cbv zeta. set (i := (cpr0 s).[CPR0_INDEX] .& 63) in *. pose proof (land_63_range (cpr0 s).[CPR0_INDEX]) as Hi. fold i in Hi.
  pose proof (tlb_tlbwi s Hext Hidx) as Ht. fold i in Ht.
  assert (cpr0_64 (tlbwi s) = cpr0_64 s) as H64 by (unfold tlbwi, write_staged; by destruct (_ && _)).
  assert (first_from (fun j => tlbp_match (cpr0_64 (tlbwi s)).[CPR0_ENTRYHI] (tlb (tlbwi s)).[j]) 0 tlb_n = Some i) as Hp.
  { rewrite H64, Ht. apply first_from_is; [unfold tlb_n; lia| |].
    - rewrite rd_wr_eq. unfold tlbp_match, staged_entry; cbn [entry_hi page_mask]. rewrite !Z.eqb_refl, orb_true_r. done.
    - intros j Hj. rewrite rd_wr_ne by lia. by apply Hlow. }
  unfold tlbp. rewrite Hp. split; [by rd_simpl|].
  unfold tlbr. rd_simpl. rewrite small_land_63, tlb_at_in by lia. rd_simpl. rewrite Ht, rd_wr_eq.
  rewrite (proj2 (Z.ltb_lt _ _)) by done. unfold staged_entry. rd_simpl. done.
Qed.
Lemma tlb_write_probe_read_witness :
  let s := set_cpr0_64_at CPR0_ENTRYLO0 0x4007 (state_init (mk_sparse_mem ∅ false) false) in
  let t := @tlbp r4400_config (@tlbwi r4400_config s) in
  (cpr0 t).[CPR0_INDEX] = (cpr0 s).[CPR0_INDEX] .& 63 /\
  staged_entry (@tlbr r4400_config (t |> set_cpr0_64_at CPR0_ENTRYLO0 1 |> set_cpr0_64_at CPR0_ENTRYLO1 2
                        |> set_cpr0_at CPR0_PAGEMASK 3)) = staged_entry s.
Proof.
  intros s. apply (@tlb_write_probe_read r4400_config); [reflexivity|reflexivity|].
  intros j [H0 H1]. exfalso. revert H0 H1. vm_compute. by destruct j.
Defined.

(** Writing Wired does not reset Random, so a TLBWR that follows can replace a
    wired entry: here Wired = 8 is written while Random = 1. *)
Lemma mtc0_wired_keeps_random :
  let s := set_gpr_at 4 8 (Nat.iter 46 (@tlbwr r4400_config)
             (@initState r4400_config (state_init (mk_sparse_mem ∅ false) false))) in
  match @execCoproc0 r4400_config 0x40843000 s with   (* mtc0 $4, Wired *)
  | Ok t => Wired_of t = 8 /\ Random_of t = 1
  | Stop _ => False
  end.
Proof. vm_compute. done. Qed.
