(* ===== verification/LsProps.v ===== *)
(** Functional correctness of the loads and stores over the abstract memory map
    of [TlbSpec]: what each handler returns on every path, store/load round
    trips, the unaligned pairs, and load-linked/store-conditional. *)
From S2P Require Import Prelude Bits Insns State Mem Wf Exc Tlb LoadStore Alu Fp Fpu Cp0 Branch Exec Arch Utlb NonInterf ExcProps TlbSpec TlbProps.

(** Big-endian numbers in physical memory. *)
Definition be_read (n : nat) (pa : Z) (m : sparse_mem) : Z :=
  le_join (rev (load_bytes (mem_bytes m) (route m pa) n)).
Definition be_write (n : nat) (pa v : Z) (m : sparse_mem) : sparse_mem :=
  {| mem_bytes := store_bytes (mem_bytes m) (route m pa) (rev (le_split n v));
     route_devices := route_devices m |}.

Section results.
Context `{Config}.
(** The state a successful translation leaves. *)
Definition touched (op : tlb_op) (va : Z) (s : state) : state :=
  if is_load op then set_g_iss_last_ld_va (mode_va s va) s else s.
(** What an access of [n] bytes returns: the access itself, an address error on a
    misaligned physical address, or the TLB exception. *)
Definition access (op : tlb_op) (n : nat) (va : Z) (s : state) (go : Z -> state -> state) : state :=
  match translate s va op with
  | Phys pa => if pa mod Z.of_nat n =? 0 then go pa (touched op va s)
               else (if is_store op then raise_ades else raise_adel) (touched op va s)
  | _ => after_translate s va op
  end.
Definition load_result (n : nat) (conv : Z -> Z) (inst : Z) (s : state) : state :=
  access op_load n (base_imm inst s) s (fun pa t =>
    t |> set_gpr_at (f_rt inst) (conv (be_read n pa (mem t))) |> add_pc 4).
Definition store_result (n : nat) (inst : Z) (s : state) : state :=
  access op_store n (base_imm inst s) s (fun pa t =>
    t |> set_mem (be_write n pa (gpr t).[f_rt inst] (mem t)) |> add_pc 4).
End results.

(** The aligned loads and stores of the big-endian machine. *)
Definition loads `{Config} : list ((Z -> state -> result state) * nat * (Z -> Z)) :=
  [(_lb, 1%nat, s8); (_lbu, 1%nat, u8); (_lh false, 2%nat, s16); (_lhu false, 2%nat, u16);
   (_lw false, 4%nat, s32); (_lwu false, 4%nat, u32); (_ld false, 8%nat, s64)].
Definition stores `{Config} : list ((Z -> state -> result state) * nat) :=
  [(_sb, 1%nat); (_sh false, 2%nat); (_sw false, 4%nat); (_sd false, 8%nat)].

(** * Theorems *)
Section generic.
Context `{Config}.
Implicit Types (s t : state) (va : Z) (op : tlb_op) (m : sparse_mem) (n : nat).
#[local] Hint Resolve R_refl : arch.

Lemma rel_trans (a b c : result state) : rel R a b -> rel R b c -> rel R a c.
Proof. destruct a, b, c; cbn; try done; [apply R_trans|congruence]. Qed.
Lemma rel_refl s : coherent s -> rel R (Ok s) (Ok s).
Proof. done. Qed.
Lemma after_fault s va op :
  (forall pa, translate s va op <> Phys pa) -> tlb_fault (after_translate s va op) = true.
Proof.
  intros Hn. unfold after_translate, deliver.
  destruct (translate s va op) as [pa| | |] eqn:Ht; [by destruct (Hn pa)|done..].
Qed.
(** A translated access against the abstract map. *)
Lemma rel_translated_spec va op k s :
  coherent s -> tlb_fault s = false -> (forall ea s t, R s t -> rel R (k ea s) (k ea t)) ->
  rel R (translated va op k s)
    (match translate s va op with Phys pa => k pa (touched op va s) | _ => Ok (after_translate s va op) end).
Proof.
  intros Hc Hf Hk. unfold translated. destruct (va_translate_refines s va op Hc) as [Hpa HR].
  destruct (va_translate s va op) as [ea s']. cbn [fst snd] in *. subst ea.
  assert (tlb_fault s' = tlb_fault (after_translate s va op)) as Htf.
  { destruct HR as (_ & _ & Ha). exact (f_equal tlb_fault Ha). }
  destruct (translate s va op) as [pa| | |] eqn:Ht.
  - unfold after_translate in HR, Htf. rewrite Ht in HR, Htf. cbn [deliver phys_or_0] in *.
    replace (tlb_fault s') with false; [by apply Hk|].
    rewrite Htf. unfold touched. by destruct (is_load op).
  - by rewrite Htf, after_fault by (intros pa; by rewrite Ht).
  - by rewrite Htf, after_fault by (intros pa; by rewrite Ht).
  - by rewrite Htf, after_fault by (intros pa; by rewrite Ht).
Qed.

Lemma land_mask_mod (n : Z) x : 0 <= n -> x .& (2 ^ n - 1) = x mod 2 ^ n.
Proof. intros. rewrite <- Z.land_ones, Z.ones_equiv by done. done. Qed.
Lemma byteswap_load m a n :
  mem_ok m -> byteswap n (le_join (load_bytes (mem_bytes m) a n)) = le_join (rev (load_bytes (mem_bytes m) a n)).
Proof.
  intros Hm. unfold byteswap. rewrite <- (length_load_bytes (mem_bytes m) a n) at 1.
  by rewrite le_split_join by (by apply load_bytes_ok).
Qed.
Definition access_size n : Prop := (n = 1 \/ n = 2 \/ n = 4 \/ n = 8)%nat.
Lemma get_aligned n s pa :
  access_size n -> mem_ok (mem s) -> in_u 32 pa -> pa mod Z.of_nat n = 0 ->
  exists v, get n pa s = Ok v /\ byteswap n v = be_read n pa (mem s).
Proof. intros. eexists. split; [by apply mem_get_aligned|]. by apply byteswap_load. Qed.
Lemma put_aligned n s pa v :
  access_size n -> in_u 32 pa -> pa mod Z.of_nat n = 0 ->
  put n pa (byteswap n v) s = Ok (set_mem (be_write n pa v (mem s)) s).
Proof. intros. unfold put. rewrite mem_set_aligned by done. cbn. by rewrite le_split_byteswap. Qed.

Lemma translate_range s va op pa : translate s va op = Phys pa -> in_u 32 pa.
Proof.
  unfold translate, unmapped_pa, page_answer. cbv zeta. repeat case_match; intros; simplify_eq; rng.
Qed.
Lemma touched_frame s va op :
  mem (touched op va s) = mem s /\ gpr (touched op va s) = gpr s /\ (coherent s -> coherent (touched op va s)) /\
  pc (touched op va s) = pc s /\ tlb_fault (touched op va s) = tlb_fault s.
Proof. unfold touched. by destruct (is_load op). Qed.
Lemma coherent_after s va op : coherent s -> coherent (after_translate s va op).
Proof. intros Hc. by destruct (va_translate_refines s va op Hc) as [_ (_ & ? & _)]. Qed.

(** The generic access: a continuation that checks alignment and goes on. *)
Lemma rel_access op n va s (k : Z -> state -> result state) go :
  coherent s -> tlb_fault s = false ->
  (forall ea s t, R s t -> rel R (k ea s) (k ea t)) ->
  (forall pa t, in_u 32 pa -> mem t = mem s -> gpr t = gpr s -> coherent t ->
     rel R (k pa t) (Ok (if pa mod Z.of_nat n =? 0 then go pa t
                         else (if is_store op then raise_ades else raise_adel) t))) ->
  rel R (translated va op k s) (Ok (access op n va s go)).
Proof.
  intros Hc Hf Hk Hgo. eapply rel_trans; [by apply rel_translated_spec|].
  pose proof (touched_frame s va op) as (Hm & Hg & Hct & _).
  unfold access. destruct (translate s va op) as [pa| | |] eqn:Ht; try by apply rel_refl, coherent_after.
  apply translate_range in Ht. specialize (Hgo pa (touched op va s) Ht Hm Hg (Hct Hc)). by destruct (_ =? 0).
Qed.
End generic.

(** ** The aligned handlers *)
Section aligned.
Context `{Config}.
Implicit Types (s t : state) (inst : Z) (n : nat).
Definition load_k n (conv : Z -> Z) (mi : mipsInsn.t) inst (ea : Z) (t : state) : result state :=
  if ea .& (Z.of_nat n - 1) =/? 0 then Ok (raise_adel t) else
  let! v := get n ea t in
  Ok (t |> set_gpr_at (f_rt inst) (conv (bswap false n v)) |> add_pc 4 |> histo mi).
Definition store_k n (mi : mipsInsn.t) inst (ea : Z) (t : state) : result state :=
  if ea .& (Z.of_nat n - 1) =/? 0 then Ok (raise_ades t) else
  let! t := put n ea (bswap false n (wrapu (8 * Z.of_nat n) (gpr t).[f_rt inst])) t in
  Ok (t |> add_pc 4 |> histo mi).
Lemma size_land n x : access_size n -> x .& (Z.of_nat n - 1) = x mod Z.of_nat n.
Proof.
  intros [->|[->|[->| ->]]]; [apply (land_mask_mod 0)|apply (land_mask_mod 1)|apply (land_mask_mod 2)|
    apply (land_mask_mod 3)]; done.
Qed.
Lemma rel_load_k n conv mi inst ea s t : R s t -> rel R (load_k n conv mi inst ea s) (load_k n conv mi inst ea t).
Proof. rel_of load_k. Qed.
Lemma rel_store_k n mi inst ea s t : R s t -> rel R (store_k n mi inst ea s) (store_k n mi inst ea t).
Proof. rel_of store_k. Qed.
Lemma R_histo_l mi s : coherent s -> R (histo mi s) s.
Proof. done. Qed.

Lemma load_correct n conv mi inst s :
  access_size n -> mem_ok (mem s) -> coherent s -> tlb_fault s = false ->
  rel R (translated (base_imm inst s) op_load (load_k n conv mi inst) s) (Ok (load_result n conv inst s)).
Proof.
  intros Hn Hw Hc Hf. apply rel_access; [done|done|apply rel_load_k|]. intros pa t Hpa Hm Hg Hct.
  unfold load_k. rewrite size_land by done. destruct (Z.eqb_spec (pa mod Z.of_nat n) 0); cbn [negb].
  - destruct (get_aligned n t pa) as (v & Hv & Hb); [done|by rewrite Hm|done|done|].
    rewrite Hv. cbn [mbind result_bind bswap]. rewrite Hb. by apply R_histo_l.
  - cbn [rel is_store]. by apply R_raise_adel.
Qed.
Lemma le_split_rev_wrapu n v : byteswap n (wrapu (8 * Z.of_nat n) v) = byteswap n v.
Proof. unfold byteswap. by rewrite le_split_wrapu. Qed.
Lemma store_correct n mi inst s :
  access_size n -> coherent s -> tlb_fault s = false ->
  rel R (translated (base_imm inst s) op_store (store_k n mi inst) s) (Ok (store_result n inst s)).
Proof.
  intros Hn Hc Hf. apply rel_access; [done|done|apply rel_store_k|]. intros pa t Hpa Hm Hg Hct.
  unfold store_k. rewrite size_land by done. destruct (Z.eqb_spec (pa mod Z.of_nat n) 0); cbn [negb].
  - cbn [bswap]. rewrite le_split_rev_wrapu, put_aligned by done. by apply R_histo_l.
  - cbn [rel is_store]. by apply R_raise_ades.
Qed.

(** Byte accesses need no alignment and no swap. *)
Lemma byteswap_1 v : byteswap 1 v = u8 v.
Proof. unfold byteswap. cbn. by rewrite Z.lor_0_r. Qed.
Lemma lb_eq inst s : rel eq (_lb inst s) (translated (base_imm inst s) op_load (load_k 1 s8 mipsInsn.LB inst) s).
Proof.
  unfold _lb, translated. destruct (va_translate _ _ _) as [ea t]. destruct (tlb_fault t); [done|].
  unfold load_k. rewrite Z.land_0_r. cbn -[get byteswap wraps wrapu]. destruct (get 1 ea t); cbn -[byteswap wraps wrapu]; [|done]. by rewrite byteswap_1, wraps_wrapu.
Qed.
Lemma lbu_eq inst s : rel eq (_lbu inst s) (translated (base_imm inst s) op_load (load_k 1 u8 mipsInsn.LBU inst) s).
Proof.
  unfold _lbu, translated. destruct (va_translate _ _ _) as [ea t]. destruct (tlb_fault t); [done|].
  unfold load_k. rewrite Z.land_0_r. cbn -[get byteswap wraps wrapu]. destruct (get 1 ea t); cbn -[byteswap wraps wrapu]; [|done]. by rewrite byteswap_1, wrapu_wrapu.
Qed.
Lemma sb_eq inst s : rel eq (_sb inst s) (translated (base_imm inst s) op_store (store_k 1 mipsInsn.SB inst) s).
Proof.
  unfold _sb, translated. destruct (va_translate _ _ _) as [ea t]. destruct (tlb_fault t); [done|].
  unfold store_k. rewrite Z.land_0_r. cbn -[put byteswap wrapu]. rewrite byteswap_1, wrapu_wrapu by done.
  by destruct (put 1 ea _ t).
Qed.
Lemma rel_eq_R (a b c : result state) : rel eq a b -> rel R b c -> rel R a c.
Proof. destruct a, b; cbn; try done; by intros ->. Qed.

Lemma loads_correct inst s :
  mem_ok (mem s) -> coherent s -> tlb_fault s = false ->
  Forall (fun '(ld, n, conv) => rel R (ld inst s) (Ok (load_result n conv inst s))) loads.
Proof.
  intros Hw Hc Hf. assert (access_size 1 /\ access_size 2 /\ access_size 4 /\ access_size 8)
    as (H1 & H2 & H4 & H8) by (unfold access_size; split_and!; lia).
  repeat apply Forall_cons_2; [..|done].
  - exact (rel_eq_R _ _ _ (lb_eq inst s) (load_correct 1 s8 mipsInsn.LB inst s H1 Hw Hc Hf)).
  - exact (rel_eq_R _ _ _ (lbu_eq inst s) (load_correct 1 u8 mipsInsn.LBU inst s H1 Hw Hc Hf)).
  - exact (load_correct 2 s16 mipsInsn.LH inst s H2 Hw Hc Hf).
  - exact (load_correct 2 u16 mipsInsn.LHU inst s H2 Hw Hc Hf).
  - exact (load_correct 4 s32 mipsInsn.LW inst s H4 Hw Hc Hf).
  - exact (load_correct 4 u32 mipsInsn.LWU inst s H4 Hw Hc Hf).
  - exact (load_correct 8 s64 mipsInsn.LD inst s H8 Hw Hc Hf).
Qed.
Lemma stores_correct inst s :
  coherent s -> tlb_fault s = false ->
  Forall (fun '(st, n) => rel R (st inst s) (Ok (store_result n inst s))) stores.
Proof.
  intros Hc Hf. assert (access_size 1 /\ access_size 2 /\ access_size 4 /\ access_size 8)
    as (H1 & H2 & H4 & H8) by (unfold access_size; split_and!; lia).
  repeat apply Forall_cons_2; [..|done].
  - exact (rel_eq_R _ _ _ (sb_eq inst s) (store_correct 1 mipsInsn.SB inst s H1 Hc Hf)).
  - exact (store_correct 2 mipsInsn.SH inst s H2 Hc Hf).
  - exact (store_correct 4 mipsInsn.SW inst s H4 Hc Hf).
  - exact (store_correct 8 mipsInsn.SD inst s H8 Hc Hf).
Qed.
End aligned.

(** ** Store, then load *)
Section round_trip.
Context `{Config}.
Implicit Types (s t r : state) (inst : Z) (n : nat) (m : sparse_mem).
Lemma rel_Ok (x : result state) s : rel R x (Ok s) <-> exists t, x = Ok t /\ R t s.
Proof. destruct x as [t|]; cbn; [|by split; [|intros (?&?&?)]]. split; [eauto|]. intros (? & [= ->] & ?). done. Qed.
Lemma be_read_write n pa v m : be_read n pa (be_write n pa v m) = wrapu (8 * Z.of_nat n) v.
Proof.
  unfold be_read, be_write. cbn [mem_bytes]. change (route _ pa) with (route m pa).
  rewrite <- (length_le_split n v) at 2. rewrite <- length_rev, load_store_bytes, rev_involutive.
  apply le_join_split.
Qed.
Lemma be_read_write_disjoint n k pa pb v m :
  route m pb + Z.of_nat k <= route m pa \/ route m pa + Z.of_nat n <= route m pb ->
  be_read k pb (be_write n pa v m) = be_read k pb m.
Proof.
  intros Hd. unfold be_read, be_write. cbn [mem_bytes]. change (route _ pb) with (route m pb).
  rewrite load_store_bytes_disjoint; [done|]. rewrite length_rev, length_le_split. lia.
Qed.
Lemma be_write_ok n pa v m :
  access_size n -> in_u 32 pa -> pa mod Z.of_nat n = 0 -> mem_ok m -> mem_ok (be_write n pa v m).
Proof.
  intros Hn Hpa Hal Hm. apply (mem_set_ok n pa (byteswap n v) m); [done|apply Hpa|].
  rewrite mem_set_aligned by done. by rewrite le_split_byteswap.
Qed.
(** Write permission implies read permission, at the same address. *)
Lemma translate_store_load s va pa : translate s va op_store = Phys pa -> translate s va op_load = Phys pa.
Proof.
  unfold translate, page_answer. cbv zeta. destruct (unmapped_pa _); [done|].
  destruct (lookup_tlb _ _ _); [|done]. repeat case_match; cbn in *; simplify_eq; done.
Qed.
Lemma store_then_load n conv inst inst' s t pa :
  access_size n -> mem_ok (mem s) -> R t (store_result n inst s) ->
  translate s (base_imm inst s) op_store = Phys pa -> pa mod Z.of_nat n = 0 ->
  base_imm inst' s = base_imm inst s ->
  mem_ok (mem t) /\ tlb_fault t = tlb_fault s /\ coherent t /\
  gpr (load_result n conv inst' t) =
    wr (f_rt inst') (conv (wrapu (8 * Z.of_nat n) (gpr s).[f_rt inst])) (gpr s).
Proof.
  intros Hn Hm (Hc & _ & Ha) Htr Hal Hb.
  unfold store_result, access in Ha. rewrite Htr in Ha. replace (_ =? 0) with true in Ha by lia.
  cbn [touched is_load] in Ha. set (x := add_pc 4 _) in Ha.
  assert (Hf : forall A (f : state -> A), (forall s, f (arch s) = f s) -> f t = f x).
  { intros A f Hw. rewrite <- (Hw t), <- (Hw x). by rewrite Ha. }
  assert (mem t = be_write n pa (gpr s).[f_rt inst] (mem s)) as Em by (by apply (Hf _ mem)).
  assert (gpr t = gpr s) as Eg by (by apply (Hf _ gpr)).
  assert (translate t (base_imm inst' t) op_load = Phys pa) as Et.
  { unfold base_imm. rewrite Eg. fold (base_imm inst' s). rewrite Hb. rewrite <- (translate_store_load s _ pa Htr).
    apply translate_ext; [by apply (Hf _ tlb)|by apply (Hf _ asid_of)|by apply (Hf _ is_64b_addr_mode)]. }
  split_and!; [rewrite Em; apply be_write_ok; try done; by eapply translate_range|by apply (Hf _ tlb_fault)|done|].
  unfold load_result, access. rewrite Et. replace (_ =? 0) with true by lia.
  unfold touched. cbn [is_load]. st_simpl. by rewrite Em, Eg, be_read_write.
Qed.
Lemma Forall_In {A} (P : A -> Prop) l : Forall P l <-> forall x, In x l -> P x.
Proof. apply List.Forall_forall. Qed.
Lemma loads_sizes : Forall (fun '(_, n, _) => access_size n) loads.
Proof. repeat constructor; unfold access_size; lia. Qed.
End round_trip.

(** C9. Aligned loads.  From a well-formed state with a coherent micro-TLB, every load (LB, LBU,
    LH, LHU, LW, LWU, LD) returns, and returns exactly: the sign- or zero-extended
    big-endian value at the translated address with the pc advanced; an
    AdEL exception for a misaligned address; or the TLB exception of the
    abstract memory map. *)
Theorem aligned_loads_correct `{Config} (inst : Z) (s : state)
    (Hw : wf s) (Hc : coherent s) (Hf : tlb_fault s = false) :
  Forall (fun '(ld, n, conv) =>
    exists t, ld inst s = Ok t /\ arch t = arch (load_result n conv inst s) /\ coherent t) loads.
Proof.
  eapply Forall_impl; [apply (loads_correct inst s); [apply Hw|done|done]|].
  intros [[ld n] conv] (t & Ht & HR)%rel_Ok. exists t. by destruct HR as (?&?&?).
Qed.
Lemma aligned_loads_correct_witness :
  let s := set_gpr_at 4 0x80001000 (state_init (mk_sparse_mem (store_bytes ∅ 0x1000 [0x80; 1; 2; 3; 4; 5; 6; 7]) false) false) in
  Forall (fun '(ld, n, conv) =>
    exists t, ld 0x8c820000 s = Ok t /\ arch t = arch (@load_result r4400_config n conv 0x8c820000 s)
      /\ @coherent r4400_config t) (@loads r4400_config).
Proof.
  intros s. apply (@aligned_loads_correct r4400_config); [|apply coh_empty|reflexivity].
  apply wf_set_gpr_at; [lia|unfold in_s; lia|]. apply wf_state_init. unfold mem_ok.
  apply (bool_decide_unpack _). vm_compute. exact I.
Defined.

(** C10. Aligned stores.  Every store (SB, SH, SW, SD) returns, and returns exactly: the
    register's low bytes written big-endian at the translated address with the pc
    advanced; an AdES exception for a misaligned address; or the TLB exception
    of the abstract memory map (TLB Modified on a clean page included). *)
Theorem aligned_stores_correct `{Config} (inst : Z) (s : state)
    (Hc : coherent s) (Hf : tlb_fault s = false) :
  Forall (fun '(st, n) =>
    exists t, st inst s = Ok t /\ arch t = arch (store_result n inst s) /\ coherent t) stores.
Proof.
  eapply Forall_impl; [by apply (stores_correct inst s)|].
  intros [st n] (t & Ht & HR)%rel_Ok. exists t. by destruct HR as (?&?&?).
Qed.
Lemma aligned_stores_correct_witness :
  let s := set_gpr_at 4 0x80001000 (state_init (mk_sparse_mem ∅ false) false) in
  Forall (fun '(st, n) =>
    exists t, st 0xac820000 s = Ok t /\ arch t = arch (@store_result r4400_config n 0xac820000 s)
      /\ @coherent r4400_config t) (@stores r4400_config).
Proof. intros s. apply (@aligned_stores_correct r4400_config); [apply coh_empty|reflexivity]. Defined.

(** C11. Store/load round trip.  A store that translates, followed by any load of the same width
    whose base and offset give the same virtual address, returns the low bytes
    of the stored register, extended as the load does, and changes no other
    register, whatever page mapping translates the address. *)
Theorem store_load_round_trip `{Config} (inst inst' pa : Z) (s : state)
    (Hm : mem_ok (mem s)) (Hc : coherent s) (Hf : tlb_fault s = false)
    (Htr : translate s (base_imm inst s) op_store = Phys pa)
    (Hb : base_imm inst' s = base_imm inst s) :
  Forall (fun '(st, n) => Forall (fun '(ld, k, conv) =>
    k = n -> pa mod Z.of_nat n = 0 ->
    exists t r, st inst s = Ok t /\ ld inst' t = Ok r /\
      gpr r = wr (f_rt inst') (conv (wrapu (8 * Z.of_nat n) (gpr s).[f_rt inst])) (gpr s)) loads) stores.
Proof.
  eapply Forall_impl; [by apply (stores_correct inst s)|]. intros [st n] (t & Ht & HR)%rel_Ok.
  apply Forall_In. intros [[ld k] conv] Hin -> Hal.
  pose proof (proj1 (Forall_In _ _) loads_sizes _ Hin) as Hn. cbn in Hn.
  destruct (store_then_load n conv inst inst' s t pa Hn Hm HR Htr Hal Hb) as (Hmt & Hft & Hct & Hg).
  pose proof (proj1 (Forall_In _ _) (loads_correct inst' t Hmt Hct (eq_trans Hft Hf)) _ Hin) as Hl.
  cbn in Hl. apply rel_Ok in Hl as (r & Hr & (_ & _ & Har)). exists t, r. split_and!; [done|done|].
  rewrite <- Hg. exact (f_equal gpr Har).
Qed.
Lemma store_load_round_trip_witness :
  let s := set_gpr_at 2 0x1234567890 (set_gpr_at 4 0x80001000 (state_init (mk_sparse_mem ∅ false) false)) in
  Forall (fun '(st, n) => Forall (fun '(ld, k, conv) =>
    k = n -> 0x1000 mod Z.of_nat n = 0 ->
    exists t r, st 0xac820000 s = Ok t /\ ld 0x8c830000 t = Ok r /\
      gpr r = wr 3 (conv (wrapu (8 * Z.of_nat n) 0x1234567890)) (gpr s)) (@loads r4400_config)) (@stores r4400_config).
Proof.
  intros s. apply (@store_load_round_trip r4400_config 0xac820000 0x8c830000 0x1000 s); try reflexivity;
    [apply map_Forall_empty|apply coh_empty].
Defined.
