(* ===== verification/Unaligned.v ===== *)
(** The unaligned pairs (LWL/LWR, LDL/LDR, SWL/SWR, SDL/SDR) of
    [src/interpret.cc]: the mask-and-shift merges are byte splices, and each
    pair accesses the [n] bytes at an arbitrary address. *)
From S2P Require Import Prelude Bits Insns State Mem Wf Exc Tlb LoadStore Alu Fp Fpu Cp0 Branch Exec Arch Utlb NonInterf ExcProps TlbSpec TlbProps LsProps.

Abbreviation bytes_ok := (Forall (in_u 8)).
(** A big-endian byte string as a number. *)
Definition be_join (l : list Z) : Z := le_join (rev l).
(** The byte a physical address names, and [n] of them. *)
Definition byte_at (m : sparse_mem) (pa : Z) : Z := (mem_bytes m).[route m pa].
Fixpoint bytes_at (n : nat) (pa : Z) (m : sparse_mem) : list Z :=
  match n with
  | O => []
  | S n => byte_at m pa :: bytes_at n (pa + 1) m
  end.
(** Bytes written one at a time through the alias. *)
Fixpoint poke (rt : Z -> Z) (b : Zmap Z) (pa : Z) (l : list Z) : Zmap Z :=
  match l with
  | [] => b
  | x :: l => poke rt (wr (rt pa) x b) (pa + 1) l
  end.
(** The same memory contents, cell by cell. *)
Definition same_cells (b b' : Zmap Z) : Prop := forall c, b.[c] = b'.[c].

(** The merges as arithmetic. *)
Definition merge_left (n r x ma : Z) : Z := (r mod 2 ^ (8 * (n - ma))) * 2 ^ (8 * ma) + x mod 2 ^ (8 * ma).
Definition merge_right (n r x ma : Z) : Z :=
  (x mod 2 ^ (8 * n)) / 2 ^ (8 * (ma + 1)) * 2 ^ (8 * (ma + 1)) + r / 2 ^ (8 * (n - 1 - ma)).
Definition splice_left (n r x ma : Z) : Z :=
  r / 2 ^ (8 * (n - ma)) * 2 ^ (8 * (n - ma)) + x / 2 ^ (8 * ma).
Definition splice_right (n r x ma : Z) : Z :=
  (x mod 2 ^ (8 * (ma + 1))) * 2 ^ (8 * (n - 1 - ma)) + r mod 2 ^ (8 * (n - 1 - ma)).

(** * Theorems *)

(** ** The merges *)
Section merges.
Implicit Types (r x ma : Z).
(** High bits of one word over the low bits of another. *)
Lemma lor_high_low w k h l : 0 <= k <= w ->
  wrapu w (h << k) .| (l .& Z.ones k) = (h mod 2 ^ (w - k)) * 2 ^ k + l mod 2 ^ k.
Proof.
  intros Hk. rewrite Z.land_ones by lia. rewrite Z.lor_comm.
  replace (wrapu w (h << k)) with ((h mod 2 ^ (w - k)) << k).
  - rewrite lor_shl_add; [lia|lia|]. apply Z.mod_pos_bound, Z.pow_pos_nonneg; lia.
  - unfold wrapu. rewrite !Z.shiftl_mul_pow2 by lia. replace w with ((w - k) + k) at 2 by lia.
    rewrite Z.pow_add_r by lia. rewrite Z.mul_mod_distr_r; [done|..]; apply Z.pow_nonzero; lia.
Qed.
(** The high part of one word above a shorter one. *)
Lemma lor_part_low w k h l :
  0 <= k <= w -> in_u k l ->
  (h .& (Z.ones (w - k) << k)) .| l = (h mod 2 ^ w) / 2 ^ k * 2 ^ k + l.
Proof.
  intros Hk Hl. replace (h .& (Z.ones (w - k) << k)) with (((h mod 2 ^ w) / 2 ^ k) << k).
  - rewrite Z.lor_comm, lor_shl_add by (done || lia). lia.
  - apply Z.bits_inj'. intros i Hi. rewrite Z.land_spec, !Z.shiftl_spec by done.
    destruct (decide (i < k)); [rewrite !(Z.testbit_neg_r _ (i - k)) by lia; by rewrite andb_false_r|].
    rewrite <- Z.shiftr_div_pow2, Z.shiftr_spec, Z.testbit_ones by lia. replace (i - k + k) with i by lia.
    destruct (decide (i < w)).
    + rewrite Z.mod_pow2_bits_low by lia. replace ((_ <=? _) && _) with true by lia. by rewrite andb_true_r.
    + rewrite Z.mod_pow2_bits_high by lia. replace ((_ <=? _) && _) with false by lia. by rewrite andb_false_r.
Qed.
Lemma sext64_s32 v : sext64 v = s32 v.
Proof.
  unfold sext64. rewrite <- (wraps_wrapu 32 v) by done. pose proof (wrapu_range 32 v ltac:(done)) as [H0 H1].
  set (x := u32 v) in *. clearbody x. rewrite (wraps_id 64 x) by (try done; unfold in_s; lia).
  unfold wraps. rewrite Z.shiftl_mul_pow2, Z.shiftr_div_pow2 by done.
  change (2 ^ 64) with (2 ^ 32 * 2 ^ 32). rewrite Z.mul_mod_distr_r by done.
  change (2 ^ (64 - 1)) with (2 ^ (32 - 1) * 2 ^ 32). 
  destruct (Z.ltb_spec (x mod 2 ^ 32 * 2 ^ 32) (2 ^ (32 - 1) * 2 ^ 32)), (Z.ltb_spec (x mod 2 ^ 32) (2 ^ (32 - 1))); try lia.
  - by rewrite Z.div_mul.
  - rewrite <- Z.mul_sub_distr_r. by rewrite Z.div_mul.
Qed.
Lemma mod_mod_le x a b : 0 <= a <= b -> (x mod 2 ^ b) mod 2 ^ a = x mod 2 ^ a.
Proof. intros. by apply (wrapu_narrow a b). Qed.
(** Byte positions of a word and of a doubleword. *)
Lemma pos4 ma : 0 <= ma < 4 -> ma = 0 \/ ma = 1 \/ ma = 2 \/ ma = 3.
Proof. lia. Qed.
Lemma pos8 ma : 0 <= ma < 8 -> ma = 0 \/ ma = 1 \/ ma = 2 \/ ma = 3 \/ ma = 4 \/ ma = 5 \/ ma = 6 \/ ma = 7.
Proof. lia. Qed.
Lemma lwl_merge_eq r x ma : 0 <= ma < 4 -> lwl_merge r x ma = s32 (merge_left 4 r x ma).
Proof.
  intros Hma. unfold merge_left.
  destruct (pos4 ma Hma) as [->|[->|[->| ->]]]; cbn [lwl_merge]; rewrite sext64_s32.
  - rewrite Z.mod_1_r, Z.add_0_r, Z.mul_1_r. symmetry. by apply (wraps_wrapu 32 r).
  - f_equal. change 0xff with (Z.ones 8). rewrite lor_high_low by lia.
    change 0xffffff with (Z.ones 24). by rewrite Z.land_ones, mod_mod_le by lia.
  - f_equal. change 0xffff with (Z.ones 16). rewrite lor_high_low by lia.
    by rewrite Z.land_ones, mod_mod_le by lia.
  - f_equal. change 0xffffff with (Z.ones 24). rewrite lor_high_low by lia.
    by rewrite Z.land_ones, mod_mod_le by lia.
Qed.
Lemma shr_range w k r : 0 <= k <= w -> in_u w r -> in_u (w - k) (r / 2 ^ k).
Proof.
  intros Hk [H0 H1]. unfold in_u. split; [apply Z.div_pos; [lia|apply Z.pow_pos_nonneg; lia]|].
  apply Z.div_lt_upper_bound; [apply Z.pow_pos_nonneg; lia|]. rewrite <- Z.pow_add_r by lia.
  by replace (k + (w - k)) with w by lia.
Qed.
Lemma lwr_merge_eq r x ma : 0 <= ma < 4 -> in_u 32 r -> lwr_merge r x ma = s32 (merge_right 4 r x ma).
Proof.
  intros Hma Hr. unfold merge_right.
  destruct (pos4 ma Hma) as [->|[->|[->| ->]]]; cbn [lwr_merge];
    rewrite sext64_s32, ?Z.shiftr_div_pow2 by lia.
  - f_equal. change 0xffffff00 with (Z.ones (32 - 8) << 8). rewrite (lor_part_low 32 8); [done|lia|].
    by apply (shr_range 32 24).
  - f_equal. change 0xffff0000 with (Z.ones (32 - 16) << 16). rewrite (lor_part_low 32 16); [done|lia|].
    by apply (shr_range 32 16).
  - f_equal. change 0xff000000 with (Z.ones (32 - 24) << 24). rewrite (lor_part_low 32 24); [done|lia|].
    by apply (shr_range 32 8).
  - f_equal. rewrite Z.div_1_r. rewrite (Z.div_small (x mod _)); [lia|].
    apply Z.mod_pos_bound. done.
Qed.
Lemma swl_merge_eq r x ma : 0 <= ma < 4 -> in_u 32 r -> in_u 32 x -> swl_merge r x ma = splice_left 4 r x ma.
Proof.
  intros Hma Hr Hx. unfold swl_merge, splice_left. cbv zeta.
  assert (u32 (.~ ((1 << (8 * (4 - ma))) - 1)) = Z.ones (32 - 8 * (4 - ma)) << (8 * (4 - ma))) as ->.
  { by destruct (pos4 ma Hma) as [->|[->|[->| ->]]]. }
  rewrite Z.shiftr_div_pow2, (lor_part_low 32); [by rewrite (Z.mod_small r) by apply Hr|lia| |lia].
  replace (8 * (4 - ma)) with (32 - 8 * ma) by lia. apply shr_range; [lia|done].
Qed.
Lemma swr_merge_eq r x ma : 0 <= ma < 4 -> swr_merge r x ma = splice_right 4 r x ma.
Proof.
  intros Hma. unfold swr_merge, splice_right. cbv zeta. rewrite Z.shiftl_1_l, Z.land_comm.
  replace (2 ^ (8 * (3 - ma)) - 1) with (Z.ones (8 * (3 - ma))) by (by rewrite Z.ones_equiv).
  rewrite lor_high_low by lia. by replace (32 - 8 * (3 - ma)) with (8 * (ma + 1)) by lia.
Qed.
Lemma ldl_merge_eq r x ma : 0 <= ma < 8 -> in_u 64 r -> ldl_merge r x ma = merge_left 8 r x ma.
Proof.
  intros Hma Hr. unfold merge_left.
  destruct (pos8 ma Hma) as [->|[->|[->|[->|[->|[->|[->| ->]]]]]]]; cbn [ldl_merge].
  { rewrite Z.mod_1_r, Z.add_0_r, Z.mul_1_r. symmetry. by apply (wrapu_id 64). }
  all: match goal with |- u64 ((_ .& ?m) << ?k) .| (_ .& ?l) = _ =>
         change l with (Z.ones k); change m with (Z.ones (64 - k)) end.
  all: rewrite lor_high_low by lia; by rewrite Z.land_ones, mod_mod_le by lia.
Qed.
Lemma ldr_merge_eq r x ma : 0 <= ma < 8 -> in_u 64 r -> ldr_merge r x ma = merge_right 8 r x ma.
Proof.
  intros Hma Hr. unfold merge_right.
  destruct (pos8 ma Hma) as [->|[->|[->|[->|[->|[->|[->| ->]]]]]]]; cbn [ldr_merge].
  8: { rewrite Z.div_1_r, (Z.div_small (x mod _)); [lia|]. apply Z.mod_pos_bound. done. }
  all: match goal with |- (_ .& ?m) .| (_ >> ?k) = _ =>
         change m with (Z.ones (64 - (64 - k)) << (64 - k)); rewrite (Z.shiftr_div_pow2 r k) by lia;
         rewrite (lor_part_low 64 (64 - k)); [done|lia|by apply (shr_range 64 k)] end.
Qed.
Lemma sdl_merge_eq r x ma : 0 <= ma < 8 -> in_u 64 r -> in_u 64 x -> sdl_merge r x ma = splice_left 8 r x ma.
Proof.
  intros Hma Hr Hx. unfold sdl_merge, splice_left. cbv zeta.
  assert ((if ma =? 0 then 0 else u64 (- u64 (1 << (8 * (8 - ma))))) = Z.ones (64 - 8 * (8 - ma)) << (8 * (8 - ma))) as ->.
  { by destruct (pos8 ma Hma) as [->|[->|[->|[->|[->|[->|[->| ->]]]]]]]. }
  rewrite Z.shiftr_div_pow2, (lor_part_low 64); [by rewrite (Z.mod_small r) by apply Hr|lia| |lia].
  replace (8 * (8 - ma)) with (64 - 8 * ma) by lia. apply shr_range; [lia|done].
Qed.
Lemma sdr_merge_eq r x ma : 0 <= ma < 8 -> sdr_merge r x ma = splice_right 8 r x ma.
Proof.
  intros Hma. unfold sdr_merge, splice_right. cbv zeta. rewrite Z.land_comm.
  replace (if _ =? 0 then _ else _) with (Z.ones (8 * (7 - ma))).
  - rewrite lor_high_low by lia. by replace (64 - 8 * (7 - ma)) with (8 * (ma + 1)) by lia.
  - rewrite Z.shiftl_1_l, Z.ones_equiv. destruct (Z.eqb_spec (8 * (7 - ma)) 0) as [->|]; [done|lia].
Qed.
End merges.

(** ** Byte strings *)
Section strings.
Implicit Types (l bs : list Z) (n k : nat).
Lemma le_join_app l1 l2 :
  bytes_ok l1 -> le_join (l1 ++ l2) = le_join l1 + le_join l2 * 2 ^ (8 * Z.of_nat (length l1)).
Proof.
  induction 1 as [|b l Hb Hl IH]; [cbn; lia|]. cbn [app length].
  rewrite !le_join_cons, IH by done. rewrite Nat2Z.inj_succ.
  replace (8 * Z.succ (Z.of_nat (length l))) with (8 + 8 * Z.of_nat (length l)) by lia.
  rewrite Z.pow_add_r by lia. lia.
Qed.
Lemma be_join_app l1 l2 :
  bytes_ok l2 -> be_join (l1 ++ l2) = be_join l1 * 2 ^ (8 * Z.of_nat (length l2)) + be_join l2.
Proof.
  intros. unfold be_join. rewrite rev_app_distr, le_join_app by (by apply rev_bytes). rewrite length_rev. lia.
Qed.
Lemma be_join_range l : bytes_ok l -> in_u (8 * Z.of_nat (length l)) (be_join l).
Proof. intros. unfold be_join. rewrite <- length_rev. by apply le_join_range, rev_bytes. Qed.
Lemma be_join_cut k l :
  bytes_ok l -> (k <= length l)%nat ->
  be_join l mod 2 ^ (8 * Z.of_nat (length l - k)) = be_join (drop k l) /\
  be_join l / 2 ^ (8 * Z.of_nat (length l - k)) = be_join (take k l).
Proof.
  intros Hl Hk. pose proof (be_join_range (drop k l) (Forall_drop _ _ _ Hl)) as Hr.
  rewrite length_drop in Hr. rewrite <- (take_drop k l) at 1 4.
  rewrite be_join_app, length_drop by (by apply Forall_drop). set (p := 2 ^ _) in *.
  assert (0 < p) by (apply Z.pow_pos_nonneg; lia). split.
  - rewrite Z.add_comm, Z.mod_add by lia. by apply Z.mod_small.
  - rewrite Z.div_add_l by lia. rewrite (Z.div_small _ p) by done. lia.
Qed.
Lemma be_join_mod k l :
  bytes_ok l -> (k <= length l)%nat -> be_join l mod 2 ^ (8 * Z.of_nat k) = be_join (drop (length l - k) l).
Proof.
  intros Hl Hk. destruct (be_join_cut (length l - k) l Hl ltac:(lia)) as [E _].
  by replace (length l - (length l - k))%nat with k in E by lia.
Qed.
Lemma be_join_div k l :
  bytes_ok l -> (k <= length l)%nat -> be_join l / 2 ^ (8 * Z.of_nat k) = be_join (take (length l - k) l).
Proof.
  intros Hl Hk. destruct (be_join_cut (length l - k) l Hl ltac:(lia)) as [_ E].
  by replace (length l - (length l - k))%nat with k in E by lia.
Qed.

(** The second load of a pair completes the first. *)
Lemma pair_load n k x bs0 bs1 :
  bytes_ok bs0 -> bytes_ok bs1 -> length bs0 = n -> length bs1 = n -> (0 < k < n)%nat ->
  merge_right (Z.of_nat n) (be_join bs1) (merge_left (Z.of_nat n) (be_join bs0) x (Z.of_nat k)) (Z.of_nat k - 1) =
  be_join (drop k bs0 ++ take k bs1).
Proof.
  intros H0 H1 L0 L1 Hk. unfold merge_left, merge_right.
  replace (Z.of_nat k - 1 + 1) with (Z.of_nat k) by lia.
  replace (Z.of_nat n - 1 - (Z.of_nat k - 1)) with (Z.of_nat (n - k)) by lia.
  replace (Z.of_nat n - Z.of_nat k) with (Z.of_nat (n - k)) by lia.
  rewrite be_join_mod, be_join_div, L0, L1 by (done || lia). replace (n - (n - k))%nat with k by lia.
  rewrite be_join_app by (by apply Forall_take). rewrite length_take_le by lia.
  pose proof (be_join_range _ (Forall_drop _ k _ H0)) as Hd. rewrite length_drop, L0 in Hd.
  set (d := be_join (drop k bs0)) in *. set (p := 2 ^ (8 * Z.of_nat k)).
  assert (0 < p) by (apply Z.pow_pos_nonneg; lia).
  assert (2 ^ (8 * Z.of_nat n) = 2 ^ (8 * Z.of_nat (n - k)) * p) as ->.
  { unfold p. rewrite <- Z.pow_add_r by lia. f_equal. lia. }
  pose proof (Z.mod_pos_bound x p ltac:(lia)). destruct Hd as [Hd0 Hd1].
  rewrite (Z.mod_small (d * p + _)) by nia. rewrite Z.div_add_l by lia.
  rewrite (Z.div_small (x mod p)) by lia. lia.
Qed.
Lemma whole_load n x bs :
  bytes_ok bs -> length bs = n -> (0 < n)%nat -> merge_right (Z.of_nat n) (be_join bs) x (Z.of_nat n - 1) = be_join bs.
Proof.
  intros Hb Hl Hn. unfold merge_right. replace (Z.of_nat n - 1 - (Z.of_nat n - 1)) with 0 by lia.
  rewrite Z.div_1_r. replace (Z.of_nat n - 1 + 1) with (Z.of_nat n) by lia.
  rewrite (Z.div_small (x mod _)); [lia|]. apply Z.mod_pos_bound, Z.pow_pos_nonneg; lia.
Qed.
(** The halves of a register's bytes over the old bytes of a word. *)
Lemma store_left n k bs xs :
  bytes_ok bs -> bytes_ok xs -> length bs = n -> length xs = n -> (k < n)%nat ->
  splice_left (Z.of_nat n) (be_join bs) (be_join xs) (Z.of_nat k) = be_join (take k bs ++ take (n - k) xs).
Proof.
  intros Hb Hx Lb Lx Hk. unfold splice_left. replace (Z.of_nat n - Z.of_nat k) with (Z.of_nat (n - k)) by lia.
  rewrite !be_join_div, Lb, Lx by (done || lia). replace (n - (n - k))%nat with k by lia.
  rewrite be_join_app by (by apply Forall_take). by rewrite length_take_le by lia.
Qed.
Lemma store_right n k bs xs :
  bytes_ok bs -> bytes_ok xs -> length bs = n -> length xs = n -> (k < n)%nat ->
  splice_right (Z.of_nat n) (be_join bs) (be_join xs) (Z.of_nat k) = be_join (drop (n - 1 - k) xs ++ drop (k + 1) bs).
Proof.
  intros Hb Hx Lb Lx Hk. unfold splice_right.
  replace (Z.of_nat n - 1 - Z.of_nat k) with (Z.of_nat (n - 1 - k)) by lia.
  replace (Z.of_nat k + 1) with (Z.of_nat (k + 1)) by lia.
  rewrite !be_join_mod, Lb, Lx by (done || lia). replace (n - (k + 1))%nat with (n - 1 - k)%nat by lia.
  replace (n - (n - 1 - k))%nat with (k + 1)%nat by lia.
  rewrite be_join_app by (by apply Forall_drop). rewrite length_drop, Lb.
  by replace (n - (k + 1))%nat with (n - 1 - k)%nat by lia.
Qed.
End strings.

(** ** Words and bytes of the memory *)
Section words.
Implicit Types (m : sparse_mem) (n k : nat) (a pa : Z) (b : Zmap Z) (l xs : list Z).
Lemma route_add n m a i :
  access_size n -> in_u 32 a -> a mod Z.of_nat n = 0 -> 0 <= i < Z.of_nat n -> route m (a + i) = route m a + i.
Proof.
  intros Hn [H0 H1] Hal Hi. unfold route. destruct (route_devices m); [|done].
  destruct (decide (a < 0x80000)).
  - assert (a + i < 0x80000).
    { destruct Hn as [->|[->|[->| ->]]]; cbn [Z.of_nat Pos.of_succ_nat Pos.succ] in *; Z.div_mod_to_equations; lia. }
    rewrite !mc_alias_small by lia. lia.
  - unfold mc_alias. destruct (Z.ltb_spec (a + i) 0x80000), (Z.ltb_spec a 0x80000); lia.
Qed.
Lemma load_bytes_at n m a :
  access_size n -> in_u 32 a -> a mod Z.of_nat n = 0 -> load_bytes (mem_bytes m) (route m a) n = bytes_at n a m.
Proof.
  intros Hn Ha Hal.
  enough (forall k i, (i + k <= n)%nat ->
    load_bytes (mem_bytes m) (route m a + Z.of_nat i) k = bytes_at k (a + Z.of_nat i) m) as Hk.
  { specialize (Hk n 0%nat ltac:(lia)). by rewrite !Z.add_0_r in Hk. }
  induction k as [|k IH]; intros i Hi; cbn [load_bytes bytes_at]; [done|]. unfold byte_at.
  rewrite (route_add n) by (done || lia). f_equal.
  specialize (IH (S i) ltac:(lia)). rewrite Nat2Z.inj_succ in IH. unfold Z.succ in IH. by rewrite !Z.add_assoc in IH.
Qed.
Lemma length_bytes_at n pa m : length (bytes_at n pa m) = n.
Proof. revert pa; induction n; intros; cbn; auto. Qed.
Lemma bytes_at_ok n pa m : mem_ok m -> bytes_ok (bytes_at n pa m).
Proof. intros Hm. revert pa; induction n; intros pa; cbn; constructor; [by apply mem_ok_rd|done]. Qed.
Lemma bytes_at_app n k pa m : bytes_at (n + k) pa m = bytes_at n pa m ++ bytes_at k (pa + Z.of_nat n) m.
Proof.
  revert pa; induction n as [|n IH]; intros pa; cbn [bytes_at Nat.add app]; [by rewrite Z.add_0_r|].
  rewrite IH. do 2 f_equal. f_equal. lia.
Qed.
Lemma take_bytes_at n k pa m : (k <= n)%nat -> take k (bytes_at n pa m) = bytes_at k pa m.
Proof.
  intros. replace n with (k + (n - k))%nat by lia. rewrite bytes_at_app, take_app_length'; [done|].
  by rewrite length_bytes_at.
Qed.
Lemma drop_bytes_at n k pa m : (k <= n)%nat -> drop k (bytes_at n pa m) = bytes_at (n - k) (pa + Z.of_nat k) m.
Proof.
  intros. replace n with (k + (n - k))%nat at 1 by lia. rewrite bytes_at_app, drop_app_length'; [done|].
  by rewrite length_bytes_at.
Qed.
Lemma be_read_bytes n a m :
  access_size n -> in_u 32 a -> a mod Z.of_nat n = 0 -> be_read n a m = be_join (bytes_at n a m).
Proof. intros. unfold be_read, be_join. by rewrite load_bytes_at. Qed.

(** Cells. *)
Lemma same_cells_store b b' a l : same_cells b b' -> same_cells (store_bytes b a l) (store_bytes b' a l).
Proof.
  revert b b' a; induction l as [|x l IH]; intros b b' a Hs; cbn [store_bytes]; [done|].
  apply IH. intros c. rewrite !rd_wr. by rewrite Hs.
Qed.
Lemma store_loaded b a n : same_cells (store_bytes b a (load_bytes b a n)) b.
Proof.
  revert a b; induction n as [|n IH]; intros a b c; cbn [load_bytes store_bytes]; [done|].
  assert (same_cells (wr a b.[a] b) b) as Hw by (intros e; rewrite rd_wr; by destruct (Z.eqb_spec a e) as [->|]).
  rewrite (load_bytes_ext b (wr a b.[a] b)) by (intros; by rewrite Hw).
  rewrite IH. apply Hw.
Qed.
Lemma store_over_prefix b a n l :
  same_cells (store_bytes b a (load_bytes b a n ++ l)) (store_bytes b (a + Z.of_nat n) l).
Proof.
  rewrite store_bytes_app, length_load_bytes. apply same_cells_store, store_loaded.
Qed.
Lemma store_over_suffix b a n l :
  same_cells (store_bytes b a (l ++ load_bytes b (a + Z.of_nat (length l)) n)) (store_bytes b a l).
Proof.
  rewrite store_bytes_app.
  rewrite (load_bytes_ext b (store_bytes b a l)) by (intros; symmetry; apply rd_store_bytes_out; lia).
  apply store_loaded.
Qed.
Lemma poke_store n m b a k l :
  access_size n -> in_u 32 a -> a mod Z.of_nat n = 0 -> (k + length l <= n)%nat ->
  poke (route m) b (a + Z.of_nat k) l = store_bytes b (route m a + Z.of_nat k) l.
Proof.
  intros Hn Ha Hal. revert b k; induction l as [|x l IH]; intros b k Hk; cbn [poke store_bytes length] in *; [done|].
  rewrite (route_add n) by (done || lia). specialize (IH (wr (route m a + Z.of_nat k) x b) (S k) ltac:(lia)).
  rewrite Nat2Z.inj_succ in IH. unfold Z.succ in IH. by rewrite !Z.add_assoc in IH.
Qed.
Lemma poke_app rt b pa l1 l2 : poke rt b pa (l1 ++ l2) = poke rt (poke rt b pa l1) (pa + Z.of_nat (length l1)) l2.
Proof.
  revert b pa; induction l1 as [|x l IH]; intros b pa; cbn [poke length app]; [by rewrite Z.add_0_r|].
  rewrite IH. f_equal. lia.
Qed.
Lemma same_cells_poke rt b b' pa l : same_cells b b' -> same_cells (poke rt b pa l) (poke rt b' pa l).
Proof.
  revert b b' pa; induction l as [|x l IH]; intros b b' pa Hs; cbn [poke]; [done|].
  apply IH. intros c. rewrite !rd_wr. by rewrite Hs.
Qed.
End words.

(** ** The handlers *)
Section handlers.
Context `{Config}.
Implicit Types (s t : state) (inst pa : Z) (n : nat) (f g : Z -> Z -> Z -> Z).
Definition word_mask n : Z := u32 (.~ (Z.of_nat n - 1)).
Definition unal_load_k n f (mi : mipsInsn.t) inst (ea : Z) (t : state) : result state :=
  let ma := byte_pos false (Z.of_nat n) ea in
  let! v := get n (ea .& word_mask n) t in
  Ok (t |> set_gpr_at (f_rt inst) (f (bswap false n v) (gpr t).[f_rt inst] ma) |> add_pc 4 |> histo mi).
Definition unal_store_k n f (mi : mipsInsn.t) inst (ea : Z) (t : state) : result state :=
  let ma := byte_pos false (Z.of_nat n) ea in
  let! v := get n (ea .& word_mask n) t in
  let! t := put n (ea .& word_mask n) (bswap false n (f (bswap false n v) (wrapu (8 * Z.of_nat n) (gpr t).[f_rt inst]) ma)) t in
  Ok (t |> add_pc 4 |> histo mi).
Lemma rel_unal_load_k n f mi inst ea s t : R s t -> rel R (unal_load_k n f mi inst ea s) (unal_load_k n f mi inst ea t).
Proof. rel_of unal_load_k. Qed.
Lemma rel_unal_store_k n f mi inst ea s t : R s t -> rel R (unal_store_k n f mi inst ea s) (unal_store_k n f mi inst ea t).
Proof. rel_of unal_store_k. Qed.

Lemma word_mask_land n pa :
  access_size n -> in_u 32 pa -> pa .& word_mask n = pa - pa mod Z.of_nat n.
Proof.
  intros Hn Hpa. assert (exists k, 0 <= k <= 32 /\ Z.of_nat n = 2 ^ k /\ word_mask n = Z.ones (32 - k) << k) as (k & Hk & -> & ->).
  { destruct Hn as [->|[->|[->| ->]]]; [exists 0|exists 1|exists 2|exists 3]; done. }
  rewrite <- (Z.lor_0_r (pa .& _)), (lor_part_low 32 k); [|done|split; [done|apply Z.pow_pos_nonneg; lia]].
  rewrite (Z.mod_small pa) by apply Hpa. pose proof (Z.div_mod pa (2 ^ k) ltac:(apply Z.pow_nonzero; lia)). lia.
Qed.
Lemma word_base n pa :
  access_size n -> in_u 32 pa ->
  in_u 32 (pa - pa mod Z.of_nat n) /\ (pa - pa mod Z.of_nat n) mod Z.of_nat n = 0 /\ 0 <= pa mod Z.of_nat n < Z.of_nat n.
Proof.
  intros Hn [H0 H1]. unfold in_u. assert (0 < Z.of_nat n) by (destruct Hn as [->|[->|[->| ->]]]; lia).
  pose proof (Z.mod_pos_bound pa (Z.of_nat n) ltac:(lia)). pose proof (Z.mod_le pa (Z.of_nat n) H0 ltac:(lia)).
  split_and!; try lia. rewrite Zminus_mod_idemp_r, Z.sub_diag. by apply Z.mod_0_l; lia.
Qed.
Lemma get_word n s pa :
  access_size n -> in_u 32 pa -> mem_ok (mem s) ->
  exists v, get n (pa .& word_mask n) s = Ok v /\ bswap false n v = be_join (bytes_at n (pa - pa mod Z.of_nat n) (mem s)).
Proof.
  intros Hn Hpa Hm. rewrite word_mask_land by done. destruct (word_base n pa Hn Hpa) as (Ha & Hal & _).
  destruct (get_aligned n s _ Hn Hm Ha Hal) as (v & Hv & Hb). exists v. cbn [bswap]. by rewrite Hb, be_read_bytes.
Qed.
Lemma pos_mod n pa : access_size n -> byte_pos false (Z.of_nat n) pa = pa mod Z.of_nat n.
Proof. intros. unfold byte_pos. cbv zeta. by apply size_land. Qed.

Lemma unal_load n f mi inst s pa :
  access_size n -> mem_ok (mem s) -> coherent s -> tlb_fault s = false ->
  translate s (base_imm inst s) op_load = Phys pa ->
  exists t, translated (base_imm inst s) op_load (unal_load_k n f mi inst) s = Ok t /\ coherent t /\
    tlb_fault t = false /\ mem t = mem s /\ tlb t = tlb s /\ cpr0 t = cpr0 s /\ cpr0_64 t = cpr0_64 s /\
    gpr t = wr (f_rt inst) (f (be_join (bytes_at n (pa - pa mod Z.of_nat n) (mem s)))
              (gpr s).[f_rt inst] (pa mod Z.of_nat n)) (gpr s).
Proof.
  intros Hn Hm Hc Hf Htr. pose proof (rel_translated_spec (base_imm inst s) op_load _ s Hc Hf (rel_unal_load_k n f mi inst)) as Hr.
  rewrite Htr in Hr. pose proof (translate_range _ _ _ _ Htr) as Hpa.
  pose proof (touched_frame s (base_imm inst s) op_load) as (Em & Eg & _ & _ & Ef).
  destruct (get_word n (touched op_load (base_imm inst s) s) pa Hn Hpa) as (v & Hv & Hb); [by rewrite Em|].
  unfold unal_load_k at 2 in Hr. cbv zeta in Hr. rewrite Hv in Hr. cbn [mbind result_bind] in Hr.
  rewrite Hb, pos_mod, Em, Eg in Hr by done. apply rel_Ok in Hr as (t & Ht & (Hct & _ & Ha)).
  exists t. split; [exact Ht|]. split; [exact Hct|].
  split_and!; [exact (eq_trans (f_equal tlb_fault Ha) Hf)|exact (f_equal mem Ha)|exact (f_equal tlb Ha)|
    exact (f_equal cpr0 Ha)|exact (f_equal cpr0_64 Ha)|exact (f_equal gpr Ha)].
Qed.
Lemma translate_frame s t va op :
  tlb t = tlb s -> cpr0 t = cpr0 s -> cpr0_64 t = cpr0_64 s -> translate t va op = translate s va op.
Proof.
  intros Ht H0 H64. apply translate_ext; [done|unfold asid_of; by rewrite H64|].
  apply mode_sr. by rewrite H0.
Qed.
(** Left at [pa], right at [pa + n - 1]: the [n] bytes at [pa]. *)
Lemma unal_load_pair n f g (conv : Z -> Z) mi mi' inst inst' s pa :
  access_size n -> (1 < n)%nat ->
  (forall bs0 bs1 x k, bytes_ok bs0 -> bytes_ok bs1 -> length bs0 = n -> length bs1 = n -> (0 < k < n)%nat ->
     g (be_join bs1) (f (be_join bs0) x (Z.of_nat k)) (Z.of_nat k - 1) = conv (be_join (drop k bs0 ++ take k bs1))) ->
  (forall bs x, bytes_ok bs -> length bs = n -> g (be_join bs) x (Z.of_nat n - 1) = conv (be_join bs)) ->
  mem_ok (mem s) -> coherent s -> tlb_fault s = false ->
  f_rt inst' = f_rt inst -> f_rs inst' <> f_rt inst ->
  translate s (base_imm inst s) op_load = Phys pa ->
  translate s (base_imm inst' s) op_load = Phys (pa + Z.of_nat n - 1) ->
  exists t r, translated (base_imm inst s) op_load (unal_load_k n f mi inst) s = Ok t /\
    translated (base_imm inst' t) op_load (unal_load_k n g mi' inst') t = Ok r /\
    gpr r = wr (f_rt inst) (conv (be_join (bytes_at n pa (mem s)))) (gpr s) /\ mem r = mem s.
Proof.
  intros Hn Hn1 Hfg Hg Hm Hc Hf Hrt Hrs Htr Htr'.
  destruct (unal_load n f mi inst s pa Hn Hm Hc Hf Htr) as (t & Ht & Hct & Hft & Emt & Ett & E0t & E64t & Egt).
  assert (base_imm inst' t = base_imm inst' s) as Eb by (unfold base_imm; by rewrite Egt, rd_wr_ne by done).
  assert (translate t (base_imm inst' t) op_load = Phys (pa + Z.of_nat n - 1)) as Htr2
    by (rewrite Eb; by rewrite (translate_frame s t)).
  rewrite <- Emt in Hm.
  destruct (unal_load n g mi' inst' t _ Hn Hm Hct Hft Htr2) as (r & Hr & _ & _ & Emr & _ & _ & _ & Egr).
  exists t, r. split_and!; [done|done| |by rewrite Emr].
  rewrite Egr, Egt, Hrt, Emt, rd_wr_eq, wr_wr_eq. f_equal. rewrite Emt in Hm.
  pose proof (translate_range _ _ _ _ Htr) as Hpa. set (k := Z.to_nat (pa mod Z.of_nat n)).
  destruct (word_base n pa Hn Hpa) as (_ & _ & Hk). assert (pa mod Z.of_nat n = Z.of_nat k) as Ek by lia.
  rewrite Ek. destruct (decide (k = 0)%nat) as [Hk0|Hk0].
  - rewrite Hk0 in *. assert ((pa + Z.of_nat n - 1) mod Z.of_nat n = Z.of_nat n - 1) as ->.
    { symmetry. apply Z.mod_unique with (pa / Z.of_nat n); [lia|].
      pose proof (Z.div_mod pa (Z.of_nat n) ltac:(lia)). lia. }
    rewrite Hg by ((by apply bytes_at_ok) || by rewrite length_bytes_at). do 3 f_equal. lia.
  - assert ((pa + Z.of_nat n - 1) mod Z.of_nat n = Z.of_nat k - 1) as ->.
    { symmetry. apply Z.mod_unique with (pa / Z.of_nat n + 1); [lia|].
      pose proof (Z.div_mod pa (Z.of_nat n) ltac:(lia)). lia. }
    rewrite Hfg by ((by apply bytes_at_ok) || by rewrite length_bytes_at || lia).
    rewrite drop_bytes_at, take_bytes_at by lia. do 2 f_equal.
    transitivity (bytes_at ((n - k) + k) pa (mem s)); [|f_equal; lia].
    rewrite bytes_at_app. f_equal; [f_equal; lia|f_equal; lia].
Qed.
End handlers.

(** ** The store pairs *)
Section stores.
Context `{Config}.
Implicit Types (s t : state) (inst pa : Z) (n k : nat) (f g : Z -> Z -> Z -> Z) (b : Zmap Z) (l xs : list Z).
(** The register's bytes, most significant first. *)
Definition reg_bytes n (v : Z) : list Z := rev (le_split n v).
Lemma reg_bytes_ok n v : bytes_ok (reg_bytes n v) /\ length (reg_bytes n v) = n /\ be_join (reg_bytes n v) = wrapu (8 * Z.of_nat n) v.
Proof.
  unfold reg_bytes. split_and!; [apply rev_bytes, le_split_bytes|by rewrite length_rev, length_le_split|].
  unfold be_join. by rewrite rev_involutive, le_join_split.
Qed.
Lemma split_be_join n l : length l = n -> bytes_ok l -> le_split n (byteswap n (be_join l)) = l.
Proof.
  intros <- Hl. rewrite le_split_byteswap. unfold be_join. rewrite <- length_rev at 1.
  rewrite le_split_join by (by apply rev_bytes). apply rev_involutive.
Qed.
Lemma unal_store n f (L : list Z -> list Z -> nat -> list Z) mi inst s pa :
  access_size n ->
  (forall bs xs k, bytes_ok bs -> bytes_ok xs -> length bs = n -> length xs = n -> (k < n)%nat ->
     f (be_join bs) (be_join xs) (Z.of_nat k) = be_join (L bs xs k) /\ bytes_ok (L bs xs k) /\ length (L bs xs k) = n) ->
  mem_ok (mem s) -> coherent s -> tlb_fault s = false ->
  translate s (base_imm inst s) op_store = Phys pa ->
  let a0 := pa - pa mod Z.of_nat n in let k := Z.to_nat (pa mod Z.of_nat n) in
  exists t, translated (base_imm inst s) op_store (unal_store_k n f mi inst) s = Ok t /\ coherent t /\
    tlb_fault t = false /\ gpr t = gpr s /\ tlb t = tlb s /\ cpr0 t = cpr0 s /\ cpr0_64 t = cpr0_64 s /\
    mem_ok (mem t) /\ route_devices (mem t) = route_devices (mem s) /\
    mem_bytes (mem t) = store_bytes (mem_bytes (mem s)) (route (mem s) a0)
      (L (load_bytes (mem_bytes (mem s)) (route (mem s) a0) n) (reg_bytes n (gpr s).[f_rt inst]) k).
Proof.
  intros Hn HL Hm Hc Hf Htr a0 k. pose proof (rel_translated_spec (base_imm inst s) op_store _ s Hc Hf (rel_unal_store_k n f mi inst)) as Hr.
  rewrite Htr in Hr. pose proof (translate_range _ _ _ _ Htr) as Hpa. cbn [touched is_load] in Hr.
  destruct (get_word n s pa Hn Hpa Hm) as (v & Hv & Hb). destruct (word_base n pa Hn Hpa) as (Ha0 & Hal & Hk).
  fold a0 in Hb, Ha0, Hal. destruct (reg_bytes_ok n (gpr s).[f_rt inst]) as (Rok & Rl & Re).
  destruct (HL (bytes_at n a0 (mem s)) (reg_bytes n (gpr s).[f_rt inst]) k) as (Ef & Lok & Ll);
    [by apply bytes_at_ok|done|apply length_bytes_at|done|lia|].
  unfold unal_store_k at 2 in Hr. cbv zeta in Hr. unfold touched in Hr. cbn [is_load] in Hr.
  rewrite Hv in Hr. cbn [mbind result_bind] in Hr.
  rewrite Hb, pos_mod, <- Re in Hr by done. replace (pa mod Z.of_nat n) with (Z.of_nat k) in Hr by lia.
  rewrite Ef, word_mask_land in Hr by done. fold a0 in Hr. cbn [bswap] in Hr.
  assert (Hput := mem_set_aligned n (mem s) a0 (byteswap n (be_join (L (bytes_at n a0 (mem s)) (reg_bytes n (gpr s).[f_rt inst]) k))) Hn Ha0 Hal).
  assert (Hmo := mem_set_ok _ _ _ _ _ Hm (proj1 Ha0) Hput).
  unfold put in Hr. rewrite Hput in Hr. cbn [mbind result_bind] in Hr.
  rewrite split_be_join in Hr, Hmo by done.
  apply rel_Ok in Hr as (t & Ht & (Hct & _ & Ha)). exists t. split; [exact Ht|]. split; [exact Hct|].
  rewrite <- load_bytes_at in Ha, Hmo by done.
  split_and!; [exact (eq_trans (f_equal tlb_fault Ha) Hf)|exact (f_equal gpr Ha)|exact (f_equal tlb Ha)|
    exact (f_equal cpr0 Ha)|exact (f_equal cpr0_64 Ha)| |exact (f_equal (fun t => route_devices (mem t)) Ha)|
    exact (f_equal (fun t => mem_bytes (mem t)) Ha)].
  rewrite (f_equal mem Ha : mem t = _). exact Hmo.
Qed.
Lemma take_load b a n k : (k <= n)%nat -> take k (load_bytes b a n) = load_bytes b a k.
Proof.
  intros. replace n with (k + (n - k))%nat by lia. rewrite load_bytes_app, take_app_length'; [done|].
  by rewrite length_load_bytes.
Qed.
Lemma drop_load b a n k : (k <= n)%nat -> drop k (load_bytes b a n) = load_bytes b (a + Z.of_nat k) (n - k).
Proof.
  intros. replace n with (k + (n - k))%nat at 1 by lia. rewrite load_bytes_app, drop_app_length'; [done|].
  by rewrite length_load_bytes.
Qed.
Definition left_bytes n (bs xs : list Z) (k : nat) : list Z := take k bs ++ take (n - k) xs.
Definition right_bytes n (bs xs : list Z) (k : nat) : list Z := drop (n - 1 - k) xs ++ drop (k + 1) bs.
Lemma left_bytes_ok n bs xs k :
  bytes_ok bs -> bytes_ok xs -> length bs = n -> length xs = n -> (k < n)%nat ->
  bytes_ok (left_bytes n bs xs k) /\ length (left_bytes n bs xs k) = n.
Proof.
  intros. split; [by apply Forall_app; split; apply Forall_take|].
  unfold left_bytes. rewrite length_app, !length_take_le by lia. lia.
Qed.
Lemma right_bytes_ok n bs xs k :
  bytes_ok bs -> bytes_ok xs -> length bs = n -> length xs = n -> (k < n)%nat ->
  bytes_ok (right_bytes n bs xs k) /\ length (right_bytes n bs xs k) = n.
Proof.
  intros. split; [by apply Forall_app; split; apply Forall_drop|].
  unfold right_bytes. rewrite length_app, !length_drop. lia.
Qed.
(** Each half writes its bytes of the register and nothing else. *)
Lemma left_poke n m a0 xs k :
  access_size n -> in_u 32 a0 -> a0 mod Z.of_nat n = 0 -> length xs = n -> (k < n)%nat ->
  same_cells (store_bytes (mem_bytes m) (route m a0) (left_bytes n (load_bytes (mem_bytes m) (route m a0) n) xs k))
    (poke (route m) (mem_bytes m) (a0 + Z.of_nat k) (take (n - k) xs)).
Proof.
  intros Hn Ha Hal Hx Hk. rewrite (poke_store n) by (rewrite ?length_take; done || lia).
  unfold left_bytes. rewrite take_load by lia. apply store_over_prefix.
Qed.
Lemma right_poke n m a0 xs k :
  access_size n -> in_u 32 a0 -> a0 mod Z.of_nat n = 0 -> length xs = n -> (k < n)%nat ->
  same_cells (store_bytes (mem_bytes m) (route m a0) (right_bytes n (load_bytes (mem_bytes m) (route m a0) n) xs k))
    (poke (route m) (mem_bytes m) a0 (drop (n - 1 - k) xs)).
Proof.
  intros Hn Ha Hal Hx Hk.
  pose proof (poke_store n m (mem_bytes m) a0 0 (drop (n - 1 - k) xs) Hn Ha Hal) as Hp.
  rewrite !Z.add_0_r in Hp. rewrite Hp by (rewrite length_drop; lia).
  unfold right_bytes. rewrite drop_load by lia.
  replace (k + 1)%nat with (length (drop (n - 1 - k) xs)) by (rewrite length_drop; lia). apply store_over_suffix.
Qed.
Lemma poke_twice n m b a l :
  access_size n -> in_u 32 a -> a mod Z.of_nat n = 0 -> length l = n ->
  same_cells (poke (route m) (poke (route m) b a l) a l) (poke (route m) b a l).
Proof.
  intros Hn Ha Hal Hl. assert (forall b, poke (route m) b a l = store_bytes b (route m a) l) as Hp.
  { intros b'. pose proof (poke_store n m b' a 0 l Hn Ha Hal) as Hp. rewrite !Z.add_0_r in Hp. apply Hp. lia. }
  rewrite !Hp. rewrite <- (load_store_bytes b (route m a) l) at 2. apply store_loaded.
Qed.
End stores.

Section pairs.
Context `{Config}.
Implicit Types (s t : state) (inst pa : Z) (n k : nat) (f g : Z -> Z -> Z -> Z).
Lemma pair_positions n pa :
  access_size n -> in_u 32 pa -> (1 < n)%nat ->
  let k := Z.to_nat (pa mod Z.of_nat n) in let q := pa + Z.of_nat n - 1 in
  (k = 0%nat /\ q mod Z.of_nat n = Z.of_nat (n - 1) /\ q - q mod Z.of_nat n = pa) \/
  ((0 < k < n)%nat /\ q mod Z.of_nat n = Z.of_nat (k - 1) /\ q - q mod Z.of_nat n = pa + Z.of_nat (n - k)).
Proof.
  intros Hn Hpa Hn1 k q. destruct (word_base n pa Hn Hpa) as (_ & _ & Hk).
  pose proof (Z.div_mod pa (Z.of_nat n) ltac:(lia)) as Hd. destruct (decide (k = 0)%nat) as [E|E]; [left|right].
  - assert (q mod Z.of_nat n = Z.of_nat (n - 1)) as Eq; [|split_and!; [done|done|lia]].
    symmetry. apply Z.mod_unique with (pa / Z.of_nat n); lia.
  - assert (q mod Z.of_nat n = Z.of_nat (k - 1)) as Eq; [|split_and!; [lia|lia|done|lia]].
    symmetry. apply Z.mod_unique with (pa / Z.of_nat n + 1); lia.
Qed.
Lemma unal_store_pair n f g mi mi' inst inst' s pa :
  access_size n -> (1 < n)%nat ->
  (forall bs xs k, bytes_ok bs -> bytes_ok xs -> length bs = n -> length xs = n -> (k < n)%nat ->
     f (be_join bs) (be_join xs) (Z.of_nat k) = be_join (left_bytes n bs xs k)) ->
  (forall bs xs k, bytes_ok bs -> bytes_ok xs -> length bs = n -> length xs = n -> (k < n)%nat ->
     g (be_join bs) (be_join xs) (Z.of_nat k) = be_join (right_bytes n bs xs k)) ->
  mem_ok (mem s) -> coherent s -> tlb_fault s = false -> f_rt inst' = f_rt inst ->
  translate s (base_imm inst s) op_store = Phys pa ->
  translate s (base_imm inst' s) op_store = Phys (pa + Z.of_nat n - 1) ->
  exists t r, translated (base_imm inst s) op_store (unal_store_k n f mi inst) s = Ok t /\
    translated (base_imm inst' t) op_store (unal_store_k n g mi' inst') t = Ok r /\ gpr r = gpr s /\
    same_cells (mem_bytes (mem r))
      (poke (route (mem s)) (mem_bytes (mem s)) pa (reg_bytes n (gpr s).[f_rt inst])).
Proof.
  intros Hn Hn1 HF HG Hm Hc Hf Hrt Htr Htr'. pose proof (translate_range _ _ _ _ Htr) as Hpa.
  pose proof (translate_range _ _ _ _ Htr') as Hq.
  destruct (unal_store n f (left_bytes n) mi inst s pa) as (t & Ht & Hct & Hft & Egt & Ett & E0t & E64t & Hmt & Ert & Ebt);
    try done; [intros; split; [by apply HF|by apply left_bytes_ok]|].
  assert (base_imm inst' t = base_imm inst' s) as Eb by (unfold base_imm; by rewrite Egt).
  assert (translate t (base_imm inst' t) op_store = Phys (pa + Z.of_nat n - 1)) as Htr2
    by (rewrite Eb; by rewrite (translate_frame s t)).
  destruct (unal_store n g (right_bytes n) mi' inst' t (pa + Z.of_nat n - 1)) as (r & Hr & _ & _ & Egr & _ & _ & _ & _ & _ & Ebr);
    try done; [intros; split; [by apply HG|by apply right_bytes_ok]|].
  exists t, r. split_and!; [done|done|by rewrite Egr|].
  assert (forall a, route (mem t) a = route (mem s) a) as Er by (intros; unfold route; by rewrite Ert).
  rewrite Egt, Hrt in Ebr. set (xs := reg_bytes n (gpr s).[f_rt inst]) in *.
  assert (length xs = n) as Lx by apply reg_bytes_ok.
  destruct (word_base n pa Hn Hpa) as (Ha & Hal & Hk). destruct (word_base n _ Hn Hq) as (Ha' & Hal' & Hk').
  intros c. rewrite Ebr, (right_poke n) by (done || lia).
  rewrite (same_cells_poke _ _ (poke (route (mem s)) (mem_bytes (mem s)) pa (take (n - Z.to_nat (pa mod Z.of_nat n)) xs))).
  2: { rewrite Ebt. intros e. rewrite (left_poke n) by (done || lia). do 2 f_equal. lia. }
  assert (forall b a l, poke (route (mem t)) b a l = poke (route (mem s)) b a l) as Ep.
  { intros b a l. revert b a; induction l as [|x l IH]; intros b a; cbn [poke]; [done|]. by rewrite Er, IH. }
  rewrite Ep. destruct (pair_positions n pa Hn Hpa Hn1) as [(E1 & E2 & E3)|(E1 & E2 & E3)]; cbv zeta in *; rewrite E2.
  - rewrite <- E2, E3, E2, E1. replace (n - 1 - Z.to_nat (Z.of_nat (n - 1)))%nat with 0%nat by lia.
    rewrite drop_0, Nat.sub_0_r, take_ge by lia. rewrite (poke_twice n); [done|done|done| |done].
    by replace pa with (pa - pa mod Z.of_nat n) by lia.
  - rewrite <- E2, E3, E2. set (k := Z.to_nat (pa mod Z.of_nat n)) in *.
    replace (n - 1 - Z.to_nat (Z.of_nat (k - 1)))%nat with (n - k)%nat by lia.
    rewrite <- (take_drop (n - k) xs) at 3. by rewrite poke_app, length_take_le by lia.
Qed.
End pairs.

(** ** The claims *)

(** C12. Unaligned loads.  LWL at an address followed by LWR three bytes on (LDL and LDR, seven
    bytes on), into the same register and with a different base register, load
    the sign-extended big-endian word (the doubleword) at that address, whatever
    its alignment and whatever pages translate its two ends to adjacent physical
    addresses; no other register and no memory changes. *)
Theorem unaligned_load_pairs `{Config} (inst inst' pa : Z) (s : state)
    (Hm : mem_ok (mem s)) (Hc : coherent s) (Hf : tlb_fault s = false)
    (Hrt : f_rt inst' = f_rt inst) (Hrs : f_rs inst' <> f_rt inst)
    (Htr : translate s (base_imm inst s) op_load = Phys pa) :
  Forall (fun '(hl, hr, n, conv) =>
    translate s (base_imm inst' s) op_load = Phys (pa + Z.of_nat n - 1) ->
    exists t r, hl inst s = Ok t /\ hr inst' t = Ok r /\
      gpr r = wr (f_rt inst) (conv (be_join (bytes_at n pa (mem s)))) (gpr s) /\ mem r = mem s)
  [(_lwl false, _lwr false, 4%nat, s32); (_ldl false, _ldr false, 8%nat, s64)].
Proof.
  repeat apply Forall_cons_2; [..|done]; intros Htr'.
  - apply (unal_load_pair 4 lwl_merge lwr_merge s32 mipsInsn.LWL mipsInsn.LWR); try done.
    + unfold access_size. lia.
    + lia.
    + intros bs0 bs1 x k H0 H1 L0 L1 Hk. pose proof (be_join_range bs1 H1) as Hr. rewrite L1 in Hr.
      rewrite lwl_merge_eq, lwr_merge_eq by (done || lia). unfold merge_right.
      rewrite (wraps_mod 32) by done. f_equal. by apply (pair_load 4).
    + intros bs x Hb Hl. pose proof (be_join_range bs Hb) as Hr. rewrite Hl in Hr.
      rewrite lwr_merge_eq by (done || lia). f_equal. by apply (whole_load 4); [..|lia].
  - apply (unal_load_pair 8 (fun r x ma => s64 (ldl_merge r (u64 x) ma)) (fun r x ma => s64 (ldr_merge r (u64 x) ma))
      s64 mipsInsn.LDL mipsInsn.LDR); try done.
    + unfold access_size. lia.
    + lia.
    + intros bs0 bs1 x k H0 H1 L0 L1 Hk. pose proof (be_join_range bs1 H1) as Hr. rewrite L1 in Hr.
      pose proof (be_join_range bs0 H0) as Hr0. rewrite L0 in Hr0.
      rewrite ldl_merge_eq, ldr_merge_eq by (done || lia). unfold merge_right.
      rewrite (wrapu_wraps 64) by done. unfold wrapu at 1. rewrite Z.mod_mod by done. f_equal. by apply (pair_load 8).
Qed.
Lemma unaligned_load_pairs_witness :
  let s := set_gpr_at 4 0x80001001 (state_init (mk_sparse_mem (store_bytes ∅ 0x1000 [0x80; 0x81; 2; 3; 4]) false) false) in
  exists t r, @_lwl r4400_config false 0x88820000 s = Ok t /\ @_lwr r4400_config false 0x98820003 t = Ok r /\
      gpr r = wr 2 (s32 0x81020304) (gpr s) /\ mem r = mem s.
Proof.
  intros s. assert (mem_ok (mem s)) as Hm by (apply (bool_decide_unpack _); vm_compute; exact I).
  pose proof (@unaligned_load_pairs r4400_config 0x88820000 0x98820003 0x1001 s Hm (coh_empty _)
    eq_refl eq_refl ltac:(done) eq_refl) as Hl.
  apply Forall_cons in Hl as [Hl _]. exact (Hl eq_refl).
Defined.

(** C13. Unaligned stores.  SWL at an address followed by SWR three bytes on (SDL and SDR, seven
    bytes on) write exactly the four (eight) bytes of the register at that
    address, most significant first, and leave every other byte of memory and
    every register as it was. *)
Theorem unaligned_store_pairs `{Config} (inst inst' pa : Z) (s : state)
    (Hm : mem_ok (mem s)) (Hc : coherent s) (Hf : tlb_fault s = false)
    (Hrt : f_rt inst' = f_rt inst)
    (Htr : translate s (base_imm inst s) op_store = Phys pa) :
  Forall (fun '(hl, hr, n) =>
    translate s (base_imm inst' s) op_store = Phys (pa + Z.of_nat n - 1) ->
    exists t r, hl inst s = Ok t /\ hr inst' t = Ok r /\ gpr r = gpr s /\
      same_cells (mem_bytes (mem r))
        (poke (route (mem s)) (mem_bytes (mem s)) pa (reg_bytes n (gpr s).[f_rt inst])))
  [(_swl false, _swr false, 4%nat); (_sdl false, _sdr false, 8%nat)].
Proof.
  repeat apply Forall_cons_2; [..|done]; intros Htr'.
  - apply (unal_store_pair 4 swl_merge swr_merge mipsInsn.SWL mipsInsn.SWR); try done.
    + unfold access_size. lia.
    + lia.
    + intros bs xs k Hb Hx Lb Lx Hk. pose proof (be_join_range bs Hb) as Hr. rewrite Lb in Hr.
      pose proof (be_join_range xs Hx) as Hrx. rewrite Lx in Hrx.
      rewrite swl_merge_eq by (done || lia). by apply (store_left 4).
    + intros bs xs k Hb Hx Lb Lx Hk. rewrite swr_merge_eq by lia. by apply (store_right 4).
  - apply (unal_store_pair 8 sdl_merge sdr_merge mipsInsn.SDL mipsInsn.SDR); try done.
    + unfold access_size. lia.
    + lia.
    + intros bs xs k Hb Hx Lb Lx Hk. pose proof (be_join_range bs Hb) as Hr. rewrite Lb in Hr.
      pose proof (be_join_range xs Hx) as Hrx. rewrite Lx in Hrx.
      rewrite sdl_merge_eq by (done || lia). by apply (store_left 8).
    + intros bs xs k Hb Hx Lb Lx Hk. rewrite sdr_merge_eq by lia. by apply (store_right 8).
Qed.
Lemma unaligned_store_pairs_witness :
  let s := set_gpr_at 2 0x11223344 (set_gpr_at 4 0x80001001 (state_init (mk_sparse_mem ∅ false) false)) in
  exists t r, @_swl r4400_config false 0xa8820000 s = Ok t /\ @_swr r4400_config false 0xb8820003 t = Ok r /\
      gpr r = gpr s /\ same_cells (mem_bytes (mem r)) (poke (route (mem s)) ∅ 0x1001 [0x11; 0x22; 0x33; 0x44]).
Proof.
  intros s. pose proof (@unaligned_store_pairs r4400_config 0xa8820000 0xb8820003 0x1001 s (map_Forall_empty _)
    (coh_empty _) eq_refl eq_refl eq_refl) as Hl.
  apply Forall_cons in Hl as [Hl _]. exact (Hl eq_refl).
Defined.
