(* ===== verification/AluProps.v ===== *)
(** Arithmetic of the integer instructions of [src/interpret.cc]: the sign-bit
    overflow tests are exact range checks, multiplication keeps the exact
    product in HI:LO, division satisfies the division law. *)
From S2P Require Import Prelude Bits Insns State Mem Wf Exc Tlb LoadStore Alu Fp Fpu Cp0 Branch Exec ExcProps Arch Utlb NonInterf TlbSpec TlbProps LsProps Unaligned.

(** The exact result fits a signed register of [w] bits. *)
Definition fits (w x : Z) : bool := (- 2 ^ (w - 1) <=? x) && (x <? 2 ^ (w - 1)).
(** What a trapping operation with exact result [x] does. *)
Definition exact_or_trap (w x : Z) (put_result : Z -> state -> state) (s : state) : state :=
  if fits w x then put_result x s else raise_overflow s.

(** * Theorems *)
Section overflow.
Implicit Types (w a b : Z).
Lemma wraps_cases w a : 0 < w -> in_s w (wraps w a) /\ wrapu w a = if wraps w a <? 0 then wraps w a + 2 ^ w else wraps w a.
Proof.
  intros Hw. pose proof (wraps_range w a Hw) as Hr. split; [done|].
  rewrite <- (wrapu_wraps w a) by done. destruct Hr as [H0 H1]. pose proof (pow2_half w Hw).
  unfold wrapu. destruct (Z.ltb_spec (wraps w a) 0); [|apply Z.mod_small; lia].
  symmetry. apply Z.mod_unique with (-1); lia.
Qed.
Lemma sign_bit w a : 0 < w -> wrapu w a >> (w - 1) = Z.b2z (wraps w a <? 0).
Proof.
  intros Hw. destruct (wraps_cases w a Hw) as [[H0 H1] ->]. rewrite Z.shiftr_div_pow2 by lia.
  pose proof (pow2_half w Hw). destruct (Z.ltb_spec (wraps w a) 0); cbn [Z.b2z]; symmetry.
  - apply Z.div_unique with (wraps w a + 2 ^ (w - 1)); lia.
  - apply Z.div_unique with (wraps w a); lia.
Qed.
(** The signed value of a wrapped sum. *)
Lemma wraps_sum w x :
  0 < w -> - 2 ^ w <= x < 2 ^ w ->
  wraps w x = if x <? - 2 ^ (w - 1) then x + 2 ^ w else if x <? 2 ^ (w - 1) then x else x - 2 ^ w.
Proof.
  intros Hw Hx. pose proof (pow2_half w Hw).
  assert (forall k, wraps w (x + k * 2 ^ w) = wraps w x) as Hk.
  { intros k. apply wraps_cong. by apply Z.mod_add, Z.pow_nonzero; lia. }
  destruct (Z.ltb_spec x (- 2 ^ (w - 1))).
  - rewrite <- (Hk 1), wraps_id; unfold in_s; lia.
  - destruct (Z.ltb_spec x (2 ^ (w - 1))).
    + rewrite wraps_id; unfold in_s; lia.
    + rewrite <- (Hk (-1)), wraps_id; unfold in_s; lia.
Qed.
Lemma eqb_b2z x y : (Z.b2z x =? Z.b2z y) = eqb x y.
Proof. by destruct x, y. Qed.
Lemma add_test w a b (A := wraps w a) (B := wraps w b) (r := wrapu w (wrapu w a + wrapu w b)) :
  0 < w ->
  ((r >> (w - 1) =/? wrapu w b >> (w - 1)) && (wrapu w a >> (w - 1) =? wrapu w b >> (w - 1))) = negb (fits w (A + B))
  /\ (fits w (A + B) = true -> wraps w r = A + B).
Proof.
  intros Hw. unfold r. rewrite !sign_bit by done. rewrite wraps_wrapu by lia.
  pose proof (wraps_range w a Hw) as [HA0 HA1]. pose proof (wraps_range w b Hw) as [HB0 HB1]. fold A B in HA0, HA1, HB0, HB1 |- *.
  assert (wraps w (wrapu w a + wrapu w b) = wraps w (A + B)) as Es.
  { apply wraps_cong. unfold wrapu. rewrite <- Z.add_mod by (apply Z.pow_nonzero; lia).
    rewrite Z.add_mod, (Z.add_mod A) by (apply Z.pow_nonzero; lia). unfold A, B. by rewrite !wraps_mod. }
  rewrite Es, !eqb_b2z. pose proof (pow2_half w Hw). clearbody A B. clear Es r.
  rewrite (wraps_sum w (A + B)) by lia. unfold fits. split.
  - destruct (Z.ltb_spec (A + B) (- 2 ^ (w - 1))), (Z.ltb_spec (A + B) (2 ^ (w - 1))),
      (Z.leb_spec (- 2 ^ (w - 1)) (A + B)), (Z.ltb_spec A 0), (Z.ltb_spec B 0); cbn [eqb negb andb];
      try lia; try (destruct (Z.ltb_spec (A + B) 0); cbn; lia);
      try (destruct (Z.ltb_spec (A + B + 2 ^ w) 0); cbn; lia);
      try (destruct (Z.ltb_spec (A + B - 2 ^ w) 0); cbn; lia).
  - intros [? ?]%andb_true_iff. destruct (Z.ltb_spec (A + B) (- 2 ^ (w - 1))), (Z.ltb_spec (A + B) (2 ^ (w - 1))); lia.
Qed.
Lemma sub_test w a b (A := wraps w a) (B := wraps w b) (r := wrapu w (wrapu w a - wrapu w b)) :
  0 < w ->
  ((r >> (w - 1) =/? wrapu w a >> (w - 1)) && (wrapu w a >> (w - 1) =/? wrapu w b >> (w - 1))) = negb (fits w (A - B))
  /\ (fits w (A - B) = true -> wraps w r = A - B).
Proof.
  intros Hw. unfold r. rewrite !sign_bit by done. rewrite wraps_wrapu by lia.
  pose proof (wraps_range w a Hw) as [HA0 HA1]. pose proof (wraps_range w b Hw) as [HB0 HB1]. fold A B in HA0, HA1, HB0, HB1 |- *.
  assert (wraps w (wrapu w a - wrapu w b) = wraps w (A - B)) as Es.
  { apply wraps_cong. unfold wrapu. rewrite <- Zminus_mod. rewrite Zminus_mod, (Zminus_mod A).
    unfold A, B. by rewrite !wraps_mod. }
  rewrite Es, !eqb_b2z. pose proof (pow2_half w Hw). clearbody A B. clear Es r.
  rewrite (wraps_sum w (A - B)) by lia. unfold fits. split.
  - destruct (Z.ltb_spec (A - B) (- 2 ^ (w - 1))), (Z.ltb_spec (A - B) (2 ^ (w - 1))),
      (Z.leb_spec (- 2 ^ (w - 1)) (A - B)), (Z.ltb_spec A 0), (Z.ltb_spec B 0); cbn [eqb negb andb];
      try lia; try (destruct (Z.ltb_spec (A - B) 0); cbn; lia);
      try (destruct (Z.ltb_spec (A - B + 2 ^ w) 0); cbn; lia);
      try (destruct (Z.ltb_spec (A - B - 2 ^ w) 0); cbn; lia).
  - intros [? ?]%andb_true_iff. destruct (Z.ltb_spec (A - B) (- 2 ^ (w - 1))), (Z.ltb_spec (A - B) (2 ^ (w - 1))); lia.
Qed.
End overflow.

Section trapping.
Implicit Types (s : state) (inst : Z).
Lemma trap_add_32 a b s (k : Z -> state -> state) :
  (if (u32 (u32 a + u32 b) >> 31 =/? u32 b >> 31) && (u32 a >> 31 =? u32 b >> 31) then raise_overflow s
   else k (sext64 (u32 (u32 a + u32 b))) s) = exact_or_trap 32 (s32 a + s32 b) k s.
Proof.
  destruct (add_test 32 a b ltac:(done)) as [E Er]. change 31 with (32 - 1). rewrite E. unfold exact_or_trap.
  destruct (fits 32 _); cbn [negb]; [|done]. by rewrite sext64_s32, Er.
Qed.
Lemma trap_sub_32 a b s (k : Z -> state -> state) :
  (if (u32 (u32 a - u32 b) >> 31 =/? u32 a >> 31) && (u32 a >> 31 =/? u32 b >> 31) then raise_overflow s
   else k (sext64 (u32 (u32 a - u32 b))) s) = exact_or_trap 32 (s32 a - s32 b) k s.
Proof.
  destruct (sub_test 32 a b ltac:(done)) as [E Er]. change 31 with (32 - 1). rewrite E. unfold exact_or_trap.
  destruct (fits 32 _); cbn [negb]; [|done]. by rewrite sext64_s32, Er.
Qed.
Lemma trap_add_64 a b s (k : Z -> state -> state) :
  (if (u64 (u64 a + u64 b) >> 63 =/? u64 b >> 63) && (u64 a >> 63 =? u64 b >> 63) then raise_overflow s
   else k (s64 (u64 (u64 a + u64 b))) s) = exact_or_trap 64 (s64 a + s64 b) k s.
Proof.
  destruct (add_test 64 a b ltac:(done)) as [E Er]. change 63 with (64 - 1). rewrite E. unfold exact_or_trap.
  destruct (fits 64 _); cbn [negb]; [|done]. by rewrite Er.
Qed.
Lemma trap_sub_64 a b s (k : Z -> state -> state) :
  (if (u64 (u64 a - u64 b) >> 63 =/? u64 a >> 63) && (u64 a >> 63 =/? u64 b >> 63) then raise_overflow s
   else k (s64 (u64 (u64 a - u64 b))) s) = exact_or_trap 64 (s64 a - s64 b) k s.
Proof.
  destruct (sub_test 64 a b ltac:(done)) as [E Er]. change 63 with (64 - 1). rewrite E. unfold exact_or_trap.
  destruct (fits 64 _); cbn [negb]; [|done]. by rewrite Er.
Qed.
(** A signed host shift gives the sign as 0 or -1. *)
Lemma shr_sign w x : 0 < w -> in_s w x -> x >> (w - 1) = - (wrapu w x >> (w - 1)).
Proof.
  intros Hw Hx. rewrite sign_bit, wraps_id by done. destruct Hx. rewrite Z.shiftr_div_pow2 by lia.
  destruct (Z.ltb_spec x 0); cbn [Z.b2z]; symmetry.
  - apply Z.div_unique with (x + 2 ^ (w - 1)); lia.
  - apply Z.div_unique with x; lia.
Qed.
Lemma opp_eqb x y : (- x =? - y) = (x =? y).
Proof. destruct (Z.eqb_spec x y), (Z.eqb_spec (- x) (- y)); lia. Qed.
Lemma trap_addi_64 a b s (k : Z -> state -> state) :
  in_s 64 a -> in_s 64 b ->
  (if (s64 (u64 (u64 a + u64 b)) >> 63 =/? b >> 63) && (a >> 63 =? b >> 63) then raise_overflow s
   else k (s64 (u64 (u64 a + u64 b))) s) = exact_or_trap 64 (a + b) k s.
Proof.
  intros Ha Hb. pose proof (trap_add_64 a b s k) as E. rewrite (wraps_id 64 a), (wraps_id 64 b) in E by done.
  rewrite <- E. change 63 with (64 - 1). rewrite (shr_sign 64 a), (shr_sign 64 b), (shr_sign 64 (s64 _)) by (done || rng).
  rewrite !opp_eqb, wrapu_wraps by done. by rewrite (wrapu_wrapu 64 (u64 a + u64 b)) by done.
Qed.
End trapping.

(** The overflow tests are exact.  ADD, SUB and ADDI (on the low words), DADD, DSUB and DADDI
    (on the full registers) write the exact signed result when it fits the
    operation's width and raise the overflow exception, writing nothing,
    exactly when it does not. *)
Theorem overflow_traps_exact (inst : Z) (s : state) `{Config} (Hw : wf s) :
  let rs := r_rs inst s in let rt := r_rt inst s in let imm := f_simm inst in
  _add inst s = exact_or_trap 32 (s32 rs + s32 rt) (fun v => ret_rd inst v mipsInsn.ADD) s /\
  _sub inst s = exact_or_trap 32 (s32 rs - s32 rt) (fun v => ret_rd inst v mipsInsn.SUB) s /\
  _addi inst s = exact_or_trap 32 (s32 rs + imm) (fun v => ret_rt inst v mipsInsn.ADDI) s /\
  _dadd inst s = exact_or_trap 64 (rs + rt) (fun v => ret_rd inst v mipsInsn.DADD) s /\
  _dsub inst s = exact_or_trap 64 (rs - rt) (fun v => ret_rd inst v mipsInsn.DSUB) s /\
  _daddi inst s = exact_or_trap 64 (rs + imm) (fun v => ret_rt inst v mipsInsn.DADDI) s.
Proof.
  cbv zeta. assert (in_s 64 (r_rs inst s) /\ in_s 64 (r_rt inst s)) as [Hrs Hrt] by (split; by apply wf_gpr_rd).
  pose proof (f_simm_range inst) as Hi.
  assert (in_s 64 (f_simm inst)) by (by apply (in_s_mono 16)). assert (in_s 32 (f_simm inst)) by (by apply (in_s_mono 16)).
  split_and!.
  - exact (trap_add_32 (r_rs inst s) (r_rt inst s) s (fun v => ret_rd inst v mipsInsn.ADD)).
  - exact (trap_sub_32 (r_rs inst s) (r_rt inst s) s (fun v => ret_rd inst v mipsInsn.SUB)).
  - rewrite <- (wraps_id 32 (f_simm inst)) by done.
    exact (trap_add_32 (r_rs inst s) (f_simm inst) s (fun v => ret_rt inst v mipsInsn.ADDI)).
  - rewrite <- (wraps_id 64 (r_rs inst s)), <- (wraps_id 64 (r_rt inst s)) by done.
    exact (trap_add_64 (r_rs inst s) (r_rt inst s) s (fun v => ret_rd inst v mipsInsn.DADD)).
  - rewrite <- (wraps_id 64 (r_rs inst s)), <- (wraps_id 64 (r_rt inst s)) by done.
    exact (trap_sub_64 (r_rs inst s) (r_rt inst s) s (fun v => ret_rd inst v mipsInsn.DSUB)).
  - exact (trap_addi_64 (r_rs inst s) (f_simm inst) s (fun v => ret_rt inst v mipsInsn.DADDI) Hrs ltac:(done)).
Qed.
Lemma overflow_traps_exact_witness :
  let s := set_gpr_at 4 0x7fffffff (state_init (mk_sparse_mem ∅ false) false) in
  _addi 0x20820001 s = raise_overflow s.
Proof.
  intros s. assert (@wf r4400_config s) as Hw.
  { apply wf_set_gpr_at; [lia|unfold in_s; lia|]. apply wf_state_init, map_Forall_empty. }
  pose proof (@overflow_traps_exact 0x20820001 s r4400_config Hw) as (_ & _ & E & _). exact E.
Defined.

(** ** Products and quotients *)
Section products.
Implicit Types (w y a b : Z).
Lemma hilo_signed w y : 0 < w -> in_s (2 * w) y -> wraps w (y >> w) * 2 ^ w + wrapu w (wraps w (y .& Z.ones w)) = y.
Proof.
  intros Hw [H0 H1]. pose proof (Z.pow_pos_nonneg 2 w ltac:(lia) ltac:(lia)).
  rewrite Z.shiftr_div_pow2, Z.land_ones, wrapu_wraps by lia. unfold wrapu. rewrite Z.mod_mod by lia.
  assert (2 ^ (2 * w - 1) = 2 ^ (w - 1) * 2 ^ w) as E by (rewrite <- Z.pow_add_r by lia; f_equal; lia).
  rewrite E in *. rewrite (wraps_id w (y / 2 ^ w)); [|done|split].
  - pose proof (Z.div_mod y (2 ^ w) ltac:(lia)). lia.
  - apply Z.div_le_lower_bound; lia.
  - apply Z.div_lt_upper_bound; lia.
Qed.
Lemma hilo_unsigned w y : 0 < w -> in_u (2 * w) y -> wrapu w (y >> w) * 2 ^ w + wrapu w y = y.
Proof.
  intros Hw [H0 H1]. pose proof (Z.pow_pos_nonneg 2 w ltac:(lia) ltac:(lia)).
  rewrite Z.shiftr_div_pow2 by lia. assert (2 ^ (2 * w) = 2 ^ w * 2 ^ w) as E by (rewrite <- Z.pow_add_r by lia; f_equal; lia).
  rewrite E in *. rewrite wrapu_id; [|split; [apply Z.div_pos; lia|apply Z.div_lt_upper_bound; lia]].
  unfold wrapu. pose proof (Z.div_mod y (2 ^ w) ltac:(lia)). lia.
Qed.
Lemma prod_signed w a b : 0 < w -> in_s w a -> in_s w b -> in_s (2 * w) (a * b).
Proof.
  intros Hw [? ?] [? ?]. assert (2 ^ (2 * w - 1) = 2 * (2 ^ (w - 1) * 2 ^ (w - 1))) as E.
  { rewrite <- Z.pow_add_r by lia. rewrite <- Z.pow_succ_r by lia. f_equal. lia. }
  unfold in_s. rewrite E. assert (0 < 2 ^ (w - 1)) by (apply Z.pow_pos_nonneg; lia). nia.
Qed.
Lemma prod_unsigned w a b : 0 < w -> in_u w a -> in_u w b -> in_u (2 * w) (a * b).
Proof.
  intros Hw [? ?] [? ?]. assert (2 ^ (2 * w) = 2 ^ w * 2 ^ w) as E by (rewrite <- Z.pow_add_r by lia; f_equal; lia).
  unfold in_u. rewrite E. nia.
Qed.
Lemma sext64_u32 v : sext64 (u32 v) = s32 v.
Proof. by rewrite sext64_s32, wraps_wrapu. Qed.
End products.

(** Multiplication is exact.  After MULT and DMULT, HI:LO holds the exact signed product
    (HI the high part, LO the low part read unsigned); after MULTU and DMULTU
    the exact unsigned product; each half is sign-extended. *)
Theorem multiply_exact (inst : Z) (s : state) `{Config} (Hw : wf s) :
  let rs := r_rs inst s in let rt := r_rt inst s in
  let holds w (read : Z -> Z) t p := read (hi t) * 2 ^ w + wrapu w (lo t) = p /\ in_s w (hi t) /\ in_s w (lo t) in
  holds 32 (fun v => v) (_mult inst s) (s32 rs * s32 rt) /\
  holds 32 u32 (_multu inst s) (u32 rs * u32 rt) /\
  holds 64 (fun v => v) (_dmult inst s) (rs * rt) /\
  holds 64 u64 (_dmultu inst s) (u64 rs * u64 rt).
Proof.
  cbv zeta. assert (in_s 64 (r_rs inst s) /\ in_s 64 (r_rt inst s)) as [Hrs Hrt] by (split; by apply wf_gpr_rd).
  unfold _mult, _multu, _dmult, _dmultu, ret_hilo, u32_rs, u32_rt, u64_rs, u64_rt. fold (r_rs inst s) (r_rt inst s).
  set (a := r_rs inst s) in *. set (b := r_rt inst s) in *. clearbody a b. st_simpl. rewrite !sext64_u32.
  assert (in_s 64 (s32 a * s32 b)) by (apply (prod_signed 32); [done|rng|rng]).
  assert (in_u 64 (u32 a * u32 b)) by (apply (prod_unsigned 32); [done|rng|rng]).
  assert (in_s 128 (a * b)) by (by apply (prod_signed 64)).
  assert (in_u 128 (u64 a * u64 b)) by (apply (prod_unsigned 64); [done|rng|rng]).
  rewrite (wraps_id 64 (s32 a * s32 b)), (wrapu_id 64 (u32 a * u32 b)), (wraps_id 128), (wrapu_id 128) by done.
  change 0xffffffff with (Z.ones 32). change 0xffffffffffffffff with (Z.ones 64).
  split_and!; try rng.
  - by apply hilo_signed.
  - rewrite !(wrapu_wraps 32) by done. by apply hilo_unsigned.
  - by apply hilo_signed.
  - rewrite !(wrapu_wraps 64), wrapu_wrapu by done. set (y := u64 a * u64 b) in *. clearbody y.
    rewrite Z.land_ones by done. fold (wrapu 64 y). rewrite wrapu_wrapu by done. by apply (hilo_unsigned 64).
Qed.
Lemma multiply_exact_witness :
  let s := set_gpr_at 4 (-3) (set_gpr_at 5 7 (state_init (mk_sparse_mem ∅ false) false)) in
  hi (_mult 0x00850018 s) * 2 ^ 32 + u32 (lo (_mult 0x00850018 s)) = -21.
Proof.
  intros s. assert (@wf r4400_config s) as Hw.
  { do 2 (apply wf_set_gpr_at; [lia|unfold in_s; lia|]). apply wf_state_init, map_Forall_empty. }
  pose proof (@multiply_exact 0x00850018 s r4400_config Hw) as ((E & _) & _). exact E.
Defined.

(** C19. Division.  With a nonzero divisor, DIV, DDIV (signed, outside the most negative number
    over minus one) and DDIVU leave a quotient in LO and a remainder in HI with
    dividend = quotient * divisor + remainder, the remainder smaller than the
    divisor and of the dividend's sign; DIV and DDIV of the most negative number
    by minus one give it back with remainder 0; a zero divisor of DIV (its low word),
    DDIV or DDIVU leaves HI and LO unchanged. *)
Theorem divide_law (inst : Z) (s : state) `{Config} (Hw : wf s) :
  let rs := r_rs inst s in let rt := r_rt inst s in
  let law t a b := a = lo t * b + hi t /\ Z.abs (hi t) < Z.abs b /\ 0 <= hi t * a in
  (s32 rt <> 0 -> ~ (s32 rs = - 2 ^ 31 /\ s32 rt = -1) -> law (_div inst s) (s32 rs) (s32 rt)) /\
  (s32 rs = - 2 ^ 31 -> s32 rt = -1 -> lo (_div inst s) = - 2 ^ 31 /\ hi (_div inst s) = 0) /\
  (s32 rt = 0 -> lo (_div inst s) = lo s /\ hi (_div inst s) = hi s) /\
  (rt <> 0 -> ~ (rs = - 2 ^ 63 /\ rt = -1) -> law (_ddiv inst s) rs rt) /\
  (rs = - 2 ^ 63 -> rt = -1 -> lo (_ddiv inst s) = - 2 ^ 63 /\ hi (_ddiv inst s) = 0) /\
  (rt = 0 -> lo (_ddiv inst s) = lo s /\ hi (_ddiv inst s) = hi s) /\
  (rt <> 0 -> u64 rs = u64 (lo (_ddivu inst s)) * u64 rt + u64 (hi (_ddivu inst s)) /\
              u64 (hi (_ddivu inst s)) < u64 rt) /\
  (rt = 0 -> lo (_ddivu inst s) = lo s /\ hi (_ddivu inst s) = hi s).
Proof.
  cbv zeta. assert (in_s 64 (r_rs inst s) /\ in_s 64 (r_rt inst s)) as [Hrs Hrt] by (split; by apply wf_gpr_rd).
  unfold _div, _ddiv, _ddivu, ret_hilo, next, u64_rs, u64_rt, INT64_MIN. fold (r_rs inst s) (r_rt inst s).
  set (a := r_rs inst s) in *. set (b := r_rt inst s) in *. clearbody a b.
  assert (forall a b, b <> 0 -> a = Z.quot a b * b + Z.rem a b /\ Z.abs (Z.rem a b) < Z.abs b /\ 0 <= Z.rem a b * a) as Hlaw.
  { intros x y Hy. split_and!; [pose proof (Z.quot_rem x y Hy); lia|by apply Z.rem_bound_abs|].
    rewrite Z.mul_comm. pose proof (Z.rem_sign_mul x y Hy). lia. }
  split_and!.
  - intros Hb Hne. rewrite (proj2 (Z.eqb_neq _ _)) by done. cbn [negb]. st_simpl. rewrite !sext64_u32.
    assert (in_s 32 (s32 a)) by rng. assert (in_s 32 (s32 b)) by rng.
    rewrite !wraps_wraps by done. rewrite (wraps_id 32 (Z.quot _ _)) by (try done; by apply quot_range).
    rewrite (wraps_id 32 (Z.rem _ _)) by (try done; by apply rem_range). by apply Hlaw.
  - intros -> ->. done.
  - intros ->. done.
  - intros Hb Hne. rewrite (proj2 (Z.eqb_neq _ _)) by done. cbn [negb].
    destruct (_ && _) eqn:Hc; [apply andb_true_iff in Hc as [?%Z.eqb_eq ?%Z.eqb_eq]; by destruct Hne|]. st_simpl. by apply Hlaw.
  - intros -> ->. done.
  - intros ->. done.
  - intros Hb. rewrite (proj2 (Z.eqb_neq _ _)) by done. cbn [negb]. st_simpl. rewrite !(wrapu_wraps 64) by done.
    assert (u64 b <> 0) as Hub.
    { intros E. apply Hb. rewrite <- (wraps_id 64 b) by done. rewrite <- wraps_wrapu by done. by rewrite E. }
    pose proof (wrapu_range 64 a ltac:(done)) as [? ?]. pose proof (wrapu_range 64 b ltac:(done)) as [? ?].
    pose proof (Z.div_mod (u64 a) (u64 b) Hub). pose proof (Z.mod_pos_bound (u64 a) (u64 b) ltac:(lia)).
    assert (0 <= u64 a / u64 b <= u64 a) by (split; [apply Z.div_pos; lia|apply Z.div_le_upper_bound; nia]).
    rewrite !(wrapu_id 64 (_ / _)), !(wrapu_id 64 (_ mod _)) by (unfold in_u; lia). lia.
  - intros ->. done.
Qed.
Lemma divide_law_witness :
  let s := set_gpr_at 4 (-7) (set_gpr_at 5 2 (state_init (mk_sparse_mem ∅ false) false)) in
  let t := _div 0x0085001a s in -7 = lo t * 2 + hi t /\ Z.abs (hi t) < 2 /\ 0 <= hi t * -7.
Proof.
  intros s. assert (@wf r4400_config s) as Hw.
  { do 2 (apply wf_set_gpr_at; [lia|unfold in_s; lia|]). apply wf_state_init, map_Forall_empty. }
  apply (proj1 (@divide_law 0x0085001a s r4400_config Hw)); [done|]. by intros [? ?].
Defined.

(** DIVU guards the divisor by the whole register but divides by its low word. *)
Lemma divu_host_trap :
  let s := set_gpr_at 5 (2 ^ 32) (state_init (mk_sparse_mem ∅ false) false) in
  _divu 0x0085001b s = Stop HostUB.
Proof. done. Qed.
