(* ===== verification/Decode.v ===== *)
(** The instruction classifiers and target calculators of [src/interpret.hh]
    (used by the tracing tools) and [is_store_insn] of [src/interpret.cc]. *)
From S2P Require Import Prelude Bits Insns State Mem Wf Exc Tlb LoadStore Alu.

Definition is_jr (inst : Z) (r31 : bool) : bool :=
  let opcode := inst >> 26 in
  let funct := inst .& 63 in
  let rs := (inst >> 21) .& 31 in
  let jr := (opcode =? 0) && (funct =? 0x08) in
  if jr then (if r31 then rs =? 31 else true) else false.
Definition is_jal (inst : Z) : bool := inst >> 26 =? 3.
Definition is_jalr (inst : Z) : bool := (inst >> 26 =? 0) && (inst .& 63 =? 0x9).
Definition is_j (inst : Z) : bool := inst >> 26 =? 2.
(** The assertion stops the process on any other instruction. *)
Definition get_jump_target (pc inst : Z) : result Z :=
  if is_jal inst || is_j inst then
    let pc_mask := u32 (.~ ((1 << 28) - 1)) in
    let jaddr := (inst .& ((1 << 26) - 1)) << 2 in
    Ok ((u32 (pc + 4) .& pc_mask) .| jaddr)
  else Stop HostExit.
Definition is_memory (inst : Z) : bool :=
  match inst >> 26 with
  | 0x20 | 0x21 | 0x22 | 0x23 | 0x24 | 0x25 | 0x26 | 0x28 | 0x29 | 0x2a | 0x2b | 0x2e
  | 0x31 | 0x35 | 0x39 | 0x3d => true
  | _ => false
  end.
Definition is_branch (inst : Z) : bool :=
  let rt := (inst >> 16) .& 31 in
  match inst >> 26 with
  | 0x01 => (rt =? 0) || (rt =? 1)
  | 0x04 | 0x05 | 0x06 | 0x07 => true
  | _ => false
  end.
Definition is_branch_likely (inst : Z) : bool :=
  let rt := (inst >> 16) .& 31 in
  match inst >> 26 with
  | 0x01 => (rt =? 2) || (rt =? 3)
  | 0x14 | 0x15 | 0x16 | 0x17 => true
  | _ => false
  end.
Definition get_branch_target (pc inst : Z) : Z :=
  let himm := s16 (inst .& ((1 << 16) - 1)) in
  let imm := s32 (himm << 2) in
  u32 (pc + 4 + imm).

(** The fetch here is the 1:1 mapping, not the TLB. *)
Definition is_store_op (inst : Z) : bool :=
  match inst >> 26 with
  | 0x28 | 0x29 | 0x2a | 0x2B | 0x2e | 0x39 | 0x38 | 0x3D => true
  | _ => false
  end.
Definition is_store_insn (s : state) : result bool :=
  let! w := get 4 (va2pa (u32 (pc s))) s in
  Ok (is_store_op (bswap false 4 w)).
