(* ===== verification/Control.v ===== *)
(** Control flow of the interpreter: which instructions run a delay slot, the
    termination of the recursion through delay slots, branch and jump targets,
    exceptions in a delay slot, and the hard-wired zero register. *)
From S2P Require Import Prelude Bits Insns State Mem Wf Exc Tlb LoadStore Alu Fp Fpu Cp0 Branch Exec Arch Utlb NonInterf ExcProps ExecProps Decode.

(** The instructions that run a delay slot: the classes of [Decode], the
    branch-and-link forms of REGIMM and the FP branches. *)
Definition is_regimm_link (inst : Z) : bool :=
  (inst >> 26 =? 1) && ((16 <=? f_rt inst) && (f_rt inst <=? 19)).
Definition is_bc1 (inst : Z) : bool := (inst >> 26 =? 0x11) && (f_fmt inst =? 8).
Definition has_delay_slot (inst : Z) : bool :=
  is_branch inst || is_branch_likely inst || is_j inst || is_jal inst || is_jr inst false
  || is_jalr inst || is_regimm_link inst || is_bc1 inst.

Section fetch.
Context `{Config}.
(** The instruction [execMips] fetches, with the state after the fetch. *)
Definition fetch (s : state) : result (option Z * state) :=
  let s := s |> set_gpr_at 0 0 |> set_tlb_fault false in
  let (ipa, s) := va_translate s (pc s) op_fetch in
  if tlb_fault s then Ok (None, s) else
  let! w := get 4 ipa s in
  Ok (Some (bswap IS_LITTLE_ENDIAN 4 w), s).
(** [u] enters the delay slot of the instruction fetched in [s]. *)
Record enters_slot (s u : state) : Prop := {
  es_pc : pc u = s64 (pc s + 4);
  es_mem : mem u = mem s;
  es_tlb : tlb u = tlb s;
  es_cpr0 : cpr0 u = cpr0 s;
  es_cpr0_64 : cpr0_64 u = cpr0_64 s;
  es_slot : in_delay_slot u = true;
}.
(** [n] control transfers, each in the delay slot of the one before. *)
Fixpoint nested (n : nat) (s : state) : Prop :=
  match n with
  | O => True
  | S n => exists inst t u, fetch s = Ok (Some inst, t) /\ has_delay_slot inst = true /\
             enters_slot t u /\ nested n u
  end.
End fetch.

(** * Theorems *)

(** ** Handlers that do not recurse never run out of fuel *)
Definition finite {A} (r : result A) : Prop := r <> Stop OutOfFuel.
Lemma finite_Ok {A} (a : A) : finite (Ok a).
Proof. done. Qed.
Lemma finite_bind {A B} (m : result A) (f : A -> result B) :
  finite m -> (forall a, finite (f a)) -> finite (m ≫= f).
Proof. unfold finite. destruct m as [a|w]; cbn; [auto|]. intros Hm _ [= ->]. by apply Hm. Qed.
Lemma finite_get n a s : finite (get n a s).
Proof. unfold get, mem_get, check_addr. by repeat case_match. Qed.
Lemma finite_put n a v s : finite (put n a v s).
Proof. unfold put, mem_set, check_addr. by repeat case_match. Qed.
Lemma finite_translated `{Config} va op k s : (forall ea t, finite (k ea t)) -> finite (translated va op k s).
Proof. intros Hk. unfold translated. destruct (va_translate s va op). by case_match. Qed.
Create HintDb finite discriminated.
#[export] Hint Resolve finite_get finite_put : finite.
Ltac fin_auto :=
  repeat (intros; cbv beta zeta;
    match goal with
    | |- finite (Ok _) => done
    | |- finite (Stop _) => done
    | |- finite (_ ≫= _) => apply finite_bind
    | |- finite (translated _ _ _ _) => apply finite_translated
    | |- finite (if ?c then _ else _) => destruct c
    | |- finite (match ?c with _ => _ end) => destruct c
    | |- finite _ => solve [eauto with finite]
    end).
Tactic Notation "fin_of" reference(f) := intros; cbv delta [f]; fin_auto.
Section finite.
Context `{Config, HostFP}.
Variable EL : bool.
Implicit Types (s : state) (inst : Z).
Lemma finite_loads inst s :
  finite (_lw EL inst s) /\ finite (_lh EL inst s) /\ finite (_lb inst s) /\ finite (_lbu inst s) /\
  finite (_lhu EL inst s) /\ finite (_lwu EL inst s) /\ finite (_ld EL inst s) /\ finite (_lld EL inst s) /\
  finite (_lwl EL inst s) /\ finite (_lwr EL inst s) /\ finite (_ldl EL inst s) /\ finite (_ldr EL inst s) /\
  finite (_ldc1 EL inst s) /\ finite (_lwc1 EL inst s) /\ finite (_cache inst s).
Proof.
  split_and!; cbv delta [_lw _lh _lb _lbu _lhu _lwu _ld _lld _lwl _lwr _ldl _ldr _ldc1 _lwc1 _cache]; fin_auto.
Qed.
Lemma finite_stores inst s :
  finite (_sw EL inst s) /\ finite (_sd EL inst s) /\ finite (_sh EL inst s) /\ finite (_sb inst s) /\
  finite (_sc EL inst s) /\ finite (_scd EL inst s) /\ finite (_swl EL inst s) /\ finite (_swr EL inst s) /\
  finite (_sdl EL inst s) /\ finite (_sdr EL inst s) /\ finite (_sdc1 EL inst s) /\ finite (_swc1 EL inst s).
Proof.
  split_and!; cbv delta [_sw _sd _sh _sb _sc _scd _swl _swr _sdl _sdr _sdc1 _swc1]; fin_auto.
Qed.
Lemma finite_divu inst s : finite (_divu inst s).
Proof. fin_of _divu. Qed.
Lemma finite_execCoproc0 inst s : finite (execCoproc0 inst s).
Proof. intros; cbv delta [execCoproc0 exec_cop0_co exec_cop0_move wait]; fin_auto. Qed.
Lemma finite_do_fp_op op inst s : finite (do_fp_op op inst s).
Proof. intros; cbv delta [do_fp_op execFP]; fin_auto. Qed.
Lemma finite_by_fmt inst fs fd s : finite (by_fmt inst fs fd s).
Proof. fin_of by_fmt. Qed.
Lemma finite_conversions inst s : finite (_truncw inst s) /\ finite (_cvts inst s) /\ finite (_cvtd inst s).
Proof. split_and!; cbv delta [_truncw _cvts _cvtd]; fin_auto. Qed.
#[local] Hint Resolve finite_do_fp_op finite_by_fmt : finite.
#[local] Hint Extern 1 (finite (_truncw _ _)) => apply finite_conversions : finite.
#[local] Hint Extern 1 (finite (_cvts _ _)) => apply finite_conversions : finite.
#[local] Hint Extern 1 (finite (_cvtd _ _)) => apply finite_conversions : finite.
Lemma finite_exec_cop1_op inst s : finite (exec_cop1_op inst s).
Proof. intros; cbv delta [exec_cop1_op _c _fmovc _fmovz _fmovn]; fin_auto. Qed.
Lemma finite_execCoproc1x inst s : finite (execCoproc1x EL inst s).
Proof. fin_of execCoproc1x. Qed.
Lemma finite_ll_sc inst s : finite (exec_ll EL inst s) /\ finite (exec_sc EL inst s).
Proof.
  pose proof finite_loads as Hl. pose proof finite_stores as Hs.
  split; unfold exec_ll, exec_sc; case_match; (apply Hl || apply Hs).
Qed.
End finite.

(** ** One level of the recursion *)
(** [m] fails for want of fuel only because the delay slot [u] of [s] does. *)
Definition slot_fuel (step : state -> result state) (s : state) (m : result state) : Prop :=
  m = Stop OutOfFuel -> exists u, enters_slot s u /\ step u = Stop OutOfFuel.
Section recursion.
Context `{Config, HostFP}.
Variable EL : bool.
Variable step : state -> result state.
Implicit Types (s u : state) (inst : Z).
Lemma finite_slot_fuel s m : finite m -> slot_fuel step s m.
Proof. intros Hm ->. by destruct Hm. Qed.
Lemma slot_fuel_run s0 s (k : bool * state -> result state) :
  enters_slot s0 (set_in_delay_slot true s) -> (forall p, finite (k p)) ->
  slot_fuel step s0 (run_delay_slot step s ≫= k).
Proof.
  intros He Hk. unfold slot_fuel, run_delay_slot. destruct (step _) as [u|w] eqn:Hs; cbn.
  - intros E. by apply Hk in E.
  - intros [= ->]. eauto.
Qed.
Lemma slot_fuel_bind s (m : result state) f :
  slot_fuel step s m -> (forall a, finite (f a)) -> slot_fuel step s (m ≫= f).
Proof.
  unfold slot_fuel. intros Hm Hf. destruct m as [a|w]; cbn; [|auto]. intros E. by apply Hf in E.
Qed.
Lemma slot_fuel_branch bt inst s : slot_fuel step s (branch step bt inst s).
Proof.
  cbv delta [branch]; cbv beta zeta. destruct (isLikely bt).
  - destruct (takeBranch bt inst s); [|by apply finite_slot_fuel].
    apply slot_fuel_run; [|by intros []]. by destruct (saveReturn bt).
  - apply slot_fuel_run; [done|by intros []].
Qed.
Lemma slot_fuel_jump_to s0 s a :
  enters_slot s0 (set_in_delay_slot true s) -> slot_fuel step s0 (jump_to step a s).
Proof. intros He. unfold jump_to. apply slot_fuel_run; [done|by intros []]. Qed.
Lemma slot_fuel_jr inst s : slot_fuel step s (_jr step inst s).
Proof. unfold _jr. apply slot_fuel_bind; [by apply slot_fuel_jump_to|done]. Qed.
Lemma slot_fuel_jalr inst s : slot_fuel step s (_jalr step inst s).
Proof.
  unfold _jalr. cbv zeta. apply slot_fuel_bind; [|done]. apply slot_fuel_jump_to. by destruct (negb _).
Qed.
Lemma slot_fuel_jtype inst s : slot_fuel step s (exec_jtype step inst s).
Proof. unfold exec_jtype. cbv zeta. apply slot_fuel_jump_to. by destruct (_ =? _). Qed.
End recursion.

(** ** The dispatch: control transfers recurse, the rest does not *)
Section dispatch.
Context `{Config, HostFP}.
Variable EL : bool.
Variable step : state -> result state.
Implicit Types (s u : state) (inst : Z).
#[local] Hint Resolve finite_divu finite_execCoproc0 finite_exec_cop1_op finite_execCoproc1x : finite.
Definition recurses inst s (m : result state) : Prop :=
  finite m \/ (has_delay_slot inst = true /\ slot_fuel step s m).
Lemma rec_finite inst s m : finite m -> recurses inst s m.
Proof. by left. Qed.
Lemma rec_control inst s m : has_delay_slot inst = true -> slot_fuel step s m -> recurses inst s m.
Proof. by right. Qed.
Lemma rtype_recurses inst s : inst >> 26 = 0 -> recurses inst s (exec_rtype step inst s).
Proof.
  intros Hop. unfold exec_rtype. destruct (decide (inst .& 63 = 8)) as [E|].
  { rewrite E. apply rec_control; [|apply slot_fuel_jr].
    unfold has_delay_slot, is_jr. rewrite Hop, E. cbn. by rewrite ?orb_true_r. }
  destruct (decide (inst .& 63 = 9)) as [E|].
  { rewrite E. apply rec_control; [|apply slot_fuel_jalr].
    unfold has_delay_slot, is_jalr. rewrite Hop, E. cbn. by rewrite ?orb_true_r. }
  apply rec_finite. repeat case_match; try congruence; try apply finite_divu; try apply finite_Ok.
Qed.
Lemma regimm_recurses inst s : inst >> 26 = 1 -> recurses inst s (_bgez_bltz step inst s).
Proof.
  intros Hop. assert (forall bt, has_delay_slot inst = true -> recurses inst s (branch step bt inst s)) as Hb.
  { intros bt Hd. apply rec_control; [done|apply slot_fuel_branch]. }
  assert (forall r, f_rt inst = r -> has_delay_slot inst =
    ((r =? 0) || (r =? 1) || ((r =? 2) || (r =? 3)) || ((16 <=? r) && (r <=? 19)))) as Hd.
  { intros r <-. unfold has_delay_slot, is_branch, is_branch_likely, is_j, is_jal, is_jr, is_jalr, is_regimm_link, is_bc1.
    fold (f_rt inst). rewrite Hop. cbn. by rewrite ?orb_false_r. }
  unfold _bgez_bltz. destruct (f_rt inst) as [|p|p] eqn:E; [by apply Hb; rewrite (Hd 0)| |by apply rec_finite].
  do 5 (try destruct p as [p|p|]); try (by apply rec_finite); apply Hb; by rewrite (Hd _ eq_refl).
Qed.
Lemma has_slot_op inst : In (inst >> 26) [2; 3; 4; 5; 6; 7; 0x14; 0x15; 0x16; 0x17] -> has_delay_slot inst = true.
Proof.
  intros Hin. unfold has_delay_slot, is_branch, is_branch_likely, is_j, is_jal.
  cbn [In] in Hin. destruct_or!; try done; rewrite <- Hin; cbn; by rewrite ?orb_true_r.
Qed.
Lemma itype_recurses inst s : recurses inst s (exec_itype EL step inst s).
Proof.
  pose proof (finite_loads EL inst s) as Hl. pose proof (finite_stores EL inst s) as Hst.
  destruct_and!. destruct (decide (inst >> 26 = 1)) as [E|].
  { unfold exec_itype. rewrite E. by apply regimm_recurses. }
  destruct (decide (In (inst >> 26) [2; 3; 4; 5; 6; 7; 0x14; 0x15; 0x16; 0x17])) as [Hin|Hout].
  - pose proof (has_slot_op inst Hin) as Hd. unfold exec_itype.
    cbn [In] in Hin. destruct_or!; try done; rewrite <- Hin;
      try (by apply rec_finite); (apply rec_control; [done|apply slot_fuel_branch]).
  - apply rec_finite. unfold exec_itype. repeat case_match; try done;
      exfalso; apply Hout; cbn [In]; lia.
Qed.
Lemma dispatch_recurses inst s : recurses inst s (dispatch EL step inst s).
Proof.
  unfold dispatch. destruct (Z.eqb_spec (inst >> 26) 0); [by apply rtype_recurses|].
  destruct (_ || _); [by apply rec_finite|].
  destruct (Z.eqb_spec (inst >> 26 >> 1) 1) as [E|].
  { apply rec_control; [|apply slot_fuel_jtype]. apply has_slot_op.
    rewrite Z.shiftr_div_pow2 in E by done. change (2 ^ 1) with 2 in E.
    assert (inst >> 26 = 2 \/ inst >> 26 = 3) by (Z.div_mod_to_equations; lia). cbn [In]. lia. }
  destruct (_ =? 0x10); [apply rec_finite, finite_execCoproc0|].
  destruct (Z.eqb_spec (inst >> 26) 0x11) as [E|].
  { unfold execCoproc1. destruct (Z.eqb_spec (f_fmt inst) 8) as [E8|].
    - apply rec_control; [|unfold exec_bc1; repeat case_match; apply slot_fuel_branch].
      unfold has_delay_slot, is_bc1. rewrite E, E8. cbn. by rewrite ?orb_true_r.
    - apply rec_finite. destruct (is_cop1_move inst); [done|apply finite_exec_cop1_op]. }
  destruct (_ =? 0x13); [apply rec_finite; case_match; [done|apply finite_execCoproc1x]|].
  destruct (_ =? 0x12); [by apply rec_finite|].
  destruct (_ || _); [apply rec_finite, finite_ll_sc|].
  destruct (_ || _); [apply rec_finite, finite_ll_sc|]. apply itype_recurses.
Qed.
End dispatch.

(** ** More fuel, same result *)
Definition refines {A} (r r' : result A) : Prop := r = Stop OutOfFuel \/ r = r'.
Section monotone.
Context `{Config, HostFP}.
Variable EL : bool.
Variables step step' : state -> result state.
Hypothesis Hstep : forall s, refines (step s) (step' s).
Implicit Types (s : state) (inst : Z).
Lemma refines_refl {A} (r : result A) : refines r r.
Proof. by right. Qed.
Lemma refines_bind {A B} (m m' : result A) (f : A -> result B) : refines m m' -> refines (m ≫= f) (m' ≫= f).
Proof. intros [->| ->]; [by left|by right]. Qed.
Lemma refines_run s : refines (run_delay_slot step s) (run_delay_slot step' s).
Proof. unfold run_delay_slot. apply refines_bind, Hstep. Qed.
Lemma refines_branch bt inst s : refines (branch step bt inst s) (branch step' bt inst s).
Proof.
  cbv delta [branch]; cbv beta zeta. destruct (isLikely bt).
  - destruct (takeBranch bt inst s); [apply refines_bind, refines_run|by right].
  - apply refines_bind, refines_run.
Qed.
Lemma refines_jump_to a s : refines (jump_to step a s) (jump_to step' a s).
Proof. unfold jump_to. apply refines_bind, refines_run. Qed.
#[local] Hint Resolve refines_refl refines_branch refines_jump_to : core.
Lemma refines_rtype inst s : refines (exec_rtype step inst s) (exec_rtype step' inst s).
Proof.
  unfold exec_rtype. repeat case_match; try apply refines_refl; apply refines_bind, refines_jump_to.
Qed.
Lemma refines_regimm inst s : refines (_bgez_bltz step inst s) (_bgez_bltz step' inst s).
Proof. unfold _bgez_bltz. repeat case_match; auto. Qed.
Lemma refines_itype inst s : refines (exec_itype EL step inst s) (exec_itype EL step' inst s).
Proof. unfold exec_itype. repeat case_match; auto using refines_regimm. Qed.
Lemma refines_bc1 inst s : refines (exec_bc1 step inst s) (exec_bc1 step' inst s).
Proof. unfold exec_bc1. repeat case_match; auto. Qed.
Lemma refines_coproc1 inst s : refines (execCoproc1 step inst s) (execCoproc1 step' inst s).
Proof. unfold execCoproc1. repeat case_match; auto using refines_bc1. Qed.
Lemma refines_dispatch inst s : refines (dispatch EL step inst s) (dispatch EL step' inst s).
Proof.
  unfold dispatch. repeat case_match; auto using refines_rtype, refines_itype, refines_coproc1.
  unfold exec_jtype. cbv zeta. auto.
Qed.
Lemma refines_body s : refines (execMips_body EL step s) (execMips_body EL step' s).
Proof.
  unfold execMips_body. destruct (va_translate _ _ _) as [ipa t]. destruct (tlb_fault t); [auto|].
  destruct (get 4 ipa t) as [w|]; cbn [mbind result_bind]; [|auto]. unfold exec_inst.
  repeat case_match; auto using refines_dispatch.
Qed.
End monotone.

Section termination.
Context `{Config, HostFP}.
Implicit Types (s t u : state) (inst : Z) (k j : nat).
Lemma refines_fuel k s : refines (execMips k s) (execMips (S k) s).
Proof.
  unfold execMips. revert s. induction k as [|k IH]; intros s; [by left|].
  change (refines (execMips_body IS_LITTLE_ENDIAN (execMips_fuel IS_LITTLE_ENDIAN k) s)
    (execMips_body IS_LITTLE_ENDIAN (execMips_fuel IS_LITTLE_ENDIAN (S k)) s)). by apply refines_body.
Qed.
Lemma fuel_stable k j s : execMips k s <> Stop OutOfFuel -> execMips (k + j) s = execMips k s.
Proof.
  intros Hk. induction j as [|j IH]; [by rewrite Nat.add_0_r|]. rewrite Nat.add_succ_r.
  destruct (refines_fuel (k + j) s) as [E|E]; [by rewrite E in IH|]. by rewrite <- E.
Qed.
Lemma body_fetch step s :
  execMips_body IS_LITTLE_ENDIAN step s =
  let! (oi, t) := fetch s in match oi with None => Ok t | Some inst => exec_inst IS_LITTLE_ENDIAN step inst t end.
Proof.
  unfold execMips_body, fetch. destruct (va_translate _ _ _) as [ipa t]. destruct (tlb_fault t); [done|].
  by destruct (get 4 ipa t).
Qed.
Lemma fetch_finite s : finite (fetch s).
Proof.
  unfold fetch. destruct (va_translate _ _ _) as [ipa t]. destruct (tlb_fault t); [done|].
  apply finite_bind; [apply finite_get|done].
Qed.
Lemma enters_slot_gates inst s u :
  enters_slot (s |> set_icnt (u64 (icnt s + 1)) |> break_link inst |> log_store inst) u -> enters_slot s u.
Proof.
  set (s1 := set_icnt _ s). assert (enters_slot s1 u -> enters_slot s u) as H1 by (by intros []).
  assert (forall t, enters_slot (break_link inst t) u -> enters_slot t u) as H2.
  { intros t. unfold break_link. by repeat case_match; intros []. }
  assert (forall t, enters_slot (log_store inst t) u -> enters_slot t u) as H3.
  { intros t. unfold log_store. by repeat case_match; intros []. }
  auto.
Qed.
Lemma exec_inst_fuel step inst s :
  exec_inst IS_LITTLE_ENDIAN step inst s = Stop OutOfFuel ->
  has_delay_slot inst = true /\ exists u, enters_slot s u /\ step u = Stop OutOfFuel.
Proof.
  unfold exec_inst. cbv zeta. do 2 (destruct (_ && _); [done|]). intros E.
  destruct (dispatch_recurses IS_LITTLE_ENDIAN step inst
    (s |> set_icnt (u64 (icnt s + 1)) |> break_link inst |> log_store inst)) as [Hf|[Hd Hs]].
  - by destruct Hf.
  - split; [done|]. destruct (Hs E) as (u & Hu & Es). exists u. split; [by eapply enters_slot_gates|done].
Qed.
Lemma out_of_fuel_nested k s : execMips k s = Stop OutOfFuel -> nested k s.
Proof.
  unfold execMips. revert s; induction k as [|k IH]; intros s; [done|]. cbn [execMips_fuel]. rewrite body_fetch.
  destruct (fetch s) as [[[inst|] t]|w] eqn:Hf; cbn [mbind result_bind].
  - intros (Hd & u & Hu & Eu)%exec_inst_fuel. cbn [nested]. exists inst, t, u. auto.
  - done.
  - intros [= ->]. by destruct (fetch_finite s).
Qed.
Lemma nested_dec_1 s : (forall inst t, fetch s = Ok (Some inst, t) -> has_delay_slot inst = false) -> ~ nested 1 s.
Proof. intros Hn (inst & t & u & Hf & Hd & _). specialize (Hn inst t Hf). congruence. Qed.
End termination.

(** C17. The recursion through delay slots terminates.  Unless [k] control transfers are nested, each
    in the delay slot of the one before, [k] levels of recursion are enough: the
    call returns (a state, or a host stop other than the model's fuel), and
    every larger bound gives the same result.  In particular one level is enough
    for an instruction that is no control transfer, two for one whose delay
    slot holds none. *)
Theorem delay_slot_recursion_terminates `{Config, HostFP} (k : nat) (s : state) (Hn : ~ nested k s) :
  execMips k s <> Stop OutOfFuel /\ forall j, execMips (k + j) s = execMips k s.
Proof.
  assert (execMips k s <> Stop OutOfFuel) as Hk by (intros E; by apply Hn, out_of_fuel_nested).
  split; [done|]. intros j. by apply fuel_stable.
Qed.
Lemma delay_slot_recursion_terminates_witness :
  let s := set_pc (sext32 0x80001000) boot_state in
  @execMips r4400_config indefinite_host 1 s <> Stop OutOfFuel /\
  forall j, @execMips r4400_config indefinite_host (1 + j) s = @execMips r4400_config indefinite_host 1 s.
Proof.
  apply (@delay_slot_recursion_terminates r4400_config indefinite_host).
  apply nested_dec_1. intros inst t Hf. vm_compute in Hf. by injection Hf as <- <-.
Defined.

(** ** What a control transfer does around its delay slot *)
(** The control transfers: the twenty branches and the four jumps. *)
Inductive transfer := T_branch (bt : branch_type) | T_jr | T_jalr | T_j | T_jal.
Definition transfer_of (inst : Z) : option transfer :=
  match inst >> 26 with
  | 0 => match inst .& 63 with 8 => Some T_jr | 9 => Some T_jalr | _ => None end
  | 1 => match f_rt inst with
         | 0 => Some (T_branch bltz) | 1 => Some (T_branch bgez) | 2 => Some (T_branch bltzl) | 3 => Some (T_branch bgezl)
         | 16 => Some (T_branch bltzal) | 17 => Some (T_branch bgezal)
         | 18 => Some (T_branch bltzall) | 19 => Some (T_branch bgezall) | _ => None
         end
  | 2 => Some T_j | 3 => Some T_jal
  | 4 => Some (T_branch beq) | 5 => Some (T_branch bne) | 6 => Some (T_branch blez) | 7 => Some (T_branch bgtz)
  | 0x14 => Some (T_branch beql) | 0x15 => Some (T_branch bnel) | 0x16 => Some (T_branch blezl) | 0x17 => Some (T_branch bgtzl)
  | 0x11 => if f_fmt inst =? 8 then
              Some (T_branch (match (inst >> 16) .& 3 with 0 => bc1f | 1 => bc1t | 2 => bc1fl | _ => bc1tl end))
            else None
  | _ => None
  end.
(** A likely branch that is not taken skips its slot. *)
Definition skips (tr : transfer) (inst : Z) (s : state) : bool :=
  match tr with T_branch bt => isLikely bt && negb (takeBranch bt inst s) | _ => false end.
(** What the transfer has done when it calls for its slot, and what it does with it. *)
Definition before_slot (tr : transfer) (inst : Z) (s : state) : state :=
  match tr with
  | T_branch bt =>
      let u := s |> histo (branch_insn bt) |> add_pc 4 in
      if isLikely bt && saveReturn bt then set_gpr_at 31 (s64 (s64 (pc s + 4) + 4)) u else u
  | T_jr => add_pc 4 s
  | T_jalr => add_pc 4 (if f_rd inst =/? 0 then set_gpr_at (f_rd inst) (s64 (pc s + 8)) s else s)
  | T_j => s |> add_pc 4 |> histo mipsInsn.J
  | T_jal => s |> set_gpr_at 31 (s64 (pc s + 8)) |> add_pc 4 |> histo mipsInsn.JAL
  end.
Definition after_slot (tr : transfer) (inst : Z) (s : state) (ds_faulted : bool) (u : state) : state :=
  match tr with
  | T_branch bt =>
      let npc := s64 (pc s + 4) in
      let u := if negb (isLikely bt) && saveReturn bt then set_gpr_at 31 (s64 (npc + 4)) u else u in
      if takeBranch bt inst s && negb ds_faulted then set_pc (s64 (branch_imm inst + npc)) u else u
  | T_jr => histo mipsInsn.JR (if negb ds_faulted then set_pc (r_rs inst s) u else u)
  | T_jalr => histo mipsInsn.JALR (if negb ds_faulted then set_pc (r_rs inst s) u else u)
  | T_j | T_jal =>
      if negb ds_faulted then set_pc (((inst .& ((1 << 26) - 1)) << 2) .| (s64 (pc s + 4) .& .~ ((1 << 28) - 1))) u else u
  end.
(** The state the slot runs from: the fetched instruction counted, its effect on the
    link and the store log, the transfer's own part. *)
Definition slot_state `{Config} (tr : transfer) (inst : Z) (t : state) : state :=
  set_in_delay_slot true
    (before_slot tr inst (t |> set_icnt (u64 (icnt t + 1)) |> break_link inst |> log_store inst)).

Section transfers.
Context `{Config, HostFP}.
Implicit Types (s t u r : state) (inst : Z) (tr : transfer).
Lemma branch_transfer step bt inst s : skips (T_branch bt) inst s = false ->
  branch step bt inst s = let! (f, u) := run_delay_slot step (before_slot (T_branch bt) inst s) in Ok (after_slot (T_branch bt) inst s f u).
Proof.
  unfold skips, before_slot, after_slot. cbv delta [branch]; cbv beta zeta. destruct (isLikely bt); cbn [negb andb].
  - intros ->%negb_false_iff. reflexivity.
  - reflexivity.
Qed.
Lemma jump_to_transfer step a s (k : state -> state) :
  (let! u := jump_to step a s in Ok (k u)) = let! (f, u) := run_delay_slot step s in Ok (k (if negb f then set_pc a u else u)).
Proof. unfold jump_to. by destruct (run_delay_slot step s) as [[f u]|]. Qed.
(** Every control transfer runs its slot between the two. *)
Lemma dispatch_transfer EL step tr inst s : transfer_of inst = Some tr -> skips tr inst s = false ->
  dispatch EL step inst s = let! (f, u) := run_delay_slot step (before_slot tr inst s) in Ok (after_slot tr inst s f u).
Proof.
  intros Htr Hsk. unfold transfer_of in Htr.
  assert (forall bt, tr = T_branch bt -> branch step bt inst s =
    let! (f, u) := run_delay_slot step (before_slot tr inst s) in Ok (after_slot tr inst s f u)) as Hb.
  { intros bt ->. by apply branch_transfer. }
  assert (forall i, inst >> 26 = i -> i = 2 \/ i = 3 -> exec_jtype step inst s =
    let! (f, u) := run_delay_slot step (before_slot tr inst s) in Ok (after_slot tr inst s f u)) as Hj.
  { intros i E Hi. rewrite E in Htr. destruct Hi as [-> | ->]; injection Htr as <-; unfold exec_jtype, jump_to; rewrite E; reflexivity. }
  destruct (inst >> 26) as [|p|p] eqn:E; [|do 5 (try destruct p as [p|p|])|]; try done; unfold dispatch; rewrite E;
    cbn -[exec_jtype run_delay_slot branch before_slot after_slot]; try (eapply Hj; [reflexivity|lia]).
  all: try (unfold exec_itype; rewrite E; apply Hb; congruence).
  - unfold exec_rtype. destruct (inst .& 63) as [|p|p]; try done. do 4 (try destruct p as [p|p|]; try done); injection Htr as <-;
      unfold _jr, _jalr; apply jump_to_transfer.
  - unfold execCoproc1. destruct (f_fmt inst =? 8); [|done]. injection Htr as <-. unfold exec_bc1. case_match; try (by apply Hb).
    repeat (case_match; try (by apply Hb)).
  - unfold exec_itype. rewrite E. unfold _bgez_bltz. destruct (f_rt inst) as [|p|p]; [apply Hb; congruence| |done].
    do 5 (try destruct p as [p|p|]); try done; apply Hb; congruence.
Qed.
End transfers.

(** A delay slot that completes. *)
Section slots.
Implicit Types (s u r : state) (inst : Z) (step : state -> result state).
(** The delay slot completes: no exception is taken. *)
Definition slot_completes step s : Prop :=
  forall u0, enters_slot s u0 -> exists u, step u0 = Ok u /\ sr_bit u SR_EXL = sr_bit u0 SR_EXL.
Lemma enters_sr s u n : enters_slot s u -> sr_bit u n = sr_bit s n.
Proof. intros [_ _ _ E _ _]. unfold sr_bit. by rewrite E. Qed.
Lemma branch_pc x : u64 (s64 (x + 4) - 4) = u64 x.
Proof.
  unfold wrapu. rewrite <- Zminus_mod_idemp_l. rewrite wraps_mod by done. rewrite Zminus_mod_idemp_l. f_equal. lia.
Qed.
Lemma run_completes step s s1 (k : bool -> state -> state) :
  slot_completes step s -> enters_slot s (set_in_delay_slot true s1) ->
  exists u, (let! (f, u) := run_delay_slot step s1 in Ok (k f u)) = Ok (k false u).
Proof.
  intros Hr He. destruct (Hr _ He) as (u & Hs & Hen). unfold run_delay_slot. rewrite Hs. cbn [mbind result_bind].
  exists (set_in_delay_slot (in_delay_slot s1) u).
  replace (negb _ && _) with false; [done|]. symmetry.
  change (sr_bit (set_in_delay_slot (in_delay_slot s1) u) SR_EXL) with (sr_bit u SR_EXL). rewrite Hen.
  change (sr_bit (set_in_delay_slot true s1) SR_EXL) with (sr_bit s1 SR_EXL). by destruct (sr_bit s1 SR_EXL).
Qed.
End slots.

Section faults.
Context `{Config, HostFP}.
Implicit Types (s t u r : state) (inst : Z) (tr : transfer).
(** The transfers are exactly the instructions with a delay slot. *)
Lemma transfer_has_slot inst : has_delay_slot inst = match transfer_of inst with Some _ => true | None => false end.
Proof.
  unfold has_delay_slot, is_branch, is_branch_likely, is_j, is_jal, is_jr, is_jalr, is_regimm_link, is_bc1, transfer_of.
  fold (f_rt inst). destruct (inst >> 26) as [|p|p]; [|do 5 (try destruct p as [p|p|])|]; try reflexivity; cbn.
  - destruct (inst .& 63) as [|p|p]; [reflexivity| |reflexivity]. do 4 (try destruct p as [p|p|]); reflexivity.
  - by destruct (f_fmt inst =? 8).
  - destruct (f_rt inst) as [|p|p]; [reflexivity| |reflexivity]. do 5 (try destruct p as [p|p|]); reflexivity.
Qed.
Lemma va_translate_unfaulted s va op : tlb_fault (va_translate s va op).2 = false ->
  exists c v, (va_translate s va op).2 = set_g_utlb c (set_g_iss_last_ld_va v s).
Proof.
  unfold va_translate, cam_translate. cbv zeta. set (s1 := if is_load op then _ else s).
  assert (exists v, s1 = set_g_iss_last_ld_va v s) as [v ->].
  { unfold s1. destruct (is_load op); [by eexists|]. by exists (g_iss_last_ld_va s). }
  repeat case_match; cbn [snd]; intros Hf; try (by exists (g_utlb s), v).
  all: try (by eexists (wr _ _ _), v).
  all: unfold raise_tlb in Hf; discriminate Hf.
Qed.
(** A fetch that succeeds leaves what the instruction sees but register 0. *)
Lemma fetch_frame s inst t : fetch s = Ok (Some inst, t) ->
  pc t = pc s /\ cpr0 t = cpr0 s /\ mem t = mem s /\ in_delay_slot t = in_delay_slot s.
Proof.
  unfold fetch. cbv zeta. set (s1 := set_tlb_fault false _). pose proof (va_translate_unfaulted s1 (pc s1) op_fetch) as Hv.
  destruct (va_translate s1 (pc s1) op_fetch) as [ipa s2]. cbn [snd] in Hv. destruct (tlb_fault s2); [done|].
  intros E. bind_inv E w Ew. injection E as _ <-. destruct Hv as (c & v & ->); [done|]. done.
Qed.
Lemma slot_state_enters tr inst t : enters_slot t (slot_state tr inst t).
Proof.
  apply (enters_slot_gates inst). set (t1 := log_store inst _). unfold slot_state. fold t1. clearbody t1.
  destruct tr as [bt| | | |]; unfold before_slot; try done; case_match; done.
Qed.
(** After a slot that faulted the transfer writes at most its link register. *)
Lemma after_faulted tr inst s u : let r := after_slot tr inst s true u in
  pc r = pc u /\ cpr0 r = cpr0 u /\ cpr0_64 r = cpr0_64 u /\ mem r = mem u /\ in_delay_slot r = in_delay_slot u.
Proof. destruct tr as [bt| | | |]; unfold after_slot; try done. cbv zeta. cbn [negb]. rewrite andb_false_r. by case_match. Qed.
Lemma transfer_not_gated tr inst : transfer_of inst = Some tr -> is_64b_gated inst = false.
Proof.
  unfold transfer_of, is_64b_gated. change 0x3f with 63. destruct (inst >> 26) as [|p|p]; [|do 5 (try destruct p as [p|p|])|]; try done; cbn.
  destruct (inst .& 63) as [|p|p]; try done. do 4 (try destruct p as [p|p|]; try done).
Qed.
(** One call of [execMips] on a control transfer. *)
Lemma execMips_transfer fuel s tr inst t : fetch s = Ok (Some inst, t) -> transfer_of inst = Some tr ->
  (is_cp1_gated (inst >> 26) = true -> sr_bit t SR_CU1 = true) ->
  let t1 := t |> set_icnt (u64 (icnt t + 1)) |> break_link inst |> log_store inst in
  skips tr inst t1 = false ->
  execMips (S fuel) s = let! (f, u) := run_delay_slot (execMips fuel) (before_slot tr inst t1) in Ok (after_slot tr inst t1 f u).
Proof.
  intros Hf Htr Hcu t1 Hsk. unfold execMips. cbn [execMips_fuel]. rewrite body_fetch, Hf. cbn [mbind result_bind]. unfold exec_inst.
  rewrite (transfer_not_gated _ _ Htr). cbn [andb]. cbv zeta.
  change (sr_bit (set_icnt (u64 (icnt t + 1)) t) SR_CU1) with (sr_bit t SR_CU1).
  replace (is_cp1_gated (inst >> 26) && negb (sr_bit t SR_CU1)) with false.
  - by apply dispatch_transfer.
  - destruct (is_cp1_gated _); [|done]. by rewrite Hcu.
Qed.
Lemma gates_frame inst t : let t1 := t |> set_icnt (u64 (icnt t + 1)) |> break_link inst |> log_store inst in
  cpr0 t1 = cpr0 t /\ in_delay_slot t1 = in_delay_slot t /\ gpr t1 = gpr t /\ fcr1 t1 = fcr1 t.
Proof.
  cbv zeta. set (t0 := set_icnt _ t). assert (forall u, cpr0 (log_store inst u) = cpr0 u /\ in_delay_slot (log_store inst u) = in_delay_slot u /\
    gpr (log_store inst u) = gpr u /\ fcr1 (log_store inst u) = fcr1 u) as Hl by (intros; unfold log_store; by repeat case_match).
  assert (forall u, cpr0 (break_link inst u) = cpr0 u /\ in_delay_slot (break_link inst u) = in_delay_slot u /\
    gpr (break_link inst u) = gpr u /\ fcr1 (break_link inst u) = fcr1 u) as Hb by (intros; unfold break_link; by repeat case_match).
  destruct (Hl (break_link inst t0)) as (-> & -> & -> & ->). destruct (Hb t0) as (-> & -> & -> & ->). done.
Qed.
Lemma skips_gates tr inst t : skips tr inst (t |> set_icnt (u64 (icnt t + 1)) |> break_link inst |> log_store inst) = skips tr inst t.
Proof.
  destruct (gates_frame inst t) as (_ & _ & Hg & Hc). set (t1 := log_store inst _) in *. clearbody t1.
  destruct tr as [bt| | | |]; try done. unfold skips, takeBranch, r_rs, r_rt, getConditionCode. by rewrite Hg, Hc.
Qed.
Lemma branch_pc' x : u32 (s64 (x + 4) - 4) = u32 x.
Proof.
  unfold wrapu. rewrite <- Zminus_mod_idemp_l. change (s64 (x + 4) mod 2 ^ 32) with (u32 (s64 (x + 4))). rewrite wrapu_narrow_s by done.
  unfold wrapu. rewrite Zminus_mod_idemp_l. f_equal. lia.
Qed.
End faults.

(** C16. An exception in a delay slot restarts the branch.  Let [execMips] fetch a control
    transfer (any of the twenty branches, J, JAL, JR, JALR; not a likely branch that
    skips its slot) with EXL clear, coprocessor 1 usable for a branch on its condition,
    and let the recursive call on the slot end in an exception.  Then the call as a
    whole returns at the exception vector, not at the target of the transfer, with the
    slot's ExcCode, EPC the address of the transfer itself, BD and EXL set, and memory
    unchanged; and an ERET executed there resumes at the transfer. *)
Theorem delay_slot_exception `{Config, HostFP} (fuel : nat) (inst vec code : Z) (tr : transfer) (s t u : state)
    (Hexl : sr_bit s SR_EXL = false) (Hfetch : fetch s = Ok (Some inst, t)) (Htr : transfer_of inst = Some tr)
    (Hsk : skips tr inst t = false) (Hcu1 : is_cp1_gated (inst >> 26) = true -> sr_bit s SR_CU1 = true)
    (Hslot : execMips fuel (slot_state tr inst t) = Ok u)
    (Hexc : entered vec code (set_gpr_at 0 0 (slot_state tr inst t)) u) :
  exists r, execMips (S fuel) s = Ok r /\ pc r = vec /\ Cause_ExcCode r = code /\
    (cpr0_64 r).[CPR0_EPC] = u64 (pc s) /\ (cpr0 r).[CPR0_EPC] = u32 (pc s) /\ Cause_BD r = true /\
    sr_bit r SR_EXL = true /\ mem r = mem s /\ in_delay_slot r = in_delay_slot s /\
    exists r', execCoproc0 ERET_INST r = Ok r' /\ pc r' = s64 (pc s).
Proof.
  destruct (fetch_frame s inst t Hfetch) as (Fpc & Fc & Fm & Fd). destruct (slot_state_enters tr inst t) as [Epc Em _ Ec _ Es].
  assert (forall n, sr_bit t n = sr_bit s n) as Fsr by (intros n; unfold sr_bit; by rewrite Fc).
  assert (sr_bit (slot_state tr inst t) SR_EXL = false) as Hx by (unfold sr_bit in *; by rewrite Ec, Fc).
  rewrite (execMips_transfer fuel s tr inst t Hfetch Htr) by (rewrite ?Fsr; done || by rewrite skips_gates).
  set (t1 := log_store inst _). unfold run_delay_slot.
  change (set_in_delay_slot true (before_slot tr inst t1)) with (slot_state tr inst t). rewrite Hslot. cbn [mbind result_bind].
  change (sr_bit (before_slot tr inst t1) SR_EXL) with (sr_bit (slot_state tr inst t) SR_EXL). rewrite Hx.
  set (saved := in_delay_slot (before_slot tr inst t1)).
  change (sr_bit (set_in_delay_slot saved u) SR_EXL) with (sr_bit u SR_EXL). rewrite (ent_exl _ _ _ _ Hexc). cbn [negb andb].
  assert (saved = in_delay_slot s) as Hsaved.
  { destruct (gates_frame inst t) as (_ & G & _). rewrite <- Fd, <- G. unfold saved. fold t1. clearbody t1.
    destruct tr as [bt| | | |]; unfold before_slot; try done; by case_match. }
  clearbody saved. subst saved. eexists. split; [reflexivity|]. set (u' := set_in_delay_slot _ u).
  destruct (after_faulted tr inst t1 u') as (Rpc & Rc & Rc64 & Rm & Rd). set (r := after_slot _ _ _ _ _) in *.
  destruct (ent_epc _ _ _ _ Hexc Hx) as (E64 & E32 & Ebd).
  change (in_delay_slot (set_gpr_at 0 0 (slot_state tr inst t))) with true in E64, E32, Ebd. cbv iota in E64, E32.
  change (pc (set_gpr_at 0 0 (slot_state tr inst t))) with (pc (slot_state tr inst t)) in E64, E32.
  rewrite Epc, Fpc in E64, E32. rewrite branch_pc in E64. rewrite branch_pc' in E32.
  assert ((cpr0_64 r).[CPR0_EPC] = u64 (pc s)) as R64 by (by rewrite Rc64).
  assert (forall n, sr_bit r n = sr_bit u n) as Rsr by (intros n; unfold sr_bit; by rewrite Rc).
  destruct (eret_exl r) as (r' & Hr' & Hpc' & _); [rewrite Rsr; exact (ent_erl _ _ _ _ Hexc)|].
  split_and!; [rewrite Rpc; exact (ent_pc _ _ _ _ Hexc)| |done|by rewrite Rc| |rewrite Rsr; exact (ent_exl _ _ _ _ Hexc)| |exact Rd|].
  - unfold Cause_ExcCode. rewrite Rc. exact (ent_code _ _ _ _ Hexc).
  - unfold Cause_BD. rewrite Rc. exact Ebd.
  - rewrite Rm, <- Fm, <- Em. exact (ent_mem _ _ _ _ Hexc).
  - exists r'. split; [done|]. by rewrite Hpc', R64, eret_epc.
Qed.
(** BEQ $0,$0 at 0xbfc00000 with TEQ $0,$0 in its slot. *)
Definition trapping_slot : state :=
  set_pc (sext32 0xbfc00000) (initState (H:=r4400_config)
    (state_init (mk_sparse_mem (store_bytes ∅ 0x1fc00000 [0x10; 0; 0; 5; 0; 0; 0; 0x34]) false) false)).
Definition trapping_fetched : state := set_tlb_fault false (set_gpr_at 0 0 trapping_slot).
Lemma entered_counted vec code s t n b : entered vec code (set_icnt n (set_tlb_fault b s)) t -> entered vec code s t.
Proof. by intros []. Qed.
Lemma delay_slot_exception_witness :
  exists r, @execMips r4400_config indefinite_host 2 trapping_slot = Ok r /\ pc r = general_vector trapping_slot /\
    Cause_ExcCode r = 13 /\ (cpr0_64 r).[CPR0_EPC] = u64 (pc trapping_slot) /\ Cause_BD r = true.
Proof.
  set (st := @slot_state r4400_config (T_branch beq) 0x10000005 trapping_fetched).
  destruct (@delay_slot_exception r4400_config indefinite_host 1 0x10000005 (general_vector trapping_slot) 13 (T_branch beq)
    trapping_slot trapping_fetched (raise_trap (set_icnt 2 (set_tlb_fault false (set_gpr_at 0 0 st)))))
    as (r & Hr & Hpc & Hc & He & _ & Hb & _).
  1-6: vm_compute; (reflexivity || (intros E; discriminate E)).
  { refine (entered_counted _ _ _ _ 2 false (entered_general 13 (set_icnt 2 (set_tlb_fault false (set_gpr_at 0 0 st))) _)).
    vm_compute. split; [intros E; discriminate E|reflexivity]. }
  exists r. split; [exact Hr|]. split; [exact Hpc|]. split; [exact Hc|]. split; [exact He|exact Hb].
Defined.

(** ** Targets *)
Section targets.
Implicit Types (s : state) (inst pc : Z).
Lemma branch_target_u32 inst p : u32 (s64 (branch_imm inst + s64 (p + 4))) = get_branch_target (u32 p) inst.
Proof.
  unfold get_branch_target, branch_imm, f_simm. change ((1 << 16) - 1) with 0xffff.
  rewrite wrapu_narrow_s by done. set (i := s32 _). clearbody i.
  rewrite Z.add_comm, <- (wrapu_add_l 32 (s64 (p + 4)) i), wrapu_narrow_s, wrapu_add_l by done.
  rewrite <- (Z.add_assoc (u32 p)), wrapu_add_l by done. f_equal. lia.
Qed.
Lemma u32_lor x y : u32 (x .| y) = u32 x .| u32 y.
Proof.
  apply Z.bits_inj'. intros i Hi. rewrite Z.lor_spec, !testbit_wrapu, Z.lor_spec by done. by destruct (i <? 32).
Qed.
Lemma u32_land x y : u32 (x .& y) = u32 x .& u32 y.
Proof.
  apply Z.bits_inj'. intros i Hi. rewrite Z.land_spec, !testbit_wrapu, Z.land_spec by done. by destruct (i <? 32).
Qed.
Lemma jump_target_u32 inst p :
  u32 (((inst .& ((1 << 26) - 1)) << 2) .| (s64 (p + 4) .& .~ ((1 << 28) - 1))) =
  (u32 (u32 p + 4) .& u32 (.~ ((1 << 28) - 1))) .| ((inst .& ((1 << 26) - 1)) << 2).
Proof.
  rewrite u32_lor, u32_land, wrapu_narrow_s, wrapu_add_l by done. rewrite Z.lor_comm. f_equal.
  apply wrapu_id. apply (in_u_shl 32 26); try done. by apply in_u_land_r.
Qed.
End targets.

(** Branch and jump targets.  When the delay slot completes without an exception, a taken
    branch ends at the address [get_branch_target] computes, J and JAL at
    [get_jump_target], JR and JALR at the value their register had before the
    slot; a likely branch that is not taken skips its slot, whatever it holds. *)
Theorem transfer_targets (step : state -> result state) (inst : Z) (s : state) (Hslot : slot_completes step s) :
  (forall bt, takeBranch bt inst s = true ->
     exists r, branch step bt inst s = Ok r /\ u32 (pc r) = get_branch_target (u32 (pc s)) inst) /\
  (forall bt, isLikely bt = true -> takeBranch bt inst s = false -> forall step',
     exists r, branch step' bt inst s = Ok r /\ pc r = s64 (s64 (pc s + 4) + 4) /\ mem r = mem s) /\
  (is_j inst || is_jal inst = true ->
     exists r, exec_jtype step inst s = Ok r /\ get_jump_target (u32 (pc s)) inst = Ok (u32 (pc r))) /\
  (exists r, _jr step inst s = Ok r /\ pc r = (gpr s).[f_rs inst]) /\
  (exists r, _jalr step inst s = Ok r /\ pc r = (gpr s).[f_rs inst]).
Proof.
  assert (forall s1 a, enters_slot s (set_in_delay_slot true s1) ->
    exists u, jump_to step a s1 = Ok (set_pc a u)) as Hj.
  { intros s1 a He. by destruct (run_completes step s s1 (fun f u => if negb f then set_pc a u else u)) as (u & Hu); [..|exists u]. }
  split_and!.
  - intros bt Ht. cbv delta [branch]; cbv beta zeta. rewrite Ht. destruct (isLikely bt).
    + match goal with |- context [run_delay_slot step ?s1 ≫= _] =>
        destruct (run_completes step s s1 (fun f u => if negb f then set_pc (s64 (branch_imm inst + s64 (pc s + 4))) u else u)) as (u & Hu) end;
        [done|by destruct (saveReturn bt)|]. eexists; split; [exact Hu|]. apply branch_target_u32.
    + match goal with |- context [run_delay_slot step ?s1 ≫= _] =>
        destruct (run_completes step s s1 (fun f u => if true && negb f
          then set_pc (s64 (branch_imm inst + s64 (pc s + 4))) (if saveReturn bt then set_gpr_at 31 (s64 (s64 (pc s + 4) + 4)) u else u)
          else if saveReturn bt then set_gpr_at 31 (s64 (s64 (pc s + 4) + 4)) u else u)) as (u & Hu) end; [done|done|].
      eexists; split; [exact Hu|]. apply branch_target_u32.
  - intros bt Hl Ht step'. cbv delta [branch]; cbv beta zeta. rewrite Hl, Ht. eexists; split; [reflexivity|].
    by destruct (saveReturn bt).
  - intros Hjj. unfold exec_jtype, get_jump_target. cbv zeta. rewrite orb_comm, Hjj.
    match goal with |- context [jump_to step ?a ?s1] => destruct (Hj s1 a) as (u & ->) end; [by destruct (_ =? 2)|].
    eexists; split; [reflexivity|]. rewrite <- jump_target_u32. by destruct (_ =? 2).
  - unfold _jr. destruct (Hj (add_pc 4 s) (r_rs inst s)) as (u & ->); [done|]. cbn. eexists; by split.
  - unfold _jalr. cbv zeta. match goal with |- context [jump_to step ?a ?s1] => destruct (Hj s1 a) as (u & ->) end;
      [by destruct (negb _)|]. cbn. eexists; by split.
Qed.
Lemma transfer_targets_witness :
  let s := set_pc 0x1000 (state_init (mk_sparse_mem ∅ false) false) in
  exists r, branch (fun u => Ok (add_pc 4 u)) beq 0x10000005 s = Ok r /\ u32 (pc r) = 0x1018.
Proof.
  intros s. refine (proj1 (transfer_targets _ 0x10000005 s _) beq eq_refl).
  intros u0 _. by exists (add_pc 4 u0).
Defined.

(** Register zero reads as zero.  Whatever value is left in [gpr[0]], the next [execMips]
    behaves as if it were zero: the run does not depend on it. *)
Theorem register_zero_ignored `{Config, HostFP} (fuel k : nat) (s : state) (v : Z) :
  execMips_n (S fuel) (S k) (set_gpr_at 0 v s) = execMips_n (S fuel) (S k) s.
Proof.
  assert (execMips (S fuel) (set_gpr_at 0 v s) = execMips (S fuel) s) as E.
  { unfold execMips. cbn [execMips_fuel]. unfold execMips_body.
    replace (set_gpr_at 0 0 (set_gpr_at 0 v s)) with (set_gpr_at 0 0 s); [done|].
    unfold set_gpr_at, set_gpr. st_simpl. by rewrite wr_wr_eq. }
  cbn [execMips_n]. by rewrite E.
Qed.
