(* ===== verification/LlSc.v ===== *)
(** Load-linked and store-conditional of [src/interpret.cc] ([execMips], [_sc],
    [_scd]): when the conditional store succeeds, what it writes, and what breaks
    the link. *)
From S2P Require Import Prelude Bits Insns State Mem Wf Exc Tlb LoadStore Alu Fp Fpu Cp0 Branch Exec Arch Utlb NonInterf ExcProps TlbSpec TlbProps LsProps.

(** The outcome of a store-conditional of [n] bytes that translates to [pa]. *)
Definition sc_result (n : nat) (inst pa : Z) (s : state) : state :=
  let ok := sc_ok pa s in
  (if ok then set_mem (be_write n pa (gpr s).[f_rt inst] (mem s)) s else s)
  |> set_ll_link_valid false |> set_gpr_at (f_rt inst) (if ok then 1 else 0) |> add_pc 4.

(** * Theorems *)
Section sc.
Context `{Config}.
Implicit Types (s t : state) (inst pa : Z) (n : nat).
Definition sc_k (inst : Z) (ea : Z) (s : state) : result state :=
  let ok := sc_ok ea s in
  let! s := if ok then put 4 ea (bswap false 4 (u32 (gpr s).[f_rt inst])) s else Ok s in
  Ok (s |> set_ll_link_valid false |> set_gpr_at (f_rt inst) (if ok then 1 else 0)
        |> add_pc 4 |> histo mipsInsn.SC).
Definition scd_k (inst : Z) (ea : Z) (s : state) : result state :=
  if ea .& 7 =/? 0 then Ok (raise_ades s) else
  let ok := sc_ok ea s in
  let! s := if ok then put 8 ea (bswap false 8 (u64 (gpr s).[f_rt inst])) s else Ok s in
  Ok (s |> set_ll_link_valid false |> set_gpr_at (f_rt inst) (if ok then 1 else 0)
        |> add_pc 4 |> histo mipsInsn.SCD).
Lemma R_sc_ok ea s t : R s t -> sc_ok ea t = sc_ok ea s.
Proof. intros HR. by R_open HR. Qed.
Lemma rel_sc_k inst ea s t : R s t -> rel R (sc_k inst ea s) (sc_k inst ea t).
Proof.
  intros HR. unfold sc_k. rewrite (R_sc_ok ea s t HR). apply (rel_bind R).
  - R_open HR. autorewrite with over. destruct (sc_ok ea s); [by apply rel_put, R_over|by apply R_over].
  - intros a b Hab. cbn [rel]. auto 10 with arch.
Qed.
Lemma rel_scd_k inst ea s t : R s t -> rel R (scd_k inst ea s) (scd_k inst ea t).
Proof.
  intros HR. unfold scd_k. rewrite (R_sc_ok ea s t HR). destruct (negb _); [by apply R_raise_ades|]. apply (rel_bind R).
  - R_open HR. autorewrite with over. destruct (sc_ok ea s); [by apply rel_put, R_over|by apply R_over].
  - intros a b Hab. cbn [rel]. auto 10 with arch.
Qed.
Lemma sc_correct inst s pa :
  coherent s -> tlb_fault s = false -> translate s (base_imm inst s) op_store = Phys pa -> pa mod 4 = 0 ->
  exists t, _sc false inst s = Ok t /\ R t (sc_result 4 inst pa s).
Proof.
  intros Hc Hf Htr Hal. apply rel_Ok. eapply rel_trans; [exact (rel_translated_spec _ op_store (sc_k inst) s Hc Hf (rel_sc_k inst))|].
  rewrite Htr. unfold touched, sc_k, sc_result. cbn [is_load]. cbv zeta.
  destruct (sc_ok pa s); [|done]. cbn [bswap]. rewrite (le_split_rev_wrapu 4 (gpr s).[f_rt inst] : byteswap 4 (u32 _) = _).
  rewrite (put_aligned 4); [done|unfold access_size; lia|by eapply translate_range|done].
Qed.
Lemma scd_correct inst s pa :
  coherent s -> tlb_fault s = false -> translate s (base_imm inst s) op_store = Phys pa -> pa mod 8 = 0 ->
  exists t, _scd false inst s = Ok t /\ R t (sc_result 8 inst pa s).
Proof.
  intros Hc Hf Htr Hal. apply rel_Ok. eapply rel_trans; [exact (rel_translated_spec _ op_store (scd_k inst) s Hc Hf (rel_scd_k inst))|].
  rewrite Htr. unfold touched, scd_k, sc_result. cbn [is_load]. cbv zeta.
  change 7 with (2 ^ 3 - 1). rewrite land_mask_mod by done. change (2 ^ 3) with 8. rewrite Hal. cbn [negb Z.eqb].
  destruct (sc_ok pa s); [|done]. cbn [bswap]. rewrite (le_split_rev_wrapu 8 (gpr s).[f_rt inst] : byteswap 8 (u64 _) = _).
  rewrite (put_aligned 8); [done|unfold access_size; lia|by eapply translate_range|done].
Qed.
End sc.

(** LL followed by SC.  When the link probe and the translation agree on an aligned physical
    address, LL loads the sign-extended word and arms the link, and an SC to the same
    address with nothing in between succeeds: it writes its register
    there, big-endian, returns 1 and disarms the link. *)
Theorem ll_sc_succeeds `{Config} (inst inst' pa : Z) (s : state)
    (Hm : mem_ok (mem s)) (Hc : coherent s) (Hf : tlb_fault s = false)
    (Hop : inst >> 26 = 0x30) (Hop' : inst' >> 26 = 0x38)
    (Hrs : f_rs inst' <> f_rt inst) (Hb : base_imm inst' s = base_imm inst s)
    (Hpr : tlb_probe_ro s (base_imm inst s) false = Some pa)
    (Htr : translate s (base_imm inst s) op_store = Phys pa) (Hal : pa mod 4 = 0) :
  exists t r, exec_ll false inst s = Ok t /\ exec_sc false inst' t = Ok r /\
    gpr t = wr (f_rt inst) (s32 (be_read 4 pa (mem s))) (gpr s) /\
    gpr r = wr (f_rt inst') 1 (gpr t) /\
    mem r = be_write 4 pa (gpr t).[f_rt inst'] (mem s) /\ ll_link_valid r = false.
Proof.
  unfold exec_ll, exec_sc, probe_or_va2pa. rewrite Hpr, Hop, Hop'. cbn [Z.eqb Pos.eqb]. cbv zeta.
  set (l := s |> set_ll_link_valid true |> set_ll_link_addr (cache_line pa)).
  assert (access_size 4) as Hn by (unfold access_size; lia).
  destruct (proj1 (rel_Ok _ _) (load_correct 4 s32 mipsInsn.LW inst l Hn Hm Hc Hf)) as (t & Ht & (Hct & _ & Ha)).
  assert (translate l (base_imm inst l) op_load = Phys pa) as Htl by (by apply translate_store_load).
  unfold load_result, access in Ha. rewrite Htl in Ha. change (Z.of_nat 4) with 4 in Ha. rewrite Hal in Ha. cbn [Z.eqb] in Ha.
  set (x := add_pc 4 _) in Ha.
  assert (Hx : forall A (f : state -> A), (forall s, f (arch s) = f s) -> f t = f x).
  { intros A f Hw. rewrite <- (Hw t), <- (Hw x). by rewrite Ha. }
  assert (gpr t = wr (f_rt inst) (s32 (be_read 4 pa (mem s))) (gpr s)) as Eg by (by apply (Hx _ gpr)).
  assert (translate t (base_imm inst' t) op_store = Phys pa) as Htr'.
  { rewrite <- Htr. unfold base_imm. rewrite Eg, rd_wr_ne by done. fold (base_imm inst' s). rewrite Hb.
    apply translate_ext; [by apply (Hx _ tlb)|by apply (Hx _ asid_of)|by apply (Hx _ is_64b_addr_mode)]. }
  assert (sc_ok pa t = true) as Hok.
  { transitivity (sc_ok pa x); [by apply (Hx _ (sc_ok pa))|]. unfold sc_ok, x. cbn. by rewrite Z.eqb_refl. }
  destruct (sc_correct inst' t pa Hct (eq_trans (Hx _ tlb_fault (fun _ => eq_refl)) Hf) Htr' Hal) as (r & Hr & (_ & _ & Har)).
  unfold sc_result in Har. cbv zeta in Har. rewrite Hok in Har.
  exists t, r. split_and!; [exact Ht|exact Hr|exact Eg|exact (f_equal gpr Har)| |exact (f_equal ll_link_valid Har)].
  transitivity (be_write 4 pa (gpr t).[f_rt inst'] (mem t)); [exact (f_equal mem Har)|].
  by rewrite (Hx _ mem (fun _ => eq_refl) : mem t = mem s).
Qed.
Lemma ll_sc_succeeds_witness :
  let s := set_gpr_at 4 0x80001000 (state_init (mk_sparse_mem ∅ false) false) in
  exists t r, @exec_ll r4400_config false 0xc0820000 s = Ok t /\ @exec_sc r4400_config false 0xe0830000 t = Ok r /\
    gpr t = wr 2 (s32 (be_read 4 0x1000 (mem s))) (gpr s) /\ gpr r = wr 3 1 (gpr t) /\
    mem r = be_write 4 0x1000 (gpr t).[3] (mem s) /\ ll_link_valid r = false.
Proof.
  intros s. apply (@ll_sc_succeeds r4400_config 0xc0820000 0xe0830000 0x1000 s); try reflexivity; try done;
    [apply map_Forall_empty|apply coh_empty].
Defined.

(** ** The probe of the link and the translation of the store *)
(** An address on which the read-only probe and the store's translation agree: the
    addressing mode leaves it alone, and it is in an unmapped window, or it and every
    page of the TLB are sign-extended 32-bit addresses, or it is a 64-bit address and
    the pages carry the same bits above the implemented ones. *)
Definition narrow (x : Z) : Prop := u64 (s32 x) = x.
Definition same_view `{Config} (s : state) (va : Z) : Prop :=
  let x := u64 va in
  mode_va s va = x /\
  (unmapped_pa x <> None \/
   (narrow x /\ forall i, 0 <= i < NUM_TLB_ENTRIES -> narrow (entry_hi (tlb s).[i])) \/
   (compat32 (u32 (x >> 32)) = false /\
    forall i b, 0 <= i < NUM_TLB_ENTRIES -> SEGBITS <= b < 62 -> Z.testbit (entry_hi (tlb s).[i]) b = Z.testbit x b)).
Lemma land_same_bits x y m : x .& m = y .& m <-> forall i, 0 <= i -> Z.testbit m i = true -> Z.testbit x i = Z.testbit y i.
Proof.
  split.
  - intros E i Hi Hm. apply (f_equal (fun z => Z.testbit z i)) in E. by rewrite !Z.land_spec, Hm, !andb_true_r in E.
  - intros He. apply Z.bits_inj'. intros i Hi. rewrite !Z.land_spec. destruct (Z.testbit m i) eqn:Hm; [by rewrite He|by rewrite !andb_false_r].
Qed.
Lemma land_above x y : 0 <= x -> 0 <= y -> (x >> 62) .& 3 = (y >> 62) .& 3 <->
  Z.testbit x 62 = Z.testbit y 62 /\ Z.testbit x 63 = Z.testbit y 63.
Proof.
  intros _ _. rewrite land_same_bits. split.
  - intros He. split; [specialize (He 0)|specialize (He 1)]; rewrite !Z.shiftr_spec in He by done; by apply He.
  - intros [H62 H63] i Hi Hm. change 3 with (Z.ones 2) in Hm. rewrite Z.testbit_ones_nonneg in Hm by done.
    assert (i = 0 \/ i = 1) as [-> | ->] by lia; by rewrite !Z.shiftr_spec.
Qed.
Section probe.
Context `{Config}.
Implicit Types (s : state) (va x asid : Z) (e : tlb_entry_t).
Lemma segbits : 32 < SEGBITS <= 44.
Proof. unfold SEGBITS. destruct ENABLE_R10000; lia. Qed.
Lemma pair_mask_bit e i : 0 <= i -> Z.testbit (pair_mask e) i = (i <? 13) || (Z.testbit (page_mask e) i && (13 <=? i) && (i <? 25)).
Proof.
  intros Hi. unfold pair_mask, pm_of. change 0x1ffe000 with (Z.ones 12 << 13). change 0x1fff with (Z.ones 13).
  rewrite Z.lor_spec, Z.land_spec, Z.shiftl_spec, (Z.testbit_ones_nonneg 13 i) by done. rewrite orb_comm. f_equal.
  rewrite <- andb_assoc. f_equal. destruct (Z.leb_spec 13 i); cbn [andb].
  - rewrite Z.testbit_ones_nonneg by lia. destruct (Z.ltb_spec (i - 13) 12), (Z.ltb_spec i 25); try done; lia.
  - by rewrite Z.testbit_neg_r by lia.
Qed.
Lemma pair_mask_high e i : 25 <= i -> Z.testbit (pair_mask e) i = false.
Proof. intros Hi. rewrite pair_mask_bit by lia. rewrite (proj2 (Z.ltb_ge i 25)), andb_false_r by lia. by rewrite (proj2 (Z.ltb_ge i 13)) by lia. Qed.
Lemma cam_mask_bit e i : 0 <= i -> Z.testbit (u64 (.~ pair_mask e) .& (VPN2_MASK << 13)) i =
  negb (Z.testbit (pair_mask e) i) && (13 <=? i) && (i <? SEGBITS).
Proof.
  intros Hi. pose proof segbits. unfold VPN2_MASK. assert ((1 << (SEGBITS - 13)) - 1 = Z.ones (SEGBITS - 13)) as ->.
  { rewrite Z.shiftl_1_l, Z.ones_equiv. lia. }
  rewrite Z.land_spec, testbit_wrapu, Z.lnot_spec, Z.shiftl_spec by done.
  destruct (Z.leb_spec 13 i); cbn [andb]; [|by rewrite (Z.testbit_neg_r _ (i - 13)), !andb_false_r by lia].
  rewrite (Z.testbit_ones_nonneg (SEGBITS - 13) (i - 13)) by lia. destruct (Z.ltb_spec (i - 13) (SEGBITS - 13)), (Z.ltb_spec i SEGBITS); try (exfalso; lia).
  - destruct (Z.ltb_spec i 64); [|lia]. by rewrite !andb_true_r.
  - by rewrite !andb_false_r.
Qed.
Lemma probe_mask_bit e i (wide : bool) : 0 <= i -> Z.testbit (u64 (.~ pair_mask e) .& (if wide then .~ 0x3 else 0xffffffff)) i =
  negb (Z.testbit (pair_mask e) i) && (i <? if wide then 64 else 32).
Proof.
  intros Hi. rewrite Z.land_spec, testbit_wrapu, Z.lnot_spec by done. destruct wide.
  - destruct (Z.testbit (pair_mask e) i) eqn:Hp; cbn [negb]; [by rewrite andb_false_r|]. rewrite pair_mask_bit in Hp by done.
    apply orb_false_iff in Hp as [Hp%Z.ltb_ge _]. rewrite Z.lnot_spec by done. change 0x3 with (Z.ones 2).
    rewrite Z.ones_spec_high by lia. cbn [negb]. by rewrite !andb_true_r.
  - change 0xffffffff with (Z.ones 32). rewrite Z.testbit_ones_nonneg by done. destruct (Z.ltb_spec i 32), (Z.ltb_spec i 64); try lia; cbn [andb];
      by rewrite ?andb_true_r, ?andb_false_r.
Qed.
Lemma narrow_bit x i : narrow x -> 31 <= i < 64 -> Z.testbit x i = Z.testbit x 31.
Proof.
  unfold narrow. intros Hx Hi. rewrite <- Hx at 1. rewrite testbit_wrapu, testbit_wraps by lia. destruct (Z.ltb_spec i 64); [|lia]. cbn [andb].
  destruct (Z.ltb_spec i 32); [by replace i with 31 by lia|done].
Qed.
Lemma cam_bits x asid e : 0 <= x -> 0 <= entry_hi e ->
  cam_match x asid e = true <->
  (forall i, 13 <= i < SEGBITS -> Z.testbit (pair_mask e) i = false -> Z.testbit x i = Z.testbit (entry_hi e) i) /\
  (Z.testbit x 62 = Z.testbit (entry_hi e) 62 /\ Z.testbit x 63 = Z.testbit (entry_hi e) 63) /\ asid_match e asid = true.
Proof.
  intros Hx He. unfold cam_match. cbv zeta. rewrite !andb_true_iff, !Z.eqb_eq, land_above, land_same_bits by done.
  split; intros Hall; destruct Hall as (Hm & Ha).
  - destruct Hm as [Hm Hr]. split; [|done]. intros i Hi Hp. apply Hm; [lia|]. rewrite cam_mask_bit, Hp by lia. cbn [negb andb].
    by rewrite (proj2 (Z.leb_le 13 i)), (proj2 (Z.ltb_lt i SEGBITS)) by lia.
  - destruct Ha as [Hr Ha]. split; [split; [|done]|done]. intros i Hi Hc. rewrite cam_mask_bit in Hc by done.
    apply andb_true_iff in Hc as [[Hp%negb_true_iff H1%Z.leb_le]%andb_true_iff H2%Z.ltb_lt]. by apply Hm.
Qed.
Lemma probe_bits x asid wide e : 0 <= x -> 0 <= entry_hi e ->
  probe_match x asid wide e = true <->
  (forall i, 13 <= i < (if wide then 64 else 32) -> Z.testbit (pair_mask e) i = false -> Z.testbit x i = Z.testbit (entry_hi e) i) /\
  asid_match e asid = true.
Proof.
  intros Hx He. unfold probe_match. cbv zeta. set (m := u64 _ .& _).
  assert (x .& m = entry_hi e .& m <-> forall i, 13 <= i < (if wide then 64 else 32) -> Z.testbit (pair_mask e) i = false ->
    Z.testbit x i = Z.testbit (entry_hi e) i) as Hm.
  { rewrite land_same_bits. unfold m. split.
    - intros Hi i Hr Hp. apply Hi; [lia|]. rewrite probe_mask_bit, Hp by lia. cbn [negb andb]. apply Z.ltb_lt, Hr.
    - intros Hi i H0 Hb. rewrite probe_mask_bit in Hb by done. apply andb_true_iff in Hb as [Hp%negb_true_iff Hl%Z.ltb_lt].
      apply Hi; [|done]. split; [|done]. rewrite pair_mask_bit in Hp by done. apply orb_false_iff in Hp as [?%Z.ltb_ge _]. done. }
  destruct wide; rewrite !andb_true_iff, !Z.eqb_eq, Hm; [|done]. rewrite land_above by done. split; [tauto|].
  intros [Hi Ha]. split; [|done]. split; [done|]. split; (apply Hi; [lia|by apply pair_mask_high]).
Qed.
(** Where the pages are like the address, both look for the same ones. *)
Lemma match_narrow x asid e : 0 <= x -> 0 <= entry_hi e -> narrow x -> narrow (entry_hi e) ->
  probe_match x asid false e = cam_match x asid e.
Proof.
  intros Hx He Nx Ne. pose proof segbits. apply eq_true_iff_eq. rewrite probe_bits, cam_bits by done.
  assert (Z.testbit (pair_mask e) 31 = false) as H31 by (by apply pair_mask_high).
  split.
  - intros [Hi Ha]. assert (Z.testbit x 31 = Z.testbit (entry_hi e) 31) as E31 by (apply Hi; [lia|done]).
    assert (forall i, 31 <= i < 64 -> Z.testbit x i = Z.testbit (entry_hi e) i) as Hh.
    { intros i Hr. by rewrite (narrow_bit x i), (narrow_bit (entry_hi e) i). }
    split; [|split; [split; apply Hh; lia|done]]. intros i Hr Hp. destruct (Z.le_gt_cases 31 i); [apply Hh; lia|apply Hi; [lia|done]].
  - intros (Hi & _ & Ha). split; [|done]. intros i Hr Hp. apply Hi; [lia|done].
Qed.
Lemma match_wide x asid e : 0 <= x -> 0 <= entry_hi e ->
  (forall b, SEGBITS <= b < 62 -> Z.testbit (entry_hi e) b = Z.testbit x b) -> probe_match x asid true e = cam_match x asid e.
Proof.
  intros Hx He Hh. pose proof segbits. apply eq_true_iff_eq. rewrite probe_bits, cam_bits by done.
  split.
  - intros [Hi Ha]. split; [|split; [split; apply Hi; (lia || by apply pair_mask_high)|done]]. intros i Hr Hq. apply Hi; [lia|done].
  - intros (Hi & [H62 H63] & Ha). split; [|done]. intros i Hr Hq. destruct (Z.lt_ge_cases i SEGBITS); [apply Hi; [lia|done]|].
    destruct (Z.lt_ge_cases i 62); [symmetry; apply Hh; lia|]. assert (i = 62 \/ i = 63) as [-> | ->] by lia; done.
Qed.
Lemma narrow_compat x : narrow x -> compat32 (u32 (x >> 32)) = true.
Proof.
  intros <-. rewrite Z.shiftr_div_pow2 by done. pose proof (wraps_range 32 x ltac:(done)) as Hr. unfold in_s in Hr.
  change (2 ^ (32 - 1)) with 2147483648 in Hr. unfold compat32, wrapu. change (2 ^ 64) with 18446744073709551616. change (2 ^ 32) with 4294967296.
  destruct (Z.le_gt_cases 0 (s32 x)).
  - rewrite (Z.mod_small (s32 x)) by lia. rewrite Z.div_small by lia. done.
  - replace (s32 x mod 18446744073709551616) with (s32 x + 18446744073709551616).
    + replace ((s32 x + 18446744073709551616) / 4294967296) with 4294967295; [done|]. Z.div_mod_to_equations; lia.
    + Z.div_mod_to_equations; lia.
Qed.
(** There the probe finds the address the store is to write. *)
Lemma probe_is_translation s va pa : wf s -> same_view s va -> translate s va op_store = Phys pa -> tlb_probe_ro s va false = Some pa.
Proof.
  intros Hw [Hm Hv]. unfold translate, tlb_probe_ro. rewrite Hm. cbv zeta. unfold unmapped_pa in *. set (x := u64 va) in *.
  assert (0 <= x) as Hx by (apply wrapu_nonneg; done). set (c := compat32 (u32 (x >> 32))) in *.
  set (u := if c then _ else _) in Hv |- *.
  assert (u = None -> forall i, 0 <= i < NUM_TLB_ENTRIES ->
    probe_match x (asid_of s) (negb c) (tlb s).[i] = cam_match x (asid_of s) (tlb s).[i]) as Hmatch.
  { intros Hu i Hi. assert (0 <= entry_hi (tlb s).[i]) as He by (destruct (wf_tlb_rd s i Hw) as ((? & _) & _); done).
    destruct Hv as [?|[[Nx Ne]|[Hc Hb]]]; [done| |].
    - assert (c = true) as -> by (by apply narrow_compat). apply match_narrow; auto.
    - rewrite Hc. apply match_wide; auto. }
  destruct u as [p|] eqn:Hu.
  - unfold u in Hu. clearbody c. destruct c; cbn [negb andb] in Hu |- *.
    + destruct (_ || _); [|done]. intros [= <-]. exact Hu.
    + destruct (_ =? 2); [|done]. intros [= <-]. exact Hu.
  - specialize (Hmatch eq_refl). assert (first_from (fun i => probe_match x (asid_of s) (negb c) (tlb s).[i]) 0 tlb_n = lookup_tlb (tlb s) (asid_of s) x) as Ef.
    { apply first_from_ext. intros i Hi. apply Hmatch. unfold tlb_n in Hi. pose proof tlb_entries_pos. lia. }
    unfold asid_of in Ef at 1. rewrite Ef. intros Hp.
    assert (forall (a : option Z), (if c then if (u32 x >> 29 =? 4) || (u32 x >> 29 =? 5) then Some (u32 x .& 0x1fffffff) else a
      else if (x >> 62) .& 3 =? 2 then Some (u32 (x .& 0xffffffffff)) else a) = a) as Hk.
    { intros a. unfold u in Hu. clearbody c. destruct c; [by destruct (_ || _)|by destruct (_ =? 2)]. }
    destruct (lookup_tlb _ _ _) as [i|]; [|done]. unfold page_answer in Hp. cbn [is_store] in Hp.
    destruct (_ =? 0) eqn:E2 in Hp; [done|]. destruct (_ && _) eqn:E4 in Hp; [done|]. injection Hp as <-.
    rewrite E2. unfold u in Hu. clearbody c. destruct c; cbn [negb andb]; [destruct (_ || _); [done|reflexivity]|destruct (_ =? 2); [done|reflexivity]].
Qed.
End probe.

Section stores.
Context `{Config, HostFP}.
Implicit Types (s t : state) (inst pa : Z) (n : nat).
(** The aligned stores by opcode. *)
Definition aligned_store (op : Z) : option nat :=
  match op with 0x28 => Some 1%nat | 0x29 => Some 2%nat | 0x2b => Some 4%nat | 0x3f => Some 8%nat | _ => None end.
(** The link after a store to the physical address [pa]. *)
Definition link_after_store (pa : Z) (s : state) : bool :=
  negb LLSC_BREAK_ON_LOAD && ll_link_valid s && negb (cache_line pa =? ll_link_addr s).
Lemma break_link_store inst s pa : is_mem_store inst = true -> tlb_probe_ro s (base_imm inst s) false = Some pa ->
  ll_link_valid (break_link inst s) = link_after_store pa s.
Proof.
  intros Hst Hp. unfold break_link, link_after_store, probe_or_va2pa. rewrite Hst, Hp, orb_true_r. cbn [andb].
  destruct LLSC_BREAK_ON_LOAD; [done|]. cbn [negb andb]. destruct (ll_link_valid s) eqn:Hv; [|by rewrite Hv]. cbn [andb].
  case_match; cbn [negb]; [done|exact Hv].
Qed.
Lemma probe_ext s t va b : tlb s = tlb t -> cpr0_64 s = cpr0_64 t -> tlb_probe_ro s va b = tlb_probe_ro t va b.
Proof. intros HT HC. unfold tlb_probe_ro. by rewrite HT, HC. Qed.
Lemma log_store_frame inst s : let t := log_store inst s in
  ll_link_valid t = ll_link_valid s /\ gpr t = gpr s /\ mem t = mem s /\ tlb t = tlb s /\ cpr0 t = cpr0 s /\ cpr0_64 t = cpr0_64 s /\
  g_utlb t = g_utlb s /\ tlb_fault t = tlb_fault s.
Proof. cbv zeta. unfold log_store. by repeat case_match. Qed.
Lemma break_link_frame inst s : let t := break_link inst s in
  gpr t = gpr s /\ mem t = mem s /\ tlb t = tlb s /\ cpr0 t = cpr0 s /\ cpr0_64 t = cpr0_64 s /\
  g_utlb t = g_utlb s /\ tlb_fault t = tlb_fault s.
Proof. cbv zeta. unfold break_link. by repeat case_match. Qed.
Lemma aligned_store_exec step op n inst s : aligned_store op = Some n -> inst >> 26 = op -> exists st, In (st, n) stores /\
  exec_inst false step inst s = st inst (s |> set_icnt (u64 (icnt s + 1)) |> break_link inst |> log_store inst) /\ is_mem_store inst = true.
Proof.
  unfold aligned_store. intros Hop E. unfold exec_inst, is_64b_gated, is_cp1_gated, is_mem_store. cbv zeta. rewrite E.
  assert (op = 0x28 \/ op = 0x29 \/ op = 0x2b \/ op = 0x3f) as Hc.
  { destruct op as [|p|p]; try done. do 6 (destruct p as [p|p|]; try done); auto. }
  destruct Hc as [-> | [-> | [-> | ->]]]; injection Hop as <-; cbn -[dispatch]; rewrite ?andb_false_r; unfold dispatch, exec_itype; rewrite E; cbn -[_sb _sh _sw _sd];
    eexists; (split; [|split; [reflexivity|reflexivity]]); cbn; tauto.
Qed.
(** A whole store instruction: what it writes and what is left of the link. *)
Lemma store_disarms step op n inst s pa : wf s -> coherent s -> tlb_fault s = false ->
  aligned_store op = Some n -> inst >> 26 = op -> same_view s (base_imm inst s) ->
  translate s (base_imm inst s) op_store = Phys pa -> pa mod Z.of_nat n = 0 ->
  exists r, exec_inst false step inst s = Ok r /\ mem r = be_write n pa (gpr s).[f_rt inst] (mem s) /\ gpr r = gpr s /\
    ll_link_valid r = link_after_store pa s.
Proof.
  intros Hw Hc Hf Hop E Hv Htr Hal. destruct (aligned_store_exec step op n inst s Hop E) as (st & Hin & -> & Hst).
  set (s1 := set_icnt _ s). pose proof (break_link_frame inst s1) as (B1 & B2 & B3 & B4 & B5 & B6 & B7).
  pose proof (log_store_frame inst (break_link inst s1)) as (L0 & L1 & L2 & L3 & L4 & L5 & L6 & L7).
  set (u := log_store inst _) in *. assert (base_imm inst u = base_imm inst s) as Eb by (unfold base_imm; by rewrite L1, B1).
  assert (translate u (base_imm inst u) op_store = Phys pa) as Htu.
  { rewrite Eb, <- Htr. apply translate_ext; [by rewrite L3, B3|unfold asid_of; by rewrite L5, B5|apply mode_sr; by rewrite L4, B4]. }
  assert (ll_link_valid u = link_after_store pa s) as Hl.
  { rewrite L0. rewrite (break_link_store inst s1 pa Hst); [done|]. rewrite <- (probe_is_translation s _ pa Hw Hv Htr).
    by apply probe_ext. }
  assert (coherent u) as Hcu by (unfold coherent in *; by rewrite L3, L6, B3, B6).
  pose proof (stores_correct inst u Hcu ltac:(by rewrite L7, B7)) as Hs. rewrite List.Forall_forall in Hs. specialize (Hs _ Hin). cbn beta iota in Hs.
  apply rel_Ok in Hs as (r & Hr & (_ & _ & Ha)). exists r. split; [exact Hr|].
  unfold store_result, access in Ha. rewrite Htu in Ha. rewrite Hal in Ha. cbn [Z.eqb] in Ha. unfold touched in Ha. cbn [is_load] in Ha.
  pose proof (f_equal mem Ha) as Em. pose proof (f_equal gpr Ha) as Eg. pose proof (f_equal ll_link_valid Ha) as El. cbn in Em, Eg, El.
  rewrite Em, Eg, El. clear Em Eg El Ha Hr. rewrite Hl, L1, L2, B1, B2. done.
Qed.
End stores.
(** C18. A broken link.  A store that writes the physical address [pa] leaves the link
    armed only if it was, the model is the default one and [pa] is outside the linked
    line: so a store to the linked line disarms it.  For SB, SH, SW and SD this is the
    whole instruction, the memory it writes included; for every other store at base plus
    offset it is the bookkeeping done before the store runs.  The line is that of the
    store's own translation, for every address on which the link's read-only probe
    agrees with it: an unmapped window, a sign-extended 32-bit address when the pages
    are, or a 64-bit address whose unimplemented bits the pages share.  ERET disarms the
    link; and with the link disarmed an aligned SC or SCD that translates writes nothing
    and returns 0. *)
Theorem sc_fails_without_link `{Config, HostFP} (s : state) (Hw : wf s) (Hc : coherent s) (Hf : tlb_fault s = false) :
  (forall step op n inst pa, aligned_store op = Some n -> inst >> 26 = op -> same_view s (base_imm inst s) ->
     translate s (base_imm inst s) op_store = Phys pa -> pa mod Z.of_nat n = 0 ->
     exists r, exec_inst false step inst s = Ok r /\ mem r = be_write n pa (gpr s).[f_rt inst] (mem s) /\
       gpr r = gpr s /\ ll_link_valid r = link_after_store pa s) /\
  (forall inst pa, is_mem_store inst = true -> inst >> 26 <> 0x13 -> same_view s (base_imm inst s) ->
     translate s (base_imm inst s) op_store = Phys pa -> ll_link_valid (break_link inst s) = link_after_store pa s) /\
  (exists r, execCoproc0 ERET_INST s = Ok r /\ ll_link_valid r = false) /\
  (forall inst pa, ll_link_valid s = false -> translate s (base_imm inst s) op_store = Phys pa ->
     (pa mod 4 = 0 -> exists r, _sc false inst s = Ok r /\ mem r = mem s /\ gpr r = wr (f_rt inst) 0 (gpr s)) /\
     (pa mod 8 = 0 -> exists r, _scd false inst s = Ok r /\ mem r = mem s /\ gpr r = wr (f_rt inst) 0 (gpr s))).
Proof.
  split_and!.
  - intros step op n inst pa. by apply store_disarms.
  - intros inst pa Hst _ Hv Htr. apply break_link_store; [done|]. by apply probe_is_translation.
  - eexists. split; [reflexivity|]. unfold eret. cbv zeta. by destruct (sr_bit _ _).
  - intros inst pa Hl Htr. assert (sc_ok pa s = false) as Hok by (unfold sc_ok; by rewrite Hl). split; intros Hal.
    + destruct (sc_correct inst s pa Hc Hf Htr Hal) as (r & Hr & (_ & _ & Ha)).
      unfold sc_result in Ha. cbv zeta in Ha. rewrite Hok in Ha.
      exists r. split_and!; [exact Hr|exact (f_equal mem Ha)|exact (f_equal gpr Ha)].
    + destruct (scd_correct inst s pa Hc Hf Htr Hal) as (r & Hr & (_ & _ & Ha)).
      unfold sc_result in Ha. cbv zeta in Ha. rewrite Hok in Ha.
      exists r. split_and!; [exact Hr|exact (f_equal mem Ha)|exact (f_equal gpr Ha)].
Qed.
(** A machine whose TLB maps the page at 0x5000 to 0x9000, with the line there linked. *)
Definition linked_machine (base : Z) : state :=
  state_init (mk_sparse_mem ∅ false) false |> set_tlb_at 0 (mk_tlb_entry 0x4000 1 0x247 0)
    |> set_ll_link_valid true |> set_ll_link_addr 0x9000 |> set_gpr_at 4 base |> set_gpr_at 2 7.
Lemma wf_linked_machine base : in_s 64 base -> @wf r4400_config (linked_machine base).
Proof.
  intros Hb. unfold linked_machine. apply wf_set_gpr_at; [lia|unfold in_s; lia|]. apply wf_set_gpr_at; [lia|done|].
  apply wf_set_ll_link_addr; [unfold in_u; lia|]. apply wf_set_ll_link_valid, wf_set_tlb_at.
  - change (0 <= 0 < 48). lia.
  - unfold tlb_entry_ok, in_u. cbn [entry_hi entry_lo0 entry_lo1 page_mask]. lia.
  - apply wf_state_init, map_Forall_empty.
Qed.
Definition no_slot : state -> result state := fun _ => Stop OutOfFuel.
(** SW $2, 0($4) at 0x5000. *)
Lemma sc_fails_without_link_witness :
  exists r, @exec_inst r4400_config indefinite_host false no_slot 0xac820000 (linked_machine 0x5000) = Ok r /\
    ll_link_valid r = false.
Proof.
  destruct (@sc_fails_without_link r4400_config indefinite_host (linked_machine 0x5000)) as (Hs & _).
  - apply wf_linked_machine. unfold in_s. lia.
  - apply coh_empty.
  - reflexivity.
  - assert (@same_view r4400_config (linked_machine 0x5000) (base_imm 0xac820000 (linked_machine 0x5000))) as Hv.
    { split; [vm_compute; reflexivity|]. right. left. split; [vm_compute; reflexivity|]. intros i Hi.
      change (tlb (linked_machine 0x5000)) with (wr 0 (mk_tlb_entry 0x4000 1 0x247 0) ∅). rewrite rd_wr.
      destruct (0 =? i); [|rewrite rd_empty]; vm_compute; reflexivity. }
    assert (@translate r4400_config (linked_machine 0x5000) (base_imm 0xac820000 (linked_machine 0x5000)) op_store = Phys 0x9000) as Htr
      by (vm_compute; reflexivity).
    destruct (Hs no_slot 0x2b 4%nat 0xac820000 0x9000 eq_refl eq_refl Hv Htr eq_refl) as (r & Hr & _ & _ & Hl).
    exists r. split; [exact Hr|]. etransitivity; [exact Hl|]. vm_compute. reflexivity.
Defined.
(** The probe does not sign-extend the address in 32-bit mode, and compares other bits
    of it: through the base 0x100005000 the same store writes the linked line and the
    link survives. *)
Lemma link_survives_store :
  match @exec_inst r4400_config indefinite_host false no_slot 0xac820000 (linked_machine 0x100005000) with
  | Ok r => be_read 4 0x9000 (mem r) = 7 /\ ll_link_valid r = true
  | Stop _ => False
  end.
Proof. vm_compute. by split. Qed.
(** An indexed store is looked up at base plus a displacement it does not have: SWXC1 of
    $f1 to 0x80001000 leaves the link to that line. *)
Definition full_mips4_config : Config :=
  {| ENABLE_R10000 := false; ENABLE_MIPS4 := true; ISS_FULL_MIPS4 := true; LLSC_BREAK_ON_LOAD := false; STORE_CHECK := false |}.
Lemma link_survives_indexed_store :
  match @exec_inst full_mips4_config indefinite_host false no_slot 0x4c850808
          (state_init (mk_sparse_mem ∅ false) false |> set_cpr0_at CPR0_SR (SR_CU1 .| SR_FR) |> set_cpr1_at 1 7
             |> set_ll_link_valid true |> set_ll_link_addr 0x1000 |> set_gpr_at 4 (sext32 0x80001000)) with
  | Ok r => be_read 4 0x1000 (mem r) = 7 /\ ll_link_valid r = true
  | Stop _ => False
  end.
Proof. vm_compute. by split. Qed.
