(* ===== verification/FpuProps.v ===== *)
(** The FP control and data registers of [src/interpret.cc]: the FCSR condition
    codes with their FCCR view, and word moves under both register models. *)
From S2P Require Import Prelude Bits Insns State Mem Wf Exc Tlb LoadStore Alu Fp Fpu Arch Utlb ExcProps.

Definition FCSR (s : state) : Z := (fcr1 s).[CP1_CR31].
Definition FCCR (s : state) : Z := (fcr1 s).[CP1_CR25].
(** The condition codes of an FCSR word. *)
Definition fcc_of (f cc : Z) : bool := Z.testbit f (fcc_bit cc).
Definition fcc_field (i : Z) : bool := (i =? 23) || ((25 <=? i) && (i <=? 31)).
(** FCCR holds exactly the eight condition codes. *)
Definition mirrored (s : state) : Prop :=
  forall i, 0 <= i -> Z.testbit (FCCR s) i = (i <? 8) && fcc_of (FCSR s) i.

(** * Theorems *)
Section bits.
Implicit Types (f v i c k : Z) (l : list Z).
Lemma bit_at f k c i : 0 <= k -> 0 <= c -> 0 <= i ->
  Z.testbit (((f >> k) .& 1) << c) i = (i =? c) && Z.testbit f k.
Proof.
  intros. rewrite Z.shiftl_spec by done. destruct (Z.eqb_spec i c) as [->|].
  - rewrite Z.sub_diag, Z.land_spec, Z.shiftr_spec by done. cbn. apply andb_true_r.
  - destruct (decide (i < c)); [by rewrite Z.testbit_neg_r by lia|].
    rewrite Z.land_spec. change 1 with (Z.ones 1). rewrite Z.ones_spec_high by lia. by rewrite andb_false_r.
Qed.
Lemma fold_bits (g : Z -> Z) (h : Z -> Z) f l v i :
  0 <= i -> (forall c, In c l -> 0 <= g c /\ 0 <= h c) ->
  Z.testbit (fold_left (fun v c => v .| (((f >> g c) .& 1) << h c)) l v) i =
  Z.testbit v i || existsb (fun c => (i =? h c) && Z.testbit f (g c)) l.
Proof.
  intros Hi. revert v; induction l as [|c l IH]; intros v Hl; cbn [fold_left existsb]; [by rewrite orb_false_r|].
  rewrite IH by (intros; apply Hl; by right). rewrite Z.lor_spec.
  destruct (Hl c (or_introl eq_refl)). rewrite bit_at by done. by rewrite orb_assoc.
Qed.
Lemma in_1_7 c : In c [1; 2; 3; 4; 5; 6; 7] -> 1 <= c <= 7.
Proof. cbn. lia. Qed.
Lemma fcc_bit_pos cc : 0 <= cc < 8 -> 23 <= fcc_bit cc <= 31 /\ fcc_bit cc <> 24.
Proof. intros. unfold fcc_bit. destruct (Z.eqb_spec cc 0); lia. Qed.
Lemma fcc_bit_inj a b : 0 <= a < 8 -> 0 <= b < 8 -> fcc_bit a = fcc_bit b -> a = b.
Proof. unfold fcc_bit. destruct (Z.eqb_spec a 0), (Z.eqb_spec b 0); lia. Qed.
(** [existsb] over the seven upper codes, at a given position. *)
Lemma exists_code (p : Z -> bool) i :
  existsb (fun c => (i =? c) && p c) [1; 2; 3; 4; 5; 6; 7] = (1 <=? i) && (i <=? 7) && p i.
Proof.
  destruct (decide (1 <= i <= 7)) as [Hi|Hi].
  - assert (i = 1 \/ i = 2 \/ i = 3 \/ i = 4 \/ i = 5 \/ i = 6 \/ i = 7) by lia.
    destruct_or!; subst; cbn; by destruct (p _).
  - replace ((1 <=? i) && (i <=? 7)) with false by lia. cbn.
    repeat match goal with |- context [i =? ?c] => replace (i =? c) with false by lia end. done.
Qed.
Lemma exists_shifted (p : Z -> bool) i :
  existsb (fun c => (i =? 24 + c) && p c) [1; 2; 3; 4; 5; 6; 7] = (25 <=? i) && (i <=? 31) && p (i - 24).
Proof.
  destruct (decide (25 <= i <= 31)) as [Hi|Hi].
  - assert (i = 25 \/ i = 26 \/ i = 27 \/ i = 28 \/ i = 29 \/ i = 30 \/ i = 31) by lia.
    destruct_or!; subst; vm_compute; by destruct (p _).
  - replace ((25 <=? i) && (i <=? 31)) with false by lia. cbn [existsb andb].
    repeat match goal with |- context [i =? ?c] => replace (i =? c) with false by lia end. done.
Qed.
End bits.
Section codes.
Implicit Types (s : state) (cc i : Z).
Lemma mirrored_to_fccr s : mirrored (fcc_mirror_to_fccr s).
Proof.
  intros i Hi. unfold fcc_mirror_to_fccr, FCCR, FCSR. rd_simpl. set (f := (fcr1 s).[CP1_CR31]).
  rewrite (fold_bits (fun c => 24 + c) (fun c => c)) by (try done; intros c Hc%in_1_7; lia).
  rewrite exists_code. unfold fcc_of, fcc_bit.
  replace (Z.testbit ((f >> 23) .& 1) i) with ((i =? 0) && Z.testbit f 23)
    by (rewrite <- (bit_at f 23 0) by done; by rewrite Z.shiftl_0_r).
  destruct (Z.eqb_spec i 0) as [->|]; cbn [andb orb]; [by rewrite orb_false_r|]. f_equal. lia.
Qed.
Lemma FCSR_set v cc s :
  0 <= cc < 8 ->
  FCSR (setConditionCode v cc s) = if v =/? 0 then FCSR s .| (1 << fcc_bit cc) else FCSR s .& .~ (1 << fcc_bit cc).
Proof.
  intros. unfold setConditionCode, fcc_mirror_to_fccr, FCSR. cbv zeta. destruct (v =/? 0); rd_simpl; done.
Qed.
Lemma getCC s cc : 0 <= cc < 8 -> getConditionCode s cc = Z.b2z (fcc_of (FCSR s) cc).
Proof.
  intros Hcc%fcc_bit_pos. unfold getConditionCode, fcc_of. change 0x1 with (Z.ones 1). rewrite Z.land_ones by done.
  rewrite <- Z.bit0_mod, Z.shiftr_spec by done. done.
Qed.
Lemma FCSR_set_bit v cc s i :
  0 <= cc < 8 -> 0 <= i ->
  Z.testbit (FCSR (setConditionCode v cc s)) i = if i =? fcc_bit cc then v =/? 0 else Z.testbit (FCSR s) i.
Proof.
  intros Hcc Hi. pose proof (fcc_bit_pos cc Hcc). rewrite FCSR_set by done. rewrite Z.shiftl_1_l.
  destruct (v =/? 0).
  - rewrite Z.lor_spec, Z.pow2_bits_eqb by lia. rewrite (Z.eqb_sym i).
    destruct (_ =? i); [apply orb_true_r|apply orb_false_r].
  - rewrite Z.land_spec, Z.lnot_spec, Z.pow2_bits_eqb by lia. rewrite (Z.eqb_sym i).
    destruct (_ =? i); [apply andb_false_r|apply andb_true_r].
Qed.
End codes.

(** Condition codes.  Setting a code makes it read back as set and changes no other bit of
    FCSR; after every write path (a comparison, CTC1 to FCSR, CTC1 to FCCR) the
    FCCR view holds exactly the eight codes (its low byte after CTC1 to FCCR);
    and CTC1 to FCCR sets every code from the written byte and keeps the other
    FCSR bits. *)
Theorem condition_codes (s : state) (v cc : Z) (Hcc : 0 <= cc < 8) :
  let t := setConditionCode v cc s in
  (forall c, 0 <= c < 8 -> getConditionCode t c = if c =? cc then Z.b2z (v =/? 0) else getConditionCode s c) /\
  (forall i, 0 <= i -> i <> fcc_bit cc -> Z.testbit (FCSR t) i = Z.testbit (FCSR s) i) /\
  mirrored t /\
  (forall inst, f_rd inst = 31 -> mirrored (_ctc1 inst s)) /\
  (forall inst, f_rd inst = 25 ->
     let w := u32 (r_rt inst s) in let r := _ctc1 inst s in
     FCCR r = w /\ forall i, 0 <= i ->
       Z.testbit (FCSR r) i = if i =? 23 then Z.testbit w 0
                              else if (25 <=? i) && (i <=? 31) then Z.testbit w (i - 24)
                              else Z.testbit (FCSR s) i).
Proof.
  cbv zeta. split_and!.
  - intros c Hc. rewrite !getCC by done. unfold fcc_of. pose proof (fcc_bit_pos c Hc). rewrite FCSR_set_bit by lia.
    destruct (Z.eqb_spec c cc) as [->|Hne]; [by rewrite Z.eqb_refl|].
    replace (fcc_bit c =? fcc_bit cc) with false; [done|]. symmetry. apply Z.eqb_neq. intros E. by apply Hne, fcc_bit_inj.
  - intros i Hi Hne. rewrite FCSR_set_bit by done. by rewrite (proj2 (Z.eqb_neq _ _)).
  - apply mirrored_to_fccr.
  - intros inst Hi. unfold _ctc1. rewrite Hi. cbn [Z.eqb Pos.eqb negb]. apply (mirrored_to_fccr (set_fcr1_at _ _ s)).
  - intros inst Hi. unfold _ctc1. rewrite Hi. cbn [Z.eqb Pos.eqb negb fcr_index].
    unfold fcc_mirror_from_fccr, FCCR, FCSR, next. rd_simpl. split; [done|]. intros i Hi0. set (w := u32 _).
    rewrite (fold_bits (fun c => c) (fun c => 24 + c)) by (try done; intros c Hc%in_1_7; lia).
    rewrite exists_shifted, Z.lor_spec, Z.land_spec, Z.lnot_spec by done.
    rewrite <- (Z.shiftr_0_r w) at 1. rewrite bit_at by done.
    change ((1 << 23) .| 0xfe000000) with 0xfe800000.
    assert (Z.testbit 0xfe800000 i = (i =? 23) || ((25 <=? i) && (i <=? 31))) as ->.
    { change 0xfe800000 with ((Z.ones 7 << 25) .| (1 << 23)).
      rewrite Z.lor_spec, Z.shiftl_spec, Z.testbit_ones, Z.shiftl_1_l, Z.pow2_bits_eqb by lia. lia. }
    destruct (Z.eqb_spec i 23) as [->|]; cbn; [by rewrite andb_false_r, orb_false_r|].
    destruct ((25 <=? i) && (i <=? 31)); cbn; [by rewrite andb_false_r|]. by rewrite andb_true_r, !orb_false_r.
Qed.
Lemma condition_codes_witness :
  let s := state_init (mk_sparse_mem ∅ false) false in
  getConditionCode (setConditionCode 1 3 s) 3 = 1 /\ getConditionCode (setConditionCode 1 3 s) 5 = 0.
Proof.
  intros s. pose proof (proj1 (condition_codes s 1 3 ltac:(lia))) as Hc. cbv zeta in Hc.
  split; [exact (Hc 3 ltac:(lia))|exact (Hc 5 ltac:(lia))].
Defined.

Section words.
Implicit Types (s : state) (r w : Z).
Lemma fpr_half_read (odd : bool) old w :
  in_u 64 old -> in_u 32 w ->
  (if odd then u32 (fpr_half odd old w >> 32) else u32 (fpr_half odd old w)) = w /\
  (if odd then u32 (fpr_half odd old w) = u32 old else u32 (fpr_half odd old w >> 32) = u32 (old >> 32)).
Proof.
  intros Ho Hw. assert (forall i, 32 <= i -> Z.testbit w i = false) as Hh by (intros; by apply (in_u_testbit 32)).
  destruct odd; cbn [fpr_half]; split; apply Z.bits_inj'; intros i Hi; rewrite !testbit_wrapu by done;
    rewrite ?Z.shiftr_spec, Z.lor_spec, Z.land_spec, ?Z.shiftl_spec by lia.
  - change 0xffffffff with (Z.ones 32). rewrite Z.testbit_ones by done. replace (i + 32 - 32) with i by lia.
    destruct (Z.ltb_spec i 32); cbn; [|by rewrite Hh]. replace ((_ <=? _) && _) with false by lia. by rewrite andb_false_r.
  - change 0xffffffff with (Z.ones 32). rewrite Z.testbit_ones by done. destruct (Z.ltb_spec i 32); cbn; [|done].
    replace ((_ <=? _) && _) with true by lia. rewrite (Z.testbit_neg_r w) by lia. by rewrite andb_true_r, orb_false_r.
  - change 0xffffffff00000000 with (Z.ones 32 << 32). rewrite Z.shiftl_spec, Z.testbit_ones by done.
    destruct (Z.ltb_spec i 32); cbn; [|by rewrite Hh]. replace ((_ <=? _) && _) with false by lia. by rewrite andb_false_r.
  - change 0xffffffff00000000 with (Z.ones 32 << 32). rewrite Z.shiftl_spec, Z.testbit_ones by lia.
    destruct (Z.ltb_spec i 32); cbn; [|done]. rewrite (Hh (i + 32)) by lia.
    replace ((_ <=? _) && _) with true by lia. by rewrite andb_true_r, orb_false_r.
Qed.
Lemma even_odd r : 0 <= r -> even_reg r = 2 * (r / 2) /\ is_odd r = Z.odd r.
Proof.
  intros Hr. unfold even_reg, is_odd. split.
  - change 1 with (Z.ones 1). rewrite <- Z.ldiff_land, Z.ldiff_ones_r, Z.shiftl_mul_pow2, Z.shiftr_div_pow2 by done. change (2 ^ 1) with 2. lia.
  - change 1 with (1 << 0) at 1. rewrite land_bit by done. apply Z.bit0_odd.
Qed.
Lemma fr0_write r w s : fr0 (write_fpr_word r w s) = fr0 s.
Proof. unfold write_fpr_word. by destruct (fr0 s) eqn:E. Qed.
End words.

(** FP word registers.  MTC1 followed by MFC1 of the same FP register returns the moved word,
    sign-extended, under both register models; with FR=1 every other register, and
    with FR=0 every other register and the other half of the even/odd pair,
    reads as before. *)
Theorem fpr_word_moves `{Config} (s : state) (inst inst' : Z) (Hw : wf s) (Hfs : f_fs inst' = f_fs inst) :
  let t := _mtc1 inst s in
  (gpr (_mfc1 inst' t)).[f_rt inst'] = s32 (r_rt inst s) /\
  (forall r, 0 <= r < 32 -> r <> f_fs inst -> read_fpr_word r t = read_fpr_word r s).
Proof.
  cbv zeta. set (w := u32 (r_rt inst s)). assert (in_u 32 w) as Hwr by (unfold w; rng).
  assert (forall r, read_fpr_word r (_mtc1 inst s) = read_fpr_word r (write_fpr_word (f_fs inst) w s)) as Hrd by done.
  assert (read_fpr_word (f_fs inst) (write_fpr_word (f_fs inst) w s) = w /\
    forall r, 0 <= r < 32 -> r <> f_fs inst -> read_fpr_word r (write_fpr_word (f_fs inst) w s) = read_fpr_word r s) as [Heq Hne].
  { set (q := f_fs inst). assert (0 <= q < 32) as Hq by apply f_rd_range.
    unfold read_fpr_word. rewrite fr0_write. unfold write_fpr_word. destruct (fr0 s) eqn:Hfr; cbn [andb].
    - destruct (fpr_half_read (is_odd q) (cpr1 s).[even_reg q] w) as [E1 E2]; [by apply wf_cpr1_rd|done|].
      split; [rd_simpl; by destruct (is_odd q)|]. intros r Hr Hne. destruct (decide (even_reg r = even_reg q)) as [E|E].
      + rewrite E. rd_simpl. destruct (even_odd r ltac:(lia)) as [Er Or], (even_odd q ltac:(lia)) as [Eq Oq].
        assert (is_odd r = negb (is_odd q)) as Hodd.
        { rewrite Or, Oq. pose proof (Z.div2_odd r) as Dr. pose proof (Z.div2_odd q) as Dq. rewrite Z.div2_div in Dr, Dq.
          destruct (Z.odd r), (Z.odd q); cbn [Z.b2z negb] in *; lia. }
        rewrite Hodd. by destruct (is_odd q).
      + by rd_simpl.
    - split; [rd_simpl; by rewrite wrapu_narrow, wrapu_wraps, wrapu_id|]. intros r Hr Hne. by rd_simpl. }
  split.
  - unfold _mfc1, ret_rt. st_simpl. rewrite rd_wr_eq, Hfs, Hrd, Heq. apply wraps_wrapu. done.
  - intros r Hr Hn. rewrite Hrd. by apply Hne.
Qed.
Lemma fpr_word_moves_witness :
  let s := set_gpr_at 4 (-5) (state_init (mk_sparse_mem ∅ false) false) in
  (gpr (_mfc1 0x44051800 (_mtc1 0x44841800 s))).[5] = -5.
Proof.
  intros s. assert (@wf r4400_config s) as Hw.
  { apply wf_set_gpr_at; [lia|unfold in_s; lia|]. apply wf_state_init, map_Forall_empty. }
  exact (proj1 (@fpr_word_moves r4400_config s 0x44841800 0x44051800 Hw eq_refl)).
Defined.
