(* ===== verification/Cosim.v ===== *)
(** The lockstep checker of [src/top.cc]: every cycle the reference interpreter
    ([ss]) is kept in step with the retirement stream of the core under test.
    The TLB write log, the per-cycle synchronisation of timing-dependent CP0
    state, interrupts, the two retire slots and the desynchronisation watchdog.
    The core itself is a Verilated RTL model: what the checker reads of it in one
    cycle is the record [tb_t]; progress messages are not modelled. *)
From S2P Require Import Prelude Bits Insns State Mem Wf Exc Tlb LoadStore Alu Fp Fpu Cp0 Branch Exec Decode.

Record pend_tlb_t := mk_pend_tlb { p_idx : Z; p_ehi : Z; p_elo0 : Z; p_elo1 : Z; p_pm : Z }.

(** The outputs of the core the checker reads in a cycle. *)
Record tb_t := mk_tb {
  retire_reg_valid : bool; retire_reg_ptr : Z; retire_reg_data : Z;
  retire_reg_two_valid : bool; retire_reg_two_ptr : Z; retire_reg_two_data : Z;
  retire_valid : bool; retire_pc : Z;
  retire_two_valid : bool; retire_two_pc : Z;
  cp0_count : Z; cp0_random : Z; cause_ip : Z;
  took_irq : bool; epc : Z; got_bad_addr : bool;
}.

(** The checker's state: the interpreter, the core's registers as retired, the
    queue of TLB writes, and the counters of [main]. *)
Record checker := mk_checker {
  ss : state;
  s_gpr : Zmap Z;
  g_pend_tlb : list pend_tlb_t;
  n_checks : Z;
  last_check : Z;
  mismatches : Z;
  incorrect : bool;
  last_match_pc : Z;
}.
Definition with_ss (t : state) (c : checker) : checker :=
  mk_checker t (s_gpr c) (g_pend_tlb c) (n_checks c) (last_check c) (mismatches c) (incorrect c) (last_match_pc c).
Definition with_s_gpr (g : Zmap Z) (c : checker) : checker :=
  mk_checker (ss c) g (g_pend_tlb c) (n_checks c) (last_check c) (mismatches c) (incorrect c) (last_match_pc c).
Definition with_pend (q : list pend_tlb_t) (c : checker) : checker :=
  mk_checker (ss c) (s_gpr c) q (n_checks c) (last_check c) (mismatches c) (incorrect c) (last_match_pc c).
Definition with_last_check (n : Z) (c : checker) : checker :=
  mk_checker (ss c) (s_gpr c) (g_pend_tlb c) (n_checks c) n (mismatches c) (incorrect c) (last_match_pc c).
Definition flag_incorrect (n : Z) (c : checker) : checker :=
  mk_checker (ss c) (s_gpr c) (g_pend_tlb c) (n_checks c) (last_check c) (u64 (mismatches c + n)) true (last_match_pc c).
(** [++n_checks; last_check = 0; last_match_pc = pc;] *)
Definition matched (pc : Z) (c : checker) : checker :=
  mk_checker (ss c) (s_gpr c) (g_pend_tlb c) (u64 (n_checks c + 1)) 0 (mismatches c) (incorrect c) (s64 pc).

(** The cycle loop goes on or breaks out. *)
Inductive verdict := Continue | Break.
#[export] Instance verdict_eq_dec : EqDecision verdict.
Proof. solve_decision. Defined.

(** ** The TLB mirror *)
Definition tlb_wr_log (entry ehi elo0 elo1 pm : Z) (c : checker) : checker :=
  with_pend (g_pend_tlb c ++ [mk_pend_tlb entry (u64 ehi) (u64 elo0) (u64 elo1) (u32 (u32 pm << 13))]) c.

Section step.
Context `{Config, HostFP}.
Definition apply_pend (t : state) (p : pend_tlb_t) : state :=
  iss_apply_tlb_write (p_idx p) (p_ehi p) (p_elo0 p) (p_elo1 p) (p_pm p) t.
Definition iss_step (fuel : nat) (c : checker) : result checker :=
  let! t := execMips fuel (fold_left apply_pend (g_pend_tlb c) (ss c)) in
  Ok (c |> with_ss t |> with_pend []).
End step.

(** Random and Count are read at a different time by the core: adopt its value. *)
Definition adopt_timing_cp0 (insn : Z) (c : checker) : checker :=
  let op := insn >> 26 in let fmt := (insn >> 21) .& 31 in let rd := (insn >> 11) .& 31 in
  if (op =? 0x10) && ((fmt =? 0) || (fmt =? 1)) && ((rd =? 1) || (rd =? 9)) then
    let rt := (insn >> 16) .& 31 in
    with_ss (set_gpr_at rt (s_gpr c).[rt] (ss c)) c
  else c.

(** Count, Random and Cause.IP follow the core every cycle. *)
Definition sync_cp0 (tb : tb_t) (c : checker) : checker :=
  let t := ss c in
  let t := set_cpr0_at CPR0_COUNT (u32 (cp0_count tb)) t in
  let t := set_cpr0_at CPR0_RANDOM (u32 (cp0_random tb)) t in
  let ip := (u32 (cause_ip tb) .& 0xff) << 8 in
  let t := set_cpr0_at CPR0_CAUSE (((cpr0 t).[CPR0_CAUSE] .& .~ 0xff00) .| ip) t in
  let t := set_cpr0_64_at CPR0_CAUSE (((cpr0_64 t).[CPR0_CAUSE] .& .~ 0xff00) .| ip) t in
  with_ss t c.
Definition sync_irq (tb : tb_t) (c : checker) : checker :=
  if took_irq tb then with_ss (raise_int (u64 (epc tb)) (1 << 7) (ss c)) c else c.
Definition retire_reg (tb : tb_t) (c : checker) : checker :=
  if retire_reg_valid tb then with_s_gpr (wr (retire_reg_ptr tb) (s64 (retire_reg_data tb)) (s_gpr c)) c else c.
Definition retire_reg_two (tb : tb_t) (c : checker) : checker :=
  if retire_reg_two_valid tb then with_s_gpr (wr (retire_reg_two_ptr tb) (s64 (retire_reg_two_data tb)) (s_gpr c)) c else c.

(** The registers on which the two machines differ. *)
Definition wrong_regs (c : checker) : list Z :=
  filter (fun i => (gpr (ss c)).[i] <> (s_gpr c).[i]) (seqZ 0 32).

(** The vector areas. *)
Definition rtl_in_exc_handler (pc32 : Z) : bool :=
  ((0xbfc00180 <=? pc32) && (pc32 <? 0xbfc00400)) || ((0x80000000 <=? pc32) && (pc32 <? 0x80000200)).
Definition sim_in_user_code (pc32 : Z) : bool :=
  negb (((0xbfc00000 <=? pc32) && (pc32 <? 0xbfc00400)) || ((0x80000000 <=? pc32) && (pc32 <? 0x80000200))).
Definition is_break_or_syscall (inst : Z) : bool :=
  (inst >> 26 =? 0) && ((inst .& 63 =? 0x0C) || (inst .& 63 =? 0x0D)).

Section check.
Context `{Config, HostFP}.
Variable fuel : nat.
Implicit Types (c : checker) (tb : tb_t).
(** The pcs agree: step, then compare the registers unless control moved. *)
Definition check_match tb c : result (checker * verdict) :=
  let! c := iss_step fuel c in
  let! (insn, _) := iss_fetch_inst (ss c) (retire_pc tb) in
  let c := adopt_timing_cp0 insn c in
  if brk (ss c) =/? 0 then Ok (c, Break) else
  let wrong := if u32 (pc (ss c)) =? u32 (retire_pc tb + 4) then wrong_regs c else [] in
  match wrong with
  | [] => Ok (matched (retire_pc tb) c, Continue)
  | _ => Ok (flag_incorrect (Z.of_nat (length wrong)) c, Break)
  end.
(** The core entered an exception handler the interpreter has not reached. *)
Definition catch_up tb c : result (checker * option verdict) :=
  if rtl_in_exc_handler (u32 (retire_pc tb)) && sim_in_user_code (u32 (pc (ss c))) then
    let! c := iss_step fuel c in
    if brk (ss c) =/? 0 then Ok (c, Some Break)
    else if u32 (retire_pc tb) =? u32 (pc (ss c)) then
      let! c := iss_step fuel c in
      if brk (ss c) =/? 0 then Ok (c, Some Break)
      else Ok (matched (retire_pc tb) c, Some Continue)
    else Ok (c, None)
  else Ok (c, None).
(** The watchdog: three retirements in a row without a match. *)
Definition watchdog c : result (checker * verdict) :=
  let c := with_last_check (u64 (last_check c + 1)) c in
  let! w := get 4 (va2pa (u32 (pc (ss c)))) (ss c) in
  if is_break_or_syscall (bswap IS_LITTLE_ENDIAN 4 w) then Ok (c, Break)
  else if 2 <? last_check c then Ok (flag_incorrect 0 c, Break)
  else Ok (c, Continue).
Definition check_mismatch tb c : result (checker * verdict) :=
  let! (c, caught_up) := catch_up tb c in
  match caught_up with
  | Some v => Ok (c, v)
  | None => watchdog c
  end.
Definition check_retire tb c : result (checker * verdict) :=
  if negb (retire_valid tb) then Ok (c, Continue)
  else if got_bad_addr tb then Ok (c, Break)
  else if u32 (retire_pc tb) =? u32 (pc (ss c)) then check_match tb c
  else check_mismatch tb c.
Definition check_retire_two tb c : result (checker * verdict) :=
  if retire_two_valid tb then
    if u32 (retire_two_pc tb) =? u32 (pc (ss c)) then
      let! c := iss_step fuel c in
      let! (insn, _) := iss_fetch_inst (ss c) (retire_two_pc tb) in
      let c := adopt_timing_cp0 insn c in
      if brk (ss c) =/? 0 then Ok (c, Break) else Ok (matched (retire_two_pc tb) c, Continue)
    else Ok (c, Continue)
  else Ok (c, Continue).
(** One cycle of [main]'s loop, as far as the checker goes. *)
Definition cycle tb c : result (checker * verdict) :=
  let c := c |> retire_reg tb |> sync_cp0 tb |> sync_irq tb in
  let! (c, v) := check_retire tb c in
  match v with
  | Break => Ok (c, Break)
  | Continue => c |> retire_reg_two tb |> check_retire_two tb
  end.

(** What happens to the checker: a TLB write of the core, or a cycle. *)
Inductive event :=
  | EvTlbWrite (entry ehi elo0 elo1 pm : Z)
  | EvCycle (tb : tb_t).
Fixpoint run (l : list event) c : result (checker * verdict) :=
  match l with
  | [] => Ok (c, Continue)
  | EvTlbWrite entry ehi elo0 elo1 pm :: l => run l (tlb_wr_log entry ehi elo0 elo1 pm c)
  | EvCycle tb :: l =>
      let! (c, v) := cycle tb c in
      match v with Break => Ok (c, Break) | Continue => run l c end
  end.
End check.
