(* ===== verification/Frame.v ===== *)
(** The fields no instruction writes: the host-side switches and, under
    co-simulation, the architectural TLB.  [execMips] keeps them. *)
From S2P Require Import Prelude Bits Insns State Mem Wf Exc Tlb LoadStore Alu Fp Fpu Cp0 Branch Exec.

Create HintDb keeps discriminated.

(** The host switches and the TLB of a state. *)
Definition kept (s : state) : Zmap tlb_entry_t * bool * bool * bool * bool :=
  (tlb s, g_iss_tlb_ext s, g_iss_os_mode s, silent s, no_utlb s).
Definition keeps (s : state) (r : result state) : Prop := post (fun t => kept t = kept s) r.

(** * Theorems *)
Ltac kept_auto := repeat (cbn [post]; first [reflexivity | exact I | case_match]).
Section exceptions.
Context `{Config}.
Implicit Types (s : state).
Lemma kept_set_exc_pc s : kept (set_exc_pc s) = kept s.
Proof. unfold set_exc_pc. kept_auto. Qed.
Lemma kept_exception code s : kept (s |> set_exc_pc |> set_exccode code |> enter_exl |> goto_general) = kept s.
Proof. transitivity (kept (set_exc_pc s)); [done|apply kept_set_exc_pc]. Qed.
Lemma kept_raise_tlb va code b1 b2 s : kept (raise_tlb va code b1 b2 s) = kept s.
Proof.
  transitivity (kept (set_exc_pc (tlb_set_fault_state va s))); [done|]. by rewrite kept_set_exc_pc.
Qed.
Lemma kept_cpu ce s : kept (take_exception_cpu ce s) = kept s.
Proof. transitivity (kept (set_exc_pc s)); [done|apply kept_set_exc_pc]. Qed.
Lemma kept_fpe s : kept (take_exception_fpe s) = kept s.
Proof. transitivity (kept (set_exc_pc s)); [done|apply kept_set_exc_pc]. Qed.
Lemma kept_raise_ri inst s : kept (raise_ri inst s) = kept s.
Proof. exact (kept_exception 10 (emit (EvUnimplemented (inst >> 26) (inst .& 0x3f) (u32 (pc s))) s)). Qed.
Lemma kept_va_translate s va op : kept (va_translate s va op).2 = kept s.
Proof.
  unfold va_translate, cam_translate. cbv zeta.
  set (s1 := if is_load op then _ else s). assert (kept s1 = kept s) as <- by (unfold s1; by destruct (is_load op)).
  repeat case_match; cbn [snd]; try reflexivity; apply kept_raise_tlb.
Qed.
Lemma keeps_translated s va op k :
  (forall ea t, keeps t (k ea t)) -> keeps s (translated va op k s).
Proof.
  intros Hk. unfold translated. pose proof (kept_va_translate s va op) as Hv.
  destruct (va_translate s va op) as [ea t]. cbn [snd] in Hv. destruct (tlb_fault t); [done|].
  specialize (Hk ea t). unfold keeps in *. destruct (k ea t); [|done]. cbn in *. congruence.
Qed.
Lemma keeps_bind {A} s (m : result A) f : (forall a, keeps s (f a)) -> keeps s (m ≫= f).
Proof. intros Hf. by destruct m; cbn; [apply Hf|]. Qed.
Lemma keeps_put s n a v f : (forall m, keeps s (f (set_mem m s))) -> keeps s (put n a v s ≫= f).
Proof. intros Hf. unfold put. by destruct (mem_set n a v (mem s)); cbn; [apply Hf|]. Qed.
End exceptions.

(** Loads and stores. *)
Ltac keeps_ls :=
  repeat (intros; cbv beta zeta;
    match goal with
    | |- keeps _ (translated _ _ _ _) => apply keeps_translated
    | |- keeps _ (put _ _ _ _ ≫= _) => apply keeps_put
    | |- keeps _ (get _ _ _ ≫= _) => apply keeps_bind
    | |- keeps _ (Ok (raise_adel _)) => exact (kept_exception 4 _)
    | |- keeps _ (Ok (raise_ades _)) => exact (kept_exception 5 _)
    | |- keeps _ (Ok (take_exception_ri _)) => exact (kept_exception 10 _)
    | |- keeps _ (Ok _) => reflexivity
    | |- keeps _ (if ?c then _ else _) => destruct c
    end).
Section memory.
Context `{Config}.
Variable EL : bool.
Implicit Types (s : state) (inst : Z).
Lemma keeps_lw inst s : keeps s (_lw EL inst s).
Proof. unfold _lw. keeps_ls. Qed.
Lemma keeps_lh inst s : keeps s (_lh EL inst s).
Proof. unfold _lh. keeps_ls. Qed.
Lemma keeps_lb inst s : keeps s (_lb inst s).
Proof. unfold _lb. keeps_ls. Qed.
Lemma keeps_lbu inst s : keeps s (_lbu inst s).
Proof. unfold _lbu. keeps_ls. Qed.
Lemma keeps_lhu inst s : keeps s (_lhu EL inst s).
Proof. unfold _lhu. keeps_ls. Qed.
Lemma keeps_lwu inst s : keeps s (_lwu EL inst s).
Proof. unfold _lwu. keeps_ls. Qed.
Lemma keeps_ld inst s : keeps s (_ld EL inst s).
Proof. unfold _ld. keeps_ls. Qed.
Lemma keeps_lld inst s : keeps s (_lld EL inst s).
Proof. unfold _lld. keeps_ls. Qed.
Lemma keeps_lwl inst s : keeps s (_lwl EL inst s).
Proof. unfold _lwl. keeps_ls. Qed.
Lemma keeps_lwr inst s : keeps s (_lwr EL inst s).
Proof. unfold _lwr. keeps_ls. Qed.
Lemma keeps_ldl inst s : keeps s (_ldl EL inst s).
Proof. unfold _ldl. keeps_ls. Qed.
Lemma keeps_ldr inst s : keeps s (_ldr EL inst s).
Proof. unfold _ldr. keeps_ls. Qed.
Lemma keeps_ldc1 inst s : keeps s (_ldc1 EL inst s).
Proof. unfold _ldc1. keeps_ls. Qed.
Lemma keeps_cache inst s : keeps s (_cache inst s).
Proof. unfold _cache. keeps_ls. Qed.
Lemma kept_write_fpr_word r w s : kept (write_fpr_word r w s) = kept s.
Proof. unfold write_fpr_word. kept_auto. Qed.
Lemma keeps_lwc1 inst s : keeps s (_lwc1 EL inst s).
Proof. unfold _lwc1. apply keeps_translated. intros. apply keeps_bind. intros. apply kept_write_fpr_word. Qed.
Lemma keeps_sw inst s : keeps s (_sw EL inst s).
Proof. unfold _sw. keeps_ls. Qed.
Lemma keeps_sd inst s : keeps s (_sd EL inst s).
Proof. unfold _sd. keeps_ls. Qed.
Lemma keeps_sh inst s : keeps s (_sh EL inst s).
Proof. unfold _sh. keeps_ls. Qed.
Lemma keeps_sb inst s : keeps s (_sb inst s).
Proof. unfold _sb. keeps_ls. Qed.
Lemma keeps_swl inst s : keeps s (_swl EL inst s).
Proof. unfold _swl. keeps_ls. Qed.
Lemma keeps_swr inst s : keeps s (_swr EL inst s).
Proof. unfold _swr. keeps_ls. Qed.
Lemma keeps_sdl inst s : keeps s (_sdl EL inst s).
Proof. unfold _sdl. keeps_ls. Qed.
Lemma keeps_sdr inst s : keeps s (_sdr EL inst s).
Proof. unfold _sdr. keeps_ls. Qed.
Lemma keeps_sdc1 inst s : keeps s (_sdc1 EL inst s).
Proof. unfold _sdc1. keeps_ls. Qed.
Lemma keeps_swc1 inst s : keeps s (_swc1 EL inst s).
Proof. unfold _swc1. keeps_ls. Qed.
Lemma keeps_sc inst s : keeps s (_sc EL inst s).
Proof. unfold _sc. apply keeps_translated. intros. cbv zeta. destruct (sc_ok ea t); [apply keeps_put; done|done]. Qed.
Lemma keeps_scd inst s : keeps s (_scd EL inst s).
Proof.
  unfold _scd. apply keeps_translated. intros. cbv zeta. destruct (negb _); [exact (kept_exception 5 _)|].
  destruct (sc_ok ea t); [apply keeps_put; done|done].
Qed.
End memory.

(** The rest of the dispatch. *)
Section dispatch.
Context `{Config, HostFP}.
Variable EL : bool.
Implicit Types (s : state) (inst : Z).
Lemma keeps_Ok s t : kept t = kept s -> keeps s (Ok t).
Proof. done. Qed.
Lemma keeps_Stop s w : keeps s (Stop w).
Proof. done. Qed.
Lemma keeps_trans s t r : kept t = kept s -> keeps t r -> keeps s r.
Proof. intros Ht. unfold keeps. destruct r; cbn; [congruence|done]. Qed.
#[local] Hint Constants Opaque : keeps.
#[local] Hint Resolve keeps_Ok keeps_Stop : keeps.
#[local] Hint Extern 9 (kept _ = kept _) => reflexivity : keeps.
Lemma kept_raise_overflow s : kept (raise_overflow s) = kept s.
Proof. exact (kept_exception 12 s). Qed.
Lemma kept_trap_if c i s : kept (trap_if c i s) = kept s.
Proof. unfold trap_if. destruct c; [exact (kept_exception 13 s)|done]. Qed.
Lemma kept_tge inst s : kept (_tge inst s) = kept s.
Proof. apply kept_trap_if. Qed.
Lemma kept_tgeu inst s : kept (_tgeu inst s) = kept s.
Proof. apply kept_trap_if. Qed.
Lemma kept_tlt inst s : kept (_tlt inst s) = kept s.
Proof. apply kept_trap_if. Qed.
Lemma kept_tltu inst s : kept (_tltu inst s) = kept s.
Proof. apply kept_trap_if. Qed.
Lemma kept_teq inst s : kept (_teq inst s) = kept s.
Proof. apply kept_trap_if. Qed.
Lemma kept_tne inst s : kept (_tne inst s) = kept s.
Proof. apply kept_trap_if. Qed.
Lemma kept_trap_imm inst s : kept (trap_imm inst s) = kept s.
Proof.
  assert (forall c i, kept (trap_imm_if c i s) = kept s) as Ht.
  { intros c i. unfold trap_imm_if. destruct c; [exact (kept_exception 13 (histo i s))|done]. }
  unfold trap_imm. repeat case_match; auto.
Qed.
Lemma kept_syscall inst s : kept (_syscall_break inst s) = kept s.
Proof.
  unfold _syscall_break. cbv zeta. destruct (g_iss_os_mode s); [exact (kept_exception (if inst .& 63 =? 0x0C then 8 else 9) s)|]. kept_auto.
Qed.
Lemma kept_mips4_gate inst k s : (forall t, kept (k t) = kept t) -> kept (mips4_gate inst k s) = kept s.
Proof. intros Hk. unfold mips4_gate. case_match; [apply kept_raise_ri|apply Hk]. Qed.
Lemma kept_mips4 inst s :
  kept (_movci inst s) = kept s /\ kept (_movn inst s) = kept s /\ kept (_movz inst s) = kept s.
Proof. unfold _movci. split_and!; kept_auto. Qed.
(** The trapping arithmetic; the other integer handlers only write registers. *)
Lemma kept_add inst s : kept (_add inst s) = kept s.
Proof. unfold _add. cbv zeta. repeat case_match; (reflexivity || apply kept_raise_overflow). Qed.
Lemma kept_sub inst s : kept (_sub inst s) = kept s.
Proof. unfold _sub. cbv zeta. repeat case_match; (reflexivity || apply kept_raise_overflow). Qed.
Lemma kept_dadd inst s : kept (_dadd inst s) = kept s.
Proof. unfold _dadd. cbv zeta. repeat case_match; (reflexivity || apply kept_raise_overflow). Qed.
Lemma kept_dsub inst s : kept (_dsub inst s) = kept s.
Proof. unfold _dsub. cbv zeta. repeat case_match; (reflexivity || apply kept_raise_overflow). Qed.
Lemma kept_addi inst s : kept (_addi inst s) = kept s.
Proof. unfold _addi. cbv zeta. repeat case_match; (reflexivity || apply kept_raise_overflow). Qed.
Lemma kept_daddi inst s : kept (_daddi inst s) = kept s.
Proof. unfold _daddi. cbv zeta. repeat case_match; (reflexivity || apply kept_raise_overflow). Qed.
Lemma kept_div inst s : kept (_div inst s) = kept s.
Proof. unfold _div. cbv zeta. repeat case_match; (reflexivity || apply kept_raise_overflow). Qed.
Lemma kept_ddiv inst s : kept (_ddiv inst s) = kept s.
Proof. unfold _ddiv. cbv zeta. repeat case_match; (reflexivity || apply kept_raise_overflow). Qed.
Lemma kept_ddivu inst s : kept (_ddivu inst s) = kept s.
Proof. unfold _ddivu. cbv zeta. repeat case_match; (reflexivity || apply kept_raise_overflow). Qed.
Lemma kept_or inst s : kept (_or inst s) = kept s.
Proof. unfold _or. cbv zeta. repeat case_match; (reflexivity || apply kept_raise_overflow). Qed.
Lemma keeps_divu inst s : keeps s (_divu inst s).
Proof. unfold _divu. repeat case_match; done. Qed.
Lemma kept_tlb_ops s :
  g_iss_tlb_ext s = true ->
  kept (tlbr s) = kept s /\ kept (tlbwi s) = kept s /\ kept (tlbwr s) = kept s /\ kept (tlbp s) = kept s.
Proof.
  intros Hx. split_and!.
  - unfold tlbr. cbv zeta. by destruct (_ <? _).
  - unfold tlbwi, write_staged. by rewrite Hx.
  - unfold tlbwr, write_staged. rewrite Hx. cbn [negb andb].
    change (g_iss_tlb_ext (utlb_flush s)) with (g_iss_tlb_ext s). by rewrite Hx.
  - unfold tlbp. cbv zeta. by destruct (first_from _ _ _).
Qed.
Lemma kept_cp0_moves inst s :
  kept (eret s) = kept s /\ kept (_di inst s) = kept s /\ kept (_ei inst s) = kept s /\
  kept (_mfc0 inst s) = kept s /\ kept (_dmfc0 inst s) = kept s /\ kept (_mtc0 inst s) = kept s /\
  kept (_dmtc0 inst s) = kept s.
Proof.
  assert (forall t, kept (putchar_port inst t) = kept t) as Hp by (intros t; unfold putchar_port; by destruct (_ && _)).
  split_and!; try done.
  - unfold eret. cbv zeta. by destruct (sr_bit _ _).
  - unfold _di. cbv zeta. by destruct (negb _).
  - unfold _ei. cbv zeta. by destruct (negb _).
  - unfold _mfc0. cbv zeta. by destruct (_ =? 7).
  - unfold _mtc0. cbv zeta. destruct (cp0_writable _); transitivity (kept (putchar_port inst s)); try apply Hp;
      unfold putchar_port; by destruct (_ && _).
  - unfold _dmtc0. cbv zeta. destruct (cp0_writable _); transitivity (kept (putchar_port inst s)); try apply Hp;
      unfold putchar_port; by destruct (_ && _).
Qed.
Lemma keeps_cop0 inst s : g_iss_tlb_ext s = true -> keeps s (execCoproc0 inst s).
Proof.
  intros Hx. assert (forall t, kept t = kept s -> keeps s (Ok (add_pc 4 t))) as Hok by done.
  destruct (kept_tlb_ops s Hx) as (?&?&?&?). destruct (kept_cp0_moves inst s) as (?&?&?&?&?&?&?).
  unfold execCoproc0. destruct (negb _).
  - unfold exec_cop0_co, wait. repeat case_match; cbn [mbind result_bind]; try done; by apply Hok.
  - repeat (destruct (_ && _); [by apply Hok|]). unfold exec_cop0_move.
    repeat case_match; cbn [mbind result_bind]; try done; by apply Hok.
Qed.
(** Floating point. *)
Lemma kept_write_T T r v s : kept (write_T T r v s) = kept s.
Proof. by destruct T. Qed.
Lemma kept_setConditionCode v cc s : kept (setConditionCode v cc s) = kept s.
Proof. unfold setConditionCode. cbv zeta. by destruct (negb _). Qed.
Lemma kept_ctc1 inst s : kept (_ctc1 inst s) = kept s.
Proof. unfold _ctc1. cbv zeta. by repeat case_match. Qed.
Lemma kept_mtc1 inst s : kept (_mtc1 inst s) = kept s.
Proof. transitivity (kept (write_fpr_word (f_fs inst) (u32 (r_rt inst s)) s)); [done|apply kept_write_fpr_word]. Qed.
Lemma kept_cop1_move inst s : kept (exec_cop1_move inst s) = kept s.
Proof. unfold exec_cop1_move. repeat case_match; (reflexivity || apply kept_mtc1 || apply kept_ctc1). Qed.
Lemma kept_fmov inst s : kept (_movcd inst s) = kept s /\ kept (_movcs inst s) = kept s.
Proof. unfold _movcd, _movcs. cbv zeta. split; by repeat case_match. Qed.
Lemma keeps_by_fmt inst f g s : kept (f s) = kept s -> kept (g s) = kept s -> keeps s (by_fmt inst f g s).
Proof. intros. unfold by_fmt. by repeat case_match. Qed.
Lemma kept_fpCmp T inst s : kept (fpCmp T inst s) = kept s.
Proof. exact (kept_setConditionCode _ _ s). Qed.
Lemma keeps_do_fp_op op inst s : keeps s (do_fp_op op inst s).
Proof.
  assert (forall T, keeps s (execFP T op inst s ≫= (fun s => Ok (set_fp_state T (f_fd inst) s)))) as Hx.
  { intros T. unfold execFP. destruct (fp_compute _ _ _ _) as [[v i]|]; [|done]. exact (kept_write_T T (f_fd inst) v s). }
  unfold do_fp_op. repeat case_match; try done; apply Hx.
Qed.
Lemma keeps_truncw inst s : keeps s (_truncw inst s).
Proof. unfold _truncw. cbv zeta. by repeat case_match. Qed.
Lemma keeps_cvts inst s : keeps s (_cvts inst s).
Proof. unfold _cvts. cbv zeta. by repeat case_match. Qed.
Lemma keeps_cvtd inst s : keeps s (_cvtd inst s).
Proof. unfold _cvtd. cbv zeta. by repeat case_match. Qed.
Lemma keeps_fmovc inst s : keeps s (_fmovc inst s).
Proof.
  unfold _fmovc. destruct (kept_fmov inst s) as [Hd Hs]. apply keeps_by_fmt; [exact Hs|exact Hd].
Qed.
Lemma keeps_fmovn inst s : keeps s (_fmovn inst s).
Proof. unfold _fmovn. apply keeps_by_fmt; reflexivity. Qed.
Lemma keeps_fmovz inst s : keeps s (_fmovz inst s).
Proof. unfold _fmovz. apply keeps_by_fmt; reflexivity. Qed.
Lemma keeps_c inst s : keeps s (_c inst s).
Proof. unfold _c. apply keeps_by_fmt; apply kept_fpCmp. Qed.
#[local] Hint Resolve keeps_do_fp_op kept_fpe keeps_truncw keeps_cvts keeps_cvtd keeps_fmovc keeps_fmovn
  keeps_fmovz keeps_c : keeps.
#[local] Hint Extern 1 (kept (take_exception_ri ?s) = _) => exact (kept_exception 10 s) : keeps.
Lemma keeps_cop1_op inst s : keeps s (exec_cop1_op inst s).
Proof. unfold exec_cop1_op. cbv zeta. repeat case_match; auto with keeps. Qed.
Lemma kept_c1x_arith inst s : kept (c1x_arith inst s) = kept s.
Proof.
  assert (forall T, kept (c1x_madd T inst s) = kept s) as Hm by (intros T; apply kept_write_T).
  unfold c1x_arith. cbv zeta. case_match; [exact (kept_exception 10 s)|].
  case_match; [exact (Hm T_float)|exact (Hm T_double)].
Qed.
Lemma keeps_coproc1x inst s : keeps s (execCoproc1x EL inst s).
Proof.
  unfold execCoproc1x. cbv zeta.
  repeat case_match; try match goal with |- keeps _ (Ok (c1x_arith _ _)) => exact (kept_c1x_arith inst s) end; keeps_ls.
  intros a. exact (kept_write_fpr_word _ _ t).
Qed.
End dispatch.
#[export] Hint Constants Opaque : keeps.
#[export] Hint Resolve keeps_Ok keeps_Stop kept_tge kept_tgeu kept_tlt kept_tltu kept_teq kept_tne kept_syscall kept_raise_ri keeps_divu keeps_cop0
  kept_cop1_move keeps_cop1_op keeps_coproc1x kept_trap_imm keeps_lwc1 keeps_sc keeps_scd
  kept_add kept_sub kept_dadd kept_dsub kept_addi kept_daddi kept_div kept_ddiv kept_ddivu kept_or
  keeps_lw keeps_lh keeps_lb keeps_lbu keeps_lhu keeps_lwu keeps_ld keeps_lld keeps_lwl keeps_lwr keeps_ldl keeps_ldr keeps_ldc1 keeps_cache keeps_sw keeps_sd keeps_sh keeps_sb keeps_swl keeps_swr keeps_sdl keeps_sdr keeps_sdc1 keeps_swc1 : keeps.
#[export] Hint Extern 9 (kept _ = kept _) => reflexivity : keeps.
#[export] Hint Extern 1 (kept (mips4_gate _ _ _) = _) => apply kept_mips4_gate; intros; apply kept_mips4 : keeps.

(** ** The recursion *)
Section recursion.
Context `{Config, HostFP}.
Variable EL : bool.
Variable step : state -> result state.
Hypothesis Hstep : forall s, g_iss_tlb_ext s = true -> keeps s (step s).
Implicit Types (s : state) (inst : Z).
Lemma kept_ext s t : kept t = kept s -> g_iss_tlb_ext s = true -> g_iss_tlb_ext t = true.
Proof. unfold kept. intros [=]. congruence. Qed.
Lemma keeps_run s s1 (k : bool -> state -> state) :
  g_iss_tlb_ext s = true -> kept s1 = kept s -> (forall b t, kept (k b t) = kept t) ->
  keeps s (let! (f, t) := run_delay_slot step s1 in Ok (k f t)).
Proof.
  intros Hx H1 Hk. unfold run_delay_slot.
  pose proof (Hstep (set_in_delay_slot true s1) (kept_ext s s1 H1 Hx)) as Hs. unfold keeps in *.
  destruct (step _) as [t|]; cbn [mbind result_bind post] in *; [|done]. rewrite Hk, <- H1. exact Hs.
Qed.
Lemma keeps_branch bt inst s : g_iss_tlb_ext s = true -> keeps s (branch step bt inst s).
Proof.
  intros Hx. cbv delta [branch]; cbv beta zeta. destruct (isLikely bt).
  - destruct (takeBranch bt inst s); [|by destruct (saveReturn bt)].
    apply keeps_run with (k := fun f t => if negb f then _ else t); [done|by destruct (saveReturn bt)|by intros []].
  - apply keeps_run with (k := fun f t => if _ && negb f then _ else if saveReturn bt then _ else t); [done|done|].
    intros b t. by destruct (_ && negb b), (saveReturn bt).
Qed.
Lemma keeps_jump_to a s s1 : g_iss_tlb_ext s = true -> kept s1 = kept s -> keeps s (jump_to step a s1).
Proof. intros. by apply keeps_run with (k := fun f t => if negb f then set_pc a t else t); [..|intros []]. Qed.
Lemma keeps_jr inst s : g_iss_tlb_ext s = true -> keeps s (_jr step inst s).
Proof.
  intros Hx. unfold _jr. pose proof (keeps_jump_to (r_rs inst s) s (add_pc 4 s) Hx eq_refl) as Hj.
  by destruct (jump_to _ _ _).
Qed.
Lemma keeps_jalr inst s : g_iss_tlb_ext s = true -> keeps s (_jalr step inst s).
Proof.
  intros Hx. unfold _jalr. cbv zeta. match goal with |- context [jump_to step ?a ?s1] =>
    pose proof (keeps_jump_to a s s1 Hx) as Hj end.
  specialize (Hj ltac:(by destruct (negb _))). by destruct (jump_to _ _ _).
Qed.
Lemma keeps_jtype inst s : g_iss_tlb_ext s = true -> keeps s (exec_jtype step inst s).
Proof. intros Hx. unfold exec_jtype. cbv zeta. apply keeps_jump_to; [done|by destruct (_ =? _)]. Qed.
Lemma keeps_rtype inst s : g_iss_tlb_ext s = true -> keeps s (exec_rtype step inst s).
Proof. intros Hx. unfold exec_rtype. repeat case_match; auto using keeps_jr, keeps_jalr with keeps. Qed.
Lemma keeps_regimm inst s : g_iss_tlb_ext s = true -> keeps s (_bgez_bltz step inst s).
Proof.
  intros Hx. unfold _bgez_bltz. repeat case_match; auto using keeps_branch with keeps.
Qed.
Lemma keeps_itype inst s : g_iss_tlb_ext s = true -> keeps s (exec_itype EL step inst s).
Proof. intros Hx. unfold exec_itype. repeat case_match; auto using keeps_branch, keeps_regimm with keeps. Qed.
Lemma keeps_exec_ll inst s : keeps s (exec_ll EL inst s).
Proof.
  unfold exec_ll. cbv zeta. set (l := s |> set_ll_link_valid true |> set_ll_link_addr _).
  case_match; apply (keeps_trans s l); try reflexivity; [apply keeps_lld|apply keeps_lw].
Qed.
Lemma keeps_exec_sc inst s : keeps s (exec_sc EL inst s).
Proof. unfold exec_sc. case_match; [apply keeps_scd|apply keeps_sc]. Qed.
Lemma keeps_dispatch inst s : g_iss_tlb_ext s = true -> keeps s (dispatch EL step inst s).
Proof.
  intros Hx. unfold dispatch, execCoproc1, exec_bc1.
  repeat case_match; auto using keeps_rtype, keeps_jtype, keeps_branch, keeps_itype, keeps_exec_ll, keeps_exec_sc with keeps.
Qed.
Lemma keeps_body s : g_iss_tlb_ext s = true -> keeps s (execMips_body EL step s).
Proof.
  intros Hx. unfold execMips_body. set (s0 := s |> set_gpr_at 0 0 |> set_tlb_fault false).
  pose proof (kept_va_translate s0 (pc s0) op_fetch) as Hv. destruct (va_translate _ _ _) as [ipa t]. cbn [snd] in Hv.
  change (kept s0) with (kept s) in Hv. destruct (tlb_fault t); [done|]. apply keeps_bind. intros w.
  apply (keeps_trans s t); [done|]. assert (g_iss_tlb_ext t = true) as Hxt by (by eapply kept_ext).
  unfold exec_inst. cbv zeta. set (t1 := set_icnt _ t). destruct (_ && _); [exact (kept_exception 10 t1)|].
  destruct (_ && _); [exact (kept_cpu 1 t1)|].
  assert (forall i u, kept (break_link i u) = kept u) as Hb by (intros; unfold break_link; by repeat case_match).
  assert (forall i u, kept (log_store i u) = kept u) as Hl by (intros; unfold log_store; by repeat case_match).
  match goal with |- keeps t (dispatch _ _ _ ?u) => assert (kept u = kept t) as Hu by (by rewrite Hl, Hb) end.
  eapply keeps_trans; [exact Hu|]. apply keeps_dispatch. by eapply kept_ext.
Qed.
End recursion.
Lemma keeps_execMips `{Config, HostFP} fuel s : g_iss_tlb_ext s = true -> keeps s (execMips fuel s).
Proof.
  unfold execMips. revert s; induction fuel as [|n IH]; intros s Hx; cbn [execMips_fuel]; [done|].
  by apply keeps_body.
Qed.
