(* ===== verification/CosimProps.v ===== *)
(** Properties of the lockstep checker ([src/top.cc]): the invariant of a whole
    co-simulation, the TLB mirror, exact detection of register divergence, the
    desynchronisation watchdog and the interrupt synchronisation. *)
From S2P Require Import Prelude Bits Insns State Mem Wf Exc Tlb LoadStore Alu Fp Fpu Cp0 Branch Exec Arch Utlb NonInterf ExcProps ExecProps Decode Cosim Frame.

(** The ports of the core have their widths. *)
Definition tb_ok (tb : tb_t) : Prop := 0 <= retire_reg_ptr tb < 32 /\ 0 <= retire_reg_two_ptr tb < 32.
Definition event_ok (e : event) : Prop := match e with EvCycle tb => tb_ok tb | EvTlbWrite _ _ _ _ _ => True end.
Definition pend_ok (p : pend_tlb_t) : Prop :=
  in_u 64 (p_ehi p) /\ in_u 64 (p_elo0 p) /\ in_u 64 (p_elo1 p) /\ in_u 32 (p_pm p).
(** The typed part of the invariant, and the invariant between cycles. *)
Definition typed `{Config} (c : checker) : Prop :=
  wf (ss c) /\ coherent (ss c) /\ arr_ok 32 (in_s 64) (s_gpr c) /\ Forall pend_ok (g_pend_tlb c).
Definition steady `{Config} (c : checker) : Prop :=
  typed c /\ incorrect c = false /\ 0 <= last_check c <= 2.
(** What the core's writes, in program order, make of a TLB. *)
Definition rtl_write `{Config} (T : Zmap tlb_entry_t) (e : event) : Zmap tlb_entry_t :=
  match e with
  | EvTlbWrite entry ehi elo0 elo1 pm =>
      if (0 <=? entry) && (entry <? NUM_TLB_ENTRIES)
      then wr entry (mk_tlb_entry (u64 ehi) (u64 elo0) (u64 elo1) (u32 (u32 pm << 13))) T else T
  | EvCycle _ => T
  end.
(** The state the next instruction of the interpreter executes in. *)
Definition next_state `{Config} (c : checker) : state := fold_left apply_pend (g_pend_tlb c) (ss c).

(** * Theorems *)
Section invariant.
Context `{Config, HostFP}.
Implicit Types (c : checker) (tb : tb_t) (s t : state).

Lemma apply_pend_ok p s : pend_ok p -> wf s -> coherent s -> wf (apply_pend s p) /\ coherent (apply_pend s p).
Proof.
  intros (?&?&?&?) Hw Hc. split; [by apply wf_iss_apply_tlb_write|].
  unfold apply_pend, iss_apply_tlb_write. destruct (_ || _); [done|apply coherent_flush].
Qed.
Lemma next_state_ok c : typed c -> wf (next_state c) /\ coherent (next_state c).
Proof.
  intros (Hw & Hc & _ & Hq). unfold next_state. revert Hw Hc. generalize (ss c).
  induction Hq as [|p q Hp Hq IH]; intros s Hw Hc; cbn; [done|].
  destruct (apply_pend_ok p s Hp Hw Hc). by apply IH.
Qed.
Lemma coherent_execMips fuel s : coherent s -> post coherent (execMips fuel s).
Proof.
  intros Hc. pose proof (rel_execMips_fuel IS_LITTLE_ENDIAN fuel s s (R_refl s Hc)) as Hr. unfold execMips.
  destruct (execMips_fuel _ _ _); [|done]. by destruct Hr.
Qed.
Lemma typed_with_ss t c : wf t -> coherent t -> typed c -> typed (with_ss t c).
Proof. by intros ?? (?&?&?&?). Qed.
(** A step of the checker's interpreter: the TLB queue is drained into it. *)
Definition stepped c c' : Prop :=
  typed c' /\ g_pend_tlb c' = [] /\ s_gpr c' = s_gpr c /\ incorrect c' = incorrect c /\ last_check c' = last_check c.
Lemma wf_execMips fuel s : wf s -> post wf (execMips fuel s).
Proof. apply wf_execMips_fuel. Qed.
#[local] Opaque execMips.
Lemma iss_step_ok fuel c : typed c -> post (stepped c) (iss_step fuel c).
Proof.
  intros Ht. destruct (next_state_ok c Ht) as [Hw Hc]. destruct Ht as (_&_&Hg&_). unfold iss_step. fold (next_state c).
  pose proof (wf_execMips fuel _ Hw) as H1. pose proof (coherent_execMips fuel _ Hc) as H2.
  by destruct (execMips fuel (next_state c)).
Qed.
Lemma typed_retire_reg tb c : tb_ok tb -> typed c -> typed (retire_reg tb c).
Proof.
  intros [? _] Hc. unfold retire_reg. destruct (retire_reg_valid tb); [|done]. destruct Hc as (?&?&?&?).
  split_and!; try done. apply arr_ok_wr; [done|rng|done].
Qed.
Lemma typed_retire_reg_two tb c : tb_ok tb -> typed c -> typed (retire_reg_two tb c).
Proof.
  intros [_ ?] Hc. unfold retire_reg_two. destruct (retire_reg_two_valid tb); [|done]. destruct Hc as (?&?&?&?).
  split_and!; try done. apply arr_ok_wr; [done|rng|done].
Qed.
Lemma typed_sync_cp0 tb c : typed c -> typed (sync_cp0 tb c).
Proof.
  intros Hc. unfold sync_cp0. cbv zeta. destruct Hc as (Hw&?&?&?). apply typed_with_ss; [|done|done].
  set (ip := _ << 8). assert (in_u 32 ip) as Hip by (subst ip; rng).
  assert (in_u 64 ip) as Hip' by (eapply (in_u_mono 32); done). clearbody ip.
  assert (forall v i s, in_u 32 v -> 0 <= i < 32 -> wf s -> wf (set_cpr0_at i v s)) as Hset by (intros; by apply wf_set_cpr0_at).
  set (t := set_cpr0_at CPR0_RANDOM _ _). assert (wf t) as Hwt by (repeat apply Hset; (done || rng)). clearbody t.
  assert (in_u 32 (((cpr0 t).[CPR0_CAUSE] .& .~ 65280) .| ip)) by (pose proof (wf_cpr0_rd t CPR0_CAUSE Hwt); rng).
  apply wf_set_cpr0_64_at; [done| |by apply Hset].
  pose proof (wf_cpr0_64_rd t CPR0_CAUSE Hwt). apply in_u_lor; [done|by apply in_u_land_l|done].
Qed.
Lemma typed_sync_irq tb c : typed c -> typed (sync_irq tb c).
Proof.
  intros Hc. unfold sync_irq. destruct (took_irq tb); [|done]. destruct Hc as (Hw&?&?&?).
  apply typed_with_ss; [apply wf_raise_int; [rng|done]|done|done].
Qed.
Lemma typed_adopt insn c : typed c -> typed (adopt_timing_cp0 insn c).
Proof.
  intros Hc. unfold adopt_timing_cp0. cbv zeta. destruct (_ && _); [|done]. pose proof Hc as (Hw&Hco&Hg&_).
  apply typed_with_ss; [|done|done]. apply wf_set_gpr_at; [apply land_31_range| |done].
  eapply arr_ok_rd; [rng|done].
Qed.
Lemma adopt_frame insn c :
  incorrect (adopt_timing_cp0 insn c) = incorrect c /\ last_check (adopt_timing_cp0 insn c) = last_check c.
Proof. unfold adopt_timing_cp0. cbv zeta. by destruct (_ && _). Qed.
(** The verdict of a check, from a steady checker. *)
Definition judged (r : checker * verdict) : Prop := typed r.1 /\ (r.2 = Continue -> steady r.1).
Lemma judged_matched pc c : typed c -> incorrect c = false -> judged (matched pc c, Continue).
Proof. intros Ht Hi. split; [done|]. intros _. by split_and!. Qed.
Lemma judged_break c : typed c -> judged (c, Break).
Proof. intros Ht. by split. Qed.
Lemma step_judged fuel c (k : checker -> result (checker * verdict)) :
  steady c -> (forall c', stepped c c' -> steady c' -> post judged (k c')) -> post judged (iss_step fuel c ≫= k).
Proof.
  intros (Ht&Hi&Hl) Hk. eapply post_bind; [by apply iss_step_ok|]. intros c' Hs. apply Hk; [done|].
  destruct Hs as (?&_&_&Hi'&Hl'). split_and!; try done; congruence || lia.
Qed.
Lemma check_match_judged fuel tb c : steady c -> post judged (check_match fuel tb c).
Proof.
  intros Hs. unfold check_match. apply step_judged; [done|]. intros c1 _ (Ht&Hi&Hl).
  apply (post_bind (fun _ : Z * Z => True) judged); [by destruct (iss_fetch_inst _ _)|]. intros [insn ?] _.
  cbv zeta. apply (typed_adopt insn) in Ht. rewrite <- (proj1 (adopt_frame insn c1)) in Hi.
  destruct (_ =/? 0); [by apply judged_break|].
  case_match; [by apply judged_matched|by apply judged_break].
Qed.
Lemma watchdog_judged c : steady c -> post judged (watchdog c).
Proof.
  intros (Ht&Hi&Hl). unfold watchdog. cbv zeta. set (d := with_last_check _ c).
  assert (last_check d = last_check c + 1) as Hl1 by (cbn; unfold wrapu; apply Z.mod_small; lia).
  assert (typed d) as Hd by done. assert (incorrect d = false) as Hid by done. clearbody d.
  apply (post_bind (fun _ : Z => True) judged); [by destruct (get _ _ _)|]. intros w _.
  destruct (is_break_or_syscall _); [by apply judged_break|].
  destruct (Z.ltb_spec 2 (last_check d)); [by apply judged_break|]. split; [done|]. intros _. by split_and!; [..|cbn; lia|cbn; lia].
Qed.
Lemma check_mismatch_judged fuel tb c : steady c -> post judged (check_mismatch fuel tb c).
Proof.
  intros Hs. unfold check_mismatch, catch_up. destruct (_ && _); cbn [mbind result_bind]; [|by apply watchdog_judged].
  rewrite result_bind_assoc. apply step_judged; [done|]. intros c1 _ H1.
  destruct (_ =/? 0); [by apply judged_break, H1|]. destruct (_ =? _); [|by apply watchdog_judged].
  rewrite result_bind_assoc. apply step_judged; [done|]. intros c2 _ (?&?&_).
  destruct (_ =/? 0); [by apply judged_break|by apply judged_matched].
Qed.
Lemma check_retire_judged fuel tb c : steady c -> post judged (check_retire fuel tb c).
Proof.
  intros Hs. pose proof Hs as (Ht&_). unfold check_retire. destruct (negb _); [done|]. destruct (got_bad_addr tb); [by apply judged_break|].
  destruct (_ =? _); [by apply check_match_judged|by apply check_mismatch_judged].
Qed.
Lemma check_retire_two_judged fuel tb c : steady c -> post judged (check_retire_two fuel tb c).
Proof.
  intros Hs. pose proof Hs as (Ht&_). unfold check_retire_two. destruct (retire_two_valid tb); [|by split].
  destruct (_ =? _); [|by split].
  apply step_judged; [done|]. intros c1 _ (Ht1&Hi&Hl).
  apply (post_bind (fun _ : Z * Z => True) judged); [by destruct (iss_fetch_inst _ _)|]. intros [insn ?] _.
  cbv zeta. apply (typed_adopt insn) in Ht1. rewrite <- (proj1 (adopt_frame insn c1)) in Hi.
  destruct (_ =/? 0); [by apply judged_break|by apply judged_matched].
Qed.
Lemma steady_sync tb c : tb_ok tb -> steady c -> steady (c |> retire_reg tb |> sync_cp0 tb |> sync_irq tb).
Proof.
  intros Htb (Ht&Hi&Hl). split; [by apply typed_sync_irq, typed_sync_cp0, typed_retire_reg|].
  unfold sync_irq, retire_reg. by destruct (took_irq tb), (retire_reg_valid tb).
Qed.
Lemma steady_retire_reg_two tb c : tb_ok tb -> steady c -> steady (retire_reg_two tb c).
Proof.
  intros Htb (Ht&Hi&Hl). split; [by apply typed_retire_reg_two|]. unfold retire_reg_two. by destruct (retire_reg_two_valid tb).
Qed.
Lemma cycle_judged fuel tb c : tb_ok tb -> steady c -> post judged (cycle fuel tb c).
Proof.
  intros Htb Hs. unfold cycle. eapply post_bind; [by apply check_retire_judged, steady_sync|]. intros [c1 v] [Ht Hv].
  cbn [fst snd] in *. destruct v; [|done]. apply check_retire_two_judged, steady_retire_reg_two; [done|by apply Hv].
Qed.
Lemma steady_tlb_wr_log entry ehi elo0 elo1 pm c : steady c -> steady (tlb_wr_log entry ehi elo0 elo1 pm c).
Proof.
  intros ((?&?&?&?)&?&?). split; [|done]. split_and!; [done..|]. apply Forall_app. split; [done|].
  apply Forall_singleton. unfold pend_ok; cbn; split_and!; rng.
Qed.
Lemma run_judged fuel l c : Forall event_ok l -> steady c -> post judged (run fuel l c).
Proof.
  intros Hl; revert c; induction Hl as [|e l He Hl IH]; intros c Hs; [by split; [apply Hs|]|].
  destruct e; cbn [run]; [by apply IH, steady_tlb_wr_log|].
  eapply post_bind; [by apply cycle_judged|]. intros [c1 v] [Ht Hv]. cbn [fst snd] in *. destruct v; [by apply IH, Hv|done].
Qed.
End invariant.

(** ** The TLB mirror *)
Section mirror.
Context `{Config, HostFP}.
Implicit Types (c d : checker) (tb : tb_t) (s t : state) (T : Zmap tlb_entry_t).
(** The core owns the TLB, and the next instruction will see [T]. *)
Definition mirrored T c : Prop := g_iss_tlb_ext (ss c) = true /\ tlb (next_state c) = T.
Lemma apply_pend_frame p s t :
  tlb s = tlb t -> tlb (apply_pend s p) = tlb (apply_pend t p) /\ g_iss_tlb_ext (apply_pend s p) = g_iss_tlb_ext s.
Proof.
  intros Ht. unfold apply_pend, iss_apply_tlb_write. destruct (_ || _); [done|]. cbn. by rewrite Ht.
Qed.
Lemma fold_apply_pend q s t :
  tlb s = tlb t -> tlb (fold_left apply_pend q s) = tlb (fold_left apply_pend q t) /\
  g_iss_tlb_ext (fold_left apply_pend q s) = g_iss_tlb_ext s.
Proof.
  revert s t; induction q as [|p q IH]; intros s t Ht; [done|]. cbn.
  destruct (apply_pend_frame p s t Ht) as [Hp <-]. by apply IH.
Qed.
Lemma mirrored_frame T c d :
  mirrored T c -> tlb (ss d) = tlb (ss c) -> g_iss_tlb_ext (ss d) = g_iss_tlb_ext (ss c) ->
  g_pend_tlb d = g_pend_tlb c -> mirrored T d.
Proof.
  intros [Hx <-] Ht He Hq. split; [congruence|]. unfold next_state. rewrite Hq. by apply fold_apply_pend.
Qed.
Lemma mirrored_sync T tb c : mirrored T c -> mirrored T (c |> retire_reg tb |> sync_cp0 tb |> sync_irq tb).
Proof.
  intros Hm. apply (mirrored_frame T c); [done|..]; unfold sync_irq, retire_reg; by destruct (took_irq tb), (retire_reg_valid tb).
Qed.
Lemma mirrored_reg_two T tb c : mirrored T c -> mirrored T (retire_reg_two tb c).
Proof. intros Hm. apply (mirrored_frame T c); [done|..]; unfold retire_reg_two; by destruct (retire_reg_two_valid tb). Qed.
Lemma mirrored_adopt T insn c : mirrored T c -> mirrored T (adopt_timing_cp0 insn c).
Proof.
  intros Hm. apply (mirrored_frame T c); [done|..]; unfold adopt_timing_cp0; cbv zeta; by destruct (_ && _).
Qed.
Lemma iss_step_mirrored T fuel c : mirrored T c -> post (fun d => mirrored T d /\ g_pend_tlb d = []) (iss_step fuel c).
Proof.
  intros [Hx <-]. unfold iss_step. fold (next_state c).
  assert (g_iss_tlb_ext (next_state c) = true) as Hxn by (by rewrite <- Hx; apply (proj2 (fold_apply_pend _ _ _ eq_refl))).
  pose proof (keeps_execMips fuel (next_state c) Hxn) as Hk. unfold keeps, kept in Hk.
  destruct (execMips fuel (next_state c)) as [t|]; [|done]. cbn in Hk. injection Hk as Ht He _ _ _.
  split; [|done]. split; [exact (eq_trans He Hxn)|exact Ht].
Qed.
Definition mirrors T (r : checker * verdict) : Prop := mirrored T r.1.
Lemma step_mirrors T fuel c (k : checker -> result (checker * verdict)) :
  mirrored T c -> (forall d, mirrored T d -> post (mirrors T) (k d)) -> post (mirrors T) (iss_step fuel c ≫= k).
Proof. intros Hm Hk. eapply post_bind; [by apply iss_step_mirrored|]. intros d [Hd _]. by apply Hk. Qed.
Lemma watchdog_mirrors T c : mirrored T c -> post (mirrors T) (watchdog c).
Proof.
  intros Hm. unfold watchdog. cbv zeta. set (d := with_last_check _ c). assert (mirrored T d) as Hd by done. clearbody d.
  apply (post_bind (fun _ : Z => True) (mirrors T)); [by destruct (get _ _ _)|]. intros w _.
  destruct (is_break_or_syscall _); [done|]. by destruct (2 <? _).
Qed.
Lemma check_retire_mirrors T fuel tb c : mirrored T c -> post (mirrors T) (check_retire fuel tb c).
Proof.
  intros Hm. unfold check_retire. destruct (negb _); [done|]. destruct (got_bad_addr tb); [done|].
  destruct (_ =? _).
  - unfold check_match. apply step_mirrors; [done|]. intros d Hd.
    apply (post_bind (fun _ : Z * Z => True) (mirrors T)); [by destruct (iss_fetch_inst _ _)|]. intros [insn ?] _.
    cbv zeta. apply (mirrored_adopt T insn) in Hd. destruct (_ =/? 0); [done|]. by case_match.
  - unfold check_mismatch, catch_up. destruct (_ && _); cbn [mbind result_bind]; [|by apply watchdog_mirrors].
    rewrite result_bind_assoc. apply step_mirrors; [done|]. intros d Hd.
    destruct (_ =/? 0); [done|]. destruct (_ =? _); [|by apply watchdog_mirrors].
    rewrite result_bind_assoc. apply step_mirrors; [done|]. intros e He. by destruct (_ =/? 0).
Qed.
Lemma check_retire_two_mirrors T fuel tb c : mirrored T c -> post (mirrors T) (check_retire_two fuel tb c).
Proof.
  intros Hm. unfold check_retire_two. destruct (retire_two_valid tb); [|done]. destruct (_ =? _); [|done].
  apply step_mirrors; [done|]. intros d Hd.
  apply (post_bind (fun _ : Z * Z => True) (mirrors T)); [by destruct (iss_fetch_inst _ _)|]. intros [insn ?] _.
  cbv zeta. apply (mirrored_adopt T insn) in Hd. by destruct (_ =/? 0).
Qed.
Lemma cycle_mirrors T fuel tb c : mirrored T c -> post (mirrors T) (cycle fuel tb c).
Proof.
  intros Hm. unfold cycle. eapply post_bind; [by apply check_retire_mirrors, mirrored_sync|]. intros [d v] Hd.
  destruct v; [|done]. by apply check_retire_two_mirrors, mirrored_reg_two.
Qed.
Lemma tlb_wr_log_mirrored T entry ehi elo0 elo1 pm c :
  mirrored T c -> mirrored (rtl_write T (EvTlbWrite entry ehi elo0 elo1 pm)) (tlb_wr_log entry ehi elo0 elo1 pm c).
Proof.
  intros [Hx <-]. split; [done|]. unfold next_state. cbn [tlb_wr_log with_pend g_pend_tlb ss].
  rewrite fold_left_app. cbn [fold_left]. unfold apply_pend at 1, iss_apply_tlb_write, rtl_write.
  cbn [p_idx p_ehi p_elo0 p_elo1 p_pm].
  destruct (Z.ltb_spec entry 0), (Z.leb_spec NUM_TLB_ENTRIES entry), (Z.leb_spec 0 entry), (Z.ltb_spec entry NUM_TLB_ENTRIES);
    try lia; done.
Qed.
(** The run has handled a prefix of the events, all of them when it goes on. *)
Definition run_mirrors T (l : list event) (r : checker * verdict) : Prop :=
  exists l1 l2, l = l1 ++ l2 /\ mirrored (fold_left rtl_write l1 T) r.1 /\ (r.2 = Continue -> l2 = []).
Lemma run_mirrors_cons T e l r : run_mirrors (rtl_write T e) l r -> run_mirrors T (e :: l) r.
Proof. intros (l1&l2&->&?&?). by exists (e :: l1), l2. Qed.
Lemma run_mirrored T fuel l c : mirrored T c -> post (run_mirrors T l) (run fuel l c).
Proof.
  revert T c; induction l as [|e l IH]; intros T c Hm; [by exists [], []|].
  assert (forall d, mirrored (rtl_write T e) d -> post (run_mirrors T (e :: l)) (run fuel l d)) as Hcons.
  { intros d Hd. specialize (IH _ d Hd). destruct (run fuel l d); [by apply run_mirrors_cons|done]. }
  destruct e; cbn [run]; [by apply Hcons, tlb_wr_log_mirrored|].
  eapply post_bind; [by apply (cycle_mirrors T)|]. intros [d v] Hd. destruct v; [by apply Hcons|].
  by exists [EvCycle tb], l.
Qed.
End mirror.

(** The invariant of a co-simulation.  From a steady checker (a typed state
    with a coherent micro-TLB, no divergence recorded, at most two unmatched
    retirements), any sequence of TLB writes and cycles of a core whose ports have
    their widths leaves the checker typed and coherent; whenever the loop goes on,
    no divergence is recorded and the desynchronisation count is still below 3. *)
Theorem cosim_invariant `{Config, HostFP} (fuel : nat) (l : list event) (c : checker)
    (Hl : Forall event_ok l) (Hc : steady c) :
  post (fun r => typed r.1 /\ (r.2 = Continue -> incorrect r.1 = false /\ 0 <= last_check r.1 <= 2)) (run fuel l c).
Proof.
  pose proof (run_judged fuel l c Hl Hc) as Hr. destruct (run fuel l c) as [[c' v]|]; [|done].
  destruct Hr as [Ht Hv]. split; [done|]. intros Hcont. by destruct (Hv Hcont) as (_&?&?).
Qed.

(** A freshly reset machine at the start of kseg1, whose core owns the TLB, and a
    cycle of the core that retires the instruction at [pc]. *)
Definition kseg1_pc : Z := - 0x60000000.
Definition boot_checker : checker :=
  mk_checker (set_g_iss_tlb_ext true (set_pc kseg1_pc boot_state)) ∅ [] 0 0 0 false 0.
Definition retiring (pc : Z) : tb_t :=
  mk_tb false 0 0 false 0 0 true pc false 0 1 47 0 false 0 false.
Definition boot_events : list event := [EvTlbWrite 3 0x2000 0x1a 0x5a 0; EvCycle (retiring kseg1_pc)].
Lemma wf_boot_state : @wf r4400_config boot_state.
Proof. apply wf_initState, wf_state_init, map_Forall_empty. Qed.
Lemma cosim_invariant_witness :
  post (fun r => @typed r4400_config r.1 /\ (r.2 = Continue -> incorrect r.1 = false /\ 0 <= last_check r.1 <= 2))
    (@run r4400_config indefinite_host 3 boot_events boot_checker).
Proof.
  apply (@cosim_invariant r4400_config indefinite_host).
  - repeat constructor; done.
  - split; [|done]. split_and!; [|apply coh_empty|apply arr_ok_empty|constructor].
    destruct wf_boot_state. by constructor; try done; unfold in_s; cbn; unfold kseg1_pc; lia.
Defined.

(** C25. The TLB mirror is lossless.  When the core owns the TLB
    ([g_iss_tlb_ext]), no instruction of the interpreter, no interrupt and no
    synchronisation changes it: after any sequence of events the TLB the next
    instruction of the interpreter will see is the initial one with exactly the
    core's in-range TLB writes applied in the order they were logged (all those of
    the sequence when the loop goes on, those of a prefix when it broke out). *)
Theorem tlb_mirror `{Config, HostFP} (fuel : nat) (l : list event) (c : checker) (Hx : g_iss_tlb_ext (ss c) = true) :
  post (fun r => g_iss_tlb_ext (ss r.1) = true /\
      exists l1 l2, l = l1 ++ l2 /\ (r.2 = Continue -> l2 = []) /\
        tlb (next_state r.1) = fold_left rtl_write l1 (tlb (next_state c))) (run fuel l c).
Proof.
  assert (mirrored (tlb (next_state c)) c) as Hm by done.
  pose proof (run_mirrored _ fuel l c Hm) as Hr. destruct (run fuel l c) as [r|]; [|done].
  destruct Hr as (l1&l2&Hl&[Hx' HT]&Hc). split; [done|]. by exists l1, l2.
Qed.
Lemma tlb_mirror_witness :
  post (fun r => g_iss_tlb_ext (ss r.1) = true /\
      exists l1 l2, boot_events = l1 ++ l2 /\ (r.2 = Continue -> l2 = []) /\
        tlb (@next_state r4400_config r.1) =
        fold_left (@rtl_write r4400_config) l1 (tlb (@next_state r4400_config boot_checker)))
    (@run r4400_config indefinite_host 3 boot_events boot_checker).
Proof. apply (@tlb_mirror r4400_config indefinite_host). reflexivity. Defined.

(** ** Detection *)
Lemma wrong_regs_nil c : wrong_regs c = [] <-> forall i, 0 <= i < 32 -> (gpr (ss c)).[i] = (s_gpr c).[i].
Proof.
  split.
  - intros Hn i Hi. destruct (decide ((gpr (ss c)).[i] = (s_gpr c).[i])) as [|Hne]; [done|].
    exfalso. apply (filter_nil_not_elem_of _ _ i Hn Hne), elem_of_seqZ. lia.
  - intros He. apply elem_of_nil_inv. intros i [Hne Hi%elem_of_seqZ]%list_elem_of_filter. apply Hne, He. lia.
Qed.
Lemma wrong_regs_length c : (length (wrong_regs c) <= 32)%nat.
Proof. unfold wrong_regs. etransitivity; [apply length_filter|done]. Qed.

(** C23. Divergence is detected exactly.  The core retires an instruction at the
    interpreter's pc and the interpreter steps over it, no BREAK or SYSCALL having
    halted it: the loop goes on, recording a match and nothing else, exactly when
    control moved elsewhere than to the next instruction or all thirty-two
    registers of the two machines agree; otherwise it stops with the run marked
    incorrect and the mismatch counter raised by the number of differing
    registers. *)
Theorem divergence_exact `{Config, HostFP} (fuel : nat) (tb : tb_t) (c c1 : checker) (insn pa : Z)
    (Hv : retire_valid tb = true) (Hb : got_bad_addr tb = false)
    (Hpc : u32 (retire_pc tb) = u32 (pc (ss c)))
    (Hstep : iss_step fuel c = Ok c1) (Hf : iss_fetch_inst (ss c1) (retire_pc tb) = Ok (insn, pa))
    (Hbrk : brk (ss (adopt_timing_cp0 insn c1)) = 0) :
  let d := adopt_timing_cp0 insn c1 in
  let agree := forall i, 0 <= i < 32 -> (gpr (ss d)).[i] = (s_gpr d).[i] in
  exists r, check_retire fuel tb c = Ok r /\
    (r.2 = Continue <-> (u32 (pc (ss d)) = u32 (retire_pc tb + 4) -> agree)) /\
    (r.2 = Continue -> r.1 = matched (retire_pc tb) d) /\
    (r.2 = Break -> exists n, 0 < n <= 32 /\ r.1 = flag_incorrect n d).
Proof.
  cbv zeta. unfold check_retire. rewrite Hv, Hb. cbn [negb]. rewrite (proj2 (Z.eqb_eq _ _) Hpc).
  unfold check_match. rewrite Hstep. cbn [mbind result_bind]. rewrite Hf. cbn [mbind result_bind]. cbv zeta.
  set (d := adopt_timing_cp0 insn c1) in *. rewrite Hbrk. cbn [Z.eqb negb]. pose proof (wrong_regs_nil d) as Hnil.
  pose proof (wrong_regs_length d) as Hlen. destruct (Z.eqb_spec (u32 (pc (ss d))) (u32 (retire_pc tb + 4))) as [Hn|Hn].
  - destruct (wrong_regs d) as [|i w]; eexists; (split; [reflexivity|]); split_and!; try done.
    + split; [intros _ _; by apply Hnil|done].
    + split; [done|]. intros Hc. specialize (Hc Hn). by apply Hnil in Hc.
    + intros _. exists (Z.of_nat (length (i :: w))). split; [cbn [length] in *; lia|done].
  - eexists. split; [reflexivity|]. by split_and!.
Qed.

(** ** The watchdog *)
(** A retirement the interpreter, stopped at [pc0], does not account for. *)
Definition unmatched (pc0 : Z) (tb : tb_t) : Prop :=
  retire_valid tb = true /\ got_bad_addr tb = false /\ took_irq tb = false /\
  u32 (retire_pc tb) <> u32 pc0 /\
  rtl_in_exc_handler (u32 (retire_pc tb)) && sim_in_user_code (u32 pc0) = false /\
  (retire_two_valid tb = true -> u32 (retire_two_pc tb) <> u32 pc0).
Section watchdog.
Context `{Config, HostFP}.
Implicit Types (c d : checker) (tb : tb_t).
(** The interpreter stands still: same pc, same memory. *)
Definition stands c d : Prop :=
  pc (ss d) = pc (ss c) /\ mem (ss d) = mem (ss c) /\ incorrect d = incorrect c.
Lemma stands_sync tb c : took_irq tb = false -> stands c (c |> retire_reg tb |> sync_cp0 tb |> sync_irq tb).
Proof. intros Ht. unfold sync_irq, retire_reg. rewrite Ht. by destruct (retire_reg_valid tb). Qed.
Lemma last_check_sync tb c : last_check (c |> retire_reg tb |> sync_cp0 tb |> sync_irq tb) = last_check c.
Proof. unfold sync_irq, retire_reg. by destruct (took_irq tb), (retire_reg_valid tb). Qed.
(** The word at the interpreter's pc, and that it is neither BREAK nor SYSCALL. *)
Definition pending_word (w : Z) c : Prop :=
  get 4 (va2pa (u32 (pc (ss c)))) (ss c) = Ok w /\ is_break_or_syscall (bswap IS_LITTLE_ENDIAN 4 w) = false.
Lemma pending_stands w c d : stands c d -> pending_word w c -> pending_word w d.
Proof. intros (Hp&Hm&_) [Hg Hb]. split; [|done]. rewrite Hp. unfold get in *. by rewrite Hm. Qed.
Lemma cycle_unmatched fuel tb c w :
  unmatched (pc (ss c)) tb -> pending_word w c -> 0 <= last_check c <= 2 ->
  exists d, stands c d /\ last_check d = last_check c + 1 /\
    (last_check c < 2 -> cycle fuel tb c = Ok (d, Continue)) /\
    (last_check c = 2 -> cycle fuel tb c = Ok (flag_incorrect 0 d, Break)).
Proof.
  intros (Hv&Hb&Hi&Hne&Hh&H2) Hw Hl. unfold cycle. pose proof (stands_sync tb c Hi) as Hs. pose proof (last_check_sync tb c) as Hls.
  set (c0 := c |> retire_reg tb |> sync_cp0 tb |> sync_irq tb) in *. clearbody c0.
  pose proof (pending_stands w _ _ Hs Hw) as [Hg Hnb]. destruct Hs as (Hp&Hm&Hinc).
  unfold check_retire. rewrite Hv, Hb, Hp. cbn [negb]. rewrite (proj2 (Z.eqb_neq _ _) Hne).
  unfold check_mismatch, catch_up. rewrite Hp, Hh. cbn [mbind result_bind]. unfold watchdog. cbv zeta.
  set (d := with_last_check _ c0). assert (last_check d = last_check c + 1) as Hld
    by (cbn; rewrite Hls; unfold wrapu; apply Z.mod_small; lia).
  change (ss d) with (ss c0). rewrite Hg. cbn [mbind result_bind]. rewrite Hnb, Hld.
  set (d2 := if last_check c <? 2 then retire_reg_two tb d else d).
  assert (pc (ss d2) = pc (ss c) /\ last_check d2 = last_check c + 1 /\ stands c d2) as (Hp2&Hl2&Hs2).
  { subst d2. unfold retire_reg_two, stands. destruct (_ <? _), (retire_reg_two_valid tb);
      cbn [ss pc mem incorrect last_check with_s_gpr]; by rewrite Hld. }
  exists d2. split_and!; [apply Hs2..|done| |]; intros Hk; subst d2.
  - rewrite (proj2 (Z.ltb_lt _ _) Hk) in *. rewrite (proj2 (Z.ltb_ge _ _)) by lia. cbn [mbind result_bind].
    unfold check_retire_two. rewrite Hp2. destruct (retire_two_valid tb); [|done]. by rewrite (proj2 (Z.eqb_neq _ _) (H2 eq_refl)).
  - rewrite Hk. reflexivity.
Qed.
End watchdog.

(** C26. The desynchronisation watchdog.  When the core keeps retiring
    instructions the interpreter does not account for (other pcs in both slots,
    no interrupt, no exception handler to catch up with, no BREAK or SYSCALL
    pending), the loop goes on, unflagged and counting, until the third such
    retirement since the last match, and at the third it stops with the run
    marked incorrect: a control-flow divergence is found within three
    retirements, and a delay slot plus one more unmatched retirement are
    tolerated. *)
Theorem desync_watchdog `{Config, HostFP} (fuel : nat) (tbs : list tb_t) (c : checker) (w : Z)
    (Hw : pending_word w c) (Hl : 0 <= last_check c <= 2) (Hu : Forall (unmatched (pc (ss c))) tbs) :
  exists r, run fuel (EvCycle <$> tbs) c = Ok r /\
    if last_check c + Z.of_nat (length tbs) <=? 2
    then r.2 = Continue /\ incorrect r.1 = incorrect c /\ last_check r.1 = last_check c + Z.of_nat (length tbs)
    else r.2 = Break /\ incorrect r.1 = true.
Proof.
  revert c Hw Hl Hu. induction tbs as [|tb tbs IH]; intros c Hw Hl Hu.
  { exists (c, Continue). cbn [length]. rewrite Z.add_0_r, (proj2 (Z.leb_le _ _)) by lia. done. }
  apply Forall_cons in Hu as [Htb Hu]. cbn [fmap list_fmap run].
  destruct (cycle_unmatched fuel tb c w Htb Hw Hl) as (d&Hs&Hld&Hgo&Hstop).
  assert (last_check c + Z.of_nat (length (tb :: tbs)) = last_check d + Z.of_nat (length tbs)) as -> by (cbn [length]; lia).
  destruct (decide (last_check c = 2)) as [H2|H2].
  - rewrite (Hstop H2). eexists. split; [reflexivity|]. by rewrite (proj2 (Z.leb_gt _ _)) by lia.
  - rewrite Hgo by lia. cbn [mbind result_bind].
    destruct (IH d (pending_stands w _ _ Hs Hw)) as (r&Hr&Hres); [lia| |].
    { by destruct Hs as (->&_). }
    exists r. split; [done|]. destruct Hs as (_&_&Hi). by rewrite Hi in Hres.
Qed.
Lemma desync_watchdog_witness :
  let tbs := [retiring 0x100; retiring 0x104; retiring 0x108] in
  exists r, @run r4400_config indefinite_host 3 (EvCycle <$> tbs) boot_checker = Ok r /\
    r.2 = Break /\ incorrect r.1 = true.
Proof.
  intros tbs. apply (@desync_watchdog r4400_config indefinite_host 3 tbs boot_checker 0); [split; reflexivity|done|].
  repeat constructor; vm_compute; (done || (intros; done)).
Defined.
(** The boot checker after one step of its interpreter, over a NOP. *)
Definition boot_checker_1 : checker :=
  match @iss_step r4400_config indefinite_host 3 boot_checker with Ok c => c | Stop _ => boot_checker end.
Lemma divergence_exact_witness :
  exists r, @check_retire r4400_config indefinite_host 3 (retiring kseg1_pc) boot_checker = Ok r /\
    (r.2 = Continue <-> (u32 (pc (ss boot_checker_1)) = u32 (kseg1_pc + 4) ->
       forall i, 0 <= i < 32 -> (gpr (ss boot_checker_1)).[i] = (s_gpr boot_checker_1).[i])) /\
    (r.2 = Continue -> r.1 = matched kseg1_pc boot_checker_1) /\
    (r.2 = Break -> exists n, 0 < n <= 32 /\ r.1 = flag_incorrect n boot_checker_1).
Proof.
  apply (@divergence_exact r4400_config indefinite_host 3 (retiring kseg1_pc) boot_checker boot_checker_1 0 0); vm_compute; reflexivity.
Defined.

(** ** Interrupts *)
Section interrupts.
Implicit Types (s : state).
Lemma raise_int_entry e ip s :
  let t := raise_int e ip s in
  pc t = general_vector s /\ (cpr0_64 t).[CPR0_EPC] = e /\ (cpr0 t).[CPR0_CAUSE] = (ip .& 0xff) << 8 /\
  (cpr0 t).[CPR0_SR] = ((cpr0 s).[CPR0_SR] .& .~ SR_ERL) .| SR_EXL /\ sr_bit t SR_ERL = false /\
  ll_link_valid t = false /\ gpr t = gpr s /\ mem t = mem s /\ tlb t = tlb s.
Proof.
  cbv zeta. unfold raise_int, goto_general, exc_vector_general, enter_exl. cbv zeta.
  split_and!; try done; rd_simpl; try done.
  - unfold general_vector. rewrite !sr_bev. rd_simpl. rewrite exl_word_bits by done. cbn [Z.eqb Pos.eqb].
    by destruct (Z.testbit _ 22).
  - rewrite sr_erl. rd_simpl. by rewrite exl_word_bits.
Qed.
End interrupts.

(** Interrupt synchronisation.  In a cycle where the core takes an interrupt
    and retires nothing, the loop goes on with the interpreter at the general
    vector, EPC the core's, Cause the pending timer interrupt with ExcCode 0, EXL
    set and ERL cleared, the LL/SC link broken, and registers, memory and TLB
    untouched; an ERET executed then resumes at the core's EPC, with Status as
    before the interrupt if EXL and ERL were clear. *)
Theorem interrupt_synchronised `{Config, HostFP} (fuel : nat) (tb : tb_t) (c : checker)
    (Hi : took_irq tb = true) (Hv : retire_valid tb = false) (Hv2 : retire_two_valid tb = false) :
  exists d, cycle fuel tb c = Ok (d, Continue) /\
    pc (ss d) = general_vector (ss c) /\ (cpr0_64 (ss d)).[CPR0_EPC] = u64 (epc tb) /\
    (cpr0 (ss d)).[CPR0_CAUSE] = 1 << 15 /\ sr_bit (ss d) SR_EXL = true /\ sr_bit (ss d) SR_ERL = false /\
    ll_link_valid (ss d) = false /\ gpr (ss d) = gpr (ss c) /\ mem (ss d) = mem (ss c) /\ tlb (ss d) = tlb (ss c) /\
    exists r, execCoproc0 ERET_INST (ss d) = Ok r /\ pc r = s64 (epc tb) /\
      (sr_bit (ss c) SR_EXL = false -> sr_bit (ss c) SR_ERL = false -> (cpr0 r).[CPR0_SR] = (cpr0 (ss c)).[CPR0_SR]).
Proof.
  unfold cycle, check_retire, check_retire_two. rewrite Hv. cbn [negb mbind result_bind]. rewrite Hv2.
  eexists. split; [reflexivity|]. set (d := retire_reg_two tb _).
  set (s := ss (sync_cp0 tb (retire_reg tb c))).
  assert (ss d = raise_int (u64 (epc tb)) (1 << 7) s) as ->.
  { subst d s. unfold retire_reg_two, sync_irq. rewrite Hi. by destruct (retire_reg_two_valid tb). }
  assert (gpr s = gpr (ss c) /\ mem s = mem (ss c) /\ tlb s = tlb (ss c)) as (Hg&Hm&Ht).
  { subst s. unfold retire_reg. by destruct (retire_reg_valid tb). }
  assert ((cpr0 s).[CPR0_SR] = (cpr0 (ss c)).[CPR0_SR]) as Hsr.
  { subst s. unfold retire_reg, sync_cp0. cbv zeta. destruct (retire_reg_valid tb); cbn [ss with_ss with_s_gpr]; by rd_simpl. }
  assert (general_vector s = general_vector (ss c)) as <- by (unfold general_vector, sr_bit; by rewrite Hsr).
  clearbody s. destruct (raise_int_entry (u64 (epc tb)) (1 << 7) s) as (Hpc&Hepc&Hcause&Hsr'&Herl&Hl&Hg'&Hm'&Ht').
  set (t := raise_int _ _ s) in *. clearbody t.
  assert (sr_bit t SR_EXL = true) as Hexl by (by rewrite sr_exl, Hsr', exl_word_bits).
  split_and!; try done; try congruence.
  destruct (eret_exl t Herl) as (r&Hr&Hpcr&Hsrr&_). exists r. split; [done|].
  rewrite Hpcr, Hepc, Hsrr, Hsr', Hsr, eret_epc. split; [done|]. rewrite sr_exl, sr_erl. apply sr_restored.
Qed.
Lemma interrupt_synchronised_witness :
  let tb := mk_tb false 0 0 false 0 0 false 0 false 0 5 47 0x80 true 0x1234 false in
  exists d, @cycle r4400_config indefinite_host 3 tb boot_checker = Ok (d, Continue) /\ pc (ss d) = 0xBFC00380 - 2 ^ 32.
Proof.
  intros tb. destruct (@interrupt_synchronised r4400_config indefinite_host 3 tb boot_checker eq_refl eq_refl eq_refl)
    as (d&Hd&Hpc&_). exists d. split; [exact Hd|]. rewrite Hpc. reflexivity.
Defined.

(** The comparison includes gpr[0], which the interpreter clears only at the
    start of the next instruction: over [mflo $0] with LO nonzero a core that
    leaves $0 at 0 is reported as divergent. *)
Definition mflo_zero_checker : result checker :=
  let! m := mem_set 4 0 (bswap IS_LITTLE_ENDIAN 4 0x00000012) (mem boot_state) in
  Ok (with_ss (set_g_iss_tlb_ext true (set_lo 5 (set_mem m (set_pc kseg1_pc boot_state)))) boot_checker).
Example checker_compares_register_zero :
  exists c r, mflo_zero_checker = Ok c /\ s_gpr c = ∅ /\
    @check_retire r4400_config indefinite_host 3 (retiring kseg1_pc) c = Ok r /\
    r.2 = Break /\ incorrect r.1 = true /\ wrong_regs r.1 = [0].
Proof. do 2 eexists. split; [vm_compute; reflexivity|]. split; [reflexivity|]. split; [vm_compute; reflexivity|]. vm_compute. done. Qed.
