(* ===== verification/Arith64.v ===== *)
(** The 64-bit integer support routines of the bare-metal guest programs
    ([src/hello/arith64.c]): shifts on pairs of words, bit counts, and the long
    division.  An [unsigned long long] is a [Z] wrapped by [u64], the
    [arith64_word] union a pair of 32-bit halves; a signed overflow and the
    division by zero are [Stop HostUB]. *)
From S2P Require Import Prelude Bits.

(** [arith64_word]: the two halves of a 64-bit value. *)
Record arith64_word := mk_word { w_hi : Z; w_lo : Z }.
Definition arith64_hi (n : Z) : Z := u32 (n >> 32).
Definition arith64_lo (n : Z) : Z := u32 n.
Definition word_of (n : Z) : arith64_word := mk_word (arith64_hi n) (arith64_lo n).
Definition word_u64 (w : arith64_word) : Z := w_lo w .| (w_hi w << 32).

(** [arith64_neg(a, b)] at unsigned and at signed type. *)
Definition arith64_mask (b : Z) : Z := Z.b2z (0 <=? s64 b) - 1.
Definition arith64_neg_u64 (a b : Z) : Z := u64 ((a .^ u64 (arith64_mask b)) + Z.b2z (s64 b <? 0)).
Definition arith64_neg_s64 (a b : Z) : result Z :=
  let r := (a .^ arith64_mask b) + Z.b2z (s64 b <? 0) in
  if (r <? - 2 ^ 63) || (2 ^ 63 <=? r) then Stop HostUB else Ok r.
Definition arith64_abs (a : Z) : result Z := arith64_neg_s64 a a.
Definition __absvdi2 (a : Z) : result Z := arith64_abs a.

(** ** Shifts *)
Definition __ashldi3 (a b : Z) : Z :=
  let w := word_of a in
  let b := b .& 63 in
  let w :=
    if 32 <=? b then mk_word (u32 (w_lo w << (b - 32))) 0
    else if b =/? 0 then mk_word ((w_lo w >> (32 - b)) .| u32 (w_hi w << b)) (u32 (w_lo w << b))
    else w in
  s64 (word_u64 w).
Definition __ashrdi3 (a b : Z) : Z :=
  let w := word_of a in
  let b := b .& 63 in
  let w :=
    if 32 <=? b then mk_word (u32 (s32 (w_hi w) >> 31)) (u32 (s32 (w_hi w) >> (b - 32)))
    else if b =/? 0 then mk_word (u32 (s32 (w_hi w) >> b)) (u32 (w_hi w << (32 - b)) .| (w_lo w >> b))
    else w in
  s64 (word_u64 w).
Definition __lshrdi3 (a b : Z) : Z :=
  let w := word_of a in
  let b := b .& 63 in
  let w :=
    if 32 <=? b then mk_word 0 (w_hi w >> (b - 32))
    else if b =/? 0 then mk_word (w_hi w >> b) (u32 (w_hi w << (32 - b)) .| (w_lo w >> b))
    else w in
  word_u64 w.

(** ** Bit counts *)
Definition cnot (x : Z) : Z := Z.b2z (x =? 0).
Definition __clzsi2 (a : Z) : Z :=
  let n := 0 in
  let b := cnot (a .& 0xffff0000) << 4 in let n := n + b in let a := u32 (a << b) in
  let b := cnot (a .& 0xff000000) << 3 in let n := n + b in let a := u32 (a << b) in
  let b := cnot (a .& 0xf0000000) << 2 in let n := n + b in let a := u32 (a << b) in
  let b := cnot (a .& 0xc0000000) << 1 in let n := n + b in let a := u32 (a << b) in
  n + cnot (a .& 0x80000000).
Definition __clzdi2 (a : Z) : Z :=
  let n := 0 in
  let b := cnot (a .& 0xffffffff00000000) << 5 in let n := n + b in let a := u64 (a << b) in
  let b := cnot (a .& 0xffff000000000000) << 4 in let n := n + b in let a := u64 (a << b) in
  let b := cnot (a .& 0xff00000000000000) << 3 in let n := n + b in let a := u64 (a << b) in
  let b := cnot (a .& 0xf000000000000000) << 2 in let n := n + b in let a := u64 (a << b) in
  let b := cnot (a .& 0xc000000000000000) << 1 in let n := n + b in let a := u64 (a << b) in
  n + cnot (a .& 0x8000000000000000).
Definition __ctzsi2 (a : Z) : Z :=
  let n := 0 in
  let b := cnot (a .& 0x0000ffff) << 4 in let n := n + b in let a := a >> b in
  let b := cnot (a .& 0x000000ff) << 3 in let n := n + b in let a := a >> b in
  let b := cnot (a .& 0x0000000f) << 2 in let n := n + b in let a := a >> b in
  let b := cnot (a .& 0x00000003) << 1 in let n := n + b in let a := a >> b in
  n + cnot (a .& 0x00000001).
Definition __ctzdi2 (a : Z) : Z :=
  let n := 0 in
  let b := cnot (a .& 0x00000000ffffffff) << 5 in let n := n + b in let a := a >> b in
  let b := cnot (a .& 0x000000000000ffff) << 4 in let n := n + b in let a := a >> b in
  let b := cnot (a .& 0x00000000000000ff) << 3 in let n := n + b in let a := a >> b in
  let b := cnot (a .& 0x000000000000000f) << 2 in let n := n + b in let a := a >> b in
  let b := cnot (a .& 0x0000000000000003) << 1 in let n := n + b in let a := a >> b in
  n + cnot (a .& 0x0000000000000001).
Definition __ffsdi2 (a : Z) : Z := if a =/? 0 then __ctzdi2 a + 1 else 0.
Definition __popcountsi2 (a : Z) : Z :=
  let a := u32 (a - ((a >> 1) .& 0x55555555)) in
  let a := u32 (((a >> 2) .& 0x33333333) + (a .& 0x33333333)) in
  let a := u32 (a + (a >> 4)) .& 0x0F0F0F0F in
  let a := u32 (a + (a >> 16)) in
  u32 (a + (a >> 8)) .& 63.
Definition __popcountdi2 (a : Z) : Z :=
  let a := u64 (a - ((a >> 1) .& 0x5555555555555555)) in
  let a := u64 (((a >> 2) .& 0x3333333333333333) + (a .& 0x3333333333333333)) in
  let a := u64 (a + (a >> 4)) .& 0x0F0F0F0F0F0F0F0F in
  let a := u64 (a + (a >> 32)) in
  let a := u64 (a + (a >> 16)) in
  u64 (a + (a >> 8)) .& 127.

(** ** Division *)
(** The loop of [__divmoddi4]: the numerator, the remainder and the last
    quotient bit as a mask. *)
Fixpoint div_loop (bits : nat) (b a rem wrap : Z) : Z * Z :=
  match bits with
  | O => (u64 (a << 1) .| (wrap .& 1), rem)
  | S bits =>
      let rem := u64 (rem << 1) .| (a >> 63) in
      let a := u64 (a << 1) .| (wrap .& 1) in
      let wrap := u64 (s64 (b - rem - 1) >> 63) in
      let rem := u64 (rem - (b .& wrap)) in
      div_loop bits b a rem wrap
  end.
(** Quotient and remainder. *)
Definition __divmoddi4 (a b : Z) : result (Z * Z) :=
  let long_division :=
    let bits := s8 (__clzdi2 b - __clzdi2 a + 1) in
    Ok (div_loop (Z.to_nat bits) b (u64 (a << (64 - bits))) (a >> bits) 0) in
  if a <? b then Ok (0, a)
  else if arith64_hi b =? 0 then
    if b =? 0 then Stop HostUB
    else if b =? 1 then Ok (a, 0)
    else if arith64_hi a =? 0 then Ok (arith64_lo a / arith64_lo b, arith64_lo a mod arith64_lo b)
    else long_division
  else long_division.
Definition __udivdi3 (a b : Z) : result Z := let! (q, _) := __divmoddi4 a b in Ok q.
Definition __umoddi3 (a b : Z) : result Z := let! (_, r) := __divmoddi4 a b in Ok r.
Definition __divdi3 (a b : Z) : result Z :=
  let! x := arith64_abs a in let! y := arith64_abs b in
  let! (q, _) := __divmoddi4 (u64 x) (u64 y) in
  Ok (s64 (arith64_neg_u64 q (a .^ b))).
Definition __moddi3 (a b : Z) : result Z :=
  let! x := arith64_abs a in let! y := arith64_abs b in
  let! (_, r) := __divmoddi4 (u64 x) (u64 y) in
  Ok (s64 (arith64_neg_u64 r a)).

(** * Theorems *)

(** ** Counting leading zeros *)
Lemma top_mask_zero W k a : 0 < k <= W -> in_u W a -> a .& (2 ^ W - 2 ^ (W - k)) = 0 <-> a < 2 ^ (W - k).
Proof.
  intros Hk Ha. replace (2 ^ W - 2 ^ (W - k)) with (Z.ones k << (W - k)).
  2:{ rewrite Z.shiftl_mul_pow2, Z.ones_equiv by lia. replace W with (k + (W - k)) at 2 by lia. rewrite Z.pow_add_r by lia. lia. }
  assert (a .& (Z.ones k << (W - k)) = (a >> (W - k)) << (W - k)) as ->.
  { apply Z.bits_inj'. intros i Hi. rewrite Z.land_spec, !Z.shiftl_spec by done.
    destruct (decide (W - k <= i)).
    - rewrite Z.shiftr_spec by lia. replace (i - (W - k) + (W - k)) with i by lia.
      destruct (decide (i < W)); [rewrite Z.ones_spec_low by lia; apply andb_true_r|].
      by rewrite (in_u_testbit W) by lia || done.
    - rewrite !(Z.testbit_neg_r _ (i - (W - k))) by lia. apply andb_false_r. }
  destruct Ha as [Ha _]. rewrite Z.shiftl_eq_0_iff by lia. rewrite Z.shiftr_div_pow2 by lia.
  pose proof (Z.pow_pos_nonneg 2 (W - k)). rewrite Z.div_small_iff by lia. lia.
Qed.
(** One halving step: a word whose top [2 k] bits are not all clear has, after
    the step, its top [k] bits not all clear; the distance shifted is counted. *)
Lemma clz_step W k a b :
  0 < k -> 2 * k <= W -> 2 ^ (W - 2 * k) <= a < 2 ^ W ->
  b = (if a .& (2 ^ W - 2 ^ (W - k)) =? 0 then k else 0) ->
  2 ^ (W - k) <= wrapu W (a << b) < 2 ^ W /\ Z.log2 (wrapu W (a << b)) = Z.log2 a + b.
Proof.
  intros Hk H2k Ha ->. pose proof (Z.pow_pos_nonneg 2 (W - 2 * k)).
  destruct (Z.eqb_spec (a .& (2 ^ W - 2 ^ (W - k))) 0) as [Hm|Hm].
  - apply top_mask_zero in Hm; [|lia|split; lia].
    assert (a << k < 2 ^ W) as Hlt.
    { rewrite Z.shiftl_mul_pow2 by lia. replace W with ((W - k) + k) at 1 by lia. rewrite Z.pow_add_r by lia.
      pose proof (Z.pow_pos_nonneg 2 k). nia. }
    assert (0 <= a << k) by (apply Z.shiftl_nonneg; lia). rewrite wrapu_id by (split; lia).
    rewrite Z.log2_shiftl by lia. split; [|lia]. split; [|done]. rewrite Z.shiftl_mul_pow2 by lia.
    replace (W - k) with ((W - 2 * k) + k) by lia. rewrite Z.pow_add_r by lia. pose proof (Z.pow_pos_nonneg 2 k). nia.
  - rewrite top_mask_zero in Hm by (lia || split; lia). rewrite Z.shiftl_0_r, wrapu_id by (split; lia). lia.
Qed.
Lemma cnot_shl x k : 0 <= k -> cnot x << k = if x =? 0 then 2 ^ k else 0.
Proof. intros. unfold cnot. destruct (x =? 0); cbn [Z.b2z]; [by rewrite Z.shiftl_1_l|apply Z.shiftl_0_l]. Qed.
Lemma clz_last W a : 1 < W -> 2 ^ (W - 2) <= a < 2 ^ W -> cnot (a .& (2 ^ W - 2 ^ (W - 1))) = W - 1 - Z.log2 a.
Proof.
  intros HW Ha. unfold cnot. pose proof (Z.pow_pos_nonneg 2 (W - 2)).
  pose proof (top_mask_zero W 1 a ltac:(lia) ltac:(split; lia)) as Hm.
  destruct (Z.eqb_spec (a .& (2 ^ W - 2 ^ (W - 1))) 0) as [H0|H0]; cbn [Z.b2z].
  - apply Hm in H0. assert (Z.log2 a = W - 2) as ->; [|lia]. apply Z.log2_unique; [lia|].
    replace (Z.succ (W - 2)) with (W - 1) by lia. lia.
  - assert (Z.log2 a = W - 1) as ->; [|lia]. apply Z.log2_unique; [lia|]. replace (Z.succ (W - 1)) with W by lia.
    destruct (decide (a < 2 ^ (W - 1))) as [Hlt|]; [by apply Hm in Hlt|lia].
Qed.

Lemma log2_pow2_sub W k : 0 < k <= W -> 2 ^ (W - k) <= 2 ^ W.
Proof. intros. apply Z.pow_le_mono_r; lia. Qed.
(** The chains of halving steps. *)
Ltac clz_steps W :=
  repeat match goal with
  | H : ?lo <= ?a < 2 ^ W |- context [cnot (?a .& ?m) << ?sh] =>
      let k := eval vm_compute in (2 ^ sh) in
      let b := fresh "b" in let a' := fresh "a" in let H' := fresh "H" in let Hl := fresh "Hl" in
      set (b := cnot (a .& m) << sh);
      destruct (clz_step W k a b ltac:(lia) ltac:(lia) H (cnot_shl _ sh ltac:(lia))) as [H' Hl];
      clearbody b; set (a' := wrapu W (a << b)) in *; clearbody a'; clear H
  end.
Lemma clzsi2_spec a : 0 < a < 2 ^ 32 -> __clzsi2 a = 31 - Z.log2 a.
Proof.
  intros Ha. unfold __clzsi2. cbv zeta. assert (2 ^ (32 - 2 * 16) <= a < 2 ^ 32) as H by (cbn; lia). clear Ha.
  clz_steps 32. change 0x80000000 with (2 ^ 32 - 2 ^ (32 - 1)). rewrite clz_last by (cbn in *; lia). lia.
Qed.
Lemma clzdi2_spec a : 0 < a < 2 ^ 64 -> __clzdi2 a = 63 - Z.log2 a.
Proof.
  intros Ha. unfold __clzdi2. cbv zeta. assert (2 ^ (64 - 2 * 32) <= a < 2 ^ 64) as H by (cbn; lia). clear Ha.
  clz_steps 64. change 0x8000000000000000 with (2 ^ 64 - 2 ^ (64 - 1)). rewrite clz_last by (cbn in *; lia). lia.
Qed.

(** ** The division loop *)
(** [q] and [rem] divide the numerator bits consumed so far; the register [a]
    holds the rest of the numerator in its high bits and [q] but its last bit,
    which is [wrap], in its low bits. *)
Record div_inv (A b : Z) (k : nat) (a rem wrap q : Z) : Prop := {
  di_rem : A / 2 ^ Z.of_nat k = q * b + rem /\ 0 <= rem < b;
  di_a : a = (A mod 2 ^ Z.of_nat k) * 2 ^ (64 - Z.of_nat k) + q / 2;
  di_q : 0 <= q < 2 ^ (64 - Z.of_nat k);
  di_wrap : wrap .& 1 = q mod 2;
}.
Lemma wrap_mask x : - 2 ^ 63 <= x < 2 ^ 63 -> u64 (s64 x >> 63) = if x <? 0 then Z.ones 64 else 0.
Proof.
  intros Hx. rewrite wraps_id by (done || unfold in_s; lia). rewrite Z.shiftr_div_pow2 by done.
  destruct (Z.ltb_spec x 0).
  - assert (x / 2 ^ 63 = -1) as ->; [|done]. symmetry. apply (Z.div_unique _ _ _ (x + 2 ^ 63)); lia.
  - by rewrite Z.div_small by lia.
Qed.
Lemma lor_double x y : 0 <= y < 2 -> (2 * x) .| y = 2 * x + y.
Proof.
  intros Hy. rewrite Z.lor_comm. replace (2 * x) with (x << 1) by (rewrite Z.shiftl_mul_pow2 by done; lia).
  rewrite lor_shl_add by (done || (unfold in_u; lia)). rewrite Z.shiftl_mul_pow2 by done. lia.
Qed.
(** The numerator register: its top bit, and the rest shifted. *)
Lemma div_shift k x lo :
  0 < k <= 64 -> 0 <= x < 2 ^ k -> 0 <= lo < 2 ^ (64 - k) ->
  let a := x * 2 ^ (64 - k) + lo in
  a >> 63 = x / 2 ^ (k - 1) /\ u64 (a << 1) = 2 * ((x mod 2 ^ (k - 1)) * 2 ^ (64 - k) + lo).
Proof.
  intros Hk Hx Hlo a. set (P := 2 ^ (k - 1)). set (S := 2 ^ (64 - k)).
  assert (0 < P) by (apply Z.pow_pos_nonneg; lia). assert (0 < S) by (apply Z.pow_pos_nonneg; lia).
  assert (P * S = 2 ^ 63) as HPS by (unfold P, S; rewrite <- Z.pow_add_r by lia; f_equal; lia).
  pose proof (Z.div_mod x P ltac:(lia)) as Hdm. pose proof (Z.mod_pos_bound x P ltac:(lia)) as Hm.
  assert (2 ^ k = 2 * P) as H2P by (unfold P; rewrite <- Z.pow_succ_r by lia; f_equal; lia).
  assert (0 <= x / P < 2) as Hd by (split; [apply Z.div_pos; lia|apply Z.div_lt_upper_bound; lia]).
  set (r := (x mod P) * S + lo). assert (0 <= r < 2 ^ 63) as Hr by (unfold r; nia).
  assert (a = (x / P) * 2 ^ 63 + r) as Ha by (unfold a, r; fold S; rewrite <- HPS; nia).
  clearbody r a. split.
  - rewrite Z.shiftr_div_pow2 by done. symmetry. apply (Z.div_unique _ _ _ r); lia.
  - rewrite Z.shiftl_mul_pow2 by done. unfold wrapu. symmetry. apply (Z.mod_unique _ _ (x / P)); lia.
Qed.

Lemma div_step A b k a rem wrap q :
  (k < 64)%nat -> 0 < b < 2 ^ 64 -> in_u 64 A -> (b <= 2 ^ 63 \/ b <= A /\ k = 0%nat) ->
  div_inv A b (S k) a rem wrap q ->
  let rem' := u64 (rem << 1) .| (a >> 63) in
  let a' := u64 (a << 1) .| (wrap .& 1) in
  let wrap' := u64 (s64 (b - rem' - 1) >> 63) in
  exists q', div_inv A b k a' (u64 (rem' - (b .& wrap'))) wrap' q'.
Proof.
  intros Hk Hb HA Hbig [[Hrem Hr] Ha Hq Hw]. cbv zeta.
  replace (Z.of_nat (S k)) with (Z.of_nat k + 1) in * by lia. set (K := Z.of_nat k) in *.
  assert (2 ^ (K + 1) = 2 ^ K * 2) as HK by (rewrite Z.pow_add_r by lia; lia).
  assert (0 < 2 ^ K) as HP by (apply Z.pow_pos_nonneg; lia).
  assert (2 ^ (64 - K) = 2 * 2 ^ (64 - (K + 1))) as HS by (rewrite <- Z.pow_succ_r by lia; f_equal; lia).
  pose proof (Z.mod_pos_bound A (2 ^ (K + 1)) ltac:(lia)) as Hx.
  pose proof (Z.div_mod q 2 ltac:(lia)) as Hq2. pose proof (Z.mod_pos_bound q 2 ltac:(lia)) as Hqm.
  destruct (div_shift (K + 1) (A mod 2 ^ (K + 1)) (q / 2)) as [Htop Hrest]; [lia|lia|lia|].
  cbv zeta in Htop, Hrest. rewrite <- Ha in Htop, Hrest. replace (K + 1 - 1) with K in * by lia.
  (* the next numerator bit *)
  set (B := A / 2 ^ K) in *. assert (A / 2 ^ (K + 1) = B / 2) as HB by (rewrite HK; unfold B; by rewrite Z.div_div by lia).
  assert (A mod 2 ^ (K + 1) / 2 ^ K = B mod 2) as Hbit.
  { rewrite HK. rewrite Z.rem_mul_r by lia. fold B. rewrite Z.mul_comm, Z.div_add by lia.
    rewrite Z.div_small by (apply Z.mod_pos_bound; lia). lia. }
  pose proof (Z.div_mod B 2 ltac:(lia)) as HB2. pose proof (Z.mod_pos_bound B 2 ltac:(lia)) as HBm.
  assert (0 <= B < 2 ^ 64) as HBr.
  { unfold B. split; [apply Z.div_pos; unfold in_u in HA; lia|]. apply Z.le_lt_trans with A; [|apply HA].
    apply Z.div_le_upper_bound; [lia|]. unfold in_u in HA. nia. }
  set (r2 := 2 * rem + B mod 2). assert (B = 2 * q * b + r2) as HBq by (unfold r2; nia).
  assert (0 <= r2 < 2 ^ 64) as Hr2 by (unfold r2; split; nia).
  assert (u64 (rem << 1) .| (a >> 63) = r2) as ->.
  { rewrite Htop, Hbit, Z.shiftl_mul_pow2, Z.mul_comm by done. change (2 ^ 1) with 2.
    rewrite wrapu_id by (unfold in_u; lia). by rewrite lor_double by lia. }
  assert (- 2 ^ 63 <= b - r2 - 1 < 2 ^ 63) as Hs.
  { destruct Hbig as [?|[HbA ->]]; [unfold r2; lia|]. assert (B = A) as HBA by (unfold B; subst K; by rewrite Z.div_1_r).
    assert (q = 0 \/ 0 < q) as [->|] by lia; [lia|nia]. }
  rewrite wrap_mask by done. set (c := Z.b2z (b - r2 - 1 <? 0)).
  exists (2 * q + c). rewrite Hrest, Hw, lor_double by lia.
  assert (u64 (r2 - (b .& (if b - r2 - 1 <? 0 then Z.ones 64 else 0))) = r2 - c * b /\ 0 <= r2 - c * b < b) as [-> Hr3].
  { unfold c. destruct (Z.ltb_spec (b - r2 - 1) 0); cbn [Z.b2z].
    - rewrite Z.land_ones, Z.mod_small by lia. rewrite wrapu_id by (unfold in_u, r2 in *; lia). unfold r2 in *; lia.
    - rewrite Z.land_0_r, wrapu_id by (unfold in_u; lia). lia. }
  assert (0 <= c < 2) as Hc by (unfold c; destruct (_ <? _); cbn; lia).
  split.
  - fold K B. split; [nia|done].
  - fold K. rewrite HS. replace ((2 * q + c) / 2) with q by (apply (Z.div_unique _ _ _ c); lia).
    rewrite HK, Z.rem_mul_r, (Z.mul_comm (2 ^ K)) by lia. rewrite Z.mod_add, Z.mod_mod by lia. lia.
  - fold K. rewrite HS. lia.
  - assert ((2 * q + c) mod 2 = c) as -> by (symmetry; apply (Z.mod_unique _ _ q); lia).
    unfold c. by destruct (_ <? _).
Qed.
Lemma div_loop_spec A b k a rem wrap q :
  (k <= 64)%nat -> 0 < b < 2 ^ 64 -> in_u 64 A -> (b <= 2 ^ 63 \/ b <= A /\ (k <= 1)%nat) ->
  div_inv A b k a rem wrap q -> div_loop k b a rem wrap = (A / b, A mod b).
Proof.
  revert a rem wrap q; induction k as [|k IH]; intros a rem wrap q Hk Hb HA Hbig Hi; cbn [div_loop].
  - destruct Hi as [[Hrem Hr] Ha Hq Hw]. change (Z.of_nat 0) with 0 in *. rewrite Z.pow_0_r, Z.div_1_r in *.
    rewrite Z.mod_1_r, Z.mul_0_l, Z.add_0_l in Ha. change (2 ^ (64 - 0)) with (2 ^ 64) in Hq.
    pose proof (Z.div_mod q 2 ltac:(lia)). pose proof (Z.mod_pos_bound q 2 ltac:(lia)).
    rewrite Hw, Ha, Z.shiftl_mul_pow2, Z.mul_comm by done. change (2 ^ 1) with 2.
    rewrite wrapu_id by (unfold in_u; lia). rewrite lor_double by lia.
    assert (q = A / b) by (apply (Z.div_unique _ _ _ rem); lia).
    assert (rem = A mod b) by (apply (Z.mod_unique _ _ q); lia). apply f_equal2; lia.
  - assert (b <= 2 ^ 63 \/ b <= A /\ k = 0%nat) as Hbig' by (destruct Hbig as [?|[? ?]]; [by left|right; split; [done|lia]]).
    destruct (div_step A b k a rem wrap q ltac:(lia) Hb HA Hbig' Hi) as [q' Hq'].
    apply (IH _ _ _ q'); try done; [lia|]. destruct Hbig' as [?|[? ->]]; [by left|right; split; [done|lia]].
Qed.

Lemma wrapu_shl W k a : 0 <= k <= W -> wrapu W (a << (W - k)) = (a mod 2 ^ k) * 2 ^ (W - k).
Proof.
  intros Hk. unfold wrapu. rewrite Z.shiftl_mul_pow2 by lia. replace (2 ^ W) with (2 ^ k * 2 ^ (W - k)).
  - rewrite Z.mul_mod_distr_r; [done|apply Z.pow_nonzero; lia..].
  - rewrite <- Z.pow_add_r by lia. f_equal; lia.
Qed.
Lemma long_division a b :
  2 <= b <= a -> in_u 64 a ->
  let bits := s8 (__clzdi2 b - __clzdi2 a + 1) in
  div_loop (Z.to_nat bits) b (u64 (a << (64 - bits))) (a >> bits) 0 = (a / b, a mod b).
Proof.
  intros Hb Ha. assert (0 < 2 ^ 64) by done. unfold in_u in Ha. rewrite !clzdi2_spec by lia. cbv zeta.
  set (la := Z.log2 a). set (lb := Z.log2 b).
  assert (1 <= lb <= la) as Hl by (split; [by apply (Z.log2_le_mono 2); lia|apply Z.log2_le_mono; lia]).
  assert (la < 64) as Hla by (apply Z.log2_lt_pow2; lia).
  pose proof (Z.log2_spec a ltac:(lia)) as Hsa. pose proof (Z.log2_spec b ltac:(lia)) as Hsb. fold la in Hsa. fold lb in Hsb.
  replace (63 - lb - (63 - la) + 1) with (la - lb + 1) by lia. rewrite wraps_id by (done || unfold in_s; lia).
  set (k := la - lb + 1). assert (0 < 2 ^ k) by (apply Z.pow_pos_nonneg; lia).
  assert (a / 2 ^ k < b) as Hlt.
  { apply Z.lt_le_trans with (2 ^ lb); [|lia]. apply Z.div_lt_upper_bound; [done|]. rewrite <- Z.pow_add_r by lia.
    replace (k + lb) with (Z.succ la) by lia. lia. }
  apply (div_loop_spec a b _ _ _ _ 0); [lia|lia|done| |].
  - destruct (decide (b <= 2 ^ 63)) as [|Hbig]; [by left|right]. split; [lia|].
    assert (63 <= lb) by (apply Z.log2_le_pow2; lia). lia.
  - split; rewrite ?Z2Nat.id by lia.
    + rewrite Z.shiftr_div_pow2 by lia. split; [lia|]. split; [apply Z.div_pos; lia|done].
    + rewrite wrapu_shl by lia. rewrite Z.div_0_l by lia. lia.
    + split; [done|]. apply Z.pow_pos_nonneg; lia.
    + done.
Qed.
Lemma divmoddi4_spec a b :
  in_u 64 a -> in_u 64 b -> __divmoddi4 a b = if b =? 0 then Stop HostUB else Ok (a / b, a mod b).
Proof.
  intros Ha Hb. unfold in_u in *. unfold __divmoddi4. cbv zeta.
  destruct (Z.ltb_spec a b).
  { rewrite (proj2 (Z.eqb_neq b 0)) by lia. by rewrite Z.div_small, Z.mod_small by lia. }
  assert (forall x, in_u 64 x -> arith64_hi x = 0 -> arith64_lo x = x) as Hlo.
  { intros x Hx Hh. unfold arith64_lo, arith64_hi in *. apply wrapu_id.
    rewrite wrapu_id in Hh by (unfold in_u in *; rewrite Z.shiftr_div_pow2 by done;
      split; [apply Z.div_pos; lia|apply Z.div_lt_upper_bound; [done|change (2 ^ 32 * 2 ^ 32) with (2 ^ 64); lia]]).
    by apply in_u_shiftr. }
  destruct (Z.eqb_spec (arith64_hi b) 0) as [Hhb|Hhb].
  - destruct (Z.eqb_spec b 0); [done|]. destruct (Z.eqb_spec b 1) as [->|].
    { by rewrite Z.div_1_r, Z.mod_1_r. }
    destruct (Z.eqb_spec (arith64_hi a) 0) as [Hha|Hha]; [by rewrite !Hlo|].
    f_equal. by apply long_division; [lia|].
  - assert (2 <= b) as H2.
    { destruct (decide (2 <= b)); [done|]. exfalso. apply Hhb. assert (b = 0 \/ b = 1) as [-> | ->] by lia; done. }
    rewrite (proj2 (Z.eqb_neq b 0)) by lia. f_equal. by apply long_division; [lia|].
Qed.
(** Signed: the absolute values, and the signs put back. *)
Lemma abs_spec a : in_s 64 a -> arith64_abs a = if a =? - 2 ^ 63 then Stop HostUB else Ok (Z.abs a).
Proof.
  intros Ha. unfold arith64_abs, arith64_neg_s64, arith64_mask. rewrite wraps_id by done. unfold in_s in Ha.
  destruct (Z.leb_spec 0 a); cbn [Z.b2z].
  - rewrite (proj2 (Z.ltb_ge a 0)), (proj2 (Z.eqb_neq a _)) by lia. cbn [Z.b2z]. rewrite Z.lxor_0_r.
    destruct (Z.ltb_spec (a + 0) (- 2 ^ 63)), (Z.leb_spec (2 ^ 63) (a + 0)); try lia. cbn [orb]. f_equal. lia.
  - rewrite (proj2 (Z.ltb_lt a 0)) by lia. cbn [Z.b2z]. change (0 - 1) with (-1). rewrite Z.lxor_m1_r.
    pose proof (Z.add_lnot_diag a). destruct (Z.eqb_spec a (- 2 ^ 63)) as [->|]; [done|].
    destruct (Z.ltb_spec (.~ a + 1) (- 2 ^ 63)), (Z.leb_spec (2 ^ 63) (.~ a + 1)); try lia. cbn [orb]. f_equal. lia.
Qed.
Lemma neg_u64_spec q b : in_u 64 q -> in_s 64 b -> arith64_neg_u64 q b = if b <? 0 then u64 (- q) else q.
Proof.
  intros Hq Hb. unfold arith64_neg_u64, arith64_mask. rewrite wraps_id by done. unfold in_s in Hb.
  destruct (Z.ltb_spec b 0), (Z.leb_spec 0 b); try lia; cbn [Z.b2z].
  - change (u64 (0 - 1)) with (Z.ones 64). assert (q .^ Z.ones 64 = 2 ^ 64 - 1 - q) as ->.
    { pose proof (Z.add_nocarry_lxor q (Z.ones 64 .^ q)) as Hn.
      assert (q .& (Z.ones 64 .^ q) = 0) as Hz.
      { apply Z.bits_inj'. intros i Hi. rewrite Z.land_spec, Z.lxor_spec, Z.bits_0. destruct (decide (i < 64)).
        - rewrite Z.ones_spec_low by lia. by destruct (Z.testbit q i).
        - by rewrite (in_u_testbit 64 q) by lia || done. }
      specialize (Hn Hz). rewrite (Z.lxor_comm (Z.ones 64)), <- Z.lxor_assoc, Z.lxor_nilpotent, Z.lxor_0_l in Hn.
      change (Z.ones 64) with (2 ^ 64 - 1) in *. lia. }
    unfold wrapu. replace (2 ^ 64 - 1 - q + 1) with (- q + 1 * 2 ^ 64) by lia. by rewrite Z.mod_add.
  - change (u64 (1 - 1)) with 0. rewrite Z.lxor_0_r, Z.add_0_r. by apply wrapu_id.
Qed.
Lemma lxor_neg a b : (a .^ b <? 0) = xorb (a <? 0) (b <? 0).
Proof.
  pose proof (Z.lxor_nonneg a b).
  destruct (Z.ltb_spec (a .^ b) 0), (Z.ltb_spec a 0), (Z.ltb_spec b 0); cbn; try done; lia.
Qed.
Lemma signed_divmod a b :
  in_s 64 a -> in_s 64 b -> a <> - 2 ^ 63 -> b <> - 2 ^ 63 -> b <> 0 ->
  __divdi3 a b = Ok (Z.quot a b) /\ __moddi3 a b = Ok (Z.rem a b).
Proof.
  intros Ha Hb Hma Hmb Hb0. unfold __divdi3, __moddi3. rewrite !abs_spec by done.
  rewrite (proj2 (Z.eqb_neq a _) Hma), (proj2 (Z.eqb_neq b _) Hmb). cbn [mbind result_bind].
  assert (in_s 64 (a .^ b)) by by apply in_s_lxor. unfold in_s in Ha, Hb.
  rewrite !wrapu_id by (unfold in_u; lia). rewrite divmoddi4_spec by (unfold in_u; lia).
  rewrite (proj2 (Z.eqb_neq (Z.abs b) 0)) by lia. cbn [mbind result_bind].
  pose proof (Z.mod_pos_bound (Z.abs a) (Z.abs b) ltac:(lia)).
  assert (0 <= Z.abs a / Z.abs b <= Z.abs a) by (split; [apply Z.div_pos; lia|apply Z.div_le_upper_bound; nia]).
  rewrite !neg_u64_spec, lxor_neg by (done || (unfold in_u, in_s; lia)).
  assert (forall x, in_s 64 x -> s64 (u64 x) = x) as Hsu by (intros; rewrite wraps_wrapu by done; by apply wraps_id).
  assert (forall x, in_s 64 x -> s64 x = x) as Hs by (intros; by apply wraps_id).
  rewrite Z.quot_div, Z.rem_mod by done.
  assert (a = 0 -> Z.abs a / Z.abs b = 0) as Hz by (intros ->; by apply Z.div_0_l; lia).
  set (q := Z.abs a / Z.abs b) in *. set (r := Z.abs a mod Z.abs b) in *. clearbody q.
  assert (0 <= r <= Z.abs a) as Hr by (split; [lia|apply Z.mod_le; lia]). clearbody r. unfold in_s in Hsu, Hs.
  destruct (Z.ltb_spec a 0), (Z.ltb_spec b 0); cbn [xorb]; split; f_equal; rewrite ?Hsu, ?Hs by lia; nia.
Qed.
