(* ===== verification/Arith64Bits.v ===== *)
(** The shifts and bit counts of [src/hello/arith64.c] against the operations of
    [Z], and the claims about the file. *)
From S2P Require Import Prelude Bits Arith64.

(** The number of bits set. *)
Fixpoint pos_popcount (p : positive) : Z :=
  match p with
  | xH => 1
  | xO p => pos_popcount p
  | xI p => 1 + pos_popcount p
  end.
Definition popcount (a : Z) : Z := match a with Zpos p => pos_popcount p | _ => 0 end.
(** [a] has exactly [t] trailing zeros. *)
Definition trailing (a t : Z) : Prop := 0 <= t /\ Z.testbit a t = true /\ forall i, 0 <= i < t -> Z.testbit a i = false.

(** * Theorems *)

(** ** Shifts on the two halves *)
Lemma testbit_word hi lo i :
  0 <= i -> in_u 32 lo -> Z.testbit (word_u64 (mk_word hi lo)) i = if i <? 32 then Z.testbit lo i else Z.testbit hi (i - 32).
Proof.
  intros Hi Hlo. unfold word_u64. cbn [w_hi w_lo]. rewrite Z.lor_spec. destruct (Z.ltb_spec i 32).
  - rewrite Z.shiftl_spec_low by lia. apply orb_false_r.
  - rewrite Z.shiftl_spec by lia. by rewrite (in_u_testbit 32 lo) by done.
Qed.
Lemma testbit_hi a i : 0 <= i -> Z.testbit (arith64_hi a) i = (i <? 32) && Z.testbit a (i + 32).
Proof. intros. unfold arith64_hi. rewrite testbit_wrapu by lia. by rewrite Z.shiftr_spec by lia. Qed.
Lemma testbit_lo a i : 0 <= i -> Z.testbit (arith64_lo a) i = (i <? 32) && Z.testbit a i.
Proof. intros. unfold arith64_lo. by rewrite testbit_wrapu by lia. Qed.
Lemma word_of_id a i : 0 <= i < 64 -> Z.testbit (word_u64 (word_of a)) i = Z.testbit a i.
Proof.
  intros. unfold word_of. rewrite testbit_word by (lia || apply wrapu_range; lia).
  destruct (Z.ltb_spec i 32).
  - rewrite testbit_lo by lia. by rewrite (proj2 (Z.ltb_lt i 32)) by lia.
  - rewrite testbit_hi by lia. rewrite (proj2 (Z.ltb_lt (i - 32) 32)) by lia. cbn [andb]. f_equal; lia.
Qed.
(** Bit [i] of a shifted value, the bits shifted in being zero. *)
Lemma testbit_shl x n i : 0 <= i -> Z.testbit (x << n) i = (n <=? i) && Z.testbit x (i - n).
Proof.
  intros. destruct (Z.leb_spec n i); cbn [andb]; [by apply Z.shiftl_spec|by apply Z.shiftl_spec_low].
Qed.
Ltac bits_step :=
  match goal with
  | |- context [Z.testbit (Z.lor _ _) _] => rewrite Z.lor_spec
  | |- context [Z.testbit (Z.shiftr _ _) _] => rewrite Z.shiftr_spec by lia
  | |- context [Z.testbit (Z.shiftl _ _) _] => rewrite testbit_shl by lia
  | |- context [Z.testbit (wrapu _ _) _] => rewrite testbit_wrapu by lia
  | |- context [Z.testbit (wraps _ _) _] => rewrite testbit_wraps by lia
  | |- context [Z.testbit (arith64_hi _) _] => rewrite testbit_hi by lia
  | |- context [Z.testbit (arith64_lo _) _] => rewrite testbit_lo by lia
  | |- context [Z.testbit 0 _] => rewrite Z.bits_0
  | |- context [?x <? ?y] => destruct (Z.ltb_spec x y); [|]; try lia
  | |- context [?x <=? ?y] => destruct (Z.leb_spec x y); [|]; try lia
  end; cbn [andb orb].
Ltac bits_solve := repeat bits_step; rewrite ?orb_false_r; try done; try (f_equal; lia).
Lemma ashldi3_spec a b : __ashldi3 a b = s64 (a << (b .& 63)).
Proof.
  unfold __ashldi3. cbv zeta. pose proof (land_63_range b) as Hb. set (n := b .& 63) in *. clearbody n.
  apply wraps_ext; [done|]. intros i Hi. destruct (Z.leb_spec 32 n).
  - rewrite testbit_word by (done || lia). unfold word_of. cbn [w_lo w_hi]. bits_solve.
  - destruct (Z.eqb_spec n 0) as [->|]; cbn [negb].
    + rewrite word_of_id by done. by rewrite Z.shiftl_0_r.
    + unfold word_of. cbn [w_lo w_hi]. rewrite testbit_word by (lia || apply wrapu_range; lia). bits_solve.
Qed.
Lemma lshrdi3_spec a b : in_u 64 a -> __lshrdi3 a b = a >> (b .& 63).
Proof.
  intros Ha. unfold __lshrdi3. cbv zeta. pose proof (land_63_range b) as Hb. set (n := b .& 63) in *. clearbody n.
  assert (forall i, 64 <= i -> Z.testbit a i = false) as Hh by (intros; by apply (in_u_testbit 64)).
  apply Z.bits_inj'. intros i Hi. destruct (Z.leb_spec 32 n).
  - rewrite testbit_word; [|lia|unfold word_of; cbn [w_hi]; apply in_u_shr; [lia..|apply wrapu_range; lia]].
    unfold word_of. cbn [w_lo w_hi]. bits_solve; symmetry; apply Hh; lia.
  - destruct (Z.eqb_spec n 0) as [->|]; cbn [negb].
    + rewrite Z.shiftr_0_r. destruct (decide (i < 64)); [by apply word_of_id|].
      unfold word_of. rewrite testbit_word by (lia || apply wrapu_range; lia). bits_solve. symmetry; apply Hh; lia.
    + unfold word_of. cbn [w_lo w_hi]. rewrite testbit_word;
        [|lia|apply in_u_lor; [lia|apply wrapu_range; lia|apply in_u_shr; [lia..|apply wrapu_range; lia]]].
      bits_solve; symmetry; apply Hh; lia.
Qed.
Lemma ashrdi3_spec a b : in_s 64 a -> __ashrdi3 a b = a >> (b .& 63).
Proof.
  intros Ha. unfold __ashrdi3. cbv zeta. pose proof (land_63_range b) as Hb. set (n := b .& 63) in *. clearbody n.
  rewrite <- (wraps_id 64 (a >> n)) by (done || (apply in_s_shr; [done|lia|done])).
  assert (forall i, 63 <= i -> Z.testbit a i = Z.testbit a 63) as Hh.
  { intros i Hi. rewrite <- (wraps_id 64 a) by done. rewrite !testbit_wraps by lia.
    change (63 <? 64) with true. destruct (Z.ltb_spec i 64); [f_equal; lia|done]. }
  apply wraps_ext; [done|]. intros i Hi. destruct (Z.leb_spec 32 n).
  - rewrite testbit_word by (lia || apply wrapu_range; lia). unfold word_of. cbn [w_lo w_hi]. bits_solve;
      rewrite (Hh (i + n)) by lia; f_equal; lia.
  - destruct (Z.eqb_spec n 0) as [->|]; cbn [negb].
    + rewrite word_of_id by done. by rewrite Z.shiftr_0_r.
    + unfold word_of. cbn [w_lo w_hi]. rewrite testbit_word;
        [|lia|apply in_u_lor; [lia|apply wrapu_range; lia|apply in_u_shr; [lia..|apply wrapu_range; lia]]].
      bits_solve; rewrite (Hh (i + n)) by lia; f_equal; lia.
Qed.

(** ** Trailing zeros *)
Lemma low_mask_zero k a t : 0 < k -> trailing a t -> a .& (2 ^ k - 1) = 0 <-> k <= t.
Proof.
  intros Hk (Ht&Hb&Hz). replace (2 ^ k - 1) with (Z.ones k) by (rewrite Z.ones_equiv; lia). split.
  - intros H0. destruct (decide (k <= t)); [done|]. apply (f_equal (fun z => Z.testbit z t)) in H0.
    rewrite Z.land_spec, Hb, Z.ones_spec_low, Z.bits_0 in H0 by lia. done.
  - intros Hkt. apply Z.bits_inj'. intros i Hi. rewrite Z.land_spec, Z.bits_0. destruct (decide (i < k)).
    + by rewrite Hz by lia.
    + rewrite Z.ones_spec_high by lia. apply andb_false_r.
Qed.
Lemma ctz_step k a b t :
  0 < k -> trailing a t -> t < 2 * k -> b = (if a .& (2 ^ k - 1) =? 0 then k else 0) ->
  trailing (a >> b) (t - b) /\ t - b < k.
Proof.
  intros Hk Ht Htk ->. pose proof (low_mask_zero k a t Hk Ht) as Hm. destruct Ht as (Ht&Hb&Hz).
  destruct (Z.eqb_spec (a .& (2 ^ k - 1)) 0) as [H0|H0].
  - apply Hm in H0. split; [|lia]. split_and!; [lia|rewrite Z.shiftr_spec by lia; by replace (t - k + k) with t by lia|].
    intros i Hi. rewrite Z.shiftr_spec by lia. apply Hz; lia.
  - rewrite Hm in H0. rewrite Z.shiftr_0_r. replace (t - 0) with t by lia. split; [done|lia].
Qed.
Ltac ctz_steps :=
  repeat match goal with
  | H : trailing ?a ?t |- context [cnot (?a .& ?m) << ?sh] =>
      let k := eval vm_compute in (2 ^ sh) in
      let b := fresh "b" in let a' := fresh "a" in let H' := fresh "H" in let Hl := fresh "Hl" in
      set (b := cnot (a .& m) << sh);
      destruct (ctz_step k a b t ltac:(lia) H ltac:(lia) (cnot_shl _ sh ltac:(lia))) as [H' Hl];
      clearbody b; set (a' := a >> b) in *; clearbody a'; clear H
  end.
Lemma ctz_last a t : trailing a t -> t < 2 -> cnot (a .& 1) = t.
Proof.
  intros Ht H2. pose proof (low_mask_zero 1 a t ltac:(lia) Ht) as Hm. change (2 ^ 1 - 1) with 1 in Hm.
  destruct Ht as [Ht _]. unfold cnot. destruct (Z.eqb_spec (a .& 1) 0) as [H0|H0]; cbn [Z.b2z]; rewrite Hm in H0; lia.
Qed.
Lemma ctzsi2_spec a t : trailing a t -> t < 32 -> __ctzsi2 a = t.
Proof. intros H Ht. unfold __ctzsi2. cbv zeta. ctz_steps. erewrite ctz_last by (eassumption || lia). lia. Qed.
Lemma ctzdi2_spec a t : trailing a t -> t < 64 -> __ctzdi2 a = t.
Proof. intros H Ht. unfold __ctzdi2. cbv zeta. ctz_steps. erewrite ctz_last by (eassumption || lia). lia. Qed.
Lemma trailing_nonzero a t : trailing a t -> a <> 0.
Proof. intros (_&Hb&_) ->. by rewrite Z.bits_0 in Hb. Qed.
Lemma trailing_bound w a t : 0 <= w -> in_u w a -> trailing a t -> t < w.
Proof.
  intros Hw Ha (Ht&Hb&_). destruct (decide (t < w)); [done|]. by rewrite (in_u_testbit w) in Hb by lia || done.
Qed.

(** ** Population count *)
Lemma popcount_double b y : 0 <= y -> 0 <= b < 2 -> popcount (b + 2 * y) = b + popcount y.
Proof.
  intros Hy Hb. assert (b = 0 \/ b = 1) as [-> | ->] by lia; destruct y as [|p|]; try lia; cbn; try lia; done.
Qed.
Lemma popcount_cat (n : nat) x y :
  0 <= y -> in_u (Z.of_nat n) x -> popcount (x + 2 ^ Z.of_nat n * y) = popcount x + popcount y.
Proof.
  intros Hy. revert x; induction n as [|n IH]; intros x Hx.
  - unfold in_u in Hx. change (2 ^ Z.of_nat 0) with 1 in *. assert (x = 0) as -> by lia. cbn. by destruct y.
  - unfold in_u in *. rewrite Nat2Z.inj_succ, Z.pow_succ_r in * by lia. pose proof (Z.div_mod x 2 ltac:(lia)) as Hd.
    pose proof (Z.mod_pos_bound x 2 ltac:(lia)). assert (0 <= x / 2 < 2 ^ Z.of_nat n) by (split; [apply Z.div_pos; lia|apply Z.div_lt_upper_bound; lia]).
    replace (x + 2 * 2 ^ Z.of_nat n * y) with (x mod 2 + 2 * (x / 2 + 2 ^ Z.of_nat n * y)) by lia.
    pose proof (Z.pow_pos_nonneg 2 (Z.of_nat n)). rewrite popcount_double, IH by (lia || nia).
    rewrite Hd at 3. replace (2 * (x / 2) + x mod 2) with (x mod 2 + 2 * (x / 2)) by lia. rewrite popcount_double by lia. lia.
Qed.
(** Masks and fields of a word made of a byte and the rest. *)
Lemma testbit_cat x y i : 0 <= i -> in_u 8 x -> Z.testbit (x + 256 * y) i = if i <? 8 then Z.testbit x i else Z.testbit y (i - 8).
Proof.
  intros Hi Hx. replace (x + 256 * y) with (x .| (y << 8)) by (rewrite lor_shl_add by done; lia).
  rewrite Z.lor_spec, testbit_shl by done. destruct (Z.ltb_spec i 8), (Z.leb_spec 8 i); try lia; cbn [andb].
  - apply orb_false_r.
  - by rewrite (in_u_testbit 8 x) by lia || done.
Qed.
Lemma cat_land x y m M : in_u 8 x -> in_u 8 m -> (x + 256 * y) .& (m + 256 * M) = (x .& m) + 256 * (y .& M).
Proof.
  intros Hx Hm. apply Z.bits_inj'. intros i Hi. rewrite Z.land_spec, !testbit_cat by (done || apply in_u_land_l; done).
  rewrite !Z.land_spec. by destruct (i <? 8).
Qed.
Lemma cat_field x y s m M :
  0 <= s <= 8 -> in_u 8 x -> in_u (8 - s) m ->
  ((x + 256 * y) >> s) .& (m + 256 * M) = ((x >> s) .& m) + 256 * ((y >> s) .& M).
Proof.
  intros Hs Hx Hm. assert (in_u 8 m) by (eapply (in_u_mono (8 - s)); [lia|done]).
  assert (forall i, 8 - s <= i -> Z.testbit m i = false) as Hm0 by (intros; apply (in_u_testbit (8 - s)); (lia || done)).
  apply Z.bits_inj'. intros i Hi.
  rewrite Z.land_spec, !testbit_cat, Z.shiftr_spec, testbit_cat, !Z.land_spec by (done || lia || apply in_u_land_r; done).
  destruct (Z.ltb_spec i 8), (Z.ltb_spec (i + s) 8); try lia; rewrite ?Z.shiftr_spec by lia; try done.
  - rewrite Hm0 by lia. by rewrite !andb_false_r.
  - replace (i + s - 8) with (i - 8 + s) by lia. done.
Qed.
(** The byte-parallel sums, over a word of [n] bytes and over a single byte. *)
Fixpoint rep (n : nat) (m : Z) : Z := match n with O => 0 | S n => m + 256 * rep n m end.
Fixpoint cat (l : list Z) : Z := match l with [] => 0 | x :: l => x + 256 * cat l end.
Definition swar1 (M a : Z) : Z := a - ((a >> 1) .& M).
Definition swar2 (M a : Z) : Z := ((a >> 2) .& M) + (a .& M).
Definition swar3 (M a : Z) : Z := (a + (a >> 4)) .& M.
Definition nibbles_ok (x : Z) : Prop := 0 <= x <= 0x44 /\ x mod 16 <= 4.
Definition byte_facts (x : Z) : bool :=
  let b1 := swar1 0x55 x in let b2 := swar2 0x33 b1 in
  (0 <=? b1) && (b1 <? 256) && (0 <=? b2) && (b2 <=? 0x44) && (b2 mod 16 <=? 4) &&
  (swar3 0x0F b2 =? popcount x) && (0 <=? popcount x) && (popcount x <=? 8).
Lemma byte_facts_all x : in_u 8 x -> byte_facts x = true.
Proof.
  intros Hx. unfold in_u in Hx. assert (forallb byte_facts (seqZ 0 256) = true) as H by (vm_compute; reflexivity).
  rewrite forallb_forall in H. apply H. apply list_elem_of_In, elem_of_seqZ. lia.
Qed.
Ltac byte_cases x Hx :=
  let H := fresh "H" in pose proof (byte_facts_all x Hx) as H; unfold byte_facts in H; cbv zeta in H;
  rewrite !andb_true_iff, !Z.leb_le, !Z.ltb_lt, !Z.eqb_eq in H.
Lemma swar1_cat l : Forall (in_u 8) l -> swar1 (rep (length l) 0x55) (cat l) = cat (swar1 0x55 <$> l).
Proof.
  induction 1 as [|x l Hx Hl IH]; [done|]. cbn [length rep cat fmap list_fmap]. rewrite <- IH.
  unfold swar1. rewrite cat_field by (done || unfold in_u; lia). lia.
Qed.
Lemma swar2_cat l : Forall (in_u 8) l -> swar2 (rep (length l) 0x33) (cat l) = cat (swar2 0x33 <$> l).
Proof.
  induction 1 as [|x l Hx Hl IH]; [done|]. cbn [length rep cat fmap list_fmap]. rewrite <- IH.
  unfold swar2. rewrite cat_field, cat_land by (done || unfold in_u; lia). lia.
Qed.
Lemma cat_mod16 l : Forall nibbles_ok l -> cat l mod 16 <= 4 /\ 0 <= cat l.
Proof.
  induction 1 as [|x l [Hx Hm] Hl [_ IH]]; [done|]. cbn [cat]. split; [|lia].
  replace (x + 256 * cat l) with (x + (16 * cat l) * 16) by lia. by rewrite Z.mod_add.
Qed.
Lemma land_15_add x y : (x + 16 * y) .& 15 = x .& 15.
Proof. change 15 with (Z.ones 4). rewrite !Z.land_ones by done. rewrite Z.mul_comm. by rewrite Z.mod_add. Qed.
Lemma swar3_cat l : Forall nibbles_ok l -> swar3 (rep (length l) 0x0F) (cat l) = cat (swar3 0x0F <$> l).
Proof.
  induction 1 as [|x l [Hx Hm] Hl IH]; [done|]. cbn [length rep cat fmap list_fmap]. rewrite <- IH.
  pose proof (cat_mod16 l Hl) as [Hc H0]. unfold swar3. set (y := cat l) in *. clearbody y.
  pose proof (Z.div_mod y 16 ltac:(lia)). pose proof (Z.div_mod x 16 ltac:(lia)).
  pose proof (Z.mod_pos_bound x 16 ltac:(lia)). pose proof (Z.mod_pos_bound y 16 ltac:(lia)).
  assert ((x + 256 * y) / 16 = x / 16 + 16 * y) as Hd by (symmetry; apply (Z.div_unique _ _ _ (x mod 16)); lia).
  rewrite !Z.shiftr_div_pow2 by done. change (2 ^ 4) with 16. rewrite Hd.
  replace (x + 256 * y + (x / 16 + 16 * y)) with (((x + x / 16) + 16 * (y mod 16)) + 256 * (y + y / 16)) by lia.
  rewrite cat_land, land_15_add by (unfold in_u; lia). done.
Qed.
(** The three stages give the byte counts. *)
Lemma swar_bytes l :
  Forall (in_u 8) l ->
  Forall (in_u 8) (swar1 0x55 <$> l) /\ Forall nibbles_ok (swar2 0x33 <$> (swar1 0x55 <$> l)) /\
  swar3 0x0F <$> (swar2 0x33 <$> (swar1 0x55 <$> l)) = popcount <$> l /\ Forall (fun v => 0 <= v <= 8) (popcount <$> l) /\
  popcount (cat l) = foldr Z.add 0 (popcount <$> l).
Proof.
  induction 1 as [|x l Hx Hl (H1&H2&H3&H4&H5)]; [done|]. byte_cases x Hx. cbn [fmap list_fmap cat foldr].
  split_and!; try (constructor; [|assumption]); [unfold in_u; lia|unfold nibbles_ok; lia|f_equal; [lia|done]|lia|].
  rewrite <- H5. change 256 with (2 ^ Z.of_nat 8). apply popcount_cat; [|done].
  clear -Hl. induction Hl as [|z l Hz Hl IH]; cbn; unfold in_u in *; lia.
Qed.
Lemma cat_le_split n a : in_u (8 * Z.of_nat n) a -> cat (le_split n a) = a.
Proof.
  revert a; induction n as [|n IH]; intros a Ha.
  - unfold in_u in Ha. cbn in *. lia.
  - cbn [le_split cat]. rewrite IH.
    + unfold wrapu. rewrite Z.shiftr_div_pow2 by done. change (2 ^ 8) with 256. pose proof (Z.div_mod a 256). lia.
    + unfold in_u in *. rewrite Z.shiftr_div_pow2 by done. replace (8 * Z.of_nat (S n)) with (8 + 8 * Z.of_nat n) in Ha by lia.
      rewrite Z.pow_add_r in Ha by lia. split; [apply Z.div_pos; lia|apply Z.div_lt_upper_bound; lia].
Qed.
Lemma cat_range l : Forall (in_u 8) l -> 0 <= cat l < 256 ^ Z.of_nat (length l).
Proof.
  induction 1 as [|x l Hx Hl IH]; [done|]. cbn [cat length]. rewrite Nat2Z.inj_succ, Z.pow_succ_r by lia. unfold in_u in Hx. lia.
Qed.
Lemma cat_nibbles l : Forall nibbles_ok l -> 0 <= 2 * cat l < 256 ^ Z.of_nat (length l).
Proof.
  induction 1 as [|x l [Hx _] Hl IH]; [done|]. cbn [cat length]. rewrite Nat2Z.inj_succ, Z.pow_succ_r by lia. lia.
Qed.
(** The three stages of a popcount on [n] bytes, the conversions included. *)
Lemma swar_stages n W a :
  W = 8 * Z.of_nat n -> in_u W a ->
  let a1 := wrapu W (swar1 (rep n 0x55) a) in
  let a2 := wrapu W (swar2 (rep n 0x33) a1) in
  wrapu W (a2 + (a2 >> 4)) .& rep n 0x0F = cat (popcount <$> le_split n a) /\
  Forall (fun v => 0 <= v <= 8) (popcount <$> le_split n a) /\
  popcount a = foldr Z.add 0 (popcount <$> le_split n a).
Proof.
  intros -> Ha. cbv zeta. set (W := 8 * Z.of_nat n).
  assert (2 ^ W = 256 ^ Z.of_nat n) as HW by (unfold W; rewrite Z.pow_mul_r by lia; done).
  set (l := le_split n a). assert (length l = n) as Hn by apply length_le_split.
  assert (Forall (in_u 8) l) as Hl by apply le_split_bytes.
  assert (cat l = a) as Hc by (by apply cat_le_split).
  pose proof (swar_bytes l Hl) as (H1&H2&H3&H4&H5). rewrite Hc in H5.
  replace (swar1 (rep n 0x55) a) with (cat (swar1 0x55 <$> l)) by (rewrite <- swar1_cat by done; by rewrite Hn, Hc).
  assert (forall k, Forall (in_u 8) k -> length k = n -> wrapu W (cat k) = cat k) as Hwrap.
  { intros k Hk Hkn. apply wrapu_id. unfold in_u. rewrite HW, <- Hkn. by apply cat_range. }
  rewrite Hwrap by (done || by rewrite length_fmap).
  set (l1 := swar1 0x55 <$> l) in *. assert (length l1 = n) as Hn1 by (unfold l1; by rewrite length_fmap).
  replace (swar2 (rep n 0x33) (cat l1)) with (cat (swar2 0x33 <$> l1)) by (rewrite <- swar2_cat by done; by rewrite Hn1).
  set (l2 := swar2 0x33 <$> l1) in *.
  assert (length l2 = n) as Hn2 by (unfold l2; by rewrite length_fmap).
  assert (Forall (in_u 8) l2) as H2' by (eapply Forall_impl; [exact H2|]; intros x [Hx _]; unfold in_u; lia).
  rewrite Hwrap by done. pose proof (cat_nibbles l2 H2) as Hd. rewrite Hn2, <- HW in Hd.
  assert (0 <= cat l2 >> 4 <= cat l2) as Hs.
  { rewrite Z.shiftr_div_pow2 by done. split; [apply Z.div_pos; lia|apply Z.div_le_upper_bound; lia]. }
  rewrite wrapu_id by (unfold in_u; lia). split_and!; [|done|done].
  rewrite <- H3, <- swar3_cat by done. by rewrite Hn2.
Qed.
Lemma shr_cat v w k m : 0 <= k -> m = 2 ^ k -> 0 <= v < m -> (v + m * w) >> k = w.
Proof. intros Hk -> Hv. rewrite Z.shiftr_div_pow2 by done. symmetry. apply (Z.div_unique _ _ _ v); lia. Qed.
(** Folding the upper half of the byte sums onto the lower one. *)
Lemma fold_shr W k lo hi :
  0 <= k -> 0 <= lo < 2 ^ k -> 0 <= lo + 2 ^ k * hi + hi < 2 ^ W ->
  wrapu W (lo + 2 ^ k * hi + ((lo + 2 ^ k * hi) >> k)) = lo + 2 ^ k * hi + hi.
Proof.
  intros Hk Hlo Hr. rewrite Z.shiftr_div_pow2 by done.
  replace ((lo + 2 ^ k * hi) / 2 ^ k) with hi by (apply (Z.div_unique _ _ _ lo); lia). by apply wrapu_id.
Qed.
Lemma last_byte k s r : 0 <= k <= 8 -> 0 <= s < 2 ^ k -> (s + 256 * r) .& (2 ^ k - 1) = s.
Proof.
  intros Hk Hs. replace (2 ^ k - 1) with (Z.ones k) by (rewrite Z.ones_equiv; lia). rewrite Z.land_ones by lia.
  replace (256 * r) with ((2 ^ (8 - k) * r) * 2 ^ k).
  - rewrite Z.mod_add by (apply Z.pow_nonzero; lia). by apply Z.mod_small.
  - change 256 with (2 ^ 8). replace 8 with ((8 - k) + k) at 2 by lia. rewrite Z.pow_add_r by lia. lia.
Qed.
Ltac fold_at W k lo hi :=
  match goal with |- context [wrapu W (?x + (?x >> k))] =>
    replace x with (lo + 2 ^ k * hi) by (cbn; lia); rewrite (fold_shr W k lo hi) by (cbn; lia)
  end.
Lemma popcountsi2_spec a : in_u 32 a -> __popcountsi2 a = popcount a.
Proof.
  intros Ha. pose proof (swar_stages 4 32 a eq_refl Ha) as (H1&H2&H3). cbv zeta in H1. unfold swar1, swar2 in H1.
  change (rep 4 0x55) with 0x55555555 in H1. change (rep 4 0x33) with 0x33333333 in H1. change (rep 4 0x0F) with 0x0F0F0F0F in H1.
  unfold __popcountsi2. cbv zeta. rewrite H1, H3. clear H1 H3. destruct (popcount <$> le_split 4 a) as [|v0 [|v1 [|v2 [|v3 [|]]]]] eqn:Hl;
    try (apply (f_equal length) in Hl; by rewrite length_fmap, length_le_split in Hl).
  clear Hl Ha. rewrite !Forall_cons in H2. destruct_and! H2. cbn [cat foldr].
  fold_at 32 16 (v0 + 256 * v1) (v2 + 256 * v3).
  fold_at 32 8 (v0 + v2) (v1 + v3 + 256 * (v2 + 256 * v3)).
  change 63 with (2 ^ 6 - 1).
  replace (_ + _ + _) with ((v0 + v1 + v2 + v3) + 256 * (v1 + v3 + 256 * (v2 + 256 * v3) + v2 + 256 * v3)) at 1 by (cbn; lia).
  rewrite last_byte by (cbn; lia). lia.
Qed.
Lemma popcountdi2_spec a : in_u 64 a -> __popcountdi2 a = popcount a.
Proof.
  intros Ha. pose proof (swar_stages 8 64 a eq_refl Ha) as (H1&H2&H3). cbv zeta in H1. unfold swar1, swar2 in H1.
  change (rep 8 0x55) with 0x5555555555555555 in H1. change (rep 8 0x33) with 0x3333333333333333 in H1.
  change (rep 8 0x0F) with 0x0F0F0F0F0F0F0F0F in H1.
  unfold __popcountdi2. cbv zeta. rewrite H1, H3. clear H1 H3.
  destruct (popcount <$> le_split 8 a) as [|v0 [|v1 [|v2 [|v3 [|v4 [|v5 [|v6 [|v7 [|]]]]]]]]] eqn:Hl;
    try (apply (f_equal length) in Hl; by rewrite length_fmap, length_le_split in Hl).
  clear Hl Ha. rewrite !Forall_cons in H2. destruct_and! H2. cbn [cat foldr].
  set (h := v4 + 256 * (v5 + 256 * (v6 + 256 * v7))). assert (0 <= h <= 8 * 0x1010101) as Hh by (unfold h; lia).
  fold_at 64 32 (v0 + 256 * (v1 + 256 * (v2 + 256 * v3))) h.
  set (m := (v2 + v6) + 256 * (v3 + v7) + 65536 * h). assert (0 <= m <= 17 * 0x10101010101) as Hm by (unfold m; lia).
  fold_at 64 16 ((v0 + v4) + 256 * (v1 + v5)) m.
  set (r := (v1 + v5) + (v3 + v7) + 256 * (m + h)).
  fold_at 64 8 ((v0 + v4) + (v2 + v6)) r.
  change 127 with (2 ^ 7 - 1).
  match goal with |- ?x .& _ = _ => replace x with ((v0 + v1 + v2 + v3 + v4 + v5 + v6 + v7) + 256 * (r + m + h)) by (unfold r, m, h; cbn; lia) end.
  rewrite last_byte by (cbn; lia). lia.
Qed.

(** ** The claims *)
Lemma signed_errors x y :
  in_s 64 x -> in_s 64 y -> x = - 2 ^ 63 \/ y = - 2 ^ 63 \/ y = 0 ->
  __divdi3 x y = Stop HostUB /\ __moddi3 x y = Stop HostUB.
Proof.
  intros Hx Hy Herr. unfold __divdi3, __moddi3. rewrite !abs_spec by done.
  destruct (Z.eqb_spec x (- 2 ^ 63)) as [|Hnx]; [done|]. destruct (Z.eqb_spec y (- 2 ^ 63)) as [|Hny]; [done|].
  destruct Herr as [?|[?| ->]]; [done|done|]. cbn [mbind result_bind]. unfold in_s in *.
  rewrite divmoddi4_spec; [done|unfold in_u; rewrite wrapu_id by (unfold in_u; lia); lia|done].
Qed.

(** C40. The long division of the guest's support library is exact at every
    operand: [__udivdi3] and [__umoddi3] return the quotient and the remainder of
    the unsigned division, [__divdi3] and [__moddi3] those of the division that
    truncates towards zero; a zero divisor raises the forced exception, and the
    most negative operand, which has no absolute value, is the only other operand
    that is undefined behaviour. *)
Theorem long_division_exact (a b : Z) (Ha : in_u 64 a) (Hb : in_u 64 b) :
  __divmoddi4 a b = (if b =? 0 then Stop HostUB else Ok (a / b, a mod b)) /\
  __udivdi3 a b = (if b =? 0 then Stop HostUB else Ok (a / b)) /\
  __umoddi3 a b = (if b =? 0 then Stop HostUB else Ok (a mod b)) /\
  (s64 a = - 2 ^ 63 \/ s64 b = - 2 ^ 63 \/ s64 b = 0 ->
   __divdi3 (s64 a) (s64 b) = Stop HostUB /\ __moddi3 (s64 a) (s64 b) = Stop HostUB) /\
  (~ (s64 a = - 2 ^ 63 \/ s64 b = - 2 ^ 63 \/ s64 b = 0) ->
   __divdi3 (s64 a) (s64 b) = Ok (Z.quot (s64 a) (s64 b)) /\ __moddi3 (s64 a) (s64 b) = Ok (Z.rem (s64 a) (s64 b))).
Proof.
  assert (in_s 64 (s64 a) /\ in_s 64 (s64 b)) as [Hsa Hsb] by (split; rng).
  unfold __udivdi3, __umoddi3. rewrite divmoddi4_spec by done. split_and!; try (by destruct (b =? 0)).
  - by apply signed_errors.
  - intros Hn. apply signed_divmod; tauto.
Qed.
Lemma long_division_exact_witness :
  __udivdi3 0xffffffffffffffff 0x100000003 = Ok 0xfffffffd /\ __divdi3 (-7) 2 = Ok (-3) /\ __moddi3 (-7) 2 = Ok (-1).
Proof.
  destruct (long_division_exact 0xffffffffffffffff 0x100000003 ltac:(unfold in_u; lia) ltac:(unfold in_u; lia)) as (_&H1&_).
  destruct (long_division_exact (2 ^ 64 - 7) 2 ltac:(unfold in_u; lia) ltac:(unfold in_u; lia)) as (_&_&_&_&H2).
  split; [exact H1|]. apply H2. vm_compute. intros [?|[?|?]]; discriminate.
Defined.

(** The shifts and bit counts of the guest's support library equal their
    definitions: the three 64-bit shifts take the distance modulo 64, in two
    halves as in one word; for a nonzero word the leading-zero count is the
    distance of the highest bit set from the top, the trailing-zero count the
    index of the lowest one, and [__ffsdi2] is one more, 0 at 0; the population
    counts are the number of bits set. *)
Theorem shifts_and_counts_exact (a b : Z) (Ha : in_u 64 a) :
  __ashldi3 (s64 a) b = s64 (a << (b .& 63)) /\ __lshrdi3 a b = a >> (b .& 63) /\
  __ashrdi3 (s64 a) b = s64 a >> (b .& 63) /\
  (0 < a -> __clzdi2 a = 63 - Z.log2 a) /\ (0 < a < 2 ^ 32 -> __clzsi2 a = 31 - Z.log2 a) /\
  (forall t, trailing a t -> __ctzdi2 a = t /\ __ffsdi2 a = t + 1 /\ (a < 2 ^ 32 -> __ctzsi2 a = t)) /\
  __ffsdi2 0 = 0 /\ __popcountdi2 a = popcount a /\ (a < 2 ^ 32 -> __popcountsi2 a = popcount a).
Proof.
  unfold in_u in Ha. split_and!.
  - rewrite ashldi3_spec. apply wraps_ext; [done|]. intros i Hi. pose proof (land_63_range b).
    rewrite !testbit_shl by lia. destruct (Z.leb_spec (b .& 63) i); [|done]. rewrite testbit_wraps by lia.
    by rewrite (proj2 (Z.ltb_lt (i - (b .& 63)) 64)) by lia.
  - by apply lshrdi3_spec.
  - apply ashrdi3_spec. rng.
  - intros. apply clzdi2_spec. lia.
  - apply clzsi2_spec.
  - intros t Ht. pose proof (trailing_bound 64 a t ltac:(lia) Ha Ht). pose proof (trailing_nonzero a t Ht).
    unfold __ffsdi2. rewrite (proj2 (Z.eqb_neq a 0)), (ctzdi2_spec a t) by done. split_and!; [done|done|].
    intros H32. apply ctzsi2_spec; [done|]. apply (trailing_bound 32 a); [lia|unfold in_u; lia|done].
  - done.
  - by apply popcountdi2_spec.
  - intros. apply popcountsi2_spec. unfold in_u; lia.
Qed.
Lemma shifts_and_counts_exact_witness :
  __clzdi2 0x00f0 = 56 /\ __ctzdi2 0x00f0 = 4 /\ __popcountdi2 0x00f0 = 4.
Proof.
  destruct (shifts_and_counts_exact 0x00f0 0 ltac:(unfold in_u; lia)) as (_&_&_&Hc&_&Ht&_&Hp&_).
  split; [rewrite Hc; [reflexivity|lia]|]. split; [|exact Hp]. apply (proj1 (Ht 4 ltac:(split; [lia|]; split; [reflexivity|];
    intros i Hi; assert (i = 0 \/ i = 1 \/ i = 2 \/ i = 3) as Hi' by lia; destruct_or! Hi'; subst i; reflexivity))).
Defined.
