(* ===== verification/Helpers.v ===== *)
(** The arithmetic helpers of [src/helper.hh], at [uint64_t], and the cyclic
    redundancy check of [src/helper.cc]. *)
From S2P Require Import Prelude Bits.

(** ** Powers of two *)
Definition isPow2 (x : Z) : bool := u64 (x - 1) .& x =? 0.
(** The loop [while(y < x) { l++; y *= 2; }] of [ln2] and [nextPow2]. *)
Fixpoint doubling (fuel : nat) (x y l : Z) : result (Z * Z) :=
  match fuel with
  | O => Stop OutOfFuel
  | S fuel => if y <? x then doubling fuel x (u64 (y * 2)) (u64 (l + 1)) else Ok (y, l)
  end.
(** Sixty-four rounds are enough whenever the loop ends at all. *)
Definition doubling_fuel : nat := 64.
Definition ln2 (x : Z) : result Z := let! (y, l) := doubling doubling_fuel x 1 0 in Ok l.
Definition nextPow2 (x : Z) : result Z := let! (y, l) := doubling doubling_fuel x 1 0 in Ok y.
Definition mod_ (x y : Z) : result Z :=
  if isPow2 y then Ok (x .& u64 (y - 1)) else if y =? 0 then Stop HostUB else Ok (x mod y).
(** ** Single bits *)
Definition extractBit (x b : Z) : result bool := if 64 <=? b then Stop HostUB else Ok (Z.testbit x b).
Definition setBit (x v b : Z) : result Z :=
  if 64 <=? b then Stop HostUB else
  let t := 1 << b in
  Ok ((u64 (.~ t) .& x) .| (t .& u64 (.~ u64 (v - 1)))).
(** ** The CRC, one bit at a time *)
Definition POLY : Z := 0x82f63b78.
Definition crc_bit (c : Z) : Z := if Z.testbit c 0 then (c >> 1) .^ POLY else c >> 1.
Definition crc_byte (c b : Z) : Z := Nat.iter 8 crc_bit (c .^ b).
Definition update_crc (crc : Z) (buf : list Z) : Z := foldl crc_byte crc buf.
Definition crc32 (buf : list Z) : Z := update_crc (u32 (.~ 0)) buf .^ u32 (.~ 0).

(** ** The open flags of the simulated system, in the order of the host's *)
Definition simIOFlags : list Z := [0; 1; 2; 0x0008; 0x0200; 0x0400; 0x0800; 0x2000; 0x4000; 0x8000].
Definition remapIOFlags (hostIOFlags : list Z) (flags : Z) : Z :=
  foldl (fun nflags (f : Z * Z) => if flags .& f.1 =/? 0 then nflags .| f.2 else nflags) 0 (zip simIOFlags hostIOFlags).

(** ** Powers of two: what the helpers compute *)
Lemma doubling_ends fuel x k :
  0 <= k -> x <= 2 ^ 63 -> 0 <= 63 - k < Z.of_nat fuel -> (0 < k -> 2 ^ (k - 1) < x) ->
  exists l, doubling fuel x (2 ^ k) k = Ok (2 ^ l, l) /\ k <= l <= 63 /\ x <= 2 ^ l /\ (0 < l -> 2 ^ (l - 1) < x).
Proof.
  intros Hk Hx. revert k Hk. induction fuel as [|fuel IH]; intros k Hk Hf Hlo; [lia|]. cbn [doubling].
  destruct (Z.ltb_spec (2 ^ k) x) as [Hlt|Hge]; [|exists k; repeat split; auto; lia].
  assert (k < 63) by (apply (Z.pow_lt_mono_r_iff 2); lia).
  assert (2 ^ k * 2 = 2 ^ (k + 1)) as E by (rewrite Z.pow_add_r; lia).
  assert (0 < 2 ^ (k + 1) <= 2 ^ 63) by (split; [apply Z.pow_pos_nonneg; lia | apply Z.pow_le_mono_r; lia]).
  rewrite E, (wrapu_id 64 (2 ^ (k + 1))), (wrapu_id 64 (k + 1)) by (unfold in_u; lia).
  destruct (IH (k + 1)) as (l & Hl & Hr & Hx' & Hlo'); [lia..| |exists l; repeat split; auto; lia].
  intros _. replace (k + 1 - 1) with k by lia. done.
Qed.
(** For an argument above [2^63] the doubled value wraps to zero and the loop
    goes on for ever. *)
Lemma doubling_from_zero fuel x l : 0 < x -> doubling fuel x 0 l = Stop OutOfFuel.
Proof.
  intros Hx. revert l. induction fuel as [|fuel IH]; intros l; [done|]. cbn [doubling].
  destruct (Z.ltb_spec 0 x); [|lia]. apply IH.
Qed.
Lemma doubling_diverges fuel x (n : nat) l :
  2 ^ 63 < x -> (n <= 63)%nat -> doubling fuel x (2 ^ (63 - Z.of_nat n)) l = Stop OutOfFuel.
Proof.
  intros Hx. revert fuel l. induction n as [|n IH]; intros [|fuel] l Hn; try done; cbn [doubling].
  - destruct (Z.ltb_spec (2 ^ (63 - Z.of_nat 0)) x); [|cbn in *; lia]. change (u64 (2 ^ (63 - Z.of_nat 0) * 2)) with 0.
    apply doubling_from_zero. lia.
  - assert (2 ^ (63 - Z.of_nat (S n)) * 2 = 2 ^ (63 - Z.of_nat n)) as E.
    { replace (63 - Z.of_nat n) with (63 - Z.of_nat (S n) + 1) by lia. rewrite Z.pow_add_r; lia. }
    assert (0 < 2 ^ (63 - Z.of_nat n) <= 2 ^ 63) by (split; [apply Z.pow_pos_nonneg; lia | apply Z.pow_le_mono_r; lia]).
    destruct (Z.ltb_spec (2 ^ (63 - Z.of_nat (S n))) x); [|lia].
    rewrite E, (wrapu_id 64 (2 ^ _)) by (unfold in_u; lia). apply IH. lia.
Qed.
Lemma isPow2_mask k : 0 <= k < 64 -> isPow2 (2 ^ k) = true.
Proof.
  intros Hk. unfold isPow2. assert (1 <= 2 ^ k < 2 ^ 64) by (split; [lia | apply Z.pow_lt_mono_r; lia]).
  rewrite wrapu_id by (unfold in_u; lia). rewrite <- (Z.ones_equiv k : Z.ones k = 2 ^ k - 1).
  apply Z.eqb_eq, Z.bits_inj'. intros i Hi. rewrite Z.land_spec, Z.bits_0, Z.pow2_bits_eqb by lia.
  destruct (Z.eqb_spec k i) as [<-|]; [|by rewrite andb_false_r]. by rewrite Z.ones_spec_high by lia.
Qed.
Lemma isPow2_pow2 x : 0 < x < 2 ^ 64 -> isPow2 x = true -> x = 2 ^ Z.log2 x.
Proof.
  intros Hx. unfold isPow2. rewrite wrapu_id by (unfold in_u; lia). intros H%Z.eqb_eq.
  pose proof (Z.log2_spec x ltac:(lia)) as [Hlo _]. destruct (Z.eq_dec x (2 ^ Z.log2 x)) as [E|Hne]; [done|].
  assert (Z.log2 (x - 1) = Z.log2 x) as E.
  { apply Z.log2_unique; [apply Z.log2_nonneg|]. pose proof (Z.log2_spec x ltac:(lia)). lia. }
  assert (0 < x - 1) by (pose proof (Z.pow_pos_nonneg 2 (Z.log2 x) ltac:(lia) (Z.log2_nonneg x)); lia).
  apply (f_equal (fun y => Z.testbit y (Z.log2 x))) in H. rewrite Z.land_spec, Z.bits_0 in H.
  rewrite <- E in H at 1. rewrite !Z.bit_log2 in H by lia. done.
Qed.
Lemma mod_exact x y : 0 <= x < 2 ^ 64 -> 0 < y < 2 ^ 64 -> mod_ x y = Ok (x mod y).
Proof.
  intros Hx Hy. unfold mod_. destruct (isPow2 y) eqn:Hp; [|destruct (Z.eqb_spec y 0); [lia|done]].
  apply isPow2_pow2 in Hp; [|done]. rewrite wrapu_id by (unfold in_u; lia). rewrite Hp at 1.
  rewrite <- (Z.ones_equiv _ : Z.ones _ = 2 ^ _ - 1), Z.land_ones, <- Hp by apply Z.log2_nonneg. done.
Qed.
