(* ===== verification/HelpersProps.v ===== *)
(** What the helpers compute: logarithms and powers of two with the range in
    which their loop ends, the remainder, and the error detection of the CRC. *)
From S2P Require Import Prelude Bits Helpers.

(** [ln2] rounds the logarithm up and [nextPow2] rounds to the power of two at
    or above its argument, exactly when that power fits in 64 bits; otherwise
    neither loop ends, whatever the fuel.  [mod] is the remainder on both of
    its branches. *)
Theorem powers_of_two x y :
  0 <= x < 2 ^ 64 -> 0 < y < 2 ^ 64 ->
  mod_ x y = Ok (x mod y) /\
  (isPow2 x = true <-> x = 0 \/ x = 2 ^ Z.log2 x) /\
  (0 < x <= 2 ^ 63 -> ln2 x = Ok (Z.log2_up x) /\ nextPow2 x = Ok (2 ^ Z.log2_up x)) /\
  (2 ^ 63 < x -> forall fuel, doubling fuel x 1 0 = Stop OutOfFuel).
Proof.
  intros Hx Hy. split; [by apply mod_exact|]. split; [|split].
  - split; [intros Hp; destruct (Z.eq_dec x 0); [by left|right; apply isPow2_pow2; [lia|done]]|].
    intros [->|E]; [done|]. rewrite E. apply isPow2_mask. split; [apply Z.log2_nonneg|].
    destruct (Z.eq_dec x 0) as [->|]; [done|]. apply Z.log2_lt_pow2; lia.
  - intros Hr. destruct (doubling_ends doubling_fuel x 0) as (l & Hl & Hlr & Hhi & Hlo); [lia | lia | done | lia |].
    change (2 ^ 0) with 1 in Hl. unfold ln2, nextPow2. rewrite Hl. cbn [mbind result_bind].
    assert (Z.log2_up x = l) as ->; [|done]. destruct (Z.eq_dec l 0) as [->|].
    + assert (x = 1) as -> by (change (2 ^ 0) with 1 in Hhi; lia). done.
    + assert (2 ^ 0 <= 2 ^ (l - 1)) by (apply Z.pow_le_mono_r; lia). change (2 ^ 0) with 1 in *.
      apply Z.log2_up_unique; [lia|]. rewrite <- Z.sub_1_r. split; [apply Hlo; lia | done].
  - intros Hbig fuel. exact (doubling_diverges fuel x 63 0 Hbig ltac:(lia)).
Qed.
Theorem powers_of_two_witness :
  mod_ 1000 24 = Ok (1000 mod 24) /\ (0 < 1000 <= 2 ^ 63 -> ln2 1000 = Ok (Z.log2_up 1000) /\ nextPow2 1000 = Ok (2 ^ Z.log2_up 1000)).
Proof.
  destruct (powers_of_two 1000 24) as (H1 & _ & H2 & _); [split; [discriminate|reflexivity] | split; reflexivity |].
  split; assumption.
Defined.

(** ** The CRC as one long division *)
Abbreviation bytes_ok := (Forall (in_u 8)).
Lemma crc_bit_eq c : crc_bit c = (c >> 1) .^ (if Z.testbit c 0 then POLY else 0).
Proof. unfold crc_bit. destruct (Z.testbit c 0); [done|]. by rewrite Z.lxor_0_r. Qed.
Lemma crc_bit_lxor x y : crc_bit (x .^ y) = crc_bit x .^ crc_bit y.
Proof.
  rewrite !crc_bit_eq, Z.lxor_spec, Z.shiftr_lxor.
  assert (forall a b p q, a .^ b .^ (p .^ q) = a .^ p .^ (b .^ q)) as Hac.
  { intros a b p q. rewrite !Z.lxor_assoc. f_equal. rewrite <- !Z.lxor_assoc. f_equal. apply Z.lxor_comm. }
  rewrite <- Hac. f_equal.
  destruct (Z.testbit x 0), (Z.testbit y 0); cbn [xorb]; rewrite ?Z.lxor_nilpotent, ?Z.lxor_0_r, ?Z.lxor_0_l; done.
Qed.
Lemma crc_iter_lxor n x y : Nat.iter n crc_bit (x .^ y) = Nat.iter n crc_bit x .^ Nat.iter n crc_bit y.
Proof. induction n as [|n IH]; [done|]. rewrite !Nat.iter_succ. by rewrite IH, crc_bit_lxor. Qed.
Lemma crc_bit_shl y n : crc_bit (y << Z.of_nat (S n)) = y << Z.of_nat n.
Proof.
  rewrite crc_bit_eq, Z.shiftl_spec_low, Z.lxor_0_r by lia.
  rewrite Z.shiftr_shiftl_l by lia. f_equal. lia.
Qed.
Lemma crc_iter_shl n y : Nat.iter n crc_bit (y << Z.of_nat n) = y.
Proof.
  revert y. induction n as [|n IH]; intros y; [apply Z.shiftl_0_r|].
  rewrite Nat.iter_succ_r, crc_bit_shl. apply IH.
Qed.
Lemma crc_iter_0 n : Nat.iter n crc_bit 0 = 0.
Proof. induction n as [|n IH]; [done|]. rewrite Nat.iter_succ. by rewrite IH. Qed.
Lemma le_join_lxor b l : in_u 8 b -> le_join (b :: l) = b .^ (le_join l << 8).
Proof. intros Hb. cbn. rewrite <- Z.lxor_lor; [done|]. by apply land_shl_0. Qed.
(** Feeding the bytes one by one divides the whole message at once: the
    register after [l] is the register exclusive-or the message, as one integer,
    shifted through [8 * length l] steps. *)
Lemma update_crc_join l c :
  bytes_ok l -> update_crc c l = Nat.iter (8 * length l) crc_bit (c .^ le_join l).
Proof.
  intros Hl. revert c. induction Hl as [|b l Hb Hl IH]; intros c; [cbn; by rewrite Z.lxor_0_r|].
  change (update_crc c (b :: l)) with (update_crc (crc_byte c b) l). rewrite IH, le_join_lxor by done.
  replace (8 * length (b :: l))%nat with (8 * length l + 8)%nat by (cbn; lia).
  rewrite Nat.iter_add. f_equal. rewrite <- Z.lxor_assoc, (crc_iter_lxor 8).
  by rewrite (crc_iter_shl 8 (le_join l) : Nat.iter 8 crc_bit (le_join l << 8) = le_join l).
Qed.
Lemma crc_bit_range c : in_u 32 c -> in_u 32 (crc_bit c).
Proof.
  intros Hc. rewrite crc_bit_eq. apply in_u_lxor; [done | by apply in_u_shr|]. by destruct (Z.testbit c 0).
Qed.
Lemma crc_iter_range n c : in_u 32 c -> in_u 32 (Nat.iter n crc_bit c).
Proof. intros Hc. induction n as [|n IH]; [done|]. by apply crc_bit_range. Qed.
(** The polynomial has its top bit set: a step loses nothing of 32 bits. *)
Lemma crc_bit_zero c : in_u 32 c -> crc_bit c = 0 -> c = 0.
Proof.
  intros Hc H. rewrite crc_bit_eq in H. pose proof (f_equal (fun v => Z.testbit v 31) H) as Ht. cbv beta in Ht.
  rewrite Z.lxor_spec, Z.shiftr_spec, (in_u_testbit 32), Z.bits_0 in Ht by (lia || done).
  destruct (Z.testbit c 0) eqn:H0; [done|]. rewrite Z.lxor_0_r in H.
  apply Z.bits_inj'. intros i Hi. rewrite Z.bits_0. destruct (Z.eq_dec i 0) as [->|]; [done|].
  replace i with (i - 1 + 1) by lia. rewrite <- Z.shiftr_spec by lia. by rewrite H, Z.bits_0.
Qed.
Lemma crc_iter_zero n c : in_u 32 c -> Nat.iter n crc_bit c = 0 -> c = 0.
Proof.
  intros Hc. induction n as [|n IH]; [done|]. intros H. apply IH, crc_bit_zero; [by apply crc_iter_range | done].
Qed.
Lemma update_crc_app l l' c : update_crc c (l ++ l') = update_crc (update_crc c l) l'.
Proof. apply foldl_app. Qed.
Lemma update_crc_range l c : bytes_ok l -> in_u 32 c -> in_u 32 (update_crc c l).
Proof.
  intros Hl. revert c. induction Hl as [|b l Hb Hl IH]; intros c Hc; [done|].
  apply (IH (crc_byte c b)), crc_iter_range, in_u_lxor; [done..|]. by apply (in_u_mono 8).
Qed.
Lemma le_join_inj l l' : bytes_ok l -> bytes_ok l' -> length l = length l' -> le_join l = le_join l' -> l = l'.
Proof.
  intros Hl Hl' Hlen E. rewrite <- (le_split_join l), <- (le_split_join l') by done. by rewrite Hlen, E.
Qed.
Lemma lxor_eq_cancel a b c : a .^ c = b .^ c -> a = b.
Proof. intros H. rewrite <- (Z.lxor_0_r a), <- (Z.lxor_0_r b), <- (Z.lxor_nilpotent c), <- !Z.lxor_assoc. by rewrite H. Qed.

(** The CRC detects every burst of errors that fits in 32 bits: when two
    messages of the same length differ only inside a window of 32 bits, at any
    bit offset [k], and their CRCs agree, they are equal; and a message
    followed by its own CRC register, as four little-endian bytes, leaves the
    register at zero. *)
Theorem crc_detects_bursts (l l' : list Z) (d : Z) (k : nat) :
  bytes_ok l -> bytes_ok l' -> length l = length l' -> in_u 32 d -> le_join l .^ le_join l' = d << Z.of_nat k ->
  (k <= 8 * length l)%nat ->
  (crc32 l = crc32 l' -> l = l') /\
  (forall c, in_u 32 c -> update_crc c (l ++ le_split 4 (update_crc c l)) = 0).
Proof.
  intros Hl Hl' Hlen Hd E Hk. split.
  - intros Hcrc%lxor_eq_cancel. rewrite !update_crc_join, <- Hlen, !crc_iter_lxor in Hcrc by done.
    rewrite !(Z.lxor_comm (Nat.iter _ crc_bit (u32 _))) in Hcrc. apply lxor_eq_cancel in Hcrc.
    apply (proj2 (Z.lxor_eq_0_iff _ _)) in Hcrc. rewrite <- crc_iter_lxor, E in Hcrc.
    replace (8 * length l)%nat with (8 * length l - k + k)%nat in Hcrc by lia.
    rewrite Nat.iter_add, crc_iter_shl in Hcrc. apply crc_iter_zero in Hcrc; [|done].
    subst d. rewrite Z.shiftl_0_l in E. apply Z.lxor_eq in E. by apply le_join_inj.
  - intros c Hc. rewrite update_crc_app, (update_crc_join (le_split 4 _)) by apply le_split_bytes.
    rewrite le_join_split, wrapu_id by by apply update_crc_range. by rewrite Z.lxor_nilpotent, crc_iter_0.
Qed.
Theorem crc_detects_bursts_witness :
  crc32 (map Z.of_nat (seq 0x31 9)) = 0xe3069283 /\
  (crc32 [0x31; 0x32; 0x33] = crc32 [0x31; 0x0d; 0x33] -> [0x31; 0x32; 0x33] = [0x31; 0x0d; 0x33]).
Proof.
  split; [vm_compute; reflexivity|].
  apply (crc_detects_bursts [0x31; 0x32; 0x33] [0x31; 0x0d; 0x33] 0x3f 8); 
    [| | reflexivity | split; [discriminate|reflexivity] | reflexivity | cbn; lia];
    repeat (apply Forall_cons; split; [split; [discriminate|reflexivity]|]); apply Forall_nil; exact I.
Defined.

(** ** Open flags *)
(** Each flag is mapped by itself; the flag of value zero is never seen. *)
Lemma remapIOFlags_or host a b : remapIOFlags host (a .| b) = remapIOFlags host a .| remapIOFlags host b.
Proof.
  unfold remapIOFlags. set (l := zip _ _). assert (forall x y, foldl (fun n (f : Z * Z) => if (a .| b) .& f.1 =/? 0 then n .| f.2 else n) (x .| y) l =
    foldl (fun n (f : Z * Z) => if a .& f.1 =/? 0 then n .| f.2 else n) x l .| foldl (fun n (f : Z * Z) => if b .& f.1 =/? 0 then n .| f.2 else n) y l) as Hl.
  { induction l as [|[f h] l IH]; intros x y; [done|]. cbn [foldl fst snd]. rewrite <- IH. f_equal. rewrite Z.land_lor_distr_l.
    destruct (Z.eqb_spec (a .& f) 0) as [->|Ha], (Z.eqb_spec (b .& f) 0) as [->|Hb]; cbn [negb]; rewrite ?Z.lor_0_l, ?Z.lor_0_r.
    - done.
    - destruct (Z.eqb_spec (b .& f) 0); [done|]. cbn [negb]. by rewrite Z.lor_assoc.
    - destruct (Z.eqb_spec (a .& f) 0); [done|]. cbn [negb]. by rewrite <- !Z.lor_assoc, (Z.lor_comm y).
    - destruct (Z.eqb_spec (a .& f .| b .& f) 0) as [E|]; [apply Z.lor_eq_0_iff in E as [? _]; done|]. cbn [negb].
      rewrite <- !Z.lor_assoc. f_equal. rewrite (Z.lor_assoc h y h), (Z.lor_comm h y), <- Z.lor_assoc, Z.lor_diag. done. }
  exact (Hl 0 0).
Qed.
Lemma remapIOFlags_rdonly host : remapIOFlags host 0 = 0.
Proof. unfold remapIOFlags. induction (zip simIOFlags host) as [|[f h] l IH]; [done|]. cbn [foldl fst]. by rewrite Z.land_0_l. Qed.
