(* ===== verification/Bitvec.v ===== *)
(** The bit vector of [src/sim_bitvec.hh], at [uint64_t] (the [sim_bitvec] of
    the source).  An access past [arr] is undefined behaviour; [die] and a
    failing [assert] end the process. *)
From S2P Require Import Prelude Bits Helpers.

Definition bpw : Z := 64.
Definition all_ones : Z := u64 (.~ 0).
Record sim_bitvec := mk_bitvec { n_bits : Z; n_words : Z; ln2_bits : Z; last_bit : Z; arr : Zmap Z }.
Definition with_arr (a : Zmap Z) (b : sim_bitvec) : sim_bitvec :=
  mk_bitvec (n_bits b) (n_words b) (ln2_bits b) (last_bit b) a.

(** ** Construction *)
Definition new_bitvec (n : Z) : result sim_bitvec :=
  let! l := ln2 n in Ok (mk_bitvec n (u64 (n + bpw - 1) / bpw) l (u64 (n - 1)) ∅).
Definition clear (b : sim_bitvec) : sim_bitvec := with_arr ∅ b.
Definition clear_and_resize (n : Z) (b : sim_bitvec) : result sim_bitvec := new_bitvec n.
Definition copy (other b : sim_bitvec) : result sim_bitvec :=
  if (n_bits b =? n_bits other) && (n_words b =? n_words other) && (ln2_bits b =? ln2_bits other)
  then Ok (with_arr (arr other) b) else Stop HostExit.

(** ** Single bits *)
Definition word (w : Z) (b : sim_bitvec) : result Z :=
  if inside 0 (n_words b) w then Ok (arr b).[w] else Stop HostUB.
Definition get_bit (idx : Z) (b : sim_bitvec) : result bool :=
  let! v := word (idx / bpw) b in Ok (Z.testbit v (idx mod bpw)).
Definition set_bit (idx : Z) (b : sim_bitvec) : result sim_bitvec :=
  if n_bits b <=? idx then Stop HostExit else
  let! v := word (idx / bpw) b in Ok (with_arr (wr (idx / bpw) (v .| (1 << (idx mod bpw))) (arr b)) b).
Definition clear_bit (idx : Z) (b : sim_bitvec) : result sim_bitvec :=
  if n_bits b <=? idx then Stop HostExit else
  let! v := word (idx / bpw) b in
  Ok (with_arr (wr (idx / bpw) (v .& u64 (.~ (1 << (idx mod bpw)))) (arr b)) b).
Definition to_integer (b : sim_bitvec) : result Z := word 0 b.

(** ** Whole-vector operations *)
Definition words (b : sim_bitvec) : list Z := map Z.of_nat (seq 0 (Z.to_nat (n_words b))).
Definition equal (b other : sim_bitvec) : bool :=
  if (n_bits b =/? n_bits other) || (n_words b =/? n_words other) || (ln2_bits b =/? ln2_bits other) then false
  else forallb (fun w => (arr b).[w] =? (arr other).[w]) (words b).
Definition bit_list : list Z := map Z.of_nat (seq 0 64).
(** [__builtin_popcountll]. *)
Definition builtin_popcountll (x : Z) : Z := foldr (fun i n => Z.b2z (Z.testbit x i) + n) 0 bit_list.
Definition popcount (b : sim_bitvec) : result Z :=
  if u64 (bpw * n_words b) =/? n_bits b then Stop HostExit
  else Ok (foldl (fun c w => u64 (c + builtin_popcountll (arr b).[w])) 0 (words b)).
Definition num_free (b : sim_bitvec) : result Z := let! c := popcount b in Ok (u64 (n_bits b - c)).
(** The top word first, each word then takes the bits the one below sheds. *)
Fixpoint shift_down (amt : Z) (i : nat) (a : Zmap Z) : Zmap Z :=
  match i with
  | O => a
  | S i =>
      let k := Z.of_nat i in
      let wrap := a.[k] >> (bpw - amt) in
      let a := wr (k + 1) (a.[k + 1] .| wrap) a in
      shift_down amt i (wr k (u64 (a.[k] << amt)) a)
  end.
Definition shift_left (amt : Z) (b : sim_bitvec) : result sim_bitvec :=
  let! v := word (n_words b - 1) b in
  if (bpw <=? amt) || ((amt =? 0) && (1 <? n_words b)) then Stop HostUB else
  let a := wr (n_words b - 1) (u64 (v << amt)) (arr b) in
  Ok (with_arr (shift_down amt (Z.to_nat (n_words b - 1)) a) b).
(** The hash of the first [h_bits] bits, over boost's [hash_combine]. *)
Section hash.
Variable hash_combine : Z -> Z -> Z.
Definition hash_word (h_bits i : Z) (b : sim_bitvec) : result Z :=
  let w := (arr b).[i] in
  if h_bits <? u64 (bpw * (i + 1)) then
    let l := u64 (bpw - u64 (bpw * (i + 1) - h_bits)) in
    if bpw <=? l then Stop HostUB else Ok (w .& u64 ((1 << l) - 1))
  else Ok w.
Definition hash_prefix (h_bits : Z) (b : sim_bitvec) : result Z :=
  foldl (fun h i => let! h := h in let! w := hash_word h_bits i b in Ok (hash_combine h w)) (Ok 0)
    (map Z.of_nat (seq 0 (Z.to_nat (Z.min (u64 (n_bits b + bpw - 1) / bpw) (n_words b))))).
Definition hash (b : sim_bitvec) : Z := foldl (fun h w => hash_combine h (arr b).[w]) 0 (words b).
End hash.

(** ** Searches *)
(** [__builtin_ffsl]: one more than the index of the lowest set bit, or 0. *)
Definition builtin_ffsl (x : Z) : Z :=
  match first_from (Z.testbit x) 0 64 with Some k => k + 1 | None => 0 end.
(** [for(w = ...; w < n_words; w++)] with a [return] in the body. *)
Fixpoint scan (f : Z -> option Z) (w : Z) (n : nat) : Z :=
  match n with
  | O => -1
  | S n => match f w with Some r => r | None => scan f (w + 1) n end
  end.
Definition find_first_set (b : sim_bitvec) : Z :=
  scan (fun w =>
    let v := (arr b).[w] in
    if v =? 0 then None else
    let idx := u64 (bpw * w + (builtin_ffsl v - 1)) in
    Some (if idx <? n_bits b then s64 idx else -1)) 0 (Z.to_nat (n_words b)).
Definition find_first_unset (b : sim_bitvec) : Z :=
  scan (fun w =>
    let v := (arr b).[w] in
    if v =? all_ones then None else
    if v =? 0 then Some (s64 (u64 (bpw * w))) else
    let idx := u64 (bpw * w + (builtin_ffsl (u64 (.~ v)) - 1)) in
    if idx <? n_bits b then Some (s64 idx) else None) 0 (Z.to_nat (n_words b)).
(** The pairs of one word from bit [i] on. *)
Fixpoint pair_from (v w n i : Z) (fuel : nat) : option Z :=
  match fuel with
  | O => None
  | S fuel =>
      if i <? bpw then
        let p := u64 (bpw * w + i) in
        if n <=? p then Some (-1) else
        if (v >> i) .& 3 =? 0 then Some (s64 p) else pair_from v w n (i + 2) fuel
      else None
  end.
Definition find_first_unset_pair (b : sim_bitvec) : Z :=
  scan (fun w =>
    let v := (arr b).[w] in
    if v =? all_ones then None else
    if v =? 0 then Some (s64 (u64 (bpw * w))) else
    pair_from v w (n_bits b) (u64 (builtin_ffsl (u64 (.~ v)) - 1) .& u64 (.~ 1)) 32) 0 (Z.to_nat (n_words b)).
Definition find_next_set (idx : Z) (b : sim_bitvec) : result Z :=
  let idx := u64 (idx + 1) in
  let! v := word (idx / bpw) b in
  let ww := u64 ((v >> (idx mod bpw)) << (idx mod bpw)) in
  if ww =/? 0 then Ok (s64 (u64 (idx / bpw * bpw + (builtin_ffsl ww - 1)))) else
  Ok (scan (fun w =>
    let v := (arr b).[w] in
    if v =? 0 then None else
    let i := u64 (bpw * w + (builtin_ffsl v - 1)) in
    Some (if i <? n_bits b then s64 i else -1)) (idx / bpw + 1) (Z.to_nat (n_words b - (idx / bpw + 1)))).
Fixpoint unset_rr (i : nat) (p : Z) (b : sim_bitvec) : result Z :=
  match i with
  | O => Ok (-1)
  | S i =>
      let! v := get_bit p b in
      if (v : bool) then let! p := mod_ (u64 (p + 1)) (n_bits b) in unset_rr i p b else Ok (s64 p)
  end.
Definition find_first_unset_rr (b : sim_bitvec) : result Z := unset_rr (Z.to_nat (n_bits b)) (last_bit b) b.
