(* ===== verification/BitvecProps.v ===== *)
(** The bit vector implements a finite set of indices, and its word-at-a-time
    searches agree with a bit-by-bit reference. *)
From S2P Require Import Prelude Bits Helpers Bitvec.

(** ** The abstract vector *)
Definition bit (b : sim_bitvec) (i : Z) : bool := Z.testbit (arr b).[i / 64] (i mod 64).
(** A vector as its constructor makes it, with nothing set past its length. *)
Record wf (b : sim_bitvec) : Prop := {
  wf_bits : 0 <= n_bits b < 2 ^ 62;
  wf_words : n_words b = (n_bits b + 63) / 64;
  wf_ln2 : ln2 (n_bits b) = Ok (ln2_bits b);
  wf_last : last_bit b = u64 (n_bits b - 1);
  wf_arr w : in_u 64 (arr b).[w];
  wf_clean i : n_bits b <= i -> bit b i = false;
}.
Definition indices (n : Z) : list Z := map Z.of_nat (seq 0 (Z.to_nat n)).
Definition members (b : sim_bitvec) : gset Z := list_to_set (List.filter (bit b) (indices (n_bits b))).
(** The reference searches: the first index from [lo] on, bit by bit. *)
Definition search (p : Z -> bool) (lo hi : Z) : Z := default (-1) (first_from p lo (Z.to_nat (hi - lo))).

Lemma elem_indices n i : i ∈ indices n <-> 0 <= i < n.
Proof.
  unfold indices. rewrite list_elem_of_fmap. split.
  - intros (k & -> & Hk%elem_of_seq). lia.
  - intros Hi. exists (Z.to_nat i). rewrite elem_of_seq. lia.
Qed.
Lemma elem_members b i : i ∈ members b <-> 0 <= i < n_bits b /\ bit b i = true.
Proof.
  unfold members. rewrite elem_of_list_to_set, <- elem_indices. rewrite list_elem_of_In, filter_In, <- list_elem_of_In. done.
Qed.

(** ** The word of an index *)
Lemma index_word i : i = 64 * (i / 64) + i mod 64 /\ 0 <= i mod 64 < 64.
Proof. pose proof (Z.div_mod i 64). pose proof (Z.mod_pos_bound i 64). lia. Qed.
Lemma word_index w k : 0 <= k < 64 -> (64 * w + k) / 64 = w /\ (64 * w + k) mod 64 = k.
Proof. intros Hk. split; [symmetry; apply (Z.div_unique _ _ _ k); lia | symmetry; apply (Z.mod_unique _ _ w); lia]. Qed.
Lemma bit_word b w k : 0 <= k < 64 -> bit b (64 * w + k) = Z.testbit (arr b).[w] k.
Proof. intros Hk. unfold bit. by destruct (word_index w k Hk) as [-> ->]. Qed.
Lemma word_inside b i : wf b -> 0 <= i < n_bits b -> word (i / bpw) b = Ok (arr b).[i / bpw].
Proof.
  intros [Hn Hw _ _ _ _] Hi. unfold word, bpw. destruct (insideP 0 (n_words b) (i / 64)) as [|Hout]; [done|].
  destruct Hout. rewrite Hw. pose proof (index_word i). pose proof (index_word (n_bits b + 63)). lia.
Qed.
Lemma words_cover b : wf b -> n_bits b <= 64 * n_words b < n_bits b + 64.
Proof. intros [Hn Hw _ _ _ _]. rewrite Hw. pose proof (index_word (n_bits b + 63)). lia. Qed.

(** ** Updates *)
Lemma wf_update b w v :
  wf b -> in_u 64 v -> 0 <= w < n_words b ->
  (forall k, 0 <= k < 64 -> n_bits b <= 64 * w + k -> Z.testbit v k = false) ->
  wf (with_arr (wr w v (arr b)) b).
Proof.
  intros Hb Hv Hw Hclean. destruct Hb as [Hn Hnw Hl Hlast Ha Hc]. constructor; cbn; try done.
  - intros k. rewrite rd_wr. by destruct (w =? k).
  - intros i Hi. unfold bit. cbn. rewrite rd_wr. destruct (Z.eqb_spec w (i / 64)) as [->|]; [|by apply Hc].
    destruct (index_word i) as [E Hk]. apply Hclean; [done|lia].
Qed.
Lemma bit_update b w v i :
  bit (with_arr (wr w v (arr b)) b) i = if w =? i / 64 then Z.testbit v (i mod 64) else bit b i.
Proof. unfold bit. cbn. rewrite rd_wr. by destruct (w =? i / 64). Qed.
Lemma one_bit k j : 0 <= k -> Z.testbit (1 << k) j = (j =? k).
Proof.
  intros Hk. rewrite Z.shiftl_1_l. destruct (Z.eqb_spec j k) as [->|]; [by apply Z.pow2_bits_true|].
  by apply Z.pow2_bits_false.
Qed.
Lemma index_eq i j : (i / 64 =? j / 64) && (j mod 64 =? i mod 64) = (i =? j).
Proof.
  destruct (Z.eqb_spec i j) as [->|Hne]; [by rewrite !Z.eqb_refl|]. apply andb_false_iff.
  destruct (Z.eqb_spec (i / 64) (j / 64)); [right|by left]. apply Z.eqb_neq. pose proof (index_word i). pose proof (index_word j). lia.
Qed.
(** What an update of index [i] to [v] does: the other bits stay. *)
Definition updated (i : Z) (v : bool) (b b' : sim_bitvec) : Prop :=
  wf b' /\ n_bits b' = n_bits b /\ forall j, bit b' j = if j =? i then v else bit b j.
Lemma update_index b i v x :
  wf b -> 0 <= i < n_bits b -> in_u 64 x ->
  (forall k, 0 <= k < 64 -> Z.testbit x k = if k =? i mod 64 then v else Z.testbit (arr b).[i / 64] k) ->
  updated i v b (with_arr (wr (i / 64) x (arr b)) b).
Proof.
  intros Hb Hi Hx Hbit. destruct (index_word i) as [Ei Hki]. split; [|split; [done|]].
  - apply wf_update; [done..| |].
    + pose proof (words_cover b Hb). lia.
    + intros k Hk Hpast. rewrite Hbit by done. destruct (Z.eqb_spec k (i mod 64)); [lia|].
      rewrite <- bit_word by done. by apply wf_clean.
  - intros j. rewrite bit_update. destruct (index_word j) as [_ Hkj]. pose proof (index_eq i j) as Hij.
    rewrite (Z.eqb_sym i j) in Hij. rewrite <- Hij. destruct (Z.eqb_spec (i / 64) (j / 64)) as [E|]; [|done].
    cbn [andb]. rewrite Hbit by done. rewrite E. done.
Qed.
Lemma set_bit_ok b i : wf b -> 0 <= i < n_bits b -> exists b', set_bit i b = Ok b' /\ updated i true b b'.
Proof.
  intros Hb Hi. destruct (index_word i) as [_ Hk]. unfold set_bit. destruct (Z.leb_spec (n_bits b) i); [lia|].
  rewrite word_inside by done. cbn [mbind result_bind]. unfold bpw. eexists; split; [done|]. pose proof (wf_arr b Hb (i / 64)) as Hv.
  apply update_index; [done..| |].
  - apply in_u_lor; [lia|done|]. apply (in_u_shl 64 1); [lia..|done].
  - intros k Hkr. rewrite Z.lor_spec, one_bit by lia. by destruct (k =? i mod 64); rewrite ?orb_true_r, ?orb_false_r.
Qed.
Lemma clear_bit_ok b i : wf b -> 0 <= i < n_bits b -> exists b', clear_bit i b = Ok b' /\ updated i false b b'.
Proof.
  intros Hb Hi. destruct (index_word i) as [_ Hk]. unfold clear_bit. destruct (Z.leb_spec (n_bits b) i); [lia|].
  rewrite word_inside by done. cbn [mbind result_bind]. unfold bpw. eexists; split; [done|]. pose proof (wf_arr b Hb (i / 64)) as Hv.
  apply update_index; [done..| |].
  - by apply in_u_land_l.
  - intros k Hkr. rewrite Z.land_spec, testbit_wrapu, Z.lnot_spec, one_bit by lia.
    destruct (Z.ltb_spec k 64); [|lia]. by destruct (k =? i mod 64); cbn; rewrite ?andb_false_r, ?andb_true_r.
Qed.
Lemma get_bit_ok b i : wf b -> 0 <= i < n_bits b -> get_bit i b = Ok (bit b i).
Proof. intros Hb Hi. unfold get_bit. by rewrite word_inside. Qed.
Lemma updated_members i v b b' :
  0 <= i < n_bits b -> updated i v b b' ->
  members b' = if v then {[i]} ∪ members b else members b ∖ {[i]}.
Proof.
  intros Hi (_ & Hn & Hbit). apply set_eq. intros j. rewrite elem_members, Hn, Hbit.
  destruct v; rewrite ?elem_of_union, ?elem_of_difference, elem_of_singleton, elem_members;
    destruct (Z.eqb_spec j i); intuition congruence.
Qed.
Lemma new_bitvec_ok n :
  0 <= n < 2 ^ 62 -> exists b, new_bitvec n = Ok b /\ wf b /\ n_bits b = n /\ members b = ∅.
Proof.
  intros Hn. assert (exists l, ln2 n = Ok l) as [l Hl].
  { destruct (doubling_ends doubling_fuel n 0) as (l & Hl & _); [lia | lia | done | lia |].
    change (2 ^ 0) with 1 in Hl. exists l. unfold ln2. by rewrite Hl. }
  unfold new_bitvec. rewrite Hl. cbn [mbind result_bind]. eexists; split; [done|].
  assert (forall i, bit (mk_bitvec n (u64 (n + bpw - 1) / bpw) l (u64 (n - 1)) ∅) i = false) as Hz.
  { intros i. unfold bit. cbn. rewrite rd_empty. apply Z.bits_0. }
  split; [constructor; cbn; try done|split; [done|]].
  - unfold bpw. rewrite wrapu_id by (unfold in_u; lia). f_equal. lia.
  - intros w. by rewrite rd_empty.
  - apply set_eq. intros i. rewrite elem_members, Hz, elem_of_empty. intuition congruence.
Qed.

(** ** Counting *)
Definition ones_below (b : sim_bitvec) (n : nat) : list Z := List.filter (bit b) (map Z.of_nat (seq 0 n)).
Lemma count_from (p q : Z -> bool) (m s n : nat) :
  (forall k, (s <= k < s + n)%nat -> p (Z.of_nat (m + k)) = q (Z.of_nat k)) ->
  Z.of_nat (length (List.filter p (map Z.of_nat (seq (m + s) n)))) = foldr (fun i c => Z.b2z (q i) + c) 0 (map Z.of_nat (seq s n)).
Proof.
  revert s. induction n as [|n IH]; intros s H; [done|].
  cbn [seq map foldr List.filter]. rewrite H by lia. rewrite <- (IH (S s)) by (intros; apply H; lia).
  rewrite Nat.add_succ_r. destruct (q (Z.of_nat s)); cbn [length Z.b2z]; lia.
Qed.
Lemma count_bits (p q : Z -> bool) (m n : nat) :
  (forall k, 0 <= k < Z.of_nat n -> p (Z.of_nat m + k) = q k) ->
  Z.of_nat (length (List.filter p (map Z.of_nat (seq m n)))) = foldr (fun i c => Z.b2z (q i) + c) 0 (map Z.of_nat (seq 0 n)).
Proof.
  intros Hpq. rewrite <- (Nat.add_0_r m) at 1. apply count_from. intros k Hk. rewrite Nat2Z.inj_add. apply Hpq. lia.
Qed.
Lemma count_words b (m : nat) :
  Z.of_nat m < 2 ^ 57 ->
  foldl (fun c w => u64 (c + builtin_popcountll (arr b).[w])) 0 (map Z.of_nat (seq 0 m))
  = Z.of_nat (length (ones_below b (m * 64))).
Proof.
  intros Hm. induction m as [|m IH]; [done|]. rewrite seq_S, map_app, foldl_app, IH by lia. cbn [map foldl Nat.add].
  unfold ones_below. replace (S m * 64)%nat with (m * 64 + 64)%nat by lia. rewrite seq_app, map_app, List.filter_app, length_app, Nat2Z.inj_add.
  rewrite (count_bits (bit b) (Z.testbit (arr b).[Z.of_nat m]) (0 + m * 64) 64).
  2: { intros k Hk. replace (Z.of_nat (0 + m * 64) + k) with (64 * Z.of_nat m + k) by lia. by apply bit_word. }
  apply (wrapu_id 64). unfold in_u. fold bit_list. fold (builtin_popcountll (arr b).[Z.of_nat m]).
  assert (0 <= builtin_popcountll (arr b).[Z.of_nat m] <= 64) as Hp.
  { unfold builtin_popcountll. rewrite <- (count_bits (Z.testbit (arr b).[Z.of_nat m]) _ 0 64) by done.
    pose proof (filter_length_le (Z.testbit (arr b).[Z.of_nat m]) (map Z.of_nat (seq 0 64))) as H.
    rewrite length_map, length_seq in H. lia. }
  pose proof (filter_length_le (bit b) (map Z.of_nat (seq 0 (m * 64)))) as H. rewrite length_map, length_seq in H. lia.
Qed.
Lemma size_members b : Z.of_nat (size (members b)) = Z.of_nat (length (ones_below b (Z.to_nat (n_bits b)))).
Proof.
  unfold members. rewrite size_list_to_set; [done|]. apply NoDup_ListNoDup, List.NoDup_filter, NoDup_ListNoDup.
  unfold indices. apply (NoDup_fmap_2 Z.of_nat), NoDup_seq.
Qed.
Lemma popcount_ok b :
  wf b -> popcount b = if n_bits b mod 64 =? 0 then Ok (Z.of_nat (size (members b))) else Stop HostExit.
Proof.
  intros Hb. pose proof (words_cover b Hb) as Hc. pose proof (wf_bits b Hb) as Hn. unfold popcount, bpw.
  rewrite wrapu_id by (unfold in_u; lia).
  destruct (Z.eqb_spec (64 * n_words b) (n_bits b)) as [E|Hne]; cbn [negb].
  - rewrite <- E, Z.mul_comm, Z.mod_mul by done. cbn [Z.eqb]. f_equal. unfold words. rewrite count_words by lia.
    rewrite size_members, <- E. do 3 f_equal. lia.
  - destruct (Z.eqb_spec (n_bits b mod 64) 0); [|done]. pose proof (index_word (n_bits b)). lia.
Qed.
Lemma equal_ok b b' : wf b -> wf b' -> equal b b' = true <-> n_bits b = n_bits b' /\ members b = members b'.
Proof.
  intros Hb Hb'. unfold equal. split.
  - destruct (Z.eqb_spec (n_bits b) (n_bits b')) as [En|]; [|done]. cbn [negb orb].
    destruct (negb (n_words b =? n_words b') || negb (ln2_bits b =? ln2_bits b')); [done|]. intros Hall. rewrite forallb_forall in Hall.
    split; [done|]. apply set_eq. intros i. rewrite !elem_members, <- En.
    assert (0 <= i < n_bits b -> bit b i = bit b' i) as H;
      [|by split; intros [Hi Hm]; specialize (H Hi); rewrite H in *].
    intros Hi. pose proof (words_cover b Hb). destruct (index_word i). unfold bit.
    specialize (Hall (i / 64)). rewrite <- list_elem_of_In in Hall. apply Z.eqb_eq in Hall; [by rewrite Hall|].
    apply elem_indices. lia.
  - intros [En Em]. pose proof (wf_words b Hb) as Hw. pose proof (wf_words b' Hb') as Hw'. rewrite <- En in Hw'.
    pose proof (wf_ln2 b Hb) as Hl. pose proof (wf_ln2 b' Hb') as Hl'. rewrite <- En, Hl in Hl'. injection Hl' as Hl'.
    rewrite En, Hw, Hw', Hl', !Z.eqb_refl. cbn [negb orb]. apply forallb_forall. intros w Hin. apply Z.eqb_eq, Z.bits_inj'. intros k Hk.
    destruct (Z.lt_ge_cases k 64) as [Hlt|]; [|by rewrite !(in_u_testbit 64) by (done || by apply wf_arr)].
    rewrite <- !bit_word by lia. apply eq_true_iff_eq.
    destruct (Z.lt_ge_cases (64 * w + k) (n_bits b)) as [Hi|Hi]; [|by rewrite !wf_clean by (done || lia)].
    apply list_elem_of_In, elem_indices in Hin. pose proof (elem_members b (64 * w + k)) as H1. rewrite Em, elem_members, <- En in H1.
    assert (0 <= 64 * w + k < n_bits b) by lia. tauto.
Qed.

(** ** Searches, a word at a time *)
Lemma first_from_cut p i m n :
  (forall j, i + Z.of_nat m <= j < i + Z.of_nat n -> p j = false) -> (m <= n)%nat -> first_from p i n = first_from p i m.
Proof.
  intros Hp Hmn. destruct (first_from p i m) as [k|] eqn:E.
  - apply first_from_Some in E as (Hr & Hk & Hlt). apply first_from_is; auto; lia.
  - apply first_from_None. intros j Hj. destruct (Z.lt_ge_cases j (i + Z.of_nat m)); [|apply Hp; lia].
    apply (proj1 (first_from_None p i m) E). lia.
Qed.
Lemma search_found p lo hi k :
  lo <= k < hi -> p k = true -> (forall j, lo <= j < k -> p j = false) -> search p lo hi = k.
Proof. intros Hk Hp Hlt. unfold search. by rewrite (first_from_is p lo _ k) by (done || lia). Qed.
Lemma search_none p lo hi : (forall j, lo <= j < hi -> p j = false) -> search p lo hi = -1.
Proof. intros Hp. unfold search. rewrite (proj2 (first_from_None p lo _)); [done|]. intros j Hj. apply Hp. lia. Qed.
(** One step of the loop over the words: the word decides, or has nothing. *)
Definition word_ok (p : Z -> bool) (hi w : Z) (r : option Z) : Prop :=
  match r with
  | Some k => k = search p (64 * w) hi
  | None => forall j, 64 * w <= j < 64 * w + 64 -> p j = false
  end.
Lemma scan_search p f w hi n :
  (forall j, hi <= j -> p j = false) -> hi <= 64 * (w + Z.of_nat n) ->
  (forall v, w <= v < w + Z.of_nat n -> word_ok p hi v (f v)) ->
  scan f w n = search p (64 * w) hi.
Proof.
  intros Hhi. revert w. induction n as [|n IH]; intros w Hw Hf; cbn [scan].
  - symmetry. apply search_none. intros j Hj. lia.
  - pose proof (Hf w ltac:(lia)) as H. destruct (f w) as [k|]; [done|]. cbn [word_ok] in H.
    rewrite IH; [|lia | intros v Hv; apply Hf; lia].
    destruct (first_from p (64 * (w + 1)) (Z.to_nat (hi - 64 * (w + 1)))) as [k|] eqn:E; unfold search at 1; rewrite E; cbn.
    + apply first_from_Some in E as (Hr & Hk & Hlt). symmetry. apply search_found; [lia | done |].
      intros j Hj. destruct (Z.lt_ge_cases j (64 * w + 64)); [apply H; lia | apply Hlt; lia].
    + symmetry. apply search_none. intros j Hj. destruct (Z.lt_ge_cases j (64 * w + 64)); [apply H; lia|].
      apply (proj1 (first_from_None _ _ _) E). lia.
Qed.
(** [ffsl]: the lowest set bit. *)
Lemma ffsl_ok v :
  in_u 64 v -> v <> 0 ->
  0 <= builtin_ffsl v - 1 < 64 /\ Z.testbit v (builtin_ffsl v - 1) = true /\
  forall k, 0 <= k < builtin_ffsl v - 1 -> Z.testbit v k = false.
Proof.
  intros Hv Hne. unfold builtin_ffsl. destruct (first_from (Z.testbit v) 0 64) as [k|] eqn:E.
  - apply first_from_Some in E as (Hr & Hk & Hlt). rewrite Z.add_simpl_r. repeat split; [lia..|done|]. exact Hlt.
  - destruct Hne. apply Z.bits_inj'. intros i Hi. rewrite Z.bits_0. destruct (Z.lt_ge_cases i 64).
    + apply (proj1 (first_from_None _ _ _) E). lia.
    + by apply (in_u_testbit 64).
Qed.
Lemma small_index w k : 0 <= 64 * w + k < 2 ^ 62 + 64 -> u64 (bpw * w + k) = 64 * w + k /\ s64 (64 * w + k) = 64 * w + k.
Proof. intros H. unfold bpw. rewrite wrapu_id by (unfold in_u; lia). split; [done|]. apply wraps_id; [lia|unfold in_s; lia]. Qed.
Lemma small_word w : 0 <= 64 * w < 2 ^ 62 + 64 -> s64 (u64 (bpw * w)) = 64 * w.
Proof. intros H. unfold bpw. rewrite wrapu_id by (unfold in_u; lia). apply wraps_id; [lia|unfold in_s; lia]. Qed.
(** The lowest set bit of word [w], compared with the length. *)
Lemma word_first p b w v :
  wf b -> 0 <= w < n_words b -> in_u 64 v -> v <> 0 ->
  (forall k, 0 <= k < 64 -> 64 * w + k < n_bits b -> p (64 * w + k) = Z.testbit v k) ->
  let i := u64 (bpw * w + (builtin_ffsl v - 1)) in
  (i < n_bits b -> s64 i = search p (64 * w) (n_bits b)) /\
  (n_bits b <= i -> forall j, 64 * w <= j < n_bits b -> j < 64 * w + 64 -> p j = false).
Proof.
  intros Hb Hw Hv Hne Hp. destruct (ffsl_ok v Hv Hne) as (Hr & Ht & Hlt). pose proof (words_cover b Hb). pose proof (wf_bits b Hb).
  destruct (small_index w (builtin_ffsl v - 1)) as [-> Es]; [lia|]. cbv zeta. split.
  - intros Hi. rewrite Es. symmetry. apply search_found; [lia | by rewrite Hp |].
    intros j Hj. replace j with (64 * w + (j - 64 * w)) by lia. rewrite Hp by lia. apply Hlt. lia.
  - intros Hi j Hj Hj'. replace j with (64 * w + (j - 64 * w)) by lia. rewrite Hp by lia. apply Hlt. lia.
Qed.
Lemma word_zero b w k : (arr b).[w] = 0 -> 64 * w <= k < 64 * w + 64 -> bit b k = false.
Proof. intros E Hk. replace k with (64 * w + (k - 64 * w)) by lia. by rewrite bit_word, E, Z.bits_0 by lia. Qed.
Lemma word_set b w k : (arr b).[w] = all_ones -> 64 * w <= k < 64 * w + 64 -> bit b k = true.
Proof.
  intros E Hk. replace k with (64 * w + (k - 64 * w)) by lia. rewrite bit_word, E by lia.
  change all_ones with (Z.ones 64). apply Z.ones_spec_low. lia.
Qed.
Definition free (b : sim_bitvec) (i : Z) : bool := (i <? n_bits b) && negb (bit b i).
Lemma free_past b j : n_bits b <= j -> free b j = false.
Proof. intros Hj. unfold free. by destruct (Z.ltb_spec j (n_bits b)); [lia|]. Qed.
Lemma lnot_bits v k : 0 <= k < 64 -> Z.testbit (u64 (.~ v)) k = negb (Z.testbit v k).
Proof. intros Hk. rewrite testbit_wrapu, Z.lnot_spec by lia. by destruct (Z.ltb_spec k 64); [|lia]. Qed.
Lemma lnot_zero v : in_u 64 v -> v <> all_ones -> u64 (.~ v) <> 0.
Proof.
  intros Hv Hne E. apply Hne. change all_ones with (Z.ones 64). apply Z.bits_inj'. intros i Hi.
  destruct (Z.lt_ge_cases i 64) as [Hlt|].
  - pose proof (lnot_bits v i ltac:(lia)) as H. rewrite E, Z.bits_0 in H. rewrite Z.ones_spec_low by lia. by destruct (Z.testbit v i).
  - rewrite (in_u_testbit 64), Z.ones_spec_high by (done || lia). done.
Qed.

Lemma set_word b w :
  wf b -> 0 <= w < n_words b -> (arr b).[w] <> 0 ->
  let i := u64 (bpw * w + (builtin_ffsl (arr b).[w] - 1)) in
  (if i <? n_bits b then s64 i else -1) = search (bit b) (64 * w) (n_bits b).
Proof.
  intros Hb Hw Hne. cbv zeta.
  destruct (word_first (bit b) b w (arr b).[w]) as [Hin Hout]; [done..|by apply wf_arr|done| |].
  { intros k Hk _. by apply bit_word. }
  destruct (Z.ltb_spec (u64 (bpw * w + (builtin_ffsl (arr b).[w] - 1))) (n_bits b)) as [Hi|Hi]; [by apply Hin|].
  pose proof (words_cover b Hb). pose proof (wf_bits b Hb). destruct (ffsl_ok (arr b).[w]) as (Hr & Ht & _); [by apply wf_arr|done|].
  destruct (small_index w (builtin_ffsl (arr b).[w] - 1)) as [E _]; [lia|]. rewrite E in Hi. exfalso.
  rewrite <- bit_word, wf_clean in Ht by (done || lia). done.
Qed.
Lemma find_first_set_ok b : wf b -> find_first_set b = search (bit b) 0 (n_bits b).
Proof.
  intros Hb. pose proof (words_cover b Hb). unfold find_first_set. apply (scan_search _ _ 0); [by apply wf_clean | lia |].
  intros w Hw. cbv zeta. destruct (Z.eqb_spec (arr b).[w] 0) as [E|Hne]; cbn [word_ok].
  - intros j Hj. by apply (word_zero b w).
  - apply set_word; [done|lia|done].
Qed.
Lemma find_first_unset_ok b : wf b -> find_first_unset b = search (free b) 0 (n_bits b).
Proof.
  intros Hb. pose proof (words_cover b Hb). pose proof (wf_bits b Hb) as Hn. unfold find_first_unset.
  apply (scan_search _ _ 0); [by apply free_past | lia |].
  intros w Hw. cbv zeta. pose proof (wf_arr b Hb w) as Hv. destruct (Z.eqb_spec (arr b).[w] all_ones) as [E|Hne]; cbn [word_ok].
  { intros j Hj. unfold free. by rewrite (word_set b w), andb_false_r. }
  destruct (Z.eqb_spec (arr b).[w] 0) as [E|Hnz]; cbn [word_ok].
  { rewrite small_word by lia. symmetry.
    apply search_found; [lia | | lia]. unfold free. rewrite (word_zero b w) by (done || lia).
    by destruct (Z.ltb_spec (64 * w) (n_bits b)); [|lia]. }
  destruct (word_first (free b) b w (u64 (.~ (arr b).[w]))) as [Hin Hout]; [done|lia|by apply wrapu_range|by apply lnot_zero| |].
  { intros k Hk Hlt. rewrite lnot_bits by done. unfold free. rewrite bit_word by done. by destruct (Z.ltb_spec (64 * w + k) (n_bits b)); [|lia]. }
  destruct (Z.ltb_spec (u64 (bpw * w + (builtin_ffsl (u64 (.~ (arr b).[w])) - 1))) (n_bits b)) as [Hi|Hi]; cbn [word_ok]; [by apply Hin|].
  intros j Hj. destruct (Z.lt_ge_cases j (n_bits b)); [apply Hout; lia | by apply free_past].
Qed.
(** Pairs: an even index with both bits clear. *)
Definition pair_free (b : sim_bitvec) (i : Z) : bool := Z.even i && free b i && negb (bit b (i + 1)).
Lemma two_bits v i : 0 <= i -> ((v >> i) .& 3 =? 0) = negb (Z.testbit v i) && negb (Z.testbit v (i + 1)).
Proof.
  intros Hi. assert (forall k, Z.testbit ((v >> i) .& 3) k = Z.testbit v (k + i) && (inside 0 2 k)) as Hb.
  { intros k. destruct (Z.neg_nonneg_cases k) as [|Hk]; [rewrite Z.testbit_neg_r by lia; destruct (insideP 0 2 k); [lia|by rewrite andb_false_r]|].
    rewrite Z.land_spec, Z.shiftr_spec by done. f_equal. change 3 with (Z.ones 2). destruct (insideP 0 2 k);
    [by apply Z.ones_spec_low; lia | by apply Z.ones_spec_high; lia]. }
  destruct (Z.eqb_spec ((v >> i) .& 3) 0) as [E|Hne].
  - pose proof (Hb 0) as H0. pose proof (Hb 1) as H1. rewrite E, Z.bits_0, andb_true_r in H0, H1.
    rewrite Z.add_0_l in H0. by rewrite (Z.add_comm i 1), <- H1, <- H0.
  - destruct (Z.testbit v i) eqn:E0, (Z.testbit v (i + 1)) eqn:E1; try done. destruct Hne. apply Z.bits_inj'. intros k _.
    rewrite Hb, Z.bits_0. destruct (insideP 0 2 k); [|by rewrite andb_false_r].
    assert (k = 0 \/ k = 1) as [-> | ->] by lia; rewrite andb_true_r; [done|]. by rewrite Z.add_comm.
Qed.
Lemma pair_past b j : n_bits b <= j -> pair_free b j = false.
Proof. intros Hj. unfold pair_free. by rewrite free_past, andb_false_r. Qed.
Lemma pair_odd b i j : Z.even i = true -> (forall k, i + 2 <= k < j -> pair_free b k = false) -> pair_free b i = false ->
  forall k, i <= k < j -> pair_free b k = false.
Proof.
  intros He Hup Hi k Hk. destruct (Z.eq_dec k i) as [->|]; [done|]. destruct (Z.eq_dec k (i + 1)) as [->|]; [|apply Hup; lia].
  unfold pair_free. rewrite Z.add_1_r, Z.even_succ, <- Z.negb_even, He. done.
Qed.
Lemma pair_word b w i :
  0 <= i < 63 -> Z.even i = true -> 64 * w + i < n_bits b ->
  pair_free b (64 * w + i) = (((arr b).[w] >> i) .& 3 =? 0).
Proof.
  intros Hi He Hn. rewrite two_bits by lia. unfold pair_free, free.
  rewrite <- Z.add_assoc, !bit_word by lia. rewrite Z.even_add, Z.even_mul, He. by destruct (Z.ltb_spec (64 * w + i) (n_bits b)); [|lia].
Qed.
Lemma search_skip p lo lo' hi : lo <= lo' -> (forall j, lo <= j < lo' -> p j = false) -> search p lo hi = search p lo' hi.
Proof.
  intros Hle Hp. unfold search at 2. destruct (first_from p lo' (Z.to_nat (hi - lo'))) as [k|] eqn:E; cbn.
  - apply first_from_Some in E as (Hr & Hk & Hlt). apply search_found; [lia|done|].
    intros j Hj. destruct (Z.lt_ge_cases j lo'); [apply Hp; lia | apply Hlt; lia].
  - apply search_none. intros j Hj. destruct (Z.lt_ge_cases j lo'); [apply Hp; lia|].
    apply (proj1 (first_from_None _ _ _) E). lia.
Qed.
Lemma pair_from_ok b w i fuel :
  wf b -> 0 <= w < n_words b -> 0 <= i <= 64 -> Z.even i = true -> 64 <= i + 2 * Z.of_nat fuel ->
  match pair_from (arr b).[w] w (n_bits b) i fuel with
  | Some k => k = search (pair_free b) (64 * w + i) (n_bits b)
  | None => forall j, 64 * w + i <= j < 64 * w + 64 -> pair_free b j = false
  end.
Proof.
  intros Hb Hw. pose proof (words_cover b Hb). pose proof (wf_bits b Hb). revert i. induction fuel as [|fuel IH]; intros i Hi He Hf.
  { cbn. intros j Hj. lia. }
  cbn [pair_from]. unfold bpw at 1. destruct (Z.ltb_spec i 64) as [Hlt|]; [|intros j Hj; lia].
  assert (i <> 63) as Hne by (intros ->; done). destruct (small_index w i) as [-> Es]; [lia|]. cbv zeta.
  destruct (Z.leb_spec (n_bits b) (64 * w + i)) as [Hpast|Hin].
  { symmetry. apply search_none. intros j Hj. lia. }
  rewrite <- pair_word by (done || lia). destruct (pair_free b (64 * w + i)) eqn:Hp.
  - rewrite Es. symmetry. apply search_found; [lia | done | lia].
  - assert (Z.even (i + 2) = true) as He' by (rewrite Z.even_add, He; done).
    specialize (IH (i + 2) ltac:(lia) He' ltac:(lia)). destruct (pair_from _ _ _ (i + 2) fuel) as [k|].
    + rewrite IH. symmetry. apply search_skip; [lia|]. apply pair_odd; [by rewrite Z.even_add, Z.even_mul, He | intros; lia | done].
    + apply pair_odd; [by rewrite Z.even_add, Z.even_mul, He | | done]. intros k Hk. apply IH. lia.
Qed.
Lemma even_floor k : 0 <= k < 64 -> let i := u64 k .& u64 (.~ 1) in 0 <= i <= k /\ k <= i + 1 /\ Z.even i = true.
Proof.
  intros Hk. assert (forall k, k ∈ indices 64 -> let i := u64 k .& u64 (.~ 1) in 0 <= i <= k /\ k <= i + 1 /\ Z.even i = true) as H.
  { apply Forall_forall. clear. repeat (apply Forall_cons; split; [by vm_compute|]). apply Forall_nil; done. }
  apply H, elem_indices. lia.
Qed.
Lemma find_first_unset_pair_ok b : wf b -> find_first_unset_pair b = search (pair_free b) 0 (n_bits b).
Proof.
  intros Hb. pose proof (words_cover b Hb). pose proof (wf_bits b Hb) as Hn. unfold find_first_unset_pair.
  apply (scan_search _ _ 0); [by apply pair_past | lia |].
  intros w Hw. cbv zeta. pose proof (wf_arr b Hb w) as Hv. destruct (Z.eqb_spec (arr b).[w] all_ones) as [E|Hne]; cbn [word_ok].
  { intros j Hj. unfold pair_free, free. by rewrite (word_set b w), !andb_false_r. }
  destruct (Z.eqb_spec (arr b).[w] 0) as [E|Hnz]; cbn [word_ok].
  { rewrite small_word by lia. symmetry. apply search_found; [lia | | lia]. unfold pair_free, free.
    rewrite !(word_zero b w) by (done || lia). rewrite Z.even_mul. by destruct (Z.ltb_spec (64 * w) (n_bits b)); [|lia]. }
  destruct (ffsl_ok (u64 (.~ (arr b).[w]))) as (Hr & _ & Hlow); [by apply wrapu_range | by apply lnot_zero |].
  destruct (even_floor _ Hr) as (Hi & Hi' & He). set (i := u64 _ .& _) in *.
  assert (forall j, 64 * w <= j < 64 * w + i -> pair_free b j = false) as Hskip.
  { intros j Hj. unfold pair_free, free. replace j with (64 * w + (j - 64 * w)) by lia. rewrite bit_word by lia.
    specialize (Hlow (j - 64 * w) ltac:(lia)). rewrite lnot_bits in Hlow by lia. apply negb_false_iff in Hlow. by rewrite Hlow, !andb_false_r. }
  pose proof (pair_from_ok b w i 32 Hb ltac:(lia) ltac:(lia) He ltac:(lia)) as Hp.
  destruct (pair_from _ _ _ i 32) as [k|]; cbn [word_ok].
  - rewrite Hp. symmetry. apply search_skip; [lia | done].
  - intros j Hj. destruct (Z.lt_ge_cases j (64 * w + i)); [apply Hskip; lia | apply Hp; lia].
Qed.
Lemma mask_low v k i : 0 <= k < 64 -> in_u 64 v -> 0 <= i ->
  Z.testbit (u64 ((v >> k) << k)) i = (k <=? i) && Z.testbit v i.
Proof.
  intros Hk Hv Hi. rewrite testbit_wrapu by lia. destruct (Z.leb_spec k i) as [Hle|Hlt]; cbn [andb].
  - rewrite Z.shiftl_spec, Z.shiftr_spec by lia. rewrite Z.sub_add. destruct (Z.ltb_spec i 64) as [|Hge]; [done|].
    by rewrite (in_u_testbit 64 v) by (done || lia).
  - rewrite Z.shiftl_spec_low by lia. apply andb_false_r.
Qed.
Lemma find_next_set_ok b idx :
  wf b -> -1 <= idx < 2 ^ 62 ->
  find_next_set idx b =
    if (idx + 1) / 64 <? n_words b then Ok (search (bit b) (idx + 1) (n_bits b)) else Stop HostUB.
Proof.
  intros Hb Hidx. pose proof (words_cover b Hb). pose proof (wf_bits b Hb) as Hn. unfold find_next_set.
  rewrite (wrapu_id 64 (idx + 1)) by (unfold in_u; lia). unfold word. change bpw with 64. destruct (index_word (idx + 1)) as [Ei Hk].
  set (w := (idx + 1) / 64) in *. set (k := (idx + 1) mod 64) in *.
  destruct (insideP 0 (n_words b) w) as [Hw|Hw], (Z.ltb_spec w (n_words b)); try lia; [|done]. cbn [mbind result_bind].
  pose proof (wf_arr b Hb w) as Hv. set (ww := u64 (((arr b).[w] >> k) << k)).
  assert (forall j, 64 * w <= j < idx + 1 -> (k <=? j - 64 * w) && bit b j = false) as Hbelow.
  { intros j Hj. by destruct (Z.leb_spec k (j - 64 * w)); [lia|]. }
  destruct (Z.eqb_spec ww 0) as [E|Hne]; cbn [negb]; f_equal.
  - rewrite (scan_search (bit b) _ _ (n_bits b)).
    + symmetry. apply search_skip; [lia|]. intros j Hj. replace j with (64 * w + (j - 64 * w)) by lia. rewrite bit_word by lia.
      pose proof (mask_low (arr b).[w] k (j - 64 * w) Hk Hv ltac:(lia)) as Hm. fold ww in Hm. rewrite E, Z.bits_0 in Hm.
      by destruct (Z.leb_spec k (j - 64 * w)); [|lia].
    + by apply wf_clean.
    + lia.
    + intros v Hvr. destruct (Z.eqb_spec (arr b).[v] 0) as [Ez|Hnz]; cbn [word_ok].
      * intros j Hj. by apply (word_zero b v).
      * apply set_word; [done|lia|done].
  - destruct (ffsl_ok ww) as (Hr & Ht & Hlow); [by apply wrapu_range|done|].
    unfold ww in Ht at 1. rewrite mask_low in Ht by (done || lia). apply andb_true_iff in Ht as [Hle%Z.leb_le Ht].
    rewrite <- bit_word in Ht by done. assert (64 * w + (builtin_ffsl ww - 1) < n_bits b) as Hlt.
    { destruct (Z.lt_ge_cases (64 * w + (builtin_ffsl ww - 1)) (n_bits b)); [done|]. by rewrite wf_clean in Ht. }
    rewrite (Z.mul_comm w 64). destruct (small_index w (builtin_ffsl ww - 1)) as [E1 E2]; [lia|]. unfold bpw in E1. rewrite E1, E2. symmetry.
    apply search_found; [lia|done|]. intros j Hj. replace j with (64 * w + (j - 64 * w)) by lia. rewrite bit_word by lia.
    specialize (Hlow (j - 64 * w) ltac:(lia)). unfold ww in Hlow. rewrite mask_low in Hlow by (done || lia).
    by destruct (Z.leb_spec k (j - 64 * w)); [|lia].
Qed.
Lemma unset_rr_ok b i p :
  wf b -> 0 <= p -> p + Z.of_nat i < n_bits b -> unset_rr i p b = Ok (search (free b) p (p + Z.of_nat i)).
Proof.
  intros Hb. pose proof (wf_bits b Hb) as Hn. revert p. induction i as [|i IH]; intros p Hp Hi; cbn [unset_rr].
  { rewrite search_none; [done|]. intros j Hj. lia. }
  rewrite get_bit_ok by (done || lia). cbn [mbind result_bind].
  assert (free b p = negb (bit b p)) as Hf by (unfold free; by destruct (Z.ltb_spec p (n_bits b)); [|lia]).
  destruct (bit b p).
  - rewrite wrapu_id by (unfold in_u; lia). rewrite mod_exact, Z.mod_small by lia. cbn [mbind result_bind]. rewrite IH by lia.
    f_equal. replace (p + Z.of_nat (S i)) with (p + 1 + Z.of_nat i) by lia. symmetry. apply search_skip; [lia|].
    intros j Hj. by replace j with p by lia.
  - rewrite (wraps_id 64 p) by (unfold in_s; lia). f_equal. symmetry. apply search_found; [lia | done | lia].
Qed.
(** The round-robin search always starts at the last index. *)
Lemma find_first_unset_rr_ok b :
  wf b ->
  find_first_unset_rr b = Ok (if free b (n_bits b - 1) then n_bits b - 1 else search (free b) 0 (n_bits b)).
Proof.
  intros Hb. pose proof (wf_bits b Hb) as Hn. unfold find_first_unset_rr. rewrite (wf_last b Hb).
  destruct (Z.eq_dec (n_bits b) 0) as [E|Hne].
  { rewrite E, (search_none (free b)) by (intros; lia). f_equal. by destruct (free b (0 - 1)). }
  rewrite wrapu_id by (unfold in_u; lia). destruct (Z.to_nat (n_bits b)) as [|m] eqn:Em; [lia|]. cbn [unset_rr].
  rewrite get_bit_ok by (done || lia). cbn [mbind result_bind].
  assert (free b (n_bits b - 1) = negb (bit b (n_bits b - 1))) as Hf by (unfold free; by destruct (Z.ltb_spec (n_bits b - 1) (n_bits b)); [|lia]).
  rewrite Hf. destruct (bit b (n_bits b - 1)); cbn [negb] in *.
  - rewrite Z.sub_add, wrapu_id by (unfold in_u; lia). rewrite mod_exact, Z.mod_same by lia. cbn [mbind result_bind].
    rewrite unset_rr_ok by (done || lia). f_equal. unfold search. f_equal. symmetry.
    apply first_from_cut; [|lia]. intros j Hj. by replace j with (n_bits b - 1) by lia.
  - rewrite wraps_id by (unfold in_s; lia). done.
Qed.

(** ** Shifting *)
Lemma shift_down_word amt i a w :
  0 <= w ->
  (shift_down amt i a).[w] =
    if w <? Z.of_nat i then u64 (a.[w] << amt) .| (if w =? 0 then 0 else a.[w - 1] >> (64 - amt))
    else if w =? Z.of_nat i then a.[w] .| (if w =? 0 then 0 else a.[w - 1] >> (64 - amt))
    else a.[w].
Proof.
  intros Hw. revert a. induction i as [|i IH]; intros a; cbn [shift_down].
  - destruct (Z.ltb_spec w (Z.of_nat 0)); [lia|]. destruct (Z.eqb_spec w (Z.of_nat 0)) as [->|]; [|done]. by rewrite Z.lor_0_r.
  - rewrite IH. unfold bpw. clear IH.
    destruct (Z.ltb_spec w (Z.of_nat i)), (Z.ltb_spec w (Z.of_nat (S i))); try lia.
    + rewrite !(rd_wr_ne _ (Z.of_nat i)), !(rd_wr_ne _ (Z.of_nat i + 1)) by lia. done.
    + assert (w = Z.of_nat i) as -> by lia. rewrite Z.eqb_refl, rd_wr_eq. rewrite !rd_wr_ne by lia. done.
    + destruct (Z.eqb_spec w (Z.of_nat i)); [lia|]. rewrite (rd_wr_ne _ (Z.of_nat i)) by lia.
      destruct (Z.eqb_spec w (Z.of_nat (S i))) as [->|Hne]; [|rewrite rd_wr_ne by lia; done].
      replace (Z.of_nat (S i)) with (Z.of_nat i + 1) by lia. rewrite rd_wr_eq.
      destruct (Z.eqb_spec (Z.of_nat i + 1) 0); [lia|]. by rewrite Z.add_simpl_r.
Qed.
(** A shift by 1 to 63 moves every bit of the words up, zeros coming in; the
    bits moved past the length stay in the top word. *)
Lemma shift_left_ok b amt :
  wf b -> 0 < n_bits b -> 0 < amt < 64 ->
  exists b', shift_left amt b = Ok b' /\ n_bits b' = n_bits b /\
    forall i, 0 <= i < 64 * n_words b -> bit b' i = (amt <=? i) && bit b (i - amt).
Proof.
  intros Hb Hpos Hamt. pose proof (words_cover b Hb). unfold shift_left, word.
  destruct (insideP 0 (n_words b) (n_words b - 1)); [|lia]. cbn [mbind result_bind].
  unfold bpw at 1. destruct (Z.leb_spec 64 amt); [lia|]. destruct (Z.eqb_spec amt 0); [lia|]. cbn [orb andb].
  eexists; split; [done|]. split; [done|]. intros i Hi. destruct (index_word i) as [Ei Hk]. unfold bit at 1. cbn [arr with_arr].
  set (top := n_words b - 1) in *. set (w := i / 64) in *. set (k := i mod 64) in *.
  assert (forall v, v < top -> (wr top (u64 ((arr b).[top] << amt)) (arr b)).[v] = (arr b).[v]) as Hlow by (intros; rewrite rd_wr_ne by lia; done).
  assert ((shift_down amt (Z.to_nat top) (wr top (u64 ((arr b).[top] << amt)) (arr b))).[w]
          = u64 ((arr b).[w] << amt) .| (if w =? 0 then 0 else (arr b).[w - 1] >> (64 - amt))) as ->.
  { rewrite shift_down_word by lia. rewrite Z2Nat.id by lia. rewrite (Hlow (w - 1)) by lia.
    destruct (Z.ltb_spec w top); [by rewrite Hlow by lia|]. destruct (Z.eqb_spec w top) as [->|]; [by rewrite rd_wr_eq|lia]. }
  rewrite Z.lor_spec, testbit_wrapu by lia. destruct (Z.ltb_spec k 64); [|lia]. cbn [andb].
  destruct (Z.lt_ge_cases k amt) as [Hlt|Hge].
  - rewrite Z.shiftl_spec_low by lia. cbn [orb]. destruct (Z.eqb_spec w 0) as [E|Hne].
    + rewrite Z.bits_0. destruct (Z.leb_spec amt i); [lia|done].
    + rewrite Z.shiftr_spec by lia. destruct (Z.leb_spec amt i); [|lia]. cbn [andb].
      replace (i - amt) with (64 * (w - 1) + (k + (64 - amt))) by lia. by rewrite bit_word by lia.
  - rewrite Z.shiftl_spec by lia. destruct (Z.leb_spec amt i); [|lia]. cbn [andb].
    replace (i - amt) with (64 * w + (k - amt)) by lia. rewrite bit_word by lia.
    destruct (w =? 0); [by rewrite Z.bits_0, orb_false_r|].
    rewrite Z.shiftr_spec by lia. rewrite (in_u_testbit 64 _ (k + (64 - amt))) by (lia || by apply wf_arr). apply orb_false_r.
Qed.

(** ** The vector as a set *)
(** A vector is a finite set of indices below its length: the constructor makes
    the empty set, [set_bit] adds an index, [clear_bit] removes it, [get_bit]
    tests membership, [==] is equality of length and set, and [popcount] counts
    the set, on the lengths it accepts; each update keeps the invariant, and
    [set_bit] past the length ends the process. *)
Theorem bitvec_refines_set (b b' : sim_bitvec) (n i : Z) :
  wf b -> wf b' -> 0 <= n < 2 ^ 62 -> 0 <= i < n_bits b ->
  (exists b0, new_bitvec n = Ok b0 /\ wf b0 /\ n_bits b0 = n /\ members b0 = ∅) /\
  (exists b1, set_bit i b = Ok b1 /\ wf b1 /\ n_bits b1 = n_bits b /\ members b1 = {[i]} ∪ members b) /\
  (exists b2, clear_bit i b = Ok b2 /\ wf b2 /\ n_bits b2 = n_bits b /\ members b2 = members b ∖ {[i]}) /\
  get_bit i b = Ok (bool_decide (i ∈ members b)) /\
  (equal b b' = true <-> n_bits b = n_bits b' /\ members b = members b') /\
  popcount b = (if n_bits b mod 64 =? 0 then Ok (Z.of_nat (size (members b))) else Stop HostExit) /\
  (forall j, n_bits b <= j -> set_bit j b = Stop HostExit).
Proof.
  intros Hb Hb' Hn Hi. split; [by apply new_bitvec_ok|].
  split; [|split; [|split; [|split; [by apply equal_ok|split; [by apply popcount_ok|]]]]].
  - destruct (set_bit_ok b i Hb Hi) as (b1 & E & Hu). exists b1. pose proof Hu as (Hw & Hl & _).
    rewrite (updated_members i true b b1) by done. done.
  - destruct (clear_bit_ok b i Hb Hi) as (b2 & E & Hu). exists b2. pose proof Hu as (Hw & Hl & _).
    rewrite (updated_members i false b b2) by done. done.
  - rewrite get_bit_ok by done. f_equal. apply eq_true_iff_eq. rewrite bool_decide_eq_true, elem_members. tauto.
  - intros j Hj. unfold set_bit. by destruct (Z.leb_spec (n_bits b) j); [|lia].
Qed.
(** The searches, which skip whole words and find a bit with [ffs], return what
    a search bit by bit returns: the first set index, the first clear index
    below the length, the first even index of a clear pair, the next set index,
    and -1 when there is none; the "round-robin" search tries the last index
    first and then searches from zero.  [find_next_set] after the last index
    of the last word reads past the array. *)
Theorem bitvec_searches_exact (b : sim_bitvec) (idx : Z) :
  wf b -> -1 <= idx < 2 ^ 62 ->
  find_first_set b = search (bit b) 0 (n_bits b) /\
  find_first_unset b = search (free b) 0 (n_bits b) /\
  find_first_unset_pair b = search (pair_free b) 0 (n_bits b) /\
  find_next_set idx b =
    (if (idx + 1) / 64 <? n_words b then Ok (search (bit b) (idx + 1) (n_bits b)) else Stop HostUB) /\
  find_first_unset_rr b = Ok (if free b (n_bits b - 1) then n_bits b - 1 else search (free b) 0 (n_bits b)).
Proof.
  intros Hb Hidx. split; [by apply find_first_set_ok|]. split; [by apply find_first_unset_ok|].
  split; [by apply find_first_unset_pair_ok|]. split; [by apply find_next_set_ok | by apply find_first_unset_rr_ok].
Qed.

(** ** A vector of 100 bits with the bits 3 and 70 set *)
Definition sample : sim_bitvec := mk_bitvec 100 2 7 99 (wr 1 64 (wr 0 8 ∅)).
Lemma sample_wf : wf sample.
Proof.
  constructor; try done.
  - intros w. cbn [arr sample]. rewrite !rd_wr, rd_empty. by destruct (1 =? w), (0 =? w).
  - intros i Hi. cbn [n_bits sample] in Hi. destruct (index_word i) as [E Hk]. unfold bit. cbn [arr sample].
    rewrite !rd_wr, rd_empty. destruct (Z.eqb_spec 1 (i / 64)) as [E1|].
    + apply (in_u_testbit 7); [lia|done|lia].
    + destruct (Z.eqb_spec 0 (i / 64)); [lia|]. apply Z.bits_0.
Qed.
Theorem bitvec_refines_set_witness :
  exists b1, set_bit 5 sample = Ok b1 /\ wf b1 /\ n_bits b1 = n_bits sample /\ members b1 = {[5]} ∪ members sample.
Proof.
  apply (bitvec_refines_set sample sample 100 5); [exact sample_wf | exact sample_wf | split; [discriminate|reflexivity] | split; [discriminate|reflexivity]].
Defined.
Theorem bitvec_searches_exact_witness :
  find_first_set sample = 3 /\ find_first_set sample = search (bit sample) 0 (n_bits sample) /\ find_next_set 3 sample = Ok 70.
Proof.
  split; [vm_compute; reflexivity|]. split; [|vm_compute; reflexivity].
  apply (bitvec_searches_exact sample 3); [exact sample_wf | split; [discriminate|reflexivity]].
Defined.
(** [shift_left] moves bits past the length, which the searches then report,
    and a prefix hash more than one word short of the vector shifts by more
    than a word. *)
Lemma shift_left_spills :
  exists b', shift_left 40 sample = Ok b' /\ bit b' 110 = true /\ find_next_set 99 b' = Ok 110 /\ n_bits b' = 100.
Proof. eexists. split; [vm_compute; reflexivity|]. repeat split; vm_compute; reflexivity. Qed.
Lemma hash_prefix_shifts_past hc : hash_prefix hc 40 sample = Stop HostUB.
Proof. done. Qed.
