(* ===== verification/Devices.v ===== *)
(** The SGI Indy devices: the memory controller ([src/sgi_mc.cc]) with its serial
    EEPROM, the HPC ([src/sgi_hpc.cc]), the serial chip ([src/sgi_scc.cc]) and the
    physical address decoder ([src/sgi_indy.hh]).  Registers are 32-bit [Z];
    diagnostics on stdout are not modelled, except the console bytes of the
    serial chip. *)
From S2P Require Import Prelude Bits.

(** ** The address decoder *)
Inductive mem_range_t :=
  | sys_mem_alias | eisa_io | eisa_io_alias | eisa_mem_128M | low_local | reserved | graphics
  | gio64_slot0 | gio64_slot1 | mc_regs | hpc_regs | scc_regs | boot_rom | high_local | eisa_mem_2048M.
#[export] Instance mem_range_eq_dec : EqDecision mem_range_t.
Proof. solve_decision. Defined.
Definition within (lo hi pa : Z) : bool := (lo <=? pa) && (pa <=? hi).
Definition compute_mem_range_type (pa : Z) : mem_range_t :=
  if pa <=? 0x7ffff then sys_mem_alias
  else if within 0x80000 0x0008ffff pa then eisa_io
  else if within 0x00090000 0x0009ffff pa then eisa_io_alias
  else if within 0x000a0000 0x07ffffff pa then eisa_mem_128M
  else if within 0x08000000 0x17ffffff pa then low_local
  else if within 0x1f000000 0x1f3fffff pa then graphics
  else if within 0x1f400000 0x1f5fffff pa then gio64_slot0
  else if within 0x1f600000 0x1f9fffff pa then gio64_slot1
  else if within 0x1fa00000 0x1fafffff pa then mc_regs
  else if within 0x1fbd9830 0x1fbd983f pa then scc_regs
  else if within 0x1fb00000 0x1fbfffff pa then hpc_regs
  else if within 0x1fc00000 0x1fffffff pa then boot_rom
  else if within 0x20000000 0x2fffffff pa then high_local
  else if within 0x80000000 0xffffffff pa then eisa_mem_2048M
  else reserved.

(** ** The memory controller *)
Record sgi_mc := mk_mc {
  eeprom_ctrl : Z; cpu_error_status : Z; gio_error_status : Z; cpu_mem_access_config : Z;
  gio_mem_access_config : Z; gio64_arb_param : Z; rpss_divider : Z; rpss_counter : Z;
  cpu_control : Zmap Z; memcfg : Zmap Z; systemid : Z;
  (* the file-scope variables of the serial EEPROM *)
  nbits : Z; eerom : Zmap Z; byte : Z; cbyte : Z;
}.
Definition sgi_mc_init : sgi_mc :=
  {| eeprom_ctrl := 0; cpu_error_status := 0; gio_error_status := 0; cpu_mem_access_config := 0;
     gio_mem_access_config := 0; gio64_arb_param := 0; rpss_divider := 0x104; rpss_counter := 0;
     cpu_control := ∅; memcfg := wr 1 0 (wr 0 (byteswap 4 (u32 (0x3f20 << 16))) ∅); systemid := 0;
     nbits := 0; eerom := ∅; byte := 0; cbyte := 0 |}.
Section mc_setters.
Implicit Types (c : sgi_mc).
Definition set_cpu_control (f : Zmap Z) c : sgi_mc :=
  let '(mk_mc a1 a2 a3 a4 a5 a6 a7 a8 a9 a10 a11 a12 a13 a14 a15) := c in mk_mc a1 a2 a3 a4 a5 a6 a7 a8 f a10 a11 a12 a13 a14 a15.
Definition set_memcfg (f : Zmap Z) c : sgi_mc :=
  let '(mk_mc a1 a2 a3 a4 a5 a6 a7 a8 a9 a10 a11 a12 a13 a14 a15) := c in mk_mc a1 a2 a3 a4 a5 a6 a7 a8 a9 f a11 a12 a13 a14 a15.
Definition set_rpss_divider (x : Z) c : sgi_mc :=
  let '(mk_mc a1 a2 a3 a4 a5 a6 a7 a8 a9 a10 a11 a12 a13 a14 a15) := c in mk_mc a1 a2 a3 a4 a5 a6 x a8 a9 a10 a11 a12 a13 a14 a15.
Definition set_gio64_arb_param (x : Z) c : sgi_mc :=
  let '(mk_mc a1 a2 a3 a4 a5 a6 a7 a8 a9 a10 a11 a12 a13 a14 a15) := c in mk_mc a1 a2 a3 a4 a5 x a7 a8 a9 a10 a11 a12 a13 a14 a15.
Definition set_cpu_mem_access_config (x : Z) c : sgi_mc :=
  let '(mk_mc a1 a2 a3 a4 a5 a6 a7 a8 a9 a10 a11 a12 a13 a14 a15) := c in mk_mc a1 a2 a3 x a5 a6 a7 a8 a9 a10 a11 a12 a13 a14 a15.
Definition set_gio_mem_access_config (x : Z) c : sgi_mc :=
  let '(mk_mc a1 a2 a3 a4 a5 a6 a7 a8 a9 a10 a11 a12 a13 a14 a15) := c in mk_mc a1 a2 a3 a4 x a6 a7 a8 a9 a10 a11 a12 a13 a14 a15.
Definition set_cpu_error_status (x : Z) c : sgi_mc :=
  let '(mk_mc a1 a2 a3 a4 a5 a6 a7 a8 a9 a10 a11 a12 a13 a14 a15) := c in mk_mc a1 x a3 a4 a5 a6 a7 a8 a9 a10 a11 a12 a13 a14 a15.
Definition set_gio_error_status (x : Z) c : sgi_mc :=
  let '(mk_mc a1 a2 a3 a4 a5 a6 a7 a8 a9 a10 a11 a12 a13 a14 a15) := c in mk_mc a1 a2 x a4 a5 a6 a7 a8 a9 a10 a11 a12 a13 a14 a15.
Definition set_eeprom_ctrl (x : Z) c : sgi_mc :=
  let '(mk_mc a1 a2 a3 a4 a5 a6 a7 a8 a9 a10 a11 a12 a13 a14 a15) := c in mk_mc x a2 a3 a4 a5 a6 a7 a8 a9 a10 a11 a12 a13 a14 a15.
Definition set_eeprom (n : Z) (e : Zmap Z) (b k : Z) c : sgi_mc :=
  let '(mk_mc a1 a2 a3 a4 a5 a6 a7 a8 a9 a10 a11 a12 a13 a14 a15) := c in mk_mc a1 a2 a3 a4 a5 a6 a7 a8 a9 a10 a11 n e b k.
End mc_setters.

Definition mc_index (offs : Z) : Z := (offs >> 3) .& 1.
(** [sgi_mc::read]; [icnt] is the instruction count of the machine state. *)
Definition mc_read (icnt offs : Z) (c : sgi_mc) : Z :=
  match offs with
  | 0x0 | 0x4 | 0x8 | 0xc => (cpu_control c).[mc_index offs]
  | 0x18 | 0x1c => systemid c
  | 0xc4 | 0xcc => (memcfg c).[mc_index offs]
  | 0xd4 => cpu_mem_access_config c
  | 0xdc => gio_mem_access_config c
  | 0x30 => 0x10
  | 0x1004 => u32 (icnt / 10)
  | _ => 0
  end.
(** One write of the EEPROM control register: a rising clock with chip select
    shifts the data bit in, the eighth bit stores the byte.  [eerom] has 256
    bytes, [cbyte] is not bounded. *)
Definition eeprom_write (x : Z) (c : sgi_mc) : result sgi_mc :=
  let c := set_eeprom_ctrl x c in
  if (x >> 1) .& 3 =? 3 then
    let b := u8 ((byte c << 1) .| ((x >> 3) .& 1)) in
    let n := u32 (nbits c + 1) in
    if n =? 8 then
      if 256 <=? cbyte c then Stop HostUB
      else Ok (set_eeprom 0 (wr (cbyte c) b (eerom c)) 0 (u32 (cbyte c + 1)) c)
    else Ok (set_eeprom n (eerom c) b (cbyte c) c)
  else Ok c.
Definition mc_write (offs x : Z) (c : sgi_mc) : result sgi_mc :=
  match offs with
  | 0x0 | 0x4 | 0x8 | 0xc => Ok (set_cpu_control (wr (mc_index offs) x (cpu_control c)) c)
  | 0x2c => Ok (set_rpss_divider x c)
  | 0x84 => Ok (set_gio64_arb_param x c)
  | 0xc4 | 0xcc => Ok (set_memcfg (wr (mc_index offs) x (memcfg c)) c)
  | 0xd4 => Ok (set_cpu_mem_access_config x c)
  | 0xdc => Ok (set_gio_mem_access_config x c)
  | 0xec => Ok (set_cpu_error_status 0 c)
  | 0xfc => Ok (set_gio_error_status 0 c)
  | 0x30 => eeprom_write x c
  | _ => Ok c
  end.

(** ** The HPC *)
Record sgi_hpc := mk_hpc { intstat : Z; misc : Z; pbus_pio_config : Zmap Z; pbus_dma_config : Zmap Z }.
Definition sgi_hpc_init : sgi_hpc := mk_hpc 0 0 ∅ ∅.
Definition hpc_read (offs : Z) (h : sgi_hpc) : Z :=
  if offs <=? 0x0000ffff then 0
  else if within 0x00010000 0x0001ffff offs then 0
  else if offs =? 0x30000 then intstat h
  else if offs =? 0x30004 then misc h
  else 0.
Definition hpc_write (offs x : Z) (h : sgi_hpc) : result sgi_hpc :=
  if offs <=? 0x0000ffff then Ok h
  else if within 0x00010000 0x0001ffff offs then Ok h
  else if offs =? 0x30004 then Ok (mk_hpc (intstat h) (x .& 3) (pbus_pio_config h) (pbus_dma_config h))
  else if within 0x40000 0x47fff offs then Ok h
  else if within 0x00058000 0x0005bfff offs then Ok h
  else if within 0x5c000 0x5cfff offs then
    let id := ((offs >> 8) .& 0xf) >> 1 in
    Ok (mk_hpc (intstat h) (misc h) (pbus_pio_config h) (wr id x (pbus_dma_config h)))
  else if within 0x5d000 0x5dfff offs then
    let id := (offs >> 8) .& 0xf in
    if id <? 10 then Ok (mk_hpc (intstat h) (misc h) (wr id x (pbus_pio_config h)) (pbus_dma_config h))
    else Stop HostExit
  else Stop HostExit.

(** ** The serial chip: transmit only *)
Definition RR0_TX_EMPTY : Z := 0x04.
Definition RR0_ALL_SENT : Z := 0x40.
Definition is_data_reg (offs : Z) : bool := (offs >> 2) .& 1 =/? 0.
Definition scc_read (offs : Z) : Z := if is_data_reg offs then 0 else RR0_TX_EMPTY .| RR0_ALL_SENT.
(** The bytes put on the console. *)
Definition scc_write (offs b : Z) : list Z := if is_data_reg offs then [b] else [].
