(* ===== verification/Bus.v ===== *)
(** The memory port of the core under test in [src/top.cc]: the routing of word
    accesses to memory and devices ([perform_word_load], [perform_word_store]),
    the line transfers, and the request/response protocol with its latency. *)
From S2P Require Import Prelude Bits Insns State Mem Devices.

(** The devices, when they exist ([mc], [hpc] and [scc] are created together). *)
Record devices := mk_devices { d_mc : sgi_mc; d_hpc : sgi_hpc }.
(** What the port reaches: the memory of [s], its instruction count, the devices
    and the console. *)
Record bus := mk_bus { b_mem : sparse_mem; b_icnt : Z; b_dev : option devices; b_console : list Z }.
Definition set_b_mem (m : sparse_mem) (b : bus) : bus := mk_bus m (b_icnt b) (b_dev b) (b_console b).
Definition set_b_dev (d : devices) (b : bus) : bus := mk_bus (b_mem b) (b_icnt b) (Some d) (b_console b).
Definition put_console (l : list Z) (b : bus) : bus := mk_bus (b_mem b) (b_icnt b) (b_dev b) (b_console b ++ l).
Definition SCC_BASE : Z := 0x1fbd9830.

(** [mr]: without devices everything is plain memory. *)
Definition route_of (b : bus) (addr : Z) : mem_range_t :=
  match b_dev b with Some _ => compute_mem_range_type addr | None => low_local end.
(** Bit [k + j] of the line mask, for the byte [j] of the word at [addr]. *)
Definition lane (addr m j : Z) : bool := (m >> ((addr .& 15) + j)) .& 1 =/? 0.
Definition word_mask (addr m : Z) : Z := (m >> (4 * ((addr >> 2) .& 3))) .& 15.
Definition lanes : list Z := [0; 1; 2; 3].

(** The byte loops over the four lanes. *)
Definition load_lanes (addr m : Z) (rd_byte : Z -> result Z) : result Z :=
  foldr (fun j rest => fun d =>
    if lane addr m j then let! by_ := rd_byte (u32 (addr + j)) in rest (d .| (by_ << (j * 8))) else rest d)
    (fun d => Ok d) lanes 0.
Definition store_lanes {B} (addr m d : Z) (wr_byte : Z -> Z -> B -> result B) (b : B) : result B :=
  foldr (fun j rest => fun b =>
    if lane addr m j then let! b := wr_byte (u32 (addr + j)) ((d >> (8 * j)) .& 0xff) b in rest b else rest b)
    (fun b => Ok b) lanes b.

Definition perform_word_load (addr m : Z) (b : bus) : result Z :=
  match route_of b addr, b_dev b with
  | hpc_regs, Some dv => Ok (if word_mask addr m =? 15 then hpc_read (addr .& 0x7ffff) (d_hpc dv) else 0)
  | mc_regs, Some dv => Ok (if word_mask addr m =? 15 then mc_read (b_icnt b) (addr .& 0x1ffff) (d_mc dv) else 0)
  | scc_regs, Some _ => load_lanes addr m (fun a => Ok (scc_read (u32 (a - SCC_BASE))))
  | _, _ => load_lanes addr m (fun a => mem_get 1 a (b_mem b))
  end.
Definition store_byte (a v : Z) (b : bus) : result bus :=
  let! mm := mem_set 1 a v (b_mem b) in Ok (set_b_mem mm b).
Definition perform_word_store (addr m d : Z) (b : bus) : result bus :=
  match route_of b addr, b_dev b with
  | mc_regs, Some dv =>
      if word_mask addr m =? 15 then
        let! c := mc_write (addr .& 0x1ffff) d (d_mc dv) in Ok (set_b_dev (mk_devices c (d_hpc dv)) b)
      else Ok b
  | hpc_regs, Some dv =>
      if word_mask addr m =? 15 then
        let! h := hpc_write (addr .& 0x7ffff) d (d_hpc dv) in Ok (set_b_dev (mk_devices (d_mc dv) h) b)
      else Ok b
  | scc_regs, Some _ =>
      store_lanes addr m d (fun a v b => Ok (put_console (scc_write (u32 (a - SCC_BASE)) v) b)) b
  | _, _ => store_lanes addr m d store_byte b
  end.

(** ** Line transfers *)
(** A request of the core: [opcode] 4 loads a line, 7 stores one. *)
Record request := mk_request { opcode : Z; req_addr : Z; req_mask : Z; req_data : list Z }.
Definition word_ea (r : request) (i : Z) : Z := u32 (req_addr r + 4 * i).
Definition load_line (r : request) (b : bus) : result (list Z) :=
  let! d0 := perform_word_load (word_ea r 0) (req_mask r) b in
  let! d1 := perform_word_load (word_ea r 1) (req_mask r) b in
  let! d2 := perform_word_load (word_ea r 2) (req_mask r) b in
  let! d3 := perform_word_load (word_ea r 3) (req_mask r) b in
  if req_addr r .& 0xf =? 0 then Ok [d0; d1; d2; d3] else Stop HostExit.
Definition store_line (r : request) (b : bus) : result bus :=
  foldr (fun i rest => fun b =>
    let! b := perform_word_store (word_ea r i) (req_mask r) (nth (Z.to_nat i) (req_data r) 0) b in rest b)
    (fun b => Ok b) lanes b.
(** The halt register: any nonzero word stored to it. *)
Definition MAGIC_HALT_PHYS : Z := 0x1FD00000.
Definition halts (magic_halt : bool) (r : request) : bool :=
  existsb (fun i => magic_halt && (word_ea r i .& 0x1fffffff =? MAGIC_HALT_PHYS)
                    && (nth (Z.to_nat i) (req_data r) 0 =/? 0)) lanes.

(** ** The protocol *)
(** The port: the cycle of the pending reply (-1: none), the bus, the halt flag,
    and the reply of this cycle, if any. *)
Record port := mk_port {
  mem_reply_cycle : Z; p_bus : bus; sim_halted : bool; reply : option (list Z);
}.
(** One negative edge: [req] is the core's request while it holds it valid,
    [lat] the latency drawn for a request accepted now. *)
Definition accept (cycle lat : Z) (req : option request) (p : port) : port :=
  match req with
  | Some r =>
      if mem_reply_cycle p =? -1 then
        mk_port (s64 (u64 (cycle + (if opcode r =? 4 then 1 else 2) * lat))) (p_bus p) (sim_halted p) None
      else mk_port (mem_reply_cycle p) (p_bus p) (sim_halted p) None
  | None => mk_port (mem_reply_cycle p) (p_bus p) (sim_halted p) None
  end.
Definition negedge (magic_halt : bool) (cycle lat : Z) (req : option request) (p : port) : result port :=
  let p := accept cycle lat req p in
  if u64 (mem_reply_cycle p) =? cycle then
    match req with
    | None => Stop HostExit
    | Some r =>
        if opcode r =? 4 then
          let! l := load_line r (p_bus p) in Ok (mk_port (-1) (p_bus p) (sim_halted p) (Some l))
        else if opcode r =? 7 then
          let! b := store_line r (p_bus p) in
          Ok (mk_port (-1) b (sim_halted p || halts magic_halt r) (Some []))
        else Ok (mk_port (-1) (p_bus p) (sim_halted p) (Some []))
    end
  else Ok p.
