(* ===== verification/BusProps.v ===== *)
(** Properties of the memory port and the devices: a line store writes exactly
    the masked bytes, a line lies in one range, devices and memory do not
    interfere, registers read back, and every request is answered once. *)
From S2P Require Import Prelude Bits Insns State Mem Devices Bus.

(** The memory cell behind a physical address. *)
Definition cell (b : bus) (c : Z) : Z := (mem_bytes (b_mem b)).[c].
Definition data_byte (d j : Z) : Z := (d >> (8 * j)) .& 0xff.
(** What a masked line store leaves in byte [k] of the line. *)
Definition line_cell (r : request) (k old : Z) : Z :=
  if Z.testbit (req_mask r) k then data_byte (nth (Z.to_nat (k / 4)) (req_data r) 0) (k mod 4) else old.
(** Everything of the bus but the contents of memory. *)
Definition same_devices (b b' : bus) : Prop :=
  b_dev b' = b_dev b /\ b_console b' = b_console b /\ b_icnt b' = b_icnt b /\
  route_devices (b_mem b') = route_devices (b_mem b).
(** A range served by plain memory. *)
Definition is_plain (mr : mem_range_t) : bool :=
  match mr with mc_regs | hpc_regs | scc_regs => false | _ => true end.
Definition line_ok (a : Z) : Prop := in_u 32 a /\ a mod 16 = 0.

(** * Theorems *)
Lemma land_shr_bit x n : 0 <= n -> ((x >> n) .& 1 =/? 0) = Z.testbit x n.
Proof.
  intros Hn. change 1 with (Z.ones 1). rewrite Z.land_ones by done. change (2 ^ 1) with 2.
  rewrite <- Z.bit0_mod, Z.shiftr_spec by done. rewrite Z.add_0_l. by destruct (Z.testbit x n).
Qed.
Lemma lane_bit a m j : line_ok a -> 0 <= j < 16 -> forall i, j / 4 = i -> lane (a + 4 * i) m (j mod 4) = Z.testbit m j.
Proof.
  intros [Ha Hal] Hj i <-. unfold lane. rewrite land_shr_bit.
  - f_equal. change 15 with (Z.ones 4). rewrite Z.land_ones by done. change (2 ^ 4) with 16.
    rewrite Z.add_mod, Hal, Z.add_0_l, Z.mod_mod by done. pose proof (Z.div_mod j 4 ltac:(lia)).
    pose proof (Z.mod_pos_bound j 4 ltac:(lia)). rewrite Z.mod_small by lia. lia.
  - pose proof (land_nonneg_r (a + 4 * (j / 4)) 15 ltac:(lia)). pose proof (Z.mod_pos_bound j 4). lia.
Qed.
(** The sixteen bytes of a line are contiguous in memory. *)
Lemma route_line m a k : line_ok a -> 0 <= k < 16 -> route m (a + k) = route m a + k /\ 0 <= route m a + k < mem_sz.
Proof.
  intros [Ha Hal] Hk. unfold in_u in Ha. change (2 ^ 32) with 4294967296 in Ha. change mem_sz with 4294967296.
  pose proof (Z.div_mod a 16 ltac:(lia)). unfold route. destruct (route_devices m); [|lia].
  destruct (decide (a < 0x80000)).
  - rewrite !mc_alias_small by lia. lia.
  - unfold mc_alias. rewrite !(proj2 (Z.ltb_ge _ _)) by lia. lia.
Qed.

(** ** A line lies in one range *)
Lemma within_line lo hi a k :
  a mod 16 = 0 -> 0 <= k < 16 -> lo mod 16 = 0 -> (hi + 1) mod 16 = 0 -> within lo hi (a + k) = within lo hi a.
Proof.
  intros Ha Hk Hlo Hhi. unfold within.
  pose proof (Z.div_mod a 16 ltac:(lia)). pose proof (Z.div_mod lo 16 ltac:(lia)). pose proof (Z.div_mod (hi + 1) 16 ltac:(lia)).
  destruct (Z.leb_spec lo (a + k)), (Z.leb_spec lo a), (Z.leb_spec (a + k) hi), (Z.leb_spec a hi); cbn; try done; lia.
Qed.
Lemma range_line a k : a mod 16 = 0 -> 0 <= k < 16 -> compute_mem_range_type (a + k) = compute_mem_range_type a.
Proof.
  intros Ha Hk. unfold compute_mem_range_type.
  assert ((a + k <=? 0x7ffff) = (a <=? 0x7ffff)) as ->.
  { pose proof (Z.div_mod a 16 ltac:(lia)). destruct (Z.leb_spec (a + k) 0x7ffff), (Z.leb_spec a 0x7ffff); try done; lia. }
  by rewrite !within_line by done.
Qed.
Lemma route_of_line b a k : line_ok a -> 0 <= k < 16 -> route_of b (a + k) = route_of b a.
Proof. intros [_ Ha] Hk. unfold route_of. destruct (b_dev b); [by apply range_line|done]. Qed.
Lemma word_ea_line r i : line_ok (req_addr r) -> 0 <= i < 4 -> word_ea r i = req_addr r + 4 * i.
Proof.
  intros [Ha Hal] Hi. unfold word_ea. apply wrapu_id. unfold in_u in *. change (2 ^ 32) with 4294967296 in *.
  pose proof (Z.div_mod (req_addr r) 16 ltac:(lia)). lia.
Qed.

(** ** Plain stores *)
Lemma store_byte_line b a k v :
  line_ok a -> 0 <= k < 16 ->
  store_byte (u32 (a + k)) v b =
  Ok (set_b_mem {| mem_bytes := wr (route (b_mem b) a + k) (u8 v) (mem_bytes (b_mem b)); route_devices := route_devices (b_mem b) |} b).
Proof.
  intros Ha Hk. destruct (route_line (b_mem b) a k Ha Hk) as [Hr Hb].
  assert (in_u 32 (a + k)) as Hak.
  { destruct Ha as [Ha Hal]. unfold in_u in *. change (2 ^ 32) with 4294967296 in *. pose proof (Z.div_mod a 16 ltac:(lia)). lia. }
  unfold store_byte, mem_set. rewrite wrapu_id, Hr by done. by rewrite check_addr_Ok by lia.
Qed.
Lemma data_byte_u8 d j : u8 (data_byte d j) = data_byte d j.
Proof. apply wrapu_id. unfold data_byte. apply (in_u_ones 8). lia. Qed.
(** One lane: the byte is written when its mask bit is set. *)
Definition lane_store (base k d j : Z) (on : bool) (b : bus) : bus :=
  if on then set_b_mem {| mem_bytes := wr (base + k) (data_byte d j) (mem_bytes (b_mem b)); route_devices := route_devices (b_mem b) |} b else b.
Lemma lane_store_frame base k d j on b : same_devices b (lane_store base k d j on b).
Proof. by destruct on. Qed.
Lemma lane_store_cell base k d j on b c :
  cell (lane_store base k d j on b) c = if on && (base + k =? c) then data_byte d j else cell b c.
Proof. destruct on; [|done]. unfold cell; cbn. apply rd_wr. Qed.
Lemma same_devices_trans b1 b2 b3 : same_devices b1 b2 -> same_devices b2 b3 -> same_devices b1 b3.
Proof. intros (?&?&?&?) (?&?&?&?). split_and!; congruence. Qed.
Lemma route_same b b' a : same_devices b b' -> route (b_mem b') a = route (b_mem b) a.
Proof. intros (_&_&_&Hr). unfold route. by rewrite Hr. Qed.
Lemma store_lane_eq b a base i j m d (k : bus -> result bus) :
  route (b_mem b) a = base -> line_ok a -> 0 <= i < 4 -> 0 <= j < 4 ->
  (if lane (a + 4 * i) m j then let! b := store_byte (u32 (a + 4 * i + j)) ((d >> (8 * j)) .& 0xff) b in k b else k b) =
  k (lane_store base (4 * i + j) d j (Z.testbit m (4 * i + j)) b).
Proof.
  intros <- Ha Hi Hj. rewrite <- (lane_bit a m (4 * i + j) Ha ltac:(lia) i ltac:(symmetry; apply (Z.div_unique _ _ _ j); lia)).
  replace ((4 * i + j) mod 4) with j by (apply (Z.mod_unique _ _ i); lia).
  destruct (lane _ _ _); [|done]. rewrite <- Z.add_assoc, store_byte_line by (done || lia). cbn [mbind result_bind lane_store].
  fold (data_byte d j). by rewrite data_byte_u8.
Qed.
Definition word_store (base i m d : Z) (b : bus) : bus :=
  foldl (fun b j => lane_store base (4 * i + j) d j (Z.testbit m (4 * i + j)) b) b lanes.
Lemma foldl_frame (f : bus -> Z -> bus) l b : (forall b j, same_devices b (f b j)) -> same_devices b (foldl f b l).
Proof.
  intros Hf. revert b; induction l as [|j l IH]; intros b; cbn [foldl]; [done|]. by eapply same_devices_trans; [apply Hf|].
Qed.
Lemma word_store_frame base i m d b : same_devices b (word_store base i m d b).
Proof. apply foldl_frame. intros. apply lane_store_frame. Qed.
Lemma store_word b a i m d :
  line_ok a -> 0 <= i < 4 ->
  store_lanes (a + 4 * i) m d store_byte b = Ok (word_store (route (b_mem b) a) i m d b).
Proof.
  intros Ha Hi. unfold store_lanes, word_store, lanes. cbn [foldr foldl].
  set (base := route (b_mem b) a). assert (route (b_mem b) a = base) as H0 by reflexivity. clearbody base.
  assert (forall b' k j on, route (b_mem b') a = base -> route (b_mem (lane_store base k d j on b')) a = base) as Hl.
  { intros b' k j on <-. apply route_same, lane_store_frame. }
  rewrite (store_lane_eq b a base i 0) by (assumption || lia). apply Hl with (k := 4 * i + 0) (j := 0) (on := Z.testbit m (4 * i + 0)) in H0.
  set (b1 := lane_store _ _ _ _ _ b) in *. clearbody b1.
  rewrite (store_lane_eq b1 a base i 1) by (assumption || lia). apply Hl with (k := 4 * i + 1) (j := 1) (on := Z.testbit m (4 * i + 1)) in H0.
  set (b2 := lane_store _ _ _ _ _ b1) in *. clearbody b2.
  rewrite (store_lane_eq b2 a base i 2) by (assumption || lia). apply Hl with (k := 4 * i + 2) (j := 2) (on := Z.testbit m (4 * i + 2)) in H0.
  set (b3 := lane_store _ _ _ _ _ b2) in *. clearbody b3.
  by rewrite (store_lane_eq b3 a base i 3) by (assumption || lia).
Qed.
Lemma word_store_cell base i m d b c :
  cell (word_store base i m d b) c =
  if within (base + 4 * i) (base + 4 * i + 3) c && Z.testbit m (c - base) then data_byte d (c - base - 4 * i) else cell b c.
Proof.
  unfold word_store, lanes. cbn [foldl]. rewrite !lane_store_cell. unfold within.
  destruct (Z.leb_spec (base + 4 * i) c), (Z.leb_spec c (base + 4 * i + 3)); cbn [andb];
    try (repeat match goal with |- context [?x =? ?y] => rewrite (proj2 (Z.eqb_neq x y)) by lia end; by rewrite !andb_false_r).
  assert (c = base + (4 * i + 0) \/ c = base + (4 * i + 1) \/ c = base + (4 * i + 2) \/ c = base + (4 * i + 3)) as Hc by lia.
  assert (forall j, c = base + (4 * i + j) -> c - base = 4 * i + j /\ c - base - 4 * i = j) as Hj by lia.
  destruct_or! Hc; destruct (Hj _ Hc) as [-> ->]; rewrite Hc;
    repeat match goal with
    | |- context [?x =? ?x] => rewrite Z.eqb_refl
    | |- context [?x =? ?y] => rewrite (proj2 (Z.eqb_neq x y)) by lia
    end; rewrite ?andb_false_r, ?andb_true_r; done.
Qed.
(** A plain word access does not look at the devices. *)
Lemma plain_store b addr m d :
  is_plain (route_of b addr) = true -> perform_word_store addr m d b = store_lanes addr m d store_byte b.
Proof. unfold perform_word_store. destruct (route_of b addr); done. Qed.
Lemma plain_load b addr m :
  is_plain (route_of b addr) = true -> perform_word_load addr m b = load_lanes addr m (fun a => mem_get 1 a (b_mem b)).
Proof. unfold perform_word_load. destruct (route_of b addr); done. Qed.
Lemma route_of_same b b' a : same_devices b b' -> route_of b' a = route_of b a.
Proof. intros (Hd&_). unfold route_of. by rewrite Hd. Qed.
Definition line_store (base : Z) (r : request) (b : bus) : bus :=
  foldl (fun b i => word_store base i (req_mask r) (nth (Z.to_nat i) (req_data r) 0) b) b lanes.
Lemma store_line_plain b r :
  line_ok (req_addr r) -> is_plain (route_of b (req_addr r)) = true ->
  store_line r b = Ok (line_store (route (b_mem b) (req_addr r)) r b).
Proof.
  intros Ha Hp. set (a := req_addr r) in *.
  assert (forall b' i, same_devices b b' -> 0 <= i < 4 ->
    perform_word_store (word_ea r i) (req_mask r) (nth (Z.to_nat i) (req_data r) 0) b' =
    Ok (word_store (route (b_mem b) a) i (req_mask r) (nth (Z.to_nat i) (req_data r) 0) b')) as Hw.
  { intros b' i Hb Hi. rewrite word_ea_line by done. fold a. rewrite plain_store.
    - by rewrite store_word, (route_same b b') by done.
    - rewrite (route_of_line b') by (done || lia). by rewrite (route_of_same b b'). }
  assert (forall l b', Forall (fun i => 0 <= i < 4) l -> same_devices b b' ->
    foldr (fun i rest => fun b =>
      let! b := perform_word_store (word_ea r i) (req_mask r) (nth (Z.to_nat i) (req_data r) 0) b in rest b) (fun b => Ok b) l b' =
    Ok (foldl (fun b1 i => word_store (route (b_mem b) a) i (req_mask r) (nth (Z.to_nat i) (req_data r) 0) b1) b' l)) as Hf.
  { intros l. induction l as [|i l IH]; intros b' Hl Hb; [done|]. apply Forall_cons in Hl as [Hi Hl].
    cbn [foldr foldl]. rewrite Hw by done. cbn [mbind result_bind].
    apply IH; [done|]. eapply same_devices_trans; [exact Hb|apply word_store_frame]. }
  apply Hf; [|done]. unfold lanes. repeat (constructor; [lia|]). constructor.
Qed.
Lemma line_store_frame base r b : same_devices b (line_store base r b).
Proof. apply foldl_frame. intros. apply word_store_frame. Qed.
Lemma line_store_cell base r b c :
  cell (line_store base r b) c = if within base (base + 15) c then line_cell r (c - base) (cell b c) else cell b c.
Proof.
  unfold line_store, lanes. cbn [foldl]. rewrite !word_store_cell. unfold within, line_cell.
  destruct (Z.leb_spec base c), (Z.leb_spec c (base + 15)); cbn [andb].
  2-4: repeat match goal with |- context [?x <=? ?y] => destruct (Z.leb_spec x y); try lia end; done.
  set (k := c - base). assert (0 <= k < 16) as Hk by lia.
  pose proof (Z.div_mod k 4 ltac:(lia)). pose proof (Z.mod_pos_bound k 4 ltac:(lia)).
  assert (k / 4 = 0 \/ k / 4 = 1 \/ k / 4 = 2 \/ k / 4 = 3) as Hq by lia.
  assert (forall i, k / 4 = i -> k - 4 * i = k mod 4) as Hm by lia.
  destruct_or! Hq; rewrite <- (Hm _ Hq), Hq;
    repeat match goal with |- context [?x <=? ?y] => destruct (Z.leb_spec x y); try lia end; cbn [andb]; done.
Qed.

(** ** Plain loads *)
Definition masked_cell (b : bus) (base m k : Z) : Z := if Z.testbit m k then cell b (base + k) else 0.
Definition line_word (b : bus) (base m i : Z) : Z := le_join (map (fun j => masked_cell b base m (4 * i + j)) lanes).
Lemma load_byte_line b a k : line_ok a -> 0 <= k < 16 -> mem_get 1 (u32 (a + k)) (b_mem b) = Ok (cell b (route (b_mem b) a + k)).
Proof.
  intros Ha Hk. destruct (route_line (b_mem b) a k Ha Hk) as [Hr Hb].
  assert (in_u 32 (a + k)) as Hak.
  { destruct Ha as [Ha Hal]. unfold in_u in *. change (2 ^ 32) with 4294967296 in *. pose proof (Z.div_mod a 16 ltac:(lia)). lia. }
  unfold mem_get. rewrite wrapu_id, Hr by done. rewrite check_addr_Ok by lia. cbn [mbind result_bind load_bytes le_join].
  by rewrite Z.shiftl_0_l, Z.lor_0_r.
Qed.
Lemma load_lane_eq b a i j m d (k : Z -> result Z) :
  line_ok a -> 0 <= i < 4 -> 0 <= j < 4 ->
  (if lane (a + 4 * i) m j then let! by_ := mem_get 1 (u32 (a + 4 * i + j)) (b_mem b) in k (d .| (by_ << (j * 8))) else k d) =
  k (d .| (masked_cell b (route (b_mem b) a) m (4 * i + j) << (8 * j))).
Proof.
  intros Ha Hi Hj. unfold masked_cell.
  rewrite <- (lane_bit a m (4 * i + j) Ha ltac:(lia) i ltac:(symmetry; apply (Z.div_unique _ _ _ j); lia)).
  replace ((4 * i + j) mod 4) with j by (apply (Z.mod_unique _ _ i); lia).
  destruct (lane _ _ _); [|by rewrite Z.shiftl_0_l, Z.lor_0_r].
  rewrite <- Z.add_assoc, load_byte_line by (done || lia). cbn [mbind result_bind]. by rewrite (Z.mul_comm j 8).
Qed.
Lemma load_word b a i m :
  line_ok a -> 0 <= i < 4 ->
  load_lanes (a + 4 * i) m (fun x => mem_get 1 x (b_mem b)) = Ok (line_word b (route (b_mem b) a) m i).
Proof.
  intros Ha Hi. set (base := route (b_mem b) a).
  assert (forall l d, Forall (fun j => 0 <= j < 4) l ->
    foldr (fun j rest => fun d => if lane (a + 4 * i) m j then let! by_ := mem_get 1 (u32 (a + 4 * i + j)) (b_mem b) in
        rest (d .| (by_ << (j * 8))) else rest d) (fun d => Ok d) l d =
    Ok (foldl (fun d j => d .| (masked_cell b base m (4 * i + j) << (8 * j))) d l)) as Hf.
  { intros l. induction l as [|j l IH]; intros d Hl; [done|]. apply Forall_cons in Hl as [Hj Hl]. cbn [foldr foldl].
    set (rest := foldr _ _ l) in *. rewrite (load_lane_eq b a i j m d rest) by done. by apply IH. }
  unfold load_lanes. rewrite Hf by (unfold lanes; repeat (constructor; [lia|]); constructor).
  f_equal. unfold line_word, lanes. cbn [foldl map le_join].
  rewrite !Z.shiftl_lor, !Z.shiftl_shiftl, Z.shiftl_0_l, Z.lor_0_r, Z.lor_0_l by lia.
  change (8 * 0) with 0. rewrite Z.shiftl_0_r, <- !Z.lor_assoc. done.
Qed.
Lemma load_line_plain b r :
  line_ok (req_addr r) -> is_plain (route_of b (req_addr r)) = true ->
  load_line r b = Ok (map (line_word b (route (b_mem b) (req_addr r)) (req_mask r)) lanes).
Proof.
  intros Ha Hp. assert (forall i, 0 <= i < 4 ->
    perform_word_load (word_ea r i) (req_mask r) b = Ok (line_word b (route (b_mem b) (req_addr r)) (req_mask r) i)) as Hw.
  { intros i Hi. rewrite word_ea_line by done. rewrite plain_load; [by apply load_word|].
    by rewrite route_of_line by (done || lia). }
  unfold load_line. rewrite !Hw by lia. cbn [mbind result_bind].
  change 0xf with (Z.ones 4). rewrite Z.land_ones by done. change (2 ^ 4) with 16. by rewrite (proj2 Ha).
Qed.

(** A line of plain memory stores and loads exactly.  For a 16-byte aligned
    line outside the device windows, a store of the core succeeds, writes the
    bytes the mask selects and no other cell of memory, and leaves the devices,
    the console and the alias alone; a load returns the four words made of the
    bytes its mask selects, so that loading the whole line after a store returns
    the stored bytes over the old ones. *)
Theorem line_round_trip (b : bus) (r : request)
    (Ha : line_ok (req_addr r)) (Hp : is_plain (route_of b (req_addr r)) = true) :
  let base := route (b_mem b) (req_addr r) in
  exists b', store_line r b = Ok b' /\ same_devices b b' /\
    (forall c, cell b' c = if within base (base + 15) c then line_cell r (c - base) (cell b c) else cell b c) /\
    load_line r b = Ok (map (line_word b base (req_mask r)) lanes) /\
    load_line (mk_request 4 (req_addr r) 0xffff []) b' =
      Ok (map (fun i => le_join (map (fun j => line_cell r (4 * i + j) (cell b (base + (4 * i + j)))) lanes)) lanes).
Proof.
  intros base. eexists. split; [by apply store_line_plain|]. fold base. split; [apply line_store_frame|].
  split; [intros; apply line_store_cell|]. split; [by apply load_line_plain|].
  set (b' := line_store base r b). pose proof (line_store_frame base r b : same_devices b b') as Hs.
  rewrite load_line_plain; [|done|by rewrite <- Hp; cbn [req_addr]; rewrite (route_of_same b b')].
  cbn [req_addr req_mask]. rewrite (route_same b b') by done. fold base. f_equal.
  assert (forall i j, 0 <= i < 4 -> 0 <= j < 4 -> masked_cell b' base 0xffff (4 * i + j) =
    line_cell r (4 * i + j) (cell b (base + (4 * i + j)))) as Hc.
  { intros i j Hi Hj. unfold masked_cell. change 0xffff with (Z.ones 16). rewrite Z.ones_spec_low by lia.
    unfold b'. rewrite line_store_cell. unfold within.
    rewrite (proj2 (Z.leb_le _ _)), (proj2 (Z.leb_le _ (base + 15))) by lia. cbn [andb]. f_equal. lia. }
  unfold line_word, lanes. cbn [map]. by rewrite !Hc by lia.
Qed.
Lemma line_round_trip_witness :
  let b := mk_bus (mk_sparse_mem ∅ true) 0 (Some (mk_devices sgi_mc_init sgi_hpc_init)) [] in
  let r := mk_request 7 0x100 0x00f0 [0x11111111; 0x44332211; 0; 0] in
  exists b', store_line r b = Ok b' /\ load_line (mk_request 4 0x100 0xffff []) b' = Ok [0; 0x44332211; 0; 0].
Proof.
  intros b r. destruct (line_round_trip b r) as (b'&Hb'&_&_&_&Hl); [split; [unfold in_u; cbn; lia|reflexivity]|reflexivity|].
  exists b'. split; [exact Hb'|]. etransitivity; [exact Hl|]. vm_compute. reflexivity.
Defined.

(** ** Devices *)
(** The readable registers of the memory controller: offset and the register it
    selects. *)
Definition mc_registers : list (Z * Z) :=
  [(0x0, 0); (0x4, 0); (0x8, 1); (0xc, 1); (0xc4, 2); (0xcc, 3); (0xd4, 4); (0xdc, 5)].
Lemma mc_write_read icnt x c :
  Forall (fun '(offs, k) => exists c', mc_write offs x c = Ok c' /\ mc_read icnt offs c' = x /\
     Forall (fun '(offs', k') => k' <> k -> mc_read icnt offs' c' = mc_read icnt offs' c) mc_registers) mc_registers.
Proof.
  destruct c. unfold mc_registers.
  repeat (apply Forall_cons; split; [eexists; split; [reflexivity|]; split; [cbn; by rewrite ?rd_wr_eq|]|]); [..|done];
    repeat (apply Forall_cons; split; [intros Hk; cbn; rewrite ?rd_wr_ne by done; done|]); done.
Qed.
Lemma mc_window p : p ∈ mc_registers -> compute_mem_range_type (0x1fa00000 + p.1) = mc_regs /\ (0x1fa00000 + p.1) .& 0x1ffff = p.1.
Proof.
  revert p. apply Forall_forall. unfold mc_registers. repeat (apply Forall_cons; split; [split; reflexivity|]). done.
Qed.
Lemma mc_bus_store b dv addr m d :
  b_dev b = Some dv -> compute_mem_range_type addr = mc_regs ->
  perform_word_store addr m d b =
  if word_mask addr m =? 15 then let! c := mc_write (addr .& 0x1ffff) d (d_mc dv) in Ok (set_b_dev (mk_devices c (d_hpc dv)) b) else Ok b.
Proof. intros Hd Hr. unfold perform_word_store, route_of. by rewrite Hd, Hr. Qed.
Lemma mc_bus_load b dv addr m :
  b_dev b = Some dv -> compute_mem_range_type addr = mc_regs ->
  perform_word_load addr m b = Ok (if word_mask addr m =? 15 then mc_read (b_icnt b) (addr .& 0x1ffff) (d_mc dv) else 0).
Proof. intros Hd Hr. unfold perform_word_load, route_of. by rewrite Hd, Hr. Qed.
(** A device store leaves memory alone. *)
Lemma store_lanes_inv {A B} (f : B -> A) addr m d (w : Z -> Z -> B -> result B) b b' :
  (forall a v x y, w a v x = Ok y -> f y = f x) -> store_lanes addr m d w b = Ok b' -> f b' = f b.
Proof.
  intros Hw. unfold store_lanes. generalize lanes as l. intros l. revert b; induction l as [|j l IH]; intros b; cbn [foldr]; [by intros [= ->]|].
  destruct (lane addr m j); [|apply IH]. destruct (w _ _ b) as [y|] eqn:Hy; [|done]. cbn [mbind result_bind].
  intros Hb. rewrite (IH _ Hb). eauto.
Qed.
Lemma device_store_mem addr m d b b' :
  is_plain (route_of b addr) = false -> perform_word_store addr m d b = Ok b' -> b_mem b' = b_mem b.
Proof.
  unfold perform_word_store, route_of. destruct (b_dev b) as [dv|]; [|done].
  destruct (compute_mem_range_type addr); try done; intros _.
  - destruct (_ =? 15); [|by intros [= ->]]. destruct (mc_write _ _ _); [|done]. by intros [= <-].
  - destruct (_ =? 15); [|by intros [= ->]]. destruct (hpc_write _ _ _); [|done]. by intros [= <-].
  - apply (store_lanes_inv b_mem). by intros a v x y [= <-].
Qed.

(** The device windows.  With the devices present: a store routed to a device
    leaves memory alone; an access of less than a word to the memory controller or
    the HPC is ignored and reads 0; a word stored to a readable register of the
    memory controller is read back at every offset of that register, whatever the
    store's effect the other registers keep their value; the HPC's misc register
    keeps two bits; and a PIO configuration above channel 9, like a store to an
    unknown HPC register, stops the simulator. *)
Theorem device_registers (b : bus) (dv : devices) (Hd : b_dev b = Some dv) :
  (forall addr m d b', is_plain (route_of b addr) = false -> perform_word_store addr m d b = Ok b' -> b_mem b' = b_mem b) /\
  (forall addr m d, (route_of b addr = mc_regs \/ route_of b addr = hpc_regs) -> word_mask addr m <> 15 ->
     perform_word_store addr m d b = Ok b /\ perform_word_load addr m b = Ok 0) /\
  (forall m d, Forall (fun '(offs, k) =>
     let addr := 0x1fa00000 + offs in word_mask addr m = 15 ->
     exists b', perform_word_store addr m d b = Ok b' /\ perform_word_load addr m b' = Ok d /\
       Forall (fun '(offs', k') => k' <> k -> forall m', perform_word_load (0x1fa00000 + offs') m' b' =
                                             perform_word_load (0x1fa00000 + offs') m' b) mc_registers) mc_registers) /\
  (forall m d, word_mask 0x1fbb0004 m = 15 ->
     exists b', perform_word_store 0x1fbb0004 m d b = Ok b' /\ perform_word_load 0x1fbb0004 m b' = Ok (d .& 3)) /\
  (forall id m d, 10 <= id <= 15 -> word_mask (0x1fbdd000 + 256 * id) m = 15 ->
     perform_word_store (0x1fbdd000 + 256 * id) m d b = Stop HostExit).
Proof.
  split_and!.
  - intros addr m d b'. apply device_store_mem.
  - intros addr m d Hr Hm%Z.eqb_neq. unfold perform_word_store, perform_word_load. rewrite Hd.
    destruct Hr as [-> | ->]; by rewrite Hm.
  - intros m d. apply Forall_forall. intros [offs k] Hin addr Hm. subst addr.
    destruct (mc_window _ Hin) as [Hr Ha]. pose proof (mc_write_read (b_icnt b) d (d_mc dv)) as Hreg.
    rewrite Forall_forall in Hreg. destruct (Hreg _ Hin) as (c'&Hw&Hrd&Ho). rewrite Forall_forall in Ho.
    exists (set_b_dev (mk_devices c' (d_hpc dv)) b). split; [|split].
    + rewrite (mc_bus_store b dv) by done. cbn [fst] in Ha. by rewrite Hm, Ha, Hw.
    + rewrite (mc_bus_load _ (mk_devices c' (d_hpc dv))) by done. cbn [d_mc b_icnt set_b_dev fst] in *. by rewrite Hm, Ha, Hrd.
    + apply Forall_forall. intros [offs' k'] Hin' Hk m'. destruct (mc_window _ Hin') as [Hr' Ha'].
      rewrite (mc_bus_load _ (mk_devices c' (d_hpc dv))), (mc_bus_load b dv) by done. cbn [d_mc b_icnt set_b_dev fst] in *.
      rewrite Ha'. by rewrite (Ho _ Hin' Hk).
  - intros m d Hm. unfold perform_word_store, perform_word_load, route_of. rewrite Hd.
    change (compute_mem_range_type 0x1fbb0004) with hpc_regs. cbv iota beta. rewrite Hm. cbn [Z.eqb Pos.eqb].
    eexists. split; [reflexivity|]. cbn [b_dev set_b_dev]. change (compute_mem_range_type 0x1fbb0004) with hpc_regs. cbv iota beta.
    reflexivity.
  - intros id m d Hid Hm. unfold perform_word_store, route_of. rewrite Hd.
    assert (id = 10 \/ id = 11 \/ id = 12 \/ id = 13 \/ id = 14 \/ id = 15) as Hi by lia.
    destruct_or! Hi; subst id; rewrite Hm; reflexivity.
Qed.
Definition booted_devices : devices := mk_devices sgi_mc_init sgi_hpc_init.
Definition device_bus : bus := mk_bus (mk_sparse_mem ∅ true) 0 (Some booted_devices) [].
Lemma device_registers_witness :
  exists b', perform_word_store 0x1fa000c4 0x00f0 0x1234 device_bus = Ok b' /\ perform_word_load 0x1fa000c4 0x00f0 b' = Ok 0x1234.
Proof.
  destruct (device_registers device_bus booted_devices eq_refl) as (_&_&Hr&_).
  specialize (Hr 0x00f0 0x1234). rewrite Forall_forall in Hr.
  destruct (Hr (0xc4, 2) ltac:(unfold mc_registers; rewrite !elem_of_cons; tauto) eq_refl) as (b'&Hs&Hl&_).
  exists b'. split; [exact Hs|exact Hl].
Defined.

(** ** The serial EEPROM *)
Definition bit_order : list Z := [7; 6; 5; 4; 3; 2; 1; 0].
(** The control writes that clock in a byte, most significant bit first: chip
    select (bit 1), clock (bit 2), data (bit 3). *)
Definition clocks_of (v : Z) : list Z := map (fun i => 6 .| (Z.b2z (Z.testbit v i) << 3)) bit_order.
Fixpoint feed (l : list Z) (c : sgi_mc) : result sgi_mc :=
  match l with
  | [] => Ok c
  | x :: l => let! c := eeprom_write x c in feed l c
  end.
Fixpoint stored (k : Z) (bs : list Z) (e : Zmap Z) : Zmap Z :=
  match bs with [] => e | v :: bs => stored (k + 1) bs (wr k v e) end.
Lemma feed_app l l' c : feed (l ++ l') c = feed l c ≫= feed l'.
Proof.
  revert c; induction l as [|x l IH]; intros c; [done|]. cbn [feed app]. rewrite result_bind_assoc.
  destruct (eeprom_write x c); [apply IH|done].
Qed.
(** A clocked write before the eighth, and the eighth. *)
Definition shift_in (x v : Z) : Z := u8 ((v << 1) .| ((x >> 3) .& 1)).
Lemma clocked_write x c :
  (x >> 1) .& 3 = 3 -> 0 <= nbits c < 7 ->
  exists c', eeprom_write x c = Ok c' /\ nbits c' = nbits c + 1 /\ byte c' = shift_in x (byte c) /\
    cbyte c' = cbyte c /\ eerom c' = eerom c.
Proof.
  intros Hx Hn. unfold eeprom_write. cbv zeta. rewrite Hx. destruct c as [?????????????? ?]; cbn in *.
  rewrite wrapu_id by (unfold in_u; lia). rewrite (proj2 (Z.eqb_neq _ 8)) by lia. by eexists.
Qed.
Lemma eighth_write x c :
  (x >> 1) .& 3 = 3 -> nbits c = 7 -> in_u 31 (cbyte c) ->
  (256 <= cbyte c -> eeprom_write x c = Stop HostUB) /\
  (cbyte c < 256 -> exists c', eeprom_write x c = Ok c' /\ nbits c' = 0 /\ byte c' = 0 /\
    cbyte c' = cbyte c + 1 /\ eerom c' = wr (cbyte c) (shift_in x (byte c)) (eerom c)).
Proof.
  intros Hx Hn Hc. unfold eeprom_write. cbv zeta. rewrite Hx. destruct c as [?????????????? k]; cbn in *. subst.
  unfold in_u in Hc. split; intros Hk.
  - by rewrite (proj2 (Z.leb_le _ _)) by lia.
  - rewrite (proj2 (Z.leb_gt _ _)) by lia. eexists. split; [reflexivity|]. cbn. split_and!; [done|done| |done].
    apply wrapu_id. unfold in_u; lia.
Qed.
Lemma feed_partial l c :
  Forall (fun x => (x >> 1) .& 3 = 3) l -> 0 <= nbits c -> nbits c + Z.of_nat (length l) <= 7 ->
  exists c', feed l c = Ok c' /\ nbits c' = nbits c + Z.of_nat (length l) /\
    byte c' = foldl (fun v x => shift_in x v) (byte c) l /\ cbyte c' = cbyte c /\ eerom c' = eerom c.
Proof.
  intros Hl. revert c. induction Hl as [|x l Hx Hl IH]; intros c Hn Hlen; cbn [feed length foldl] in *.
  - exists c. split_and!; try done. lia.
  - destruct (clocked_write x c Hx ltac:(lia)) as (c1&->&Hn1&Hb1&Hk1&He1). cbn [mbind result_bind].
    destruct (IH c1 ltac:(lia) ltac:(lia)) as (c'&->&Hn'&Hb'&Hk'&He'). exists c'. split_and!; try congruence. lia.
Qed.
Lemma clocks_byte v : in_u 8 v -> foldl (fun v x => shift_in x v) 0 (clocks_of v) = v.
Proof.
  intros Hv. assert (forallb (fun v => foldl (fun v x => shift_in x v) 0 (clocks_of v) =? v) (seqZ 0 256) = true) as H by (vm_compute; reflexivity).
  rewrite forallb_forall in H. apply Z.eqb_eq, H, list_elem_of_In, elem_of_seqZ. unfold in_u in Hv. lia.
Qed.
Lemma clocks_clocked v : Forall (fun x => (x >> 1) .& 3 = 3) (clocks_of v).
Proof.
  unfold clocks_of, bit_order. cbn [map]. repeat (apply Forall_cons; split; [match goal with |- context [Z.testbit v ?i] => destruct (Z.testbit v i) end; reflexivity|]). done.
Qed.
Lemma feed_eight l x c :
  length l = 7%nat -> Forall (fun x => (x >> 1) .& 3 = 3) l -> (x >> 1) .& 3 = 3 ->
  nbits c = 0 -> byte c = 0 -> in_u 31 (cbyte c) ->
  (256 <= cbyte c -> feed (l ++ [x]) c = Stop HostUB) /\
  (cbyte c < 256 -> exists c', feed (l ++ [x]) c = Ok c' /\ nbits c' = 0 /\ byte c' = 0 /\
    cbyte c' = cbyte c + 1 /\ eerom c' = wr (cbyte c) (foldl (fun v x => shift_in x v) 0 (l ++ [x])) (eerom c)).
Proof.
  intros Hl Hcl Hx Hn Hb Hc.
  destruct (feed_partial l c Hcl ltac:(lia) ltac:(lia)) as (c1&H1&Hn1&Hb1&Hk1&He1).
  rewrite feed_app, H1, foldl_app. cbn [mbind result_bind feed foldl].
  destruct (eighth_write x c1 Hx ltac:(lia) ltac:(by rewrite Hk1)) as [Herr Hok]. rewrite Hk1 in *. split; intros Hk.
  - by rewrite Herr.
  - destruct (Hok Hk) as (c'&->&?&?&?&He'). cbn [mbind result_bind]. exists c'.
    rewrite He', He1, Hb1, Hb. by split_and!.
Qed.
Lemma feed_byte v c :
  in_u 8 v -> nbits c = 0 -> byte c = 0 -> in_u 31 (cbyte c) ->
  (256 <= cbyte c -> feed (clocks_of v) c = Stop HostUB) /\
  (cbyte c < 256 -> exists c', feed (clocks_of v) c = Ok c' /\ nbits c' = 0 /\ byte c' = 0 /\
    cbyte c' = cbyte c + 1 /\ eerom c' = wr (cbyte c) v (eerom c)).
Proof.
  intros Hv Hn Hb Hc. pose proof (clocks_byte v Hv) as Hcb. pose proof (clocks_clocked v) as Hcl. unfold clocks_of in *.
  set (f := fun i => 6 .| (Z.b2z (Z.testbit v i) << 3)) in *. clearbody f.
  assert (map f bit_order = map f [7; 6; 5; 4; 3; 2; 1] ++ [f 0]) as Hl by reflexivity. rewrite Hl in *. clear Hl.
  apply Forall_app in Hcl as [Hcl [H7 _]%Forall_cons]. rewrite <- Hcb.
  apply feed_eight; try assumption. apply length_map.
Qed.

(** The serial EEPROM receives what is clocked into it.  From an idle shift
    register, clocking in any bytes, most significant bit first with chip select
    and clock high, stores exactly these bytes at the write position and leaves the
    register idle again, as long as they fit in the 256 bytes; the first byte past
    the end is an access outside the array. *)
Theorem eeprom_round_trip (bs : list Z) (c : sgi_mc)
    (Hbs : Forall (in_u 8) bs) (Hn : nbits c = 0) (Hb : byte c = 0) (Hc : 0 <= cbyte c <= 256) :
  feed (concat (map clocks_of bs)) c <> Stop HostExit /\
  (cbyte c + Z.of_nat (length bs) <= 256 ->
   exists c', feed (concat (map clocks_of bs)) c = Ok c' /\ nbits c' = 0 /\ byte c' = 0 /\
     cbyte c' = cbyte c + Z.of_nat (length bs) /\ eerom c' = stored (cbyte c) bs (eerom c)) /\
  (256 < cbyte c + Z.of_nat (length bs) -> feed (concat (map clocks_of bs)) c = Stop HostUB).
Proof.
  assert (((cbyte c + Z.of_nat (length bs) <= 256 ->
   exists c', feed (concat (map clocks_of bs)) c = Ok c' /\ nbits c' = 0 /\ byte c' = 0 /\
     cbyte c' = cbyte c + Z.of_nat (length bs) /\ eerom c' = stored (cbyte c) bs (eerom c)) /\
  (256 < cbyte c + Z.of_nat (length bs) -> feed (concat (map clocks_of bs)) c = Stop HostUB))) as [Hok Herr].
  { revert c Hn Hb Hc. induction Hbs as [|v bs Hv Hbs IH]; intros c Hn Hb Hc; cbn [map concat length stored].
    - split; [intros _; exists c; split_and!; try done; lia|cbn; lia].
    - destruct (feed_byte v c Hv Hn Hb ltac:(unfold in_u; lia)) as [Herr Hok]. rewrite feed_app.
      destruct (decide (cbyte c < 256)) as [Hk|Hk].
      + destruct (Hok Hk) as (c1&->&Hn1&Hb1&Hk1&He1). cbn [mbind result_bind].
        destruct (IH c1 Hn1 Hb1 ltac:(lia)) as [IHok IHerr]. split; intros Hlen.
        * destruct (IHok ltac:(lia)) as (c'&->&?&?&?&He'). exists c'. split_and!; try done; [lia|].
          by rewrite He', He1, Hk1.
        * apply IHerr. lia.
      + rewrite Herr by lia. split; [lia|done]. }
  split; [|by split]. destruct (decide (cbyte c + Z.of_nat (length bs) <= 256)) as [Hle|Hgt].
  - destruct (Hok Hle) as (c'&->&_). done.
  - by rewrite Herr by lia.
Qed.
Lemma eeprom_round_trip_witness :
  exists c', feed (concat (map clocks_of [0xa5; 0x3c])) sgi_mc_init = Ok c' /\ (eerom c').[0] = 0xa5 /\ (eerom c').[1] = 0x3c.
Proof.
  destruct (eeprom_round_trip [0xa5; 0x3c] sgi_mc_init) as (_&Hok&_).
  - repeat (apply Forall_cons; split; [unfold in_u; cbn; lia|]). constructor.
  - reflexivity.
  - reflexivity.
  - cbn; lia.
  - destruct (Hok ltac:(cbn; lia)) as (c'&Hf&_&_&_&He). exists c'. split; [exact Hf|]. rewrite He. split; vm_compute; reflexivity.
Defined.
