(* ===== verification/PortProps.v ===== *)
(** The request/response protocol of the memory port: every request the core
    holds is answered exactly once, its latency after it was accepted. *)
From S2P Require Import Prelude Bits Insns State Mem Devices Bus BusProps.

(** Consecutive negative edges from cycle [t] with the request held. *)
Fixpoint hold (magic_halt : bool) (r : request) (t : Z) (lats : list Z) (p : port) : result port :=
  match lats with
  | [] => Ok p
  | lat :: lats => let! p := negedge magic_halt t lat (Some r) p in hold magic_halt r (t + 1) lats p
  end.
(** The number of cycles between the acceptance and the reply. *)
Definition latency (r : request) (lat : Z) : Z := (if opcode r =? 4 then 1 else 2) * lat.
(** What the answer of a request does. *)
Definition answered (magic_halt : bool) (r : request) (p : port) (res : result port) : Prop :=
  (opcode r = 4 -> res = let! l := load_line r (p_bus p) in Ok (mk_port (-1) (p_bus p) (sim_halted p) (Some l))) /\
  (opcode r = 7 -> res = let! b := store_line r (p_bus p) in Ok (mk_port (-1) b (sim_halted p || halts magic_halt r) (Some []))) /\
  (opcode r <> 4 -> opcode r <> 7 -> res = Ok (mk_port (-1) (p_bus p) (sim_halted p) (Some []))).
(** A port waiting to reply at cycle [c], silent at this edge. *)
Definition waiting (c : Z) (p p' : port) : Prop :=
  mem_reply_cycle p' = c /\ p_bus p' = p_bus p /\ sim_halted p' = sim_halted p /\ reply p' = None.

(** * Theorems *)
Lemma accept_idle t lat r p :
  mem_reply_cycle p = -1 -> 0 <= t -> 0 <= latency r lat -> t + latency r lat < 2 ^ 63 ->
  waiting (t + latency r lat) p (accept t lat (Some r) p).
Proof.
  intros Hi Ht Hn Hb. unfold accept. rewrite Hi. cbn [Z.eqb Pos.eqb]. fold (latency r lat).
  split_and!; [|done..]. cbn. rewrite wraps_wrapu by done. apply wraps_id; [done|unfold in_s; lia].
Qed.
Lemma accept_waiting c t lat req p : mem_reply_cycle p = c -> 0 <= c -> waiting c p (accept t lat req p).
Proof.
  intros Hc H0. unfold accept. destruct req as [r|]; [|by rewrite Hc].
  rewrite (proj2 (Z.eqb_neq (mem_reply_cycle p) (-1))) by lia. by rewrite Hc.
Qed.
Lemma negedge_early magic c t lat r p p1 :
  accept t lat (Some r) p = p1 -> waiting c p p1 -> 0 <= c < 2 ^ 63 -> t <> c -> negedge magic t lat (Some r) p = Ok p1.
Proof.
  intros Ha (Hc&_) Hr Hne. unfold negedge. rewrite Ha, Hc. rewrite wrapu_id by (unfold in_u; lia).
  by rewrite (proj2 (Z.eqb_neq c t)) by lia.
Qed.
Lemma negedge_due magic c lat r p p1 :
  accept c lat (Some r) p = p1 -> waiting c p p1 -> 0 <= c < 2 ^ 63 -> answered magic r p (negedge magic c lat (Some r) p).
Proof.
  intros Ha (Hc&Hb&Hs&_) Hr. unfold negedge. rewrite Ha, Hc. rewrite wrapu_id, Z.eqb_refl, Hb, Hs by (unfold in_u; lia).
  split_and!.
  - by intros ->.
  - by intros ->.
  - intros H4%Z.eqb_neq H7%Z.eqb_neq. by rewrite H4, H7.
Qed.
Lemma negedge_dropped magic c lat p : mem_reply_cycle p = c -> 0 <= c < 2 ^ 63 -> negedge magic c lat None p = Stop HostExit.
Proof. intros Hc Hr. unfold negedge, accept. cbn [mem_reply_cycle]. rewrite Hc, wrapu_id, Z.eqb_refl by (unfold in_u; lia). done. Qed.
Lemma answered_frame magic r p p' res : waiting (mem_reply_cycle p') p p' -> answered magic r p' res -> answered magic r p res.
Proof. intros (_&Hb&Hs&_) (H4&H7&Ho). unfold answered. rewrite <- Hb, <- Hs. done. Qed.
(** From a waiting port: silence, then the answer. *)
Lemma hold_waiting magic r c lats t p :
  mem_reply_cycle p = c -> reply p = None -> 0 <= c < 2 ^ 63 -> t + Z.of_nat (length lats) <= c ->
  exists p', hold magic r t lats p = Ok p' /\ waiting c p p'.
Proof.
  intros Hc Hrep Hr. revert t p Hc Hrep. induction lats as [|lat lats IH]; intros t p Hc Hrep Hlen; cbn [hold length] in *.
  - by exists p.
  - pose proof (accept_waiting c t lat (Some r) p Hc ltac:(lia)) as Hw.
    rewrite (negedge_early magic c t lat r p _ eq_refl Hw) by lia. cbn [mbind result_bind].
    destruct Hw as (Hc1&Hb1&Hs1&Hr1). destruct (IH (t + 1) _ Hc1 Hr1 ltac:(lia)) as (p'&Hh&Hc'&Hb'&Hs'&Hr').
    exists p'. split; [done|]. split_and!; congruence.
Qed.
Lemma hold_app magic r t l l' p :
  hold magic r t (l ++ l') p = hold magic r t l p ≫= hold magic r (t + Z.of_nat (length l)) l'.
Proof.
  revert t p; induction l as [|x l IH]; intros t p; cbn [hold app length].
  - cbn [mbind result_bind]. f_equal. lia.
  - rewrite result_bind_assoc. destruct (negedge _ _ _ _ _); cbn [mbind result_bind]; [|done].
    rewrite IH. replace (t + 1 + Z.of_nat (length l)) with (t + Z.of_nat (S (length l))) by lia. done.
Qed.
Lemma hold_idle magic r t lat lats p :
  mem_reply_cycle p = -1 -> 0 <= t -> 0 <= latency r lat -> t + latency r lat < 2 ^ 63 ->
  Z.of_nat (length (lat :: lats)) <= latency r lat ->
  exists p', hold magic r t (lat :: lats) p = Ok p' /\ waiting (t + latency r lat) p p'.
Proof.
  intros Hi Ht Hn Hb Hlen. cbn [hold length] in *. pose proof (accept_idle t lat r p Hi Ht Hn Hb) as Hw.
  rewrite (negedge_early magic (t + latency r lat) t lat r p _ eq_refl Hw) by lia. cbn [mbind result_bind].
  destruct Hw as (Hc1&Hb1&Hs1&Hr1).
  destruct (hold_waiting magic r (t + latency r lat) lats (t + 1) _ Hc1 Hr1) as (p'&Hh&Hc'&Hb'&Hs'&Hr'); [lia|lia|].
  exists p'. split; [done|]. split_and!; congruence.
Qed.

(** C37. Every request is answered exactly once, on time.  When the port is idle
    and the core holds a request from cycle [t] on, the port stays silent and
    leaves memory and devices alone for exactly the latency of the request (one or
    two times the latency drawn when it was accepted, later draws being ignored);
    the next edge answers it with the line transfer and frees the port; and a
    request withdrawn before its answer stops the simulator. *)
Theorem request_answered_once (magic_halt : bool) (r : request) (p : port) (t lat : Z) (lats : list Z)
    (Hi : mem_reply_cycle p = -1) (Ht : 0 <= t) (Hlat : 0 <= lat) (Hb : t + latency r lat < 2 ^ 63) :
  let n := latency r lat in
  (Z.of_nat (length (lat :: lats)) <= n ->
   exists p', hold magic_halt r t (lat :: lats) p = Ok p' /\ waiting (t + n) p p') /\
  (Z.of_nat (length (lat :: lats)) = n + 1 -> answered magic_halt r p (hold magic_halt r t (lat :: lats) p)) /\
  (Z.of_nat (length (lat :: lats)) = n -> forall lat',
   (let! p' := hold magic_halt r t (lat :: lats) p in negedge magic_halt (t + n) lat' None p') = Stop HostExit).
Proof.
  intros n. assert (0 <= n) as Hn by (unfold n, latency; destruct (opcode r =? 4); lia).
  split; [by apply hold_idle|]. split.
  - intros Hlen. destruct (decide (n = 0)) as [H0|H0].
    + destruct lats; [|cbn [length] in Hlen; lia]. cbn [hold]. pose proof (accept_idle t lat r p Hi Ht Hn Hb) as Hw.
      fold n in Hw. rewrite H0, Z.add_0_r in Hw. pose proof (negedge_due magic_halt t lat r p _ eq_refl Hw ltac:(lia)) as Hd.
      by destruct (negedge magic_halt t lat (Some r) p).
    + destruct lats as [|x lats' _] using rev_ind; [cbn [length] in Hlen; lia|].
      rewrite app_comm_cons in *. rewrite length_app in Hlen. cbn [length] in Hlen.
      destruct (hold_idle magic_halt r t lat lats' p Hi Ht Hn Hb ltac:(cbn [length]; fold n; lia)) as (p'&Hh&Hw).
      fold n in Hw. rewrite hold_app, Hh. cbn [mbind result_bind hold length].
      replace (t + Z.of_nat (S (length lats'))) with (t + n) by lia.
      pose proof Hw as (Hc&_). pose proof (accept_waiting (t + n) (t + n) x (Some r) p' Hc ltac:(lia)) as Hw'.
      pose proof (negedge_due magic_halt (t + n) x r p' _ eq_refl Hw' ltac:(fold n in Hb; lia)) as Hd.
      apply (answered_frame _ _ p p'); [by rewrite Hc|]. by destruct (negedge magic_halt (t + n) x (Some r) p').
  - intros Hlen lat'. destruct (hold_idle magic_halt r t lat lats p Hi Ht Hn Hb ltac:(fold n; lia)) as (p'&->&Hc&_).
    cbn [mbind result_bind]. apply negedge_dropped; [done|fold n in Hb; lia].
Qed.
Lemma request_answered_once_witness :
  let p := mk_port (-1) (mk_bus (mk_sparse_mem ∅ false) 0 None []) false None in
  let r := mk_request 4 0x100 0xffff [] in
  exists p', hold true r 10 [2; 7; 9] p = Ok p' /\ reply p' = Some [0; 0; 0; 0] /\ mem_reply_cycle p' = -1.
Proof.
  intros p r. destruct (request_answered_once true r p 10 2 [7; 9] eq_refl) as (_&Ha&_); [lia|lia|vm_compute; reflexivity|].
  destruct (Ha eq_refl) as (H4&_). rewrite (H4 eq_refl). eexists. split; [vm_compute; reflexivity|]. split; reflexivity.
Defined.
