(* ===== verification/Loader.v ===== *)
(** The ELF loader ([src/loadelf.cc]) and the checkpoint reader
    ([src/saveState.cc]).  A file is its size and bytes; the loader maps it, so
    that the rest of its last page reads as zeros and an access past that page is
    host undefined behaviour. *)
From S2P Require Import Prelude Bits Insns State Mem Exc Tlb.

Record file := mk_file { f_size : Z; f_data : Zmap Z }.
Definition roundToPgSz (x pgsz : Z) : Z := ((x + pgsz - 1) / pgsz) * pgsz.

(** A counted loop [for(cc = 0; cc < n; cc++)]. *)
Fixpoint for_upto {A} (n : nat) (cc : Z) (f : Z -> A -> result A) (a : A) : result A :=
  match n with
  | O => Ok a
  | S n => let! a := f cc a in for_upto n (cc + 1) f a
  end.

Section loader.
(** [getpagesize()] of the host. *)
Variable pgSize : Z.
Implicit Types (fl : file).

(** ** Reading the mapping *)
Definition buf_byte fl (o : Z) : result Z :=
  if (o <? 0) || (roundToPgSz (f_size fl) pgSize <=? o) then Stop HostUB
  else Ok (if o <? f_size fl then (f_data fl).[o] else 0).
Fixpoint buf_bytes fl (o : Z) (n : nat) : result (list Z) :=
  match n with
  | O => Ok []
  | S n => let! b := buf_byte fl o in let! l := buf_bytes fl (o + 1) n in Ok (b :: l)
  end.
(** [bswap_] of an [n]-byte field: the fields are big endian. *)
Definition field fl (n : nat) (o : Z) : result Z :=
  let! l := buf_bytes fl o n in Ok (byteswap n (le_join l)).

(** ** The header *)
Definition magicArr : list Z := [0x7f; 0x45; 0x4c; 0x46].
Definition checkElf fl : result bool := let! l := buf_bytes fl 0 4 in Ok (bool_decide (l = magicArr)).
Definition check32Bit fl : result bool := let! c := buf_byte fl 4 in Ok (c =? 1).
Definition checkBigEndian fl : result bool := let! d := buf_byte fl 5 in Ok (d =? 2).
Definition checkLittleEndian fl : result bool := let! d := buf_byte fl 5 in Ok (d =? 1).
Definition e_machine fl : result Z := field fl 2 18.
Definition e_entry fl : result Z := field fl 4 24.
Definition e_phoff fl : result Z := let! v := field fl 4 28 in Ok (s32 v).
Definition e_phnum fl : result Z := field fl 2 44.
(** [Elf32_Phdr] as the loop reads it. *)
Record phdr := mk_phdr { p_type : Z; p_offset : Z; p_vaddr : Z; p_filesz : Z; p_memsz : Z }.
Definition read_phdr fl (o : Z) : result phdr :=
  let! memsz := field fl 4 (o + 20) in
  let! offset := field fl 4 (o + 4) in
  let! filesz := field fl 4 (o + 16) in
  let! type := field fl 4 o in
  let! vaddr := field fl 4 (o + 8) in
  Ok (mk_phdr (s32 type) (s32 offset) vaddr (s32 filesz) (s32 memsz)).

(** ** The segments *)
Definition zero_byte (ph : phdr) (cc : Z) (m : sparse_mem) : result sparse_mem :=
  mem_set 1 (u32 (cc + p_vaddr ph)) 0 m.
Definition copy_byte fl (ph : phdr) (cc : Z) (m : sparse_mem) : result sparse_mem :=
  let v_addr := u32 (cc + p_vaddr ph) in
  let! b := buf_byte fl (p_offset ph + cc) in mem_set 1 (va2pa v_addr) b m.
Definition load_segment fl (ph : phdr) (m : sparse_mem) : result sparse_mem :=
  if (p_type ph =? 1) && (p_memsz ph =/? 0) then
    let! m := for_upto (Z.to_nat (p_memsz ph)) 0 (zero_byte ph) m in
    for_upto (Z.to_nat (p_filesz ph)) 0 (copy_byte fl ph) m
  else Ok m.
Definition load_header fl (phoff i : Z) (m : sparse_mem) : result sparse_mem :=
  let! ph := read_phdr fl (phoff + 32 * i) in load_segment fl ph m.

(** [load_elf]: [None] is a file that cannot be opened.  An empty file cannot be
    mapped, and the failed mapping is dereferenced. *)
Definition load_elf (fo : option file) (ms : state) : result state :=
  let ms := set_mem (mem_clear (mem ms)) ms in
  match fo with
  | None => Stop HostExit
  | Some fl =>
      if f_size fl =? 0 then Stop HostUB else
      let! elf := checkElf fl in
      if negb elf then Stop HostExit else
      let! c32 := check32Bit fl in
      if negb c32 then Stop HostExit else
      let! be := checkBigEndian fl in
      if negb be then Stop HostExit else
      let! machine := e_machine fl in
      if machine =/? 8 then Stop HostExit else
      let! lAddr := e_entry fl in
      let! phnum := e_phnum fl in
      let! phoff := e_phoff fl in
      let ms := set_pc (s64 (s32 lAddr)) ms in
      let! m := for_upto (Z.to_nat phnum) 0 (load_header fl phoff) (mem ms) in
      Ok (set_mem m ms)
  end.
End loader.

(** ** Checkpoints *)
(** The packed [header] of a checkpoint: its size and the offsets of its fields. *)
Definition header_size : Z := 428.
Definition page_size : Z := 4100.
(** [memcpy] of [n] bytes out of the header object at offset [o]. *)
Definition header_bytes (fl : file) (o : Z) (n : nat) : result (list Z) :=
  if header_size <? o + Z.of_nat n then Stop HostUB
  else Ok (map (fun i => (f_data fl).[o + Z.of_nat i]) (seq 0 n)).
(** An array of [k] elements of [w] bytes filled by [memcpy]. *)
Definition load_array (fl : file) (o : Z) (w k : nat) : result (Zmap Z) :=
  let! l := header_bytes fl o (w * k) in
  Ok (foldr (fun i a => wr (Z.of_nat i) (le_join (take w (drop (w * i) l))) a) ∅ (seq 0 k)).
Definition header_word (fl : file) (o : Z) : Z :=
  le_join (map (fun i => (f_data fl).[o + Z.of_nat i]) (seq 0 4)).
Definition load_page (fl : file) (i : Z) (m : sparse_mem) : result sparse_mem :=
  let o := header_size + page_size * i in
  if f_size fl <? o + page_size then Stop HostExit else
  let va := header_word fl o in
  for_upto 4096 0 (fun j m => mem_set 1 (u32 (va + j)) (f_data fl).[o + 4 + j] m) m.
Definition loadState (fo : option file) (s : state) : result state :=
  match fo with
  | None => Stop HostExit
  | Some fl =>
      if f_size fl <? header_size then Stop HostExit else
      let pc := header_word fl 0 in
      if pc =? 0 then Stop HostExit else
      let s := set_pc pc s in
      let! g := load_array fl 4 8 32 in
      let s := set_gpr (fmap s64 g) s in
      let s := set_hi (s32 (header_word fl 136)) (set_lo (s32 (header_word fl 132)) s) in
      let! c0 := load_array fl 140 4 32 in
      let s := set_cpr0 c0 s in
      let! c1 := load_array fl 268 8 32 in
      let s := set_cpr1 c1 s in
      let! f1 := load_array fl 396 4 5 in
      let s := set_icnt 0 (set_fcr1 f1 s) in
      let s := set_mem (mem_clear (mem s)) s in
      let! m := for_upto (Z.to_nat (header_word fl 424)) 0 (load_page fl) (mem s) in
      Ok (set_mem m s)
  end.
