(* ===== verification/LoaderProps.v ===== *)
(** Properties of the loader: the memory image an ELF file leaves, the entry
    point, and the files it refuses.  The checkpoint reader's overrun. *)
From S2P Require Import Prelude Bits Insns State Mem Exc Tlb Loader.

(** ** The image a file describes *)
Definition file_byte (fl : file) (o : Z) : Z := if o <? f_size fl then (f_data fl).[o] else 0.
Definition file_ok (fl : file) : Prop := map_Forall (fun _ x => in_u 8 x) (f_data fl).
Definition loads (ph : phdr) : bool := (p_type ph =? 1) && (p_memsz ph =/? 0).
(** What a segment leaves in cell [c], which held [old]. *)
Definition seg_cell (fl : file) (c old : Z) (ph : phdr) : Z :=
  if negb (loads ph) then old
  else if inside (va2pa (p_vaddr ph)) (p_filesz ph) c
  then file_byte fl (p_offset ph + (c - va2pa (p_vaddr ph)))
  else if inside (p_vaddr ph) (p_memsz ph) c then 0 else old.
(** The addresses lie in the first 2 GB or inside one 512 MB segment. *)
Definition one_region (v n : Z) : Prop :=
  0 <= v /\ v + n <= 2 ^ 31 \/ 2 ^ 31 <= v < 2 ^ 32 /\ v mod 2 ^ 29 + n <= 2 ^ 29.
Definition seg_fits (fl : file) (ph : phdr) : Prop :=
  loads ph = true ->
  one_region (p_vaddr ph) (p_memsz ph) /\ 0 <= p_filesz ph <= p_memsz ph /\
  0 <= p_offset ph /\ p_offset ph + p_filesz ph <= f_size fl.
(** Two loaded segments share no physical byte. *)
Definition seg_apart (p q : phdr) : Prop :=
  loads p = true -> loads q = true ->
  va2pa (p_vaddr p) + p_memsz p <= va2pa (p_vaddr q) \/ va2pa (p_vaddr q) + p_memsz q <= va2pa (p_vaddr p).
(** The program headers, in file order. *)
Fixpoint headers_from (pgSize : Z) (fl : file) (phoff i : Z) (n : nat) : result (list phdr) :=
  match n with
  | O => Ok []
  | S n => let! ph := read_phdr pgSize fl (phoff + 32 * i) in
           let! l := headers_from pgSize fl phoff (i + 1) n in Ok (ph :: l)
  end.
Definition program_headers (pgSize : Z) (fl : file) : result (list phdr) :=
  let! phnum := e_phnum pgSize fl in
  let! phoff := e_phoff pgSize fl in
  headers_from pgSize fl phoff 0 (Z.to_nat phnum).
(** A 32-bit big-endian MIPS file. *)
Definition mips_elf (fl : file) : bool :=
  bool_decide (map (file_byte fl) [0; 1; 2; 3; 4; 5; 18; 19] = [0x7f; 0x45; 0x4c; 0x46; 1; 2; 0; 8]).

(** * Theorems *)
Lemma for_upto_ind {A} (P : Z -> A -> Prop) (f : Z -> A -> result A) n cc a :
  P cc a ->
  (forall i x, cc <= i < cc + Z.of_nat n -> P i x -> exists y, f i x = Ok y /\ P (i + 1) y) ->
  exists a', for_upto n cc f a = Ok a' /\ P (cc + Z.of_nat n) a'.
Proof.
  revert cc a; induction n as [|n IH]; intros cc a Ha Hf; cbn [for_upto].
  - exists a. by rewrite Z.add_0_r.
  - destruct (Hf cc a) as (y & Hy & Py); [lia|done|]. rewrite Hy. cbn.
    destruct (IH (cc + 1) y Py) as (a' & Hr & Pa); [intros i x Hi; apply Hf; lia|].
    exists a'. split; [done|]. by replace (cc + Z.of_nat (S n)) with (cc + 1 + Z.of_nat n) by lia.
Qed.

(** ** Addresses *)
Lemma va2pa_low v : 0 <= v < 2 ^ 31 -> va2pa v = v.
Proof.
  intros. unfold va2pa. rewrite Z.shiftr_div_pow2, Z.div_small by lia. done.
Qed.
Lemma va2pa_high v : 2 ^ 31 <= v < 2 ^ 32 -> va2pa v = v mod 2 ^ 29.
Proof.
  intros. unfold va2pa. rewrite Z.shiftr_div_pow2 by lia.
  replace (v / 2 ^ 31) with 1 by (change (2 ^ 31) with 2147483648 in *; change (2 ^ 32) with 4294967296 in *; Z.div_mod_to_equations; lia).
  change (1 .& 1 =? 1) with true. cbn match. change 0x1fffffff with (Z.ones 29). by rewrite Z.land_ones by done.
Qed.
Ltac pows := change (2 ^ 29) with 536870912 in *; change (2 ^ 31) with 2147483648 in *; change (2 ^ 32) with 4294967296 in *.
Lemma va2pa_region v n i : one_region v n -> 0 <= i < n ->
  u32 (i + v) = v + i /\ va2pa (v + i) = va2pa v + i /\ in_u 32 (v + i) /\ 0 <= va2pa v /\ va2pa v + i < 2 ^ 31.
Proof.
  intros Hr Hi. assert (in_u 32 (v + i)) as Hu.
  { unfold in_u. destruct Hr as [Hr|Hr]; pows; Z.div_mod_to_equations; lia. }
  rewrite Z.add_comm, wrapu_id by done. split; [done|].
  destruct Hr as [Hr|Hr].
  - rewrite !va2pa_low by lia. repeat split; lia || apply Hu.
  - unfold in_u in Hu. rewrite !va2pa_high by lia.
    pows. repeat split; try (Z.div_mod_to_equations; lia).
Qed.

(** ** One segment *)
Lemma set_byte m a v : route_devices m = false -> in_u 32 a -> in_u 8 v ->
  mem_set 1 a v m = Ok {| mem_bytes := wr a v (mem_bytes m); route_devices := false |}.
Proof.
  intros Hm Ha Hv. rewrite mem_set_aligned by (auto; apply Z.mod_1_r). unfold route. rewrite Hm.
  cbn [le_split store_bytes]. by rewrite wrapu_id.
Qed.

Section image.
Context (pgSize : Z) (Hpg : 0 < pgSize) (fl : file) (Hfl : file_ok fl).
Implicit Types (m : sparse_mem).

Lemma mapped_size : f_size fl <= roundToPgSz (f_size fl) pgSize.
Proof. unfold roundToPgSz. Z.div_mod_to_equations; nia. Qed.
Lemma buf_byte_Ok o : 0 <= o < f_size fl -> buf_byte pgSize fl o = Ok (file_byte fl o).
Proof.
  pose proof mapped_size. intros. unfold buf_byte, file_byte.
  destruct (Z.ltb_spec o 0); [lia|]. by destruct (Z.leb_spec (roundToPgSz (f_size fl) pgSize) o); [lia|].
Qed.
Lemma file_byte_u8 o : in_u 8 (file_byte fl o).
Proof.
  unfold file_byte, rd. case_match; [|rng]. destruct (f_data fl !! o) eqn:Ho; [|cbn; rng].
  exact (Hfl _ _ Ho).
Qed.

Lemma zero_loop ph m : route_devices m = false -> one_region (p_vaddr ph) (p_memsz ph) -> 0 <= p_memsz ph ->
  exists m', for_upto (Z.to_nat (p_memsz ph)) 0 (zero_byte ph) m = Ok m' /\ route_devices m' = false /\
    forall c, (mem_bytes m').[c] = if inside (p_vaddr ph) (p_memsz ph) c then 0 else (mem_bytes m).[c].
Proof.
  intros Hm Hr Hn.
  destruct (for_upto_ind (fun i m' => route_devices m' = false /\
    forall c, (mem_bytes m').[c] = if inside (p_vaddr ph) i c then 0 else (mem_bytes m).[c])
    (zero_byte ph) (Z.to_nat (p_memsz ph)) 0 m) as (m' & Hf & Hm' & Hc).
  - split; [done|]. intros c. by destruct (insideP (p_vaddr ph) 0 c); [lia|].
  - intros i x Hi [Hx Hc]. destruct (va2pa_region _ _ i Hr ltac:(lia)) as (E & _ & Hu & _).
    unfold zero_byte. rewrite E, set_byte by (done || rng). eexists. split; [done|]. split; [done|].
    intros c. cbn. rewrite rd_wr, Hc.
    destruct (Z.eqb_spec (p_vaddr ph + i) c), (insideP (p_vaddr ph) i c), (insideP (p_vaddr ph) (i + 1) c); done || lia.
  - exists m'. rewrite Z2Nat.id in Hc by done. auto.
Qed.
Lemma copy_loop ph m : route_devices m = false -> one_region (p_vaddr ph) (p_memsz ph) ->
  0 <= p_filesz ph <= p_memsz ph -> 0 <= p_offset ph -> p_offset ph + p_filesz ph <= f_size fl ->
  exists m', for_upto (Z.to_nat (p_filesz ph)) 0 (copy_byte pgSize fl ph) m = Ok m' /\ route_devices m' = false /\
    forall c, (mem_bytes m').[c] = if inside (va2pa (p_vaddr ph)) (p_filesz ph) c
      then file_byte fl (p_offset ph + (c - va2pa (p_vaddr ph))) else (mem_bytes m).[c].
Proof.
  intros Hm Hr Hn Ho Hs.
  destruct (for_upto_ind (fun i m' => route_devices m' = false /\
    forall c, (mem_bytes m').[c] = if inside (va2pa (p_vaddr ph)) i c
      then file_byte fl (p_offset ph + (c - va2pa (p_vaddr ph))) else (mem_bytes m).[c])
    (copy_byte pgSize fl ph) (Z.to_nat (p_filesz ph)) 0 m) as (m' & Hf & Hm' & Hc).
  - split; [done|]. intros c. by destruct (insideP (va2pa (p_vaddr ph)) 0 c); [lia|].
  - intros i x Hi [Hx Hc]. destruct (va2pa_region _ _ i Hr ltac:(lia)) as (E & Ep & _ & Hp).
    unfold copy_byte. rewrite E, Ep, buf_byte_Ok by lia. cbn.
    rewrite set_byte by (done || apply file_byte_u8 || (unfold in_u; pows; lia)).
    eexists. split; [done|]. split; [done|]. intros c. cbn. rewrite rd_wr, Hc.
    destruct (Z.eqb_spec (va2pa (p_vaddr ph) + i) c), (insideP (va2pa (p_vaddr ph)) i c),
      (insideP (va2pa (p_vaddr ph)) (i + 1) c); try done; try lia. f_equal; lia.
  - exists m'. rewrite Z2Nat.id in Hc by lia. auto.
Qed.
Lemma load_segment_Ok ph m : route_devices m = false -> seg_fits fl ph ->
  exists m', load_segment pgSize fl ph m = Ok m' /\ route_devices m' = false /\
    forall c, (mem_bytes m').[c] = seg_cell fl c (mem_bytes m).[c] ph.
Proof.
  intros Hm Hfit. unfold load_segment, seg_cell. fold (loads ph). destruct (loads ph) eqn:Hl; cbn [negb]; [|by exists m].
  destruct (Hfit Hl) as (Hr & Hn & Ho & Hs).
  destruct (zero_loop ph m Hm Hr ltac:(lia)) as (m1 & -> & Hm1 & Hc1). cbn.
  destruct (copy_loop ph m1 Hm1 Hr Hn Ho Hs) as (m2 & -> & Hm2 & Hc2).
  exists m2. split; [done|]. split; [done|]. intros c. rewrite Hc2. case_match; [done|]. apply Hc1.
Qed.
Lemma headers_loop phoff n i m segs :
  route_devices m = false -> headers_from pgSize fl phoff i n = Ok segs -> Forall (seg_fits fl) segs ->
  exists m', for_upto n i (load_header pgSize fl phoff) m = Ok m' /\ route_devices m' = false /\
    forall c, (mem_bytes m').[c] = foldl (seg_cell fl c) (mem_bytes m).[c] segs.
Proof.
  revert i m segs; induction n as [|n IH]; intros i m segs Hm; cbn [headers_from for_upto].
  - intros [= <-] _. by exists m.
  - destruct (read_phdr _ _ _) as [ph|] eqn:Hph; [cbn [mbind result_bind]|done].
    destruct (headers_from _ _ _ _ _) as [l|] eqn:Hl; [cbn [mbind result_bind]|done]. intros [= <-] [Hf Hfs]%Forall_cons.
    destruct (load_segment_Ok ph m Hm Hf) as (m1 & Hm1' & Hm1 & Hc1).
    assert (load_header pgSize fl phoff i m = Ok m1) as -> by (unfold load_header; by rewrite Hph). cbn [mbind result_bind].
    destruct (IH (i + 1) m1 l Hm1 Hl Hfs) as (m2 & -> & Hm2 & Hc2).
    exists m2. split; [done|]. split; [done|]. intros c. by rewrite Hc2, Hc1.
Qed.
End image.

(** ** Disjoint segments keep their own bytes *)
Section apart.
Context (fl : file).
Implicit Types (p q ph : phdr) (l : list phdr).

Lemma seg_apart_sym p q : seg_apart p q -> seg_apart q p.
Proof. unfold seg_apart. intros H Hq Hp. destruct (H Hp Hq); auto. Qed.
Lemma seg_cell_other p q i old : seg_fits fl p -> seg_fits fl q -> seg_apart p q ->
  loads p = true -> 0 <= i < p_memsz p -> seg_cell fl (va2pa (p_vaddr p) + i) old q = old.
Proof.
  intros Hp Hq Ha Lp Hi. unfold seg_cell. destruct (loads q) eqn:Lq; [|done]. cbn [negb].
  destruct (Hp Lp) as (Rp & _), (Hq Lq) as (Rq & Hn & _).
  destruct (va2pa_region _ _ i Rp Hi) as (_ & _ & _ & Hlt). specialize (Ha Lp Lq).
  destruct (insideP (va2pa (p_vaddr q)) (p_filesz q) (va2pa (p_vaddr p) + i)); [lia|].
  destruct (insideP (p_vaddr q) (p_memsz q) (va2pa (p_vaddr p) + i)) as [Hz|]; [|done].
  rewrite (va2pa_low (p_vaddr q)) in Ha by (destruct Rq; lia). lia.
Qed.
Lemma seg_cell_own p i : seg_fits fl p -> loads p = true -> 0 <= i < p_memsz p ->
  seg_cell fl (va2pa (p_vaddr p) + i) 0 p = if i <? p_filesz p then file_byte fl (p_offset p + i) else 0.
Proof.
  intros Hp Lp Hi. unfold seg_cell. rewrite Lp. cbn [negb].
  destruct (insideP (va2pa (p_vaddr p)) (p_filesz p) (va2pa (p_vaddr p) + i)), (Z.ltb_spec i (p_filesz p)); try lia.
  - f_equal; lia.
  - by case_match.
Qed.
Lemma fold_others p i old l : seg_fits fl p -> loads p = true -> 0 <= i < p_memsz p ->
  Forall (seg_fits fl) l -> Forall (seg_apart p) l ->
  foldl (seg_cell fl (va2pa (p_vaddr p) + i)) old l = old.
Proof.
  intros Hp Lp Hi. induction 1 as [|q l Hq Hl IH]; intros Ha; cbn [foldl]; [done|].
  apply Forall_cons in Ha as [Hpq Ha]. rewrite (seg_cell_other p q) by done. auto.
Qed.
Lemma fold_own p i l : ForallOrdPairs seg_apart l -> Forall (seg_fits fl) l -> p ∈ l ->
  loads p = true -> 0 <= i < p_memsz p ->
  foldl (seg_cell fl (va2pa (p_vaddr p) + i)) 0 l = if i <? p_filesz p then file_byte fl (p_offset p + i) else 0.
Proof.
  induction 1 as [|q l Hq Hl IH]; intros Hfit Hin Lp Hi; [by apply not_elem_of_nil in Hin|].
  pose proof (proj1 (Forall_forall _ _) Hfit p Hin) as Hp.
  apply Forall_cons in Hfit as [Hfq Hfit]. cbn [foldl]. apply elem_of_cons in Hin as [->|Hin].
  - rewrite seg_cell_own by done. by apply fold_others.
  - rewrite (seg_cell_other p q); [by apply IH|done..| |done|done].
    apply seg_apart_sym. exact (proj1 (Forall_forall _ _) Hq p Hin).
Qed.
End apart.

(** ** The header checks *)
(** A big-endian field of the file. *)
Definition be_field (fl : file) (n : nat) (o : Z) : Z :=
  le_join (rev (map (fun i => file_byte fl (o + Z.of_nat i)) (seq 0 n))).

Section header.
Context (pgSize : Z) (Hpg : 64 <= pgSize) (fl : file) (Hfl : file_ok fl) (Hsz : 0 < f_size fl).

Lemma mapped_header : 64 <= roundToPgSz (f_size fl) pgSize.
Proof.
  unfold roundToPgSz. assert (1 <= (f_size fl + pgSize - 1) / pgSize) by (apply Z.div_le_lower_bound; lia). nia.
Qed.
Lemma header_byte o : 0 <= o < 64 -> buf_byte pgSize fl o = Ok (file_byte fl o).
Proof.
  pose proof mapped_header. intros. unfold buf_byte, file_byte.
  destruct (Z.ltb_spec o 0); [lia|]. by destruct (Z.leb_spec (roundToPgSz (f_size fl) pgSize) o); [lia|].
Qed.
Lemma header_buf n o : 0 <= o -> o + Z.of_nat n <= 64 ->
  buf_bytes pgSize fl o n = Ok (map (fun i => file_byte fl (o + Z.of_nat i)) (seq 0 n)).
Proof.
  revert o; induction n as [|n IH]; intros o H0 Hn; [done|]. cbn [buf_bytes seq map].
  rewrite header_byte by lia. cbn [mbind result_bind]. rewrite IH by lia. cbn [mbind result_bind].
  do 2 f_equal; [f_equal; lia|]. rewrite <- seq_shift, map_map. apply map_ext. intros; f_equal; lia.
Qed.
Lemma header_field n o : 0 <= o -> o + Z.of_nat n <= 64 -> field pgSize fl n o = Ok (be_field fl n o).
Proof.
  intros. unfold field. rewrite header_buf by done. cbn [mbind result_bind]. do 2 f_equal.
  assert (Hb : Forall (in_u 8) (map (fun i => file_byte fl (o + Z.of_nat i)) (seq 0 n)))
    by (apply Forall_map, Forall_true; intros; by apply file_byte_u8).
  pose proof (le_split_join _ Hb) as E. rewrite length_map, length_seq in E. unfold byteswap, be_field. by rewrite E.
Qed.
Lemma e_machine_eq : e_machine pgSize fl = Ok (file_byte fl 18 * 256 + file_byte fl 19).
Proof.
  unfold e_machine. rewrite header_field by done. unfold be_field. cbn [seq map rev app].
  rewrite !le_join_cons by (apply file_byte_u8; done). cbn [le_join]. f_equal.
  change (18 + Z.of_nat 0) with 18. change (18 + Z.of_nat 1) with 19. change (2 ^ 8) with 256. lia.
Qed.
Lemma mips_elf_fields :
  mips_elf fl = bool_decide (map (file_byte fl) [0; 1; 2; 3] = magicArr) && (file_byte fl 4 =? 1) &&
                (file_byte fl 5 =? 2) && (file_byte fl 18 * 256 + file_byte fl 19 =? 8).
Proof.
  pose proof (file_byte_u8 fl Hfl 18). pose proof (file_byte_u8 fl Hfl 19). unfold in_u in *. change (2 ^ 8) with 256 in *.
  unfold mips_elf, magicArr. apply eq_true_iff_eq.
  rewrite !andb_true_iff, !bool_decide_eq_true, !Z.eqb_eq. cbn [map]. split.
  - intros [= -> -> -> -> -> -> -> ->]. done.
  - intros [[[[= -> -> -> ->] ->] ->] Hm]. by replace (file_byte fl 18) with 0 by lia; replace (file_byte fl 19) with 8 by lia.
Qed.
(** What remains of [load_elf] once the header is accepted. *)
Definition load_body (ms : state) : result state :=
  let! phoff := e_phoff pgSize fl in
  let! m := for_upto (Z.to_nat (be_field fl 2 44)) 0 (load_header pgSize fl phoff) (mem_clear (mem ms)) in
  Ok (set_mem m (set_pc (s64 (s32 (be_field fl 4 24))) ms)).
Lemma load_elf_checked ms :
  load_elf pgSize (Some fl) ms = if mips_elf fl then load_body ms else Stop HostExit.
Proof.
  unfold load_elf. destruct (Z.eqb_spec (f_size fl) 0); [lia|]. rewrite mips_elf_fields.
  unfold checkElf, check32Bit, checkBigEndian, e_entry, e_phnum, load_body.
  assert (E : buf_bytes pgSize fl 0 4 = Ok (map (file_byte fl) [0; 1; 2; 3])) by (by rewrite header_buf).
  rewrite E, !header_byte, e_machine_eq, !header_field by done. cbn [mbind result_bind].
  destruct (bool_decide (_ = magicArr)); cbn [negb andb]; [|done].
  destruct (file_byte fl 4 =? 1); cbn [negb andb]; [|done].
  destruct (file_byte fl 5 =? 2); cbn [negb andb]; [|done].
  destruct (_ =? 8); cbn [negb]; [|done]. by destruct (e_phoff pgSize fl).
Qed.
End header.

(** * The claims *)

(** C27. Loading a well-formed 32-bit big-endian MIPS ELF file terminates and
    leaves the sign-extended entry point in the pc, every other register
    untouched, and exactly the described image in physical memory: each cell is
    what the segments, in header order, make of a zeroed memory.  Where the
    segments share no physical byte, each one's file bytes lie at the physical
    image of their virtual addresses and its remaining bytes are zero. *)
Theorem load_elf_image (pgSize : Z) (fl : file) (ms : state) (segs : list phdr)
  (Hpg : 64 <= pgSize) (Hfl : file_ok fl) (Hsz : 0 < f_size fl) (Hm : mips_elf fl = true)
  (Hdev : route_devices (mem ms) = false)
  (Hsegs : program_headers pgSize fl = Ok segs) (Hfit : Forall (seg_fits fl) segs) :
  exists m, load_elf pgSize (Some fl) ms = Ok (set_mem m (set_pc (s64 (s32 (be_field fl 4 24))) ms)) /\
    (forall c, (mem_bytes m).[c] = foldl (seg_cell fl c) 0 segs) /\
    (ForallOrdPairs seg_apart segs -> forall ph i, ph ∈ segs -> loads ph = true -> 0 <= i < p_memsz ph ->
       (mem_bytes m).[va2pa (p_vaddr ph) + i] = if i <? p_filesz ph then file_byte fl (p_offset ph + i) else 0).
Proof.
  rewrite load_elf_checked, Hm by done. unfold load_body.
  revert Hsegs. unfold program_headers, e_phnum. rewrite header_field by done. cbn [mbind result_bind].
  destruct (e_phoff pgSize fl) as [phoff|]; [|done]. cbn [mbind result_bind]. intros Hsegs.
  destruct (headers_loop pgSize ltac:(lia) fl Hfl phoff _ 0 (mem_clear (mem ms)) segs Hdev Hsegs Hfit) as (m & -> & _ & Hc).
  cbn [mbind result_bind mem_clear mem_bytes] in *. exists m. split; [done|].
  assert (forall c, (mem_bytes m).[c] = foldl (seg_cell fl c) 0 segs) as Hc'.
  { intros c. rewrite Hc. by rewrite rd_empty. }
  split; [done|]. intros Ha ph i Hin Hl Hi. rewrite Hc'. by apply fold_own.
Qed.
(** A 92-byte file with one segment at 0x80001000: 4 bytes of data, 8 of memory. *)
Definition sample_bytes : list Z :=
  [0x7f; 0x45; 0x4c; 0x46; 1; 2; 1; 0;  0; 0; 0; 0; 0; 0; 0; 0;
   0; 2; 0; 8; 0; 0; 0; 1;  0x80; 0; 0x10; 0;  0; 0; 0; 52;
   0; 0; 0; 0; 0; 0; 0; 0;  0; 52; 0; 32; 0; 1; 0; 0;  0; 0; 0; 0;
   0; 0; 0; 1;  0; 0; 0; 84;  0x80; 0; 0x10; 0;  0x80; 0; 0x10; 0;
   0; 0; 0; 4;  0; 0; 0; 8;  0; 0; 0; 5;  0; 0; 0; 4;
   0x3c; 0x08; 0x12; 0x34; 0xff; 0xff; 0xff; 0xff].
Definition sample_file : file := mk_file 92 (store_bytes ∅ 0 sample_bytes).
Definition sample_state : state := state_init (mk_sparse_mem ∅ false) false.
Lemma file_ok_check fl : map_to_list (f_data fl) = filter (fun p => 0 <= p.2 < 256) (map_to_list (f_data fl)) -> file_ok fl.
Proof.
  intros H. apply map_Forall_to_list. rewrite H. apply Forall_forall. intros [k x] Hin.
  apply list_elem_of_filter in Hin as [Hx _]. exact Hx.
Qed.
Lemma sample_ok : file_ok sample_file.
Proof. apply file_ok_check. by vm_compute. Qed.
Lemma load_elf_image_witness :
  program_headers 4096 sample_file = Ok [mk_phdr 1 84 0x80001000 4 8] /\
  exists m, load_elf 4096 (Some sample_file) sample_state =
              Ok (set_mem m (set_pc (s64 (s32 0x80001000)) sample_state)) /\
    (mem_bytes m).[0x1003] = 0x34 /\ (mem_bytes m).[0x1004] = 0.
Proof.
  split; [by vm_compute|].
  destruct (load_elf_image 4096 sample_file sample_state [mk_phdr 1 84 0x80001000 4 8])
    as (m & Hl & _ & Hc); [lia|exact sample_ok|by vm_compute..| |].
  - constructor; [|done]. intros _. split; [right; vm_compute; repeat split; congruence|vm_compute; repeat split; congruence].
  - assert (be_field sample_file 4 24 = 0x80001000) as E by by vm_compute.
    rewrite E in Hl. exists m. split; [exact Hl|].
    assert (ForallOrdPairs seg_apart [mk_phdr 1 84 0x80001000 4 8]) as Ha by (repeat constructor).
    change 0x1003 with (va2pa 0x80001000 + 3). change 0x1004 with (va2pa 0x80001000 + 4).
    assert (forall i, 0 <= i < 8 -> (mem_bytes m).[va2pa 0x80001000 + i] =
              if i <? 4 then file_byte sample_file (84 + i) else 0) as Hs.
    { intros i Hi. apply (Hc Ha (mk_phdr 1 84 0x80001000 4 8) i); [by left|done|exact Hi]. }
    rewrite !Hs by lia. clear. split; vm_compute; reflexivity.
Defined.

(** ** What the loader refuses *)
Lemma for_upto_app {A} n k cc (f : Z -> A -> result A) a :
  for_upto (n + k) cc f a = let! x := for_upto n cc f a in for_upto k (cc + Z.of_nat n) f x.
Proof.
  revert cc a; induction n as [|n IH]; intros cc a; cbn [Nat.add for_upto mbind result_bind].
  - by rewrite Z.add_0_r.
  - destruct (f cc a); cbn [mbind result_bind]; [|done]. rewrite IH. do 2 f_equal.
    by replace (cc + 1 + Z.of_nat n) with (cc + Z.of_nat (S n)) by lia.
Qed.
(** A segment whose file bytes run past the mapping. *)
Definition seg_past (pgSize : Z) (fl : file) (ph : phdr) : Prop :=
  loads ph = true /\ one_region (p_vaddr ph) (p_memsz ph) /\ 0 < p_filesz ph <= p_memsz ph /\
  0 <= p_offset ph /\ roundToPgSz (f_size fl) pgSize < p_offset ph + p_filesz ph.
Lemma copy_prefix pgSize fl ph m n : file_ok fl -> route_devices m = false ->
  one_region (p_vaddr ph) (p_memsz ph) -> Z.of_nat n <= p_memsz ph -> 0 <= p_offset ph ->
  p_offset ph + Z.of_nat n <= roundToPgSz (f_size fl) pgSize ->
  exists m', for_upto n 0 (copy_byte pgSize fl ph) m = Ok m' /\ route_devices m' = false.
Proof.
  intros Hfl Hm Hr Hn Ho Hs.
  apply (for_upto_ind (fun _ m => route_devices m = false)); [done|].
  intros i x Hi Hx. destruct (va2pa_region _ _ i Hr ltac:(lia)) as (E & Ep & _ & Hp).
  unfold copy_byte, buf_byte. rewrite E, Ep. destruct (Z.ltb_spec (p_offset ph + i) 0); [lia|].
  destruct (Z.leb_spec (roundToPgSz (f_size fl) pgSize) (p_offset ph + i)); [lia|]. cbn [orb mbind result_bind].
  fold (file_byte fl (p_offset ph + i)).
  rewrite set_byte by (done || (by apply file_byte_u8) || (unfold in_u; pows; lia)). by eexists.
Qed.
Lemma copy_past pgSize fl ph i m : roundToPgSz (f_size fl) pgSize <= p_offset ph + i ->
  copy_byte pgSize fl ph i m = Stop HostUB.
Proof. intros Hi. unfold copy_byte, buf_byte. apply Z.leb_le in Hi. by rewrite Hi, orb_true_r. Qed.
Lemma load_segment_past pgSize fl ph m : file_ok fl -> route_devices m = false ->
  0 <= roundToPgSz (f_size fl) pgSize -> seg_past pgSize fl ph ->
  load_segment pgSize fl ph m = Stop HostUB.
Proof.
  intros Hfl Hm Hpos (Hl & Hr & Hn & Ho & Hs). unfold load_segment. fold (loads ph). rewrite Hl.
  destruct (zero_loop ph m Hm Hr ltac:(lia)) as (m1 & -> & Hm1 & _). cbn [mbind result_bind].
  set (n := Z.to_nat (Z.max 0 (roundToPgSz (f_size fl) pgSize - p_offset ph))).
  replace (Z.to_nat (p_filesz ph)) with (n + S (Z.to_nat (p_filesz ph) - n - 1))%nat by lia.
  rewrite for_upto_app.
  destruct (decide (p_offset ph <= roundToPgSz (f_size fl) pgSize)) as [Hle|Hgt].
  - destruct (copy_prefix pgSize fl ph m1 n) as (m2 & -> & _); try done; [lia..|].
    cbn [for_upto mbind result_bind]. by rewrite copy_past by lia.
  - replace n with O by lia. cbn [for_upto mbind result_bind]. by rewrite copy_past by lia.
Qed.
Lemma headers_past pgSize fl phoff n i m segs ph rest : 0 < pgSize -> file_ok fl -> route_devices m = false ->
  0 < f_size fl ->
  headers_from pgSize fl phoff i n = Ok (segs ++ ph :: rest) -> Forall (seg_fits fl) segs -> seg_past pgSize fl ph ->
  for_upto n i (load_header pgSize fl phoff) m = Stop HostUB.
Proof.
  intros Hpg Hfl Hm Hsz Hh Hfit Hpast. revert i m segs Hm Hh Hfit.
  induction n as [|n IH]; intros i m segs Hm; cbn [headers_from for_upto]; [by destruct segs|].
  destruct (read_phdr _ _ _) as [q|] eqn:Hq; [cbn [mbind result_bind]|done].
  destruct (headers_from _ _ _ _ _) as [l|] eqn:Hl; [cbn [mbind result_bind]|done].
  assert (load_header pgSize fl phoff i m = load_segment pgSize fl q m) as -> by (unfold load_header; by rewrite Hq).
  destruct segs as [|q' segs]; cbn [app]; intros [= <- ->] Hfit.
  - pose proof (mapped_size pgSize Hpg fl). by rewrite load_segment_past by (done || lia).
  - apply Forall_cons in Hfit as [Hq' Hfit].
    destruct (load_segment_Ok pgSize Hpg fl Hfl q m Hm Hq') as (m1 & -> & Hm1 & _). cbn [mbind result_bind].
    by eapply IH.
Qed.

(** C28. The loader refuses what it should: a file that cannot be opened and a
    file whose header is not that of a 32-bit big-endian MIPS ELF stop the
    process with its error exit before the machine state changes; a segment whose
    file bytes run past the mapped pages is an access outside the mapping, whatever
    the segments before it loaded.  So a load that returns read an accepted header
    and starts at its entry point. *)
Theorem load_elf_refuses (pgSize : Z) (fl : file) (ms : state)
  (Hpg : 64 <= pgSize) (Hfl : file_ok fl) (Hsz : 0 < f_size fl) :
  load_elf pgSize None ms = Stop HostExit /\
  (mips_elf fl = false -> load_elf pgSize (Some fl) ms = Stop HostExit) /\
  (forall segs ph rest, mips_elf fl = true -> route_devices (mem ms) = false ->
     program_headers pgSize fl = Ok (segs ++ ph :: rest) -> Forall (seg_fits fl) segs ->
     seg_past pgSize fl ph -> load_elf pgSize (Some fl) ms = Stop HostUB) /\
  (forall ms', load_elf pgSize (Some fl) ms = Ok ms' ->
     mips_elf fl = true /\ pc ms' = s64 (s32 (be_field fl 4 24)) /\ gpr ms' = gpr ms /\ tlb ms' = tlb ms).
Proof.
  split; [done|]. rewrite load_elf_checked by done. split; [by intros ->|]. split.
  - intros segs ph rest -> Hdev Hsegs Hfit Hpast. unfold load_body.
    revert Hsegs. unfold program_headers, e_phnum. rewrite header_field by done. cbn [mbind result_bind].
    destruct (e_phoff pgSize fl) as [phoff|]; [|done]. cbn [mbind result_bind]. intros Hsegs.
    by rewrite (headers_past pgSize fl phoff _ 0 (mem_clear (mem ms)) segs ph rest) by (done || lia).
  - intros ms'. destruct (mips_elf fl); [|done]. unfold load_body. destruct (e_phoff pgSize fl); [|done].
    cbn [mbind result_bind]. destruct (for_upto _ _ _ _); [|done]. cbn [mbind result_bind]. by intros [= <-].
Qed.
(** The sample with its file and memory sizes raised to 8 KB, and a little-endian one. *)
Definition truncated_file : file := mk_file 92 (store_bytes ∅ 0 (<[74%nat := 0x20]> (<[70%nat := 0x20]> sample_bytes))).
Definition little_file : file := mk_file 92 (store_bytes ∅ 0 (<[5%nat := 1]> sample_bytes)).
Lemma load_elf_refuses_witness :
  load_elf 4096 None sample_state = Stop HostExit /\
  load_elf 4096 (Some little_file) sample_state = Stop HostExit /\
  load_elf 4096 (Some truncated_file) sample_state = Stop HostUB.
Proof.
  assert (file_ok little_file) as Hl by (apply file_ok_check; by vm_compute).
  assert (file_ok truncated_file) as Ht by (apply file_ok_check; by vm_compute).
  destruct (load_elf_refuses 4096 little_file sample_state ltac:(lia) Hl eq_refl) as (Hn & Hb & _).
  destruct (load_elf_refuses 4096 truncated_file sample_state ltac:(lia) Ht eq_refl) as (_ & _ & Hp & _).
  split; [exact Hn|]. split; [apply Hb; by vm_compute|].
  apply (Hp [] (mk_phdr 1 84 0x80001000 0x2004 0x2008) []); [by vm_compute..|constructor|].
  split; [done|]. split; [right; vm_compute; repeat split; congruence|]. vm_compute. repeat split; congruence.
Defined.

(** ** Checkpoints *)
(** Every checkpoint whose header can be read and whose pc is not zero makes the
    reader copy 256 bytes out of the 32-bit register arrays: the copy of the FPU
    registers leaves the 428-byte header. *)
Theorem loadState_overruns (fl : file) (s : state) :
  header_size <= f_size fl -> header_word fl 0 <> 0 -> loadState (Some fl) s = Stop HostUB.
Proof.
  intros Hsz Hpc. unfold loadState. destruct (Z.ltb_spec (f_size fl) header_size); [lia|].
  by destruct (Z.eqb_spec (header_word fl 0) 0).
Qed.
(** The zero fill of a kseg0 segment goes to its virtual address: a second
    segment over the same physical bytes, without file bytes, clears nothing. *)
Example zero_fill_is_virtual :
  let data := mk_phdr 1 84 0x80001000 4 8 in let bss := mk_phdr 1 88 0x80001000 0 8 in
  foldl (seg_cell sample_file 0x1000) 0 [data; bss] = 0x3c /\
  foldl (seg_cell sample_file 0x80001000) 0xaa [bss] = 0.
Proof. split; vm_compute; reflexivity. Qed.
