(* ===== verification/Snoop.v ===== *)
(** The snoop injector of the test bench ([--snoop-delay] in [src/top.cc]): every
    so many lines the core reads from memory are snooped back a fixed number of
    cycles later, one at a time, through a queue of 256 entries. *)
From S2P Require Import Prelude Bits Insns State Mem Devices Bus.

(** The queue of (due cycle, line address), the outstanding snoop, the counters
    and the request port of the core it drives. *)
Record injector := mk_injector {
  snoop_q : list (Z * Z); snoop_busy : bool; snoop_acked : bool; snoop_seen : Z;
  snoop_issued : Z; snoop_done_n : Z; snoop_dropped : Z;
  snoop_req_valid : bool; snoop_req_wbinv : bool; snoop_req_addr : Z;
}.
Definition injector_init : injector := mk_injector [] false false 0 0 0 0 false false 0.

Section snoop.
Context (snoop_delay snoop_every : Z).
Implicit Types (j : injector).

(** Before the rising edge: [snoop_req_ack] and [snoop_done] are outputs of the
    core. *)
Definition inject (cycle : Z) (snoop_req_ack snoop_done : bool) j : injector :=
  if negb (snoop_delay =/? 0) then j
  else if snoop_busy j then
    let ack := negb (snoop_acked j) && snoop_req_ack in
    let acked := if ack then true else snoop_acked j in
    let valid := if ack then false else snoop_req_valid j in
    let fin := acked && snoop_done in
    mk_injector (snoop_q j) (if fin then false else true) acked (snoop_seen j) (snoop_issued j)
      (if fin then u64 (snoop_done_n j + 1) else snoop_done_n j) (snoop_dropped j)
      valid (snoop_req_wbinv j) (snoop_req_addr j)
  else match snoop_q j with
       | (due, pa) :: q =>
           if due <=? cycle then
             mk_injector q true false (snoop_seen j) (u64 (snoop_issued j + 1)) (snoop_done_n j) (snoop_dropped j)
               true true pa
           else j
       | [] => j
       end.
(** At the falling edge, when the port accepts the request [r]. *)
Definition enqueue (cycle : Z) (r : request) j : result injector :=
  if negb ((snoop_delay =/? 0) && (opcode r =? 4)) then Ok j
  else if snoop_every =? 0 then Stop HostUB
  else
    let seen := snoop_seen j in
    let take q dropped :=
      mk_injector q (snoop_busy j) (snoop_acked j) (u64 (seen + 1)) (snoop_issued j) (snoop_done_n j) dropped
        (snoop_req_valid j) (snoop_req_wbinv j) (snoop_req_addr j) in
    if seen mod snoop_every =? 0 then
      if Z.of_nat (length (snoop_q j)) <? 256
      then Ok (take (snoop_q j ++ [(u64 (cycle + snoop_delay), req_addr r .& .~ 15)]) (snoop_dropped j))
      else Ok (take (snoop_q j) (u64 (snoop_dropped j + 1)))
    else Ok (take (snoop_q j) (snoop_dropped j)).
End snoop.

(** The port accepts a request when it holds none. *)
Definition accepted (req : option request) (p : port) : option request :=
  match req with Some r => if mem_reply_cycle p =? -1 then Some r else None | None => None end.
(** What the core shows the test bench in one cycle. *)
Record core_out := mk_core_out { o_ack : bool; o_done : bool; o_req : option request; o_lat : Z }.
Definition bench_cycle (delay every : Z) (magic_halt : bool) (cycle : Z) (o : core_out) (t : injector * port)
  : result (injector * port) :=
  let '(j, p) := t in
  let j := inject delay cycle (o_ack o) (o_done o) j in
  let! j := match accepted (o_req o) p with Some r => enqueue delay every cycle r j | None => Ok j end in
  let! p := negedge magic_halt cycle (o_lat o) (o_req o) p in
  Ok (j, p).
(** Consecutive cycles. *)
Fixpoint bench (delay every : Z) (magic_halt : bool) (cycle : Z) (os : list core_out) (t : injector * port)
  : result (injector * port) :=
  match os with
  | [] => Ok t
  | o :: os => let! t := bench_cycle delay every magic_halt cycle o t in
               bench delay every magic_halt (u64 (cycle + 1)) os t
  end.
