(* ===== verification/SnoopProps.v ===== *)
(** Properties of the snoop injector: its handshake, the ledger of the lines it
    snoops, and that a core which answers drains the queue. *)
From S2P Require Import Prelude Bits Insns State Mem Devices Bus Snoop.
From Stdlib Require Import Sorted.

(** The lines put on the snoop port, and the lines of the accepted loads, in order. *)
Definition put_on_port (j j' : injector) : list Z :=
  if negb (snoop_busy j) && snoop_busy j' then [snoop_req_addr j'] else [].
Definition read_by (req : option request) : list Z :=
  match req with Some r => if opcode r =? 4 then [req_addr r .& .~ 15] else [] | None => [] end.
Fixpoint history (delay every : Z) (magic_halt : bool) (cycle : Z) (os : list core_out) (t : injector * port)
  : list Z * list Z :=
  match os with
  | [] => ([], [])
  | o :: os =>
      let snooped := put_on_port t.1 (inject delay cycle (o_ack o) (o_done o) t.1) in
      let lines := read_by (accepted (o_req o) t.2) in
      match bench_cycle delay every magic_halt cycle o t with
      | Ok t' => let '(s, l) := history delay every magic_halt (u64 (cycle + 1)) os t' in (snooped ++ s, lines ++ l)
      | Stop _ => (snooped, lines)
      end
  end.
(** One line out of [every], counting from [seen]. *)
Fixpoint pick (every seen : Z) (l : list Z) : list Z :=
  match l with
  | [] => []
  | x :: l => (if seen mod every =? 0 then [x] else []) ++ pick every (u64 (seen + 1)) l
  end.
(** The handshake: the request is held until it is acknowledged, every issued
    snoop is done or outstanding, the queue is bounded, its lines are aligned and
    its due cycles in order, none further away than the delay. *)
Record injector_ok (delay cycle : Z) (j : injector) : Prop := {
  io_valid : snoop_req_valid j = snoop_busy j && negb (snoop_acked j);
  io_issued : snoop_issued j = u64 (snoop_done_n j + Z.b2z (snoop_busy j));
  io_dropped : in_u 64 (snoop_dropped j);
  io_len : (length (snoop_q j) <= 256)%nat;
  io_lines : Forall (fun e => e.2 mod 16 = 0) (snoop_q j);
  io_due : Forall (fun e => e.1 <= cycle + delay) (snoop_q j);
  io_sorted : StronglySorted (fun e f => e.1 <= f.1) (snoop_q j);
  io_port : snoop_busy j = true -> snoop_req_wbinv j = true /\ snoop_req_addr j mod 16 = 0;
}.

(** Of the lines to be snooped (those queued and those picked), the ones snooped
    and the ones still queued are kept in order, and the others are counted. *)
Definition ledger (j j' : injector) (snooped picked : list Z) : Prop :=
  exists n, snooped ++ map snd (snoop_q j') `sublist_of` map snd (snoop_q j) ++ picked /\
    length (map snd (snoop_q j) ++ picked) = (length (snooped ++ map snd (snoop_q j')) + n)%nat /\
    snoop_dropped j' = u64 (snoop_dropped j + Z.of_nat n).

(** * Theorems *)
Section snoop.
Context (delay every : Z) (Hdelay : 0 < delay).
Implicit Types (j : injector) (p : port).

Lemma injector_ok_init cycle : injector_ok delay cycle injector_init.
Proof. split; try done; cbn; try lia; try constructor. all: done. Qed.
Lemma line_aligned a : (a .& .~ 15) mod 16 = 0.
Proof.
  apply Z.bits_inj'. intros n Hn. rewrite Z.bits_0. change 16 with (2 ^ 4). rewrite <- Z.land_ones by done.
  rewrite !Z.land_spec. change (.~ 15) with (Z.lnot (Z.ones 4)). rewrite Z.lnot_spec by done.
  destruct (decide (n < 4)); [rewrite Z.ones_spec_low by lia|rewrite (Z.ones_spec_high 4) by lia];
    by rewrite ?andb_false_r, ?andb_true_r.
Qed.

(** ** The rising edge *)
Lemma inject_ok cycle ack fin j : injector_ok delay cycle j -> injector_ok delay cycle (inject delay cycle ack fin j).
Proof.
  intros Hj. unfold inject. rewrite (proj2 (Z.eqb_neq delay 0)) by lia. cbn [negb].
  destruct (snoop_busy j) eqn:Hb.
  - destruct Hj as [Hv Hi Hdr Hl Ha Hd Hs Hp]. rewrite Hb in *. destruct (Hp eq_refl).
    split; cbn; try done.
    + destruct (snoop_acked j), ack, fin; cbn in *; done || by rewrite Hv.
    + destruct ((if negb (snoop_acked j) && ack then true else snoop_acked j) && fin); cbn; [|done].
      rewrite Z.add_0_r. cbn in Hi. rewrite Hi. symmetry. unfold wrapu. by rewrite Z.mod_mod.
  - destruct (snoop_q j) as [|[due pa] q] eqn:Hq; [done|]. destruct (due <=? cycle); [|done].
    destruct Hj as [Hv Hi Hdr Hl Ha Hd Hs Hp]. rewrite Hb, Hq in *. cbn in *.
    apply Forall_cons in Ha as [? ?], Hd as [? ?]. apply StronglySorted_inv in Hs as [? ?].
    split; cbn; try done; [|lia]. rewrite Hi. rewrite Z.add_0_r. unfold wrapu. by rewrite Z.add_mod_idemp_l.
Qed.
(** The head of the queue moves to the port. *)
Lemma inject_moves cycle ack fin j :
  put_on_port j (inject delay cycle ack fin j) ++ map snd (snoop_q (inject delay cycle ack fin j)) = map snd (snoop_q j) /\
  snoop_seen (inject delay cycle ack fin j) = snoop_seen j /\ snoop_dropped (inject delay cycle ack fin j) = snoop_dropped j.
Proof.
  unfold put_on_port, inject. rewrite (proj2 (Z.eqb_neq delay 0)) by lia. cbn [negb].
  destruct (snoop_busy j) eqn:Hb; cbn; [done|].
  destruct (snoop_q j) as [|[due pa] q] eqn:Hq; [by rewrite ?Hb, ?Hq|].
  destruct (due <=? cycle); cbn; [done|]. by rewrite Hb, Hq.
Qed.

(** ** The falling edge *)
Lemma enqueue_ok cycle r j j' : in_u 64 (cycle + delay) -> injector_ok delay cycle j ->
  enqueue delay every cycle r j = Ok j' -> injector_ok delay cycle j'.
Proof.
  intros Hc Hj. unfold enqueue. destruct (negb _); [by intros [= <-]|]. destruct (every =? 0); [done|].
  destruct Hj as [Hv Hi Hdr Hl Ha Hd Hs Hp].
  destruct (_ mod _ =? 0); [|intros [= <-]; by split].
  destruct (Z.ltb_spec (Z.of_nat (length (snoop_q j))) 256); intros [= <-]; split; cbn; try done; try by apply wrapu_range.
  - rewrite length_app. cbn. lia.
  - apply Forall_app. split; [done|]. constructor; [apply line_aligned|done].
  - rewrite wrapu_id by done. apply Forall_app. split; [done|]. constructor; [cbn; lia|done].
  - rewrite wrapu_id by done. revert Hs Hd. clear. induction (snoop_q j) as [|e q IH]; intros Hs Hd; cbn.
    + repeat constructor.
    + apply StronglySorted_inv in Hs as [? ?]. apply Forall_cons in Hd as [? ?].
      constructor; [by apply IH|]. apply Forall_app. split; [done|]. by repeat constructor.
Qed.
Lemma injector_ok_later cycle cycle' j : cycle <= cycle' -> injector_ok delay cycle j -> injector_ok delay cycle' j.
Proof. intros Hc [Hv Hi Hdr Hl Ha Hd Hs Hp]. split; try done. eapply Forall_impl; [exact Hd|]. cbn. intros; lia. Qed.

(** ** The ledger *)
Lemma ledger_refl j : in_u 64 (snoop_dropped j) -> ledger j j [] [].
Proof. intros. exists O. rewrite app_nil_r, Z.add_0_r, wrapu_id by done. cbn. split; [done|]. split; [lia|done]. Qed.
Lemma ledger_trans j1 j2 j3 s1 s2 l1 l2 : ledger j1 j2 s1 l1 -> ledger j2 j3 s2 l2 -> ledger j1 j3 (s1 ++ s2) (l1 ++ l2).
Proof.
  intros (n & Hs & Hl & Hd) (k & Hs' & Hl' & Hd'). exists (n + k)%nat. split; [|split].
  - rewrite <- app_assoc. etransitivity; [apply sublist_app; [reflexivity|exact Hs']|].
    rewrite !app_assoc. by apply sublist_app.
  - rewrite !length_app in *. lia.
  - rewrite Hd', Hd. unfold wrapu. rewrite Z.add_mod_idemp_l by done. f_equal. lia.
Qed.
Lemma enqueue_ledger cycle r j j' : in_u 64 (snoop_dropped j) -> enqueue delay every cycle r j = Ok j' ->
  ledger j j' [] (pick every (snoop_seen j) (read_by (Some r))) /\
  forall l, pick every (snoop_seen j) (read_by (Some r) ++ l) =
            pick every (snoop_seen j) (read_by (Some r)) ++ pick every (snoop_seen j') l.
Proof.
  intros Hdr. unfold enqueue, read_by. rewrite (proj2 (Z.eqb_neq delay 0)) by lia. cbn [negb andb].
  destruct (opcode r =? 4); cbn [negb app]; [|by intros [= <-]; split; [apply ledger_refl|]].
  destruct (every =? 0); [done|]. cbn [pick app]. destruct (snoop_seen j mod every =? 0); cbn [app].
  - destruct (Z.ltb_spec (Z.of_nat (length (snoop_q j))) 256); intros [= <-]; (split; [|done]).
    + exists O. cbn. rewrite map_app, Z.add_0_r, (wrapu_id 64 (snoop_dropped j)) by done. cbn. split; [done|]. split; [lia|done].
    + exists 1%nat. cbn. split; [by apply sublist_inserts_r|]. rewrite length_app. cbn. split; [lia|done].
  - intros [= <-]. split; [|done]. by apply (ledger_refl j).
Qed.
Lemma inject_ledger cycle ack fin j : in_u 64 (snoop_dropped j) ->
  ledger j (inject delay cycle ack fin j) (put_on_port j (inject delay cycle ack fin j)) [].
Proof.
  intros Hdr. destruct (inject_moves cycle ack fin j) as (Hm & _ & Hd). exists O.
  rewrite Hm, app_nil_r, Hd, Z.add_0_r, wrapu_id by done. split; [done|]. split; [lia|done].
Qed.
Lemma bench_cycle_ledger mh cycle o j p t' : in_u 64 (cycle + delay) -> injector_ok delay cycle j ->
  bench_cycle delay every mh cycle o (j, p) = Ok t' ->
  injector_ok delay cycle t'.1 /\
  let snooped := put_on_port j (inject delay cycle (o_ack o) (o_done o) j) in
  let lines := read_by (accepted (o_req o) p) in
  ledger j t'.1 snooped (pick every (snoop_seen j) lines) /\
  forall l, pick every (snoop_seen j) (lines ++ l) = pick every (snoop_seen j) lines ++ pick every (snoop_seen t'.1) l.
Proof.
  intros Hc Hj. unfold bench_cycle. set (j1 := inject delay cycle (o_ack o) (o_done o) j).
  pose proof (inject_ok cycle (o_ack o) (o_done o) j Hj) as Hj1. fold j1 in Hj1.
  pose proof (inject_ledger cycle (o_ack o) (o_done o) j (io_dropped _ _ _ Hj)) as L1. fold j1 in L1.
  destruct (inject_moves cycle (o_ack o) (o_done o) j) as (_ & Hseen & _). fold j1 in Hseen.
  destruct (accepted (o_req o) p) as [r|].
  - destruct (enqueue delay every cycle r j1) as [j2|] eqn:Hq; [cbn [mbind result_bind]|done].
    destruct (negedge _ _ _ _ _) as [p'|]; [cbn [mbind result_bind]|done]. intros [= <-]. cbn [fst].
    destruct (enqueue_ledger cycle r j1 j2 (io_dropped _ _ _ Hj1) Hq) as [L2 Hp]. rewrite Hseen in L2, Hp.
    split; [by eapply enqueue_ok|]. split; [|exact Hp].
    pose proof (ledger_trans _ _ _ _ _ _ _ L1 L2) as L. by rewrite app_nil_r in L.
  - cbn [mbind result_bind]. destruct (negedge _ _ _ _ _) as [p'|]; [cbn [mbind result_bind]|done]. intros [= <-]. cbn [fst].
    split; [done|]. cbn [read_by pick app]. split; [exact L1|]. intros l. by rewrite Hseen.
Qed.
End snoop.

(** C38. The ledger of the snoop injector, over any number of cycles of the memory
    port with any answers of the core: of the lines read by accepted loads one in
    [every] is picked, and the lines put on the snoop port followed by those still
    queued are the picked ones in the order they were read, but for those counted
    as dropped.  Throughout, the request is held until it is acknowledged, one
    snoop at most is outstanding, every issued one is done or outstanding, and the
    queue holds at most 256 aligned lines in order of their due cycles. *)
Theorem snoop_ledger (delay every : Z) (mh : bool) (os : list core_out) (cycle : Z) (j j' : injector) (p p' : port)
  (Hd : 0 < delay) (Hc : 0 <= cycle) (Hb : cycle + Z.of_nat (length os) + delay < 2 ^ 64)
  (Hj : injector_ok delay cycle j)
  (Hrun : bench delay every mh cycle os (j, p) = Ok (j', p')) :
  injector_ok delay (cycle + Z.of_nat (length os)) j' /\
  let '(snooped, lines) := history delay every mh cycle os (j, p) in
  ledger j j' snooped (pick every (snoop_seen j) lines).
Proof.
  revert cycle j p Hc Hb Hj Hrun. induction os as [|o os IH]; intros cycle j p Hc Hb Hj; cbn [bench history length].
  - intros [= <- <-]. rewrite Z.add_0_r. split; [done|]. apply ledger_refl, Hj.
  - cbn [length] in Hb. destruct (bench_cycle delay every mh cycle o (j, p)) as [[j1 p1]|] eqn:H1; [|done].
    cbn [mbind result_bind fst snd]. rewrite wrapu_id by (unfold in_u; lia). intros Hrun.
    destruct (bench_cycle_ledger delay every Hd mh cycle o j p (j1, p1)) as (Hj1 & L1 & Hp1); [unfold in_u; lia|done..|].
    cbn [fst] in *. apply (injector_ok_later delay cycle (cycle + 1)) in Hj1; [|lia].
    destruct (IH (cycle + 1) j1 p1 ltac:(lia) ltac:(lia) Hj1 Hrun) as [Hj' L2].
    destruct (history delay every mh (cycle + 1) os (j1, p1)) as [s l]. split.
    + by replace (cycle + Z.of_nat (S (length os))) with (cycle + 1 + Z.of_nat (length os)) by lia.
    + rewrite Hp1. by eapply ledger_trans.
Qed.
(** A load of line 0x40 answered in its cycle, the delay, and the snoop of the line. *)
Definition sample_run : list core_out :=
  [mk_core_out false false (Some (mk_request 4 0x40 0xffff [])) 0; mk_core_out false false None 0;
   mk_core_out false false None 0; mk_core_out true false None 0; mk_core_out false true None 0].
Definition sample_port : port := mk_port (-1) (mk_bus (mk_sparse_mem ∅ false) 0 None []) false None.
Lemma snoop_ledger_witness :
  exists j' p', bench 2 1 false 10 sample_run (injector_init, sample_port) = Ok (j', p') /\
    injector_ok 2 15 j' /\ ledger injector_init j' [0x40] [0x40] /\ snoop_done_n j' = 1.
Proof.
  destruct (bench 2 1 false 10 sample_run (injector_init, sample_port)) as [[j' p']|] eqn:Hr; [|by vm_compute in Hr].
  exists j', p'. split; [done|].
  destruct (snoop_ledger 2 1 false sample_run 10 injector_init j' sample_port p' eq_refl ltac:(lia) eq_refl
              (injector_ok_init 2 10) Hr) as [Hj L].
  split; [exact Hj|]. split; [exact L|]. by vm_compute in Hr; injection Hr as <- <-.
Defined.

(** ** Draining *)
(** A core that answers snoops at once and asks for nothing. *)
Definition answers (o : core_out) : Prop := o_ack o = true /\ o_done o = true /\ o_req o = None.
Lemma negedge_quiet mh cycle lat p : mem_reply_cycle p = -1 -> 0 <= cycle < 2 ^ 63 ->
  negedge mh cycle lat None p = Ok (mk_port (-1) (p_bus p) (sim_halted p) None).
Proof.
  intros Hp Hc. unfold negedge, accept. cbn [mem_reply_cycle]. rewrite Hp.
  by destruct (Z.eqb_spec (u64 (-1)) cycle) as [E|]; [change (u64 (-1)) with (2 ^ 64 - 1) in E; lia|].
Qed.
(** Two cycles snoop the head of the queue. *)
Lemma drain_head delay every mh cycle o1 o2 j p due pa q :
  0 < delay -> answers o1 -> answers o2 -> snoop_busy j = false -> snoop_q j = (due, pa) :: q -> due <= cycle ->
  0 <= cycle < 2 ^ 62 -> mem_reply_cycle p = -1 ->
  exists j' p', bench delay every mh cycle [o1; o2] (j, p) = Ok (j', p') /\
    history delay every mh cycle [o1; o2] (j, p) = ([pa], []) /\
    snoop_q j' = q /\ snoop_busy j' = false /\ snoop_done_n j' = u64 (snoop_done_n j + 1) /\ mem_reply_cycle p' = -1.
Proof.
  intros Hd (A1 & D1 & R1) (A2 & D2 & R2) Hb Hq Hdue Hc Hp.
  set (j1 := mk_injector q true false (snoop_seen j) (u64 (snoop_issued j + 1)) (snoop_done_n j) (snoop_dropped j) true true pa).
  set (p1 := mk_port (-1) (p_bus p) (sim_halted p) None).
  assert (inject delay cycle (o_ack o1) (o_done o1) j = j1) as E1.
  { unfold inject. rewrite (proj2 (Z.eqb_neq delay 0)) by lia. cbn [negb]. rewrite Hb, Hq. by rewrite (proj2 (Z.leb_le due cycle)). }
  assert (bench_cycle delay every mh cycle o1 (j, p) = Ok (j1, p1)) as B1.
  { unfold bench_cycle. rewrite E1, R1. cbn [accepted mbind result_bind]. by rewrite negedge_quiet by (done || lia). }
  set (j2 := inject delay (cycle + 1) (o_ack o2) (o_done o2) j1).
  assert (bench_cycle delay every mh (cycle + 1) o2 (j1, p1) = Ok (j2, p1)) as B2.
  { unfold bench_cycle. fold j2. rewrite R2. cbn [accepted mbind result_bind]. by rewrite negedge_quiet by (done || lia). }
  assert (j2 = mk_injector q false true (snoop_seen j) (u64 (snoop_issued j + 1)) (u64 (snoop_done_n j + 1))
                 (snoop_dropped j) false true pa) as E2.
  { unfold j2, inject. rewrite (proj2 (Z.eqb_neq delay 0)) by lia. by rewrite A2, D2. }
  exists j2, p1. cbn [bench history]. rewrite B1. cbn [mbind result_bind fst snd].
  rewrite wrapu_id by (unfold in_u; lia). rewrite B2. fold j2. rewrite E1, R1, R2. rewrite E2.
  unfold put_on_port. rewrite Hb. cbn. by repeat split.
Qed.
Lemma bench_app delay every mh cycle os1 os2 t : 0 <= cycle -> cycle + Z.of_nat (length os1) < 2 ^ 64 ->
  bench delay every mh cycle (os1 ++ os2) t =
  let! t := bench delay every mh cycle os1 t in bench delay every mh (cycle + Z.of_nat (length os1)) os2 t.
Proof.
  revert cycle t. induction os1 as [|o os1 IH]; intros cycle t Hc Hb; cbn [app bench length mbind result_bind].
  - by rewrite Z.add_0_r.
  - cbn [length] in Hb. destruct (bench_cycle _ _ _ _ _ _); [|done]. cbn [mbind result_bind].
    rewrite wrapu_id by (unfold in_u; lia). rewrite IH by lia.
    by replace (cycle + Z.of_nat (S (length os1))) with (cycle + 1 + Z.of_nat (length os1)) by lia.
Qed.
Lemma history_app delay every mh cycle os1 os2 t t' : 0 <= cycle -> cycle + Z.of_nat (length os1) < 2 ^ 64 ->
  bench delay every mh cycle os1 t = Ok t' ->
  history delay every mh cycle (os1 ++ os2) t =
  let '(s1, l1) := history delay every mh cycle os1 t in
  let '(s2, l2) := history delay every mh (cycle + Z.of_nat (length os1)) os2 t' in (s1 ++ s2, l1 ++ l2).
Proof.
  revert cycle t. induction os1 as [|o os1 IH]; intros cycle t Hc Hb; cbn [app bench history length].
  - intros [= ->]. rewrite Z.add_0_r. by destruct (history _ _ _ _ _ _).
  - cbn [length] in Hb. destruct (bench_cycle _ _ _ _ _ _) as [t1|]; [|done]. cbn [mbind result_bind].
    rewrite wrapu_id by (unfold in_u; lia). intros Hr. rewrite (IH (cycle + 1) t1) by (done || lia).
    replace (cycle + Z.of_nat (S (length os1))) with (cycle + 1 + Z.of_nat (length os1)) by lia.
    destruct (history _ _ _ (cycle + 1) os1 t1), (history _ _ _ _ os2 t'). by rewrite !app_assoc.
Qed.

(** The snoop queue drains: once every queued line is due, a core that answers
    each snoop has them all snooped, in order, in two cycles each, and none is left
    outstanding. *)
Theorem snoop_queue_drains (delay every : Z) (mh : bool) (os : list core_out) (cycle : Z) (j : injector) (p : port)
  (Hd : 0 < delay) (Hc : 0 <= cycle) (Hb : cycle + Z.of_nat (length os) < 2 ^ 62)
  (Hidle : snoop_busy j = false) (Hp : mem_reply_cycle p = -1)
  (Hdue : Forall (fun e => e.1 <= cycle) (snoop_q j))
  (Hos : Forall answers os) (Hlen : length os = (2 * length (snoop_q j))%nat) :
  exists j' p', bench delay every mh cycle os (j, p) = Ok (j', p') /\
    (history delay every mh cycle os (j, p)).1 = map snd (snoop_q j) /\
    snoop_q j' = [] /\ snoop_busy j' = false /\
    u64 (snoop_done_n j') = u64 (snoop_done_n j + Z.of_nat (length (snoop_q j))).
Proof.
  remember (snoop_q j) as q eqn:Hq. revert j p cycle os Hc Hb Hidle Hp Hdue Hos Hlen Hq.
  induction q as [|[due pa] q IH]; intros j p cycle os Hc Hb Hidle Hp Hdue Hos Hlen Hq.
  - destruct os; [|done]. exists j, p. rewrite Z.add_0_r. by repeat split.
  - destruct os as [|o1 [|o2 os]]; [done|cbn in Hlen; lia|].
    apply Forall_cons in Hos as [A1 Hos], Hdue as [Hdue Hrest]. apply Forall_cons in Hos as [A2 Hos]. cbn [length] in *.
    destruct (drain_head delay every mh cycle o1 o2 j p due pa q) as (j1 & p1 & B & H & Q & Bz & N & P); try done; [lia|].
    change (o1 :: o2 :: os) with ([o1; o2] ++ os).
    rewrite bench_app, (history_app _ _ _ _ _ _ _ (j1, p1)), B, H by (done || (cbn; lia)). cbn [mbind result_bind length].
    destruct (IH j1 p1 (cycle + Z.of_nat 2) os) as (j' & p' & B' & H' & Q' & Bz' & N'); try done; try lia.
    + eapply Forall_impl; [exact Hrest|]. cbn. intros; lia.
    + exists j', p'. split; [done|]. destruct (history _ _ _ _ os (j1, p1)) as [s l]. cbn in H' |- *.
      split; [by rewrite H'|]. split; [done|]. split; [done|]. rewrite N', N. unfold wrapu.
      rewrite Z.add_mod_idemp_l by done. f_equal. lia.
Qed.
Lemma snoop_queue_drains_witness :
  let j := mk_injector [(3, 0x40); (5, 0x80)] false false 2 0 0 0 false false 0 in
  let os := replicate 4 (mk_core_out true true None 0) in
  exists j' p', bench 2 1 false 9 os (j, sample_port) = Ok (j', p') /\ (history 2 1 false 9 os (j, sample_port)).1 = [0x40; 0x80] /\
    snoop_q j' = [] /\ snoop_busy j' = false /\ u64 (snoop_done_n j') = 2.
Proof.
  intros j os. apply (snoop_queue_drains 2 1 false os 9 j sample_port); try done; repeat constructor; cbn; lia.
Defined.
