(* ===== verification/Latency.v ===== *)
(** The latency of the memory port ([main] of [src/top.cc]): fixed, or drawn per
    request from a xorshift generator seeded by the environment.  A random
    latency stays within its bounds for the whole run, so every request of the
    core is answered within a bounded number of cycles. *)
From S2P Require Import Prelude Bits Insns State Mem Devices Bus BusProps PortProps Snoop.

(** ** The generator *)
(** [MEM_SEED], [MEM_LAT_MIN] and [MEM_LAT_MAX] as [strtoull] reads them, when set. *)
Record mem_env := mk_mem_env { MEM_SEED : option Z; MEM_LAT_MIN : option Z; MEM_LAT_MAX : option Z }.
(** The function-local statics. *)
Record latgen := mk_latgen { mls : Z; mli : bool; lmin : Z; lmax : Z }.
Definition latgen_init : latgen := mk_latgen 0 false 1 16.
Definition xorshift (x : Z) : Z :=
  let x := x .^ u64 (x << 13) in
  let x := x .^ (x >> 7) in
  x .^ u64 (x << 17).
Definition configure (e : mem_env) (g : latgen) : latgen :=
  if mli g then g
  else mk_latgen (default 0 (MEM_SEED e)) true (default (lmin g) (MEM_LAT_MIN e)) (default (lmax g) (MEM_LAT_MAX e)).
Definition draw (e : mem_env) (mem_lat : Z) (g : latgen) : result (Z * latgen) :=
  let g := configure e g in
  if mls g =/? 0 then
    let m := xorshift (mls g) in
    let span := u64 (lmax g - lmin g + 1) in
    if span =? 0 then Stop HostUB
    else Ok (u64 (lmin g + m mod span), mk_latgen m (mli g) (lmin g) (lmax g))
  else Ok (mem_lat, g).
(** The negative edge with its own latency: drawn when the port accepts. *)
Definition negedge_drawn (e : mem_env) (mem_lat : Z) (magic_halt : bool) (cycle : Z) (req : option request)
    (t : port * latgen) : result (port * latgen) :=
  let '(p, g) := t in
  let! (lat, g) := match accepted req p with Some _ => draw e mem_lat g | None => Ok (0, g) end in
  let! p := negedge magic_halt cycle lat req p in
  Ok (p, g).
(** [n] consecutive edges with the request held. *)
Fixpoint hold_drawn (e : mem_env) (mem_lat : Z) (magic_halt : bool) (r : request) (cycle : Z) (n : nat) (t : port * latgen)
  : result (port * latgen) :=
  match n with
  | O => Ok t
  | S n => let! t := negedge_drawn e mem_lat magic_halt cycle (Some r) t in
           hold_drawn e mem_lat magic_halt r (cycle + 1) n t
  end.

(** ** The generator never reaches zero *)
Lemma lxor_shl_zero x k : 0 < k -> in_u 64 x -> x .^ u64 (x << k) = 0 -> x = 0.
Proof.
  intros Hk Hx H%Z.lxor_eq. assert (forall i, 0 <= i -> Z.testbit x i = false) as Hz.
  { apply (Z_lt_induction (fun i => Z.testbit x i = false)). intros i IH.
    destruct (Z.neg_nonneg_cases i) as [|Hi]; [by apply Z.testbit_neg_r|]. rewrite H, testbit_wrapu by lia.
    destruct (Z.ltb_spec i 64); [|done]. destruct (Z.lt_ge_cases i k); [by rewrite Z.shiftl_spec_low by lia|].
    rewrite Z.shiftl_spec by lia. cbn [andb]. apply IH. lia. }
  apply Z.bits_inj'. intros i Hi. by rewrite Z.bits_0, Hz.
Qed.
Lemma lxor_shr_zero x k : 0 < k -> in_u 64 x -> x .^ (x >> k) = 0 -> x = 0.
Proof.
  intros Hk [Hx _] H%Z.lxor_eq. rewrite Z.shiftr_div_pow2 in H by lia.
  destruct (Z.eq_dec x 0) as [|Hne]; [done|]. pose proof (Z.pow_gt_1 2 k ltac:(lia)) as [Hp _].
  pose proof (Z.div_lt x (2 ^ k) ltac:(lia) ltac:(lia)). lia.
Qed.
Lemma xorshift_ok x : in_u 64 x -> x <> 0 -> in_u 64 (xorshift x) /\ xorshift x <> 0.
Proof.
  intros Hx Hne. unfold xorshift. cbv zeta. set (y := x .^ u64 (x << 13)). set (z := y .^ (y >> 7)).
  assert (in_u 64 y) as Hy by (apply in_u_lxor; [lia|done|by apply wrapu_range]).
  assert (in_u 64 z) as Hz by (apply in_u_lxor; [lia|done|by apply in_u_shr]).
  split; [apply in_u_lxor; [lia|done|by apply wrapu_range]|]. intros H%lxor_shl_zero; [|done..].
  apply lxor_shr_zero in H; [|done..]. by apply lxor_shl_zero in H.
Qed.

(** ** Draws *)
Section drawn.
Context (e : mem_env) (lo hi : Z).
(** The generator is seeded, or will be at its first draw. *)
Record seeded (g : latgen) : Prop := {
  sd_mls : in_u 64 (mls (configure e g));
  sd_live : mls (configure e g) <> 0;
  sd_min : lmin (configure e g) = lo;
  sd_max : lmax (configure e g) = hi;
}.
Lemma configure_idem g : mli g = true -> configure e g = g.
Proof. intros H. unfold configure. by rewrite H. Qed.
Lemma configure_on g : mli (configure e g) = true.
Proof. unfold configure. by destruct (mli g) eqn:E. Qed.
Lemma draw_seeded mem_lat g :
  seeded g -> 0 <= lo <= hi -> hi < 2 ^ 63 ->
  exists lat g', draw e mem_lat g = Ok (lat, g') /\ lo <= lat <= hi /\ seeded g'.
Proof.
  intros [Hm Hne Hlo Hhi] Hb Hh. unfold draw. cbv zeta. destruct (Z.eqb_spec (mls (configure e g)) 0); [done|]. cbn [negb].
  rewrite Hlo, Hhi, (wrapu_id 64 (hi - lo + 1)) by (unfold in_u; lia). destruct (Z.eqb_spec (hi - lo + 1) 0); [lia|].
  destruct (xorshift_ok _ Hm Hne) as [Hx Hxne]. pose proof (Z.mod_pos_bound (xorshift (mls (configure e g))) (hi - lo + 1) ltac:(lia)).
  eexists _, _. split; [done|]. rewrite wrapu_id by (unfold in_u; lia). split; [lia|].
  constructor; rewrite configure_idem by (cbn; apply configure_on); cbn; done.
Qed.
(** While the port waits nothing is drawn: the edges are those of the protocol. *)
Lemma hold_drawn_waiting mem_lat magic r c n g t p :
  mem_reply_cycle p = c -> reply p = None -> 0 <= c < 2 ^ 63 -> t + Z.of_nat n <= c ->
  exists p', hold_drawn e mem_lat magic r t n (p, g) = Ok (p', g) /\ waiting c p p'.
Proof.
  intros Hc Hrep Hr. revert t p Hc Hrep. induction n as [|n IH]; intros t p Hc Hrep Hlen; cbn [hold_drawn]; [by exists p|].
  unfold negedge_drawn, accepted. rewrite (proj2 (Z.eqb_neq (mem_reply_cycle p) (-1))) by lia. cbn [mbind result_bind].
  pose proof (accept_waiting c t 0 (Some r) p Hc ltac:(lia)) as Hw.
  rewrite (negedge_early magic c t 0 r p _ eq_refl Hw) by lia. cbn [mbind result_bind].
  destruct Hw as (Hc1&Hb1&Hs1&Hr1). destruct (IH (t + 1) _ Hc1 Hr1 ltac:(lia)) as (p'&Hh&Hc'&Hb'&Hs'&Hr').
  exists p'. split; [done|]. split_and!; congruence.
Qed.
Lemma hold_drawn_app mem_lat magic r t n m x :
  hold_drawn e mem_lat magic r t (n + m) x
  = hold_drawn e mem_lat magic r t n x ≫= hold_drawn e mem_lat magic r (t + Z.of_nat n) m.
Proof.
  revert t x; induction n as [|n IH]; intros t x; cbn [hold_drawn Nat.add].
  - cbn [mbind result_bind]. f_equal. lia.
  - rewrite result_bind_assoc. destruct (negedge_drawn _ _ _ _ _ _); cbn [mbind result_bind]; [|done].
    rewrite IH. replace (t + 1 + Z.of_nat n) with (t + Z.of_nat (S n)) by lia. done.
Qed.
End drawn.

(** Liveness of the memory port under random latencies: when the generator is
    seeded with bounds [lo <= hi], a request held by the core from cycle [t] on
    is answered after at most twice [hi] further cycles -- at the drawn latency,
    which lies within the bounds -- and the generator is left seeded with the
    same bounds, so that the next request is answered as well. *)
Theorem random_latency_bounded (e : mem_env) (lo hi mem_lat : Z) (magic_halt : bool) (r : request) (p : port) (g : latgen) (t : Z)
    (Hg : seeded e lo hi g) (Hlo : 0 <= lo <= hi) (Hi : mem_reply_cycle p = -1) (Ht : 0 <= t) (Hb : t + 2 * hi < 2 ^ 63) :
  exists lat g' res,
    lo <= lat <= hi /\ seeded e lo hi g' /\ latency r lat <= 2 * hi /\ answered magic_halt r p res /\
    hold_drawn e mem_lat magic_halt r t (S (Z.to_nat (latency r lat))) (p, g) = let! p' := res in Ok (p', g').
Proof.
  destruct (draw_seeded e lo hi mem_lat g Hg Hlo ltac:(lia)) as (lat & g' & Hd & Hlat & Hg'). exists lat, g'.
  assert (0 <= latency r lat <= 2 * hi) as Hn by (unfold latency; destruct (opcode r =? 4); lia).
  set (n := latency r lat) in *. pose proof (accept_idle t lat r p Hi Ht ltac:(fold n; lia) ltac:(fold n; lia)) as Hw. fold n in Hw.
  assert (forall k, hold_drawn e mem_lat magic_halt r t (S k) (p, g)
      = negedge magic_halt t lat (Some r) p ≫= fun p1 => hold_drawn e mem_lat magic_halt r (t + 1) k (p1, g')) as Hfirst.
  { intros k. cbn [hold_drawn]. unfold negedge_drawn, accepted. rewrite Hi. cbn [Z.eqb Pos.eqb]. rewrite Hd. cbn [mbind result_bind].
    by destruct (negedge magic_halt t lat (Some r) p). }
  destruct (Z.eq_dec n 0) as [E|Hne].
  - rewrite E, Z.add_0_r in Hw. exists (negedge magic_halt t lat (Some r) p). split; [done|]. split; [done|]. split; [lia|].
    split; [by eapply negedge_due; [done|done|lia]|]. rewrite E. apply (Hfirst 0%nat).
  - destruct (Z.to_nat n) as [|m] eqn:Em; [lia|].
    pose proof (negedge_early magic_halt (t + n) t lat r p _ eq_refl Hw ltac:(lia) ltac:(lia)) as H1.
    destruct Hw as (Hc1&Hb1&Hs1&Hr1).
    destruct (hold_drawn_waiting e mem_lat magic_halt r (t + n) m g' (t + 1) _ Hc1 Hr1 ltac:(lia) ltac:(lia)) as (p2&H2&Hc2&Hb2&Hs2&Hr2).
    exists (negedge magic_halt (t + n) 0 (Some r) p2). split; [done|]. split; [done|]. split; [lia|]. split.
    + apply (answered_frame _ _ p p2); [split_and!; congruence|].
      eapply negedge_due; [done | by apply accept_waiting; [|lia] | lia].
    + rewrite Hfirst, H1. cbn [mbind result_bind]. replace (S m) with (m + 1)%nat by lia. rewrite hold_drawn_app, H2.
      cbn [mbind result_bind hold_drawn]. replace (t + 1 + Z.of_nat m) with (t + n) by lia.
      unfold negedge_drawn, accepted. rewrite (proj2 (Z.eqb_neq (mem_reply_cycle p2) (-1))) by lia. cbn [mbind result_bind].
      by destruct (negedge magic_halt (t + n) 0 (Some r) p2).
Qed.
Definition sample_env : mem_env := mk_mem_env (Some 1) (Some 2) (Some 9).
Lemma random_latency_bounded_witness :
  let p := mk_port (-1) (mk_bus (mk_sparse_mem ∅ false) 0 None []) false None in
  exists lat g', 2 <= lat <= 9 /\ seeded sample_env 2 9 g' /\ draw sample_env 4 latgen_init = Ok (3, mk_latgen 1082269761 true 2 9).
Proof.
  intros p.
  destruct (random_latency_bounded sample_env 2 9 4 true (mk_request 4 0x100 0xffff []) p latgen_init 10) as (lat & g' & res & Hl & Hg & _);
    [constructor; try reflexivity; [split; [discriminate|reflexivity] | discriminate] | split; discriminate | reflexivity | discriminate | reflexivity |].
  exists lat, g'. split; [exact Hl|]. split; [exact Hg|]. vm_compute. reflexivity.
Defined.
(** Unseeded, the latency is the option [--memlat]; and a full range makes the
    span zero, a division by zero. *)
Lemma unseeded_latency e mem_lat g : mls (configure e g) = 0 -> draw e mem_lat g = Ok (mem_lat, configure e g).
Proof. intros H. unfold draw. by rewrite H. Qed.
Lemma full_range_divides_by_zero :
  draw (mk_mem_env (Some 1) (Some 0) (Some (2 ^ 64 - 1))) 4 latgen_init = Stop HostUB.
Proof. done. Qed.
