(* ===== verification/Stats.v ===== *)
(** The statistics the core reports to the test bench ([src/top.cc]): the event
    counters, the top-down accounting of dispatch slots, the retirement
    histograms, and the pipe trace.  Counters are [uint64_t] and wrap; a
    histogram is a finite map from the key to its count. *)
From S2P Require Import Prelude Bits Insns State Mem Exc Tlb.

(** [a[i] += n]. *)
Definition bump (i n : Z) (a : Zmap Z) : Zmap Z := wr i (u64 (a.[i] + n)) a.
(** The retired-instruction window: [record_insns_retired < pipestart || >= pipeend]. *)
Record window := mk_window { pipestart : Z; pipeend : Z }.
Definition outside (w : window) (record_insns_retired : Z) : bool :=
  (record_insns_retired <? pipestart w) || (pipeend w <=? record_insns_retired).

(** ** Event counters *)
Record counters := mk_counters {
  n_fetch : Zmap Z; n_resteer_bubble : Z; n_fq_full : Z;
  n_uq_full : Zmap Z; n_alloc : Zmap Z; n_rdy : Zmap Z;
  rob_full : Z; dq_empty : Z; uq_full : Z; n_active : Z;
}.
(** Which of the flags of a cycle is counted. *)
Definition first_flag (fs : list (bool * Z)) : Z :=
  foldr (fun (f : bool * Z) r => if f.1 then f.2 else r) 0 fs.
Definition record_fetch (p1 p2 p3 p4 bubble fq_full : Z) (c : counters) : counters :=
  mk_counters (bump (first_flag [(p1 =/? 0, 1); (p2 =/? 0, 2); (p3 =/? 0, 3); (p4 =/? 0, 4)]) 1 (n_fetch c))
    (u64 (n_resteer_bubble c + bubble)) (u64 (n_fq_full c + fq_full))
    (n_uq_full c) (n_alloc c) (n_rdy c) (rob_full c) (dq_empty c) (uq_full c) (n_active c).
Definition record_alloc (rf a1 a2 de f1 f2 r1 r2 active : Z) (c : counters) : counters :=
  mk_counters (n_fetch c) (n_resteer_bubble c) (n_fq_full c)
    (bump (first_flag [(f2 =/? 0, 2); (f1 =/? 0, 1)]) 1 (n_uq_full c))
    (bump (first_flag [(a2 =/? 0, 2); (a1 =/? 0, 1)]) 1 (n_alloc c))
    (bump (first_flag [(r2 =/? 0, 2); (r1 =/? 0, 1)]) 1 (n_rdy c))
    (u64 (rob_full c + rf)) (u64 (dq_empty c + de)) (u64 (uq_full c + f1)) (u64 (n_active c + active)).
(** [__builtin_popcount]. *)
Definition builtin_popcount (x : Z) : Z :=
  foldr (fun i n => Z.b2z (Z.testbit (u32 x) i) + n) 0 (map Z.of_nat (seq 0 32)).
Record exec_stats := mk_exec { n_int_exec : Zmap Z; n_mem_exec : Zmap Z; q_full : Zmap Z; int_sched_rdy_map : Zmap Z }.
Definition report_exec (int_valid int_ready mem_valid mem_ready intq_full memq_full fpq_full blocked_by_store ready_int : Z)
    (c : exec_stats) : exec_stats :=
  mk_exec (bump 1 int_ready (bump 0 int_valid (n_int_exec c)))
    (bump 2 blocked_by_store (bump 1 mem_ready (bump 0 mem_valid (n_mem_exec c))))
    (bump 2 fpq_full (bump 1 memq_full (bump 0 intq_full (q_full c))))
    (bump (builtin_popcount ready_int) 1 (int_sched_rdy_map c)).
(** The L1D report: the stall array has 8 counters, the index keeps 4 bits. *)
Record l1d_stats := mk_l1d { l1d_reqs : Z; l1d_acks : Z; l1d_stores : Z; block_distribution : Zmap Z; l1d_stall_reasons : Zmap Z }.
Definition record_l1d (req ack ack_st blocked stall_reason : Z) (c : l1d_stats) : result l1d_stats :=
  let r := stall_reason .& 15 in
  if 8 <=? r then Stop HostUB
  else Ok (mk_l1d (u64 (l1d_reqs c + req)) (u64 (l1d_acks c + ack)) (u64 (l1d_stores c + ack_st))
             (bump (builtin_popcount blocked) 1 (block_distribution c)) (bump r 1 (l1d_stall_reasons c))).
Definition record_branches (n_branches : Z) (branch_distribution : Zmap Z) : Zmap Z := bump n_branches 1 branch_distribution.
Definition record_ds_restart (cycles : Z) (restart_ds_distribution : Zmap Z) : Zmap Z := bump cycles 1 restart_ds_distribution.
(** Fault-to-restart latencies. *)
Record fault_stats := mk_faults {
  fault_distribution : Zmap Z; restart_distribution : Zmap Z; fault_to_restart_distribution : Zmap Z;
  pending_fault : bool; fault_start_cycle : Z;
}.
Definition record_faults (cycle n_faults : Z) (f : fault_stats) : fault_stats :=
  let start := (n_faults =/? 0) && negb (pending_fault f) in
  mk_faults (bump n_faults 1 (fault_distribution f)) (restart_distribution f) (fault_to_restart_distribution f)
    (if start then true else pending_fault f) (if start then cycle else fault_start_cycle f).
Definition record_restart (cycle cycles : Z) (f : fault_stats) : fault_stats :=
  mk_faults (fault_distribution f) (bump cycles 1 (restart_distribution f))
    (bump (s32 (cycle - fault_start_cycle f)) 1 (fault_to_restart_distribution f)) false 0.

(** ** Top-down accounting *)
Module topdown.
Record t := mk {
  enabled : bool; cycles : Z; retired : Z; allocated : Z; fe_lat : Z; fe_bw : Z;
  be : Zmap Z; state_cyc : Zmap Z;
  f_cyc : Z; f_insns : Z; f_why_cyc : Zmap Z; f_why_insns : Zmap Z; f_npush : Zmap Z; f_fqcnt : Zmap Z;
}.
Definition init (enabled : bool) : t := mk enabled 0 0 0 0 0 ∅ ∅ 0 0 ∅ ∅ ∅ ∅.
(** One cycle of the core: its state, the uops offered, allocated and retired, and
    why an offered slot did not allocate. *)
Definition topdown_cycle (w : window) (n_ret st avail nalloc nret be0 be1 : Z) (t : t) : topdown.t :=
  if negb (enabled t) || outside w n_ret then t else
  let active := st =? 2 in
  let b := if active && (be0 =/? 0) then bump (be0 .& 7) avail (be t) else be t in
  let b := if active && (be1 =/? 0) then bump (be1 .& 7) 1 b else b in
  mk (enabled t) (u64 (cycles t + 1)) (u64 (retired t + nret)) (u64 (allocated t + nalloc))
    (if active && (avail =? 0) then u64 (fe_lat t + 2) else fe_lat t)
    (if active && (avail =? 1) then u64 (fe_bw t + 1) else fe_bw t)
    b (bump (st .& 31) 1 (state_cyc t))
    (f_cyc t) (f_insns t) (f_why_cyc t) (f_why_insns t) (f_npush t) (f_fqcnt t).
Definition topdown_fetch (w : window) (n_ret npush why fq_cnt : Z) (t : t) : topdown.t :=
  if negb (enabled t) || outside w n_ret then t else
  mk (enabled t) (cycles t) (retired t) (allocated t) (fe_lat t) (fe_bw t) (be t) (state_cyc t)
    (u64 (f_cyc t + 1)) (u64 (f_insns t + npush)) (bump (why .& 15) 1 (f_why_cyc t))
    (bump (why .& 15) npush (f_why_insns t)) (bump (npush .& 7) 1 (f_npush t)) (bump (fq_cnt .& 63) 1 (f_fqcnt t)).
(** The sums of the report: the numerators, in slots, of the four fractions. *)
Definition upto (n : nat) : list Z := map Z.of_nat (seq 0 n).
Definition is_recovery (i : Z) : bool := existsb (Z.eqb i) [3; 4; 5; 9; 10; 11; 12; 13].
Definition recov (t : t) : Z :=
  foldl (fun a i => if is_recovery i then u64 (a + (state_cyc t).[i]) else a) 0 (upto 16).
Definition serial (t : t) : Z :=
  foldl (fun a i => if is_recovery i then a else if i =/? 2 then u64 (a + (state_cyc t).[i]) else a) 0 (upto 16).
Definition be_sum (t : t) : Z := foldl (fun a i => u64 (a + (be t).[i])) 0 (tail (upto 8)).
Definition squashed (t : t) : Z := if retired t <? allocated t then allocated t - retired t else 0.
Definition retiring (t : t) : Z := retired t.
Definition bad_speculation (t : t) : Z := squashed t + 2 * recov t.
Definition frontend_bound (t : t) : Z := u64 (fe_lat t + fe_bw t).
Definition backend_bound (t : t) : Z := be_sum t + 2 * serial t.
(** The stage stamps of a reorder-buffer slot. *)
Record stamp_t := mk_stamp { st_a : Z; st_q : Z; st_i : Z; st_m : Z }.
#[export] Instance zero_stamp : Zero stamp_t := mk_stamp 0 0 0 0.
Definition topdown_uop (enabled : bool) (cycle ev rob_ptr : Z) (slot : Zmap stamp_t) : Zmap stamp_t :=
  if negb enabled then slot else
  let r := rob_ptr .& 63 in
  let e := slot.[r] in
  match ev with
  | 0 => wr r (mk_stamp cycle 0 0 0) slot
  | 1 => wr r (mk_stamp (st_a e) cycle (st_i e) (st_m e)) slot
  | 2 => wr r (mk_stamp (st_a e) (st_q e) cycle (st_m e)) slot
  | 3 => wr r (mk_stamp (st_a e) (st_q e) (st_i e) cycle) slot
  | _ => slot
  end.
End topdown.

(** ** Retirement *)
(** [get_insn]: the instruction word in physical memory. *)
Definition get_insn (pc : Z) (s : state) : result Z :=
  let! w := get 4 (u32 pc) s in Ok (bswap false 4 w).
Definition check_insn_bytes (pc data : Z) (s : state) : result bool :=
  let! insn := get_insn pc s in Ok (u32 data =? insn).
(** A record of the pipe trace; the disassembly is a function of the word and pc. *)
Record pipe_record := mk_pipe_record {
  r_uuid : Z; r_insn : Z; r_pc : Z; r_fetch : Z; r_alloc : Z; r_complete : Z; r_retire : Z; r_faulted : bool;
  r_events : list (Z * Z);
}.
Record retirement := mk_retirement {
  record_insns_retired : Z; lrc : Z; last_retire_cycle : Z; last_retire_pc : Z;
  mem_lat_map : Zmap Z; fp_lat_map : Zmap Z; non_mem_lat_map : Zmap Z; retire_map : Zmap Z;
  l1d_misses : Z; l1d_insns : Z;
  pl : option (list pipe_record); pt_ev : Z -> list (Z * Z); pt_cur : Z;
}.
Definition retirement_init (logging : bool) : retirement :=
  mk_retirement 0 (-1) 0 0 ∅ ∅ ∅ ∅ 0 0 (if logging then Some [] else None) (fun _ => []) (-1).
Definition with_pt (ev : Z -> list (Z * Z)) (cur : Z) (t : retirement) : retirement :=
  mk_retirement (record_insns_retired t) (lrc t) (last_retire_cycle t) (last_retire_pc t)
    (mem_lat_map t) (fp_lat_map t) (non_mem_lat_map t) (retire_map t) (l1d_misses t) (l1d_insns t) (pl t) ev cur.
Definition upd (i : Z) (l : list (Z * Z)) (ev : Z -> list (Z * Z)) : Z -> list (Z * Z) :=
  fun k => if k =? i then l else ev k.
Definition pt_alloc (rob_ptr : Z) (t : retirement) : retirement :=
  with_pt (upd (rob_ptr .& 63) [] (pt_ev t)) (pt_cur t) t.
Definition pt_event (rob_ptr letter cycle : Z) (t : retirement) : retirement :=
  match pl t with
  | Some _ => with_pt (upd (rob_ptr .& 63) (pt_ev t (rob_ptr .& 63) ++ [(u64 cycle, s8 letter)]) (pt_ev t)) (pt_cur t) t
  | None => t
  end.
Definition pt_retire (rob_ptr : Z) (t : retirement) : retirement := with_pt (pt_ev t) (rob_ptr .& 63) t.
(** The cycles a retiring instruction reports, and its class. *)
Record retired_insn := mk_retired {
  i_pc : Z; i_fetch : Z; i_alloc : Z; i_complete : Z; i_retire : Z; i_faulted : Z; i_is_mem : Z; i_is_fp : Z; i_missed : Z;
}.
Definition record_retirement (w : window) (s : state) (i : retired_insn) (t : retirement) : result retirement :=
  let! _ := get_insn (i_pc i) s in
  if i_retire i <? lrc t then Stop HostExit else
  let delta := u64 (i_retire i - last_retire_cycle t) in
  let lat := s32 (i_complete i - i_alloc i) in
  let mem := i_is_mem i =/? 0 in let fp := negb mem && (i_is_fp i =/? 0) in
  let n := record_insns_retired t in
  let! log :=
    match pl t with
    | Some l =>
        if outside w n then Ok (Some l) else
        let! insn := get_insn (va2pa (u32 (i_pc i))) s in
        Ok (Some (l ++ [mk_pipe_record n insn (u64 (i_pc i)) (u64 (i_fetch i)) (u64 (i_alloc i)) (u64 (i_complete i))
                          (u64 (i_retire i)) (i_faulted i =/? 0) (if 0 <=? pt_cur t then pt_ev t (pt_cur t) else [])]))
    | None => Ok None
    end in
  Ok (mk_retirement (u64 (n + 1)) (i_retire i) (u64 (i_retire i)) (u64 (i_pc i))
        (if mem then bump lat 1 (mem_lat_map t) else mem_lat_map t)
        (if fp then bump lat 1 (fp_lat_map t) else fp_lat_map t)
        (if mem || fp then non_mem_lat_map t else bump lat 1 (non_mem_lat_map t))
        (bump delta 1 (retire_map t))
        (if i_missed i =/? 0 then u64 (l1d_misses t + 1) else l1d_misses t)
        (u64 (l1d_insns t + i_is_mem i)) log (pt_ev t) (-1)).

(** ** Histogram summary *)
(** The median of [histo_mean_median], over the histogram in key order. *)
Fixpoint median_from (half x : Z) (h : list (Z * Z)) (median : Z) : Z :=
  match h with
  | [] => median
  | (k, n) :: h => let x := u64 (x + n) in if half <=? x then k else median_from half x h median
  end.
Definition histo_median (h : list (Z * Z)) (median : Z) : Z :=
  match h with
  | [] => 0
  | _ => median_from (foldl (fun c p => u64 (c + p.2)) 0 h / 2) 0 h median
  end.
