(* ===== verification/StatsProps.v ===== *)
(** Properties of the statistics: the top-down categories account for every
    dispatch slot; the pipe trace holds the retirements of its window, each with
    the events of its slot; the errors of the reporting functions. *)
From S2P Require Import Prelude Bits Insns State Mem Exc Tlb Stats.
Import topdown.

(** ** The core's contract *)
(** What one cycle reports, with the retired-instruction count it is reported at. *)
Record report := mk_report { p_n : Z; p_st : Z; p_avail : Z; p_nalloc : Z; p_nret : Z; p_be0 : Z; p_be1 : Z }.
Definition apply_report (w : window) (t : topdown.t) (r : report) : topdown.t :=
  topdown_cycle w (p_n r) (p_st r) (p_avail r) (p_nalloc r) (p_nret r) (p_be0 r) (p_be1 r) t.
(** The reporting logic of the core: at most two uops are offered, allocated and
    retired; in the ACTIVE state an allocated uop was offered, and the first or
    second offered slot has a reason exactly when it did not allocate. *)
Definition report_ok (r : report) : Prop :=
  0 <= p_st r < 16 /\ 0 <= p_avail r <= 2 /\ 0 <= p_nalloc r <= 2 /\ 0 <= p_nret r <= 2 /\
  0 <= p_be0 r < 8 /\ 0 <= p_be1 r < 8 /\
  (p_st r = 2 -> p_nalloc r <= p_avail r /\
     (p_be0 r <> 0 <-> p_avail r <> 0 /\ p_nalloc r = 0) /\ (p_be1 r <> 0 <-> p_avail r = 2 /\ p_nalloc r = 1)).
Definition in_window (w : window) (r : report) : bool := negb (outside w (p_n r)).
(** The sum of a counter array over some indices; a sum over reports. *)
Fixpoint tot (l : list Z) (a : Zmap Z) : Z := match l with [] => 0 | i :: l => a.[i] + tot l a end.
Fixpoint sum_of (f : report -> Z) (rs : list report) : Z := match rs with [] => 0 | r :: rs => f r + sum_of f rs end.
(** Uops the core allocated outside the ACTIVE state. *)
Definition elsewhere (w : window) (rs : list report) : Z :=
  sum_of (fun r => if in_window w r && (p_st r =/? 2) then p_nalloc r else 0) rs.

(** * Theorems *)
Section tot.
Implicit Types (a : Zmap Z) (l : list Z).
Lemma tot_nonneg l a : (forall i, 0 <= a.[i]) -> 0 <= tot l a.
Proof. intros Ha. induction l as [|i l IH]; cbn; [lia|]. pose proof (Ha i). lia. Qed.
Lemma tot_in l a i : (forall i, 0 <= a.[i]) -> i ∈ l -> a.[i] <= tot l a.
Proof.
  intros Ha. induction l as [|k l IH]; intros Hi; [by apply not_elem_of_nil in Hi|]. cbn.
  pose proof (tot_nonneg l a Ha). pose proof (Ha k). apply elem_of_cons in Hi as [->|Hi]; [lia|]. specialize (IH Hi). lia.
Qed.
Lemma tot_bump_out l a i n : i ∉ l -> tot l (bump i n a) = tot l a.
Proof.
  induction l as [|k l IH]; intros Hi; [done|]. apply not_elem_of_cons in Hi as [? Hi]. cbn.
  unfold bump at 1. rewrite rd_wr_ne by done. by rewrite IH.
Qed.
Lemma tot_bump l a i n : NoDup l -> i ∈ l -> in_u 64 (a.[i] + n) -> tot l (bump i n a) = tot l a + n.
Proof.
  intros Hn Hi Hr. induction l as [|k l IH]; [by apply not_elem_of_nil in Hi|]. apply NoDup_cons in Hn as [Hk Hn]. cbn.
  apply elem_of_cons in Hi as [->|Hi].
  - rewrite tot_bump_out by done. unfold bump. rewrite rd_wr_eq, wrapu_id by done. lia.
  - rewrite IH by done. unfold bump. rewrite rd_wr_ne by (by intros ->). lia.
Qed.
Lemma bump_nonneg a i n : (forall i, 0 <= a.[i]) -> forall k, 0 <= (bump i n a).[k].
Proof. intros Ha k. unfold bump. rewrite rd_wr. case_match; [by apply wrapu_range|done]. Qed.
Lemma bump_other a i n k : i <> k -> (bump i n a).[k] = a.[k].
Proof. intros. unfold bump. by rewrite rd_wr_ne. Qed.
Lemma bump_same a i n : in_u 64 (a.[i] + n) -> (bump i n a).[i] = a.[i] + n.
Proof. intros. unfold bump. by rewrite rd_wr_eq, wrapu_id. Qed.
(** The report's sums do not wrap. *)
Lemma fold_tot (p : Z -> bool) l a x : (forall i, 0 <= a.[i]) -> 0 <= x -> x + tot l a < 2 ^ 64 ->
  foldl (fun s i => if p i then u64 (s + a.[i]) else s) x l = x + tot (filter (fun i => p i = true) l) a.
Proof.
  intros Ha. revert x. induction l as [|i l IH]; intros x Hx Hb; cbn [foldl tot] in *.
  - cbn. lia.
  - pose proof (Ha i). pose proof (tot_nonneg l a Ha). rewrite filter_cons. destruct (p i).
    + rewrite wrapu_id by (unfold in_u; lia). rewrite IH by lia. rewrite decide_True by done. cbn [tot]. lia.
    + rewrite decide_False by done. apply IH; [done|lia..].
Qed.
End tot.

(** ** The accounting invariant *)
Abbreviation reasons := (tail (upto 8)).
(** [k] cycles counted, [out] uops allocated outside the ACTIVE state. *)
Record td_inv (k out : Z) (t : topdown.t) : Prop := {
  ti_enabled : enabled t = true;
  ti_cycles : cycles t = k;
  ti_states : tot (upto 16) (state_cyc t) = k;
  ti_slots : fe_lat t + fe_bw t + tot reasons (be t) + allocated t = 2 * (state_cyc t).[2] + out;
  ti_pos : 0 <= fe_lat t /\ 0 <= fe_bw t /\ 0 <= allocated t /\ 0 <= retired t <= 2 * k /\ 0 <= out <= 2 * k;
  ti_be : forall i, 0 <= (be t).[i];
  ti_st : forall i, 0 <= (state_cyc t).[i];
}.
Lemma upto_in n i : 0 <= i < Z.of_nat n -> i ∈ upto n.
Proof.
  intros Hi. unfold upto. apply list_elem_of_fmap. exists (Z.to_nat i). split; [lia|]. apply elem_of_seq. lia.
Qed.
Lemma NoDup_upto n : NoDup (upto n).
Proof. unfold upto. apply (NoDup_fmap_2 Z.of_nat), NoDup_seq. Qed.
Lemma reasons_in i : 1 <= i < 8 -> i ∈ reasons.
Proof. intros Hi. pose proof (upto_in 8 i ltac:(lia)) as H. cbn in H |- *. apply elem_of_cons in H as [?|H]; [lia|done]. Qed.
Lemma NoDup_reasons : NoDup reasons.
Proof. pose proof (NoDup_upto 8) as H. cbn in H |- *. by apply NoDup_cons in H as [_ H]. Qed.
Lemma land_small i n : 0 <= n -> 0 <= i < 2 ^ n -> i .& Z.ones n = i.
Proof. intros. rewrite Z.land_ones by done. by apply Z.mod_small. Qed.

Lemma td_inv_init : td_inv 0 0 (init true).
Proof. split; try done; intros i; cbn [init be state_cyc]; by rewrite rd_empty. Qed.
Lemma td_bounds k out t : td_inv k out t ->
  (state_cyc t).[2] <= k /\ tot reasons (be t) <= 4 * k /\ fe_lat t <= 4 * k /\ fe_bw t <= 4 * k /\ allocated t <= 4 * k.
Proof.
  intros [_ _ Hs Hsl Hp Hb Hst]. pose proof (tot_in (upto 16) _ 2 Hst (upto_in 16 2 ltac:(lia))).
  pose proof (tot_nonneg reasons _ Hb). lia.
Qed.
(** The slots a reason takes. *)
Lemma be_step a avail be0 be1 :
  (forall i, 0 <= a.[i]) -> tot reasons a < 2 ^ 63 -> 0 <= avail <= 2 -> 0 <= be0 < 8 -> 0 <= be1 < 8 ->
  let b := if be0 =/? 0 then bump (be0 .& 7) avail a else a in
  let c := if be1 =/? 0 then bump (be1 .& 7) 1 b else b in
  tot reasons c = tot reasons a + (if be0 =/? 0 then avail else 0) + (if be1 =/? 0 then 1 else 0) /\ forall i, 0 <= c.[i].
Proof.
  intros Ha Hb Hav H0 H1 b c.
  assert (tot reasons b = tot reasons a + (if be0 =/? 0 then avail else 0) /\ forall i, 0 <= b.[i]) as [Hb' Hbn].
  { unfold b. destruct (Z.eqb_spec be0 0); cbn [negb]; [split; [lia|done]|].
    change 7 with (Z.ones 3). rewrite land_small by (done || lia). split; [|by apply bump_nonneg].
    pose proof (tot_in reasons a be0 Ha (reasons_in be0 ltac:(lia))). pose proof (Ha be0).
    apply tot_bump; [apply NoDup_reasons|apply reasons_in; lia|unfold in_u; lia]. }
  assert (tot reasons b < 2 ^ 63 + 2) as Hlt by (rewrite Hb'; destruct (be0 =/? 0); lia).
  unfold c. destruct (Z.eqb_spec be1 0); cbn [negb]; [split; [lia|done]|].
  change 7 with (Z.ones 3). rewrite land_small by (done || lia). split; [|by apply bump_nonneg].
  pose proof (tot_in reasons b be1 Hbn (reasons_in be1 ltac:(lia))). pose proof (Hbn be1).
  rewrite tot_bump; [lia|apply NoDup_reasons|apply reasons_in; lia|unfold in_u; lia].
Qed.
Lemma td_inv_step w k out t r : td_inv k out t -> 0 <= k < 2 ^ 60 -> report_ok r -> in_window w r = true ->
  td_inv (k + 1) (out + if p_st r =/? 2 then p_nalloc r else 0) (apply_report w t r).
Proof.
  intros Hi Hk (Hst & Hav & Hna & Hnr & H0 & H1 & Hact) Hw. pose proof (td_bounds _ _ _ Hi) as (Hb2 & Hbr & Hfl & Hfb & Hal).
  destruct Hi as [He Hc Hs Hsl Hp Hbe Hstn].
  unfold apply_report, topdown_cycle. apply negb_true_iff in Hw. rewrite He, Hw. cbn [negb orb].
  assert (p_st r .& 31 = p_st r) as -> by (change 31 with (Z.ones 5); apply land_small; lia).
  pose proof (tot_in (upto 16) _ (p_st r) Hstn (upto_in 16 (p_st r) ltac:(lia))) as Hle. pose proof (Hstn (p_st r)).
  assert (tot (upto 16) (bump (p_st r) 1 (state_cyc t)) = k + 1) as Hs'.
  { rewrite tot_bump; [lia|apply NoDup_upto|apply upto_in; lia|unfold in_u; lia]. }
  destruct (be_step (be t) (p_avail r) (p_be0 r) (p_be1 r) Hbe ltac:(lia) Hav H0 H1) as [Hbt Hbn]. cbv zeta in *.
  destruct (Z.eqb_spec (p_st r) 2) as [E|E]; cbn [negb andb].
  - specialize (Hact E). rewrite E in *. split; cbn [enabled cycles state_cyc fe_lat fe_bw be allocated retired]; try done.
    + rewrite wrapu_id by (unfold in_u; lia). lia.
    + rewrite Hbt, bump_same by (unfold in_u; lia). rewrite (wrapu_id 64 (allocated t + _)) by (unfold in_u; lia).
      destruct (Z.eqb_spec (p_avail r) 0), (Z.eqb_spec (p_avail r) 1), (Z.eqb_spec (p_be0 r) 0), (Z.eqb_spec (p_be1 r) 0);
        cbn [negb]; rewrite ?(wrapu_id 64 (fe_lat t + 2)), ?(wrapu_id 64 (fe_bw t + 1)) by (unfold in_u; lia); lia.
    + rewrite (wrapu_id 64 (allocated t + _)), (wrapu_id 64 (retired t + _)) by (unfold in_u; lia).
      destruct (p_avail r =? 0), (p_avail r =? 1); rewrite ?(wrapu_id 64 (fe_lat t + 2)), ?(wrapu_id 64 (fe_bw t + 1)) by (unfold in_u; lia); lia.
    + by apply bump_nonneg.
  - split; cbn [enabled cycles state_cyc fe_lat fe_bw be allocated retired]; try done.
    + rewrite wrapu_id by (unfold in_u; lia). lia.
    + rewrite bump_other by done. rewrite wrapu_id by (unfold in_u; lia). lia.
    + rewrite !wrapu_id by (unfold in_u; lia). lia.
    + by apply bump_nonneg.
Qed.
Lemma td_inv_run w rs k out t : td_inv k out t -> 0 <= k -> k + Z.of_nat (length rs) < 2 ^ 60 -> Forall report_ok rs ->
  td_inv (k + sum_of (fun r => Z.b2z (in_window w r)) rs) (out + elsewhere w rs) (foldl (apply_report w) t rs).
Proof.
  revert k out t. induction rs as [|r rs IH]; intros k out t Hi Hk Hb Hok; cbn [foldl elsewhere sum_of length] in *.
  - by rewrite !Z.add_0_r.
  - apply Forall_cons in Hok as [Hr Hok]. rewrite !Z.add_assoc. unfold elsewhere in IH.
    destruct (in_window w r) eqn:Hw; cbn [andb Z.b2z].
    + apply IH; try done; [|lia..]. apply td_inv_step; done || lia.
    + rewrite !Z.add_0_r. apply IH; try done; [|lia]. unfold apply_report, topdown_cycle.
      unfold in_window in Hw. apply negb_false_iff in Hw. by rewrite Hw, orb_true_r.
Qed.

(** ** The sums of the report *)
Lemma recov_tot t : (forall i, 0 <= (state_cyc t).[i]) -> tot (upto 16) (state_cyc t) < 2 ^ 64 ->
  recov t = tot (filter (fun i => is_recovery i = true) (upto 16)) (state_cyc t).
Proof. intros. unfold recov. rewrite (fold_tot is_recovery) by (done || lia). lia. Qed.
Lemma serial_tot t : (forall i, 0 <= (state_cyc t).[i]) -> tot (upto 16) (state_cyc t) < 2 ^ 64 ->
  serial t = tot (filter (fun i => negb (is_recovery i) && (i =/? 2) = true) (upto 16)) (state_cyc t).
Proof.
  intros Hn Hb. set (p := fun i => negb (is_recovery i) && (i =/? 2)).
  pose proof (fold_tot p (upto 16) (state_cyc t) 0 Hn ltac:(lia) ltac:(lia)) as H.
  rewrite Z.add_0_l in H. unfold p in *. rewrite <- H. unfold serial.
  assert (forall l x, foldl (fun a i => if is_recovery i then a else if i =/? 2 then u64 (a + (state_cyc t).[i]) else a) x l =
    foldl (fun s i => if negb (is_recovery i) && (i =/? 2) then u64 (s + (state_cyc t).[i]) else s) x l) as E; [|apply E].
  intros l. induction l as [|i l IH]; intros x; cbn [foldl]; [done|]. rewrite IH. by destruct (is_recovery i).
Qed.
Lemma states_split a : tot (upto 16) a =
  tot (filter (fun i => is_recovery i = true) (upto 16)) a +
  tot (filter (fun i => negb (is_recovery i) && (i =/? 2) = true) (upto 16)) a + a.[2].
Proof.
  replace (filter (fun i => is_recovery i = true) (upto 16)) with [3; 4; 5; 9; 10; 11; 12; 13] by by vm_compute.
  replace (filter (fun i => negb (is_recovery i) && (i =/? 2) = true) (upto 16)) with [0; 1; 6; 7; 8; 14; 15] by by vm_compute.
  replace (upto 16) with [0; 1; 2; 3; 4; 5; 6; 7; 8; 9; 10; 11; 12; 13; 14; 15] by by vm_compute. cbn [tot]. lia.
Qed.
Lemma be_sum_tot t : (forall i, 0 <= (be t).[i]) -> tot reasons (be t) < 2 ^ 64 -> be_sum t = tot reasons (be t).
Proof.
  intros Hn Hb. pose proof (fold_tot (fun _ => true) reasons (be t) 0 Hn ltac:(lia) ltac:(lia)) as H.
  rewrite Z.add_0_l in H. unfold be_sum. rewrite H. f_equal.
Qed.

(** The top-down categories account for every dispatch slot.  After any cycles
    of a core that keeps the reporting contract, the four numerators of the report
    (retiring, bad speculation, frontend bound, backend bound) sum to two slots
    per counted cycle, plus the uops allocated outside the ACTIVE state, which are
    counted both as allocated and as a lost slot, plus any excess of retired over
    allocated uops; and the cycles counted are exactly those in the window. *)
Theorem topdown_slots_add_up (w : window) (rs : list report)
  (Hok : Forall report_ok rs) (Hn : Z.of_nat (length rs) < 2 ^ 60) :
  let t := foldl (apply_report w) (init true) rs in
  cycles t = sum_of (fun r => Z.b2z (in_window w r)) rs /\
  retiring t + bad_speculation t + frontend_bound t + backend_bound t =
    2 * cycles t + elsewhere w rs + Z.max 0 (retired t - allocated t).
Proof.
  intros t. pose proof (td_inv_run w rs 0 0 (init true) td_inv_init ltac:(lia) ltac:(lia) Hok) as Hi.
  fold t in Hi. set (k := 0 + _) in Hi. set (out := 0 + _) in Hi.
  assert (0 <= k <= Z.of_nat (length rs)) as Hk.
  { unfold k. clear. induction rs as [|r rs IH]; cbn [sum_of length]; [lia|]. destruct (in_window w r); cbn [Z.b2z]; lia. }
  pose proof (td_bounds _ _ _ Hi) as Hb. destruct Hi as [He Hc Hs Hsl Hp Hbe Hst].
  pose proof (states_split (state_cyc t)). pose proof (tot_nonneg reasons _ Hbe).
  split; [unfold k in Hc; lia|]. unfold retiring, bad_speculation, frontend_bound, backend_bound, squashed.
  rewrite recov_tot, serial_tot, be_sum_tot by (done || lia). rewrite wrapu_id by (unfold in_u; lia).
  unfold out in *. destruct (Z.ltb_spec (retired t) (allocated t)); lia.
Qed.
Lemma topdown_slots_add_up_witness :
  let w := mk_window 0 100 in
  let rs := [mk_report 0 2 2 2 0 0 0; mk_report 1 2 2 1 1 0 7; mk_report 2 2 1 0 2 4 0; mk_report 4 2 0 0 0 0 0; mk_report 4 3 0 0 0 0 0] in
  let t := foldl (apply_report w) (init true) rs in
  Forall report_ok rs /\ cycles t = 5 /\ retiring t + bad_speculation t + frontend_bound t + backend_bound t = 10.
Proof.
  intros w rs t. assert (Forall report_ok rs) as Hok by (repeat (apply Forall_cons_2; [unfold report_ok; cbn; lia|]); apply Forall_nil_2).
  split; [done|]. destruct (topdown_slots_add_up w rs Hok eq_refl) as [Hc Hs]. fold t in Hc, Hs.
  split; [rewrite Hc; reflexivity|]. rewrite Hs. vm_compute. reflexivity.
Defined.

(** ** The pipe trace *)
(** What the core reports about retirement, in order. *)
Inductive pipe_op :=
  | Alloc (rob_ptr : Z) | Event (rob_ptr letter cycle : Z) | Retire (rob_ptr : Z) (i : retired_insn).
Definition pipe_step (w : window) (s : state) (o : pipe_op) (t : retirement) : result retirement :=
  match o with
  | Alloc r => Ok (pt_alloc r t)
  | Event r l c => Ok (pt_event r l c t)
  | Retire r i => record_retirement w s i (pt_retire r t)
  end.
Fixpoint pipe_run (w : window) (s : state) (os : list pipe_op) (t : retirement) : result retirement :=
  match os with [] => Ok t | o :: os => let! t := pipe_step w s o t in pipe_run w s os t end.
(** Reference: the events of the slot since its last allocation. *)
Definition ev_step (slot : Z) (acc : list (Z * Z)) (o : pipe_op) : list (Z * Z) :=
  match o with
  | Alloc r => if slot =? r .& 63 then [] else acc
  | Event r l c => if slot =? r .& 63 then acc ++ [(u64 c, s8 l)] else acc
  | Retire _ _ => acc
  end.
Definition events_of (slot : Z) (os : list pipe_op) : list (Z * Z) := foldl (ev_step slot) [] os.
Definition retirements (os : list pipe_op) : list retired_insn :=
  omap (fun o => match o with Retire _ i => Some i | _ => None end) os.
(** Reference: the records of the trace, from the operations before and after. *)
Fixpoint trace_of (w : window) (s : state) (n : Z) (before os : list pipe_op) : result (list pipe_record) :=
  match os with
  | [] => Ok []
  | Retire r i :: rest =>
      let! l := trace_of w s (n + 1) (before ++ [Retire r i]) rest in
      if outside w n then Ok l else
      let! insn := get_insn (va2pa (u32 (i_pc i))) s in
      Ok (mk_pipe_record n insn (u64 (i_pc i)) (u64 (i_fetch i)) (u64 (i_alloc i)) (u64 (i_complete i))
            (u64 (i_retire i)) (i_faulted i =/? 0) (events_of (r .& 63) before) :: l)
  | o :: rest => trace_of w s n (before ++ [o]) rest
  end.
(** Retirements with a latency [k] in a class. *)
Definition latency (i : retired_insn) : Z := s32 (i_complete i - i_alloc i).
Definition is_mem (i : retired_insn) : bool := i_is_mem i =/? 0.
Definition is_fp (i : retired_insn) : bool := negb (is_mem i) && (i_is_fp i =/? 0).
Definition is_other (i : retired_insn) : bool := negb (is_mem i) && negb (is_fp i).
Definition count (p : retired_insn -> bool) (is_ : list retired_insn) : Z := Z.of_nat (length (filter (fun i => p i = true) is_)).
(** The retirement cycles never decrease. *)
Fixpoint ordered (last : Z) (is_ : list retired_insn) : bool :=
  match is_ with [] => true | i :: is_ => (last <=? i_retire i) && ordered (i_retire i) is_ end.
(** The words at the pc and at its physical image are inside the mapping. *)
Definition readable (s : state) (i : retired_insn) : Prop :=
  (exists x, get_insn (i_pc i) s = Ok x) /\ exists x, get_insn (va2pa (u32 (i_pc i))) s = Ok x.

Record pipe_inv (before : list pipe_op) (last : Z) (l : list pipe_record) (t : retirement) : Prop := {
  pi_n : record_insns_retired t = Z.of_nat (length (retirements before));
  pi_last : lrc t = last;
  pi_log : pl t = Some l;
  pi_ev : forall slot, pt_ev t slot = events_of slot before;
  pi_mem : forall k, (mem_lat_map t).[k] = u64 (count (fun i => is_mem i && (latency i =? k)) (retirements before));
  pi_fp : forall k, (fp_lat_map t).[k] = u64 (count (fun i => is_fp i && (latency i =? k)) (retirements before));
  pi_other : forall k, (non_mem_lat_map t).[k] = u64 (count (fun i => is_other i && (latency i =? k)) (retirements before));
}.
Lemma events_snoc slot os o : events_of slot (os ++ [o]) = ev_step slot (events_of slot os) o.
Proof. unfold events_of. by rewrite foldl_app. Qed.
Lemma retirements_snoc os o : retirements (os ++ [o]) = retirements os ++ match o with Retire _ i => [i] | _ => [] end.
Proof. unfold retirements. rewrite omap_app. by destruct o. Qed.
Lemma count_snoc p os i : count p (os ++ [i]) = count p os + Z.b2z (p i).
Proof.
  unfold count. rewrite filter_app, length_app, Nat2Z.inj_add. f_equal. rewrite filter_cons, filter_nil.
  by destruct (p i).
Qed.
(** A histogram that counts a class. *)
Lemma histogram_step (c : retired_insn -> bool) h os i k :
  (forall k, h.[k] = u64 (count (fun i => c i && (latency i =? k)) os)) ->
  (if c i then bump (latency i) 1 h else h).[k] = u64 (count (fun i => c i && (latency i =? k)) (os ++ [i])).
Proof.
  intros H. rewrite count_snoc. destruct (c i); cbn [andb Z.b2z]; [|by rewrite Z.add_0_r].
  unfold bump. rewrite rd_wr. destruct (Z.eqb_spec (latency i) k) as [->|]; cbn [Z.b2z].
  - rewrite H. unfold wrapu. by rewrite Z.add_mod_idemp_l.
  - by rewrite Z.add_0_r.
Qed.
Lemma land63 r : 0 <= r .& 63.
Proof. apply Z.land_nonneg. by right. Qed.

Section pipe.
Context (w : window) (s : state).
Implicit Types (t : retirement) (l : list pipe_record).

Lemma pipe_inv_init : pipe_inv [] (-1) [] (retirement_init true).
Proof. split; try done; intros k; cbn [retirement_init mem_lat_map fp_lat_map non_mem_lat_map]; by rewrite rd_empty. Qed.
Lemma pipe_pt before last l t o : pipe_inv before last l t -> match o with Retire _ _ => False | _ => True end ->
  exists t', pipe_step w s o t = Ok t' /\ pipe_inv (before ++ [o]) last l t'.
Proof.
  intros [Hn Hl Hp Hev Hm Hf Ho] Hr. destruct o as [r|r c cy|]; [| |done]; cbn [pipe_step].
  - eexists. split; [done|]. split; rewrite ?retirements_snoc, ?app_nil_r; try done.
    intros slot. rewrite events_snoc. cbn. unfold upd. by rewrite Hev.
  - unfold pt_event. rewrite Hp. eexists. split; [done|]. split; rewrite ?retirements_snoc, ?app_nil_r; try done.
    intros slot. rewrite events_snoc. cbn. unfold upd. rewrite !Hev. by destruct (Z.eqb_spec slot (r .& 63)) as [->|].
Qed.
Definition trace_entry (n : Z) (before : list pipe_op) (r : Z) (i : retired_insn) : list pipe_record :=
  if outside w n then [] else
  match get_insn (va2pa (u32 (i_pc i))) s with
  | Ok insn => [mk_pipe_record n insn (u64 (i_pc i)) (u64 (i_fetch i)) (u64 (i_alloc i)) (u64 (i_complete i))
                  (u64 (i_retire i)) (i_faulted i =/? 0) (events_of (r .& 63) before)]
  | Stop _ => []
  end.
Lemma pipe_retire before last l t r i : pipe_inv before last l t -> readable s i ->
  Z.of_nat (length (retirements before)) + 1 < 2 ^ 64 ->
  if last <=? i_retire i
  then exists t', pipe_step w s (Retire r i) t = Ok t' /\
       pipe_inv (before ++ [Retire r i]) (i_retire i)
         (l ++ trace_entry (Z.of_nat (length (retirements before))) before r i) t'
  else pipe_step w s (Retire r i) t = Stop HostExit.
Proof.
  intros [Hn Hl Hp Hev Hm Hf Ho] [[x Hx] [y Hy]] Hb. cbn [pipe_step]. unfold record_retirement, trace_entry.
  cbn [lrc last_retire_cycle record_insns_retired pl pt_cur pt_ev pt_retire with_pt mem_lat_map fp_lat_map
       non_mem_lat_map retire_map l1d_misses l1d_insns].
  rewrite Hx, Hl, Hp, Hy, Hn. cbn [mbind result_bind]. rewrite Z.ltb_antisym.
  destruct (last <=? i_retire i); cbn [negb]; [|done]. rewrite (proj2 (Z.leb_le 0 _) (land63 r)), Hev.
  destruct (outside w _); cbn [mbind result_bind]; (eexists; split; [done|]).
  all: split; rewrite ?retirements_snoc, ?app_nil_r; cbn [record_insns_retired lrc pl pt_ev mem_lat_map fp_lat_map non_mem_lat_map]; try done.
  all: try (rewrite length_app; cbn [length]; rewrite wrapu_id by (unfold in_u; lia); lia).
  all: try (intros slot; rewrite events_snoc; by cbn).
  all: intros k; fold (latency i) (is_mem i).
  all: try (by apply (histogram_step is_mem)).
  all: try (fold (is_fp i); by apply (histogram_step is_fp)).
  all: rewrite <- (histogram_step is_other _ _ _ _ Ho); unfold is_other, is_fp; by destruct (is_mem i), (i_is_fp i =? 0).
Qed.
Lemma trace_retire n before r i rest l : readable s i -> trace_of w s (n + 1) (before ++ [Retire r i]) rest = Ok l ->
  trace_of w s n before (Retire r i :: rest) = Ok (trace_entry n before r i ++ l).
Proof.
  intros [_ [y Hy]] Hl. cbn [trace_of]. rewrite Hl. cbn [mbind result_bind]. unfold trace_entry.
  destruct (outside w n); [done|]. by rewrite Hy.
Qed.
Lemma pipe_run_spec os before last l t : pipe_inv before last l t -> Forall (readable s) (retirements os) ->
  Z.of_nat (length (retirements before)) + Z.of_nat (length os) < 2 ^ 64 ->
  if ordered last (retirements os)
  then exists t' l' last', pipe_run w s os t = Ok t' /\
       trace_of w s (Z.of_nat (length (retirements before))) before os = Ok l' /\ pipe_inv (before ++ os) last' (l ++ l') t'
  else pipe_run w s os t = Stop HostExit.
Proof.
  revert before last l t. induction os as [|o os IH]; intros before last l t Hi Hr Hb.
  { exists t, [], last. by rewrite !app_nil_r. }
  cbn [length] in Hb. destruct o as [r|r c cy|r i].
  1,2: match goal with |- context [pipe_run _ _ (?o :: _) _] => destruct (pipe_pt before last l t o Hi I) as (t1 & H1 & Hi1) end;
    pose proof (IH _ _ _ _ Hi1 Hr) as IH'; rewrite retirements_snoc, app_nil_r in IH'; specialize (IH' ltac:(lia));
    change (retirements (_ :: os)) with (retirements os); destruct (ordered last (retirements os));
    cbn [pipe_run trace_of]; rewrite H1; cbn [mbind result_bind]; [|done];
    destruct IH' as (t' & l' & last' & H' & Ht & Hi'); exists t', l', last'; by rewrite <- app_assoc in Hi'.
  change (retirements (Retire r i :: os)) with (i :: retirements os) in *.
  apply Forall_cons in Hr as [Hri Hr]. pose proof (pipe_retire before last l t r i Hi Hri ltac:(lia)) as Hstep.
  cbn [ordered pipe_run]. destruct (last <=? i_retire i); cbn [andb]; [|by rewrite Hstep].
  destruct Hstep as (t1 & H1 & Hi1). rewrite H1. cbn [mbind result_bind].
  pose proof (IH _ _ _ _ Hi1 Hr) as IH'. rewrite retirements_snoc, length_app in IH'. cbn [length] in IH'.
  specialize (IH' ltac:(lia)). destruct (ordered _ _); [|done]. destruct IH' as (t' & l' & last' & H' & Ht & Hi').
  rewrite Nat2Z.inj_add in Ht. eexists t', _, last'. split; [done|]. split; [by apply trace_retire|].
  by rewrite <- !app_assoc in Hi'.
Qed.
End pipe.

(** Retirement order, histograms and the pipe trace.  Over any sequence of
    slot allocations, stage events and retirements, a retirement earlier than the
    one before it stops the process; otherwise the run ends, the number of
    retirements is exact, each latency histogram counts the retirements of its
    class with each latency, and the trace holds one record per retirement inside
    the window, in order, with the stage events logged for its slot since the
    slot was last allocated, and no others. *)
Theorem pipe_trace_exact (w : window) (s : state) (os : list pipe_op)
  (Hr : Forall (readable s) (retirements os)) (Hb : Z.of_nat (length os) < 2 ^ 64) :
  if ordered (-1) (retirements os)
  then exists t l, pipe_run w s os (retirement_init true) = Ok t /\ pl t = Some l /\ trace_of w s 0 [] os = Ok l /\
       record_insns_retired t = Z.of_nat (length (retirements os)) /\
       forall k, (mem_lat_map t).[k] = u64 (count (fun i => is_mem i && (latency i =? k)) (retirements os)) /\
                 (fp_lat_map t).[k] = u64 (count (fun i => is_fp i && (latency i =? k)) (retirements os)) /\
                 (non_mem_lat_map t).[k] = u64 (count (fun i => is_other i && (latency i =? k)) (retirements os))
  else pipe_run w s os (retirement_init true) = Stop HostExit.
Proof.
  pose proof (pipe_run_spec w s os [] (-1) [] (retirement_init true) pipe_inv_init Hr ltac:(cbn; lia)) as H.
  destruct (ordered (-1) (retirements os)); [|done]. destruct H as (t & l & last & Hrun & Ht & [Hn _ Hp _ Hm Hf Ho]).
  exists t, l. by repeat split.
Qed.
Lemma pipe_trace_exact_witness :
  let s := state_init (mk_sparse_mem ∅ false) false in
  let w := mk_window 1 5 in
  let i k := mk_retired 0x80001000 1 2 4 k 0 0 0 0 in
  let os := [Alloc 3; Event 3 65 7; Retire 3 (i 9); Alloc 3; Event 3 66 8; Event 67 67 9; Event 4 68 9; Retire 3 (i 10)] in
  (exists t, pipe_run w s os (retirement_init true) = Ok t /\
     pl t = Some [mk_pipe_record 1 0 0x80001000 1 2 4 10 false [(8, 66); (9, 67)]] /\ (non_mem_lat_map t).[2] = 2) /\
  pipe_run w s (os ++ [Retire 4 (i 9)]) (retirement_init true) = Stop HostExit.
Proof.
  intros s w i os.
  assert (forall k, readable s (i k)) as Hi by (intros; split; exists 0; by vm_compute).
  split.
  - pose proof (pipe_trace_exact w s os ltac:(repeat (apply Forall_cons_2; [apply Hi|]); apply Forall_nil_2) eq_refl) as H.
    change (ordered (-1) (retirements os)) with true in H. cbn match in H.
    destruct H as (t & l & Hrun & Hp & Ht & _ & Hk). exists t. split; [exact Hrun|]. split.
    + rewrite Hp. f_equal. vm_compute in Ht. injection Ht as <-. vm_compute. reflexivity.
    + destruct (Hk 2) as (_ & _ & ->). by vm_compute.
  - pose proof (pipe_trace_exact w s (os ++ [Retire 4 (i 9)]) ltac:(repeat (apply Forall_cons_2; [apply Hi|]); apply Forall_nil_2) eq_refl) as H.
    exact H.
Defined.

(** ** Errors *)
(** A stall reason of 8 or more indexes past the array; the core reports at most 6. *)
Theorem stall_reason_bound (req ack ack_st blocked reason : Z) (c : l1d_stats) :
  (record_l1d req ack ack_st blocked reason c = Stop HostUB <-> 8 <= reason .& 15) /\
  (0 <= reason < 8 -> exists c', record_l1d req ack ack_st blocked reason c = Ok c').
Proof.
  unfold record_l1d. split.
  - destruct (Z.leb_spec 8 (reason .& 15)); split; done || lia.
  - intros Hr. assert (reason .& 15 = reason) as -> by (change 15 with (Z.ones 4); apply land_small; lia).
    destruct (Z.leb_spec 8 reason); [lia|]. by eexists.
Qed.
(** The median of one sample each of 1, 2 and 3 is reported as 1. *)
Example median_of_three : histo_median [(1, 1); (2, 1); (3, 1)] 0 = 1.
Proof. reflexivity. Qed.
