(* ===== verification/Doubles.v ===== *)
(** Accumulating integers in a C++ [double]: the conversion and the addition in
    round-to-nearest-even, and their exactness below [2^53]. *)
From S2P Require Import Prelude.
From Stdlib Require Import SpecFloat.

Definition double : Set := spec_float.
#[export] Instance zero_double : Zero double := S754_zero false.
(** [static_cast<double>] of an integer, [+], [*] and [/]. *)
Definition double_of (n : Z) : double := binary_normalize 53 1024 n 0 false.
Definition double_add (x y : double) : double := SFadd 53 1024 x y.
Definition double_mul (x y : double) : double := SFmul 53 1024 x y.
Definition double_div (x y : double) : double := SFdiv 53 1024 x y.

(** ** Exact shifts *)
Lemma digits_log2 m : Zpos (digits2_pos m) = Z.log2 (Zpos m) + 1.
Proof.
  induction m as [m IH|m IH|]; [| |done]; cbn [digits2_pos]; rewrite Pos2Z.inj_succ, IH.
  - rewrite Pos2Z.inj_xI, Z.log2_succ_double by lia. lia.
  - rewrite Pos2Z.inj_xO, Z.log2_double by lia. lia.
Qed.
Lemma digits_mul n k m : 0 < n -> 0 <= k -> Zpos m = n * 2 ^ k -> Zpos (digits2_pos m) = Z.log2 n + 1 + k.
Proof. intros Hn Hk E. rewrite digits_log2, E, Z.log2_mul_pow2 by lia. lia. Qed.
Lemma iter_pos_nat {A} (f : A -> A) p x : iter_pos f p x = Nat.iter (Pos.to_nat p) f x.
Proof.
  revert x. induction p as [p IH|p IH|]; intros x; cbn [iter_pos]; [| |done]; rewrite !IH, <- Nat.iter_add.
  - rewrite Pos2Nat.inj_xI. change (f x) with (Nat.iter 1 f x). rewrite <- Nat.iter_add. f_equal. lia.
  - rewrite Pos2Nat.inj_xO. f_equal. lia.
Qed.
Lemma shr_exact (N : Z) p : 0 < N -> Nat.iter p shr_1 (Build_shr_record (N * 2 ^ Z.of_nat p) false false) = Build_shr_record N false false.
Proof.
  intros HN. induction p as [|p IH]; [by rewrite Z.mul_1_r|]. rewrite Nat.iter_succ_r.
  replace (N * 2 ^ Z.of_nat (S p)) with (2 * (N * 2 ^ Z.of_nat p)) by (rewrite Nat2Z.inj_succ, Z.pow_succ_r by lia; lia).
  assert (0 < N * 2 ^ Z.of_nat p) as Hp by (apply Z.mul_pos_pos; [done|apply Z.pow_pos_nonneg; lia]).
  destruct (N * 2 ^ Z.of_nat p) as [|m|m]; [lia| |lia]. exact IH.
Qed.
Lemma iter_double mx d : Zpos (Pos.iter xO mx d) = Zpos mx * 2 ^ Zpos d.
Proof.
  revert mx. induction d as [|d IH] using Pos.peano_ind; intros mx; [cbn; lia|].
  rewrite Pos.iter_succ, Pos2Z.inj_xO, IH, Pos2Z.inj_succ, Z.pow_succ_r by lia. lia.
Qed.
Lemma shl_align_value mx ex ex' : ex' <= ex -> Zpos (fst (shl_align mx ex ex')) = Zpos mx * 2 ^ (ex - ex').
Proof.
  intros Hle. unfold shl_align. destruct (ex' - ex) as [|d|d] eqn:E; [|lia|].
  - replace (ex - ex') with 0 by lia. cbn. lia.
  - cbn [fst]. rewrite iter_double. f_equal. f_equal. lia.
Qed.

(** ** The normal form of a number the format holds exactly *)
Section normal.
Context (prec emax : Z) (n q : Z) (Hn : 0 < n).
Abbreviation D := (Z.log2 n + 1).
(** The exponent the format gives to [n * 2^q]. *)
Abbreviation E := (fexp prec emax (D + q)).
Context (HE : E <= q) (Hmax : E <= emax - prec).
Abbreviation N := (n * 2 ^ (q - E)).
Lemma mant_pos : 0 < N.
Proof. apply Z.mul_pos_pos; [lia|apply Z.pow_pos_nonneg; lia]. Qed.
Lemma shr_fexp_exact (M p : Z) : 0 <= p -> M = N * 2 ^ p -> shr_fexp prec emax M (E - p) loc_Exact = (Build_shr_record N false false, E).
Proof.
  intros Hp HM. pose proof mant_pos as HN. assert (0 < M) as HMp by (rewrite HM; apply Z.mul_pos_pos; [done|apply Z.pow_pos_nonneg; lia]).
  destruct M as [|m|m]; try lia. unfold shr_fexp. cbn [Zdigits2].
  rewrite (digits_mul n (q - E + p) m) by (lia || rewrite HM, Z.pow_add_r by lia; lia).
  replace (D + (q - E + p) + (E - p)) with (D + q) by lia. replace (E - (E - p)) with p by lia.
  unfold shr. cbn [shr_record_of_loc]. rewrite HM. destruct p as [|p|p]; [|clear HM|lia].
  - rewrite Z.pow_0_r, Z.mul_1_r. f_equal. lia.
  - rewrite iter_pos_nat, <- (positive_nat_Z p), shr_exact by done. f_equal. lia.
Qed.
Lemma round_exact (M : positive) (p e : Z) : 0 <= p -> Zpos M = N * 2 ^ p -> e = E - p ->
  binary_round_aux prec emax false (Zpos M) e loc_Exact = S754_finite false (Z.to_pos N) E.
Proof.
  intros Hp HM ->. pose proof mant_pos as HN. unfold binary_round_aux.
  rewrite (shr_fexp_exact (Zpos M) p) by done. cbn [shr_m loc_of_shr_record round_nearest_even].
  pose proof (shr_fexp_exact N 0 ltac:(lia) ltac:(lia)) as H0. rewrite Z.sub_0_r in H0. rewrite H0. cbn [shr_m].
  destruct N as [|m|m]; try lia. by rewrite (proj2 (Z.leb_le _ _) Hmax).
Qed.
Lemma normalize_exact k : 0 <= k -> binary_normalize prec emax (n * 2 ^ k) (q - k) false = S754_finite false (Z.to_pos N) E.
Proof.
  intros Hk. pose proof mant_pos as HN. assert (0 < n * 2 ^ k) as Hp by (apply Z.mul_pos_pos; [lia|apply Z.pow_pos_nonneg; lia]).
  destruct (n * 2 ^ k) as [|m|m] eqn:Em; [lia| |lia]. cbn [binary_normalize]. unfold binary_round.
  rewrite (digits_mul n k m) by (done || lia). replace (D + k + (q - k)) with (D + q) by lia.
  destruct (Z.le_gt_cases E (q - k)) as [Hle|Hgt].
  - pose proof (shl_align_value m (q - k) E Hle) as Hv. destruct (shl_align m (q - k) E) as [mz ez] eqn:Ea.
    cbn [fst] in Hv. assert (ez = E) as ->.
    { unfold shl_align in Ea. destruct (E - (q - k)) eqn:Ed; [|lia|]; injection Ea as <- <-; lia. }
    apply (round_exact mz 0); [done| |lia]. rewrite Hv, <- Em, Z.pow_0_r, Z.mul_1_r, <- Z.mul_assoc, <- Z.pow_add_r by lia. do 2 f_equal. lia.
  - unfold shl_align. destruct (E - (q - k)) as [|d|d] eqn:Ed; [lia| |lia].
    apply (round_exact m (Zpos d)); [done| |lia]. rewrite <- Em, <- Z.mul_assoc, <- Z.pow_add_r by lia. do 2 f_equal. lia.
Qed.
End normal.
Lemma digits_bound n : 0 < n < 2 ^ 53 -> 1 <= Z.log2 n + 1 <= 53.
Proof. intros Hn. pose proof (Z.log2_nonneg n). assert (Z.log2 n < 53) by (apply Z.log2_lt_pow2; lia). lia. Qed.
Lemma N_pos n : 0 < n < 2 ^ 53 -> 0 < n * 2 ^ (53 - (Z.log2 n + 1)).
Proof. intros Hn. pose proof (digits_bound n Hn). apply Z.mul_pos_pos; [lia|apply Z.pow_pos_nonneg; lia]. Qed.
Lemma double_exp n q : 0 < n < 2 ^ 53 -> -1000 <= q <= 900 -> fexp 53 1024 (Z.log2 n + 1 + q) = Z.log2 n + 1 - 53 + q.
Proof. intros Hn Hq. pose proof (digits_bound n Hn). unfold fexp, emin. lia. Qed.
Lemma scaled_exact n : 0 < n < 2 ^ 53 -> forall q, -1000 <= q <= 900 -> forall k, 0 <= k ->
  binary_normalize 53 1024 (n * 2 ^ k) (q - k) false = S754_finite false (Z.to_pos (n * 2 ^ (53 - (Z.log2 n + 1)))) (Z.log2 n + 1 - 53 + q).
Proof.
  intros Hn q Hq k Hk. pose proof (digits_bound n Hn). pose proof (double_exp n q Hn Hq) as HE.
  rewrite (normalize_exact 53 1024 n q) by (lia || rewrite HE; lia). rewrite HE. do 4 f_equal. lia.
Qed.
(** [n] times [2^q]. *)
Definition scaled (n q : Z) : double := binary_normalize 53 1024 n q false.
Lemma scaled_pos n q : 0 < n < 2 ^ 53 -> -1000 <= q <= 900 ->
  scaled n q = S754_finite false (Z.to_pos (n * 2 ^ (53 - (Z.log2 n + 1)))) (Z.log2 n + 1 - 53 + q).
Proof. intros Hn Hq. pose proof (scaled_exact n Hn q Hq 0 ltac:(lia)) as H. by rewrite Z.pow_0_r, Z.mul_1_r, Z.sub_0_r in H. Qed.
Lemma double_of_pos n : 0 < n < 2 ^ 53 -> double_of n = S754_finite false (Z.to_pos (n * 2 ^ (53 - (Z.log2 n + 1)))) (Z.log2 n + 1 - 53).
Proof. intros Hn. change (double_of n) with (scaled n 0). rewrite scaled_pos by (done || lia). f_equal. lia. Qed.

(** Sums of multiples of [2^q] are exact while the sum stays below [2^(53+q)]. *)
Lemma scaled_add_exact a b q : 0 <= a -> 0 <= b -> a + b < 2 ^ 53 -> -1000 <= q <= 900 ->
  double_add (scaled a q) (scaled b q) = scaled (a + b) q.
Proof.
  intros Ha Hb Hs Hq. destruct (Z.eq_dec a 0) as [->|Hna].
  { destruct (Z.eq_dec b 0) as [->|Hnb]; [done|]. rewrite Z.add_0_l, (scaled_pos b) by lia. done. }
  destruct (Z.eq_dec b 0) as [->|Hnb]; [by rewrite Z.add_0_r, (scaled_pos a) by lia|].
  pose proof (digits_bound a ltac:(lia)) as Da. pose proof (digits_bound b ltac:(lia)) as Db.
  pose proof (N_pos a ltac:(lia)) as Na. pose proof (N_pos b ltac:(lia)) as Nb.
  rewrite (scaled_pos a), (scaled_pos b), (scaled_pos (a + b)) by lia.
  unfold double_add, SFadd, cond_Zopp. set (ea := Z.log2 a + 1 - 53 + q) in *. set (eb := Z.log2 b + 1 - 53 + q) in *.
  rewrite !shl_align_value, !Z2Pos.id by (done || lia).
  rewrite <- !Z.mul_assoc, <- !Z.pow_add_r, <- (scaled_exact (a + b) ltac:(lia) q Hq (q - Z.min ea eb)) by lia.
  rewrite Z.mul_add_distr_r. do 4 f_equal; lia.
Qed.
(** Sums of integers are exact while the sum stays below [2^53]. *)
Lemma double_add_exact a b : 0 <= a -> 0 <= b -> a + b < 2 ^ 53 -> double_add (double_of a) (double_of b) = double_of (a + b).
Proof. intros. by apply (scaled_add_exact a b 0). Qed.
