(* ===== verification/StageStats.v ===== *)
(** The stage latencies of the top-down report ([topdown_retire_uop] of
    [src/top.cc]) and the mean of a histogram ([histo_mean_median] of
    [src/top.hh]), whose sums are kept in a [double]. *)
From S2P Require Import Prelude Bits Insns State Mem Exc Stats Doubles.

#[local] Existing Instance topdown.zero_stamp.

(** ** Stage latencies *)
Definition u64_max : Z := 2 ^ 64 - 1.
(** Per class (0 alu, 1 branch, 2 load, 3 store) and segment, at [5 * k + j]. *)
Record stages := mk_stages { cls_n : Zmap Z; cls_seg : Zmap double; cls_min : Zmap Z; min_init : bool }.
Definition stages_init : stages := mk_stages ∅ ∅ ∅ false.
Definition fill_min (a : Zmap Z) : Zmap Z := foldl (fun a i => wr (Z.of_nat i) u64_max a) a (seq 0 20).
(** The class, and the cycle the uop left its queue. *)
Definition uop_class (e : topdown.stamp_t) (is_br is_store : Z) : option (Z * Z) :=
  if topdown.st_m e =/? 0 then Some ((if is_store =/? 0 then 3 else 2), topdown.st_m e)
  else if topdown.st_i e =/? 0 then Some ((if is_br =/? 0 then 1 else 0), topdown.st_i e)
  else None.
(** alloc->sched, sched->issue, issue->complete, alloc->complete, complete->retire. *)
Definition segments (e : topdown.stamp_t) (c r start : Z) : list Z :=
  let a := topdown.st_a e in
  let q := if topdown.st_m e =/? 0 then topdown.st_m e else if topdown.st_q e =/? 0 then topdown.st_q e else start in
  [u64 (q - a); u64 (start - q); u64 (c - start); u64 (c - a); u64 (r - c)].
Definition add_segment (k : Z) (js : nat * Z) (t : stages) : stages :=
  let i := 5 * k + Z.of_nat js.1 in
  mk_stages (cls_n t) (wr i (double_add (cls_seg t).[i] (double_of js.2)) (cls_seg t))
    (wr i (Z.min (cls_min t).[i] js.2) (cls_min t)) (min_init t).
Definition record_uop (k : Z) (seg : list Z) (t : stages) : stages :=
  foldl (fun t js => add_segment k js t) (mk_stages (bump k 1 (cls_n t)) (cls_seg t) (cls_min t) (min_init t))
    (imap pair seg).
(** The completion stamp on the simulator's clock: the core's is offset by its
    retirement stamp. *)
Definition complete_cycle (cycle complete_c retire_c : Z) : Z := u64 (complete_c + (s64 cycle - retire_c)).
Record uop_retired := mk_uop { u_rob : Z; u_cycle : Z; u_complete : Z; u_retire : Z; u_br : Z; u_store : Z }.
(** What a retiring uop adds, if anything. *)
Definition uop_sample (slot : Zmap topdown.stamp_t) (u : uop_retired) : option (Z * list Z) :=
  let e := slot.[u_rob u .& 63] in
  let c := complete_cycle (u_cycle u) (u_complete u) (u_retire u) in
  if (topdown.st_a e =? 0) || (c <? topdown.st_a e) then None
  else match uop_class e (u_br u) (u_store u) with
       | Some (k, start) => Some (k, segments e c (u_cycle u) start)
       | None => None
       end.
Definition topdown_retire_uop (enabled : bool) (w : window) (n_ret : Z) (slot : Zmap topdown.stamp_t) (u : uop_retired) (t : stages)
  : stages :=
  if negb enabled || outside w n_ret then t else
  let t := if min_init t then t else mk_stages (cls_n t) (cls_seg t) (fill_min (cls_min t)) true in
  match uop_sample slot u with
  | Some (k, seg) => record_uop k seg t
  | None => t
  end.
(** The mean the report prints: [cls_seg[k][j] / cls_n[k]]. *)
Definition stage_mean (t : stages) (k j : Z) : double := double_div (cls_seg t).[5 * k + j] (double_of (cls_n t).[k]).

(** ** The mean of a histogram *)
Definition histo_mean (h : list (Z * Z)) : double :=
  match h with
  | [] => double_of 0
  | _ =>
      let acc := foldl (fun acc p => double_add acc (double_of (u64 (p.1 * p.2)))) (double_of 0) h in
      let count := foldl (fun c p => u64 (c + p.2)) 0 h in
      double_div acc (double_of count)
  end.

(** ** What is counted *)
(** A retiring uop: the instructions retired so far, the stamps, the uop. *)
Definition uop_event : Type := Z * Zmap topdown.stamp_t * uop_retired.
Definition sample_of (w : window) (ev : uop_event) : option (Z * list Z) :=
  if outside w ev.1.1 then None else uop_sample ev.1.2 ev.2.
(** The samples inside the window, in the order they retire. *)
Definition sampled (w : window) (us : list uop_event) : list (Z * list Z) := omap (sample_of w) us.
Definition of_class (k : Z) (l : list (Z * list Z)) : list (list Z) := map snd (List.filter (fun s => s.1 =? k) l).
Definition seg_at (j : nat) (seg : list Z) : Z := nth j seg 0.
Definition total (l : list Z) : Z := foldr Z.add 0 l.
Definition least (l : list Z) : Z := foldr Z.min u64_max l.
Definition run_uops (w : window) (us : list uop_event) (t : stages) : stages :=
  foldl (fun t ev => topdown_retire_uop true w ev.1.1 ev.1.2 ev.2 t) t us.

Lemma total_app l l' : total (l ++ l') = total l + total l'.
Proof.
  induction l as [|x l IH]; [done|]. change (x + total (l ++ l') = x + total l + total l'). rewrite IH. lia.
Qed.
Lemma least_snoc l x : x <= u64_max -> least (l ++ [x]) = Z.min (least l) x.
Proof.
  intros Hx. induction l as [|y l IH]; [cbn; lia|].
  change (Z.min y (least (l ++ [x])) = Z.min (Z.min y (least l)) x). rewrite IH. lia.
Qed.
Lemma sampled_snoc w us ev :
  sampled w (us ++ [ev]) = sampled w us ++ match sample_of w ev with Some s => [s] | None => [] end.
Proof. unfold sampled. rewrite omap_app. cbn. by destruct (sample_of w ev). Qed.
Lemma of_class_snoc k l s : of_class k (l ++ [s]) = of_class k l ++ (if s.1 =? k then [s.2] else []).
Proof. unfold of_class. rewrite List.filter_app, map_app. cbn. by destruct (s.1 =? k). Qed.
Lemma uop_sample_shape slot u k seg :
  uop_sample slot u = Some (k, seg) -> 0 <= k < 4 /\ length seg = 5%nat /\ Forall (in_u 64) seg.
Proof.
  unfold uop_sample. destruct (_ || _); [done|]. unfold uop_class. intros H.
  destruct (topdown.st_m _ =? 0), (topdown.st_i _ =? 0), (u_store u =? 0), (u_br u =? 0); cbn [negb] in H; try done;
    injection H as <- <-; (split; [lia|]; split; [done|]); repeat constructor; by apply wrapu_range.
Qed.

(** ** One sample *)
Lemma record_uop_n k seg t k' : (cls_n (record_uop k seg t)).[k'] = (bump k 1 (cls_n t)).[k'] /\ min_init (record_uop k seg t) = min_init t.
Proof.
  unfold record_uop. set (t0 := mk_stages _ _ _ _). change (bump k 1 (cls_n t)) with (cls_n t0). change (min_init t) with (min_init t0).
  generalize (imap pair seg) as l. generalize t0. clear. intros t l. revert t. induction l as [|js l IH]; intros t; [done|]. apply (IH (add_segment k js t)).
Qed.
Lemma record_uop_cell k seg t k' (j : nat) :
  length seg = 5%nat -> (j < 5)%nat ->
  let i := 5 * k' + Z.of_nat j in
  (cls_seg (record_uop k seg t)).[i] = (if k =? k' then double_add (cls_seg t).[i] (double_of (seg_at j seg)) else (cls_seg t).[i]) /\
  (cls_min (record_uop k seg t)).[i] = (if k =? k' then Z.min (cls_min t).[i] (seg_at j seg) else (cls_min t).[i]).
Proof.
  intros Hl Hj. destruct seg as [|x0 [|x1 [|x2 [|x3 [|x4 [|]]]]]]; try done. cbn -[Z.mul Z.of_nat].
  assert (forall m : nat, (m < 5)%nat -> (5 * k + Z.of_nat m =? 5 * k' + Z.of_nat j) = (k =? k') && (m =? j)%nat) as He.
  { intros m Hm. destruct (Z.eqb_spec k k'), (Nat.eqb_spec m j); cbn [andb]; [apply Z.eqb_eq|apply Z.eqb_neq..]; lia. }
  assert (forall m m' : nat, m <> m' -> (5 * k + Z.of_nat m =? 5 * k + Z.of_nat m') = false) as Hne by (intros; apply Z.eqb_neq; lia).
  rewrite !rd_wr, !Hne, !He by lia. destruct (Z.eqb_spec k k') as [->|]; cbn [andb]; [|done].
  do 5 (destruct j as [|j]; [done|]). lia.
Qed.

(** ** All samples *)
(** The minima, before or after the first sample fills them in. *)
Definition minima (t : stages) : Zmap Z := if min_init t then cls_min t else fill_min (cls_min t).
Lemma fill_min_at i : 0 <= i < 20 -> (fill_min ∅).[i] = u64_max.
Proof.
  intros Hi. assert (forallb (fun i => (fill_min ∅).[i] =? u64_max) (map Z.of_nat (seq 0 20)) = true) as H by (vm_compute; reflexivity).
  rewrite forallb_forall in H. apply Z.eqb_eq, H, in_map_iff. exists (Z.to_nat i). split; [lia|]. apply in_seq. lia.
Qed.
Lemma retire_step w ev t :
  topdown_retire_uop true w ev.1.1 ev.1.2 ev.2 t =
    if outside w ev.1.1 then t else
    let t1 := mk_stages (cls_n t) (cls_seg t) (minima t) true in
    match sample_of w ev with Some (k, seg) => record_uop k seg t1 | None => t1 end.
Proof.
  unfold topdown_retire_uop, sample_of, minima. cbn [negb orb]. destruct (outside w ev.1.1); [done|].
  destruct t as [n s m [|]]; done.
Qed.
Definition column (k : Z) (j : nat) (l : list (Z * list Z)) : list Z := map (seg_at j) (of_class k l).
(** What the counters of class [k] and segment [j] hold after the samples [l]. *)
Record tallied (l : list (Z * list Z)) (k : Z) (j : nat) (t : stages) : Prop := {
  ta_n : (cls_n t).[k] = Z.of_nat (length (of_class k l));
  ta_seg : total (column k j l) < 2 ^ 53 -> (cls_seg t).[5 * k + Z.of_nat j] = double_of (total (column k j l));
  ta_min : (minima t).[5 * k + Z.of_nat j] = least (column k j l);
}.
Lemma column_nonneg k j l : Forall (fun s => Forall (in_u 64) s.2) l -> 0 <= total (column k j l).
Proof.
  unfold column, of_class. induction 1 as [|s l Hs Hl IH]; [done|]. cbn [List.filter]. destruct (s.1 =? k); [|done].
  change (0 <= seg_at j s.2 + total (map (seg_at j) (map snd (List.filter (fun s => s.1 =? k) l)))).
  assert (0 <= seg_at j s.2); [|lia]. unfold seg_at. destruct (nth_in_or_default j s.2 0) as [Hin| ->]; [|lia].
  rewrite Forall_forall in Hs. apply list_elem_of_In, Hs in Hin. by destruct Hin.
Qed.
Lemma tallied_record l k j t k1 seg :
  0 <= k < 4 -> (j < 5)%nat -> length seg = 5%nat -> Forall (in_u 64) seg -> Forall (fun s => Forall (in_u 64) s.2) l ->
  Z.of_nat (length l) < 2 ^ 64 - 1 -> min_init t = true -> tallied l k j t -> tallied (l ++ [(k1, seg)]) k j (record_uop k1 seg t).
Proof.
  intros Hk Hj Hlen Hseg Hl Hll Hmi [Hn Hs Hm]. destruct (record_uop_n k1 seg t k) as [En Emi].
  destruct (record_uop_cell k1 seg t k j Hlen Hj) as [Es Em]. unfold minima in Hm. rewrite Hmi in Hm, Emi.
  assert (column k j (l ++ [(k1, seg)]) = column k j l ++ (if k1 =? k then [seg_at j seg] else [])) as Ec.
  { unfold column. rewrite of_class_snoc, map_app. cbn. by destruct (k1 =? k). }
  assert (0 <= seg_at j seg <= u64_max) as Hv.
  { unfold seg_at. destruct (nth_in_or_default j seg 0) as [Hin| ->]; [|by vm_compute]. rewrite Forall_forall in Hseg.
    apply list_elem_of_In, Hseg in Hin. unfold in_u, u64_max in *. lia. }
  assert (Z.of_nat (length (of_class k l)) <= Z.of_nat (length l)) as Hcl.
  { unfold of_class. rewrite length_map. pose proof (filter_length_le (fun s => s.1 =? k) l). lia. }
  pose proof (column_nonneg k j l Hl) as Hpos.
  constructor; unfold minima; rewrite ?Emi, ?En, ?Es, ?Em, ?Ec, ?of_class_snoc; cbn [fst snd]; unfold bump; rewrite ?rd_wr;
    destruct (Z.eqb_spec k1 k) as [->|]; rewrite ?app_nil_r; try done.
  - rewrite Hn, length_app. cbn [length]. rewrite wrapu_id by (unfold in_u; lia). lia.
  - rewrite total_app. cbn [total foldr]. rewrite Z.add_0_r. intros Hb. rewrite Hs by lia. apply double_add_exact; lia.
  - rewrite least_snoc by lia. by rewrite Hm.
Qed.
Lemma sampled_shape w us : Forall (fun s => 0 <= s.1 < 4 /\ length s.2 = 5%nat /\ Forall (in_u 64) s.2) (sampled w us).
Proof.
  apply Forall_forall. intros [k seg] Hin. apply list_elem_of_omap in Hin as (ev & _ & H). unfold sample_of in H.
  destruct (outside w ev.1.1); [done|]. by apply (uop_sample_shape ev.1.2 ev.2).
Qed.
Lemma length_sampled w us : (length (sampled w us) <= length us)%nat.
Proof.
  induction us as [|ev us IH] using rev_ind; [done|]. rewrite sampled_snoc, !length_app. destruct (sample_of w ev); cbn [length]; lia.
Qed.
Lemma run_snoc w us ev t : run_uops w (us ++ [ev]) t = topdown_retire_uop true w ev.1.1 ev.1.2 ev.2 (run_uops w us t).
Proof. unfold run_uops. by rewrite foldl_snoc. Qed.
Lemma tallied_run w us k j :
  0 <= k < 4 -> (j < 5)%nat -> Z.of_nat (length us) < 2 ^ 64 -> tallied (sampled w us) k j (run_uops w us stages_init).
Proof.
  intros Hk Hj. induction us as [|ev us IH] using rev_ind; intros Hlen.
  { constructor; intros; cbn -[fill_min]; [apply rd_empty | apply rd_empty |]. apply fill_min_at. lia. }
  rewrite length_app in Hlen. cbn [length] in Hlen. specialize (IH ltac:(lia)).
  rewrite run_snoc, retire_step, sampled_snoc. unfold sample_of. destruct (outside w ev.1.1) eqn:Ho; [by rewrite app_nil_r|]. cbv zeta.
  set (t := run_uops w us stages_init) in *. set (t1 := mk_stages _ _ _ _). assert (tallied (sampled w us) k j t1) as Ht1 by (destruct IH as [? ? ?]; constructor; done).
  destruct (uop_sample ev.1.2 ev.2) as [[k1 seg]|] eqn:Es; [|by rewrite app_nil_r].
  apply uop_sample_shape in Es as (_ & Hl5 & Hseg). apply tallied_record; try done.
  - eapply Forall_impl; [apply (sampled_shape w us)|]. intros s Hs. apply Hs.
  - pose proof (length_sampled w us). lia.
Qed.

Lemma wrapu_add3 w x y z : wrapu w (wrapu w x + wrapu w y + wrapu w z) = wrapu w (x + y + z).
Proof.
  unfold wrapu. rewrite Zplus_mod_idemp_r, <- Z.add_assoc, Zplus_mod_idemp_l, (Z.add_comm (_ mod _)), Z.add_assoc, Zplus_mod_idemp_r.
  f_equal. lia.
Qed.

(** The latency table of the report is exact.  Over any run, for every class
    and every stage: the counter is the number of uops of the class sampled in
    the window, the minimum is the least of their latencies, and as long as
    their sum is below [2^53] the [double] that accumulates it holds the sum
    exactly, so that the mean printed is the correctly rounded quotient.  In
    each sample the first three stages add up to the fourth, modulo [2^64]. *)
Theorem stage_report_exact (w : window) (us : list uop_event) (k : Z) (j : nat)
    (Hk : 0 <= k < 4) (Hj : (j < 5)%nat) (Hlen : Z.of_nat (length us) < 2 ^ 64) :
  let t := run_uops w us stages_init in
  let l := column k j (sampled w us) in
  (cls_n t).[k] = Z.of_nat (length l) /\
  (minima t).[5 * k + Z.of_nat j] = least l /\
  (total l < 2 ^ 53 ->
   (cls_seg t).[5 * k + Z.of_nat j] = double_of (total l) /\
   stage_mean t k (Z.of_nat j) = double_div (double_of (total l)) (double_of (Z.of_nat (length l)))) /\
  Forall (fun s => u64 (seg_at 0 s.2 + seg_at 1 s.2 + seg_at 2 s.2) = seg_at 3 s.2) (sampled w us).
Proof.
  intros t l. destruct (tallied_run w us k j Hk Hj Hlen) as [Hn Hs Hm]. fold t l in Hn, Hs, Hm.
  assert (length l = length (of_class k (sampled w us))) as El by apply length_map.
  split; [by rewrite El|]. split; [done|]. split.
  - intros Hb. unfold stage_mean. rewrite Hs, Hn, El by done. done.
  - apply Forall_forall. intros [k1 seg] Hin. apply list_elem_of_omap in Hin as (ev & _ & H). unfold sample_of in H.
    destruct (outside w ev.1.1); [done|]. unfold uop_sample in H. destruct (_ || _); [done|].
    destruct (uop_class _ _ _) as [[k2 start]|]; [|done]. injection H as <- <-. cbn [fst snd segments seg_at nth].
    unfold segments, seg_at. cbn [nth]. rewrite wrapu_add3. f_equal. lia.
Qed.
Definition sample_uops : list uop_event :=
  let slot := wr 3 (topdown.mk_stamp 10 0 0 15) ∅ in
  [(0, slot, mk_uop 3 40 1030 1040 0 0); (1, slot, mk_uop 67 45 1025 1040 0 0); (2, slot, mk_uop 4 50 1025 1040 0 0)].
Lemma stage_report_exact_witness :
  let t := run_uops (mk_window 0 100) sample_uops stages_init in
  column 2 3 (sampled (mk_window 0 100) sample_uops) = [20; 20] /\
  (cls_n t).[2] = 2 /\ (cls_seg t).[13] = double_of 40 /\ stage_mean t 2 3 = double_of 20.
Proof.
  intros t. split; [vm_compute; reflexivity|].
  destruct (stage_report_exact (mk_window 0 100) sample_uops 2 3) as (Hn & _ & Hs & _); [split; [discriminate|reflexivity] | lia | reflexivity |].
  split; [exact Hn|]. destruct Hs as [Hs Hm]; [vm_compute; reflexivity|]. split; [exact Hs|]. vm_compute. reflexivity.
Defined.
(** The mean of a histogram whose weighted sum is below [2^53]. *)
Definition weighted (h : list (Z * Z)) : Z := foldr (fun p s => p.1 * p.2 + s) 0 h.
Definition counted (h : list (Z * Z)) : Z := foldr (fun p s => p.2 + s) 0 h.
Lemma weighted_nonneg h : Forall (fun p => 0 <= p.1 /\ 0 <= p.2) h -> 0 <= weighted h /\ 0 <= counted h.
Proof. induction 1 as [|p h [Hk Hn] Hh [IH1 IH2]]; [done|]. split; [|change (0 <= p.2 + counted h); lia].
  change (0 <= p.1 * p.2 + weighted h). pose proof (Z.mul_nonneg_nonneg _ _ Hk Hn). lia.
Qed.
Lemma acc_exact h a :
  Forall (fun p => 0 <= p.1 /\ 0 <= p.2) h -> 0 <= a -> a + weighted h < 2 ^ 53 ->
  foldl (fun acc p => double_add acc (double_of (u64 (p.1 * p.2)))) (double_of a) h = double_of (a + weighted h).
Proof.
  intros Hh. revert a. induction Hh as [|p h [Hk Hn] Hh IH]; intros a Ha Hb; cbn [foldl]; [by rewrite Z.add_0_r|].
  change (a + (p.1 * p.2 + weighted h) < 2 ^ 53) in Hb. change (weighted (p :: h)) with (p.1 * p.2 + weighted h).
  pose proof (weighted_nonneg h Hh) as [Hw _]. pose proof (Z.mul_nonneg_nonneg _ _ Hk Hn).
  rewrite wrapu_id by (unfold in_u; lia). rewrite double_add_exact, IH by lia. f_equal. lia.
Qed.
Lemma count_exact h a :
  Forall (fun p => 0 <= p.1 /\ 0 <= p.2) h -> 0 <= a -> a + counted h < 2 ^ 64 ->
  foldl (fun c (p : Z * Z) => u64 (c + p.2)) a h = a + counted h.
Proof.
  intros Hh. revert a. induction Hh as [|p h [Hk Hn] Hh IH]; intros a Ha Hb; cbn [foldl]; [by rewrite Z.add_0_r|].
  change (a + (p.2 + counted h) < 2 ^ 64) in Hb. change (counted (p :: h)) with (p.2 + counted h).
  pose proof (weighted_nonneg h Hh) as [_ Hc]. rewrite wrapu_id by (unfold in_u; lia). rewrite IH by lia. lia.
Qed.
Lemma histo_mean_exact h :
  Forall (fun p => 0 <= p.1 /\ 0 <= p.2) h -> h <> [] -> weighted h < 2 ^ 53 -> counted h < 2 ^ 64 ->
  histo_mean h = double_div (double_of (weighted h)) (double_of (counted h)).
Proof.
  intros Hh Hne Hw Hc. unfold histo_mean. destruct h as [|p h]; [done|].
  by rewrite (acc_exact (p :: h) 0), (count_exact (p :: h) 0), !Z.add_0_l by done.
Qed.
