(* ===== verification/Rounding.v ===== *)
(** Correct rounding of the Standard Library's [SpecFloat], in any binary format: the
    exact result of an operation is a real number known by comparison, and the
    operation returns the representable number nearest to it, ties to even, an
    infinity standing for the next power of two after the finite numbers. *)
From S2P Require Import Prelude Doubles.
From Stdlib Require Import SpecFloat.

(** ** Numbers known by comparison *)
(** A real number, given by the order of twice it and an integer. *)
Definition cut (c : Z -> comparison) : Prop := forall h h', h < h' -> c h <> Gt -> c h' = Lt.
(** [P / Q] with [Q] positive, the square root of [n], and a number over [2^k]. *)
Definition ratio (P Q h : Z) : comparison := 2 * P ?= h * Q.
Definition root (n h : Z) : comparison := if h <? 0 then Gt else 4 * n ?= h * h.
Definition scale (k : Z) (c : Z -> comparison) (h : Z) : comparison := c (h * 2 ^ k).
Definition mirror (c : Z -> comparison) (h : Z) : comparison := CompOpp (c (- h)).
(** The integer nearest to it, the even one of two. *)
Definition nearest (c : Z -> comparison) (R : Z) : Prop :=
  c (2 * R - 1) <> Lt /\ c (2 * R + 1) <> Gt /\ (c (2 * R - 1) = Eq \/ c (2 * R + 1) = Eq -> Z.even R = true).

Lemma cut_ratio P Q : 0 < Q -> cut (ratio P Q).
Proof. intros HQ h h' Hh Hc. unfold ratio in *. apply Z.compare_lt_iff. apply Z.compare_ngt_iff in Hc. nia. Qed.
Lemma cut_root n : cut (root n).
Proof.
  intros h h' Hh Hc. unfold root in *. destruct (Z.ltb_spec h 0); [done|]. destruct (Z.ltb_spec h' 0); [lia|].
  apply Z.compare_lt_iff. apply Z.compare_ngt_iff in Hc. nia.
Qed.
Lemma cut_scale k c : 0 <= k -> cut c -> cut (scale k c).
Proof. intros Hk Hc h h' Hh. apply Hc. apply Z.mul_lt_mono_pos_r; [apply Z.pow_pos_nonneg; lia|done]. Qed.
Lemma cut_mirror c : cut c -> cut (mirror c).
Proof.
  intros Hc h h' Hh. unfold mirror. specialize (Hc (- h') (- h) ltac:(lia)). destruct (c (- h')); cbn [CompOpp]; try done.
  - intros Hg. rewrite Hc in Hg by done. done.
  - intros Hg. rewrite Hc in Hg by done. done.
Qed.
Section cuts.
Context (c : Z -> comparison) (Hc : cut c).
Lemma cut_above h h' : h <= h' -> c h <> Gt -> c h' <> Gt.
Proof. intros Hh Hg. destruct (Z.eq_dec h h') as [->|]; [done|]. rewrite (Hc h h') by (lia || done). done. Qed.
Lemma cut_below h h' : h <= h' -> c h' <> Lt -> c h <> Lt.
Proof. intros Hh Hg E. apply Hg. destruct (Z.eq_dec h h') as [->|]; [done|]. apply (Hc h); [lia|by rewrite E]. Qed.
Lemma cut_gt h h' : h < h' -> c h' <> Lt -> c h = Gt.
Proof. intros Hh Hg. destruct (c h) eqn:E; [..|done]; destruct Hg; apply (Hc h); rewrite ?E; done. Qed.
Lemma cut_lt h h' : c h <> Lt -> c h' = Lt -> h < h'.
Proof. intros Hg Hl. destruct (Z.le_gt_cases h' h) as [Hle|]; [|done]. by destruct (cut_below h' h Hle Hg). Qed.
Lemma cut_eq h h' : c h = Eq -> c h' = Eq -> h = h'.
Proof.
  intros E E'. destruct (Z.lt_trichotomy h h') as [Hl|[->|Hl]]; [|done|].
  - rewrite (Hc h h') in E' by (done || rewrite E; done). done.
  - rewrite (Hc h' h) in E by (done || rewrite E'; done). done.
Qed.
End cuts.

(** ** The shifter *)
(** A record of the shifter stands for a number: the integer part, the half and the
    rest. *)
Definition stands (c : Z -> comparison) (x : shr_record) : Prop :=
  let b := 2 * shr_m x + Z.b2z (shr_r x) in
  0 <= shr_m x /\ c b = (if shr_s x then Gt else Eq) /\ c (b + 1) = Lt.
Lemma shr_1_stands c x : cut c -> stands c x -> stands (scale 1 c) (shr_1 x).
Proof.
  intros Hc. destruct x as [m r s]. unfold stands, scale. cbn [shr_m shr_r shr_s]. intros (Hm & Hb & Hb1).
  assert (shr_1 (Build_shr_record m r s) = Build_shr_record (m / 2) (Z.odd m) (r || s)) as ->.
  { destruct m as [|[p|p|]|p]; [done| | |done|lia]; cbn [shr_1 Z.odd].
    - rewrite Pos2Z.inj_xI, Z.add_comm, Z.mul_comm, Z.div_add, Z.add_0_l by lia. done.
    - rewrite Pos2Z.inj_xO, Z.mul_comm, Z.div_mul by lia. done. }
  cbn [shr_m shr_r shr_s]. assert (2 * (m / 2) + Z.b2z (Z.odd m) = m) as -> by (pose proof (Z.div2_odd m) as E; rewrite Z.div2_div in E; lia).
  rewrite Z.pow_1_r. split; [apply Z.div_pos; lia|]. split.
  - destruct r; cbn [Z.b2z orb] in *.
    + apply (cut_gt c Hc _ (2 * m + 1)); [lia|]. rewrite Hb. by destruct s.
    + rewrite Z.add_0_r in Hb. by replace (m * 2) with (2 * m) by lia.
  - destruct (Z.eq_dec ((m + 1) * 2) (2 * m + Z.b2z r + 1)) as [->|]; [done|].
    apply (Hc (2 * m + Z.b2z r + 1)); [destruct r; cbn [Z.b2z] in *; lia|]. by rewrite Hb1.
Qed.
Lemma scale_scale a b c h : 0 <= a -> 0 <= b -> scale a (scale b c) h = scale (b + a) c h.
Proof. intros Ha Hb. unfold scale. rewrite Z.pow_add_r by done. f_equal. lia. Qed.
Lemma stands_ext c c' x : (forall h, c h = c' h) -> stands c x -> stands c' x.
Proof. intros E. unfold stands. by rewrite !E. Qed.
Lemma shr_stands c x e n : cut c -> 0 <= n -> stands c x -> exists y, shr x e n = (y, e + n) /\ stands (scale n c) y.
Proof.
  intros Hc Hn Hx. destruct n as [|p|p]; [| |lia].
  - exists x. split; [cbn; f_equal; lia|]. eapply stands_ext; [|exact Hx]. intros h. unfold scale. by rewrite Z.mul_1_r.
  - cbn [shr]. rewrite iter_pos_nat. eexists. split; [reflexivity|]. rewrite <- (positive_nat_Z p). generalize (Pos.to_nat p). intros k.
    induction k as [|k IH]; [eapply stands_ext; [|exact Hx]; intros h; unfold scale; f_equal; change (2 ^ Z.of_nat 0) with 1; lia|].
    rewrite Nat.iter_succ. apply (shr_1_stands _ _ (cut_scale (Z.of_nat k) _ ltac:(lia) Hc)) in IH. eapply stands_ext; [|exact IH].
    intros h. rewrite scale_scale by lia. f_equal. lia.
Qed.
Lemma rounded_nearest c x : cut c -> stands c x ->
  nearest c (round_nearest_even (shr_m x) (loc_of_shr_record x)) /\
  shr_m x <= round_nearest_even (shr_m x) (loc_of_shr_record x) <= shr_m x + 1.
Proof.
  intros Hc. destruct x as [m r s]. unfold stands, nearest. cbn [shr_m shr_r shr_s]. intros (Hm & Hb & Hb1).
  assert (forall h, h < 2 * m + Z.b2z r -> c h = Gt) as Hlo by (intros h Hh; apply (cut_gt c Hc _ _ Hh); rewrite Hb; by destruct s).
  assert (forall h, 2 * m + Z.b2z r < h -> c h = Lt) as Hhi.
  { intros h Hh. destruct (Z.eq_dec h (2 * m + Z.b2z r + 1)) as [->|]; [done|]. apply (Hc (2 * m + Z.b2z r + 1)); [lia|by rewrite Hb1]. }
  destruct r, s; cbn [loc_of_shr_record round_nearest_even Z.b2z] in *; rewrite ?Z.add_0_r in *.
  - replace (2 * (m + 1) - 1) with (2 * m + 1) by lia. rewrite Hb, (Hhi (2 * (m + 1) + 1)) by lia. split; [split; [done|split; [done|by intros []]]|lia].
  - destruct (Z.even m) eqn:Ev.
    + rewrite Hb, (Hlo (2 * m - 1)) by lia. split; [done|lia].
    + replace (2 * (m + 1) - 1) with (2 * m + 1) by lia. rewrite Hb, (Hhi (2 * (m + 1) + 1)) by lia.
      rewrite Z.add_1_r, Z.even_succ, <- Z.negb_even, Ev. split; [done|lia].
  - rewrite (Hlo (2 * m - 1)), (Hhi (2 * m + 1)) by lia. split; [split; [done|split; [done|by intros []]]|lia].
  - rewrite (Hlo (2 * m - 1)), (Hhi (2 * m + 1)) by lia. split; [split; [done|split; [done|by intros []]]|lia].
Qed.

(** ** A format *)
Section format.
Context (prec emax : Z) (Hprec : 2 <= prec) (Hemax : prec < emax).
Abbreviation emin := (emin prec emax).
Abbreviation fexp := (fexp prec emax).
Abbreviation kmax := (emax - prec - emin).
(** Values are counted in units of [2^emin]; an infinity is the power of two after the
    finite ones. *)
Definition top : Z := 2 ^ prec * 2 ^ kmax.
Definition sf_units (x : spec_float) : Z :=
  match x with
  | S754_finite s m e => cond_Zopp s (Zpos m * 2 ^ (e - emin))
  | S754_infinity s => cond_Zopp s top
  | _ => 0
  end.
Definition sf_even (x : spec_float) : bool := match x with S754_finite _ m _ => Z.even (Zpos m) | _ => true end.
Definition sf_sign (x : spec_float) : bool :=
  match x with S754_finite s _ _ | S754_infinity s | S754_zero s => s | S754_nan => false end.
Definition canon (m : positive) (e : Z) : Prop :=
  emin <= e <= emax - prec /\ Zpos m < 2 ^ prec /\ (emin < e -> 2 ^ (prec - 1) <= Zpos m).
Definition valid (x : spec_float) : Prop := match x with S754_finite _ m e => canon m e | S754_nan => False | _ => True end.
(** A value of the format, an infinity included. *)
Definition representable (u : Z) : Prop := exists m k, Z.abs m <= 2 ^ prec /\ 0 <= k <= kmax /\ u = m * 2 ^ k.
Definition nearest_rep (c : Z -> comparison) (x : spec_float) : Prop :=
  forall u, representable u ->
    (u < sf_units x -> c (u + sf_units x) <> Lt /\ (c (u + sf_units x) = Eq -> sf_even x = true)) /\
    (sf_units x < u -> c (u + sf_units x) <> Gt /\ (c (u + sf_units x) = Eq -> sf_even x = true)).
(** The result of rounding a number of magnitude [c] and sign [s]. *)
Record rounding (c : Z -> comparison) (s : bool) (x : spec_float) : Prop :=
  { rd_nearest : nearest_rep (if s then mirror c else c) x; rd_valid : valid x; rd_sign : sf_sign x = s }.

(** What [binary_round_aux] makes of the rounded mantissa. *)
Definition bounded_sf (s : bool) (m e : Z) : spec_float :=
  if e <=? emax - prec then S754_finite s (Z.to_pos m) e else S754_infinity s.
Definition rounded_sf (s : bool) (R e : Z) : spec_float :=
  if R =? 0 then S754_zero s else if R =? 2 ^ prec then bounded_sf s (2 ^ (prec - 1)) (e + 1) else bounded_sf s R e.

Lemma pow_prec : 2 ^ prec = 2 * 2 ^ (prec - 1) /\ 2 <= 2 ^ (prec - 1) /\ Z.even (2 ^ (prec - 1)) = true.
Proof.
  assert (2 ^ (prec - 1) = 2 * 2 ^ (prec - 2)) as E by (rewrite <- Z.pow_succ_r by lia; f_equal; lia).
  assert (0 < 2 ^ (prec - 2)) by (apply Z.pow_pos_nonneg; lia).
  split; [rewrite <- Z.pow_succ_r by lia; f_equal; lia|]. split; [lia|]. by rewrite E, Z.even_mul.
Qed.
Lemma digits_of m : 0 < m -> Zdigits2 m = Z.log2 m + 1.
Proof. destruct m as [|m|m]; [lia| |lia]. intros _. apply digits_log2. Qed.
Lemma digits_range m : 0 <= m -> 0 <= Zdigits2 m /\ m < 2 ^ Zdigits2 m /\ (0 < Zdigits2 m -> 2 ^ (Zdigits2 m - 1) <= m).
Proof.
  intros Hm. destruct (Z.eq_dec m 0) as [->|Hn]; [done|]. rewrite digits_of by lia. pose proof (Z.log2_nonneg m).
  pose proof (Z.log2_spec m ltac:(lia)). replace (Z.log2 m + 1 - 1) with (Z.log2 m) by lia. rewrite Z.add_1_r. lia.
Qed.
Lemma shr_none x e n : n <= 0 -> shr x e n = (x, e).
Proof. by destruct n. Qed.
Lemma round_final s R e : 0 <= R <= 2 ^ prec -> emin <= e ->
  (let '(x, e') := shr_fexp prec emax R e loc_Exact in
   match shr_m x with
   | 0 => S754_zero s
   | Zpos m => if e' <=? emax - prec then S754_finite s m e' else S754_infinity s
   | _ => S754_nan
   end) = rounded_sf s R e.
Proof.
  intros HR He. pose proof pow_prec as (E2 & H2 & _). unfold shr_fexp, rounded_sf. cbn [shr_record_of_loc].
  destruct (Z.eqb_spec R 0) as [->|H0].
  { rewrite shr_none; [done|]. unfold SpecFloat.fexp. cbn. lia. }
  destruct (Z.eqb_spec R (2 ^ prec)) as [E|Hne].
  - assert (Zdigits2 R = prec + 1) as -> by (rewrite digits_of, E, Z.log2_pow2 by lia; done).
    assert (fexp (prec + 1 + e) - e = 1) as -> by (unfold SpecFloat.fexp; lia). cbn [shr iter_pos].
    assert (shr_1 (Build_shr_record R false false) = Build_shr_record (2 ^ (prec - 1)) false false) as ->.
    { rewrite E, E2. by destruct (2 ^ (prec - 1)). }
    cbn [shr_m]. unfold bounded_sf. by destruct (2 ^ (prec - 1)); [lia|..|lia].
  - rewrite shr_none.
    + cbn [shr_m]. unfold bounded_sf. by destruct R; [lia|..|lia].
    + rewrite digits_of by lia. assert (Z.log2 R < prec) by (apply Z.log2_lt_pow2; lia). unfold SpecFloat.fexp. lia.
Qed.

(** Rounding at the exponent the format gives the number. *)
Lemma stands_above c x : cut c -> stands c x -> c (2 * shr_m x) <> Lt /\ c (2 * shr_m x + 2) = Lt.
Proof.
  intros Hc (_ & Hb & Hb1). destruct x as [m r s]. cbn [shr_m shr_r shr_s] in *. split.
  - apply (cut_below c Hc _ (2 * m + Z.b2z r)); [destruct r; cbn; lia|]. rewrite Hb. by destruct s.
  - destruct (Z.eq_dec (2 * m + Z.b2z r + 1) (2 * m + 2)) as [<-|]; [done|].
    apply (Hc (2 * m + Z.b2z r + 1)); [destruct r; cbn in *; lia|by rewrite Hb1].
Qed.
Lemma round_aux s mx ex l c (e1 := fexp (Zdigits2 mx + ex)) : cut c -> stands c (shr_record_of_loc mx l) -> ex <= e1 ->
  exists R, nearest (scale (e1 - ex) c) R /\ 0 <= R <= 2 ^ prec /\
    (emin < e1 -> 2 ^ (prec - 1) <= R /\ scale (e1 - ex) c (2 * 2 ^ (prec - 1)) <> Lt) /\
    binary_round_aux prec emax s mx ex l = rounded_sf s R e1.
Proof.
  intros Hc Hst He. pose proof pow_prec as (E2 & H2 & _). unfold binary_round_aux, shr_fexp at 1. fold e1.
  destruct (shr_stands c _ ex (e1 - ex) Hc ltac:(lia) Hst) as (y & -> & Hy). replace (ex + (e1 - ex)) with e1 by lia.
  set (n := e1 - ex) in *. assert (0 <= n) as Hn by lia. pose proof (cut_scale n c Hn Hc) as Hc'.
  assert (shr_m (shr_record_of_loc mx l) = mx) as Em by (by destruct l as [|[]]).
  pose proof (stands_above _ _ Hc Hst) as [Ha Hb]. rewrite Em in Ha, Hb. assert (0 <= mx) as Hmx by (rewrite <- Em; apply Hst).
  pose proof (stands_above _ _ Hc' Hy) as [Ha' Hb']. assert (0 <= shr_m y) as HM by apply Hy.
  destruct (rounded_nearest _ _ Hc' Hy) as [HR HRb]. set (R := round_nearest_even _ _) in *.
  destruct (digits_range mx Hmx) as (Hd & Hdlt & Hdge). unfold scale in Ha', Hb'.
  assert (0 < 2 ^ n) as Hp by (apply Z.pow_pos_nonneg; lia).
  assert (shr_m y < 2 ^ prec) as HMlt.
  { pose proof (cut_lt c Hc _ _ Ha' Hb) as Hlt. assert (2 ^ Zdigits2 mx <= 2 ^ (prec + n)) as Hle by (apply Z.pow_le_mono_r; [lia|unfold n, e1, SpecFloat.fexp; lia]).
    rewrite Z.pow_add_r in Hle by lia. nia. }
  assert (emin < e1 -> 2 ^ (prec - 1) <= shr_m y /\ scale n c (2 * 2 ^ (prec - 1)) <> Lt) as Hlow.
  { intros Hlt. assert (Zdigits2 mx = prec + n) as Ed by (unfold n, e1, SpecFloat.fexp in *; lia).
    specialize (Hdge ltac:(lia)). replace (Zdigits2 mx - 1) with (prec - 1 + n) in Hdge by lia. rewrite Z.pow_add_r in Hdge by lia. split.
    - pose proof (cut_lt c Hc _ _ Ha Hb') as Hlt'. nia.
    - unfold scale. apply (cut_below c Hc _ (2 * mx)); [lia|done]. }
  exists R. split; [done|]. split; [lia|]. split; [intros Hlt; specialize (Hlow Hlt); split; [lia|apply Hlow]|].
  apply round_final; [lia|]. unfold e1, SpecFloat.fexp. lia.
Qed.

(** ** Nearest in the format *)
Lemma mirror_mirror c h : mirror (mirror c) h = c h.
Proof. unfold mirror. by rewrite Z.opp_involutive, CompOpp_involutive. Qed.
Lemma representable_opp u : representable u -> representable (- u).
Proof. intros (m & k & Hm & Hk & ->). exists (- m), k. rewrite Z.abs_opp. split; [done|]. split; [done|lia]. Qed.
Lemma nearest_opp c x : nearest_rep c x -> nearest_rep (mirror c) (SFopp x).
Proof.
  intros H u Hu. assert (sf_units (SFopp x) = - sf_units x) as -> by (destruct x as [[]|[]| |[] m e]; cbn [SFopp sf_units cond_Zopp negb]; lia).
  assert (sf_even (SFopp x) = sf_even x) as -> by (by destruct x). destruct (H (- u) (representable_opp u Hu)) as [Hl Hr].
  unfold mirror. replace (- (u + - sf_units x)) with (- u + sf_units x) by lia. split; intros Hlt.
  - destruct (Hr ltac:(lia)) as [Hc He]. destruct (c _); cbn [CompOpp]; split; (done || by apply He).
  - destruct (Hl ltac:(lia)) as [Hc He]. destruct (c _); cbn [CompOpp]; split; (done || by apply He).
Qed.
Lemma emin_below : emin < emax - prec.
Proof. unfold SpecFloat.emin. lia. Qed.
(** The units of a result and the grid it lies on. *)
Lemma rounded_units R e : 0 <= R <= 2 ^ prec -> emin <= e -> (emin < e -> 2 ^ (prec - 1) <= R) ->
  let x := rounded_sf false R e in
  valid x /\ sf_sign x = false /\
  (e <= emax - prec -> sf_units x = R * 2 ^ (e - emin) /\ (Z.even R = true -> sf_even x = true)) /\
  (emax - prec < e -> sf_units x = top /\ sf_even x = true).
Proof.
  intros HR He Hn. pose proof pow_prec as (E2 & H2 & Ev). pose proof emin_below as Hb. cbv zeta. unfold rounded_sf.
  destruct (Z.eqb_spec R 0) as [->|H0]; [split; [done|split; [done|split]]; [done|intros Hlt; specialize (Hn ltac:(lia)); lia]|].
  destruct (Z.eqb_spec R (2 ^ prec)) as [->|Hne]; unfold bounded_sf.
  - destruct (Z.leb_spec (e + 1) (emax - prec)).
    + assert (Zpos (Z.to_pos (2 ^ (prec - 1))) = 2 ^ (prec - 1)) as Ep by (rewrite Z2Pos.id; lia).
      split; [split; [lia|rewrite Ep; lia]|]. split; [done|]. split; [|lia]. intros _. cbn [sf_units sf_even cond_Zopp]. rewrite Ep. split; [|done].
      rewrite E2, (Z.mul_comm 2), <- Z.mul_assoc, <- Z.pow_succ_r by lia. do 2 f_equal. lia.
    + split; [done|]. split; [done|]. split; [|done]. intros Hle. split; [|done]. cbn [sf_units cond_Zopp]. unfold top. do 2 f_equal. lia.
  - assert (Zpos (Z.to_pos R) = R) as Ep by (rewrite Z2Pos.id; lia). destruct (Z.leb_spec e (emax - prec)).
    + split; [split; [lia|rewrite Ep; lia]|]. split; [done|]. split; [|lia]. intros _. cbn [sf_units sf_even cond_Zopp]. by rewrite Ep.
    + split; [done|]. split; [done|]. split; [lia|done].
Qed.
Lemma grid u k R : representable u -> 0 <= k -> (0 < k -> 2 ^ (prec - 1) <= R) ->
  (u <= (R - 1) * 2 ^ k \/ u <= 2 ^ (prec - 1) * 2 ^ k /\ R = 2 ^ (prec - 1) /\ 0 < k) \/ u = R * 2 ^ k \/ (R + 1) * 2 ^ k <= u.
Proof.
  intros (m & j & Hm & Hj & ->) Hk HR. pose proof pow_prec as (E2 & H2 & _). destruct (Z.le_gt_cases k j) as [Hle|Hgt].
  - assert (m * 2 ^ j = m * 2 ^ (j - k) * 2 ^ k) as -> by (rewrite <- Z.mul_assoc, <- Z.pow_add_r by lia; do 2 f_equal; lia).
    assert (0 < 2 ^ k) by (apply Z.pow_pos_nonneg; lia). destruct (Z.lt_trichotomy (m * 2 ^ (j - k)) R) as [Hl|[->|Hl]]; [left; left|right; left|right; right]; nia.
  - specialize (HR ltac:(lia)). assert (m * 2 ^ j <= 2 ^ (prec - 1) * 2 ^ k) as Hle.
    { assert (0 < 2 ^ j) by (apply Z.pow_pos_nonneg; lia). assert (2 * 2 ^ j <= 2 ^ k) by (rewrite <- Z.pow_succ_r by lia; apply Z.pow_le_mono_r; lia). nia. }
    left. destruct (Z.eq_dec R (2 ^ (prec - 1))) as [->|]; [right; split; [done|split; [done|lia]]|left].
    assert (0 < 2 ^ k) by (apply Z.pow_pos_nonneg; lia). nia.
Qed.
Lemma representable_top u : representable u -> u <= top.
Proof.
  intros (m & k & Hm & Hk & ->). unfold top. assert (2 ^ k <= 2 ^ kmax) by (apply Z.pow_le_mono_r; lia).
  assert (0 < 2 ^ k) by (apply Z.pow_pos_nonneg; lia). assert (0 < 2 ^ prec) by (apply Z.pow_pos_nonneg; lia). nia.
Qed.
Lemma rounded_nearest_rep R e c : cut c -> emin <= e -> 0 <= R <= 2 ^ prec -> nearest (scale (e - emin) c) R ->
  (emin < e -> 2 ^ (prec - 1) <= R /\ scale (e - emin) c (2 * 2 ^ (prec - 1)) <> Lt) -> nearest_rep c (rounded_sf false R e).
Proof.
  intros Hc He HR (Hlo & Hhi & Hev) Hlow u Hu. pose proof pow_prec as (E2 & H2 & _).
  destruct (rounded_units R e HR He ltac:(intros; by apply Hlow)) as (_ & _ & Hin & Hout). set (k := e - emin) in *.
  assert (0 < 2 ^ k) as Hp by (apply Z.pow_pos_nonneg; lia). unfold scale in *.
  destruct (Z.le_gt_cases e (emax - prec)) as [Hle|Hgt].
  - destruct (Hin Hle) as [-> Heven]. destruct (grid u k R Hu ltac:(lia) ltac:(intros; apply Hlow; lia)) as [[Hu'|(Hu' & ER & Hk)]|[->|Hu']].
    + split; [intros _|nia]. split; [apply (cut_below c Hc _ ((2 * R - 1) * 2 ^ k)); [nia|done]|].
      intros E. apply Heven, Hev. left. replace ((2 * R - 1) * 2 ^ k) with (u + R * 2 ^ k); [done|].
      destruct (Z.eq_dec (u + R * 2 ^ k) ((2 * R - 1) * 2 ^ k)) as [->|]; [done|].
      rewrite (cut_gt c Hc _ ((2 * R - 1) * 2 ^ k)) in E by (nia || done). done.
    + split; [intros Hlt|nia]. rewrite (cut_gt c Hc _ (2 * 2 ^ (prec - 1) * 2 ^ k)); [done|nia|apply Hlow; lia].
    + split; lia.
    + split; [nia|intros _]. split; [apply (cut_above c Hc ((2 * R + 1) * 2 ^ k)); [nia|done]|].
      intros E. apply Heven, Hev. right. replace ((2 * R + 1) * 2 ^ k) with (u + R * 2 ^ k); [done|].
      destruct (Z.eq_dec (u + R * 2 ^ k) ((2 * R + 1) * 2 ^ k)) as [->|]; [done|].
      rewrite (Hc ((2 * R + 1) * 2 ^ k)) in E by (nia || done). done.
  - destruct (Hout Hgt) as [-> Heven]. pose proof (representable_top u Hu). split; [intros Hlt|lia].
    pose proof emin_below as Hb. destruct (Hlow ltac:(lia)) as [_ Hl].
    rewrite (cut_gt c Hc _ (2 * 2 ^ (prec - 1) * 2 ^ k)); [done| |done].
    assert (2 * 2 ^ kmax <= 2 ^ k) by (rewrite <- Z.pow_succ_r by lia; apply Z.pow_le_mono_r; lia). assert (2 ^ (prec - 1) * 2 * 2 ^ kmax = top) by (unfold top; rewrite E2; lia). nia.
Qed.
Lemma rounded_sign s R e : rounded_sf s R e = if s then SFopp (rounded_sf false R e) else rounded_sf false R e.
Proof. destruct s; [|done]. unfold rounded_sf, bounded_sf. by repeat case_match. Qed.
(** [binary_round_aux] rounds correctly a number whose exponent is at most the one the
    format gives it. *)
Lemma aux_rounds s mx ex l c cu : cut c -> cut cu -> stands c (shr_record_of_loc mx l) -> ex <= fexp (Zdigits2 mx + ex) ->
  (forall h e, ex <= e -> emin <= e -> c (h * 2 ^ (e - ex)) = cu (h * 2 ^ (e - emin))) ->
  rounding cu s (binary_round_aux prec emax s mx ex l).
Proof.
  intros Hc Hcu Hst He Hlink. destruct (round_aux s mx ex l c Hc Hst He) as (R & HR & HRb & Hlow & ->).
  set (e1 := fexp _) in *. assert (emin <= e1) as He1 by (unfold e1, SpecFloat.fexp; lia).
  assert (forall h, scale (e1 - ex) c h = scale (e1 - emin) cu h) as Hs by (intros h; by apply Hlink).
  unfold nearest in HR. rewrite !Hs in *. rewrite rounded_sign.
  destruct (rounded_units R e1 HRb He1 ltac:(intros; by apply Hlow)) as (Hv & Hsg & _).
  pose proof (rounded_nearest_rep R e1 cu Hcu He1 HRb HR Hlow) as Hn. destruct s; split; try done.
  - by apply nearest_opp.
  - by destruct (rounded_sf false R e1).
  - by destruct (rounded_sf false R e1) as [[]|[]| |[]].
Qed.

(** ** The operations *)
Lemma nearest_ext c c' x : (forall h, c h = c' h) -> nearest_rep c x -> nearest_rep c' x.
Proof. intros E H u Hu. rewrite <- !E. by apply H. Qed.
Lemma compare_scale k a b : 0 < k -> (a * k ?= b * k) = (a ?= b).
Proof. intros Hk. symmetry. apply Zmult_compare_compat_r. lia. Qed.
(** An exact quotient [N / D] with the exponent [ex] is the quotient [P / Q] in units. *)
Definition same_value (N D ex P Q : Z) : Prop :=
  exists j, 0 <= j /\ 0 <= ex - emin + j /\ P * D * 2 ^ j = Q * N * 2 ^ (ex - emin + j).
Lemma ratio_link N D ex P Q h e : 0 < D -> 0 < Q -> same_value N D ex P Q -> ex <= e -> emin <= e ->
  ratio N D (h * 2 ^ (e - ex)) = ratio P Q (h * 2 ^ (e - emin)).
Proof.
  intros HD HQ (j & Hj & Hj' & E) H1 H2. unfold ratio.
  assert (0 < 2 ^ j /\ 0 < 2 ^ (ex - emin + j)) as [P1 P2] by (split; apply Z.pow_pos_nonneg; lia).
  rewrite <- (compare_scale (Q * 2 ^ (ex - emin + j)) (2 * N)), <- (compare_scale (D * 2 ^ j) (2 * P)) by nia.
  replace (2 * N * (Q * 2 ^ (ex - emin + j))) with (2 * (Q * N * 2 ^ (ex - emin + j))) by lia.
  replace (2 * P * (D * 2 ^ j)) with (2 * (P * D * 2 ^ j)) by lia. rewrite E. f_equal.
  replace (h * 2 ^ (e - ex) * D * (Q * 2 ^ (ex - emin + j))) with (h * D * Q * (2 ^ (e - ex) * 2 ^ (ex - emin + j))) by lia.
  replace (h * 2 ^ (e - emin) * Q * (D * 2 ^ j)) with (h * D * Q * (2 ^ (e - emin) * 2 ^ j)) by lia.
  rewrite <- !Z.pow_add_r by lia. do 2 f_equal. lia.
Qed.
Lemma ratio_rounds s mx l N D ex P Q : 0 < D -> 0 < Q -> stands (ratio N D) (shr_record_of_loc mx l) ->
  ex <= fexp (Zdigits2 mx + ex) -> same_value N D ex P Q -> rounding (ratio P Q) s (binary_round_aux prec emax s mx ex l).
Proof.
  intros HD HQ Hst He Hv. apply (aux_rounds s mx ex l (ratio N D)); try done; try by apply cut_ratio.
  intros h e H1 H2. by apply ratio_link.
Qed.
Lemma exact_stands M : 0 <= M -> stands (ratio M 1) (shr_record_of_loc M loc_Exact).
Proof.
  intros HM. unfold stands, ratio. cbn [shr_record_of_loc shr_m shr_r shr_s Z.b2z]. split; [done|].
  split; [apply Z.compare_eq_iff|apply Z.compare_lt_iff]; lia.
Qed.
Lemma binary_rounds s m e P Q : 0 < Q -> same_value (Zpos m) 1 e P Q -> rounding (ratio P Q) s (binary_round prec emax s m e).
Proof.
  intros HQ (j & Hj & Hj' & E). unfold binary_round. set (e' := fexp _). pose proof (digits_log2 m) as Ed. pose proof (Z.log2_nonneg (Zpos m)).
  assert (exists k, 0 <= k /\ shl_align m e e' = (fst (shl_align m e e'), e - k) /\ e - k <= e' /\ Zpos (fst (shl_align m e e')) = Zpos m * 2 ^ k) as (k & Hk & Ea & Hle & Ev).
  { unfold shl_align. destruct (e' - e) as [|d|d] eqn:Ee.
    - exists 0. rewrite Z.sub_0_r, Z.mul_1_r. split; [done|]. split; [done|]. split; [lia|done].
    - exists 0. rewrite Z.sub_0_r, Z.mul_1_r. split; [done|]. split; [done|]. split; [lia|done].
    - exists (Zpos d). cbn [fst]. rewrite iter_double. split; [done|]. split; [f_equal; lia|]. split; [lia|done]. }
  rewrite Ea. set (mz := fst _) in *. apply (ratio_rounds s _ _ (Zpos mz) 1); [done|done|by apply exact_stands| |].
  - rewrite Ev. rewrite digits_of, Z.log2_mul_pow2 by (lia || (apply Z.mul_pos_pos; [lia|apply Z.pow_pos_nonneg; lia])).
    replace (k + Z.log2 (Zpos m) + 1 + (e - k)) with (Zpos (digits2_pos m) + e) by lia. exact Hle.
  - exists (j + k). split; [lia|]. split; [lia|]. rewrite Ev, Z.pow_add_r by lia.
    replace (Q * (Zpos m * 2 ^ k) * 2 ^ (e - k - emin + (j + k))) with (Q * Zpos m * 2 ^ (e - emin + j) * 2 ^ k) by (replace (e - k - emin + (j + k)) with (e - emin + j) by lia; lia).
    rewrite <- E. lia.
Qed.
(** A signed integer mantissa. *)
Lemma mirror_ratio P Q h : mirror (ratio P Q) h = ratio (- P) Q h.
Proof. unfold mirror, ratio. rewrite <- Z.compare_antisym, <- Z.compare_opp. f_equal; lia. Qed.
Lemma nearest_zero s Q : 0 < Q -> nearest_rep (ratio 0 Q) (S754_zero s).
Proof.
  intros HQ u _. cbn [sf_units]. rewrite Z.add_0_r. unfold ratio. split; intros Hu; [rewrite (proj2 (Z.compare_gt_iff _ _)) by nia|rewrite (proj2 (Z.compare_lt_iff _ _)) by nia]; done.
Qed.
Lemma rounding_signed s P Q x : rounding (ratio P Q) s x -> nearest_rep (ratio (cond_Zopp s P) Q) x.
Proof. intros [Hn _ _]. destruct s; [|exact Hn]. eapply nearest_ext; [|exact Hn]. intros h. apply mirror_ratio. Qed.
Lemma normalize_rounds m e s0 P Q : 0 < Q -> same_value m 1 e P Q ->
  let x := binary_normalize prec emax m e s0 in
  nearest_rep (ratio P Q) x /\ valid x /\ sf_sign x = (if m =? 0 then s0 else m <? 0).
Proof.
  intros HQ Hv x. subst x. destruct m as [|m|m]; cbn [binary_normalize].
  - split; [|done]. destruct Hv as (j & Hj & Hj' & E). assert (0 < 2 ^ j) by (apply Z.pow_pos_nonneg; lia).
    assert (P = 0) as -> by nia. by apply nearest_zero.
  - pose proof (binary_rounds false m e P Q HQ Hv) as H. split; [apply (rounding_signed false _ _ _ H)|]. by destruct H.
  - assert (same_value (Zpos m) 1 e (- P) Q) as Hv'.
    { destruct Hv as (j & Hj & Hj' & E). exists j. split; [done|]. split; [done|]. change (Zneg m) with (- Zpos m) in E. lia. }
    pose proof (binary_rounds true m e (- P) Q HQ Hv') as H. split; [|by destruct H].
    pose proof (rounding_signed true _ _ _ H) as Hn. cbn [cond_Zopp] in Hn. by rewrite Z.opp_involutive in Hn.
Qed.

(** Neither NaN nor infinity. *)
Definition fin (x : spec_float) : Prop := match x with S754_finite _ m e => canon m e | S754_zero _ => True | _ => False end.
Lemma emin_neg : emin <= -2.
Proof. unfold SpecFloat.emin. lia. Qed.
Lemma units_pos m e : canon m e -> 0 < Zpos m * 2 ^ (e - emin).
Proof. intros [He _]. apply Z.mul_pos_pos; [lia|apply Z.pow_pos_nonneg; lia]. Qed.
Lemma units_zero x : fin x -> sf_units x = 0 -> exists s, x = S754_zero s.
Proof.
  destruct x as [s|s| |s m e]; try done; [by exists s|]. intros Hc. pose proof (units_pos m e Hc). cbn [sf_units]. destruct s; cbn [cond_Zopp]; lia.
Qed.
(** A number of the format is its own rounding. *)
Lemma nearest_self x : nearest_rep (ratio (sf_units x) 1) x.
Proof. intros u _. unfold ratio. split; intros Hu; [rewrite (proj2 (Z.compare_gt_iff _ _)) by lia|rewrite (proj2 (Z.compare_lt_iff _ _)) by lia]; done. Qed.
Lemma units_sign x : fin x -> sf_units x <> 0 -> sf_sign x = (sf_units x <? 0).
Proof.
  destruct x as [s|s| |s m e]; try done. intros Hc _. pose proof (units_pos m e Hc). cbn [sf_units sf_sign].
  destruct s; cbn [cond_Zopp]; symmetry; [apply Z.ltb_lt|apply Z.ltb_ge]; lia.
Qed.
Lemma fin_valid x : fin x -> valid x.
Proof. by destruct x. Qed.
Lemma aligned m e e' : emin <= e' <= e -> Zpos (fst (shl_align m e e')) * 2 ^ (e' - emin) = Zpos m * 2 ^ (e - emin).
Proof. intros He. rewrite shl_align_value, <- Z.mul_assoc, <- Z.pow_add_r by lia. do 2 f_equal. lia. Qed.
Lemma add_rounds x y : fin x -> fin y ->
  let r := SFadd prec emax x y in let n := sf_units x + sf_units y in
  nearest_rep (ratio n 1) r /\ valid r /\ sf_sign r = (if n =? 0 then sf_sign x && sf_sign y else n <? 0).
Proof.
  intros Hx Hy r n.
  assert (forall z, fin z -> sf_units z = n -> (n = 0 -> sf_sign z = sf_sign x && sf_sign y) -> r = z ->
    nearest_rep (ratio n 1) r /\ valid r /\ sf_sign r = (if n =? 0 then sf_sign x && sf_sign y else n <? 0)) as Hcopy.
  { intros z Hz En H0 ->. rewrite <- En. split; [apply nearest_self|]. split; [by apply fin_valid|].
    destruct (Z.eqb_spec (sf_units z) 0) as [E|E]; [apply H0; lia|by apply units_sign]. }
  destruct x as [sx|sx| |sx mx ex]; try done; destruct y as [sy|sy| |sy my ey]; try done.
  - apply (Hcopy (S754_zero (sx && sy))); try done. by destruct sx, sy.
  - apply (Hcopy (S754_finite sy my ey)); try done. intros E. pose proof (units_zero _ Hy E) as [? ?]. done.
  - apply (Hcopy (S754_finite sx mx ex)); try done; [subst n; cbn [sf_units]; lia|]. intros E. subst n. cbn [sf_units] in E. rewrite Z.add_0_r in E.
    pose proof (units_zero (S754_finite sx mx ex) Hx E) as [? ?]. done.
  - subst r. cbn [SFadd]. set (ez := Z.min ex ey). set (M := _ + _). assert (emin <= ez) as Hez by (destruct Hx as [? _], Hy as [? _]; lia).
    assert (M * 2 ^ (ez - emin) = n) as EM.
    { subst M n. cbn [sf_units]. pose proof (aligned mx ex ez ltac:(lia)) as <-. pose proof (aligned my ey ez ltac:(lia)) as <-.
      destruct sx, sy; cbn [cond_Zopp]; lia. }
    assert (0 < 2 ^ (ez - emin)) as Hp by (apply Z.pow_pos_nonneg; lia).
    destruct (normalize_rounds M ez false n 1) as (H1 & H2 & H3); [done| |].
    { exists 0. split; [done|]. split; [lia|]. rewrite Z.add_0_r, <- EM. lia. }
    split; [done|]. split; [done|]. rewrite H3. destruct (Z.eqb_spec M 0) as [->|HM].
    + rewrite <- EM. cbn [sf_sign]. pose proof (units_pos _ _ Hx). pose proof (units_pos _ _ Hy). subst n. cbn [sf_units] in EM.
      destruct sx, sy; cbn [cond_Zopp] in EM; (done || lia).
    + rewrite (proj2 (Z.eqb_neq n 0)) by nia. destruct (Z.ltb_spec M 0), (Z.ltb_spec n 0); (done || nia).
Qed.
Lemma sub_opp x y : SFsub prec emax x y = SFadd prec emax x (SFopp y).
Proof.
  destruct x as [[]|[]| |sx mx ex], y as [[]|[]| |sy my ey]; try done; cbn [SFsub SFadd SFopp]; try done.
  f_equal. destruct sx, sy; cbn [cond_Zopp negb]; lia.
Qed.
Lemma mul_rounds x y : fin x -> fin y ->
  let r := SFmul prec emax x y in
  nearest_rep (ratio (sf_units x * sf_units y) (2 ^ (- emin))) r /\ valid r /\ sf_sign r = xorb (sf_sign x) (sf_sign y).
Proof.
  intros Hx Hy r. pose proof emin_neg as Hn. assert (0 < 2 ^ (- emin)) as HQ by (apply Z.pow_pos_nonneg; lia).
  destruct x as [sx|sx| |sx mx ex]; try done; destruct y as [sy|sy| |sy my ey]; try done;
    try (subst r; cbn [SFmul sf_units]; rewrite ?Z.mul_0_r, ?Z.mul_0_l; split; [by apply nearest_zero|done]).
  destruct Hx as (Hex & Hmx & Hlx), Hy as (Hey & Hmy & Hly).
  destruct (ratio_rounds (xorb sx sy) (Zpos (mx * my)) loc_Exact (Zpos (mx * my)) 1 (ex + ey)
    (Zpos mx * 2 ^ (ex - emin) * (Zpos my * 2 ^ (ey - emin))) (2 ^ (- emin))) as [H1 H2 H3]; [done|done|by apply exact_stands| | |].
  - rewrite digits_of by lia. rewrite Pos2Z.inj_mul.
    assert (emin < ex \/ emin < ey -> prec <= Z.log2 (Zpos mx * Zpos my) + 1) as Hd.
    { intros Hor. assert (prec - 1 <= Z.log2 (Zpos mx * Zpos my)); [|lia]. apply Z.log2_le_pow2; [lia|]. destruct Hor as [Ho|Ho]; [specialize (Hlx Ho)|specialize (Hly Ho)]; nia. }
    unfold SpecFloat.fexp. destruct (Z.le_gt_cases (ex + ey) emin); [lia|]. specialize (Hd ltac:(lia)). lia.
  - exists (- emin). split; [lia|]. split; [lia|]. rewrite Pos2Z.inj_mul.
    replace (ex + ey - emin + - emin) with ((ex - emin) + (ey - emin)) by lia. rewrite Z.pow_add_r by lia. lia.
  - split; [|by split]. destruct sx, sy; cbn [xorb cond_Zopp sf_units] in *; (eapply nearest_ext; [|exact H1]); intros h; rewrite ?mirror_ratio; f_equal; lia.
Qed.

(** The digit count of a floored quotient and root. *)
Lemma digits_ge m k : 0 <= m -> 2 ^ (k - 1) <= m -> k <= Zdigits2 m.
Proof.
  intros Hm Hk. destruct (digits_range m Hm) as (Hd & Hlt & _). destruct (Z.le_gt_cases k (Zdigits2 m)) as [|Hg]; [done|].
  assert (2 ^ Zdigits2 m <= 2 ^ (k - 1)) by (apply Z.pow_le_mono_r; lia). lia.
Qed.
Lemma new_location_stands N D : 0 <= N -> 0 < D -> stands (ratio N D) (shr_record_of_loc (N / D) (new_location D (N mod D))).
Proof.
  intros HN HD. pose proof (Z.div_mod N D ltac:(lia)) as E. pose proof (Z.mod_pos_bound N D HD) as Hm. pose proof (Z.div_pos N D HN HD).
  set (q := N / D) in *. set (r := N mod D) in *. clearbody q r.
  assert (new_location D r = if r =? 0 then loc_Exact else loc_Inexact (2 * r ?= D)) as ->.
  { unfold new_location, new_location_even, new_location_odd. destruct (Z.even D) eqn:Ev; [done|]. destruct (r =? 0); [done|]. f_equal.
    destruct (Z.compare_spec (2 * r) D) as [Er|Hl|Hg].
    - rewrite <- Er, Z.even_mul in Ev. done.
    - destruct (Z.compare_spec (2 * r + 1) D); (done || lia).
    - by rewrite (proj2 (Z.compare_gt_iff _ _)) by lia. }
  unfold stands, ratio. destruct (Z.eqb_spec r 0) as [->|Hr]; [|destruct (Z.compare_spec (2 * r) D)];
    cbn [shr_record_of_loc shr_m shr_r shr_s Z.b2z]; (split; [done|]); (split; [apply Z.compare_eq_iff || apply Z.compare_gt_iff|apply Z.compare_lt_iff]); nia.
Qed.
Lemma div_rounds_pos mx ex my ey s : canon mx ex -> canon my ey ->
  rounding (ratio (Zpos mx * 2 ^ (ex - emin) * 2 ^ (- emin)) (Zpos my * 2 ^ (ey - emin))) s
    (let '(mz, ez, lz) := SFdiv_core_binary prec emax (Zpos mx) ex (Zpos my) ey in binary_round_aux prec emax s mz ez lz).
Proof.
  intros Hx Hy. pose proof emin_neg. pose proof (units_pos _ _ Hy) as HQ. destruct Hx as (Hex & _ & _), Hy as (Hey & _ & _). unfold SFdiv_core_binary.
  set (d1 := Zdigits2 (Zpos mx)). set (d2 := Zdigits2 (Zpos my)). set (e' := Z.min (fexp (d1 + ex - (d2 + ey))) (ex - ey)).
  set (n := ex - ey - e'). assert (n = ex - ey - e') as En by done.
  assert (0 <= n /\ emin <= e' + Z.max 0 (emin - (ex - ey))) as [Hn He'] by (subst n e'; unfold SpecFloat.fexp; lia).
  assert (match n with 0 => Zpos mx | Zpos _ => Z.shiftl (Zpos mx) n | _ => 0 end = Zpos mx * 2 ^ n) as ->.
  { destruct n; [by rewrite Z.mul_1_r|by apply Z.shiftl_mul_pow2|lia]. }
  assert (0 < 2 ^ n) as Hp by (apply Z.pow_pos_nonneg; lia).
  pose proof (new_location_stands (Zpos mx * 2 ^ n) (Zpos my) ltac:(lia) ltac:(lia)) as Hst. unfold Z.div, Z.modulo in Hst.
  assert (0 <= Zpos mx * 2 ^ n / Zpos my) as Hq by (apply Z.div_pos; lia). pose proof (Z.mul_succ_div_gt (Zpos mx * 2 ^ n) (Zpos my) ltac:(lia)) as Hgt.
  unfold Z.div in Hq, Hgt. destruct (Z.div_eucl (Zpos mx * 2 ^ n) (Zpos my)) as [q r]. apply (ratio_rounds s q _ (Zpos mx * 2 ^ n) (Zpos my)); try done.
  - destruct (digits_range (Zpos mx) ltac:(lia)) as (_ & _ & H1). destruct (digits_range (Zpos my) ltac:(lia)) as (H0 & H2 & _). fold d1 d2 in H0, H1, H2.
    assert (0 < d1) as Hd1 by (subst d1; rewrite digits_of by lia; pose proof (Z.log2_nonneg (Zpos mx)); lia). specialize (H1 Hd1).
    assert (d1 + n - d2 <= Zdigits2 q) as Hd.
    { destruct (Z.le_gt_cases 1 (d1 + n - d2)) as [Hk|Hk]; [|pose proof (digits_range q Hq); lia]. apply digits_ge; [done|].
      assert (2 ^ (d1 - 1) * 2 ^ n = 2 ^ d2 * 2 ^ (d1 + n - d2 - 1)) as E by (rewrite <- !Z.pow_add_r by lia; f_equal; lia).
      assert (0 < 2 ^ (d1 + n - d2 - 1)) by (apply Z.pow_pos_nonneg; lia). nia. }
    assert (d1 + ex - (d2 + ey) <= Zdigits2 q + e') by lia. subst e'. unfold SpecFloat.fexp in *. lia.
  - exists (- emin - emin + ey). split; [lia|]. split; [lia|].
    replace (Zpos mx * 2 ^ (ex - emin) * 2 ^ (- emin) * Zpos my * 2 ^ (- emin - emin + ey)) with (Zpos mx * Zpos my * (2 ^ (ex - emin) * 2 ^ (- emin) * 2 ^ (- emin - emin + ey))) by lia.
    replace (Zpos my * 2 ^ (ey - emin) * (Zpos mx * 2 ^ n) * 2 ^ (e' - emin + (- emin - emin + ey))) with (Zpos mx * Zpos my * (2 ^ (ey - emin) * 2 ^ n * 2 ^ (e' - emin + (- emin - emin + ey)))) by lia.
    rewrite <- !Z.pow_add_r by lia. do 2 f_equal. lia.
Qed.
Lemma div_rounds x y : fin x -> fin y -> sf_units y <> 0 ->
  let r := SFdiv prec emax x y in
  nearest_rep (ratio (sf_units x * 2 ^ (- emin) * Z.sgn (sf_units y)) (Z.abs (sf_units y))) r /\ valid r /\
  sf_sign r = xorb (sf_sign x) (sf_sign y).
Proof.
  intros Hx Hy Hn r. destruct y as [sy|sy| |sy my ey]; try done. pose proof (units_pos _ _ Hy) as HQ.
  destruct x as [sx|sx| |sx mx ex]; try done.
  { subst r. cbn [SFdiv]. change (sf_units (S754_zero sx)) with 0. rewrite !Z.mul_0_l. split; [apply nearest_zero; lia|done]. }
  destruct (div_rounds_pos mx ex my ey (xorb sx sy) Hx Hy) as [H1 H2 H3]. cbn [sf_units]. split; [|by split].
  eapply nearest_ext; [|exact H1]. intros h. set (a := Zpos mx * _) in *. set (b := Zpos my * _) in *.
  destruct sx, sy; cbn [xorb cond_Zopp]; rewrite ?mirror_ratio, ?Z.sgn_opp, ?Z.abs_opp, (Z.sgn_pos b), (Z.abs_eq b) by lia; f_equal; lia.
Qed.
Lemma root_stands n : 0 <= n -> let (q, r) := Z.sqrtrem n in
  stands (root n) (shr_record_of_loc q (if r =? 0 then loc_Exact else loc_Inexact (if r <=? q then Lt else Gt))).
Proof.
  intros Hn. pose proof (Z.sqrtrem_spec n Hn) as Hs. destruct (Z.sqrtrem n) as [q r]. destruct Hs as [E Hr].
  assert (0 <= q) as Hq by (destruct (Z.le_gt_cases 0 q); [done|lia]). unfold stands, root.
  destruct (Z.eqb_spec r 0); [|destruct (Z.leb_spec r q)]; cbn [shr_record_of_loc shr_m shr_r shr_s Z.b2z]; (split; [done|]);
    rewrite !(proj2 (Z.ltb_ge _ 0)) by lia; (split; [apply Z.compare_eq_iff || apply Z.compare_gt_iff|apply Z.compare_lt_iff]); nia.
Qed.
Lemma sqrt_rounds x : fin x -> 0 <= sf_units x ->
  let r := SFsqrt prec emax x in
  nearest_rep (root (sf_units x * 2 ^ (- emin))) r /\ valid r /\ sf_sign r = sf_sign x.
Proof.
  intros Hx Hn r. pose proof emin_neg as He. destruct x as [sx|sx| |sx m e]; try done.
  { subst r. cbn [SFsqrt]. split; [|done]. intros u _. cbn [sf_units]. rewrite Z.add_0_r, Z.mul_0_l. unfold root.
    destruct (Z.ltb_spec u 0); (split; intros Hu; [|]); try lia; [by split|]. by rewrite (proj2 (Z.compare_lt_iff _ _)) by nia. }
  destruct sx; [pose proof (units_pos _ _ Hx); cbn [sf_units cond_Zopp] in Hn; lia|]. destruct Hx as ((Hee & _) & _ & _). cbn [sf_units cond_Zopp].
  assert (rounding (root (Zpos m * 2 ^ (e - emin) * 2 ^ (- emin))) false r) as [H1 H2 H3]; [|by split]. subst r. cbn [SFsqrt]. unfold SFsqrt_core_binary. rewrite !Z.div2_div.
  set (d := Zdigits2 (Zpos m)). set (e' := Z.min (fexp ((d + e + 1) / 2)) (e / 2)). set (n := e - 2 * e'). assert (n = e - 2 * e') as En by done.
  pose proof (Z.div_mod e 2 ltac:(lia)) as Ed. pose proof (Z.mod_pos_bound e 2 ltac:(lia)).
  pose proof (Z.div_mod (d + e + 1) 2 ltac:(lia)) as Ed'. pose proof (Z.mod_pos_bound (d + e + 1) 2 ltac:(lia)).
  assert (0 <= n) as Hn0 by (subst n e'; lia).
  assert (match n with 0 => Zpos m | Zpos _ => Z.shiftl (Zpos m) n | _ => 0 end = Zpos m * 2 ^ n) as ->.
  { destruct n; [by rewrite Z.mul_1_r|by apply Z.shiftl_mul_pow2|lia]. }
  assert (0 < 2 ^ n) as Hp by (apply Z.pow_pos_nonneg; lia).
  pose proof (root_stands (Zpos m * 2 ^ n) ltac:(lia)) as Hst. pose proof (Z.sqrtrem_spec (Zpos m * 2 ^ n) ltac:(lia)) as Hs.
  destruct (Z.sqrtrem (Zpos m * 2 ^ n)) as [q r]. destruct Hs as [Es Hr].
  apply (aux_rounds false q e' _ (root (Zpos m * 2 ^ n))); [apply cut_root..|exact Hst| |].
  - destruct (digits_range (Zpos m) ltac:(lia)) as (_ & _ & H1). fold d in H1.
    assert (0 < d) as Hd by (subst d; rewrite digits_of by lia; pose proof (Z.log2_nonneg (Zpos m)); lia). specialize (H1 Hd).
    assert ((d + e + 1) / 2 - e' <= Zdigits2 q) as Hdq.
    { apply digits_ge; [lia|]. set (k := (d + e + 1) / 2 - e'). destruct (Z.le_gt_cases k 0) as [Hk|Hk].
      { destruct (Z.eq_dec k 1); [lia|]. rewrite Z.pow_neg_r by lia. lia. }
      assert (2 ^ (k - 1) * 2 ^ (k - 1) <= 2 ^ (d - 1) * 2 ^ n) by (rewrite <- !Z.pow_add_r by lia; apply Z.pow_le_mono_r; subst k; lia).
      assert (0 < 2 ^ (k - 1)) by (apply Z.pow_pos_nonneg; lia). nia. }
    subst e'. unfold SpecFloat.fexp in *. lia.
  - intros h ee H1 H2. unfold root.
    assert (0 < 2 ^ (ee - e') /\ 0 < 2 ^ (ee - emin)) as [P1 P2] by (split; apply Z.pow_pos_nonneg; lia).
    destruct (Z.ltb_spec h 0) as [Hh|Hh]; [by rewrite !(proj2 (Z.ltb_lt _ 0)) by nia|]. rewrite !(proj2 (Z.ltb_ge _ 0)) by nia.
    assert (exists J, 2 * Z.abs emin + 2 * Z.abs e' <= J) as [J HJ] by by eexists.
    assert (0 < 2 ^ (J + 2 * e') /\ 0 < 2 ^ (J + 2 * emin)) as [P3 P4] by (split; apply Z.pow_pos_nonneg; lia).
    rewrite <- (compare_scale (2 ^ (J + 2 * e')) (4 * (Zpos m * 2 ^ n))), <- (compare_scale (2 ^ (J + 2 * emin)) (4 * (Zpos m * 2 ^ (e - emin) * 2 ^ (- emin)))) by done.
    replace (4 * (Zpos m * 2 ^ n) * 2 ^ (J + 2 * e')) with (4 * Zpos m * (2 ^ n * 2 ^ (J + 2 * e'))) by ring.
    replace (4 * (Zpos m * 2 ^ (e - emin) * 2 ^ (- emin)) * 2 ^ (J + 2 * emin)) with (4 * Zpos m * (2 ^ (e - emin) * 2 ^ (- emin) * 2 ^ (J + 2 * emin))) by ring.
    replace (h * 2 ^ (ee - e') * (h * 2 ^ (ee - e')) * 2 ^ (J + 2 * e')) with (h * h * (2 ^ (ee - e') * 2 ^ (ee - e') * 2 ^ (J + 2 * e'))) by lia.
    replace (h * 2 ^ (ee - emin) * (h * 2 ^ (ee - emin)) * 2 ^ (J + 2 * emin)) with (h * h * (2 ^ (ee - emin) * 2 ^ (ee - emin) * 2 ^ (J + 2 * emin))) by lia.
    rewrite <- !Z.pow_add_r by lia. f_equal; do 2 f_equal; lia.
Qed.
End format.
