(* ===== verification/FpProps.v ===== *)
(** The floating-point instructions against the IEEE encoding: what a bit pattern
    stands for is an exact integer number of units of the least subnormal, and the
    comparisons, the conversions to integers and the conversions between formats are
    stated on those integers. *)
From S2P Require Import Prelude Bits Insns State Mem Wf Exc Tlb LoadStore Alu Fp Fpu Arch ExcProps FpuProps Doubles.
From Stdlib Require Import SpecFloat.

(** The value of a pattern that is not a NaN, in units of [2^femin]; an infinity is the
    next power of two after the finite numbers. *)
Definition fp_units (F : fp_format) (b : Z) : Z :=
  let m := bits_man F b in let e := bits_exp F b in
  let a := if e =? 0 then m else (m + 2 ^ fmw F) * 2 ^ (e - 1) in
  if bits_sign F b then - a else a.
(** The four IEEE relations; [None] is unordered. *)
Definition fp_order (F : fp_format) (a b : Z) : option comparison :=
  if is_nan_bits F a || is_nan_bits F b then None else Some (fp_units F a ?= fp_units F b).
(** The relations a condition of C.cond.fmt selects. *)
Definition cond_holds (cond : Z) (r : option comparison) : bool :=
  match r with
  | None => Z.testbit cond 0
  | Some Eq => Z.testbit cond 1
  | Some Lt => Z.testbit cond 2
  | Some Gt => false
  end.

(** * Theorems *)
Section values.
Variable T : fp_type.
Abbreviation F := (fmt_of T).
Definition signed_units (s : bool) (a : Z) : Z := if s then - a else a.
(** One more than the largest finite value, in units. *)
Abbreviation top := (2 ^ fmw F * 2 ^ (2 ^ few F - 2)).
Lemma fields b : 0 <= bits_man F b < 2 ^ fmw F /\ 0 <= bits_exp F b < 2 ^ few F.
Proof.
  assert (0 < fmw F /\ 0 < few F) as [Hm He] by (by destruct T).
  unfold bits_man, bits_exp. rewrite !Z.land_ones by lia. split; apply Z.mod_pos_bound, Z.pow_pos_nonneg; lia.
Qed.
(** What the host makes of a pattern. *)
Inductive decoded (b : Z) : spec_float -> Prop :=
  | D_nan : is_nan_bits F b = true -> decoded b S754_nan
  | D_inf s : is_nan_bits F b = false -> fp_units F b = signed_units s top -> decoded b (S754_infinity s)
  | D_zero s : is_nan_bits F b = false -> fp_units F b = 0 -> decoded b (S754_zero s)
  | D_fin s m e : is_nan_bits F b = false -> femin F <= e -> Zpos m < 2 ^ fprec F -> (femin F < e -> 2 ^ fmw F <= Zpos m) ->
      e <= femax F - fprec F -> fp_units F b = signed_units s (Zpos m * 2 ^ (e - femin F)) -> decoded b (S754_finite s m e).
Lemma sf_decoded b : decoded b (sf F b).
Proof.
  destruct (fields b) as [Hm He]. assert (2 ^ fprec F = 2 * 2 ^ fmw F) as Ep by (by destruct T).
  assert (Z.ones (few F) = 2 ^ few F - 1) as Eo by (by destruct T). assert (2 ^ few F = 2 * femax F) as Ee by (by destruct T).
  assert (2 < 2 ^ few F) by (by destruct T). assert (0 < 2 ^ fmw F) by (by destruct T).
  unfold sf, sf_of_bits. set (m := bits_man F b) in *. set (e := bits_exp F b) in *.
  assert (is_nan_bits F b = (e =? 2 ^ few F - 1) && (m =/? 0)) as En by (unfold is_nan_bits; by rewrite Eo).
  assert (fp_units F b = signed_units (bits_sign F b) (if e =? 0 then m else (m + 2 ^ fmw F) * 2 ^ (e - 1))) as Eu by done.
  rewrite Eo. destruct (Z.eqb_spec e (2 ^ few F - 1)) as [E1|E1]; cbn [andb] in En.
  - rewrite (proj2 (Z.eqb_neq e 0)) in Eu by lia. destruct (Z.eqb_spec m 0) as [E0|E0]; cbn [negb] in En; [|by constructor].
    apply D_inf; [done|]. rewrite Eu. f_equal. rewrite E0, E1. f_equal. f_equal. lia.
  - destruct (Z.eqb_spec e 0) as [E0|E0].
    + destruct m as [|p|p] eqn:Em; [|apply D_fin|lia]; try done; try lia.
      * apply D_zero; [done|]. rewrite Eu. by destruct (bits_sign F b).
      * by destruct T.
      * rewrite Eu, Z.sub_diag, Z.mul_1_r. done.
    + destruct (m + 2 ^ fmw F) as [|p|p] eqn:Em; [lia| |lia]. apply D_fin; try done; try lia.
      * unfold femin in *. lia.
      * rewrite Eu. do 3 f_equal. lia.
Qed.
(** Magnitudes order as exponent, then mantissa. *)
Lemma units_compare m1 e1 m2 e2 : femin F <= e1 -> femin F <= e2 -> Zpos m1 < 2 ^ fprec F -> Zpos m2 < 2 ^ fprec F ->
  (femin F < e1 -> 2 ^ fmw F <= Zpos m1) -> (femin F < e2 -> 2 ^ fmw F <= Zpos m2) ->
  (Zpos m1 * 2 ^ (e1 - femin F) ?= Zpos m2 * 2 ^ (e2 - femin F)) =
    match e1 ?= e2 with Lt => Lt | Gt => Gt | Eq => Pos.compare_cont Eq m1 m2 end.
Proof.
  intros H1 H2 B1 B2 N1 N2. assert (2 ^ fprec F = 2 * 2 ^ fmw F) as Ep by (by destruct T).
  assert (forall m m' e e', femin F <= e -> e < e' -> Zpos m < 2 ^ fprec F -> 2 ^ fmw F <= Zpos m' ->
    Zpos m * 2 ^ (e - femin F) < Zpos m' * 2 ^ (e' - femin F)) as Hlt.
  { intros m m' e e' He Hee Hm Hm'. apply Z.lt_le_trans with (2 ^ fprec F * 2 ^ (e - femin F)).
    - apply Z.mul_lt_mono_pos_r; [apply Z.pow_pos_nonneg; lia|done].
    - rewrite Ep, (Z.mul_comm 2), <- Z.mul_assoc, <- Z.pow_succ_r by lia.
      apply Z.mul_le_mono_nonneg; [apply Z.pow_nonneg; lia|done|apply Z.pow_nonneg; lia|apply Z.pow_le_mono_r; lia]. }
  destruct (Z.compare_spec e1 e2) as [->|Hlt'|Hgt].
  - rewrite <- Zmult_compare_compat_r by (apply Z.lt_gt, Z.pow_pos_nonneg; lia). done.
  - apply Z.compare_lt_iff, Hlt; try done. apply N2. lia.
  - apply Z.compare_gt_iff, Hlt; try done. apply N1. lia.
Qed.
(** The host's comparison is the order of the values. *)
Lemma top_bound m e : Zpos m < 2 ^ fprec F -> femin F <= e <= femax F - fprec F -> Zpos m * 2 ^ (e - femin F) < top.
Proof.
  intros Hm He. assert (2 ^ fprec F = 2 * 2 ^ fmw F) as Ep by (by destruct T).
  assert (2 ^ few F - 2 = femax F - fprec F - femin F + 1) as -> by (by destruct T).
  rewrite Z.pow_add_r, Z.pow_1_r by (destruct T; done). 
  apply Z.lt_le_trans with (2 ^ fprec F * 2 ^ (e - femin F)).
  - apply Z.mul_lt_mono_pos_r; [apply Z.pow_pos_nonneg; lia|done].
  - assert (2 ^ (e - femin F) <= 2 ^ (femax F - fprec F - femin F)) by (apply Z.pow_le_mono_r; lia).
    assert (0 < 2 ^ fmw F) by (by destruct T). rewrite Ep. nia.
Qed.
Lemma compare_units a b : SFcompare (sf F a) (sf F b) = fp_order F a b.
Proof.
  assert (0 < top) as Ht by (by destruct T).
  unfold fp_order. destruct (sf_decoded a) as [Na|sa Na Ua|sa Na Ua|sa ma ea Na Ea Ma La Ha Ua]; rewrite Na; [done|..];
    destruct (sf_decoded b) as [Nb|sb Nb Ub|sb Nb Ub|sb mb eb Nb Eb Mb Lb Hb Ub]; rewrite Nb; cbn [orb]; try (by cbn; destruct sa);
    rewrite Ua, Ub; cbn [SFcompare]; f_equal; symmetry;
    try (pose proof (top_bound ma ea Ma (conj Ea Ha)); assert (0 < Zpos ma * 2 ^ (ea - femin F)) by (apply Z.mul_pos_pos; [lia|apply Z.pow_pos_nonneg; lia]));
    try (pose proof (top_bound mb eb Mb (conj Eb Hb)); assert (0 < Zpos mb * 2 ^ (eb - femin F)) by (apply Z.mul_pos_pos; [lia|apply Z.pow_pos_nonneg; lia])).
  all: try (destruct sa, sb; cbn [signed_units]; (apply Z.compare_eq_iff || apply Z.compare_lt_iff || apply Z.compare_gt_iff); lia).
  all: try (destruct sa; cbn [signed_units]; (apply Z.compare_eq_iff || apply Z.compare_lt_iff || apply Z.compare_gt_iff); lia).
  all: try (destruct sb; cbn [signed_units]; (apply Z.compare_eq_iff || apply Z.compare_lt_iff || apply Z.compare_gt_iff); lia).
  pose proof (units_compare ma ea mb eb Ea Eb Ma Mb La Lb) as Hc. destruct sa, sb; cbn [signed_units].
  - rewrite Z.compare_opp, Z.compare_antisym, Hc. by destruct (ea ?= eb).
  - apply Z.compare_lt_iff. lia.
  - apply Z.compare_gt_iff. lia.
  - exact Hc.
Qed.
Lemma nan_units b : fp_isnan F b = is_nan_bits F b.
Proof. unfold fp_isnan. by destruct (sf_decoded b) as [Nb|s Nb|s Nb|s m e Nb]; rewrite Nb. Qed.
Lemma cond_exact cond a b : 0 <= cond < 16 -> fp_cond T cond a b = cond_holds cond (fp_order F a b).
Proof.
  intros Hc. unfold fp_cond, fp_lt, fp_eq, SFltb, SFeqb. rewrite !nan_units, compare_units. unfold fp_order.
  assert (forall k, 0 <= k -> (cond .& 2 ^ k =/? 0) = Z.testbit cond k) as Hb.
  { intros k Hk. rewrite <- (Z.shiftl_1_l k), (land_bit cond k) by done. done. }
  pose proof (Hb 2 ltac:(done)) as H2. pose proof (Hb 1 ltac:(done)) as H1. pose proof (Hb 0 ltac:(done)) as H0.
  change (2 ^ 2) with 4 in H2. change (2 ^ 1) with 2 in H1. change (2 ^ 0) with 1 in H0. rewrite H2, H1, H0.
  destruct (is_nan_bits F a || is_nan_bits F b); cbn [cond_holds]; [by rewrite !andb_false_r, andb_true_r|].
  destruct (_ ?= _); cbn [cond_holds]; by rewrite ?andb_true_r, ?andb_false_r, ?orb_false_r, ?orb_false_l.
Qed.
End values.

(** ** Encoding and decoding *)
Section codec.
Variable T : fp_type.
Abbreviation F := (fmt_of T).
Lemma widths : 0 < fmw F /\ 0 < few F /\ T_width T = fmw F + few F + 1 /\ fprec F = fmw F + 1 /\
  2 ^ fprec F = 2 * 2 ^ fmw F /\ femin F = 3 - femax F - fprec F /\ 2 ^ few F = 2 * femax F /\ 2 < femax F.
Proof. by destruct T. Qed.
Lemma pack_sum s e m : 0 <= e < 2 ^ few F -> 0 <= m < 2 ^ fmw F -> pack F s e m = m + (e + Z.b2z s * 2 ^ few F) * 2 ^ fmw F.
Proof.
  intros He Hm. destruct widths as (Wm & We & _). unfold pack.
  rewrite (Z.add_comm (fmw F)), <- Z.shiftl_shiftl, <- Z.shiftl_lor, Z.lor_comm, (Z.lor_comm _ e) by lia.
  rewrite !lor_shl_add by (done || lia). done.
Qed.
Lemma pack_fields s e m : 0 <= e < 2 ^ few F -> 0 <= m < 2 ^ fmw F ->
  bits_sign F (pack F s e m) = s /\ bits_exp F (pack F s e m) = e /\ bits_man F (pack F s e m) = m /\ in_u (T_width T) (pack F s e m).
Proof.
  intros He Hm. destruct widths as (Wm & We & Ww & _). rewrite pack_sum by done.
  assert (0 < 2 ^ fmw F /\ 0 < 2 ^ few F) as [Pm Pe] by (split; apply Z.pow_pos_nonneg; lia).
  assert ((m + (e + Z.b2z s * 2 ^ few F) * 2 ^ fmw F) / 2 ^ fmw F = e + Z.b2z s * 2 ^ few F) as Ed by (rewrite Z.div_add, Z.div_small by lia; lia).
  split; [|split; [|split]].
  - unfold bits_sign. rewrite <- (Z.add_0_l (fmw F + few F)), <- Z.shiftr_spec, Z.shiftr_div_pow2, Z.pow_add_r, <- Z.div_div by lia.
    rewrite Ed, Z.div_add, Z.div_small by lia. by destruct s.
  - unfold bits_exp. rewrite Z.shiftr_div_pow2, Z.land_ones, Ed, Z.mod_add, Z.mod_small by lia. done.
  - unfold bits_man. rewrite Z.land_ones, Z.mod_add, Z.mod_small by lia. done.
  - unfold in_u. rewrite Ww, !Z.pow_add_r, Z.pow_1_r by lia. split; [destruct s; cbn [Z.b2z]; nia|].
    assert (e + Z.b2z s * 2 ^ few F <= 2 * 2 ^ few F - 1) by (destruct s; cbn [Z.b2z]; lia). nia.
Qed.
Lemma fields_pack b : in_u (T_width T) b -> pack F (bits_sign F b) (bits_exp F b) (bits_man F b) = b.
Proof.
  intros Hb. destruct (fields T b) as [Hm He]. destruct widths as (Wm & We & Ww & _). rewrite pack_sum by done.
  unfold bits_exp, bits_man, bits_sign in *. rewrite !Z.land_ones, Z.shiftr_div_pow2 in * by lia.
  unfold in_u in Hb. rewrite Ww, !Z.pow_add_r, Z.pow_1_r in Hb by lia.
  assert (0 < 2 ^ fmw F /\ 0 < 2 ^ few F) as [Pm Pe] by (split; apply Z.pow_pos_nonneg; lia).
  assert (Z.b2z (Z.testbit b (fmw F + few F)) = b / 2 ^ fmw F / 2 ^ few F) as ->.
  { rewrite Z.testbit_spec', Z.pow_add_r, Z.div_div by lia. apply Z.mod_small. split; [apply Z.div_pos; nia|apply Z.div_lt_upper_bound; nia]. }
  pose proof (Z.div_mod b (2 ^ fmw F) ltac:(lia)). pose proof (Z.div_mod (b / 2 ^ fmw F) (2 ^ few F) ltac:(lia)). nia.
Qed.
(** The finite numbers of the format. *)
Definition canonical (m : positive) (e : Z) : Prop :=
  femin F <= e <= femax F - fprec F /\ Zpos m < 2 ^ fprec F /\ (femin F < e -> 2 ^ fmw F <= Zpos m).
Lemma ones_few : Z.ones (few F) = 2 ^ few F - 1.
Proof. by destruct T. Qed.
Lemma decode_encode nan s m e : canonical m e ->
  sf F (bits_of_sf F nan (S754_finite s m e)) = S754_finite s m e /\ in_u (T_width T) (bits_of_sf F nan (S754_finite s m e)).
Proof.
  intros ([He He'] & Hm & Hn). destruct widths as (Wm & We & Ww & Wp & Ep & Em & Ee & Hx). cbn [bits_of_sf].
  unfold sf, sf_of_bits. rewrite ones_few. destruct (Z.ltb_spec (Zpos m) (2 ^ fmw F)) as [Hs|Hs].
  - assert (e = femin F) as -> by (destruct (Z.eq_dec e (femin F)); [done|specialize (Hn ltac:(lia)); lia]).
    destruct (pack_fields s 0 (Zpos m)) as (-> & -> & -> & Hr); [lia..|]. split; [|done].
    by rewrite (proj2 (Z.eqb_neq 0 (2 ^ few F - 1))) by lia.
  - destruct (pack_fields s (e - femin F + 1) (Zpos m - 2 ^ fmw F)) as (-> & -> & -> & Hr); [lia..|]. split; [|done].
    rewrite (proj2 (Z.eqb_neq _ (2 ^ few F - 1))), (proj2 (Z.eqb_neq _ 0)) by lia.
    replace (Zpos m - 2 ^ fmw F + 2 ^ fmw F) with (Zpos m) by lia. f_equal. lia.
Qed.
Lemma encode_decode nan b : in_u (T_width T) b -> is_nan_bits F b = false -> bits_of_sf F nan (sf F b) = b.
Proof.
  intros Hb Hnan. destruct (fields T b) as [Hm He]. destruct widths as (Wm & We & Ww & Wp & Ep & Em & Ee & Hx).
  rewrite <- (fields_pack b Hb) at 2. unfold is_nan_bits in Hnan. unfold sf, sf_of_bits. rewrite ones_few in *.
  destruct (Z.eqb_spec (bits_exp F b) (2 ^ few F - 1)) as [E|E].
  - cbn [andb] in Hnan. apply negb_false_iff in Hnan. rewrite Hnan. apply Z.eqb_eq in Hnan. cbn [bits_of_sf]. by rewrite ones_few, Hnan, E.
  - destruct (Z.eqb_spec (bits_exp F b) 0) as [E0|E0].
    + rewrite E0. destruct (bits_man F b) as [|p|p]; [done| |lia]. cbn [bits_of_sf]. by rewrite (proj2 (Z.ltb_lt _ _)) by lia.
    + destruct (bits_man F b + 2 ^ fmw F) as [|p|p] eqn:Es; [lia| |lia]. cbn [bits_of_sf].
      rewrite (proj2 (Z.ltb_ge _ _)) by lia. f_equal; lia.
Qed.
End codec.

(** ** Rounding to an integer *)
(** [r] is [x] rounded in a mode of the FCSR, both [x] and the unit one being given in
    parts: to nearest with ties to even, toward zero, up, down. *)
Definition rounds (rm x one r : Z) : Prop :=
  match rm with
  | 0 => 2 * Z.abs (x - r * one) <= one /\ (2 * Z.abs (x - r * one) = one -> Z.even r = true)
  | 1 => Z.abs (r * one) <= Z.abs x < (Z.abs r + 1) * one /\ 0 <= r * x
  | 2 => (r - 1) * one < x <= r * one
  | _ => r * one <= x < (r + 1) * one
  end.
Lemma rounds_scale rm x one r k : 0 < k -> rounds rm x one r -> rounds rm (x * k) (one * k) r.
Proof.
  intros Hk Hr. assert (x * k - r * (one * k) = (x - r * one) * k) as E1 by lia.
  assert (forall y, y * (one * k) = y * one * k) as E2 by lia. assert (forall y, Z.abs (y * k) = Z.abs y * k) as E3 by (intros; lia).
  assert (forall y z, y <= z -> y * k <= z * k) as Hle by (intros; by apply Z.mul_le_mono_nonneg_r; lia).
  assert (forall y z, y < z -> y * k < z * k) as Hlt by (intros; by apply Z.mul_lt_mono_pos_r).
  destruct rm as [|[p|[p|p|]|]|p]; unfold rounds in *; rewrite ?E1, ?E2, ?E3; destruct Hr as [Ha Hb]; try (split; [apply Hle|apply Hlt]; lia).
  - split; [nia|]. intros Hk'. apply Hb. nia.
  - split; [apply Hlt|apply Hle]; lia.
  - destruct Ha as [Ha Hc]. split; [split; [by apply Hle|by apply Hlt]|]. rewrite Z.mul_assoc. by apply Z.mul_nonneg_nonneg; lia.
Qed.
Lemma rounds_exact rm one r : 0 < one -> rounds rm (r * one) one r.
Proof.
  intros H1. unfold rounds. rewrite Z.sub_diag. destruct rm as [|[p|[p|p|]|]|p]; try (cbn [Z.abs]; nia).
Qed.
Lemma round_div_rounds rm n d : 0 < d -> 0 <= rm < 4 -> rounds rm n d (round_div rm n d).
Proof.
  intros Hd Hrm. assert (rm = 0 \/ rm = 1 \/ rm = 2 \/ rm = 3) as [->|[->|[->| ->]]] by lia; cbn [rounds round_div].
  - unfold round_half_even. pose proof (Z.div_mod n d ltac:(lia)) as E. pose proof (Z.mod_pos_bound n d Hd).
    destruct (Z.ltb_spec (2 * (n mod d)) d); [split; [|intros]; lia|].
    destruct (Z.ltb_spec d (2 * (n mod d))); [split; [|intros]; lia|].
    destruct (Z.even (n / d)) eqn:Ev; (split; [lia|intros _]); [done|]. by rewrite Z.add_1_r, Z.even_succ, <- Z.negb_even, Ev.
  - pose proof (Z.quot_rem n d ltac:(lia)) as E. destruct (Z.le_gt_cases 0 n) as [Hn|Hn].
    + pose proof (Z.quot_pos n d Hn Hd). pose proof (Z.rem_bound_pos n d Hn Hd). nia.
    + pose proof (Z.quot_opp_l n d ltac:(lia)). pose proof (Z.quot_pos (- n) d ltac:(lia) Hd).
      pose proof (Z.rem_opp_l n d ltac:(lia)). pose proof (Z.rem_bound_pos (- n) d ltac:(lia) Hd). nia.
  - pose proof (Z.div_mod (- n) d ltac:(lia)). pose proof (Z.mod_pos_bound (- n) d Hd). lia.
  - pose proof (Z.div_mod n d ltac:(lia)). pose proof (Z.mod_pos_bound n d Hd). lia.
Qed.
Section rounding.
Variable T : fp_type.
Abbreviation F := (fmt_of T).
(** A number, neither NaN nor infinity. *)
Definition fp_finite (b : Z) : bool := bits_exp F b =/? 2 ^ few F - 1.
(** The unit one, in units of the least subnormal. *)
Definition fp_unit : Z := 2 ^ (- femin F).
Lemma decoded_finite b : if fp_finite b then is_nan_bits F b = false /\ Z.abs (fp_units F b) < 2 ^ fmw F * 2 ^ (2 ^ few F - 2)
  else is_nan_bits F b = true \/ exists s, sf F b = S754_infinity s.
Proof.
  destruct (fields T b) as [Hm He]. destruct (widths T) as (Wm & We & Ww & Wp & Ep & Em & Ee & Hx).
  assert (0 < 2 ^ fmw F) by (apply Z.pow_pos_nonneg; lia).
  unfold fp_finite, is_nan_bits, fp_units, sf, sf_of_bits. rewrite ones_few. destruct (Z.eqb_spec (bits_exp F b) (2 ^ few F - 1)) as [E|E]; cbn [negb andb].
  - destruct (Z.eqb_spec (bits_man F b) 0); [right; by eexists|by left].
  - split; [done|]. assert (forall x : Z, Z.abs (if bits_sign F b then - x else x) = Z.abs x) as -> by (intros; destruct (bits_sign F b); lia).
    destruct (Z.eqb_spec (bits_exp F b) 0).
    + rewrite Z.abs_eq by lia. assert (0 < 2 ^ (2 ^ few F - 2)) by (apply Z.pow_pos_nonneg; lia). nia.
    + rewrite Z.abs_eq by (apply Z.mul_nonneg_nonneg; [lia|apply Z.pow_nonneg; lia]).
      assert (2 ^ (2 ^ few F - 2) = 2 * 2 ^ (2 ^ few F - 3)) as -> by (rewrite <- Z.pow_succ_r by lia; f_equal; lia).
      assert (2 ^ (bits_exp F b - 1) <= 2 ^ (2 ^ few F - 3)) by (apply Z.pow_le_mono_r; lia).
      assert (0 < 2 ^ (bits_exp F b - 1)) by (apply Z.pow_pos_nonneg; lia). nia.
Qed.
Lemma round_to_int_ok rm b : fp_finite b = true -> 0 <= rm < 4 ->
  exists r, fp_round_to_int F rm b = Some r /\ rounds rm (fp_units F b) fp_unit r.
Proof.
  intros Hf Hrm. destruct (widths T) as (Wm & We & Ww & Wp & Ep & Em & Ee & Hx). pose proof (decoded_finite b) as Hd. rewrite Hf in Hd.
  destruct Hd as [Hn Hb]. assert (0 < fp_unit) as Hu by (apply Z.pow_pos_nonneg; lia). unfold fp_round_to_int.
  destruct (sf_decoded T b) as [Nb|s Nb Ub|s Nb Ub|s m e Nb He Hm Hl Hh Ub]; [congruence| | |].
  - exfalso. rewrite Ub in Hb. destruct s; cbn [signed_units] in Hb; lia.
  - exists 0. split; [done|]. rewrite Ub. apply (rounds_exact rm fp_unit 0 Hu).
  - eexists. split; [reflexivity|]. rewrite Ub. set (v := cond_Zopp s (Zpos m)).
    assert (signed_units s (Zpos m * 2 ^ (e - femin F)) = v * 2 ^ (e - femin F)) as ->.
    { subst v. destruct s; cbn [signed_units cond_Zopp]; lia. }
    assert (0 < 2 ^ (e - femin F)) as Hk by (apply Z.pow_pos_nonneg; lia). destruct (Z.leb_spec 0 e) as [H0|H0].
    + rewrite Z.shiftl_mul_pow2 by done. assert (v * 2 ^ (e - femin F) = v * 2 ^ e * fp_unit) as ->.
      { unfold fp_unit. rewrite <- Z.mul_assoc, <- Z.pow_add_r by lia. do 2 f_equal. }
      by apply rounds_exact.
    + assert (fp_unit = 2 ^ (- e) * 2 ^ (e - femin F)) as -> by (unfold fp_unit; rewrite <- Z.pow_add_r by lia; f_equal; lia).
      apply rounds_scale; [done|]. apply round_div_rounds; [apply Z.pow_pos_nonneg; lia|done].
Qed.
Lemma round_to_int_none rm b : fp_finite b = false -> fp_round_to_int F rm b = None.
Proof.
  intros Hf. pose proof (decoded_finite b) as Hd. rewrite Hf in Hd. unfold fp_round_to_int.
  destruct Hd as [Hn|[s ->]]; [|done]. by destruct (sf_decoded T b); try congruence.
Qed.
End rounding.

(** ** The instructions *)
(** The format field of an operand. *)
Definition fmt_code (T : fp_type) : Z := match T with T_float => 16 | T_double => 17 end.
(** The width and the rounding mode of the conversions to integers, by function code. *)
Definition to_int_op (lowop fcsr : Z) : option (Z * Z) :=
  match lowop with
  | 0x8 => Some (64, 0) | 0x9 => Some (64, 1) | 0xa => Some (64, 2) | 0xb => Some (64, 3) | 0x25 => Some (64, fcsr .& 3)
  | 0xc => Some (32, 0) | 0xd => Some (32, 1) | 0xe => Some (32, 2) | 0xf => Some (32, 3) | 0x24 => Some (32, fcsr .& 3)
  | _ => None
  end.
(** With FR = 0 only even registers hold operands. *)
Definition even_operands (inst : Z) (s : state) : Prop :=
  fr0 s = true -> (((inst >> 11) .| (inst >> 16) .| (inst >> 6)) .& 1) = 0.

Section instructions.
Context `{Config, HostFP}.
Implicit Types (inst : Z) (s : state).
Lemma gate_open inst s : even_operands inst s -> (inst .& 63 < 0x11 \/ 0x13 < inst .& 63) ->
  fr0 s && ((((inst >> 11) .| (if ISS_MIPS4_CMOV && (0x11 <=? inst .& 63) && (inst .& 63 <=? 0x13) then 0 else inst >> 16) .| (inst >> 6)) .& 1) =/? 0) = false.
Proof.
  intros He Hl. assert (ISS_MIPS4_CMOV && (0x11 <=? inst .& 63) && (inst .& 63 <=? 0x13) = false) as ->.
  { destruct ISS_MIPS4_CMOV; [|done]. cbn [andb]. apply andb_false_iff. destruct Hl; [left; apply Z.leb_gt|right; apply Z.leb_gt]; lia. }
  unfold even_operands in He. destruct (fr0 s); [|done]. by rewrite He.
Qed.
Lemma by_fmt_of T inst (f g : state -> state) s : f_fmt inst = fmt_code T -> by_fmt inst f g s = Ok (match T with T_float => f s | T_double => g s end).
Proof. unfold by_fmt. intros ->. by destruct T. Qed.
End instructions.

(** C20. C.cond.fmt: the condition code becomes what the selected relations make of the exact
    values.  The operands are unordered when one is a NaN; otherwise the values are
    compared, the two zeros equal, an infinity beyond every number; bit 3 of the
    condition, which asks for a signal, has no effect.  Nothing else changes: the state
    after differs in the pc and the FP control registers alone, of those only FCSR and
    its FCCR view are written, the seven other condition codes and every other bit of
    the FCSR (rounding mode, enables, flags, FS) are kept. *)
Theorem compare_exact `{Config, HostFP} (T : fp_type) (inst : Z) (s : state) (Hfmt : f_fmt inst = fmt_code T)
    (Hop : (inst .& 63) >> 4 = 3) (Hev : even_operands inst s) :
  let cc := (inst >> 8) .& 7 in
  let r := cond_holds (inst .& 15) (fp_order (fmt_of T) (read_T T (f_fs inst) s) (read_T T (f_ft inst) s)) in
  exists t, exec_cop1_op inst s = Ok t /\ pc t = s64 (pc s + 4) /\ getConditionCode t cc = Z.b2z r /\
    (forall c, 0 <= c < 8 -> c <> cc -> getConditionCode t c = getConditionCode s c) /\
    (forall i, 0 <= i -> i <> fcc_bit cc -> Z.testbit (FCSR t) i = Z.testbit (FCSR s) i) /\
    mirrored t /\ (forall k, k <> CP1_CR31 -> k <> CP1_CR25 -> (fcr1 t).[k] = (fcr1 s).[k]) /\
    t = set_fcr1 (fcr1 t) (set_pc (pc t) s).
Proof.
  cbv zeta. pose proof (land_63_range inst) as Hl. rewrite Z.shiftr_div_pow2 in Hop by done. change (2 ^ 4) with 16 in Hop.
  unfold exec_cop1_op. rewrite gate_open by (done || (right; Z.div_mod_to_equations; lia)).
  rewrite Z.shiftr_div_pow2 by done. change (2 ^ 4) with 16. rewrite Hop. cbn [Z.eqb Pos.eqb]. unfold _c. rewrite (by_fmt_of T) by done.
  assert (match T with T_float => fpCmp T_float inst s | T_double => fpCmp T_double inst s end = fpCmp T inst s) as -> by (by destruct T).
  eexists. split; [reflexivity|]. unfold fpCmp. cbv zeta. rewrite cond_exact by (apply (land_mask_range inst 4); done).
  set (r := cond_holds _ _). set (cc := (inst >> 8) .& 7). assert (0 <= cc < 8) as Hcc by apply land_7_range.
  assert (forall c, 0 <= c < 8 -> getConditionCode (setConditionCode (Z.b2z r) cc s) c = if c =? cc then Z.b2z r else getConditionCode s c) as Hg.
  { intros c Hc. rewrite !getCC by done. unfold fcc_of. pose proof (fcc_bit_pos c Hc). rewrite FCSR_set_bit by lia.
    destruct (Z.eqb_spec c cc) as [->|Hne]; [rewrite Z.eqb_refl; by destruct r|].
    rewrite (proj2 (Z.eqb_neq (fcc_bit c) (fcc_bit cc))); [done|]. intros E. by apply Hne, fcc_bit_inj. }
  assert (forall t c, getConditionCode (add_pc 4 t) c = getConditionCode t c) as Ha by done.
  assert (mirrored (setConditionCode (Z.b2z r) cc s)) as Hmir by (unfold setConditionCode; apply mirrored_to_fccr).
  split_and!.
  - unfold add_pc, setConditionCode, fcc_mirror_to_fccr. by destruct (Z.b2z r =/? 0).
  - rewrite Ha, Hg by done. by rewrite Z.eqb_refl.
  - intros c Hc Hne. rewrite Ha, Hg by done. by rewrite (proj2 (Z.eqb_neq _ _)).
  - intros i Hi Hne. change (FCSR (add_pc 4 _)) with (FCSR (setConditionCode (Z.b2z r) cc s)). rewrite FCSR_set_bit by done.
    by rewrite (proj2 (Z.eqb_neq _ _)).
  - exact Hmir.
  - intros k Hk1 Hk2. unfold setConditionCode, fcc_mirror_to_fccr. destruct (Z.b2z r =/? 0); st_simpl; by rewrite !rd_wr_ne.
  - unfold setConditionCode. by destruct (Z.b2z r =/? 0).
Qed.
(** A machine with two FP registers set. *)
Definition fp_machine (v2 v4 : Z) : state := set_cpr1_at 4 v4 (set_cpr1_at 2 v2 (state_init (mk_sparse_mem ∅ false) false)).
Lemma wf_fp_machine v2 v4 : in_u 64 v2 -> in_u 64 v4 -> @wf r4400_config (fp_machine v2 v4).
Proof. intros. unfold fp_machine. repeat apply wf_set_cpr1_at; try done; try (unfold in_u; lia). apply wf_state_init, map_Forall_empty. Qed.
(** C.LT.S of 1 and 2. *)
Lemma compare_exact_witness :
  exists t, @exec_cop1_op r4400_config indefinite_host 0x4604103c (fp_machine 0x3f800000 0x40000000) = Ok t /\ getConditionCode t 0 = 1.
Proof.
  destruct (@compare_exact r4400_config indefinite_host T_float 0x4604103c (fp_machine 0x3f800000 0x40000000)) as (t & E & _ & Hc & _);
    [reflexivity|reflexivity|intros _; reflexivity|]. exists t. split; [exact E|]. etransitivity; [exact Hc|]. vm_compute. reflexivity.
Defined.

Section conversions.
Context `{Config, HostFP}.
Implicit Types (inst : Z) (s : state).
Lemma low_word_half old v : low_word old v = fpr_half false old (u32 v).
Proof. done. Qed.
(** A write of [w] bits of an FP register. *)
Definition fpr_write (w fd v : Z) s : state :=
  if w =? 32 then set_cpr1_at fd (low_word (cpr1 s).[fd] v) s else set_cpr1_at fd (u64 v) s.
Lemma fpr_write_reads w fd v s : wf s -> w = 32 \/ w = 64 -> let t := fpr_write w fd v s in
  wrapu w (cpr1 t).[fd] = wrapu w v /\ (w = 32 -> u32 ((cpr1 t).[fd] >> 32) = u32 ((cpr1 s).[fd] >> 32)) /\
  (forall i, i <> fd -> (cpr1 t).[i] = (cpr1 s).[i]) /\ gpr t = gpr s.
Proof.
  intros Hw [->| ->]; cbv zeta; unfold fpr_write; cbn [Z.eqb Pos.eqb].
  - pose proof (fpr_half_read false (cpr1 s).[fd] (u32 v)) as Hh. cbn [fst] in Hh.
    destruct Hh as [H1 H2]; [by apply wf_cpr1_rd|by apply wrapu_range|]. rewrite <- low_word_half in H1, H2.
    split_and!; [by rd_simpl|by intros _; rd_simpl|intros; by rd_simpl|done].
  - split_and!; [by rd_simpl; rewrite wrapu_wrapu|done|intros; by rd_simpl|done].
Qed.
(** The conversions, as a rounding and a write. *)
Lemma exec_to_int T inst s w rm : to_int_op (inst .& 63) (FCSR s) = Some (w, rm) -> f_fmt inst = fmt_code T -> even_operands inst s ->
  (w = 32 \/ w = 64) /\ 0 <= rm < 4 /\
  exists t, exec_cop1_op inst s = Ok t /\ pc t = s64 (pc s + 4) /\
    cpr1 t = cpr1 (fpr_write w (f_fd inst) (to_int w (fp_round_to_int (fmt_of T) rm (read_T T (f_fs inst) s))) s) /\
    t = set_insn_histo (insn_histo t) (set_cpr1 (cpr1 t) (set_pc (pc t) s)).
Proof.
  intros Hop Hfmt Hev. pose proof (land_63_range inst) as Hl. pose proof (land_3_range (FCSR s)) as Hr.
  assert (forall r, rounded inst r s = fp_round_to_int (fmt_of T) r (read_T T (f_fs inst) s)) as Hrd.
  { intros r. unfold rounded. rewrite Hfmt. by destruct T. }
  assert (inst .& 63 < 0x11 \/ 0x13 < inst .& 63) as Hg.
  { destruct (Z.le_gt_cases 0x11 (inst .& 63)); [|lia]. destruct (Z.le_gt_cases (inst .& 63) 0x13); [|lia].
    assert (inst .& 63 = 0x11 \/ inst .& 63 = 0x12 \/ inst .& 63 = 0x13) as [E|[E|E]] by lia; by rewrite E in Hop. }
  unfold exec_cop1_op. rewrite gate_open by done. clear Hg Hev.
  unfold FCSR in *. set (f := (fcr1 s).[CP1_CR31] .& 3) in *.
  assert (In (inst .& 63) [0x8; 0x9; 0xa; 0xb; 0x25; 0xc; 0xd; 0xe; 0xf; 0x24]) as Hin.
  { clear -Hop Hl. revert Hop. generalize dependent (inst .& 63). intros x Hl.
    assert (x = 0 \/ 0 < x) as [->|Hx] by lia; [done|]. destruct x as [|x|x]; [done| |done].
    do 6 (destruct x as [x|x|]; try done; try (intros _; cbn; tauto)). all: lia. }
  cbn [In] in Hin. destruct_or! Hin; try done; rewrite <- Hin in Hop |- *; injection Hop as <- <-; (split; [auto|split; [done|]]);
    rewrite <- Hrd; unfold _truncw; rewrite ?Hfmt; try (destruct T; cbn [fmt_code]; rewrite <- ?Hrd);
    (eexists; split; [reflexivity|]); (split; [reflexivity|]); (split; [|reflexivity]); try reflexivity.
  all: unfold rounded; by rewrite Hfmt.
Qed.
End conversions.

(** What a conversion to [w] bits leaves in the state [t]. *)
Definition converts (w rm a fd : Z) `{HostFP} (T : fp_type) (s t : state) (v : Z) : Prop :=
  pc t = s64 (pc s + 4) /\ wrapu w (cpr1 t).[fd] = wrapu w v /\
  (w = 32 -> u32 ((cpr1 t).[fd] >> 32) = u32 ((cpr1 s).[fd] >> 32)) /\
  (forall i, i <> fd -> (cpr1 t).[i] = (cpr1 s).[i]) /\
  t = set_insn_histo (insn_histo t) (set_cpr1 (cpr1 t) (set_pc (pc t) s)) /\
  if fp_finite T a
  then exists r, rounds rm (fp_units (fmt_of T) a) (fp_unit T) r /\
         (in_s w r -> v = r) /\ (~ in_s w r -> v = invalid_to_int w)
  else v = invalid_to_int w.
Lemma to_int_converts `{Config, HostFP} T inst w rm s : wf s -> to_int_op (inst .& 63) (FCSR s) = Some (w, rm) -> f_fmt inst = fmt_code T ->
  even_operands inst s -> exists t v, exec_cop1_op inst s = Ok t /\ converts w rm (read_T T (f_fs inst) s) (f_fd inst) T s t v.
Proof.
  intros Hw Hop Hfmt Hev. unfold converts. destruct (exec_to_int T inst s w rm Hop Hfmt Hev) as (Hw' & Hrm & t & Ht & Hpc & Hc & Hg).
  set (v := to_int w _) in Hc. destruct (fpr_write_reads w (f_fd inst) v s Hw Hw') as (R1 & R2 & R3 & _). rewrite <- Hc in R1, R2, R3.
  exists t, v. split_and!; try done. subst v. destruct (fp_finite T _) eqn:Ef.
  - destruct (round_to_int_ok T rm _ Ef Hrm) as (r & Er & Hr). exists r. split; [done|]. rewrite Er. unfold to_int, in_s.
    destruct (Z.leb_spec (- 2 ^ (w - 1)) r), (Z.ltb_spec r (2 ^ (w - 1))); cbn [andb]; split; (lia || done).
  - by rewrite round_to_int_none.
Qed.

(** C21. Conversion to an integer (ROUND, TRUNC, CEIL, FLOOR and CVT, to a word or a
    long).  A finite operand is rounded exactly in the mode of the opcode or of the
    FCSR; the result is written if it fits and the host's value otherwise, as for a NaN
    or an infinity; a word keeps the other half of its register.  Nothing else changes:
    the state after differs in the pc, the FP registers and the instruction histogram
    alone (the FCSR, memory, CP0, HI and LO are kept), and the other FP registers are
    the same. *)
Theorem convert_rounds `{Config, HostFP} (T : fp_type) (inst w rm : Z) (s : state) (Hw : wf s)
    (Hop : to_int_op (inst .& 63) (FCSR s) = Some (w, rm)) (Hfmt : f_fmt inst = fmt_code T) (Hev : even_operands inst s) :
  let a := read_T T (f_fs inst) s in let fd := f_fd inst in
  exists t v, exec_cop1_op inst s = Ok t /\ pc t = s64 (pc s + 4) /\ wrapu w (cpr1 t).[fd] = wrapu w v /\
    (w = 32 -> u32 ((cpr1 t).[fd] >> 32) = u32 ((cpr1 s).[fd] >> 32)) /\
    (forall i, i <> fd -> (cpr1 t).[i] = (cpr1 s).[i]) /\
    t = set_insn_histo (insn_histo t) (set_cpr1 (cpr1 t) (set_pc (pc t) s)) /\
    if fp_finite T a
    then exists r, rounds rm (fp_units (fmt_of T) a) (fp_unit T) r /\
           (in_s w r -> v = r) /\ (~ in_s w r -> v = invalid_to_int w)
    else v = invalid_to_int w.
Proof. exact (to_int_converts T inst w rm s Hw Hop Hfmt Hev). Qed.
(** CVT.W.D of -2.5, to nearest. *)
Lemma convert_rounds_witness :
  exists t v r, @exec_cop1_op r4400_config indefinite_host 0x462011a4 (fp_machine 0xc004000000000000 0) = Ok t /\ u32 (cpr1 t).[6] = u32 v /\
    rounds 0 (- 5 * 2 ^ 1073) (2 ^ 1074) r /\ (in_s 32 r -> v = r).
Proof.
  destruct (@convert_rounds r4400_config indefinite_host T_double 0x462011a4 32 0 (fp_machine 0xc004000000000000 0))
    as (t & v & E & _ & Hv & _ & _ & _ & Hr); [by apply wf_fp_machine|reflexivity|reflexivity|intros _; reflexivity|].
  assert (fp_finite T_double (read_T T_double (f_fs 0x462011a4) (fp_machine 0xc004000000000000 0)) = true) as Hf by (vm_compute; reflexivity).
  rewrite Hf in Hr. destruct Hr as (r & Hr & Hi & _). exists t, v, r. split; [exact E|]. split; [exact Hv|]. split; [|exact Hi].
  assert (fp_units (fmt_of T_double) (read_T T_double (f_fs 0x462011a4) (fp_machine 0xc004000000000000 0)) = - 5 * 2 ^ 1073) as Hu by (vm_compute; reflexivity).
  rewrite Hu in Hr. exact Hr.
Defined.

(** ** Conversions between formats *)
Lemma normalize_sign prec emax s m e s0 : binary_normalize prec emax (cond_Zopp s (Zpos m)) e s0 =
  if s then SFopp (binary_normalize prec emax (Zpos m) e false) else binary_normalize prec emax (Zpos m) e false.
Proof.
  destruct s; [|done]. change (cond_Zopp true (Zpos m)) with (Zneg m). cbn [binary_normalize]. unfold binary_round. destruct (shl_align _ _ _) as [mz ez].
  unfold binary_round_aux. destruct (shr_fexp _ _ _ _ _) as [r1 e1]. destruct (shr_fexp _ _ _ e1 _) as [r2 e2].
  destruct (shr_m r2); [done| |done]. by destruct (_ <=? _).
Qed.
Section widening.
Variable U : fp_type.
Abbreviation G := (fmt_of U).
(** A number the format holds exactly is converted to itself. *)
Lemma normalize_fits s m q k (E := fexp (fprec G) (femax G) (Z.log2 (Zpos m) + 1 + q)) : 0 <= k -> E <= q -> E <= femax G - fprec G ->
  exists p, Zpos p = Zpos m * 2 ^ (q - E) /\ canonical U p E /\
    forall M s0, Zpos M = Zpos m * 2 ^ k -> binary_normalize (fprec G) (femax G) (cond_Zopp s (Zpos M)) (q - k) s0 = S754_finite s p E.
Proof.
  intros Hk Hq Hmax. destruct (widths U) as (Wm & We & Ww & Wp & Ep & Em & Ee & Hx).
  pose proof (mant_pos (fprec G) (femax G) (Zpos m) q ltac:(lia) Hq) as Hp. fold E in Hp.
  exists (Z.to_pos (Zpos m * 2 ^ (q - E))). rewrite Z2Pos.id by done. split; [done|].
  pose proof (Z.log2_mul_pow2 (Zpos m) (q - E) ltac:(lia) ltac:(lia)) as Hl.
  assert (E = Z.max (Z.log2 (Zpos m) + 1 + q - fprec G) (femin G)) as EE by (unfold E, fexp, emin; rewrite Em; lia).
  split.
  - split; [lia|]. rewrite Z2Pos.id by done. split.
    + apply Z.log2_lt_pow2; lia.
    + intros Hn. apply Z.log2_le_pow2; lia.
  - intros M s0 HM. rewrite normalize_sign, HM. rewrite (normalize_exact (fprec G) (femax G) (Zpos m) q) by (done || lia).
    fold E. by destruct s.
Qed.
End widening.
Section trips.
Context `{Config, HostFP}.
Lemma result_sf U ops s m e : canonical U m e -> sf (fmt_of U) (fp_result (fmt_of U) ops (S754_finite s m e)) = S754_finite s m e.
Proof.
  intros Hc. destruct (decode_encode U (nan_result (fmt_of U) ops) s m e Hc) as [E Hr]. unfold fp_result. rewrite fwidth_fmt, wrapu_id by done. exact E.
Qed.
Lemma result_bits U ops b : in_u (T_width U) b -> is_nan_bits (fmt_of U) b = false -> fp_result (fmt_of U) ops (sf (fmt_of U) b) = b.
Proof. intros Hb Hn. unfold fp_result. rewrite encode_decode, fwidth_fmt by done. by apply wrapu_id. Qed.
(** Widening is exact, so narrowing gives the number back. *)
Lemma narrow_widen a : in_u 32 a -> is_nan_bits binary32 a = false -> fp_convert binary64 binary32 (fp_convert binary32 binary64 a) = a.
Proof.
  intros Ha Hn. unfold fp_convert at 1. set (b := fp_convert binary32 binary64 a). change binary64 with (fmt_of T_double) at 1.
  assert (match sf (fmt_of T_double) b with
          | S754_finite s m e => binary_normalize (fprec binary32) (femax binary32) (cond_Zopp s (Zpos m)) e s
          | x => x end = sf (fmt_of T_float) a) as Hs; [|rewrite Hs; by apply (result_bits T_float)].
  subst b. unfold fp_convert. change binary32 with (fmt_of T_float) in *.
  destruct (sf_decoded T_float a) as [Nb|s Nb Ub|s Nb Ub|s m e Nb He Hm Hl Hh Ub]; [congruence|by destruct s; vm_compute|by destruct s; vm_compute|].
  assert (Z.log2 (Zpos m) < 24) as L1 by (apply Z.log2_lt_pow2; [lia|exact Hm]). pose proof (Z.log2_nonneg (Zpos m)).
  assert (femin (fmt_of T_float) < e -> 23 <= Z.log2 (Zpos m)) as L2 by (intros; apply Z.log2_le_pow2; [lia|by apply Hl]).
  change (femin (fmt_of T_float)) with (-149) in *. change (femax (fmt_of T_float) - fprec (fmt_of T_float)) with 104 in Hh.
  destruct (normalize_fits T_double s m e 0) as (p & Hp & Hc & HN); [lia| | |].
  1,2: unfold fexp, emin; cbn [fprec femax fmt_of binary64]; lia.
  change binary64 with (fmt_of T_double). pose proof (HN m s) as Hw. rewrite Z.sub_0_r in Hw. rewrite Hw by lia. rewrite result_sf by done.
  set (E := fexp _ _ _) in *. assert (E <= e) as HE by (subst E; unfold fexp, emin; cbn [fprec femax fmt_of binary64]; lia).
  assert (fexp (fprec (fmt_of T_float)) (femax (fmt_of T_float)) (Z.log2 (Zpos m) + 1 + e) = e) as E2.
  { unfold fexp, emin. cbn [fprec femax fmt_of binary32]. destruct (Z.eq_dec e (-149)); [lia|]. specialize (L2 ltac:(lia)). lia. }
  destruct (normalize_fits T_float s m e (e - E)) as (p' & Hp' & _ & HN'); [lia|by rewrite E2|by rewrite E2|].
  rewrite E2 in *. specialize (HN' p s Hp). replace (e - (e - E)) with E in HN' by lia. rewrite HN'. f_equal.
  rewrite Z.sub_diag, Z.mul_1_r in Hp'. by injection Hp'.
Qed.
(** Integers below [2^53] are doubles. *)
Lemma of_int_exact v : Z.abs v < 2 ^ 53 -> let b := fp_of_int binary64 v in
  fp_finite T_double b = true /\ fp_units binary64 b = v * fp_unit T_double.
Proof.
  intros Hv. cbv zeta. destruct (Z.eq_dec v 0) as [->|Hn]; [by vm_compute|].
  assert (exists s m, v = cond_Zopp s (Zpos m)) as (s & m & ->) by (destruct v as [|m|m]; [done|by exists false, m|by exists true, m]).
  assert (Zpos m < 2 ^ 53) as Hm by (destruct s; cbn [cond_Zopp] in Hv; lia).
  assert (Z.log2 (Zpos m) < 53) as L1 by (apply Z.log2_lt_pow2; [lia|exact Hm]). pose proof (Z.log2_nonneg (Zpos m)).
  destruct (normalize_fits T_double s m 0 0) as (p & Hp & Hc & HN); [lia| | |].
  1,2: unfold fexp, emin; cbn [fprec femax fmt_of binary64]; lia.
  specialize (HN m false ltac:(lia)). rewrite Z.sub_0_r in HN. set (E := fexp _ _ _) in *.
  assert (-1074 <= E <= 0) as HE by (subst E; unfold fexp, emin; cbn [fprec femax fmt_of binary64]; lia).
  unfold fp_of_int. change binary64 with (fmt_of T_double) in *. rewrite HN.
  pose proof (result_sf T_double [cond_Zopp s (Zpos m)] s p E Hc) as Hs. set (b := fp_result _ _ _) in *. clearbody b.
  pose proof (decoded_finite T_double b) as Hd. destruct (fp_finite T_double b).
  - split; [done|]. pose proof (sf_decoded T_double b) as D. rewrite Hs in D. inversion D as [| | |? ? ? _ _ _ _ _ U]; subst. rewrite U, Hp.
    unfold fp_unit. change (femin (fmt_of T_double)) with (-1074) in *.
    assert (Zpos m * 2 ^ (0 - E) * 2 ^ (E - -1074) = Zpos m * 2 ^ (- -1074)) as ->.
    { rewrite <- Z.mul_assoc, <- Z.pow_add_r by lia. do 2 f_equal. lia. }
    destruct s; cbn [signed_units cond_Zopp]; lia.
  - exfalso. destruct Hd as [Hd|[s' Hd]]; [|congruence]. pose proof (sf_decoded T_double b) as D. rewrite Hs in D. inversion D; congruence.
Qed.
(** Only the integer itself is its rounding. *)
Lemma rounds_integer rm v one r : 0 < one -> 0 <= rm < 4 -> rounds rm (v * one) one r -> r = v.
Proof.
  intros H1 Hrm. assert (rm = 0 \/ rm = 1 \/ rm = 2 \/ rm = 3) as [->|[->|[->| ->]]] by lia; cbn [rounds].
  - intros [Ha _]. replace (v * one - r * one) with ((v - r) * one) in Ha by lia. rewrite Z.abs_mul, (Z.abs_eq one) in Ha by lia. nia.
  - intros [[Ha Hb] Hc]. rewrite !Z.abs_mul, (Z.abs_eq one) in Ha by lia. rewrite Z.abs_mul, (Z.abs_eq one) in Hb by lia.
    assert (Z.abs r = Z.abs v) by nia. assert (0 <= r * v) by nia. nia.
  - nia.
  - nia.
Qed.
End trips.

(** Round trips between formats.  A single-precision number widened by CVT.D.S and
    narrowed by CVT.S.D is the same pattern; a word, or a long below [2^53], converted
    by CVT.D.W or CVT.D.L and back by any conversion to that width in any rounding mode
    is the same integer. *)
Theorem conversions_round_trip `{Config, HostFP} (i1 i2 : Z) (s : state) (Hw : wf s) (Hreg : f_fs i2 = f_fd i1) :
  (f_fmt i1 = 16 -> f_fmt i2 = 17 -> is_nan_bits binary32 (read_T T_float (f_fs i1) s) = false ->
     exists t u, _cvtd i1 s = Ok t /\ _cvts i2 t = Ok u /\ read_T T_float (f_fd i2) u = read_T T_float (f_fs i1) s) /\
  (forall rm w, 0 <= rm < 4 -> f_fmt i2 = 17 -> even_operands i2 s ->
     (w = 32 /\ f_fmt i1 = 20 \/ w = 64 /\ f_fmt i1 = 21 /\ Z.abs (read_l (f_fs i1) s) < 2 ^ 53) ->
     to_int_op (i2 .& 63) (FCSR s) = Some (w, rm) ->
     exists t u, _cvtd i1 s = Ok t /\ exec_cop1_op i2 t = Ok u /\ wrapu w (cpr1 u).[f_fd i2] = wrapu w (cpr1 s).[f_fs i1]).
Proof.
  split.
  - intros F1 F2 Hn. unfold _cvtd, _cvts. rewrite F1, F2, Hreg. do 2 eexists. split; [reflexivity|]. split; [reflexivity|].
    set (a := read_T T_float (f_fs i1) s) in *. assert (in_u 32 a) as Ha by (subst a; cbn; rng).
    set (b := fp_convert binary32 binary64 a).
    assert (forall t, read_T T_float (f_fd i2) (add_pc 4 (set_fp_state T_float (f_fd i2) t)) = read_T T_float (f_fd i2) t) as E1 by done.
    rewrite E1. assert (read_T T_double (f_fd i1) (add_pc 4 (set_fp_state T_double (f_fd i1) (write_T T_double (f_fd i1) b s))) = b) as ->.
    { unfold set_fp_state. cbn [read_T write_T]. by rd_simpl. }
    subst b. rewrite narrow_widen by done. cbn [read_T write_T]. rd_simpl.
    set (old := (cpr1 _).[f_fd i2]). clearbody old.
    assert (u32 (low_word old a) = u32 a) as ->; [|by apply wrapu_id].
    apply Z.bits_inj'. intros i Hi. rewrite !testbit_wrapu by done. unfold low_word. rewrite Z.lor_spec, Z.land_spec, testbit_wrapu by done.
    destruct (Z.ltb_spec i 32); cbn [andb]; [|done]. change 0xffffffff00000000 with (Z.ones 32 << 32).
    rewrite Z.shiftl_spec, (Z.testbit_neg_r (Z.ones 32)) by lia. by rewrite andb_false_r.
  - intros rm w Hrm F2 Hev Hc Hop.
    set (v := if w =? 32 then read_w (f_fs i1) s else read_l (f_fs i1) s).
    assert (Z.abs v < 2 ^ 53 /\ in_s w v /\ wrapu w v = wrapu w (cpr1 s).[f_fs i1]) as (Hv & Hvw & Hvu).
    { subst v. destruct Hc as [(-> & _)|(-> & _ & Hl)]; cbn [Z.eqb Pos.eqb].
      - unfold read_w. pose proof (wraps_range 32 (cpr1 s).[f_fs i1] ltac:(done)) as Hr. unfold in_s in Hr. split; [lia|]. split; [done|]. by apply wrapu_wraps.
      - split; [done|]. unfold read_l in *. split; [by apply wraps_range|by apply wrapu_wraps]. }
    set (b := fp_of_int binary64 v). destruct (of_int_exact v Hv) as [Hfin Hun]. fold b in Hfin, Hun.
    set (t := s |> write_T T_double (f_fd i1) b |> add_pc 4). assert (_cvtd i1 s = Ok t) as Ht.
    { unfold _cvtd. subst t b v. by destruct Hc as [(-> & ->)|(-> & -> & _)]. }
    assert (wf t) as Hwt by (pose proof (wf_cvtd i1 s Hw) as P; by rewrite Ht in P).
    destruct (to_int_converts T_double i2 w rm t Hwt) as (u & x & Hu & _ & Hx & _ & _ & _ & Hr); [done|done|exact Hev|].
    exists t, u. split; [done|]. split; [done|]. rewrite Hx.
    assert (read_T T_double (f_fs i2) t = b) as Eb by (rewrite Hreg; subst t; cbn [read_T write_T]; by rd_simpl).
    rewrite Eb, Hfin in Hr. destruct Hr as (r & Hr & Hin & _). change (fmt_of T_double) with binary64 in Hr. rewrite Hun in Hr.
    apply rounds_integer in Hr as ->; [|by apply Z.pow_pos_nonneg|done]. by rewrite Hin.
Qed.
(** 0.1 in single precision, to double and back. *)
Lemma conversions_round_trip_witness :
  let s := fp_machine 0x3dcccccd 0 in
  exists t u, @_cvtd indefinite_host 0x46001121 s = Ok t /\ @_cvts indefinite_host 0x462021a0 t = Ok u /\ read_T T_float 6 u = 0x3dcccccd.
Proof.
  intros s. assert (@wf r4400_config s) as Hw by by apply wf_fp_machine.
  destruct (@conversions_round_trip r4400_config indefinite_host 0x46001121 0x462021a0 s Hw eq_refl) as [Hc _].
  exact (Hc eq_refl eq_refl eq_refl).
Defined.
