(* ===== verification/FpArith.v ===== *)
(** The arithmetic instructions against IEEE 754: on every pair of operands ADD, SUB,
    MUL, DIV, SQRT, RECIP and RSQRT give the number of the format nearest to the exact
    result, ties to even, and the standard's results on zeros, infinities and NaNs; so
    do the conversions into a floating-point format. *)
From S2P Require Import Prelude Bits Insns State Mem Wf Exc Tlb LoadStore Alu Fp Fpu Arch ExcProps FpuProps Doubles Rounding FpProps.
From Stdlib Require Import SpecFloat.

(** ** The standard *)
Section standard.
Variable T : fp_type.
Abbreviation F := (fmt_of T).
(** [r] is nearest to the exact result, known by the order of twice it and an integer
    number of units ([Rounding]): no number of the format lies on the other side of the
    middle between them, and at the middle the pattern of [r] is even.  An infinity
    counts as the power of two after the finite numbers. *)
Definition correctly_rounded (exact : Z -> comparison) (r : Z) : Prop :=
  is_nan_bits F r = false /\
  forall b, is_nan_bits F b = false ->
    let m := fp_units F b + fp_units F r in
    (fp_units F b < fp_units F r -> exact m <> Lt /\ (exact m = Eq -> Z.even r = true)) /\
    (fp_units F r < fp_units F b -> exact m <> Gt /\ (exact m = Eq -> Z.even r = true)).
Definition fp_infinity (s : bool) : Z := pack F s (Z.ones (few F)) 0.
Definition fp_zero (s : bool) : Z := pack F s 0 0.
Abbreviation units := (fp_units F).
Abbreviation sign := (bits_sign F).
Abbreviation is_finite := (fp_finite T).
Abbreviation nan := (is_nan_bits F).
Definition ieee_add (a b r : Z) : Prop :=
  let n := units a + units b in
  if nan a || nan b then nan r = true
  else if is_finite a && is_finite b
  then correctly_rounded (ratio n 1) r /\ sign r = (if n =? 0 then sign a && sign b else n <? 0)
  else if is_finite a then r = b else if is_finite b then r = a
  else if eqb (sign a) (sign b) then r = a else nan r = true.
Definition ieee_sub (a b r : Z) : Prop := ieee_add a (fp_neg F b) r.
Definition ieee_mul (a b r : Z) : Prop :=
  if nan a || nan b then nan r = true
  else if is_finite a && is_finite b
  then correctly_rounded (ratio (units a * units b) (fp_unit T)) r /\ sign r = xorb (sign a) (sign b)
  else if (units a =? 0) || (units b =? 0) then nan r = true else r = fp_infinity (xorb (sign a) (sign b)).
Definition ieee_div (a b r : Z) : Prop :=
  if nan a || nan b then nan r = true
  else if is_finite a then
    if negb (is_finite b) then r = fp_zero (xorb (sign a) (sign b))
    else if units b =? 0 then if units a =? 0 then nan r = true else r = fp_infinity (xorb (sign a) (sign b))
    else correctly_rounded (ratio (units a * fp_unit T * Z.sgn (units b)) (Z.abs (units b))) r /\ sign r = xorb (sign a) (sign b)
  else if is_finite b then r = fp_infinity (xorb (sign a) (sign b)) else nan r = true.
Definition ieee_sqrt (a r : Z) : Prop :=
  if nan a || (units a <? 0) then nan r = true
  else if is_finite a then correctly_rounded (root (units a * fp_unit T)) r /\ sign r = sign a
  else r = a.
(** The reciprocal is a division; the reciprocal square root is rounded twice. *)
Definition ieee_op (op : fpOperation) (a b r : Z) : Prop :=
  match op with
  | fp_op_add => ieee_add a b r
  | fp_op_sub => ieee_sub a b r
  | fp_op_mul => ieee_mul a b r
  | fp_op_div => ieee_div a b r
  | fp_op_sqrt => ieee_sqrt a r
  | fp_op_recip => ieee_div (fp_one F) a r
  | fp_op_rsqrt => exists q, ieee_sqrt a q /\ ieee_div (fp_one F) q r
  | _ => False
  end.
End standard.

(** * Theorems *)
Section decode.
Variable T : fp_type.
Abbreviation F := (fmt_of T).
Abbreviation P := (fprec F).
Abbreviation X := (femax F).
Lemma format_ok : 2 <= P /\ P < X.
Proof. by destruct T. Qed.
Lemma canonical_canon m e : canonical T m e <-> canon P X m e.
Proof. unfold canonical, canon. assert (fmw F = P - 1) as -> by (by destruct T). assert (femin F = emin P X) as -> by (by destruct T). done. Qed.
Lemma fields_sf b : is_nan_bits F b = false -> valid P X (sf F b) /\ sf_units P X (sf F b) = fp_units F b /\
  (fp_finite T b = true <-> fin P X (sf F b)) /\ sf_sign (sf F b) = bits_sign F b /\ sf_even (sf F b) = Z.even b.
Proof.
  intros Hn. destruct (widths T) as (Wm & We & Ww & Wp & Ep & Em & Ee & Hx). destruct (fields T b) as [Hm He].
  assert (Z.even b = Z.even (bits_man F b)) as Eb.
  { unfold bits_man. rewrite <- !Z.negb_odd. f_equal. rewrite <- !Z.bit0_odd, Z.land_spec, Z.ones_spec_low by lia. by rewrite andb_true_r. }
  assert (Z.even (2 ^ fmw F) = true) as E2 by (by destruct T). assert (femin F = emin P X) as Emin by (by destruct T).
  pose proof (decoded_finite T b) as Hd. unfold fp_finite in *.
  assert (valid P X (sf F b) /\ sf_units P X (sf F b) = fp_units F b) as [Hv Hu].
  { destruct (sf_decoded T b) as [|s _ U|s _ U|s m e _ H1 H2 H3 H4 U]; [congruence|..].
    - split; [done|]. rewrite U. destruct T, s; vm_compute; done.
    - by rewrite U.
    - split; [apply canonical_canon; split; [lia|done]|]. rewrite U, Emin. by destruct s. }
  split; [done|]. split; [done|]. unfold sf, sf_of_bits, is_nan_bits in *. rewrite ones_few in *.
  destruct (Z.eqb_spec (bits_exp F b) (2 ^ few F - 1)) as [E|E]; cbn [negb andb] in *.
  - destruct (Z.eqb_spec (bits_man F b) 0) as [E0|]; [|done]. rewrite Eb, E0. done.
  - rewrite Eb. destruct (Z.eqb_spec (bits_exp F b) 0).
    + destruct (bits_man F b) as [|m|m] eqn:Eq; [done| |lia]. done.
    + destruct (bits_man F b + 2 ^ fmw F) as [|m|m] eqn:Eq; [lia| |lia]. cbn [fin sf_sign sf_even]. split; [done|]. split; [done|].
      rewrite <- Eq, Z.even_add, E2. by destruct (Z.even (bits_man F b)).
Qed.
Lemma units_representable b : is_nan_bits F b = false -> representable P X (fp_units F b).
Proof.
  intros Hn. destruct (fields_sf b Hn) as (Hv & <- & _). destruct format_ok as [Hp Hx]. pose proof (emin_below P X Hp Hx).
  assert (0 < 2 ^ P) by (apply Z.pow_pos_nonneg; lia).
  destruct (sf F b) as [s|s| |s m e]; [exists 0, 0|exists (cond_Zopp s (2 ^ P)), (X - P - emin P X)|done|exists (cond_Zopp s (Zpos m)), (e - emin P X)].
  - cbn. lia.
  - split; [destruct s; cbn [cond_Zopp]; lia|]. split; [lia|]. unfold sf_units, top. destruct s; cbn [cond_Zopp]; lia.
  - destruct Hv as (He & Hm & _). split; [destruct s; cbn [cond_Zopp]; lia|]. split; [lia|]. unfold sf_units. destruct s; cbn [cond_Zopp]; lia.
Qed.
End decode.

(** ** Operands and results *)
Section values.
Context `{HostFP}.
Variable T : fp_type.
Abbreviation F := (fmt_of T).
Abbreviation P := (fprec F).
Abbreviation X := (femax F).
(** What an operand is. *)
Inductive operand (b : Z) : spec_float -> Prop :=
  | O_nan : is_nan_bits F b = true -> operand b S754_nan
  | O_inf : is_nan_bits F b = false -> fp_finite T b = false -> fp_units F b = cond_Zopp (bits_sign F b) (top P X) ->
      operand b (S754_infinity (bits_sign F b))
  | O_fin x : is_nan_bits F b = false -> fp_finite T b = true -> fin P X x -> sf_units P X x = fp_units F b ->
      sf_sign x = bits_sign F b -> operand b x.
Lemma sf_operand b : operand b (sf F b).
Proof.
  destruct (is_nan_bits F b) eqn:En.
  - pose proof (nan_units T b) as Hi. rewrite En in Hi. unfold fp_isnan in Hi. destruct (sf F b) eqn:Es; try done. by constructor.
  - destruct (fields_sf T b En) as (Hv & Hu & Hf & Hs & _). destruct (fp_finite T b) eqn:Ef; [apply O_fin; try done; by apply Hf|].
    assert (~ fin P X (sf F b)) as Hnf by (intros Hc; apply Hf in Hc; congruence). destruct (sf F b) as [s|s| |s m e]; try done.
    cbn [sf_sign sf_units] in *. subst s. apply O_inf; done.
Qed.
Lemma result_valid ops x : valid P X x -> sf F (fp_result F ops x) = x.
Proof.
  destruct x as [s|s| |s m e]; intros Hv; [destruct T, s; reflexivity|destruct T, s; reflexivity|done|].
  apply result_sf. by apply canonical_canon.
Qed.
Lemma valid_not_nan b : valid P X (sf F b) -> is_nan_bits F b = false.
Proof. rewrite <- nan_units. unfold fp_isnan. by destruct (sf F b). Qed.
Lemma result_rounded ops c x : nearest_rep P X c x -> valid P X x ->
  correctly_rounded T c (fp_result F ops x) /\ bits_sign F (fp_result F ops x) = sf_sign x.
Proof.
  intros Hr Hv. pose proof (result_valid ops x Hv) as E. set (r := fp_result F ops x) in *. clearbody r. subst x.
  pose proof (valid_not_nan r Hv) as Hn. destruct (fields_sf T r Hn) as (_ & Hu & _ & Hs & He). split; [split; [done|]|done].
  intros b Hb m. destruct (Hr _ (units_representable T b Hb)) as [H1 H2]. rewrite Hu, He in H1, H2. by split.
Qed.
Lemma result_nan ops : is_nan_bits F (fp_result F ops S754_nan) = true.
Proof.
  unfold fp_result. cbn [bits_of_sf]. rewrite fwidth_fmt. destruct T; cbn [T_width fmt_of].
  - rewrite wrapu_id by apply nan_result32_range. apply nan_result32_is_nan.
  - rewrite wrapu_id by apply nan_result64_range. apply nan_result64_is_nan.
Qed.
Lemma result_infinity ops s : fp_result F ops (S754_infinity s) = fp_infinity T s.
Proof. by destruct T, s. Qed.
Lemma result_zero ops s : fp_result F ops (S754_zero s) = fp_zero T s.
Proof. by destruct T, s. Qed.
(** Changing the sign. *)
Lemma neg_fields b : in_u (T_width T) b ->
  bits_sign F (fp_neg F b) = negb (bits_sign F b) /\ bits_exp F (fp_neg F b) = bits_exp F b /\ bits_man F (fp_neg F b) = bits_man F b.
Proof.
  intros Hb. destruct (widths T) as (Wm & We & Ww & _). unfold bits_sign, bits_exp, bits_man, fp_neg.
  assert (forall i, 0 <= i -> Z.testbit (b .^ (1 << (fmw F + few F))) i = xorb (Z.testbit b i) (i =? fmw F + few F)) as Hx.
  { intros i Hi. rewrite Z.lxor_spec, Z.shiftl_1_l, Z.pow2_bits_eqb by lia. by rewrite Z.eqb_sym. }
  split; [rewrite Hx by lia; rewrite Z.eqb_refl; by destruct (Z.testbit b _)|]. split; apply Z.bits_inj'; intros i Hi.
  - rewrite !Z.land_spec, !Z.shiftr_spec, Hx by lia. destruct (Z.eqb_spec (i + fmw F) (fmw F + few F)); [|by rewrite xorb_false_r].
    rewrite Z.ones_spec_high, !andb_false_r by lia. done.
  - rewrite !Z.land_spec, Hx by lia. destruct (Z.eqb_spec i (fmw F + few F)); [|by rewrite xorb_false_r].
    rewrite Z.ones_spec_high, !andb_false_r by lia. done.
Qed.
Lemma neg_sf b : in_u (T_width T) b -> sf F (fp_neg F b) = SFopp (sf F b) /\ is_nan_bits F (fp_neg F b) = is_nan_bits F b.
Proof.
  intros Hb. destruct (neg_fields b Hb) as (Es & Ee & Em). unfold is_nan_bits, sf, sf_of_bits. rewrite Es, Ee, Em. split; [|done].
  repeat case_match; done.
Qed.

(** ** The operations *)
Lemma infinity_pattern b : in_u (T_width T) b -> is_nan_bits F b = false -> fp_finite T b = false -> fp_infinity T (bits_sign F b) = b.
Proof.
  intros Hb Hn Hf. unfold fp_infinity. rewrite <- (fields_pack T b Hb) at 2. unfold is_nan_bits, fp_finite in *. rewrite ones_few in *.
  destruct (Z.eqb_spec (bits_exp F b) (2 ^ few F - 1)) as [->|]; [|done]. cbn [andb] in Hn. apply negb_false_iff, Z.eqb_eq in Hn. by rewrite Hn.
Qed.
Lemma add_ok ops a b : in_u (T_width T) a -> in_u (T_width T) b -> ieee_add T a b (fp_result F ops (SFadd P X (sf F a) (sf F b))).
Proof.
  intros Ha Hb. destruct (format_ok T) as [Hp Hx]. unfold ieee_add.
  destruct (sf_operand a) as [Na|Na Fa Ua|x Na Fa Hfx Ux Sx]; rewrite Na; cbn [orb]; [by apply result_nan|..]; rewrite Fa;
    (destruct (sf_operand b) as [Nb|Nb Fb Ub|y Nb Fb Hfy Uy Sy]; rewrite Nb; [|rewrite Fb..]; cbn [andb]).
  - cbn [SFadd]. apply result_nan.
  - pose proof (infinity_pattern a Ha Na Fa) as E. cbn [SFadd]. destruct (bits_sign F a), (bits_sign F b); cbn [eqb]; rewrite ?result_infinity, ?E; done || apply result_nan.
  - rewrite <- (infinity_pattern a Ha Na Fa) at 2. assert (SFadd P X (S754_infinity (bits_sign F a)) y = S754_infinity (bits_sign F a)) as -> by (by destruct y). apply result_infinity.
  - assert (SFadd P X x S754_nan = S754_nan) as -> by (by destruct x). apply result_nan.
  - rewrite <- (infinity_pattern b Hb Nb Fb) at 2. assert (SFadd P X x (S754_infinity (bits_sign F b)) = S754_infinity (bits_sign F b)) as -> by (by destruct x). apply result_infinity.
  - destruct (add_rounds P X Hp Hx x y Hfx Hfy) as (H1 & H2 & H3). destruct (result_rounded ops _ _ H1 H2) as [H4 H5].
    rewrite H5, H3, <- Ux, <- Uy, <- Sx, <- Sy. split; [done|done].
Qed.
Lemma sub_ok a b : in_u (T_width T) a -> in_u (T_width T) b -> ieee_sub T a b (fp_sub F a b).
Proof.
  intros Ha Hb. destruct (neg_sf b Hb) as [Es _]. unfold ieee_sub, fp_sub. rewrite sub_opp, <- Es.
  apply add_ok; [done|by apply fp_neg_range].
Qed.
Lemma zero_units x : fin P X x -> (sf_units P X x =? 0) = match x with S754_zero _ => true | _ => false end.
Proof.
  destruct x as [s|s| |s m e]; try done. intros Hx. apply Z.eqb_neq. intros E. by destruct (units_zero P X _ Hx E).
Qed.
Lemma infinite_units b : fp_units F b = cond_Zopp (bits_sign F b) (top P X) -> (fp_units F b =? 0) = false /\ (fp_units F b <? 0) = bits_sign F b.
Proof.
  intros ->. assert (0 < top P X) by (by destruct T). destruct (bits_sign F b); cbn [cond_Zopp];
    (split; [apply Z.eqb_neq|apply Z.ltb_lt || apply Z.ltb_ge]; lia).
Qed.
Lemma unit_eq : fp_unit T = 2 ^ (- emin P X).
Proof. by destruct T. Qed.
Lemma mul_ok a b : ieee_mul T a b (fp_mul F a b).
Proof.
  destruct (format_ok T) as [Hp Hx]. unfold ieee_mul, fp_mul.
  destruct (sf_operand a) as [Na|Na Fa Ua|x Na Fa Hfx Ux Sx]; rewrite Na; cbn [orb]; [by apply result_nan|..]; rewrite Fa;
    (destruct (sf_operand b) as [Nb|Nb Fb Ub|y Nb Fb Hfy Uy Sy]; rewrite Nb; [|rewrite Fb..]; cbn [andb]).
  - cbn [SFmul]. apply result_nan.
  - destruct (infinite_units a Ua) as [-> _], (infinite_units b Ub) as [-> _]. apply result_infinity.
  - destruct (infinite_units a Ua) as [-> _]. rewrite <- Uy, zero_units, <- Sy by done. destruct y; try done; [apply result_nan|apply result_infinity].
  - assert (SFmul P X x S754_nan = S754_nan) as -> by (by destruct x). apply result_nan.
  - destruct (infinite_units b Ub) as [-> _]. rewrite <- Ux, zero_units, <- Sx by done. destruct x; try done; [apply result_nan|apply result_infinity].
  - destruct (mul_rounds P X Hp Hx x y Hfx Hfy) as (H1 & H2 & H3). destruct (result_rounded [a; b] _ _ H1 H2) as [H4 H5].
    by rewrite H5, H3, <- Ux, <- Uy, <- Sx, <- Sy, unit_eq.
Qed.
Lemma div_ok a b : ieee_div T a b (fp_div F a b).
Proof.
  destruct (format_ok T) as [Hp Hx]. unfold ieee_div, fp_div.
  destruct (sf_operand a) as [Na|Na Fa Ua|x Na Fa Hfx Ux Sx]; rewrite Na; cbn [orb]; [by apply result_nan|..]; rewrite Fa;
    (destruct (sf_operand b) as [Nb|Nb Fb Ub|y Nb Fb Hfy Uy Sy]; rewrite Nb; [|rewrite Fb..]; cbn [negb]).
  - cbn [SFdiv]. apply result_nan.
  - apply result_nan.
  - rewrite <- Sy. destruct y; try done; apply result_infinity.
  - assert (SFdiv P X x S754_nan = S754_nan) as -> by (by destruct x). apply result_nan.
  - rewrite <- Sx. destruct x; try done; apply result_zero.
  - rewrite <- Ux, <- Uy, <- Sx, <- Sy. destruct (Z.eqb_spec (sf_units P X y) 0) as [E|E].
    + destruct (units_zero P X y Hfy E) as [s ->]. rewrite zero_units by done. destruct x; try done; [apply result_nan|apply result_infinity].
    + destruct (div_rounds P X Hp Hx x y Hfx Hfy E) as (H1 & H2 & H3). destruct (result_rounded [a; b] _ _ H1 H2) as [H4 H5].
      by rewrite H5, H3, unit_eq.
Qed.
Lemma sqrt_ok a : in_u (T_width T) a -> ieee_sqrt T a (fp_sqrt F a).
Proof.
  intros Ha. destruct (format_ok T) as [Hp Hx]. unfold ieee_sqrt, fp_sqrt.
  destruct (sf_operand a) as [Na|Na Fa Ua|x Na Fa Hfx Ux Sx]; rewrite Na; cbn [orb]; [by apply result_nan|..]; rewrite Fa.
  - destruct (infinite_units a Ua) as [_ ->]. pose proof (infinity_pattern a Ha Na Fa) as E. destruct (bits_sign F a); cbn [SFsqrt]; [apply result_nan|].
    rewrite <- E at 2. apply result_infinity.
  - rewrite <- Ux, <- Sx. destruct (Z.ltb_spec (sf_units P X x) 0) as [Hn|Hn].
    + assert (SFsqrt P X x = S754_nan) as ->; [|apply result_nan]. destruct x as [s|s| |[] m e]; try done.
      pose proof (units_pos P X m e Hfx). unfold sf_units in Hn. cbn [cond_Zopp] in Hn. lia.
    + destruct (sqrt_rounds P X Hp Hx x Hfx Hn) as (H1 & H2 & H3). destruct (result_rounded [a] _ _ H1 H2) as [H4 H5].
      by rewrite H5, H3, unit_eq.
Qed.
End values.

(** ** Conversions into the format *)
(** From another format and from an integer. *)
Definition ieee_from_fp (S T : fp_type) (a r : Z) : Prop :=
  if is_nan_bits (fmt_of S) a then is_nan_bits (fmt_of T) r = true
  else if fp_finite S a
  then correctly_rounded T (ratio (fp_units (fmt_of S) a * fp_unit T) (fp_unit S)) r /\ bits_sign (fmt_of T) r = bits_sign (fmt_of S) a
  else r = fp_infinity T (bits_sign (fmt_of S) a).
Definition ieee_from_int (T : fp_type) (v r : Z) : Prop :=
  correctly_rounded T (ratio (v * fp_unit T) 1) r /\ bits_sign (fmt_of T) r = (v <? 0).
Section into.
Context `{HostFP}.
Lemma from_fp_ok S T a : ieee_from_fp S T a (fp_convert (fmt_of S) (fmt_of T) a).
Proof.
  destruct (format_ok T) as [Hp Hx]. unfold ieee_from_fp, fp_convert.
  destruct (sf_operand S a) as [Na|Na Fa Ua|x Na Fa Hfx Ux Sx]; rewrite Na; [by apply result_nan|..]; rewrite Fa; [apply result_infinity|].
  set (PT := fprec (fmt_of T)) in *. set (XT := femax (fmt_of T)) in *.
  assert (0 < fp_unit S) as HQ by (by destruct S). rewrite <- Ux, <- Sx. destruct x as [s|s| |s m e]; try done.
  - cbn [sf_units sf_sign]. rewrite Z.mul_0_l. by apply result_rounded; [apply nearest_zero|].
  - destruct (normalize_rounds PT XT Hp Hx (cond_Zopp s (Zpos m)) e s (sf_units (fprec (fmt_of S)) (femax (fmt_of S)) (S754_finite s m e) * fp_unit T) (fp_unit S)) as (H1 & H2 & H3); [done| |].
    + destruct Hfx as (He & _). destruct (format_ok S) as [HpS HxS]. pose proof (emin_neg _ _ HpS HxS). pose proof (emin_neg _ _ Hp Hx).
      exists (Z.abs (emin PT XT) + Z.abs e). split; [lia|]. split; [lia|]. rewrite !unit_eq. fold PT XT.
      assert (forall k, sf_units (fprec (fmt_of S)) (femax (fmt_of S)) (S754_finite s m e) * k = cond_Zopp s (Zpos m) * (2 ^ (e - emin (fprec (fmt_of S)) (femax (fmt_of S))) * k)) as E.
      { intros k. cbn [sf_units]. destruct s; cbn [cond_Zopp]; lia. }
      rewrite Z.mul_1_r, <- Z.mul_assoc, E, (Z.mul_comm (2 ^ _) (cond_Zopp _ _)), <- Z.mul_assoc, <- !Z.pow_add_r by lia. do 2 f_equal. lia.
    + destruct (result_rounded T [a] _ _ H1 H2) as [H4 H5]. split; [done|]. rewrite H5, H3. by destruct s.
Qed.
Lemma from_int_ok T v : ieee_from_int T v (fp_of_int (fmt_of T) v).
Proof.
  destruct (format_ok T) as [Hp Hx]. unfold ieee_from_int, fp_of_int. pose proof (emin_neg _ _ Hp Hx).
  destruct (normalize_rounds _ _ Hp Hx v 0 false (v * fp_unit T) 1) as (H1 & H2 & H3); [done| |].
  - exists 0. split; [done|]. split; [lia|]. rewrite unit_eq, Z.pow_0_r. match goal with |- context [2 ^ (0 - ?x + 0)] => replace (0 - x + 0) with (- x) by lia end. lia.
  - destruct (result_rounded T [v] _ _ H1 H2) as [H4 H5]. split; [done|]. rewrite H5, H3. destruct (Z.eqb_spec v 0) as [->|]; done.
Qed.
End into.

(** ** The instructions *)
Definition arith_op (lowop : Z) : option fpOperation :=
  match lowop with
  | 0 => Some fp_op_add | 1 => Some fp_op_sub | 2 => Some fp_op_mul | 3 => Some fp_op_div | 4 => Some fp_op_sqrt
  | 0x15 => Some fp_op_recip | 0x16 => Some fp_op_rsqrt
  | _ => None
  end.
(** The operand of a CVT.S or a CVT.D, by the format field. *)
Definition converted (T : fp_type) (inst : Z) (s : state) (r : Z) : Prop :=
  match f_fmt inst with
  | 16 => ieee_from_fp T_float T (read_T T_float (f_fs inst) s) r
  | 17 => ieee_from_fp T_double T (read_T T_double (f_fs inst) s) r
  | 20 => ieee_from_int T (read_w (f_fs inst) s) r
  | 21 => ieee_from_int T (read_l (f_fs inst) s) r
  | _ => False
  end.
Definition from_formats (T : fp_type) : list Z := match T with T_float => [17; 20; 21] | T_double => [16; 20; 21] end.
(** The instruction wrote [v] to FP register [fd], kept the upper half of the register
    if [v] is a single, and went on. *)
Record wrote (T : fp_type) (fd v : Z) (s t : state) : Prop := {
  w_value : read_T T fd t = v;
  w_half : T = T_float -> u32 ((cpr1 t).[fd] >> 32) = u32 ((cpr1 s).[fd] >> 32);
  w_others : forall i, i <> fd -> (cpr1 t).[i] = (cpr1 s).[i];
  w_gpr : gpr t = gpr s;
  w_pc : pc t = s64 (pc s + 4);
}.
Section instructions.
Context `{Config, HostFP}.
Implicit Types (inst : Z) (s t : state).
Lemma write_T_wrote T fd v s t : wf s -> in_u (T_width T) v -> cpr1 t = cpr1 (write_T T fd v s) -> gpr t = gpr s -> pc t = s64 (pc s + 4) ->
  wrote T fd v s t.
Proof.
  intros Hw Hv Hc Hg Hp. destruct (fpr_write_reads (T_width T) fd v s Hw ltac:(destruct T; auto)) as (R1 & R2 & R3 & _).
  assert (cpr1 (fpr_write (T_width T) fd v s) = cpr1 t) as E.
  { rewrite Hc. unfold fpr_write. destruct T; cbn [T_width Z.eqb Pos.eqb write_T]; [done|]. by rewrite (wrapu_id 64 v Hv : u64 v = v). }
  rewrite E in R1, R2, R3. split; try done.
  - rewrite (wrapu_id _ v Hv) in R1. destruct T; [exact R1|]. cbn [read_T T_width] in *. rewrite <- R1. symmetry. apply wrapu_id.
    rewrite Hc. cbn [write_T]. rd_simpl. exact Hv.
  - intros ->. by apply R2.
Qed.
Lemma compute_ok T op a b : in_u (T_width T) a -> in_u (T_width T) b -> In op [fp_op_add; fp_op_sub; fp_op_mul; fp_op_div; fp_op_sqrt; fp_op_recip; fp_op_rsqrt] ->
  exists v i, fp_compute T op a b = Some (v, i) /\ ieee_op T op a b v /\ in_u (T_width T) v.
Proof.
  intros Ha Hb Hop. cbn [In] in Hop. destruct_or! Hop; try done; subst op; cbn [fp_compute]; do 2 eexists; (split; [reflexivity|]);
    (split; [cbn [ieee_op]|apply fp_result_range]).
  - by apply add_ok.
  - by apply sub_ok.
  - apply mul_ok.
  - apply div_ok.
  - by apply sqrt_ok.
  - apply div_ok.
  - exists (fp_sqrt (fmt_of T) a). split; [by apply sqrt_ok|apply div_ok].
Qed.
Lemma do_fp_op_ok T op inst s : wf s -> f_fmt inst = fmt_code T -> In op [fp_op_add; fp_op_sub; fp_op_mul; fp_op_div; fp_op_sqrt; fp_op_recip; fp_op_rsqrt] ->
  exists t v, do_fp_op op inst s = Ok t /\ wrote T (f_fd inst) v s t /\ ieee_op T op (read_T T (f_fs inst) s) (read_T T (f_ft inst) s) v.
Proof.
  intros Hw Hf Hop. destruct (compute_ok T op (read_T T (f_fs inst) s) (read_T T (f_ft inst) s)) as (v & i & E & Hv & Hr); [by apply read_T_range..|done|].
  assert (execFP T op inst s = Ok (s |> write_T T (f_fd inst) v |> histo i |> add_pc 4)) as Ee by (unfold execFP; by rewrite E).
  unfold do_fp_op. rewrite Hf. eexists _, v. split; [destruct T; cbn [fmt_code]; rewrite Ee; reflexivity|]. split; [|done].
  destruct T; apply write_T_wrote; done.
Qed.
Lemma cvts_ok inst s : wf s -> In (f_fmt inst) (from_formats T_float) ->
  exists t r, _cvts inst s = Ok t /\ wrote T_float (f_fd inst) r s t /\ converted T_float inst s r.
Proof.
  intros Hw Hf. cbn [In from_formats] in Hf. unfold _cvts, converted. destruct Hf as [Hf|[Hf|[Hf|[]]]]; rewrite <- Hf; (eexists; eexists; split; [reflexivity|split]).
  all: try (apply write_T_wrote; [done|apply (fp_result_range T_float)|reflexivity..]).
  - apply (from_fp_ok T_double T_float).
  - apply (from_int_ok T_float).
  - apply (from_int_ok T_float).
Qed.
Lemma cvtd_ok inst s : wf s -> In (f_fmt inst) (from_formats T_double) ->
  exists t r, _cvtd inst s = Ok t /\ wrote T_double (f_fd inst) r s t /\ converted T_double inst s r.
Proof.
  intros Hw Hf. cbn [In from_formats] in Hf. unfold _cvtd, converted. destruct Hf as [Hf|[Hf|[Hf|[]]]]; rewrite <- Hf; (eexists; eexists; split; [reflexivity|split]).
  all: try (apply write_T_wrote; [done|apply (fp_result_range T_double)|reflexivity..]).
  - apply (from_fp_ok T_float T_double).
  - apply (from_int_ok T_double).
  - apply (from_int_ok T_double).
Qed.
End instructions.

(** C22. Floating-point results are correctly rounded.  ADD, SUB, MUL, DIV, SQRT, RECIP
    and RSQRT write to their destination the IEEE 754 result of their operands: the
    number of the format nearest to the exact one, ties to even, with subnormal results
    and overflow to infinity as the standard has them, its signs of zero, its results on
    infinities and a NaN where it asks for one (RSQRT is the rounded reciprocal of the
    rounded root).  CVT.S and CVT.D round the other format and the integers so.  The
    rest of the destination, the other registers and the general registers are kept. *)
Theorem results_correctly_rounded `{Config, HostFP} (inst : Z) (s : state) (Hw : wf s) (Hev : even_operands inst s) :
  (forall T op, f_fmt inst = fmt_code T -> arith_op (inst .& 63) = Some op ->
     (op = fp_op_recip \/ op = fp_op_rsqrt -> ISS_MIPS4 || ISS_MIPS4_CMOV = true) ->
     exists t r, exec_cop1_op inst s = Ok t /\ wrote T (f_fd inst) r s t /\
       ieee_op T op (read_T T (f_fs inst) s) (read_T T (f_ft inst) s) r) /\
  (forall T, (inst .& 63) = (match T with T_float => 0x20 | T_double => 0x21 end) -> In (f_fmt inst) (from_formats T) ->
     exists t r, exec_cop1_op inst s = Ok t /\ wrote T (f_fd inst) r s t /\ converted T inst s r).
Proof.
  split.
  - intros T op Hf Hop H4. pose proof (land_63_range inst) as Hl. unfold exec_cop1_op.
    assert (In (inst .& 63) [0; 1; 2; 3; 4; 0x15; 0x16]) as Hin.
    { unfold arith_op in Hop. repeat case_match; try done; cbn; tauto. }
    rewrite gate_open by (done || cbn [In] in Hin; lia). clear Hev. cbn [In] in Hin.
    assert (ISS_MIPS4 || ISS_MIPS4_CMOV = true -> negb ISS_MIPS4 && negb ISS_MIPS4_CMOV = false) as Hn by (destruct ISS_MIPS4, ISS_MIPS4_CMOV; done).
    destruct_or! Hin; try done; rewrite <- Hin in *; injection Hop as <-;
      match goal with |- context [?k >> 4 =? 3] => change (k >> 4 =? 3) with false end; cbn beta iota; rewrite ?Hn by auto;
      match goal with |- context [do_fp_op ?op] => destruct (do_fp_op_ok T op inst s Hw Hf ltac:(cbn; tauto)) as (t & r & E & Hwr & Hr) end;
      exists t, r; (split; [exact E|by split]).
  - intros T Hop Hf. unfold exec_cop1_op. rewrite gate_open by (done || rewrite Hop; destruct T; lia). rewrite Hop.
    destruct T; [exact (cvts_ok inst s Hw Hf)|exact (cvtd_ok inst s Hw Hf)].
Qed.
(** 1/3 in double precision, and 2^24 + 1 narrowed. *)
Lemma results_correctly_rounded_witness :
  (exists t r, @exec_cop1_op r4400_config indefinite_host 0x46241183 (fp_machine 0x3ff0000000000000 0x4008000000000000) = Ok t /\
    read_T T_double 6 t = r /\ correctly_rounded T_double (ratio (2 ^ 1074 * 2 ^ 1074 * 1) (3 * 2 ^ 1074)) r) /\
  (exists t r, @exec_cop1_op r4400_config indefinite_host 0x462011a0 (fp_machine 0x4170000010000000 0) = Ok t /\
    read_T T_float 6 t = r /\ correctly_rounded T_float (ratio ((2 ^ 24 + 1) * 2 ^ 1074 * 2 ^ 149) (2 ^ 1074)) r).
Proof.
  split.
  - destruct (@results_correctly_rounded r4400_config indefinite_host 0x46241183 (fp_machine 0x3ff0000000000000 0x4008000000000000)) as [Ha _];
      [by apply wf_fp_machine|intros _; reflexivity|].
    destruct (Ha T_double fp_op_div eq_refl eq_refl) as (t & r & E & [Hv _ _ _ _] & Hr); [intros [|]; discriminate|].
    exists t, r. split; [exact E|]. split; [exact Hv|]. clear -Hr. cbn [ieee_op] in Hr. unfold ieee_div in Hr.
    set (a := read_T T_double _ _) in Hr. assert (a = 0x3ff0000000000000) as Ea by (vm_compute; reflexivity).
    set (b := read_T T_double _ _) in Hr. assert (b = 0x4008000000000000) as Eb by (vm_compute; reflexivity). rewrite Ea, Eb in Hr. clear a b Ea Eb.
    assert (is_nan_bits (fmt_of T_double) 0x3ff0000000000000 || is_nan_bits (fmt_of T_double) 0x4008000000000000 = false) as E1 by (vm_compute; reflexivity).
    assert (fp_finite T_double 0x3ff0000000000000 = true) as E2 by (vm_compute; reflexivity).
    assert (fp_finite T_double 0x4008000000000000 = true) as E3 by (vm_compute; reflexivity).
    assert (fp_units (fmt_of T_double) 0x3ff0000000000000 = 2 ^ 1074) as E4 by (vm_compute; reflexivity).
    assert (fp_units (fmt_of T_double) 0x4008000000000000 = 3 * 2 ^ 1074) as E5 by (vm_compute; reflexivity).
    assert ((3 * 2 ^ 1074 =? 0) = false) as E6 by (vm_compute; reflexivity).
    rewrite E1, E2, E3, E4, E5, E6 in Hr. exact (proj1 Hr).
  - destruct (@results_correctly_rounded r4400_config indefinite_host 0x462011a0 (fp_machine 0x4170000010000000 0)) as [_ Hc];
      [by apply wf_fp_machine|intros _; reflexivity|].
    destruct (Hc T_float eq_refl ltac:(left; reflexivity)) as (t & r & E & [Hv _ _ _ _] & Hr).
    exists t, r. split; [exact E|]. split; [exact Hv|]. clear -Hr. change (ieee_from_fp T_double T_float 0x4170000010000000 r) in Hr. unfold ieee_from_fp in Hr.
    assert (is_nan_bits (fmt_of T_double) 0x4170000010000000 = false) as E1 by (vm_compute; reflexivity).
    assert (fp_finite T_double 0x4170000010000000 = true) as E2 by (vm_compute; reflexivity).
    assert (fp_units (fmt_of T_double) 0x4170000010000000 = (2 ^ 24 + 1) * 2 ^ 1074) as E3 by (vm_compute; reflexivity).
    rewrite E1, E2, E3 in Hr. exact (proj1 Hr).
Defined.
