(* ===== verification/Firmware.v ===== *)
(** The boot firmware ([src/arcs/henry_fw.c], [src/arcs/henry_newport.c]): the
    serial heartbeat, the staging of the ARCS block and of the kernel's arguments,
    the Newport bring-up, and the firmware callbacks.  It is a freestanding 32-bit
    big-endian program; what it asks of the machine is the interface [Platform],
    its loops carry fuel, and the linker's symbols are parameters. *)
From Stdlib Require Import String Ascii.
From S2P Require Import Prelude Bits.
#[local] Open Scope Z_scope.

(** The accesses a program of this kind makes: volatile loads and stores of one,
    two and four bytes at a 32-bit virtual address, and the putchar FIFO of CP0
    register 7. *)
Class Platform (W : Type) := {
  load8 : Z -> W -> result (Z * W);
  load32 : Z -> W -> result (Z * W);
  store8 : Z -> Z -> W -> result W;
  store16 : Z -> Z -> W -> result W;
  store32 : Z -> Z -> W -> result W;
  mfc0_7 : W -> result (Z * W);
  mtc0_7 : Z -> W -> result W;
}.

Definition ARCS_BB : Z := 0x88fff000.
Definition ARCS_ARGC : Z := 8.
Definition SPB_VMA : Z := 0xA0001000.
Definition KENTRY_SLOT : Z := 0xBFC00008.
Definition SCC_STAT : Z := 0xbfbd9830.
Definition SCC_DATA : Z := 0xbfbd9837.
Definition MAC_BASE : Z := 0xbfbe04e8.
Definition HALT_REG : Z := 0xBFD00000.
Definition bytes_of (s : string) : list Z := map (fun c => Z.of_nat (nat_of_ascii c)) (list_ascii_of_string s).
Definition mac : list Z := [0x08; 0x00; 0x69; 0x12; 0x34; 0x56].

Section firmware.
Context {W : Type} `{Platform W}.
Implicit Types (w : W).

(** ** Console *)
Fixpoint scc_putc (fuel : nat) (c : Z) w : result W :=
  match fuel with
  | O => Stop OutOfFuel
  | S fuel => let! (st, w) := load8 SCC_STAT w in
              if st .& 0x04 =? 0 then scc_putc fuel c w else store8 SCC_DATA (u8 c) w
  end.
Fixpoint scc_puts (fuel : nat) (s : list Z) w : result W :=
  match s with
  | [] => Ok w
  | c :: s => let! w := scc_putc fuel c w in scc_puts fuel s w
  end.

(** ** Newport *)
Definition REX_BASE : Z := 0xbf0f0000.
Definition REX_DRAWMODE1 : Z := 0x0000.
Definition REX_CLIPMODE : Z := 0x1328.
Definition REX_DCBMODE : Z := 0x0238.
Definition REX_DCBDATA0 : Z := 0x0240.
Definition rex_w32 (off v : Z) w : result W := store32 (REX_BASE + off) v w.
Definition rex_r32 (off : Z) w : result (Z * W) := load32 (REX_BASE + off) w.
(** The halfword goes out byte-swapped. *)
Definition rex_dcbdata16 (v : Z) w : result W :=
  let t := u16 v in
  store16 (REX_BASE + REX_DCBDATA0 + 2) (u16 (((t << 8) .| (t >> 8)) .& 0xffff)) w.
Definition DCB_W4 : Z := 0.
Definition DCB_W2 : Z := 2.
Definition DCB_W3 : Z := 3.
Definition DCB_ENCRSINC : Z := 8.
Definition DCB_CRS (n : Z) : Z := n << 4.
Definition DCB_SLAVE (n : Z) : Z := n << 7.
Definition DCB_VC2 : Z := 0.
Definition DCB_XMAP_ALL : Z := 4.
Definition VC2_CRS_INDEX : Z := 0.
Definition VC2_CRS_RAM : Z := 3.
Definition DCB_PROTOCOL : Z := 0x00840000.
Definition VC2_IDX_VIDEO : Z := 0x00.
Definition VC2_IDX_CENTRY : Z := 0x01.
Definition VC2_IDX_DID : Z := 0x05.
Definition VC2_IDX_SCANLEN : Z := 0x06.
Definition VC2_IDX_RADDR : Z := 0x07.
Definition VC2_IDX_DISPCTL : Z := 0x10.
Definition VC2_IDX_CONFIG : Z := 0x1f.
Definition vc2_set (idx val : Z) w : result W :=
  let! w := rex_w32 REX_DCBMODE (DCB_SLAVE DCB_VC2 .| DCB_CRS VC2_CRS_INDEX .| DCB_W3 .| DCB_ENCRSINC .| DCB_PROTOCOL) w in
  rex_w32 REX_DCBDATA0 (u32 (idx << 24) .| u32 (val << 8)) w.
Fixpoint dcb_stream (data : list Z) w : result W :=
  match data with [] => Ok w | x :: data => let! w := rex_dcbdata16 x w in dcb_stream data w end.
Definition vc2_ram (start : Z) (data : list Z) w : result W :=
  let! w := vc2_set VC2_IDX_RADDR start w in
  let! w := rex_w32 REX_DCBMODE (DCB_SLAVE DCB_VC2 .| DCB_CRS VC2_CRS_RAM .| DCB_W2 .| DCB_PROTOCOL) w in
  dcb_stream data w.
Definition XMAP_CRS_CONFIG : Z := 0.
Definition XMAP_CRS_MODETBL : Z := 5.
Definition xmap_write (crs d : Z) w : result W :=
  let! w := rex_w32 REX_DCBMODE (DCB_SLAVE DCB_XMAP_ALL .| DCB_CRS crs .| DCB_W4 .| DCB_PROTOCOL) w in
  rex_w32 REX_DCBDATA0 d w.
End firmware.

(** The tables of the 1280x1024 timing. *)
Definition vc2_state : list Z :=
  [0x3f0c; 0xaf52; 0x9f03; 0x1f39; 0xa352; 0xbf03; 0x3f54; 0xaf52] ++
  [0x3f7f; 0xaf53; 0xbf7f; 0xbf7f; 0xbf7f; 0xbf7f; 0xbfaf; 0x0000] ++
  [0x3f0c; 0xaf7a; 0x9f03; 0x1f39; 0xa37a; 0xbf03; 0x3f54; 0xaf7a] ++
  [0x3f7f; 0xaf7b; 0xbf7f; 0xbf7f; 0xbf7f; 0xbf7f; 0xbfaf; 0x1000] ++
  [0x1f0f; 0xa578; 0x1f3c; 0xa178; 0x1f54; 0xa578; 0x1f7f; 0xa579] ++
  [0x9f7f; 0x9f7f; 0x9f7f; 0x9f7f; 0x9faf; 0x2000; 0x3f0c; 0xaf3a] ++
  [0x9f03; 0x1f39; 0xa33a; 0xbf03; 0x3f54; 0xaf3a; 0x3f7f; 0xaf3b] ++
  [0xbf7f; 0xbf7f; 0xbf7f; 0xbf7f; 0xbfaf; 0x2e00; 0x3f0c; 0xaf7a] ++
  [0x9f03; 0x1f39; 0xa37a; 0xbf03; 0x3f54; 0xaf7a; 0x3f0c; 0xaf7b] ++
  [0xbd7f; 0xbd7f; 0xbd7f; 0xbd7f; 0xbd7f; 0xbd18; 0xbf8b; 0x3e00] ++
  [0x2f04; 0xbf7a; 0xbf08; 0x9f03; 0x1f39; 0xb37a; 0xbf03; 0x3f53] ++
  [0xbf7a; 0xb701; 0x370c; 0xbf7b; 0xb512; 0xb001; 0x3007; 0xff7f] ++
  [0xf07f; 0xf07f; 0xf07f; 0xf07f; 0xf07d; 0xf301; 0x7b8a; 0xbfff] ++
  [0x5000; 0x2f04; 0xbf7a; 0xbf08; 0x9f03; 0x1f39; 0xb37a; 0xbf03] ++
  [0x3f53; 0xbf7a; 0xb701; 0x370c; 0xbf7b; 0xb512; 0xb001; 0x3007] ++
  [0xff7f; 0xf07f; 0xf07f; 0xf07f; 0xf07f; 0xf077; 0x7006; 0xfe7f] ++
  [0xf301; 0x7b8a; 0xbeff; 0x6900].
Definition vc2_ventry : list Z :=
  [0x0000; 0x0100; 0x1000; 0x0200; 0x2000; 0x0300; 0x1000; 0x0300] ++
  [0x2e00; 0x0100; 0x3e00; 0x1f00; 0x5000; 0xff03; 0x6900; 0x0100].
Definition vc2_cursor : list Z :=
  [0x0000; 0x0000; 0x0010; 0x0000; 0x0018; 0x0000; 0x001c; 0x0000] ++
  [0x001e; 0x0000; 0x001f; 0x0000; 0x801f; 0x0000; 0xc01f; 0x0000] ++
  [0xe01f; 0x0000; 0x001f; 0x0000; 0x001b; 0x0000; 0x8011; 0x0000] ++
  [0x8001; 0x0000; 0xc000; 0x0000; 0xc000; 0x0000; 0x0000; 0x0000] ++
  [0x0000; 0x0000; 0x0000; 0x0000; 0x0000; 0x0000; 0x0000; 0x0000] ++
  [0x0000; 0x0000; 0x0000; 0x0000; 0x0000; 0x0000; 0x0000; 0x0000] ++
  [0x0000; 0x0000; 0x0000; 0x0000; 0x0000; 0x0000; 0x0000; 0x0000] ++
  [0x0000; 0x0000; 0x0000; 0x0000; 0x0000; 0x0000; 0x0000; 0x0000] ++
  [0x0030; 0x0000; 0x0028; 0x0000; 0x0024; 0x0000; 0x0022; 0x0000] ++
  [0x0021; 0x0000; 0x8020; 0x0000; 0x4020; 0x0000; 0x2020; 0x0000] ++
  [0x1020; 0x0000; 0xf020; 0x0000; 0x8024; 0x0000; 0x402a; 0x0000] ++
  [0x4032; 0x0000; 0x2001; 0x0000; 0x2001; 0x0000; 0xe000; 0x0000].
Definition VC2_DID_BASE : Z := 0x0600.
Definition VC2_DID_LINES : nat := 1024.
Definition VC2_DID_VALUE : Z := 0x0010.
Definition XMAP_CONFIG : Z := 0x05.
Definition XMAP_MODE : Z := 0x000400.
Definition REX3_DRAWMODE1 : Z := 0x30007109.
Definition REX3_CLIPMODE : Z := 0x00001e00.

Section newport.
Context {W : Type} `{Platform W}.
Implicit Types (w : W).
Definition newport_present w : result (bool * W) :=
  let! (v, w') := rex_r32 (W:=W) REX_DRAWMODE1 w in Ok (v =/? 0, w').
Fixpoint xmap_modes (n : nat) (i : Z) w : result W :=
  match n with
  | O => Ok w
  | S n => let! w := xmap_write XMAP_CRS_MODETBL (u32 (i << 24) .| XMAP_MODE) w in xmap_modes n (i + 1) w
  end.
Definition newport_program w : result W :=
  let! w := vc2_ram 0x000 vc2_state w in
  let! w := vc2_ram 0x400 vc2_ventry w in
  let! w := vc2_ram 0x500 vc2_cursor w in
  let! w := vc2_ram VC2_DID_BASE (replicate VC2_DID_LINES VC2_DID_VALUE) w in
  let! w := vc2_set VC2_IDX_CENTRY 0x0500 w in
  let! w := vc2_set VC2_IDX_DID VC2_DID_BASE w in
  let! w := vc2_set VC2_IDX_SCANLEN 0xa080 w in
  let! w := vc2_set VC2_IDX_DISPCTL 0x009f w in
  let! w := vc2_set VC2_IDX_CONFIG 0x0001 w in
  let! w := vc2_set VC2_IDX_VIDEO 0x0400 w in
  let! w := xmap_write XMAP_CRS_CONFIG XMAP_CONFIG w in
  let! w := xmap_modes 0x20 0 w in
  let! w := rex_w32 REX_DRAWMODE1 REX3_DRAWMODE1 w in
  rex_w32 REX_CLIPMODE REX3_CLIPMODE w.
Definition newport_msg : list Z := bytes_of "Newport found" ++ [10].
Definition newport_init (fuel : nat) w : result W :=
  let! (present, w) := newport_present w in
  if (present : bool) then let! w := scc_puts fuel newport_msg w in newport_program w else Ok w.
End newport.

(** ** The first-stage loader *)
(** The symbols of the linker script and of [henry_arcs.S]. *)
Record symbols := mk_symbols {
  spb_lma : Z; spb_size : Z; arcs_argv_blob : Z; arcs_argv_blob_end : Z; arcs_argv_arr : Z; arcs_envp_arr : Z;
  monitor_str : Z; eaddr_str : Z; mdesc_ram : Z; root_component : Z;
}.
Section fsbl.
Context {W : Type} `{Platform W} (sy : symbols).
Implicit Types (w : W).
Fixpoint relocate_loop (fuel : nat) (i src dst : Z) w : result W :=
  match fuel with
  | O => Stop OutOfFuel
  | S fuel =>
      if i <? spb_size sy then
        let! (x, w) := load32 src w in
        let! w := store32 dst x w in
        relocate_loop fuel (u32 (i + 4)) (u32 (src + 4)) (u32 (dst + 4)) w
      else Ok w
  end.
Definition fsbl_relocate_spb (fuel : nat) w : result W := relocate_loop fuel 0 (spb_lma sy) SPB_VMA w.
Fixpoint mac_loop (p : Z) (l : list Z) w : result W :=
  match l with [] => Ok w | b :: l => let! w := store32 p b w in mac_loop (p + 4) l w end.
Definition fsbl_write_mac w : result W := mac_loop MAC_BASE mac w.
Fixpoint stage_loop (fuel : nat) (s d : Z) w : result W :=
  match fuel with
  | O => Stop OutOfFuel
  | S fuel =>
      if s <? arcs_argv_blob_end sy then
        let! (x, w) := load8 s w in
        let! w := store8 d x w in
        stage_loop fuel (u32 (s + 1)) (u32 (d + 1)) w
      else Ok w
  end.
(** The call of [jump_kernel]: argc, argv, envp and the kernel's entry. *)
Record handoff := mk_handoff { h_argc : Z; h_argv : Z; h_envp : Z; h_entry : Z }.
Definition alive_msg : list Z := bytes_of "r9999 PROM: CPU alive, handing off to the kernel" ++ [10].
Definition fsbl_main (newport : bool) (fuel : nat) w : result (handoff * W) :=
  let! w := scc_puts fuel alive_msg w in
  let! w := fsbl_relocate_spb fuel w in
  let! w := fsbl_write_mac w in
  let! w := if newport then newport_init fuel w else Ok w in
  let! w := stage_loop fuel (arcs_argv_blob sy) ARCS_BB w in
  let argv := u32 (ARCS_BB + u32 (arcs_argv_arr sy - arcs_argv_blob sy)) in
  let envp := u32 (ARCS_BB + u32 (arcs_envp_arr sy - arcs_argv_blob sy)) in
  let! (entry, w) := load32 KENTRY_SLOT w in
  Ok (mk_handoff ARCS_ARGC argv envp entry, w).

(** ** Firmware callbacks *)
Fixpoint wait_fifo (fuel : nat) w : result W :=
  match fuel with
  | O => Stop OutOfFuel
  | S fuel => let! (v, w) := mfc0_7 w in if v .& 1 =/? 0 then wait_fifo fuel w else Ok w
  end.
Fixpoint write_loop (fuel : nat) (n : nat) (b : Z) w : result W :=
  match n with
  | O => Ok w
  | S n =>
      let! w := wait_fifo fuel w in
      let! (c, w) := load8 b w in
      let! w := mtc0_7 (c .& 0xff) w in
      write_loop fuel n (u32 (b + 1)) w
  end.
Definition stub_write (fuel : nat) (buf len cnt : Z) w : result (Z * W) :=
  let! w := write_loop fuel (Z.to_nat len) buf w in
  let! w := if cnt =/? 0 then store32 cnt len w else Ok w in
  Ok (0, w).
Definition stub_mdesc (cur : Z) : Z := if cur =/? 0 then 0 else mdesc_ram sy.
Definition stub_child (cur : Z) : Z := if cur =/? 0 then 0 else root_component sy.
Definition stub_peer (cur : Z) : Z := 0.
Definition stub_default : Z := 0.
Definition stub_getenv (name : Z) w : result (Z * W) :=
  if name =? 0 then Ok (eaddr_str sy, w) else
  let! (c0, w) := load8 name w in
  if c0 =/? 0x6d then Ok (eaddr_str sy, w) else
  let! (c1, w) := load8 (u32 (name + 1)) w in
  if c1 =/? 0x6f then Ok (eaddr_str sy, w) else
  let! (c2, w) := load8 (u32 (name + 2)) w in
  Ok (if c2 =? 0x6e then monitor_str sy else eaddr_str sy, w).
(** The store to the halt register; the processor then spins. *)
Definition stub_halt w : result W := store32 HALT_REG 1 w.
End fsbl.
