(* ===== verification/FirmwareProps.v ===== *)
(** Properties of the boot firmware, proved against what it relies on of the
    platform ([PlatformLaws]), and a platform that keeps those laws. *)
From Stdlib Require Import String Ascii.
From S2P Require Import Prelude Bits Devices Bus Firmware.
#[local] Open Scope Z_scope.

(** Both unmapped kernel segments reach the low 512 MB. *)
Definition phys (a : Z) : Z := a .& 0x1fffffff.
Definition kernel_va (a : Z) : Prop := 0x80000000 <= a < 0xc0000000.
(** The run of [n] bytes at [a] stays in one segment. *)
Definition run_ok (a n : Z) : Prop := kernel_va a /\ phys a + n <= 0x20000000.

(** What the firmware relies on: memory behaves, the serial chip takes a byte when
    its status says so and says so within a bounded number of polls, and the other
    registers it touches answer. *)
Class PlatformLaws (W : Type) `{Platform W} := {
  ram : W -> Z -> Z;
  console : W -> list Z;
  pending : W -> nat;
  patience : nat;
  readable : Z -> bool;
  writable : Z -> bool;
  ram_byte : forall w c, in_u 8 (ram w c);
  pending_bound : forall w, (pending w <= patience)%nat;
  law_load8 : forall a w, kernel_va a -> readable (phys a) = true -> load8 a w = Ok (ram w (phys a), w);
  law_load32 : forall a w, kernel_va a -> a mod 4 = 0 -> (forall k, 0 <= k < 4 -> readable (phys a + k) = true) ->
    load32 a w = Ok (le_join (rev (map (fun k => ram w (phys a + k)) [0; 1; 2; 3])), w);
  law_store8 : forall a x w, kernel_va a -> writable (phys a) = true -> exists w', store8 a x w = Ok w' /\ console w' = console w /\
    forall c, ram w' c = if inside (phys a) 1 c then u8 x else ram w c;
  law_store32 : forall a x w, kernel_va a -> a mod 4 = 0 -> (forall k, 0 <= k < 4 -> writable (phys a + k) = true) ->
    exists w', store32 a x w = Ok w' /\ console w' = console w /\
    forall c, ram w' c = if inside (phys a) 4 c then nth (Z.to_nat (c - phys a)) (rev (le_split 4 x)) 0 else ram w c;
  law_status : forall w, exists v w', load8 SCC_STAT w = Ok (v, w') /\ console w' = console w /\ (forall c, ram w' c = ram w c) /\
    (v .& 4 = 0 -> (pending w' < pending w)%nat);
  law_data : forall c w, exists w', store8 SCC_DATA c w = Ok w' /\ console w' = console w ++ [c] /\ forall a, ram w' a = ram w a;
  law_mac : forall i x w, 0 <= i < 6 -> exists w', store32 (MAC_BASE + 4 * i) x w = Ok w' /\ console w' = console w /\
    forall c, ram w' c = ram w c;
  law_rex32 : forall off x w, 0 <= off < 0x2000 -> exists w', store32 (REX_BASE + off) x w = Ok w' /\ console w' = console w /\
    forall c, ram w' c = ram w c;
  law_rex16 : forall off x w, 0 <= off < 0x2000 -> exists w', store16 (REX_BASE + off) x w = Ok w' /\ console w' = console w /\
    forall c, ram w' c = ram w c;
  law_rexrd : forall off w, 0 <= off < 0x2000 -> exists v w', load32 (REX_BASE + off) w = Ok (v, w') /\ console w' = console w /\
    forall c, ram w' c = ram w c;
}.

(** * Theorems *)
Lemma phys_mod a : phys a = a mod 2 ^ 29.
Proof. unfold phys. change 0x1fffffff with (Z.ones 29). by rewrite Z.land_ones. Qed.
Lemma run_step a n i : run_ok a n -> 0 <= i < n ->
  kernel_va (u32 (a + i)) /\ phys (u32 (a + i)) = phys a + i /\ u32 (a + i) = a + i.
Proof.
  intros [Ha Hn] Hi. unfold kernel_va in *. rewrite phys_mod in Hn.
  change (2 ^ 29) with 536870912 in *.
  assert (a + i < 0xc0000000) as Hlt.
  { change 0x20000000 with 536870912 in Hn. Z.div_mod_to_equations. lia. }
  rewrite wrapu_id by (unfold in_u; change (2 ^ 32) with 4294967296; lia).
  split; [lia|]. split; [|done]. rewrite !phys_mod. change (2 ^ 29) with 536870912.
  change 0x20000000 with 536870912 in Hn. Z.div_mod_to_equations. lia.
Qed.

Section laws.
Context {W : Type} `{PlatformLaws W}.
Implicit Types (w : W).
(** Console output aside, the world is the same; memory is the same. *)
Definition same_ram (w w' : W) : Prop := forall c, ram w' c = ram w c.
Definition quiet (w w' : W) : Prop := console w' = console w /\ same_ram w w'.
Lemma quiet_trans w1 w2 w3 : quiet w1 w2 -> quiet w2 w3 -> quiet w1 w3.
Proof. intros [C1 R1] [C2 R2]. split; [by rewrite C2|]. intros c. by rewrite R2. Qed.
Lemma quiet_refl w : quiet w w.
Proof. by split. Qed.

(** ** The console *)
Lemma scc_putc_ok fuel c w : (pending w < fuel)%nat ->
  exists w', scc_putc fuel c w = Ok w' /\ console w' = console w ++ [u8 c] /\ same_ram w w'.
Proof.
  revert w; induction fuel as [|fuel IH]; intros w Hf; [lia|]. cbn [scc_putc].
  destruct (law_status w) as (v & w1 & -> & Hc & Hr & Hp). cbn [mbind result_bind].
  destruct (Z.eqb_spec (v .& 4) 0) as [E|E].
  - destruct (IH w1 ltac:(specialize (Hp E); lia)) as (w2 & -> & Hc2 & Hr2).
    exists w2. split; [done|]. split; [by rewrite Hc2, Hc|]. intros a. by rewrite Hr2.
  - destruct (law_data (u8 c) w1) as (w2 & -> & Hc2 & Hr2).
    exists w2. split; [done|]. split; [by rewrite Hc2, Hc|]. intros a. by rewrite Hr2.
Qed.
Lemma scc_puts_ok fuel l w : (patience < fuel)%nat ->
  exists w', scc_puts fuel l w = Ok w' /\ console w' = console w ++ map u8 l /\ same_ram w w'.
Proof.
  intros Hf. revert w; induction l as [|c l IH]; intros w; cbn [scc_puts map].
  - exists w. rewrite app_nil_r. by repeat split.
  - pose proof (pending_bound w). destruct (scc_putc_ok fuel c w ltac:(lia)) as (w1 & -> & Hc1 & Hr1). cbn [mbind result_bind].
    destruct (IH w1) as (w2 & -> & Hc2 & Hr2). exists w2. split; [done|].
    split; [rewrite Hc2, Hc1; by rewrite <- app_assoc|]. intros a. by rewrite Hr2.
Qed.

(** ** Copies *)
(** [w'] is [w] with [n] bytes copied from [s] to [d], and nothing else of memory changed. *)
Definition copied (s d n : Z) (w w' : W) : Prop :=
  console w' = console w /\ forall c, ram w' c = if inside d n c then ram w (s + (c - d)) else ram w c.
Definition apart (s d n : Z) : Prop := s + n <= d \/ d + n <= s.
Lemma copied_step s d n k w w1 w2 : apart s d (n + k) -> 0 <= n -> 0 <= k -> copied s d n w w1 -> copied (s + n) (d + n) k w1 w2 ->
  copied s d (n + k) w w2.
Proof.
  intros Ha Hn Hk [C1 R1] [C2 R2]. split; [by rewrite C2|]. intros c. rewrite R2, !R1.
  destruct (insideP (d + n) k c), (insideP d n c), (insideP d (n + k) c); try lia; try done.
  - destruct (insideP d n (s + n + (c - (d + n)))); [unfold apart in Ha; lia|]. f_equal; lia.
Qed.
Lemma copy_byte s d w : kernel_va s -> kernel_va d -> readable (phys s) = true -> writable (phys d) = true ->
  exists w', (let! (x, w) := load8 s w in store8 d x w) = Ok w' /\ copied (phys s) (phys d) 1 w w'.
Proof.
  intros Hs Hd Hr Hw. rewrite law_load8 by done. cbn [mbind result_bind].
  destruct (law_store8 d (ram w (phys s)) w Hd Hw) as (w' & -> & Hc & Hm). exists w'. split; [done|]. split; [done|].
  intros c. rewrite Hm. destruct (insideP (phys d) 1 c); [|done]. rewrite wrapu_id by apply ram_byte. f_equal. lia.
Qed.
Lemma copy_word s d w : kernel_va s -> kernel_va d -> s mod 4 = 0 -> d mod 4 = 0 ->
  (forall k, 0 <= k < 4 -> readable (phys s + k) = true) -> (forall k, 0 <= k < 4 -> writable (phys d + k) = true) ->
  exists w', (let! (x, w) := load32 s w in store32 d x w) = Ok w' /\ copied (phys s) (phys d) 4 w w'.
Proof.
  intros Hs Hd As Ad Hr Hw. rewrite law_load32 by done. cbn [mbind result_bind].
  set (l := map (fun k => ram w (phys s + k)) [0; 1; 2; 3]).
  destruct (law_store32 d (le_join (rev l)) w Hd Ad Hw) as (w' & -> & Hc & Hm). exists w'. split; [done|]. split; [done|].
  intros c. rewrite Hm. destruct (insideP (phys d) 4 c); [|done].
  assert (rev (le_split 4 (le_join (rev l))) = l) as ->.
  { assert (Forall (in_u 8) (rev l)) as Hb by (apply Forall_rev, Forall_map, Forall_true; intros; apply ram_byte).
    pose proof (le_split_join (rev l) Hb) as E. change (length (rev l)) with 4%nat in E. by rewrite E, rev_involutive. }
  assert (exists k, c = phys d + k /\ 0 <= k < 4) as (k & -> & Hk) by (exists (c - phys d); lia).
  replace (phys d + k - phys d) with k by lia.
  assert (k = 0 \/ k = 1 \/ k = 2 \/ k = 3) as [->|[->|[->| ->]]] by lia; done.
Qed.

(** ** The loops *)
Definition readable_run (p n : Z) : Prop := forall k, 0 <= k < n -> readable (W:=W) (p + k) = true.
Definition writable_run (p n : Z) : Prop := forall k, 0 <= k < n -> writable (W:=W) (p + k) = true.
Lemma run_next a n i k : run_ok a n -> 0 <= i -> 0 < k -> i + k <= n -> u32 (a + i + k) = a + (i + k).
Proof.
  intros Ha Hi Hk Hn. pose proof (run_step a n (i + k - 1) Ha ltac:(lia)) as (_ & _ & E).
  destruct Ha as [[Ha Hb] Hp]. rewrite phys_mod in Hp. change (2 ^ 29) with 536870912 in Hp. change 0x20000000 with 536870912 in Hp.
  replace (a + i + k) with (a + (i + k)) by lia. apply wrapu_id. unfold in_u. change (2 ^ 32) with 4294967296.
  Z.div_mod_to_equations. lia.
Qed.
Lemma copied_none s d w : copied s d 0 w w.
Proof. split; [done|]. intros c. by destruct (insideP d 0 c); [lia|]. Qed.
Lemma relocate_ok sy N k : forall fuel i S D w,
  (k < fuel)%nat -> 0 <= i -> i mod 4 = 0 -> i + 4 * Z.of_nat k = N -> spb_size sy <= N -> (k = O \/ N - 4 < spb_size sy) ->
  S mod 4 = 0 -> D mod 4 = 0 -> run_ok S N -> run_ok D N ->
  readable_run (phys S) N -> writable_run (phys D) N -> apart (phys S) (phys D) N ->
  exists w', relocate_loop sy fuel i (S + i) (D + i) w = Ok w' /\ copied (phys S + i) (phys D + i) (4 * Z.of_nat k) w w'.
Proof.
  induction k as [|k IH]; intros fuel i S D w Hf Hi Hi4 HN Hsz Hk AS AD RS RD Hr Hw Hap; (destruct fuel as [|fuel]; [lia|]);
    cbn [relocate_loop].
  - rewrite (proj2 (Z.ltb_ge i (spb_size sy))) by lia. exists w. split; [done|]. apply copied_none.
  - destruct Hk as [?|Hk]; [done|]. rewrite (proj2 (Z.ltb_lt i (spb_size sy))) by lia.
    pose proof (run_step S N i RS ltac:(lia)) as (KS & PS & ES). pose proof (run_step D N i RD ltac:(lia)) as (KD & PD & ED).
    rewrite ES in KS, PS. rewrite ED in KD, PD.
    destruct (copy_word (S + i) (D + i) w KS KD) as (w1 & H1 & C1).
    1,2: rewrite Z.add_mod, ?AS, ?AD, Hi4 by done; done.
    1,2: rewrite ?PS, ?PD; intros q Hq; rewrite <- Z.add_assoc; (apply Hr || apply Hw); lia.
    destruct (load32 (S + i) w) as [[x w']|] eqn:E; [|done]. cbn [mbind result_bind] in H1 |- *. rewrite H1. cbn [mbind result_bind].
    assert (u32 (i + 4) = i + 4) as ->.
    { apply wrapu_id. destruct RS as [_ RS]. pose proof (Z.mod_pos_bound S (2 ^ 29)). rewrite phys_mod in RS. unfold in_u.
      change (2 ^ 32) with 4294967296. lia. }
    rewrite (run_next S N i 4 RS), (run_next D N i 4 RD) by lia.
    destruct (IH fuel (i + 4) S D w1) as (w2 & H2 & C2); try done; try lia.
    { by rewrite Z.add_mod, Hi4. }
    exists w2. split; [exact H2|]. rewrite PS, PD in C1.
    replace (4 * Z.of_nat (Datatypes.S k)) with (4 + 4 * Z.of_nat k) by lia. eapply copied_step; [|lia..|exact C1|].
    + unfold apart in *. lia.
    + by replace (phys S + i + 4) with (phys S + (i + 4)) by lia; replace (phys D + i + 4) with (phys D + (i + 4)) by lia.
Qed.
Lemma stage_ok sy N k : forall fuel i S D w,
  (k < fuel)%nat -> 0 <= i -> i + Z.of_nat k = N -> S + N = arcs_argv_blob_end sy ->
  run_ok S N -> run_ok D N -> readable_run (phys S) N -> writable_run (phys D) N -> apart (phys S) (phys D) N ->
  exists w', stage_loop sy fuel (S + i) (D + i) w = Ok w' /\ copied (phys S + i) (phys D + i) (Z.of_nat k) w w'.
Proof.
  induction k as [|k IH]; intros fuel i S D w Hf Hi HN Hend RS RD Hr Hw Hap; (destruct fuel as [|fuel]; [lia|]);
    cbn [stage_loop].
  - rewrite (proj2 (Z.ltb_ge (S + i) _)) by lia. exists w. split; [done|]. apply copied_none.
  - rewrite (proj2 (Z.ltb_lt (S + i) _)) by lia.
    pose proof (run_step S N i RS ltac:(lia)) as (KS & PS & ES). pose proof (run_step D N i RD ltac:(lia)) as (KD & PD & ED).
    rewrite ES in KS, PS. rewrite ED in KD, PD.
    destruct (copy_byte (S + i) (D + i) w KS KD) as (w1 & H1 & C1); [rewrite PS; apply Hr; lia|rewrite PD; apply Hw; lia|].
    destruct (load8 (S + i) w) as [[x w']|] eqn:E; [|done]. cbn [mbind result_bind] in H1 |- *. rewrite H1. cbn [mbind result_bind].
    rewrite (run_next S N i 1 RS), (run_next D N i 1 RD) by lia.
    destruct (IH fuel (i + 1) S D w1) as (w2 & H2 & C2); try done; try lia.
    exists w2. split; [exact H2|]. rewrite PS, PD in C1.
    replace (Z.of_nat (Datatypes.S k)) with (1 + Z.of_nat k) by lia. eapply copied_step; [|lia..|exact C1|].
    + unfold apart in *. lia.
    + by replace (phys S + i + 1) with (phys S + (i + 1)) by lia; replace (phys D + i + 1) with (phys D + (i + 1)) by lia.
Qed.

(** ** The devices *)
(** A sequence of quiet steps. *)
Definition quietly (f : W -> result W) : Prop := forall w, exists w', f w = Ok w' /\ quiet w w'.
Lemma quietly_bind f g : quietly f -> quietly g -> quietly (fun w => let! w := f w in g w).
Proof.
  intros Hf Hg w. destruct (Hf w) as (w1 & -> & Q1). destruct (Hg w1) as (w2 & E & Q2).
  exists w2. split; [exact E|]. by eapply quiet_trans.
Qed.
Lemma quietly_rex32 off x : 0 <= off < 0x2000 -> quietly (rex_w32 off x).
Proof. intros Ho w. destruct (law_rex32 off x w Ho) as (w' & E & C & R). exists w'. by repeat split. Qed.
Lemma quietly_dcb x : quietly (rex_dcbdata16 x).
Proof.
  intros w. unfold rex_dcbdata16. rewrite <- Z.add_assoc.
  destruct (law_rex16 (REX_DCBDATA0 + 2) (u16 (((u16 x << 8) .| (u16 x >> 8)) .& 0xffff)) w) as (w' & E & C & R); [done|].
  exists w'. by repeat split.
Qed.
Lemma quietly_vc2_set i v : quietly (vc2_set i v).
Proof. apply quietly_bind; by apply quietly_rex32. Qed.
Lemma quietly_stream l : quietly (dcb_stream l).
Proof.
  induction l as [|x l IH]; cbn [dcb_stream]; [intros w; exists w; split; [done|apply quiet_refl]|].
  exact (quietly_bind _ _ (quietly_dcb x) IH).
Qed.
Lemma quietly_vc2_ram a l : quietly (vc2_ram a l).
Proof. apply quietly_bind; [apply quietly_vc2_set|]. apply quietly_bind; [by apply quietly_rex32|apply quietly_stream]. Qed.
Lemma quietly_xmap c d : quietly (xmap_write c d).
Proof. apply quietly_bind; by apply quietly_rex32. Qed.
Lemma quietly_modes n i : quietly (xmap_modes n i).
Proof.
  revert i; induction n as [|n IH]; intros i; cbn [xmap_modes]; [intros w; exists w; split; [done|apply quiet_refl]|].
  exact (quietly_bind _ _ (quietly_xmap _ _) (IH _)).
Qed.
Lemma quietly_program : quietly newport_program.
Proof.
  unfold newport_program.
  do 4 (apply quietly_bind; [apply quietly_vc2_ram|]). do 6 (apply quietly_bind; [apply quietly_vc2_set|]).
  apply quietly_bind; [apply quietly_xmap|]. apply quietly_bind; [apply quietly_modes|].
  apply quietly_bind; by apply quietly_rex32.
Qed.
Lemma newport_init_ok fuel w : (patience < fuel)%nat ->
  exists w' present, newport_init fuel w = Ok w' /\ same_ram w w' /\
    console w' = console w ++ if (present : bool) then map u8 newport_msg else [].
Proof.
  intros Hf. unfold newport_init, newport_present, rex_r32.
  destruct (law_rexrd REX_DRAWMODE1 w) as (v & w1 & -> & C1 & R1); [done|]. cbn [mbind result_bind].
  destruct (v =/? 0).
  - destruct (scc_puts_ok fuel newport_msg w1 Hf) as (w2 & -> & C2 & R2). cbn [mbind result_bind].
    destruct (quietly_program w2) as (w3 & E3 & C3 & R3). exists w3, true. split; [exact E3|]. split.
    + intros c. by rewrite R3, R2, R1.
    + by rewrite C3, C2, C1.
  - exists w1, false. rewrite app_nil_r. by repeat split.
Qed.
Lemma quietly_mac i l : 0 <= i -> i + Z.of_nat (length l) <= 6 -> quietly (mac_loop (MAC_BASE + 4 * i) l).
Proof.
  revert i; induction l as [|b l IH]; intros i Hi Hl; cbn [mac_loop]; [intros w; exists w; split; [done|apply quiet_refl]|].
  cbn [length] in Hl. apply quietly_bind.
  - intros w. destruct (law_mac i b w ltac:(lia)) as (w' & E & C & R). exists w'. by repeat split.
  - replace (MAC_BASE + 4 * i + 4) with (MAC_BASE + 4 * (i + 1)) by lia. apply IH; lia.
Qed.
End laws.

(** ** The hand-off *)
Definition separate (p n q k : Z) : Prop := p + n <= q \/ q + k <= p.
(** The layout the linker script gives: the copies stay in one segment, their
    sources are readable, their destinations writable, and no copy overwrites what
    a later step reads. *)
Record layout_ok {W} `{PlatformLaws W} (sy : symbols) (n4 len : Z) : Prop := {
  lo_size : 0 <= spb_size sy; lo_n4 : n4 = 4 * ((spb_size sy + 3) / 4); lo_align : spb_lma sy mod 4 = 0;
  lo_spb : run_ok (spb_lma sy) n4 /\ run_ok SPB_VMA n4;
  lo_spb_mem : readable_run (W:=W) (phys (spb_lma sy)) n4 /\ writable_run (W:=W) (phys SPB_VMA) n4;
  lo_spb_apart : apart (phys (spb_lma sy)) (phys SPB_VMA) n4;
  lo_len : 0 <= len; lo_end : arcs_argv_blob sy + len = arcs_argv_blob_end sy;
  lo_argv : arcs_argv_blob sy <= arcs_argv_arr sy < 2 ^ 32 /\ arcs_argv_arr sy - arcs_argv_blob sy < 0x1000;
  lo_envp : arcs_argv_blob sy <= arcs_envp_arr sy < 2 ^ 32 /\ arcs_envp_arr sy - arcs_argv_blob sy < 0x1000;
  lo_blob : run_ok (arcs_argv_blob sy) len /\ run_ok ARCS_BB len;
  lo_blob_mem : readable_run (W:=W) (phys (arcs_argv_blob sy)) len /\ writable_run (W:=W) (phys ARCS_BB) len;
  lo_blob_apart : apart (phys (arcs_argv_blob sy)) (phys ARCS_BB) len;
  lo_cross : separate (phys SPB_VMA) n4 (phys (arcs_argv_blob sy)) len /\ separate (phys SPB_VMA) n4 (phys ARCS_BB) len;
  lo_entry : readable_run (W:=W) (phys KENTRY_SLOT) 4 /\
    separate (phys SPB_VMA) n4 (phys KENTRY_SLOT) 4 /\ separate (phys ARCS_BB) len (phys KENTRY_SLOT) 4;
}.
(** The big-endian word in memory. *)
Definition ram_word {W} `{PlatformLaws W} (w : W) (p : Z) : Z := le_join (rev (map (fun k => ram w (p + k)) [0; 1; 2; 3])).
Lemma bytes_u8 s : map u8 (bytes_of s) = bytes_of s.
Proof.
  unfold bytes_of. rewrite map_map. apply map_ext. intros a. apply wrapu_id. unfold in_u.
  pose proof (nat_ascii_bounded a). change (2 ^ 8) with 256. lia.
Qed.
Lemma msg_u8 s : map u8 (bytes_of s ++ [10]) = bytes_of s ++ [10].
Proof. by rewrite map_app, bytes_u8. Qed.

(** C39. The first-stage loader hands off to the kernel.  On any platform that keeps
    the laws and under the linker's layout, [fsbl_main] terminates; the console has
    received the heartbeat (and the Newport line if the board answers); memory holds
    the ARCS block at its address, rounded up to words, and the argument blob at its
    runtime base, and is otherwise unchanged; and the kernel is called with 8
    arguments, the relocated argv and envp, and the entry point of the slot. *)
Theorem fsbl_hands_off {W} `{PlatformLaws W} (sy : symbols) (newport : bool) (fuel : nat) (w : W) (n4 len : Z)
  (Hl : layout_ok (W:=W) sy n4 len) (Hfuel : (patience < fuel)%nat) (Hn : n4 / 4 < Z.of_nat fuel) (Hlen : len < Z.of_nat fuel) :
  exists w' present, fsbl_main sy newport fuel w =
      Ok (mk_handoff 8 (ARCS_BB + (arcs_argv_arr sy - arcs_argv_blob sy)) (ARCS_BB + (arcs_envp_arr sy - arcs_argv_blob sy))
            (ram_word w (phys KENTRY_SLOT)), w') /\
    (newport = false -> present = false) /\
    console w' = console w ++ alive_msg ++ (if (present : bool) then newport_msg else []) /\
    forall c, ram w' c = if inside (phys ARCS_BB) len c then ram w (phys (arcs_argv_blob sy) + (c - phys ARCS_BB))
                         else if inside (phys SPB_VMA) n4 c then ram w (phys (spb_lma sy) + (c - phys SPB_VMA))
                         else ram w c.
Proof.
  destruct Hl as [Lsz Ln4 Lal [Ls1 Ls2] [Lm1 Lm2] Lap Llen Lend [La1 La2] [Le1 Le2] [Lb1 Lb2] [Lbm1 Lbm2] Lbap [Lc1 Lc2] (Lk & Lk1 & Lk2)].
  unfold fsbl_main, fsbl_relocate_spb, fsbl_write_mac.
  destruct (scc_puts_ok fuel alive_msg w Hfuel) as (w1 & -> & C1 & R1). cbn [mbind result_bind].
  unfold alive_msg in C1. rewrite msg_u8 in C1. fold alive_msg in C1.
  assert (0 <= n4) as Hn4 by (rewrite Ln4; pose proof (Z.div_pos (spb_size sy + 3) 4); lia).
  destruct (relocate_ok sy n4 (Z.to_nat (n4 / 4)) fuel 0 (spb_lma sy) SPB_VMA w1) as (w2 & E2 & C2 & R2); try done; try lia.
  1-3: rewrite ?Ln4 in *; Z.div_mod_to_equations; lia.
  rewrite !Z.add_0_r in E2, R2. rewrite E2. cbn [mbind result_bind].
  assert (4 * Z.of_nat (Z.to_nat (n4 / 4)) = n4) as En by (rewrite Ln4; Z.div_mod_to_equations; lia). rewrite En in R2.
  destruct (quietly_mac 0 mac ltac:(lia) ltac:(done) w2) as (w3 & E3 & C3 & R3).
  change (MAC_BASE + 4 * 0) with MAC_BASE in E3. rewrite E3. cbn [mbind result_bind].
  assert (exists w4 present, (if newport then newport_init fuel w3 else Ok w3) = Ok w4 /\ same_ram w3 w4 /\
            (newport = false -> present = false) /\ console w4 = console w3 ++ if (present : bool) then newport_msg else []) as (w4 & present & -> & R4 & Hp & C4).
  { destruct newport.
    - destruct (newport_init_ok fuel w3 Hfuel) as (w4 & p & E & R & C). unfold newport_msg in C. rewrite msg_u8 in C.
      fold newport_msg in C. by exists w4, p.
    - exists w3, false. rewrite app_nil_r. by repeat split. }
  cbn [mbind result_bind].
  destruct (stage_ok sy len (Z.to_nat len) fuel 0 (arcs_argv_blob sy) ARCS_BB w4) as (w5 & E5 & C5 & R5); try done; try lia.
  rewrite !Z.add_0_r in E5, R5. rewrite E5. cbn [mbind result_bind]. rewrite Z2Nat.id in R5 by done.
  rewrite law_load32 by (done || apply Lk). cbn [mbind result_bind].
  assert (forall c, ram w4 c = if inside (phys SPB_VMA) n4 c then ram w (phys (spb_lma sy) + (c - phys SPB_VMA)) else ram w c) as R14.
  { intros c. rewrite R4, R3, R2, !R1. done. }
  assert (forall c, ram w5 c = if inside (phys ARCS_BB) len c then ram w (phys (arcs_argv_blob sy) + (c - phys ARCS_BB))
                         else if inside (phys SPB_VMA) n4 c then ram w (phys (spb_lma sy) + (c - phys SPB_VMA)) else ram w c) as R15.
  { intros c. rewrite R5, !R14. destruct (insideP (phys ARCS_BB) len c); [|done].
    destruct (insideP (phys SPB_VMA) n4 (phys (arcs_argv_blob sy) + (c - phys ARCS_BB))); [unfold separate in *; lia|done]. }
  exists w5, present. split; [|split; [done|split; [by rewrite C5, C4, C3, C2, C1, <- app_assoc|done]]].
  assert (ram_word w5 (phys KENTRY_SLOT) = ram_word w (phys KENTRY_SLOT)) as <-.
  { unfold ram_word. do 2 f_equal. apply map_ext_in. intros k Hk. rewrite R15.
    assert (0 <= k < 4) by (cbn in Hk; lia).
    destruct (insideP (phys ARCS_BB) len (phys KENTRY_SLOT + k)); [unfold separate in *; lia|].
    destruct (insideP (phys SPB_VMA) n4 (phys KENTRY_SLOT + k)); [unfold separate in *; lia|done]. }
  assert (forall x, arcs_argv_blob sy <= x < 2 ^ 32 -> x - arcs_argv_blob sy < 0x1000 ->
            u32 (ARCS_BB + u32 (x - arcs_argv_blob sy)) = ARCS_BB + (x - arcs_argv_blob sy)) as Hu.
  { intros x Hx Hd. destruct Lb1 as [[Hlo _] _]. rewrite !wrapu_id by (unfold in_u, ARCS_BB; rewrite ?wrapu_id by (unfold in_u; lia); lia). done. }
  rewrite !Hu by done. reflexivity.
Qed.

(** ** A platform that keeps the laws *)
(** Memory below 0x1f000000, a read-only PROM above 0x1fc00000, a serial chip that
    is busy for one poll after each byte, and a Newport board that answers. *)
Record board := mk_board { bd_mem : Zmap Z; bd_console : list Z; bd_busy : bool }.
Definition bd_ram (w : board) (c : Z) : Z := u8 (bd_mem w).[c].
Definition in_dram (p : Z) : bool := p <? 0x1f000000.
Definition in_memory (p : Z) : bool := in_dram p || (0x1fc00000 <=? p).
Definition in_rex (a : Z) : bool := inside REX_BASE 0x2000 a.
Fixpoint poke (p : Z) (l : list Z) (m : Zmap Z) : Zmap Z :=
  match l with [] => m | x :: l => poke (p + 1) l (wr p x m) end.
#[export] Instance board_platform : Platform board := {|
  load8 a w := if a =? SCC_STAT then Ok (if bd_busy w then 0 else 4, mk_board (bd_mem w) (bd_console w) false)
               else Ok (bd_ram w (phys a), w);
  load32 a w := if in_rex a then Ok (1, w)
                else Ok (le_join (rev (map (fun k => bd_ram w (phys a + k)) [0; 1; 2; 3])), w);
  store8 a x w := if a =? SCC_DATA then Ok (mk_board (bd_mem w) (bd_console w ++ [x]) true)
                  else Ok (mk_board (if in_dram (phys a) then wr (phys a) (u8 x) (bd_mem w) else bd_mem w) (bd_console w) (bd_busy w));
  store16 a x w := Ok w;
  store32 a x w := Ok (mk_board (if in_dram (phys a) then poke (phys a) (rev (le_split 4 x)) (bd_mem w) else bd_mem w)
                         (bd_console w) (bd_busy w));
  mfc0_7 w := Ok (0, w);
  mtc0_7 x w := Ok (mk_board (bd_mem w) (bd_console w ++ [x]) (bd_busy w));
|}.
Lemma kernel_phys a : kernel_va a -> a = SCC_STAT \/ a = SCC_DATA \/ in_rex a = true -> in_memory (phys a) = false.
Proof.
  intros Ha [->|[->|Hr]]; [done..|]. unfold in_rex in Hr. destruct (insideP REX_BASE 0x2000 a) as [Hi|]; [|done].
  unfold in_memory, in_dram. rewrite phys_mod. unfold REX_BASE in Hi. change (2 ^ 29) with 536870912.
  assert (a mod 536870912 = a - 5 * 536870912) as -> by (Z.div_mod_to_equations; lia).
  destruct (Z.ltb_spec (a - 5 * 536870912) 0x1f000000), (Z.leb_spec 0x1fc00000 (a - 5 * 536870912)); done || lia.
Qed.
Lemma poke4 p x m c : bd_ram (mk_board (poke p (rev (le_split 4 x)) m) [] false) c =
  if inside p 4 c then nth (Z.to_nat (c - p)) (rev (le_split 4 x)) 0 else u8 m.[c].
Proof.
  pose proof (le_split_bytes 4 x) as Hb. apply Forall_rev in Hb. revert Hb. change (le_split 4 x) with
    [u8 x; u8 (x >> 8); u8 ((x >> 8) >> 8); u8 (((x >> 8) >> 8) >> 8)]. cbn [rev app poke].
  intros Hb. rewrite !Forall_cons in Hb. destruct Hb as (B0 & B1 & B2 & B3 & _).
  unfold bd_ram. cbn [bd_mem]. rewrite !rd_wr. destruct (insideP p 4 c).
  - assert (c - p = 0 \/ c - p = 1 \/ c - p = 2 \/ c - p = 3) as [E|[E|[E|E]]] by lia; rewrite E;
      repeat match goal with |- context [?a =? ?b] => destruct (Z.eqb_spec a b); try lia end;
      (rewrite (wrapu_id 8) by (by apply wrapu_range)); reflexivity.
  - repeat match goal with |- context [?a =? ?b] => destruct (Z.eqb_spec a b); try lia end.
Qed.
#[export] Program Instance board_laws : PlatformLaws board := {|
  ram := bd_ram; console := bd_console; pending w := if bd_busy w then 1%nat else 0%nat; patience := 1%nat;
  readable := in_memory; writable := in_dram;
|}.
Next Obligation. intros. unfold bd_ram. by apply wrapu_range. Qed.
Next Obligation. intros w. cbn. destruct (bd_busy w); lia. Qed.
Next Obligation.
  intros a w Ha Hr. cbn. destruct (Z.eqb_spec a SCC_STAT) as [E|]; [|done].
  rewrite kernel_phys in Hr; [done|done|by left].
Qed.
Next Obligation.
  intros a w Ha _ Hr. cbn [load32 board_platform]. destruct (in_rex a) eqn:E; [|done].
  specialize (Hr 0 ltac:(lia)). rewrite Z.add_0_r, kernel_phys in Hr; [done|done|auto].
Qed.
Next Obligation.
  intros a x w Ha Hw. cbn. destruct (Z.eqb_spec a SCC_DATA) as [->|]; [done|].
  rewrite Hw. eexists. split; [done|]. split; [done|]. intros c. unfold bd_ram. cbn. rewrite rd_wr.
  destruct (insideP (phys a) 1 c), (Z.eqb_spec (phys a) c); try lia. apply wrapu_id. by apply wrapu_range.
Qed.
Next Obligation.
  intros a x w Ha _ Hw. cbn [store32 board_platform]. specialize (Hw 0 ltac:(lia)). rewrite Z.add_0_r in Hw. rewrite Hw.
  eexists. split; [done|]. split; [done|]. intros c. apply (poke4 (phys a) x (bd_mem w) c).
Qed.
Next Obligation. intros w. do 2 eexists. split; [done|]. split; [done|]. split; [done|]. cbn. destruct (bd_busy w); [lia|done]. Qed.
Next Obligation. intros c w. eexists. by split. Qed.
Next Obligation.
  intros i x w Hi. cbn [store32 board_platform]. assert (in_dram (phys (MAC_BASE + 4 * i)) = false) as ->.
  { assert (i = 0 \/ i = 1 \/ i = 2 \/ i = 3 \/ i = 4 \/ i = 5) as [->|[->|[->|[->|[->| ->]]]]] by lia; done. }
  eexists. by split.
Qed.
Next Obligation.
  intros off x w Ho. cbn [store32 board_platform]. assert (in_dram (phys (REX_BASE + off)) = false) as ->; [|eexists; by split].
  assert (in_memory (phys (REX_BASE + off)) = false) as Hm.
  { apply kernel_phys; [unfold kernel_va, REX_BASE; lia|]. right. right. unfold in_rex. by destruct (insideP REX_BASE 0x2000 (REX_BASE + off)); [|lia]. }
  unfold in_memory in Hm. by apply orb_false_iff in Hm as [-> _].
Qed.
Next Obligation. intros. eexists. by split. Qed.
Next Obligation.
  intros off w Ho. cbn [load32 board_platform]. assert (in_rex (REX_BASE + off) = true) as ->; [|do 2 eexists; by split].
  unfold in_rex. by destruct (insideP REX_BASE 0x2000 (REX_BASE + off)); [|lia].
Qed.

Definition sample_symbols : symbols :=
  mk_symbols 0xbfc02000 10 0xbfc03000 0xbfc03006 0xbfc03000 0xbfc03004 0 0 0 0.
Definition sample_board : board := mk_board (poke 0x1fc00008 [0x88; 0; 0x20; 0] (poke 0x1fc03000 [1; 2; 3; 4; 5; 6] (poke 0x1fc02000 [0xaa; 0xbb] ∅))) [] false.
Lemma fsbl_hands_off_witness :
  exists w', fsbl_main sample_symbols true 60 sample_board = Ok (mk_handoff 8 0x88fff000 0x88fff004 0x88002000, w') /\
    ram w' 0x1001 = 0xbb /\ ram w' 0x08fff005 = 6.
Proof.
  destruct (fsbl_hands_off sample_symbols true 60 sample_board 12 6) as (w' & p & E & _ & _ & R).
  - assert (forall a n, in_memory a = true -> 0x1fc00000 <= a -> readable_run (W:=board) a n) as Hrd.
    { intros a n _ Ha k Hk. cbn. unfold in_memory. rewrite (proj2 (Z.leb_le _ _)) by lia. apply orb_true_r. }
    assert (forall a n, a + n <= 0x1f000000 -> writable_run (W:=board) a n) as Hwr.
    { intros a n Ha k Hk. cbn. apply Z.ltb_lt. lia. }
    split.
    + done.
    + done.
    + done.
    + split; (split; [split; vm_compute; congruence|vm_compute; congruence]).
    + split; [by apply Hrd|by apply Hwr].
    + by right.
    + done.
    + done.
    + done.
    + done.
    + split; (split; [split; vm_compute; congruence|vm_compute; congruence]).
    + split; [by apply Hrd|by apply Hwr].
    + by right.
    + split; by left.
    + split; [by apply Hrd|]. split; by left.
  - cbn; lia.
  - done.
  - done.
  - exists w'. split; [rewrite E; vm_compute; reflexivity|]. rewrite !R. vm_compute. by split.
Defined.

(** The test bench's own devices: the serial chip keeps the console laws, the halt
    register is the one the memory port watches, and the HPC refuses the address
    of the station MAC. *)
Theorem firmware_meets_devices (c : Z) (h : sgi_hpc) :
  scc_read (phys SCC_STAT - SCC_BASE) .& 4 = 4 /\ scc_write (phys SCC_DATA - SCC_BASE) c = [c] /\
  phys HALT_REG = MAGIC_HALT_PHYS /\ hpc_write (phys MAC_BASE .& 0x7ffff) 8 h = Stop HostExit.
Proof. by repeat split. Qed.
