(* ===== verification/Setup.v ===== *)
(** Bringing the test bench up ([main] of [src/top.cc]): the machine under test
    and the checker's interpreter are reset, both get the same images, and the
    devices are created.  The core's side is Verilog; what [main] reads off the
    machine for it is the address it resumes at.  A file that cannot be opened
    is [None]. *)
From S2P Require Import Prelude Bits Insns State Mem Exc Tlb Exec Devices Bus Loader Cosim.

(** The command line: the ELF file, and the firmware and PROM images. *)
Record options := mk_options {
  sgi_indy : bool; opt_checker : bool; os_mode : bool; opt_noutlb : bool;
  mips_binary : option (option file); arcs_image : option (option file); prom : option file;
}.
(** The machines after the set-up: [s], [ss], the devices and [enable_checker]. *)
Record bench_t := mk_bench { b_s : state; b_ss : state; b_devices : option devices; enable_checker : bool }.

Section setup.
Context `{Config}.
Variable pgSize : Z.

(** [memcpy(mem + base, buf, size)] of a whole mapped file. *)
Definition copy_image (base : Z) (fl : file) (m : sparse_mem) : result sparse_mem :=
  if mem_sz <? base + f_size fl then Stop HostUB else
  Ok (mk_sparse_mem
        (foldl (fun b i => wr (base + i) (f_data fl).[i] b) (mem_bytes m) (map Z.of_nat (seq 0 (Z.to_nat (f_size fl)))))
        (route_devices m)).
Definition copy_both (base : Z) (fl : file) (s ss : state) : result (state * state) :=
  let! m := copy_image base fl (mem s) in
  let! m' := copy_image base fl (mem ss) in
  Ok (set_mem m s, set_mem m' ss).
(** [new sgi_mc(s)], [new sgi_hpc(s)], [new sgi_scc(s)]. *)
Definition new_devices : devices := mk_devices sgi_mc_init sgi_hpc_init.
Definition ARCS_BASE : Z := 0x1000.
Definition PROM_PC : Z := 0xbfc00000.
Definition load_images (o : options) (s ss : state) : result bench_t :=
  if negb (sgi_indy o) then
    match mips_binary o with
    | None => Stop HostExit                                       (* no elf binary *)
    | Some elf =>
        let! s := load_elf pgSize elf s in
        let! ss := load_elf pgSize elf ss in
        match arcs_image o with
        | None => Ok (mk_bench s ss None (opt_checker o))
        | Some None => Stop HostExit
        | Some (Some fl) =>
            let! (s, ss) := copy_both ARCS_BASE fl s ss in
            Ok (mk_bench s ss (Some new_devices) (opt_checker o))
        end
    end
  else
    match prom o with
    | None => Stop HostExit
    | Some fl =>
        let! (s, ss) := copy_both (PROM_PC .& 0x1fffffff) fl s ss in
        Ok (mk_bench (set_pc PROM_PC s) ss (Some new_devices) false)
    end.
(** The interpreter's flags: it does not print, and its TLB is the core's. *)
Definition setup (o : options) : result bench_t :=
  let fresh := initState (state_init (mk_sparse_mem ∅ false) (opt_noutlb o)) in
  let! b := load_images o fresh (set_silent true fresh) in
  Ok (mk_bench (b_s b) (set_g_iss_os_mode (os_mode o) (set_g_iss_tlb_ext (enable_checker b) (b_ss b)))
        (b_devices b) (enable_checker b)).
(** [resume_pc], and the checker's bookkeeping when the loop starts. *)
Definition resume_pc (b : bench_t) : Z := u64 (s32 (u32 (pc (b_s b)))).
Definition first_checker (b : bench_t) : checker := mk_checker (b_ss b) (gpr (b_s b)) [] 0 0 0 false 0.
End setup.
