(* ===== verification/SetupProps.v ===== *)
(** The test bench starts in step: the interpreter of the checker is the machine
    the images were loaded into, typed and coherent, so that the invariant of a
    co-simulation holds from the first cycle on. *)
From S2P Require Import Prelude Bits Insns State Mem Wf Exc Tlb Exec Fp Arch Utlb ExecProps Devices Bus Cosim CosimProps Loader LoaderProps Setup.

(** ** Copying an image *)
Lemma copied_cell base (d : Zmap Z) n b c :
  (foldl (fun b i => wr (base + i) d.[i] b) b (map Z.of_nat (seq 0 n))).[c]
  = if inside base (Z.of_nat n) c then d.[c - base] else b.[c].
Proof.
  induction n as [|n IH]; [by destruct (insideP base (Z.of_nat 0) c); [lia|]|].
  rewrite seq_S, map_app, foldl_app. cbn [map foldl Nat.add]. rewrite rd_wr, IH.
  destruct (Z.eqb_spec (base + Z.of_nat n) c) as [E|Hne], (insideP base (Z.of_nat n) c), (insideP base (Z.of_nat (S n)) c); try lia; try done.
  f_equal. lia.
Qed.
Lemma copied_ok base (d : Zmap Z) n b :
  0 <= base -> base + Z.of_nat n <= mem_sz -> map_Forall (fun _ x => in_u 8 x) d ->
  map_Forall (fun a x => 0 <= a < mem_sz /\ in_u 8 x) b ->
  map_Forall (fun a x => 0 <= a < mem_sz /\ in_u 8 x) (foldl (fun b i => wr (base + i) d.[i] b) b (map Z.of_nat (seq 0 n))).
Proof.
  intros Hb. induction n as [|n IH]; intros Hn Hd Hm; [done|].
  rewrite seq_S, map_app, foldl_app. cbn [map foldl Nat.add]. unfold wr. apply map_Forall_insert_2; [|apply IH; [lia|done..]].
  split; [lia|]. unfold rd. destruct (d !! Z.of_nat n) as [x|] eqn:E; [by apply (Hd _ _ E)|by vm_compute].
Qed.
Lemma copy_image_ok base fl m :
  0 <= base -> 0 <= f_size fl -> base + f_size fl <= mem_sz -> file_ok fl -> mem_ok m ->
  exists m', copy_image base fl m = Ok m' /\ mem_ok m' /\
    forall c, (mem_bytes m').[c] = if inside base (f_size fl) c then (f_data fl).[c - base] else (mem_bytes m).[c].
Proof.
  intros Hb Hs Hfit Hf Hm. unfold copy_image. destruct (Z.ltb_spec mem_sz (base + f_size fl)); [lia|].
  eexists. split; [done|]. split; [apply copied_ok; [lia|lia|done..]|].
  intros c. cbn [mem_bytes]. rewrite copied_cell, Z2Nat.id by lia. done.
Qed.

(** ** Loading keeps the state typed, and only reads the memory *)
Section loads.
Context `{Config} (pgSize : Z).
Implicit Types (s : state) (fl : file).
Lemma post_upto {A} (P : A -> Prop) (f : Z -> A -> result A) n cc a :
  P a -> (forall i x, P x -> post P (f i x)) -> post P (for_upto n cc f a).
Proof.
  intros Ha Hf. revert cc a Ha. induction n as [|n IH]; intros cc a Ha; [done|]. cbn [for_upto].
  eapply post_bind; [by apply Hf|]. intros x Hx. by apply IH.
Qed.
Lemma va2pa_nonneg va : 0 <= va -> 0 <= va2pa va.
Proof. intros Hv. unfold va2pa. destruct (_ =? 1); [|done]. apply Z.land_nonneg. by left. Qed.
Lemma post_mem_set n a v m : mem_ok m -> 0 <= a -> post mem_ok (mem_set n a v m).
Proof. intros Hm Ha. unfold post. destruct (mem_set n a v m) eqn:E; [|done]. by eapply mem_set_ok. Qed.
Lemma load_header_ok fl phoff i m : mem_ok m -> post mem_ok (load_header pgSize fl phoff i m).
Proof.
  intros Hm. unfold load_header. destruct (read_phdr pgSize fl _) as [ph|]; [|done]. cbn [mbind result_bind].
  unfold load_segment. destruct (_ && _); [|done]. eapply post_bind.
  - apply (post_upto mem_ok); [done|]. intros cc x Hx. apply post_mem_set; [done|]. by apply wrapu_range.
  - intros m1 Hm1. apply (post_upto mem_ok); [done|]. intros cc x Hx. unfold copy_byte.
    destruct (buf_byte pgSize fl _); [|done]. cbn [mbind result_bind]. apply post_mem_set; [done|]. apply va2pa_nonneg. by apply wrapu_range.
Qed.
(** [load_elf] replaces the pc and the memory, as a function of the file and of
    the device routing alone. *)
Definition elf_image (rt : bool) (fo : option file) : result (Z * sparse_mem) :=
  let! s := load_elf pgSize fo (state_init (mk_sparse_mem ∅ rt) false) in Ok (pc s, mem s).
Lemma load_elf_eq fo s :
  load_elf pgSize fo s = let! (v, m) := elf_image (route_devices (mem s)) fo in Ok (set_mem m (set_pc v s)).
Proof.
  unfold elf_image, load_elf. destruct fo as [fl|]; [|done]. destruct (f_size fl =? 0); [done|].
  destruct (checkElf pgSize fl) as [[]|]; [cbn [mbind result_bind negb]|done..].
  destruct (check32Bit pgSize fl) as [[]|]; [cbn [mbind result_bind negb]|done..].
  destruct (checkBigEndian pgSize fl) as [[]|]; [cbn [mbind result_bind negb]|done..].
  destruct (e_machine pgSize fl) as [mc|]; [cbn [mbind result_bind]|done]. destruct (mc =/? 8); [done|].
  destruct (e_entry pgSize fl); [cbn [mbind result_bind]|done]. destruct (e_phnum pgSize fl); [cbn [mbind result_bind]|done].
  destruct (e_phoff pgSize fl); [cbn [mbind result_bind]|done].
  change (mem (set_pc ?v (set_mem ?m ?s))) with m. unfold mem_clear. cbn [mem_bytes route_devices mem state_init].
  by destruct (for_upto _ _ _ _).
Qed.
Lemma elf_image_ok rt fo : post (fun vm => in_s 64 vm.1 /\ mem_ok vm.2) (elf_image rt fo).
Proof.
  unfold elf_image, load_elf. destruct fo as [fl|]; [|done]. destruct (f_size fl =? 0); [done|].
  destruct (checkElf pgSize fl) as [[]|]; [cbn [mbind result_bind negb]|done..].
  destruct (check32Bit pgSize fl) as [[]|]; [cbn [mbind result_bind negb]|done..].
  destruct (checkBigEndian pgSize fl) as [[]|]; [cbn [mbind result_bind negb]|done..].
  destruct (e_machine pgSize fl) as [mc|]; [cbn [mbind result_bind]|done]. destruct (mc =/? 8); [done|].
  destruct (e_entry pgSize fl) as [v|]; [cbn [mbind result_bind]|done]. destruct (e_phnum pgSize fl); [cbn [mbind result_bind]|done].
  destruct (e_phoff pgSize fl); [cbn [mbind result_bind]|done].
  change (mem (set_pc ?v (set_mem ?m ?s))) with m.
  assert (post mem_ok (for_upto (Z.to_nat a) 0 (load_header pgSize fl a0) (mem_clear (mem (state_init (mk_sparse_mem ∅ rt) false))))) as Hm.
  { apply (post_upto mem_ok); [apply map_Forall_empty|]. intros i x Hx. by apply load_header_ok. }
  destruct (for_upto _ _ _ _); [|done]. split; [|done]. cbn. by apply wraps_range.
Qed.
End loads.

(** ** The set-up *)
Section bench.
Context `{Config} (pgSize : Z).
Definition reset_state (noutlb : bool) : state := initState (state_init (mk_sparse_mem ∅ false) noutlb).
(** The interpreter is the machine [s], silenced, with the flags of the run. *)
Definition interpreter (o : options) (s : state) : state :=
  set_g_iss_os_mode (os_mode o) (set_g_iss_tlb_ext (opt_checker o) (set_silent true s)).
(** The firmware image, when there is one, can be read and fits in memory. *)
Definition arcs_ok (o : options) : Prop :=
  match arcs_image o with
  | None => True
  | Some None => False
  | Some (Some fl) => file_ok fl /\ 0 <= f_size fl /\ ARCS_BASE + f_size fl <= mem_sz
  end.
Definition arcs_cell (o : options) (old c : Z) : Z :=
  match arcs_image o with
  | Some (Some fl) => if inside ARCS_BASE (f_size fl) c then (f_data fl).[c - ARCS_BASE] else old
  | _ => old
  end.
(** What the set-up makes of the machine [s] the ELF file was loaded into. *)
Definition brought_up (o : options) (s : state) (b : bench_t) : Prop :=
  exists m, b_s b = set_mem m s /\ mem_ok m /\ (forall c, (mem_bytes m).[c] = arcs_cell o (mem_bytes (mem s)).[c] c) /\
    b_ss b = interpreter o (b_s b) /\ enable_checker b = opt_checker o /\
    (arcs_image o = None <-> b_devices b = None).
Lemma reset_wf n : wf (reset_state n).
Proof. apply wf_initState, wf_state_init, map_Forall_empty. Qed.
Lemma setup_brought_up o elf s :
  sgi_indy o = false -> mips_binary o = Some elf -> load_elf pgSize elf (reset_state (opt_noutlb o)) = Ok s -> arcs_ok o ->
  exists b, setup pgSize o = Ok b /\ brought_up o s b /\ mem_ok (mem s) /\ in_s 64 (pc s) /\
    s = set_mem (mem s) (set_pc (pc s) (reset_state (opt_noutlb o))).
Proof.
  intros Hi He Hs Ha. unfold setup. fold (reset_state (opt_noutlb o)). rewrite load_elf_eq in Hs.
  change (route_devices (mem (reset_state (opt_noutlb o)))) with false in Hs.
  pose proof (elf_image_ok pgSize false elf) as Hv. unfold load_images. rewrite Hi, He. cbn [negb].
  rewrite !load_elf_eq. change (route_devices (mem (set_silent true (reset_state (opt_noutlb o))))) with false.
  change (route_devices (mem (reset_state (opt_noutlb o)))) with false.
  destruct (elf_image pgSize false elf) as [[v m]|]; [|done]. cbn [mbind result_bind] in Hs |- *. injection Hs as <-.
  destruct Hv as [Hv Hm]. cbn [fst snd] in Hv, Hm. unfold arcs_ok in Ha. unfold brought_up, arcs_cell.
  destruct (arcs_image o) as [[fl|]|]; [|done|].
  - destruct Ha as (Hf & Hs & Hfit). destruct (copy_image_ok ARCS_BASE fl m ltac:(done) Hs Hfit Hf Hm) as (m' & Hc & Hm' & Hcell).
    unfold copy_both. change (mem (set_mem ?m ?s)) with m. rewrite !Hc. cbn [mbind result_bind].
    eexists. split; [done|]. split; [|done]. exists m'. done.
  - cbn [mbind result_bind]. eexists. split; [done|]. split; [|done]. exists m. done.
Qed.
Lemma brought_up_steady o s b : brought_up o s b -> in_s 64 (pc s) -> mem_ok (mem s) ->
  s = set_mem (mem s) (set_pc (pc s) (reset_state (opt_noutlb o))) -> steady (first_checker b).
Proof.
  intros (m & Ebs & Hmok & _ & Ess & _) Hpc Hm Es. pose proof (reset_wf (opt_noutlb o)) as Hwf.
  assert (wf (b_s b)) as Hw by (rewrite Ebs, Es; apply wf_set_mem, wf_set_mem, wf_set_pc; done).
  assert (g_utlb (b_s b) = ∅) as Eu by (by rewrite Ebs, Es).
  unfold first_checker. rewrite Ess. split; [|done]. split_and!; cbn [ss s_gpr g_pend_tlb]; [destruct Hw; by constructor| |apply Hw|constructor].
  change (utlb_coh (tlb (b_s b)) (g_utlb (b_s b))). rewrite Eu. apply coh_empty.
Qed.
End bench.

(** The co-simulation starts in step.  When the ELF file loads into a freshly
    reset machine and the firmware image, if any, fits, the set-up succeeds: the
    machine has the image of the file with the firmware laid over it at 0x1000;
    the checker's interpreter is that same machine, silenced; the core resumes at
    the interpreter's pc, so its first retirement is checked; and from that first
    cycle on every sequence of events keeps the checker typed and coherent, and
    records no divergence as long as the loop goes on. *)
Theorem bench_starts_in_step `{Config, HostFP} (pgSize : Z) (o : options) (elf : option file) (s : state)
    (Hi : sgi_indy o = false) (He : mips_binary o = Some elf)
    (Hs : load_elf pgSize elf (reset_state (opt_noutlb o)) = Ok s) (Ha : arcs_ok o) :
  exists b, setup pgSize o = Ok b /\ brought_up o s b /\
    u32 (resume_pc b) = u32 (pc (ss (first_checker b))) /\
    forall fuel l, Forall event_ok l ->
      post (fun r => typed r.1 /\ (r.2 = Continue -> incorrect r.1 = false /\ 0 <= last_check r.1 <= 2))
        (run fuel l (first_checker b)).
Proof.
  destruct (setup_brought_up pgSize o elf s Hi He Hs Ha) as (b & Hb & Hup & Hm & Hpc & Es). exists b. split; [done|]. split; [done|].
  assert (steady (first_checker b)) as Hst by (by eapply brought_up_steady).
  destruct Hup as (m & Ebs & Hmok & _ & Ess & _). unfold resume_pc, first_checker in *. cbn [ss]. rewrite Ess in *. split.
  { change (pc (interpreter o (b_s b))) with (pc (b_s b)). rewrite wrapu_narrow, wrapu_wraps, wrapu_wrapu by lia. done. }
  intros fuel l Hl.
  pose proof (run_judged fuel l _ Hl Hst) as Hr. destruct (run fuel l _) as [[c' v]|]; [|done].
  destruct Hr as [Ht Hv]. split; [done|]. intros Hcont. by destruct (Hv Hcont) as (_&?&?).
Qed.
Definition sample_options : options :=
  mk_options false true false false (Some (Some sample_file)) (Some (Some (mk_file 4 (store_bytes ∅ 0 [0x53; 0x50; 0x42; 0x31])))) None.
Definition sample_loaded : state :=
  match load_elf 4096 (Some sample_file) (@reset_state r4400_config false) with Ok s => s | Stop _ => @reset_state r4400_config false end.
Lemma bench_starts_in_step_witness :
  exists b, @setup r4400_config 4096 sample_options = Ok b /\ brought_up sample_options sample_loaded b /\
    u32 (resume_pc b) = u32 (pc (ss (first_checker b))) /\ resume_pc b = 0xffffffff80001000 /\
    (mem_bytes (mem (b_ss b))).[0x1001] = 0x50.
Proof.
  destruct (@bench_starts_in_step r4400_config indefinite_host 4096 sample_options (Some sample_file) sample_loaded)
    as (b & Hb & Hup & Hr & _); [reflexivity | reflexivity | vm_compute; reflexivity | |].
  - split; [apply file_ok_check; vm_compute; reflexivity | split; discriminate].
  - exists b. split; [exact Hb|]. split; [exact Hup|]. split; [exact Hr|].
    destruct Hup as (m & Es & _ & Hc & Ess & _). split.
    + unfold resume_pc. rewrite Es. clear. vm_compute. reflexivity.
    + rewrite Ess, Es. change ((mem_bytes m).[0x1001] = 0x50). rewrite Hc. clear. vm_compute. reflexivity.
Defined.
