(* ===== verification/Printf.v ===== *)
(** The guest's formatted output ([src/hello/printf.c]): the conversions of
    integers, strings and doubles, the parser of conversion specifications, and the
    public entries with their output functions.  [printf_] feeds the putchar FIFO
    of CP0 register 7.

    A [char*] is the list of the characters that can be read from it, so reading
    past the object is [HostUB]; the argument list is the list of the arguments
    left.  A conversion buffer [char buf[32]] with its [len] is a stack: the head
    is [buf[len-1]], [buf[len++] = c] pushes and [--len] pops.  An output function
    takes the character, the index, [maxlen] and the world it writes to.  Doubles
    are evaluated without contraction. *)
From Stdlib Require Import SpecFloat Strings.Byte.
From S2P Require Import Prelude Bits Fp Doubles Firmware.

(** Character literals: ["0"%ch] is the code 48. *)
Definition ch_parse (l : list Byte.byte) : option Z :=
  match l with [b] => Some (Z.of_N (Byte.to_N b)) | _ => None end.
Definition ch_print (z : Z) : option (list Byte.byte) :=
  if (0 <? z) && (z <? 128) then option_map (fun b => [b]) (Byte.of_N (Z.to_N z)) else None.
Declare Scope ch_scope.
Delimit Scope ch_scope with ch.
String Notation Z ch_parse ch_print : ch_scope.


(** What the target decides: widths in bits, and whether plain [char] is signed. *)
Class Abi := {
  char_signed : bool;
  long_w : Z; size_w : Z; ptr_w : Z; ptrdiff_w : Z; intmax_w : Z;
  long_ok : long_w = 32 \/ long_w = 64;
  size_ok : size_w = 32 \/ size_w = 64;
  ptr_ok : ptr_w = 32 \/ ptr_w = 64;
}.
#[refine] Definition n64_abi : Abi := {|
  char_signed := true; long_w := 64; size_w := 64; ptr_w := 64; ptrdiff_w := 64; intmax_w := 64 |}.
Proof. all: by right. Defined.
#[refine] Definition o32_abi : Abi := {|
  char_signed := true; long_w := 32; size_w := 32; ptr_w := 32; ptrdiff_w := 32; intmax_w := 64 |}.
Proof. all: by left. Defined.

Definition NTOA_SIZE : Z := 32.    (* PRINTF_NTOA_BUFFER_SIZE *)
Definition FTOA_SIZE : Z := 32.    (* PRINTF_FTOA_BUFFER_SIZE *)
Definition DEFAULT_FLOAT_PRECISION : Z := 6.
Definition FLAGS_ZEROPAD : Z := 1 << 0.
Definition FLAGS_LEFT : Z := 1 << 1.
Definition FLAGS_PLUS : Z := 1 << 2.
Definition FLAGS_SPACE : Z := 1 << 3.
Definition FLAGS_HASH : Z := 1 << 4.
Definition FLAGS_UPPERCASE : Z := 1 << 5.
Definition FLAGS_CHAR : Z := 1 << 6.
Definition FLAGS_SHORT : Z := 1 << 7.
Definition FLAGS_LONG : Z := 1 << 8.
Definition FLAGS_LONG_LONG : Z := 1 << 9.
Definition FLAGS_PRECISION : Z := 1 << 10.
Definition FLAGS_ADAPT_EXP : Z := 1 << 11.
(** [flags & F] as a condition, [flags &= ~F]. *)
Definition has (flags f : Z) : bool := flags .& f =/? 0.
Definition without (flags f : Z) : Z := flags .& .~ f.

(** An argument of the variable list. *)
Inductive arg :=
  | A_int (v : Z)                       (* int, unsigned, and what promotes to them *)
  | A_long (v : Z)
  | A_llong (v : Z)
  | A_double (d : double)
  | A_ptr (addr : Z) (obj : list Z).    (* the address, and the characters readable there *)
Definition va_int (va : list arg) : result (Z * list arg) :=
  match va with A_int v :: va => Ok (v, va) | _ => Stop HostUB end.
Definition va_long (va : list arg) : result (Z * list arg) :=
  match va with A_long v :: va => Ok (v, va) | _ => Stop HostUB end.
Definition va_llong (va : list arg) : result (Z * list arg) :=
  match va with A_llong v :: va => Ok (v, va) | _ => Stop HostUB end.
Definition va_double (va : list arg) : result (double * list arg) :=
  match va with A_double d :: va => Ok (d, va) | _ => Stop HostUB end.
Definition va_ptr (va : list arg) : result (Z * list Z * list arg) :=
  match va with A_ptr a p :: va => Ok (a, p, va) | _ => Stop HostUB end.

(** [*p] of a [char*]. *)
Definition deref (p : list Z) : result Z := match p with [] => Stop HostUB | c :: _ => Ok c end.
(** A signed result of [w] bits; leaving the range is undefined. *)
Definition sint (w x : Z) : result Z :=
  if (- 2 ^ (w - 1) <=? x) && (x <? 2 ^ (w - 1)) then Ok x else Stop HostUB.

(** ** Doubles *)
Definition dlit (bits : Z) : double := sf_of_bits binary64 bits.
Definition dmul : double -> double -> double := double_mul.
Definition dsub : double -> double -> double := SFsub 53 1024.
Definition dlt : double -> double -> bool := SFltb.
Definition dle : double -> double -> bool := SFleb.
Definition dnan (x : double) : bool := negb (SFeqb x x).     (* value != value *)
(** The integer part, toward zero. *)
Definition dtrunc (x : double) : option Z :=
  match x with
  | S754_zero _ => Some 0
  | S754_finite s m e => let v := if 0 <=? e then Zpos m << e else Zpos m >> (- e) in Some (if s then - v else v)
  | _ => None
  end.
(** Conversions to [int] and to an unsigned type; a value that does not fit is undefined. *)
Definition int_of_double (x : double) : result Z :=
  match dtrunc x with Some v => sint 32 v | None => Stop HostUB end.
Definition unsigned_of_double (w : Z) (x : double) : result Z :=
  match dtrunc x with Some v => if (0 <=? v) && (v <? 2 ^ w) then Ok v else Stop HostUB | None => Stop HostUB end.
Definition DBL_MAX : double := dlit 0x7fefffffffffffff.
Definition PRINTF_MAX_FLOAT : double := double_of 1000000000.
Definition pow10 : list double :=
  map double_of [1; 10; 100; 1000; 10000; 100000; 1000000; 10000000; 100000000; 1000000000].
Definition pow10_at (i : Z) : result double :=
  match pow10 !! Z.to_nat i with Some d => Ok d | None => Stop HostUB end.

(** ** Helpers *)
(** [buf[len++] = c] into an array of 32. *)
Definition len (buf : list Z) : Z := Z.of_nat (length buf).
Definition push (c : Z) (buf : list Z) : result (list Z) :=
  if len buf <? 32 then Ok (c :: buf) else Stop HostUB.
Definition _is_digit (c : Z) : bool := ("0"%ch <=? c) && (c <=? "9"%ch).
Fixpoint atoi_loop (i : Z) (str : list Z) : result (Z * list Z) :=
  match str with
  | [] => Stop HostUB
  | c :: str' => if _is_digit c then atoi_loop (u32 (u32 (i * 10) + u32 (c - "0"%ch))) str' else Ok (i, str)
  end.
Definition _atoi (str : list Z) : result (Z * list Z) := atoi_loop 0 str.
(** [for (s = str; *s && maxsize--; ++s);] *)
Fixpoint strnlen_loop (n maxsize : Z) (str : list Z) : result Z :=
  match str with
  | [] => Stop HostUB
  | c :: str => if c =? 0 then Ok n else if maxsize =? 0 then Ok n else strnlen_loop (n + 1) (maxsize - 1) str
  end.
Definition _strnlen_s (str : list Z) (maxsize : Z) : result Z :=
  let! n := strnlen_loop 0 maxsize str in Ok (u32 n).

(** [while((len < lim) && (len < 32)) buf[len++] = '0';] *)
Definition BUF_FUEL : nat := 33.
Fixpoint zeros_while (fuel : nat) (lim : Z) (buf : list Z) : result (list Z) :=
  match fuel with
  | O => Stop OutOfFuel
  | S fuel =>
      if (len buf <? lim) && (len buf <? 32) then
        let! buf := push "0"%ch buf in zeros_while fuel lim buf
      else Ok buf
  end.
Definition push_sign (negative : bool) (flags size : Z) (buf : list Z) : result (list Z) :=
  if len buf <? size then
    if negative then push "-"%ch buf
    else if has flags FLAGS_PLUS then push "+"%ch buf
    else if has flags FLAGS_SPACE then push " "%ch buf else Ok buf
  else Ok buf.

(** The do-while loop over the digits; a base of zero divides by zero. *)
Definition digit_char (flags digit : Z) : Z :=
  if digit <? 10 then "0"%ch + digit else (if has flags FLAGS_UPPERCASE then "A"%ch else "a"%ch) + digit - 10.
Fixpoint digits_loop (fuel : nat) (flags base value : Z) (buf : list Z) : result (list Z) :=
  match fuel with
  | O => Stop OutOfFuel
  | S fuel =>
      if base =? 0 then Stop HostUB else
      let! buf := push (digit_char flags (value mod base)) buf in
      let value := value / base in
      if (value =/? 0) && (len buf <? NTOA_SIZE) then digits_loop fuel flags base value buf else Ok buf
  end.
(** The stages of [_ntoa_format] on the buffer. *)
Definition sign_takes_column (negative : bool) (width flags : Z) : bool :=
  (width =/? 0) && (negative || has flags (FLAGS_PLUS .| FLAGS_SPACE)).
Definition pad_zeros (negative : bool) (prec width flags : Z) (buf : list Z) : result (list Z * Z) :=
  if has flags FLAGS_LEFT then Ok (buf, width) else
  let width := if has flags FLAGS_ZEROPAD && sign_takes_column negative width flags then width - 1 else width in
  let! buf := zeros_while BUF_FUEL prec buf in
  let! buf := if has flags FLAGS_ZEROPAD then zeros_while BUF_FUEL width buf else Ok buf in
  Ok (buf, width).
Definition hash_stage (base prec width flags : Z) (buf : list Z) : result (list Z) :=
  if negb (has flags FLAGS_HASH) then Ok buf else
  let buf := if negb (has flags FLAGS_PRECISION) && (len buf =/? 0) && ((len buf =? prec) || (len buf =? width))
             then let buf := tail buf in if (len buf =/? 0) && (base =? 16) then tail buf else buf
             else buf in
  let! buf :=
    if (base =? 16) && negb (has flags FLAGS_UPPERCASE) && (len buf <? NTOA_SIZE) then push "x"%ch buf
    else if (base =? 16) && has flags FLAGS_UPPERCASE && (len buf <? NTOA_SIZE) then push "X"%ch buf
    else if (base =? 2) && (len buf <? NTOA_SIZE) then push "b"%ch buf
    else Ok buf in
  if len buf <? NTOA_SIZE then push "0"%ch buf else Ok buf.
Definition ntoa_buf (buf : list Z) (negative : bool) (base prec width flags : Z) : result (list Z * Z) :=
  let! (buf, width) := pad_zeros negative prec width flags buf in
  let! buf := hash_stage base prec width flags buf in
  let! buf := push_sign negative flags NTOA_SIZE buf in
  Ok (buf, width).

(** [%f]: the fraction after rounding, and the carry into the whole part. *)
Definition round_frac (tmp : double) (prec frac whole : Z) (lw : Z) : result (Z * Z) :=
  let diff := dsub tmp (double_of frac) in
  if dlt (dlit 0x3fe0000000000000) diff then
    let frac := wrapu lw (frac + 1) in
    let! p := pow10_at prec in
    if dle p (double_of frac) then let! whole := sint 32 (whole + 1) in Ok (0, whole) else Ok (frac, whole)
  else if dlt diff (dlit 0x3fe0000000000000) then Ok (frac, whole)
  else if (frac =? 0) || (frac .& 1 =/? 0) then Ok (wrapu lw (frac + 1), whole)
  else Ok (frac, whole).
(** The digits of the fraction; [count] is unsigned and the loop may pass it by. *)
Fixpoint frac_loop (fuel : nat) (frac count : Z) (buf : list Z) : result (list Z * Z) :=
  match fuel with
  | O => Stop OutOfFuel
  | S fuel =>
      if len buf <? FTOA_SIZE then
        let count := u32 (count - 1) in
        let! buf := push ("0"%ch + frac mod 10) buf in
        let frac := frac / 10 in
        if frac =? 0 then Ok (buf, count) else frac_loop fuel frac count buf
      else Ok (buf, count)
  end.
(** [while((len < 32) && (count-- > 0U)) buf[len++] = '0';] *)
Fixpoint count_zeros (fuel : nat) (count : Z) (buf : list Z) : result (list Z) :=
  match fuel with
  | O => Stop OutOfFuel
  | S fuel =>
      if (len buf <? FTOA_SIZE) && (0 <? count) then
        let! buf := push "0"%ch buf in count_zeros fuel (count - 1) buf
      else Ok buf
  end.
Fixpoint whole_loop (fuel : nat) (whole : Z) (buf : list Z) : result (list Z) :=
  match fuel with
  | O => Stop OutOfFuel
  | S fuel =>
      if len buf <? FTOA_SIZE then
        let! buf := push ("0"%ch + Z.rem whole 10) buf in
        let whole := Z.quot whole 10 in
        if whole =? 0 then Ok buf else whole_loop fuel whole buf
      else Ok buf
  end.
(** [while((len < 32) && (prec > 9U)) { buf[len++] = '0'; prec--; }] *)
Fixpoint excess_prec (fuel : nat) (prec : Z) (buf : list Z) : result (list Z * Z) :=
  match fuel with
  | O => Stop OutOfFuel
  | S fuel =>
      if (len buf <? FTOA_SIZE) && (9 <? prec) then
        let! buf := push "0"%ch buf in excess_prec fuel (prec - 1) buf
      else Ok (buf, prec)
  end.
Section ftoa_buffer.
Context {abi : Abi}.
Definition ftoa_fraction (value tmp : double) (whole frac prec : Z) (buf : list Z) : result (list Z * Z) :=
  let! (frac, whole) := round_frac tmp prec frac whole long_w in
  if prec =? 0 then
    let diff := dsub value (double_of whole) in
    let half := dlit 0x3fe0000000000000 in
    let! whole := if (negb (dlt diff half) || dlt half diff) && (whole .& 1 =/? 0) then sint 32 (whole + 1) else Ok whole in
    Ok (buf, whole)
  else
    let! (buf, count) := frac_loop BUF_FUEL frac prec buf in
    let! buf := count_zeros BUF_FUEL count buf in
    let! buf := if len buf <? FTOA_SIZE then push "."%ch buf else Ok buf in
    Ok (buf, whole).
(** The whole buffer of [_ftoa] for a value that is neither special nor large. *)
Definition ftoa_buf (value : double) (prec width flags : Z) : result (list Z * Z) :=
  let negative := dlt value (S754_zero false) in
  let value := if negative then dsub (S754_zero false) value else value in
  let prec := if has flags FLAGS_PRECISION then prec else DEFAULT_FLOAT_PRECISION in
  let! (buf, prec) := excess_prec BUF_FUEL prec [] in
  let! whole := int_of_double value in
  let! p := pow10_at prec in
  let tmp := dmul (dsub value (double_of whole)) p in
  let! frac := unsigned_of_double long_w tmp in
  let! (buf, whole) := ftoa_fraction value tmp whole frac prec buf in
  let! buf := whole_loop BUF_FUEL whole buf in
  let! (buf, width) :=
    if negb (has flags FLAGS_LEFT) && has flags FLAGS_ZEROPAD then
      let width := if sign_takes_column negative width flags then width - 1 else width in
      let! buf := zeros_while BUF_FUEL width buf in Ok (buf, width)
    else Ok (buf, width) in
  let! buf := push_sign negative flags FTOA_SIZE buf in
  Ok (buf, width).
End ftoa_buffer.

(** [%e]: the decimal exponent and the power of ten it is scaled by. *)
Definition exp2_of (bits : Z) : Z := s32 ((bits >> 52) .& 0x7ff) - 1023.
Definition power_of (expval : Z) : result double :=
  let! exp2 := int_of_double (double_add (dmul (double_of expval) (dlit 0x400a934f0979a371)) (dlit 0x3fe0000000000000)) in
  let z := dsub (dmul (double_of expval) (dlit 0x40026bb1bbb55516)) (dmul (double_of exp2) (dlit 0x3fe62e42fefa39ef)) in
  let z2 := dmul z z in
  let scale := dlit (u64 (u64 (exp2 + 1023) << 52)) in
  let d := double_of in
  let tail := double_div z2 (double_add (d 6) (double_div z2 (double_add (d 10) (double_div z2 (d 14))))) in
  Ok (dmul scale (double_add (d 1) (double_div (dmul (d 2) z) (double_add (dsub (d 2) z) tail)))).
Definition decimal_exponent (value : double) : result (Z * double) :=
  let bits := bits_of_sf binary64 0 value in
  let mant := dlit ((bits .& ((1 << 52) - 1)) .| (1023 << 52)) in
  let! expval := int_of_double
    (double_add (double_add (dlit 0x3fc68a288b60c8b3) (dmul (double_of (exp2_of bits)) (dlit 0x3fd34413509f79fb)))
                (dmul (dsub mant (dlit 0x3ff8000000000000)) (dlit 0x3fd287a7636f4361))) in
  let! f := power_of expval in
  if dlt value f then Ok (expval - 1, double_div f (double_of 10)) else Ok (expval, f).
(** [%g] falls back to [%f] in [1e-4, 1e6). *)
Definition adapt_exp (value : double) (prec flags minwidth expval : Z) : result (Z * Z * Z * Z) :=
  if negb (has flags FLAGS_ADAPT_EXP) then Ok (prec, flags, minwidth, expval) else
  if dle (dlit 0x3f1a36e2eb1c432d) value && dlt value (dlit 0x412e848000000000) then
    let! prec := if expval <? s32 prec
                 then let! a := sint 32 (s32 prec - expval) in let! b := sint 32 (a - 1) in Ok (u32 b)
                 else Ok 0 in
    Ok (prec, flags .| FLAGS_PRECISION, 0, 0)
  else Ok (if (0 <? prec) && has flags FLAGS_PRECISION then prec - 1 else prec, flags, minwidth, expval).

(** ** Output *)
(** What a conversion specification holds once parsed. *)
Record spec := mk_spec { sp_flags : Z; sp_width : Z; sp_prec : Z; sp_conv : Z }.

Section output.
Context {abi : Abi} {W : Type}.
(** A character, its index and [maxlen]; the buffer is in the world. *)
Definition out_fct_type : Type := Z -> Z -> Z -> W -> result W.
Definition _out_null : out_fct_type := fun _ _ _ w => Ok w.
Definition next_idx (idx : Z) : Z := wrapu size_w (idx + 1).
Context (out : out_fct_type) (maxlen : Z).
Implicit Types (idx : Z) (w : W).

(** [for(size_t i = len; i < width; i++) out(' ', ...);] *)
Fixpoint pad_for (fuel : nat) (i width : Z) idx w : result (Z * W) :=
  match fuel with
  | O => Stop OutOfFuel
  | S fuel =>
      if i <? width then let! w := out " "%ch idx maxlen w in pad_for fuel (next_idx i) width (next_idx idx) w else Ok (idx, w)
  end.
(** [while(idx - start_idx < width) out(' ', ...);] *)
Fixpoint pad_since (fuel : nat) (start_idx width : Z) idx w : result (Z * W) :=
  match fuel with
  | O => Stop OutOfFuel
  | S fuel =>
      if wrapu size_w (idx - start_idx) <? width
      then let! w := out " "%ch idx maxlen w in pad_since fuel start_idx width (next_idx idx) w else Ok (idx, w)
  end.
(** [while(l++ < width) out(' ', ...);] *)
Fixpoint pad_while (fuel : nat) (l width : Z) idx w : result (Z * W) :=
  match fuel with
  | O => Stop OutOfFuel
  | S fuel =>
      if l <? width then let! w := out " "%ch idx maxlen w in pad_while fuel (u32 (l + 1)) width (next_idx idx) w else Ok (idx, w)
  end.
(** Enough for any of the three, from [0]. *)
Definition pad_fuel (width : Z) : nat := S (Z.to_nat width).
(** [while(len) out(buf[--len], ...);] *)
Fixpoint rev_loop (buf : list Z) idx w : result (Z * W) :=
  match buf with
  | [] => Ok (idx, w)
  | c :: buf => let! w := out c idx maxlen w in rev_loop buf (next_idx idx) w
  end.
Definition _out_rev (buf : list Z) (width flags : Z) idx w : result (Z * W) :=
  let start_idx := idx in
  let! (idx, w) := if negb (has flags FLAGS_LEFT) && negb (has flags FLAGS_ZEROPAD)
                   then pad_for (pad_fuel width) (len buf) width idx w else Ok (idx, w) in
  let! (idx, w) := rev_loop buf idx w in
  if has flags FLAGS_LEFT then pad_since (pad_fuel width) start_idx width idx w else Ok (idx, w).

Definition _ntoa_format (buf : list Z) (negative : bool) (base prec width flags : Z) idx w : result (Z * W) :=
  let! (buf, width) := ntoa_buf buf negative base prec width flags in
  _out_rev buf width flags idx w.
Definition _ntoa_long (value : Z) (negative : bool) (base prec width flags : Z) idx w : result (Z * W) :=
  let flags := if value =? 0 then without flags FLAGS_HASH else flags in
  let! buf := if negb (has flags FLAGS_PRECISION) || (value =/? 0) then digits_loop BUF_FUEL flags base value [] else Ok [] in
  _ntoa_format buf negative (u32 base) prec width flags idx w.
(** The same body on [unsigned long long]. *)
Definition _ntoa_long_long (value : Z) (negative : bool) (base prec width flags : Z) idx w : result (Z * W) :=
  let flags := if value =? 0 then without flags FLAGS_HASH else flags in
  let! buf := if negb (has flags FLAGS_PRECISION) || (value =/? 0) then digits_loop BUF_FUEL flags base value [] else Ok [] in
  _ntoa_format buf negative (u32 base) prec width flags idx w.

(** [_ftoa] and [_etoa] call each other; [_etoa] takes the call as an argument. *)
Definition etoa_with (ftoa : double -> Z -> Z -> Z -> Z -> W -> result (Z * W))
    (value : double) (prec width flags : Z) idx w : result (Z * W) :=
  if dnan value || dlt DBL_MAX value || dlt value (SFopp DBL_MAX) then ftoa value prec width flags idx w else
  let negative := dlt value (S754_zero false) in
  let value := if negative then SFopp value else value in
  let prec := if has flags FLAGS_PRECISION then prec else DEFAULT_FLOAT_PRECISION in
  let! (expval, f) := decimal_exponent value in
  let minwidth := if (expval <? 100) && (-100 <? expval) then 4 else 5 in
  let! (prec, flags, minwidth, expval) := adapt_exp value prec flags minwidth expval in
  let fwidth := if minwidth <? width then width - minwidth else 0 in
  let fwidth := if has flags FLAGS_LEFT && (minwidth =/? 0) then 0 else fwidth in
  let value := if expval =/? 0 then double_div value f else value in
  let start_idx := idx in
  let! (idx, w) := ftoa (if negative then SFopp value else value) prec fwidth (without flags FLAGS_ADAPT_EXP) idx w in
  if minwidth =/? 0 then
    let! w := out (if has flags FLAGS_UPPERCASE then "E"%ch else "e"%ch) idx maxlen w in
    let! (idx, w) := _ntoa_long (if expval <? 0 then - expval else expval) (expval <? 0) 10 0 (minwidth - 1)
                                (FLAGS_ZEROPAD .| FLAGS_PLUS) (next_idx idx) w in
    if has flags FLAGS_LEFT then pad_since (pad_fuel width) start_idx width idx w else Ok (idx, w)
  else Ok (idx, w).
Fixpoint ftoa_fuel (fuel : nat) (value : double) (prec width flags : Z) idx w : result (Z * W) :=
  match fuel with
  | O => Stop OutOfFuel
  | S fuel =>
      if dnan value then _out_rev (rev ["n"; "a"; "n"]%ch) width flags idx w else
      if dlt value (SFopp DBL_MAX) then _out_rev (rev ["f"; "n"; "i"; "-"]%ch) width flags idx w else
      if dlt DBL_MAX value
      then _out_rev (rev (if has flags FLAGS_PLUS then ["f"; "n"; "i"; "+"]%ch else ["f"; "n"; "i"]%ch)) width flags idx w else
      if dlt PRINTF_MAX_FLOAT value || dlt value (SFopp PRINTF_MAX_FLOAT)
      then etoa_with (ftoa_fuel fuel) value prec width flags idx w else
      let! (buf, width) := ftoa_buf value prec width flags in
      _out_rev buf width flags idx w
  end.
Definition FLOAT_FUEL : nat := 3.
Definition _ftoa : double -> Z -> Z -> Z -> Z -> W -> result (Z * W) := ftoa_fuel FLOAT_FUEL.
Definition _etoa : double -> Z -> Z -> Z -> Z -> W -> result (Z * W) := etoa_with _ftoa.

(** ** The parser of conversion specifications *)
(** The do-while loop over the flag characters. *)
Fixpoint parse_flags (flags : Z) (format : list Z) : result (Z * list Z) :=
  match format with
  | [] => Stop HostUB
  | c :: format' =>
      if c =? "0"%ch then parse_flags (flags .| FLAGS_ZEROPAD) format'
      else if c =? "-"%ch then parse_flags (flags .| FLAGS_LEFT) format'
      else if c =? "+"%ch then parse_flags (flags .| FLAGS_PLUS) format'
      else if c =? " "%ch then parse_flags (flags .| FLAGS_SPACE) format'
      else if c =? "#"%ch then parse_flags (flags .| FLAGS_HASH) format'
      else Ok (flags, format)
  end.
Definition parse_width (flags : Z) (format : list Z) (va : list arg) : result (Z * Z * list Z * list arg) :=
  let! c := deref format in
  if _is_digit c then let! (width, format) := _atoi format in Ok (flags, width, format, va)
  else if c =? "*"%ch then
    let! (v, va) := va_int va in
    let v := s32 v in
    if v <? 0 then let! v := sint 32 (- v) in Ok (flags .| FLAGS_LEFT, u32 v, tail format, va)
    else Ok (flags, u32 v, tail format, va)
  else Ok (flags, 0, format, va).
Definition parse_precision (flags : Z) (format : list Z) (va : list arg) : result (Z * Z * list Z * list arg) :=
  let! c := deref format in
  if c =? "."%ch then
    let flags := flags .| FLAGS_PRECISION in
    let format := tail format in
    let! c := deref format in
    if _is_digit c then let! (precision, format) := _atoi format in Ok (flags, precision, format, va)
    else if c =? "*"%ch then
      let! (v, va) := va_int va in
      let prec := s32 v in
      Ok (flags, if 0 <? prec then u32 prec else 0, tail format, va)
    else Ok (flags, 0, format, va)
  else Ok (flags, 0, format, va).
Definition parse_length (flags : Z) (format : list Z) : result (Z * list Z) :=
  let wide (w : Z) := if w =? long_w then FLAGS_LONG else FLAGS_LONG_LONG in
  let! c := deref format in
  if c =? "l"%ch then
    let! c := deref (tail format) in
    if c =? "l"%ch then Ok (flags .| FLAGS_LONG .| FLAGS_LONG_LONG, tail (tail format))
    else Ok (flags .| FLAGS_LONG, tail format)
  else if c =? "h"%ch then
    let! c := deref (tail format) in
    if c =? "h"%ch then Ok (flags .| FLAGS_SHORT .| FLAGS_CHAR, tail (tail format))
    else Ok (flags .| FLAGS_SHORT, tail format)
  else if c =? "t"%ch then Ok (flags .| wide ptrdiff_w, tail format)
  else if c =? "j"%ch then Ok (flags .| wide intmax_w, tail format)
  else if c =? "z"%ch then Ok (flags .| wide size_w, tail format)
  else Ok (flags, format).
(** From behind the '%' to behind the conversion character. *)
Definition parse_spec (format : list Z) (va : list arg) : result (spec * list Z * list arg) :=
  let! (flags, format) := parse_flags 0 format in
  let! (flags, width, format, va) := parse_width flags format va in
  let! (flags, precision, format, va) := parse_precision flags format va in
  let! (flags, format) := parse_length flags format in
  let! c := deref format in
  Ok (mk_spec flags width precision c, tail format, va).

(** ** Conversions *)
Definition to_char (v : Z) : Z := if char_signed then s8 v else u8 v.
Definition is_signed_conv (c : Z) : bool := (c =? "d"%ch) || (c =? "i"%ch).
Definition int_base (c : Z) : Z :=
  if (c =? "x"%ch) || (c =? "X"%ch) then 16 else if c =? "o"%ch then 8 else if c =? "b"%ch then 2 else 10.
Definition int_flags (flags c : Z) : Z :=
  let flags := if int_base c =? 10 then without flags FLAGS_HASH else flags in
  let flags := if c =? "X"%ch then flags .| FLAGS_UPPERCASE else flags in
  let flags := if is_signed_conv c then flags else without flags (FLAGS_PLUS .| FLAGS_SPACE) in
  if has flags FLAGS_PRECISION then without flags FLAGS_ZEROPAD else flags.
(** [value > 0 ? value : 0 - value] on a signed type of [w] bits. *)
Definition magnitude (w value : Z) : result Z := if 0 <? value then Ok value else sint w (0 - value).
Definition conv_int (sp : spec) (va : list arg) idx w : result (Z * list arg * W) :=
  let c := sp_conv sp in
  let base := int_base c in
  let flags := int_flags (sp_flags sp) c in
  let fin (va : list arg) (r : result (Z * W)) := let! (idx, w) := r in Ok (idx, va, w) in
  if is_signed_conv c then
    if has flags FLAGS_LONG_LONG then
      let! (v, va) := va_llong va in
      let value := s64 v in
      let! m := magnitude 64 value in
      fin va (_ntoa_long_long (u64 m) (value <? 0) base (sp_prec sp) (sp_width sp) flags idx w)
    else if has flags FLAGS_LONG then
      let! (v, va) := va_long va in
      let value := wraps long_w v in
      let! m := magnitude long_w value in
      fin va (_ntoa_long (wrapu long_w m) (value <? 0) base (sp_prec sp) (sp_width sp) flags idx w)
    else
      let! (v, va) := va_int va in
      let value := if has flags FLAGS_CHAR then to_char v else if has flags FLAGS_SHORT then s16 v else s32 v in
      let! m := magnitude 32 value in
      fin va (_ntoa_long (u32 m) (value <? 0) base (sp_prec sp) (sp_width sp) flags idx w)
  else
    if has flags FLAGS_LONG_LONG then
      let! (v, va) := va_llong va in
      fin va (_ntoa_long_long (u64 v) false base (sp_prec sp) (sp_width sp) flags idx w)
    else if has flags FLAGS_LONG then
      let! (v, va) := va_long va in
      fin va (_ntoa_long (wrapu long_w v) false base (sp_prec sp) (sp_width sp) flags idx w)
    else
      let! (v, va) := va_int va in
      let value := if has flags FLAGS_CHAR then u8 v else if has flags FLAGS_SHORT then u16 v else u32 v in
      fin va (_ntoa_long value false base (sp_prec sp) (sp_width sp) flags idx w).
Definition conv_fixed (sp : spec) (va : list arg) idx w : result (Z * list arg * W) :=
  let flags := if sp_conv sp =? "F"%ch then sp_flags sp .| FLAGS_UPPERCASE else sp_flags sp in
  let! (d, va) := va_double va in
  let! (idx, w) := _ftoa d (sp_prec sp) (sp_width sp) flags idx w in
  Ok (idx, va, w).
Definition conv_exp (sp : spec) (va : list arg) idx w : result (Z * list arg * W) :=
  let c := sp_conv sp in
  let flags := if (c =? "g"%ch) || (c =? "G"%ch) then sp_flags sp .| FLAGS_ADAPT_EXP else sp_flags sp in
  let flags := if (c =? "E"%ch) || (c =? "G"%ch) then flags .| FLAGS_UPPERCASE else flags in
  let! (d, va) := va_double va in
  let! (idx, w) := _etoa d (sp_prec sp) (sp_width sp) flags idx w in
  Ok (idx, va, w).
Definition conv_char (sp : spec) (va : list arg) idx w : result (Z * list arg * W) :=
  let left := has (sp_flags sp) FLAGS_LEFT in
  let! (idx, w) := if left then Ok (idx, w) else pad_while (pad_fuel (sp_width sp)) 1 (sp_width sp) idx w in
  let! (v, va) := va_int va in
  let! w := out (to_char v) idx maxlen w in
  let idx := next_idx idx in
  let! (idx, w) := if left then pad_while (pad_fuel (sp_width sp)) 1 (sp_width sp) idx w else Ok (idx, w) in
  Ok (idx, va, w).
(** The characters up to the terminator or the precision. *)
Fixpoint str_loop (p : list Z) (bounded : bool) (precision : Z) idx w : result (Z * W) :=
  match p with
  | [] => Stop HostUB
  | c :: p =>
      if c =? 0 then Ok (idx, w)
      else if bounded && (precision =? 0) then Ok (idx, w)
      else let! w := out c idx maxlen w in str_loop p bounded (precision - 1) (next_idx idx) w
  end.
Definition conv_str (sp : spec) (va : list arg) idx w : result (Z * list arg * W) :=
  let flags := sp_flags sp in let width := sp_width sp in let precision := sp_prec sp in
  let! (addr, p, va) := va_ptr va in
  let! l := _strnlen_s p (if precision =/? 0 then precision else 2 ^ size_w - 1) in
  let l := if has flags FLAGS_PRECISION then (if l <? precision then l else precision) else l in
  let! (idx, w) := if has flags FLAGS_LEFT then Ok (idx, w) else pad_while (pad_fuel width) l width idx w in
  let! (idx, w) := str_loop p (has flags FLAGS_PRECISION) precision idx w in
  let! (idx, w) := if has flags FLAGS_LEFT then pad_while (pad_fuel width) l width idx w else Ok (idx, w) in
  Ok (idx, va, w).
Definition conv_ptr (sp : spec) (va : list arg) idx w : result (Z * list arg * W) :=
  let width := ptr_w / 8 * 2 in
  let flags := sp_flags sp .| (FLAGS_ZEROPAD .| FLAGS_UPPERCASE) in
  let! (addr, p, va) := va_ptr va in
  let! (idx, w) :=
    if ptr_w =? 64 then _ntoa_long_long (u64 (wrapu ptr_w addr)) false 16 (sp_prec sp) width flags idx w
    else _ntoa_long (wrapu long_w (wrapu ptr_w addr)) false 16 (sp_prec sp) width flags idx w in
  Ok (idx, va, w).
(** The second switch of [_vsnprintf]. *)
Definition convert (sp : spec) (va : list arg) idx w : result (Z * list arg * W) :=
  let c := sp_conv sp in
  if (c =? "d"%ch) || (c =? "i"%ch) || (c =? "u"%ch) || (c =? "x"%ch) || (c =? "X"%ch) || (c =? "o"%ch) || (c =? "b"%ch)
  then conv_int sp va idx w
  else if (c =? "f"%ch) || (c =? "F"%ch) then conv_fixed sp va idx w
  else if (c =? "e"%ch) || (c =? "E"%ch) || (c =? "g"%ch) || (c =? "G"%ch) then conv_exp sp va idx w
  else if c =? "c"%ch then conv_char sp va idx w
  else if c =? "s"%ch then conv_str sp va idx w
  else if c =? "p"%ch then conv_ptr sp va idx w
  else let! w := out c idx maxlen w in Ok (next_idx idx, va, w).
Fixpoint format_loop (fuel : nat) (format : list Z) (va : list arg) idx w : result (Z * W) :=
  match fuel with
  | O => Stop OutOfFuel
  | S fuel =>
      let! c := deref format in
      if c =? 0 then Ok (idx, w)
      else if c =/? "%"%ch then let! w := out c idx maxlen w in format_loop fuel (tail format) va (next_idx idx) w
      else
        let! (sp, format, va) := parse_spec (tail format) va in
        let! (idx, va, w) := convert sp va idx w in
        format_loop fuel format va idx w
  end.
End output.
(** [null] is [!buffer].  The loop consumes a character of the format per turn. *)
Definition _vsnprintf `{Abi} {W} (out : out_fct_type) (null : bool) (maxlen : Z) (format : list Z) (va : list arg)
    (w : W) : result (Z * W) :=
  let out := if null then _out_null else out in
  let! (idx, w) := format_loop out maxlen (S (length format)) format va 0 w in
  let! w := out 0 (if idx <? maxlen then idx else wrapu size_w (maxlen - 1)) maxlen w in
  Ok (s32 idx, w).

(** ** Output functions and public entries *)
(** A buffer is the bytes of the object it points to. *)
Definition _out_buffer : out_fct_type (W := list Z) := fun character idx maxlen buffer =>
  if idx <? maxlen then
    if idx <? Z.of_nat (length buffer) then Ok (<[Z.to_nat idx := character]> buffer) else Stop HostUB
  else Ok buffer.
Section platform.
Context {W : Type} `{Platform W}.
Fixpoint poll_fifo (fuel : nat) (w : W) : result W :=
  match fuel with
  | O => Stop OutOfFuel
  | S fuel => let! (t, w) := mfc0_7 w in if t =? 0 then Ok w else poll_fifo fuel w
  end.
Definition _out_char (fuel : nat) : out_fct_type (W := W) := fun character idx maxlen w =>
  if character =/? 0 then let! w := poll_fifo fuel w in mtc0_7 character w else Ok w.
End platform.
(** The callback's function and argument are the partial application [fct]. *)
Definition _out_fct {W} (fct : Z -> W -> result W) : out_fct_type := fun character idx maxlen w =>
  if character =/? 0 then fct character w else Ok w.

Section public.
Context {abi : Abi}.
Definition vprintf_ `{Platform W} (fuel : nat) (format : list Z) (va : list arg) (w : W) : result (Z * W) :=
  _vsnprintf (_out_char fuel) false (2 ^ size_w - 1) format va w.
Definition printf_ `{Platform W} (fuel : nat) (format : list Z) (va : list arg) (w : W) : result (Z * W) :=
  _vsnprintf (_out_char fuel) false (2 ^ size_w - 1) format va w.
Definition fctprintf {W} (fct : Z -> W -> result W) (format : list Z) (va : list arg) (w : W) : result (Z * W) :=
  _vsnprintf (_out_fct fct) false (2 ^ size_w - 1) format va w.
(** [None] is the null pointer. *)
Definition vsnprintf_ (buffer : option (list Z)) (count : Z) (format : list Z) (va : list arg) : result (Z * option (list Z)) :=
  match buffer with
  | None => let! (n, _) := _vsnprintf _out_buffer true count format va [] in Ok (n, None)
  | Some b => let! (n, b) := _vsnprintf _out_buffer false count format va b in Ok (n, Some b)
  end.
Definition snprintf_ (buffer : option (list Z)) (count : Z) (format : list Z) (va : list arg) : result (Z * option (list Z)) :=
  vsnprintf_ buffer count format va.
Definition sprintf_ (buffer : option (list Z)) (format : list Z) (va : list arg) : result (Z * option (list Z)) :=
  vsnprintf_ buffer (2 ^ size_w - 1) format va.
End public.
