(* ===== verification/PrintfProps.v ===== *)
(** The formatted output: a renderer that maps a format and its arguments to
    text, without output functions, indices or counters; the library refines it
    (any output function receives exactly the text), and what the text is for
    integers, strings and whole doubles. *)
From Stdlib Require Import SpecFloat.
From S2P Require Import Prelude Bits Fp Doubles Firmware Printf.

Section text.
Context {abi : Abi}.

(** ** The renderer *)
Definition spaces (n : Z) : list Z := replicate (Z.to_nat n) " "%ch.
Definition rev_text (buf : list Z) (width flags : Z) : list Z :=
  (if negb (has flags FLAGS_LEFT) && negb (has flags FLAGS_ZEROPAD) then spaces (width - len buf) else []) ++
  buf ++ (if has flags FLAGS_LEFT then spaces (width - wrapu size_w (len buf)) else []).
Definition ntoa_text (value : Z) (negative : bool) (base prec width flags : Z) : result (list Z) :=
  let flags := if value =? 0 then without flags FLAGS_HASH else flags in
  let! buf := if negb (has flags FLAGS_PRECISION) || (value =/? 0) then digits_loop BUF_FUEL flags base value [] else Ok [] in
  let! (buf, width) := ntoa_buf buf negative (u32 base) prec width flags in
  Ok (rev_text buf width flags).
Definition etoa_text (ftoa : double -> Z -> Z -> Z -> result (list Z)) (value : double) (prec width flags : Z) : result (list Z) :=
  if dnan value || dlt DBL_MAX value || dlt value (SFopp DBL_MAX) then ftoa value prec width flags else
  let negative := dlt value (S754_zero false) in
  let value := if negative then SFopp value else value in
  let prec := if has flags FLAGS_PRECISION then prec else DEFAULT_FLOAT_PRECISION in
  let! (expval, f) := decimal_exponent value in
  let minwidth := if (expval <? 100) && (-100 <? expval) then 4 else 5 in
  let! (prec, flags, minwidth, expval) := adapt_exp value prec flags minwidth expval in
  let fwidth := if minwidth <? width then width - minwidth else 0 in
  let fwidth := if has flags FLAGS_LEFT && (minwidth =/? 0) then 0 else fwidth in
  let value := if expval =/? 0 then double_div value f else value in
  let! mantissa := ftoa (if negative then SFopp value else value) prec fwidth (without flags FLAGS_ADAPT_EXP) in
  if minwidth =/? 0 then
    let! e := ntoa_text (if expval <? 0 then - expval else expval) (expval <? 0) 10 0 (minwidth - 1) (FLAGS_ZEROPAD .| FLAGS_PLUS) in
    let t := mantissa ++ (if has flags FLAGS_UPPERCASE then "E"%ch else "e"%ch) :: e in
    Ok (if has flags FLAGS_LEFT then t ++ spaces (width - wrapu size_w (len t)) else t)
  else Ok mantissa.
Fixpoint ftoa_text (fuel : nat) (value : double) (prec width flags : Z) : result (list Z) :=
  match fuel with
  | O => Stop OutOfFuel
  | S fuel =>
      if dnan value then Ok (rev_text (rev ["n"; "a"; "n"]%ch) width flags) else
      if dlt value (SFopp DBL_MAX) then Ok (rev_text (rev ["f"; "n"; "i"; "-"]%ch) width flags) else
      if dlt DBL_MAX value
      then Ok (rev_text (rev (if has flags FLAGS_PLUS then ["f"; "n"; "i"; "+"]%ch else ["f"; "n"; "i"]%ch)) width flags) else
      if dlt PRINTF_MAX_FLOAT value || dlt value (SFopp PRINTF_MAX_FLOAT)
      then etoa_text (ftoa_text fuel) value prec width flags else
      let! (buf, width) := ftoa_buf value prec width flags in
      Ok (rev_text buf width flags)
  end.
(** The argument of an integer conversion: magnitude and sign. *)
Definition int_arg (flags c : Z) (va : list arg) : result (Z * bool * list arg) :=
  if is_signed_conv c then
    if has flags FLAGS_LONG_LONG then
      let! (v, va) := va_llong va in
      let! m := magnitude 64 (s64 v) in Ok (u64 m, s64 v <? 0, va)
    else if has flags FLAGS_LONG then
      let! (v, va) := va_long va in
      let! m := magnitude long_w (wraps long_w v) in Ok (wrapu long_w m, wraps long_w v <? 0, va)
    else
      let! (v, va) := va_int va in
      let v := if has flags FLAGS_CHAR then to_char v else if has flags FLAGS_SHORT then s16 v else s32 v in
      let! m := magnitude 32 v in Ok (u32 m, v <? 0, va)
  else
    if has flags FLAGS_LONG_LONG then let! (v, va) := va_llong va in Ok (u64 v, false, va)
    else if has flags FLAGS_LONG then let! (v, va) := va_long va in Ok (wrapu long_w v, false, va)
    else
      let! (v, va) := va_int va in
      Ok (if has flags FLAGS_CHAR then u8 v else if has flags FLAGS_SHORT then u16 v else u32 v, false, va).
(** The characters of a string up to its terminator or [precision] of them. *)
Fixpoint str_text (p : list Z) (bounded : bool) (precision : Z) : result (list Z) :=
  match p with
  | [] => Stop HostUB
  | c :: p =>
      if c =? 0 then Ok [] else if bounded && (precision =? 0) then Ok []
      else let! t := str_text p bounded (precision - 1) in Ok (c :: t)
  end.
Definition around (left : bool) (pad t : list Z) : list Z := if left then t ++ pad else pad ++ t.
Definition convert_text (sp : spec) (va : list arg) : result (list Z * list arg) :=
  let c := sp_conv sp in
  let flags := sp_flags sp in
  let left := has flags FLAGS_LEFT in
  if (c =? "d"%ch) || (c =? "i"%ch) || (c =? "u"%ch) || (c =? "x"%ch) || (c =? "X"%ch) || (c =? "o"%ch) || (c =? "b"%ch) then
    let flags := int_flags flags c in
    let! (v, negative, va) := int_arg flags c va in
    let! t := ntoa_text v negative (int_base c) (sp_prec sp) (sp_width sp) flags in Ok (t, va)
  else if (c =? "f"%ch) || (c =? "F"%ch) then
    let! (d, va) := va_double va in
    let! t := ftoa_text FLOAT_FUEL d (sp_prec sp) (sp_width sp) (if c =? "F"%ch then flags .| FLAGS_UPPERCASE else flags) in
    Ok (t, va)
  else if (c =? "e"%ch) || (c =? "E"%ch) || (c =? "g"%ch) || (c =? "G"%ch) then
    let flags := if (c =? "g"%ch) || (c =? "G"%ch) then flags .| FLAGS_ADAPT_EXP else flags in
    let flags := if (c =? "E"%ch) || (c =? "G"%ch) then flags .| FLAGS_UPPERCASE else flags in
    let! (d, va) := va_double va in
    let! t := etoa_text (ftoa_text FLOAT_FUEL) d (sp_prec sp) (sp_width sp) flags in Ok (t, va)
  else if c =? "c"%ch then
    let! (v, va) := va_int va in Ok (around left (spaces (sp_width sp - 1)) [to_char v], va)
  else if c =? "s"%ch then
    let! (addr, p, va) := va_ptr va in
    let! l := _strnlen_s p (if sp_prec sp =/? 0 then sp_prec sp else 2 ^ size_w - 1) in
    let l := if has flags FLAGS_PRECISION then (if l <? sp_prec sp then l else sp_prec sp) else l in
    let! t := str_text p (has flags FLAGS_PRECISION) (sp_prec sp) in
    Ok (around left (spaces (sp_width sp - l)) t, va)
  else if c =? "p"%ch then
    let! (addr, p, va) := va_ptr va in
    let v := if ptr_w =? 64 then u64 (wrapu ptr_w addr) else wrapu long_w (wrapu ptr_w addr) in
    let! t := ntoa_text v false 16 (sp_prec sp) (ptr_w / 8 * 2) (flags .| (FLAGS_ZEROPAD .| FLAGS_UPPERCASE)) in
    Ok (t, va)
  else Ok ([c], va).
Fixpoint render_loop (fuel : nat) (format : list Z) (va : list arg) : result (list Z) :=
  match fuel with
  | O => Stop OutOfFuel
  | S fuel =>
      let! c := deref format in
      if c =? 0 then Ok []
      else if c =/? "%"%ch then let! t := render_loop fuel (tail format) va in Ok (c :: t)
      else
        let! (sp, format, va) := parse_spec (tail format) va in
        let! (t, va) := convert_text sp va in
        let! t' := render_loop fuel format va in
        Ok (t ++ t')
  end.
Definition render (format : list Z) (va : list arg) : result (list Z) := render_loop (S (length format)) format va.
End text.

(** ** Ranges of the parsed fields *)
Definition u32_ok (x : Z) : Prop := 0 <= x < 2 ^ 32.
Lemma u32_range x : u32_ok (u32 x).
Proof. apply (wrapu_range 32). lia. Qed.
Lemma size_bound `{Abi} : 2 ^ 32 <= 2 ^ size_w /\ 0 < size_w.
Proof. destruct size_ok as [-> | ->]; split; lia. Qed.
Lemma wrapu_small `{Abi} x : u32_ok x -> wrapu size_w x = x.
Proof. intros [? ?]. pose proof size_bound as [? ?]. apply wrapu_id. split; lia. Qed.
Lemma len_nonneg buf : 0 <= len buf.
Proof. unfold len. lia. Qed.
Lemma len_cons c buf : len (c :: buf) = len buf + 1.
Proof. unfold len. cbn [length]. lia. Qed.
Lemma len_app a b : len (a ++ b) = len a + len b.
Proof. unfold len. rewrite length_app. lia. Qed.
Lemma len_replicate n (c : Z) : len (replicate n c) = Z.of_nat n.
Proof. unfold len. by rewrite length_replicate. Qed.
Lemma spaces_step i width : i < width -> spaces (width - i) = " "%ch :: spaces (width - (i + 1)).
Proof. intros ?. unfold spaces. by replace (Z.to_nat (width - i)) with (S (Z.to_nat (width - (i + 1)))) by lia. Qed.
Lemma spaces_none n : n <= 0 -> spaces n = [].
Proof. intros ?. unfold spaces. by replace (Z.to_nat n) with O by lia. Qed.

Lemma atoi_range i l q : u32_ok i -> atoi_loop i l = Ok q -> u32_ok q.1.
Proof.
  revert i. induction l as [|c l IH]; intros i Hi; cbn [atoi_loop]; [done|].
  destruct (_is_digit c); [apply IH, u32_range|by intros [= <-]].
Qed.
Lemma parse_width_range `{Abi} flags format va q : parse_width flags format va = Ok q -> u32_ok q.1.1.2.
Proof.
  unfold parse_width. intros E. bind_inv E c E1. destruct (_is_digit c).
  - bind_inv E r E2. destruct r as [w f]. apply atoi_range in E2; [|done]. by injection E as <-.
  - destruct (c =? "*"%ch); [|by injection E as <-]. bind_inv E r E2. destruct r as [v va1].
    destruct (s32 v <? 0); [bind_inv E x E3|]; injection E as <-; apply u32_range.
Qed.
Lemma parse_precision_range `{Abi} flags format va q : parse_precision flags format va = Ok q -> u32_ok q.1.1.2.
Proof.
  unfold parse_precision. intros E. bind_inv E c E1. destruct (c =? "."%ch); [|by injection E as <-].
  bind_inv E d E2. destruct (_is_digit d).
  - bind_inv E r E3. destruct r as [w f]. apply atoi_range in E3; [|done]. by injection E as <-.
  - destruct (d =? "*"%ch); [|by injection E as <-]. bind_inv E r E3. destruct r as [v va1].
    injection E as <-. cbn [fst snd]. destruct (0 <? s32 v); [apply u32_range|done].
Qed.
Lemma parse_spec_range `{Abi} format va sp format' va' :
  parse_spec format va = Ok (sp, format', va') -> u32_ok (sp_width sp) /\ u32_ok (sp_prec sp).
Proof.
  unfold parse_spec. intros E. bind_inv E q1 E1. destruct q1 as [f1 l1]. bind_inv E q2 E2. apply parse_width_range in E2.
  destruct q2 as [[[f2 w] l2] va2]. bind_inv E q3 E3. apply parse_precision_range in E3. destruct q3 as [[[f3 p] l3] va3].
  bind_inv E q4 E4. destruct q4 as [f4 l4]. bind_inv E c E5. by injection E as <- _ _.
Qed.

(** ** Any output function receives the text *)
Section refine.
Context {abi : Abi} {W : Type} (out : out_fct_type (W := W)) (maxlen : Z).
Implicit Types (idx : Z) (w : W).
(** The text goes out a character at a time, at consecutive indices. *)
Abbreviation emit := (rev_loop out maxlen).

Lemma emit_app a b idx w : emit (a ++ b) idx w = (let! (idx, w) := emit a idx w in emit b idx w).
Proof.
  revert idx w. induction a as [|c a IH]; intros idx w; [done|]. cbn [app rev_loop].
  rewrite result_bind_assoc. destruct (out c idx maxlen w); [apply IH|done].
Qed.
Lemma wrapu_next idx x : wrapu size_w (next_idx idx + x) = wrapu size_w (idx + 1 + x).
Proof. unfold next_idx. pose proof size_bound as [_ ?]. by rewrite wrapu_add_l by lia. Qed.
Lemma emit_idx l idx w idx' w' x : emit l idx w = Ok (idx', w') -> wrapu size_w (idx' + x) = wrapu size_w (idx + len l + x).
Proof.
  revert idx w. induction l as [|c l IH]; intros idx w; cbn [rev_loop].
  - intros [= <- <-]. do 2 f_equal. unfold len. cbn. lia.
  - destruct (out c idx maxlen w) as [w1|]; [|done]. intros ->%IH.
    rewrite <- Z.add_assoc, wrapu_next. f_equal. rewrite len_cons. lia.
Qed.
Lemma pad_for_emit fuel i width idx w :
  0 <= i -> u32_ok width -> (Z.to_nat (width - i) < fuel)%nat ->
  pad_for out maxlen fuel i width idx w = emit (spaces (width - i)) idx w.
Proof.
  intros Hi Hw. revert i idx w Hi. induction fuel as [|fuel IH]; intros i idx w Hi Hf; [lia|]. cbn [pad_for].
  destruct (Z.ltb_spec i width) as [Hlt|Hge]; [|by rewrite spaces_none by lia].
  rewrite spaces_step by done. cbn [rev_loop]. destruct (out _ idx maxlen w) as [w1|]; [|done]. cbn [mbind result_bind].
  unfold next_idx at 1. unfold u32_ok in *. rewrite wrapu_small by (unfold u32_ok; lia). apply IH; lia.
Qed.
Lemma pad_while_emit fuel i width idx w :
  0 <= i -> u32_ok width -> (Z.to_nat (width - i) < fuel)%nat ->
  pad_while out maxlen fuel i width idx w = emit (spaces (width - i)) idx w.
Proof.
  intros Hi Hw. revert i idx w Hi. induction fuel as [|fuel IH]; intros i idx w Hi Hf; [lia|]. cbn [pad_while].
  destruct (Z.ltb_spec i width) as [Hlt|Hge]; [|by rewrite spaces_none by lia].
  rewrite spaces_step by done. cbn [rev_loop]. destruct (out _ idx maxlen w) as [w1|]; [|done]. cbn [mbind result_bind].
  unfold u32_ok in *. rewrite (wrapu_id 32 (i + 1)) by (split; lia). apply IH; lia.
Qed.
Lemma pad_since_emit fuel start d width idx w :
  u32_ok width -> wrapu size_w (idx - start) = d -> (Z.to_nat (width - d) < fuel)%nat ->
  pad_since out maxlen fuel start width idx w = emit (spaces (width - d)) idx w.
Proof.
  intros Hw. revert d idx w. induction fuel as [|fuel IH]; intros d idx w Hd Hf; [lia|]. cbn [pad_since]. rewrite Hd.
  destruct (Z.ltb_spec d width) as [Hlt|Hge]; [|by rewrite spaces_none by lia].
  rewrite spaces_step by done. cbn [rev_loop]. destruct (out _ idx maxlen w) as [w1|]; [|done]. cbn [mbind result_bind].
  apply IH; [|lia]. rewrite <- Z.add_opp_r, wrapu_next. replace (idx + 1 + - start) with (idx - start + 1) by lia.
  pose proof size_bound as [_ Hs]. rewrite <- (wrapu_add_l size_w) by lia. rewrite Hd. apply wrapu_small.
  unfold u32_ok in *. assert (0 <= d) by (rewrite <- Hd; apply wrapu_nonneg; lia). lia.
Qed.
Lemma pad_fuel_ok d width : 0 <= d -> (Z.to_nat (width - d) < pad_fuel width)%nat.
Proof. unfold pad_fuel. lia. Qed.
(** Padding on the right of a text that went out from [idx]. *)
Lemma pad_after_emit t width idx w :
  u32_ok width ->
  (let! (idx', w') := emit t idx w in pad_since out maxlen (pad_fuel width) idx width idx' w')
  = emit (t ++ spaces (width - wrapu size_w (len t))) idx w.
Proof.
  intros Hw. rewrite emit_app. destruct (emit t idx w) as [[idx' w']|] eqn:E; [|done]. cbn [mbind result_bind].
  pose proof size_bound as [_ Hs]. apply pad_since_emit; [done| |apply pad_fuel_ok, wrapu_nonneg; lia].
  rewrite <- Z.add_opp_r, (emit_idx _ _ _ _ _ _ E). f_equal. lia.
Qed.
Lemma _out_rev_emit buf width flags idx w :
  u32_ok width -> _out_rev out maxlen buf width flags idx w = emit (rev_text buf width flags) idx w.
Proof.
  intros Hw. unfold _out_rev, rev_text. destruct (has flags FLAGS_LEFT); cbn [negb andb app].
  - cbn [mbind result_bind]. by apply pad_after_emit.
  - rewrite app_nil_r. destruct (has flags FLAGS_ZEROPAD); cbn [negb].
    + cbn [mbind result_bind app]. by destruct (emit buf idx w) as [[]|].
    + rewrite pad_for_emit by (done || apply len_nonneg || apply pad_fuel_ok, len_nonneg).
      rewrite emit_app. destruct (emit (spaces _) idx w) as [[i1 w1]|]; [|done]. cbn [mbind result_bind].
      by destruct (emit buf i1 w1) as [[]|].
Qed.

(** The width after a sign has taken a column. *)
Lemma sign_column_width negative width flags :
  u32_ok width -> u32_ok (if sign_takes_column negative width flags then width - 1 else width).
Proof.
  unfold u32_ok, sign_takes_column. intros Hw. destruct (Z.eqb_spec width 0) as [->|Hne]; cbn [negb andb]; [lia|].
  destruct (_ || _); lia.
Qed.
Lemma pad_zeros_width negative prec width flags buf p :
  u32_ok width -> pad_zeros negative prec width flags buf = Ok p -> u32_ok p.2.
Proof.
  intros Hw. unfold pad_zeros. pose proof (sign_column_width negative width flags Hw) as Hw'.
  destruct (has flags FLAGS_LEFT); [by intros [= <-]|]. intros H. bind_inv H b1 E1. bind_inv H b2 E2.
  injection H as <-. cbn [snd]. by destruct (has flags FLAGS_ZEROPAD).
Qed.
Lemma ntoa_buf_width buf negative base prec width flags p :
  u32_ok width -> ntoa_buf buf negative base prec width flags = Ok p -> u32_ok p.2.
Proof.
  intros Hw H. unfold ntoa_buf in H. bind_inv H q E. apply pad_zeros_width in E; [|done]. destruct q as [b w'].
  bind_inv H b1 E1. bind_inv H b2 E2. by injection H as <-.
Qed.
Lemma ftoa_buf_width value prec width flags p :
  u32_ok width -> ftoa_buf value prec width flags = Ok p -> u32_ok p.2.
Proof.
  intros Hw H. unfold ftoa_buf in H. set (negative := dlt value _) in *. cbv zeta in H.
  bind_inv H q1 E1. destruct q1 as [b1 prec1]. bind_inv H whole E2. bind_inv H pw E3. bind_inv H frac E4.
  bind_inv H q2 E5. destruct q2 as [b2 whole2]. bind_inv H b3 E6. bind_inv H q3 E7.
  assert (u32_ok q3.2) as Hq.
  { destruct (negb (has flags FLAGS_LEFT) && has flags FLAGS_ZEROPAD); [|by injection E7 as <-].
    bind_inv E7 b4 E8. injection E7 as <-. by apply sign_column_width. }
  destruct q3 as [b4 w4]. bind_inv H b5 E9. by injection H as <-.
Qed.
Lemma _ntoa_long_emit value negative base prec width flags idx w t :
  u32_ok width -> ntoa_text value negative base prec width flags = Ok t ->
  _ntoa_long out maxlen value negative base prec width flags idx w = emit t idx w.
Proof.
  intros Hw. unfold ntoa_text, _ntoa_long, _ntoa_format. set (fl := if value =? 0 then _ else _). intros H.
  bind_inv H b E. rewrite E. cbn [mbind result_bind]. bind_inv H p Ep. rewrite Ep. pose proof (ntoa_buf_width _ _ _ _ _ _ _ Hw Ep) as Hw'.
  destruct p as [b' w']. cbn [mbind result_bind]. injection H as <-. by apply _out_rev_emit.
Qed.
Lemma _ntoa_long_long_emit value negative base prec width flags idx w t :
  u32_ok width -> ntoa_text value negative base prec width flags = Ok t ->
  _ntoa_long_long out maxlen value negative base prec width flags idx w = emit t idx w.
Proof. exact (_ntoa_long_emit value negative base prec width flags idx w t). Qed.
Lemma adapt_exp_minwidth value prec flags minwidth expval p :
  adapt_exp value prec flags minwidth expval = Ok p -> p.1.2 = 0 \/ p.1.2 = minwidth.
Proof.
  unfold adapt_exp. destruct (negb _); [intros [= <-]; by right|]. destruct (_ && _); [|intros [= <-]; by right].
  intros H. bind_inv H x E. injection H as <-. by left.
Qed.
Lemma etoa_with_emit ftoa ftoaT value prec width flags idx w t :
  (forall value prec width flags idx w t, u32_ok width -> ftoaT value prec width flags = Ok t ->
     ftoa value prec width flags idx w = emit t idx w) ->
  u32_ok width -> etoa_text ftoaT value prec width flags = Ok t ->
  etoa_with out maxlen ftoa value prec width flags idx w = emit t idx w.
Proof.
  intros HF Hw. unfold etoa_text, etoa_with. destruct (_ || _ || _); [by apply HF|]. cbv zeta.
  set (negative := dlt value _). set (v := if negative then _ else _). set (pr := if has flags FLAGS_PRECISION then _ else _).
  intros H. bind_inv H q E. rewrite E. cbn [mbind result_bind]. destruct q as [expval f].
  set (mw := if _ && _ then 4 else 5) in *. bind_inv H q E1. rewrite E1. cbn [mbind result_bind].
  apply adapt_exp_minwidth in E1. destruct q as [[[pr' flags'] mw'] ev']. cbn [fst snd] in E1.
  assert (mw = 4 \/ mw = 5) as Hmw0 by (unfold mw; destruct (_ && _); lia).
  assert (mw' = 0 \/ mw' = 4 \/ mw' = 5) as Hmw by lia. clearbody mw. clear E1.
  set (fw := if has flags' FLAGS_LEFT && (mw' =/? 0) then _ else _) in *.
  assert (u32_ok fw) as Hfw.
  { unfold fw, u32_ok in *. destruct (_ && _); [lia|]. destruct (Z.ltb_spec mw' width); lia. }
  bind_inv H m E2. rewrite (HF _ _ _ _ idx w _ Hfw E2). clear E2.
  destruct (Z.eqb_spec mw' 0) as [_|Hne]; cbn [negb] in *.
  { injection H as ->. by destruct (emit t idx w) as [[]|]. }
  bind_inv H e E3. injection H as <-.
  assert (u32_ok (mw' - 1)) as Hm1 by (unfold u32_ok; lia).
  set (ec := if has flags' FLAGS_UPPERCASE then _ else _).
  set (k := fun iw : Z * W => let! w := out ec iw.1 maxlen iw.2 in
     _ntoa_long out maxlen (if ev' <? 0 then - ev' else ev') (ev' <? 0) 10 0 (mw' - 1) (FLAGS_ZEROPAD .| FLAGS_PLUS) (next_idx iw.1) w).
  assert (forall i1 w1, emit (ec :: e) i1 w1 = k (i1, w1)) as Hk.
  { intros i1 w1. unfold k. symmetry. cbn [rev_loop fst snd]. destruct (out ec i1 maxlen w1) as [w2|]; [|done]. cbn [mbind result_bind].
    by apply _ntoa_long_emit. }
  destruct (has flags' FLAGS_LEFT).
  - rewrite <- pad_after_emit, emit_app by done. rewrite result_bind_assoc. destruct (emit m idx w) as [[i1 w1]|]; [|done].
    cbn [mbind result_bind]. rewrite Hk. unfold k. cbn [fst snd].
    destruct (out ec i1 maxlen w1) as [w2|]; done.
  - rewrite emit_app. destruct (emit m idx w) as [[i1 w1]|]; [|done]. cbn [mbind result_bind]. rewrite Hk.
    unfold k. cbn [fst snd]. destruct (out ec i1 maxlen w1) as [w2|]; [|done]. cbn [mbind result_bind].
    by destruct (_ntoa_long _ _ _ _ _ _ _ _ _ w2) as [[]|].
Qed.
Lemma ftoa_fuel_emit fuel value prec width flags idx w t :
  u32_ok width -> ftoa_text fuel value prec width flags = Ok t ->
  ftoa_fuel out maxlen fuel value prec width flags idx w = emit t idx w.
Proof.
  revert value prec width flags idx w t. induction fuel as [|fuel IH]; intros value prec width flags idx w t Hw; [done|].
  cbn [ftoa_text ftoa_fuel].
  destruct (dnan value); [intros [= <-]; by apply _out_rev_emit|].
  destruct (dlt value (SFopp DBL_MAX)); [intros [= <-]; by apply _out_rev_emit|].
  destruct (dlt DBL_MAX value); [intros [= <-]; by apply _out_rev_emit|].
  destruct (_ || _); [by apply etoa_with_emit|].
  intros H. bind_inv H q E. rewrite E. apply ftoa_buf_width in E; [|done]. destruct q as [b w']. cbn [mbind result_bind].
  injection H as <-. by apply _out_rev_emit.
Qed.
Lemma str_loop_emit p bounded prec idx w t :
  str_text p bounded prec = Ok t -> str_loop out maxlen p bounded prec idx w = emit t idx w.
Proof.
  revert prec idx w t. induction p as [|c p IH]; intros prec idx w t; cbn [str_text str_loop]; [done|].
  destruct (c =? 0); [by intros [= <-]|]. destruct (_ && _); [by intros [= <-]|]. intros H. bind_inv H t' E. injection H as <-.
  cbn [rev_loop]. destruct (out c idx maxlen w); [|done]. by apply IH.
Qed.
Lemma around_emit (left : bool) l width t idx w (body : Z -> W -> result (Z * W)) :
  0 <= l -> u32_ok width -> (forall idx w, body idx w = emit t idx w) ->
  (let! (idx, w) := if left then Ok (idx, w) else pad_while out maxlen (pad_fuel width) l width idx w in
   let! (idx, w) := body idx w in
   if left then pad_while out maxlen (pad_fuel width) l width idx w else Ok (idx, w))
  = emit (around left (spaces (width - l)) t) idx w.
Proof.
  intros Hl Hw Hb. unfold around. destruct left; cbn [mbind result_bind]; rewrite emit_app.
  - rewrite Hb. destruct (emit t idx w) as [[i1 w1]|]; [|done]. by apply pad_while_emit; [..|apply pad_fuel_ok].
  - rewrite pad_while_emit by (done || by apply pad_fuel_ok). destruct (emit (spaces _) idx w) as [[i1 w1]|]; [|done].
    cbn [mbind result_bind]. rewrite Hb. by destruct (emit t i1 w1) as [[]|].
Qed.
Lemma strnlen_nonneg p n m k : 0 <= n -> strnlen_loop n m p = Ok k -> 0 <= k.
Proof.
  revert n m. induction p as [|c p IH]; intros n m Hn; cbn [strnlen_loop]; [done|].
  destruct (c =? 0); [by intros [= <-]|]. destruct (m =? 0); [by intros [= <-]|]. apply IH. lia.
Qed.
(** What a conversion consumes and emits, against its text. *)
Abbreviation emits t va r idx w := (r = let! (idx', w') := emit t idx w in Ok (idx', va, w')).
Lemma conv_int_emit sp va t va' idx w :
  u32_ok (sp_width sp) ->
  (let flags := int_flags (sp_flags sp) (sp_conv sp) in
   let! (v, negative, va) := int_arg flags (sp_conv sp) va in
   let! t := ntoa_text v negative (int_base (sp_conv sp)) (sp_prec sp) (sp_width sp) flags in Ok (t, va)) = Ok (t, va') ->
  emits t va' (conv_int out maxlen sp va idx w) idx w.
Proof.
  intros Hw. unfold conv_int. cbv zeta. set (flags := int_flags _ _). intros H. bind_inv H q E.
  destruct q as [[v negative] va1]. bind_inv H t1 E1. injection H as <- <-. revert E. unfold int_arg.
  destruct (is_signed_conv _), (has flags FLAGS_LONG_LONG), (has flags FLAGS_LONG); intros E; bind_inv E q E2;
    rewrite E2; destruct q as [v0 va2]; cbn [mbind result_bind]; try (bind_inv E m E3; rewrite E3; cbn [mbind result_bind]);
    injection E as <- <- <-;
    erewrite ?_ntoa_long_long_emit, ?_ntoa_long_emit by eassumption; done.
Qed.
Lemma conv_char_emit sp va v va' idx w :
  u32_ok (sp_width sp) -> va_int va = Ok (v, va') ->
  emits (around (has (sp_flags sp) FLAGS_LEFT) (spaces (sp_width sp - 1)) [to_char v]) va' (conv_char out maxlen sp va idx w) idx w.
Proof.
  intros Hw E. unfold conv_char. cbv zeta. rewrite E. cbn [mbind result_bind].
  rewrite <- (around_emit _ 1 (sp_width sp) [to_char v] idx w (fun idx w => let! w := out (to_char v) idx maxlen w in Ok (next_idx idx, w)))
    by (done || lia).
  rewrite !result_bind_assoc. destruct (if has _ _ then _ else _) as [[i1 w1]|]; [|done]. cbn [mbind result_bind].
  rewrite !result_bind_assoc. destruct (out (to_char v) i1 maxlen w1) as [w2|]; done.
Qed.
Lemma conv_str_emit sp va addr p va' l t idx w :
  u32_ok (sp_width sp) -> u32_ok (sp_prec sp) -> va_ptr va = Ok (addr, p, va') ->
  _strnlen_s p (if sp_prec sp =/? 0 then sp_prec sp else 2 ^ size_w - 1) = Ok l ->
  str_text p (has (sp_flags sp) FLAGS_PRECISION) (sp_prec sp) = Ok t ->
  emits (around (has (sp_flags sp) FLAGS_LEFT)
    (spaces (sp_width sp - (if has (sp_flags sp) FLAGS_PRECISION then (if l <? sp_prec sp then l else sp_prec sp) else l))) t) va'
    (conv_str out maxlen sp va idx w) idx w.
Proof.
  intros Hw Hp E El Et. unfold conv_str. cbv zeta. rewrite E. cbn [mbind result_bind]. rewrite El. cbn [mbind result_bind].
  set (l' := if has _ FLAGS_PRECISION then _ else l).
  assert (0 <= l') as Hl.
  { unfold _strnlen_s in El. bind_inv El k Ek. injection El as <-. pose proof (u32_range k). unfold u32_ok, l' in *.
    destruct (has _ _); [|lia]. destruct (_ <? _); lia. }
  rewrite <- (around_emit _ l' (sp_width sp) t idx w (str_loop out maxlen p (has (sp_flags sp) FLAGS_PRECISION) (sp_prec sp)))
    by (done || by intros; apply str_loop_emit).
  rewrite !result_bind_assoc. destruct (if has (sp_flags sp) FLAGS_LEFT then Ok _ else _) as [[i1 w1]|]; [|done]. cbn [mbind result_bind].
  rewrite !result_bind_assoc. by destruct (str_loop _ _ _ _ _ i1 w1) as [[i2 w2]|].
Qed.
Lemma convert_emit sp va t va' idx w :
  u32_ok (sp_width sp) -> u32_ok (sp_prec sp) -> convert_text sp va = Ok (t, va') ->
  emits t va' (convert out maxlen sp va idx w) idx w.
Proof.
  intros Hw Hp. unfold convert_text, convert. cbv zeta.
  destruct (_ || (sp_conv sp =? "b"%ch)); [by apply conv_int_emit|].
  destruct (_ || (sp_conv sp =? "F"%ch)).
  { intros H. unfold conv_fixed. bind_inv H q E. rewrite E. destruct q as [d va1]. bind_inv H t1 E1. injection H as -> ->.
    cbn [mbind result_bind]. unfold _ftoa. by rewrite (ftoa_fuel_emit _ _ _ _ _ _ _ _ Hw E1). }
  destruct (_ || (sp_conv sp =? "G"%ch)).
  { intros H. unfold conv_exp. bind_inv H q E. rewrite E. destruct q as [d va1]. bind_inv H t1 E1. injection H as -> ->.
    cbn [mbind result_bind]. unfold _etoa, _ftoa. rewrite (etoa_with_emit _ _ _ _ _ _ _ _ _ (ftoa_fuel_emit FLOAT_FUEL) Hw E1). done. }
  destruct (sp_conv sp =? "c"%ch).
  { intros H. bind_inv H q E. destruct q as [v va1]. injection H as <- <-. by apply conv_char_emit. }
  destruct (sp_conv sp =? "s"%ch).
  { intros H. bind_inv H q E. destruct q as [[addr p] va1]. bind_inv H l E1. bind_inv H t1 E2. injection H as <- <-.
    by eapply conv_str_emit. }
  destruct (sp_conv sp =? "p"%ch).
  { intros H. unfold conv_ptr. bind_inv H q E. rewrite E. destruct q as [[addr p] va1]. bind_inv H t1 E1. injection H as -> ->.
    cbn [mbind result_bind]. assert (u32_ok (ptr_w / 8 * 2)) by (destruct ptr_ok as [-> | ->]; done).
    destruct (ptr_w =? 64); erewrite ?_ntoa_long_long_emit, ?_ntoa_long_emit by eassumption; done. }
  intros [= <- <-]. cbn [rev_loop]. by destruct (out (sp_conv sp) idx maxlen w).
Qed.
Lemma format_loop_emit fuel format va idx w t :
  render_loop fuel format va = Ok t -> format_loop out maxlen fuel format va idx w = emit t idx w.
Proof.
  revert format va idx w t. induction fuel as [|fuel IH]; intros format va idx w t; cbn [render_loop format_loop]; [done|].
  intros H. bind_inv H c E. rewrite E. cbn [mbind result_bind].
  destruct (c =? 0); [by injection H as <-|]. destruct (c =/? "%"%ch).
  - bind_inv H t1 E1. injection H as <-. cbn [rev_loop]. destruct (out c idx maxlen w); [|done]. by apply IH.
  - bind_inv H q E1. rewrite E1. destruct q as [[sp f1] va1]. apply parse_spec_range in E1 as [Hw Hp]. cbn [mbind result_bind].
    bind_inv H q E2. destruct q as [t1 va2]. bind_inv H t2 E3. injection H as <-.
    rewrite (convert_emit _ _ _ _ _ _ Hw Hp E2), emit_app, !result_bind_assoc.
    destruct (emit t1 idx w) as [[i1 w1]|]; [|done]. by apply IH.
Qed.
End refine.

(** The index after the text, and the value returned. *)
Lemma emit_end `{Abi} {W} (out : out_fct_type (W := W)) maxlen l w idx' w' :
  rev_loop out maxlen l 0 w = Ok (idx', w') -> len l < 2 ^ size_w -> idx' = len l.
Proof.
  intros E Hl. pose proof size_bound as [_ Hs]. pose proof (len_nonneg l).
  assert (forall i, 0 <= i < 2 ^ size_w -> rev_loop out maxlen l i w = Ok (idx', w') -> 0 <= idx' < 2 ^ size_w) as Hr.
  { clear E Hl H0. revert w. induction l as [|c l IH]; intros w i Hi; cbn [rev_loop]; [by intros [= <- _]|].
    destruct (out c i maxlen w); [|done]. apply IH. apply wrapu_range. lia. }
  specialize (Hr 0 ltac:(lia) E). pose proof (emit_idx out maxlen _ _ _ _ _ 0 E) as Hi.
  rewrite !wrapu_id in Hi by (unfold in_u; lia). lia.
Qed.
Theorem vsnprintf_refines_render `{Abi} {W} (out : out_fct_type (W := W)) maxlen format va t w :
  render format va = Ok t -> len t < 2 ^ size_w ->
  _vsnprintf out false maxlen format va w =
    (let! (_, w) := rev_loop out maxlen t 0 w in
     let! w := out 0 (if len t <? maxlen then len t else wrapu size_w (maxlen - 1)) maxlen w in Ok (s32 (len t), w)).
Proof.
  intros E Hl. unfold _vsnprintf. rewrite (format_loop_emit _ _ _ _ _ _ _ _ E).
  destruct (rev_loop out maxlen t 0 w) as [[i w1]|] eqn:Er; [|done]. cbn [mbind result_bind].
  by rewrite (emit_end _ _ _ _ _ _ Er Hl).
Qed.

(** ** Buffers *)
Section buffer.
Context {abi : Abi}.
Lemma next_small i : 0 <= i -> i + 1 < 2 ^ size_w -> next_idx i = i + 1.
Proof. intros ? ?. unfold next_idx. apply wrapu_id. by split; [lia|]. Qed.
Lemma out_buffer_here c maxlen pre rest :
  len pre < maxlen <= len (pre ++ rest) ->
  _out_buffer c (len pre) maxlen (pre ++ rest) = Ok (pre ++ c :: tail rest).
Proof.
  intros [Hlt Hle]. rewrite len_app in Hle. unfold _out_buffer. destruct (Z.ltb_spec (len pre) maxlen); [|lia].
  destruct rest as [|x rest]; [unfold len in *; cbn in Hle; lia|].
  destruct (Z.ltb_spec (len pre) (Z.of_nat (length (pre ++ x :: rest)))) as [_|Hge]; [|change (len (pre ++ x :: rest) <= len pre) in Hge; rewrite len_app, len_cons in Hge; pose proof (len_nonneg rest); lia].
  unfold len. rewrite Nat2Z.id, insert_app_r_alt, Nat.sub_diag by lia. done.
Qed.
Lemma emit_buffer maxlen l pre rest :
  len pre + len l <= maxlen <= len (pre ++ rest) -> len pre + len l < 2 ^ size_w ->
  rev_loop _out_buffer maxlen l (len pre) (pre ++ rest) = Ok (len (pre ++ l), pre ++ l ++ drop (length l) rest).
Proof.
  revert pre rest. induction l as [|c l IH]; intros pre rest Hm Hs; cbn [rev_loop app length].
  - by rewrite drop_0, app_nil_r.
  - rewrite len_cons in *. pose proof (len_nonneg l). pose proof (len_nonneg pre).
    rewrite out_buffer_here by lia. cbn [mbind result_bind]. rewrite next_small by lia.
    replace (len pre + 1) with (len (pre ++ [c])) by (rewrite len_app; done).
    replace (pre ++ c :: tail rest) with ((pre ++ [c]) ++ tail rest) by (by rewrite <- app_assoc).
    rewrite len_app in Hm. destruct rest as [|x rest]; [unfold len in Hm; cbn in Hm; lia|]. rewrite len_cons in Hm. cbn [tail].
    rewrite IH; [by rewrite <- !app_assoc| |]; rewrite !len_app; change (len [c]) with 1; lia.
Qed.
Lemma out_buffer_past c idx maxlen b : maxlen <= idx -> _out_buffer c idx maxlen b = Ok b.
Proof. intros ?. unfold _out_buffer. by destruct (Z.ltb_spec idx maxlen); [lia|]. Qed.
Lemma emit_buffer_past maxlen l idx b :
  0 <= maxlen <= idx -> idx + len l < 2 ^ size_w -> rev_loop _out_buffer maxlen l idx b = Ok (idx + len l, b).
Proof.
  revert idx. induction l as [|c l IH]; intros idx Hm Hs; cbn [rev_loop].
  - do 2 f_equal. unfold len. cbn. lia.
  - rewrite len_cons in *. pose proof (len_nonneg l). rewrite out_buffer_past by lia.
    cbn [mbind result_bind]. rewrite next_small, IH by lia. do 2 f_equal. lia.
Qed.
End buffer.

Lemma tail_drop (l : list Z) n : tail (drop n l) = drop (S n) l.
Proof. revert n. induction l as [|x l IH]; intros [|n]; cbn; [done..|apply IH]. Qed.
(** What [snprintf] leaves in a buffer: the text cut to [count - 1], a zero, the rest as it was. *)
Definition printed (count : Z) (t b : list Z) : list Z :=
  if count =? 0 then b else
  let n := Nat.min (length t) (Z.to_nat (count - 1)) in take n t ++ 0 :: drop (S n) b.
Lemma vsnprintf_buffer `{Abi} format va t count b :
  render format va = Ok t -> len t < 2 ^ 31 -> 0 <= count <= len b -> count < 2 ^ size_w ->
  vsnprintf_ (Some b) count format va = Ok (len t, Some (printed count t b)).
Proof.
  intros E Hl Hc Hcs. pose proof size_bound as [Hb _]. pose proof (len_nonneg t).
  unfold vsnprintf_. rewrite (vsnprintf_refines_render _ _ _ _ _ _ E) by lia. unfold printed.
  rewrite wraps_id by (lia || unfold in_s; lia).
  destruct (Z.le_gt_cases count (len t)) as [Hle|Hgt].
  - rewrite <- (take_drop (Z.to_nat count) t) at 1. rewrite emit_app.
    assert (len (take (Z.to_nat count) t) = count) as Ht by (unfold len in *; rewrite length_take; lia).
    rewrite (emit_buffer count (take (Z.to_nat count) t) [] b) by (rewrite ?Ht; unfold len at 1; cbn [app length]; lia).
    cbn [mbind result_bind app]. rewrite Ht, emit_buffer_past by (unfold len in *; rewrite ?length_drop; lia).
    cbn [mbind result_bind]. destruct (Z.ltb_spec (len t) count); [lia|].
    destruct (Z.eqb_spec count 0) as [->|Hne].
    + rewrite out_buffer_past; [done|]. apply wrapu_nonneg. pose proof size_bound. lia.
    + rewrite wrapu_id by (unfold in_u; lia). set (n := Z.to_nat (count - 1)). replace (Nat.min (length t) n) with n by (unfold len, n in *; lia).
      replace (Z.to_nat count) with (S n) by lia.
      assert (len (take n t) = count - 1) as Hn by (unfold len, n in *; rewrite length_take; lia).
      destruct (lookup_lt_is_Some_2 t n) as [x Hx]; [unfold len, n in *; lia|]. rewrite (take_S_r _ _ _ Hx), length_app, length_take. 
      replace (Nat.min n (length t) + length [x])%nat with (S n) by (cbn [length]; unfold len, n in *; lia).
      rewrite <- Hn, <- app_assoc. rewrite out_buffer_here by (rewrite !len_app; change (len [x]) with 1; unfold len in *; rewrite length_drop; lia). done.
  - rewrite (emit_buffer count t [] b) by (unfold len at 1; cbn [app length]; lia). cbn [mbind result_bind app].
    destruct (Z.ltb_spec (len t) count); [|lia]. destruct (Z.eqb_spec count 0); [lia|].
    replace (Nat.min _ _) with (length t) by (unfold len in *; lia). rewrite take_ge by lia.
    rewrite out_buffer_here by (rewrite len_app; unfold len in *; rewrite length_drop; lia). cbn [mbind result_bind].
    by rewrite tail_drop.
Qed.

(** ** Callbacks and the putchar FIFO *)
Fixpoint calls {W} (fct : Z -> W -> result W) (l : list Z) (w : W) : result W :=
  match l with [] => Ok w | c :: l => let! w := fct c w in calls fct l w end.
Definition nonzero (t : list Z) : list Z := filter (fun c => c <> 0) t.
Lemma emit_calls `{Abi} {W} (fct : Z -> W -> result W) maxlen t idx w :
  (let! (_, w) := rev_loop (_out_fct fct) maxlen t idx w in Ok w) = calls fct (nonzero t) w.
Proof.
  revert idx w. induction t as [|c t IH]; intros idx w; [done|]. cbn [rev_loop].
  change (_out_fct fct c idx maxlen w) with (if c =/? 0 then fct c w else Ok w). unfold nonzero in *. rewrite filter_cons. destruct (Z.eqb_spec c 0) as [->|Hne]; cbn [negb].
  - rewrite decide_False by (intros Hn; by apply Hn). cbn [mbind result_bind]. apply IH.
  - rewrite decide_True by done. cbn [calls]. rewrite !result_bind_assoc. destruct (fct c w); [apply IH|done].
Qed.
(** A callback gets exactly the non-zero characters of the text, in order. *)
Lemma fctprintf_calls `{Abi} {W} (fct : Z -> W -> result W) format va t w :
  render format va = Ok t -> len t < 2 ^ size_w ->
  fctprintf fct format va w = (let! w := calls fct (nonzero t) w in Ok (s32 (len t), w)).
Proof.
  intros E Hl. unfold fctprintf. rewrite (vsnprintf_refines_render _ _ _ _ _ _ E Hl), <- (emit_calls fct (2 ^ size_w - 1) t 0).
  rewrite !result_bind_assoc. by destruct (rev_loop _ _ t 0 w) as [[]|].
Qed.

(** What the FIFO of CP0 register 7 promises its writer: the flag it reads goes
    away, and a character written while the flag is clear is appended. *)
Class FifoLaws (W : Type) `{Platform W} := {
  fifo_out : W -> list Z;
  fifo_wait : W -> nat;
  fifo_ready : W -> Prop;
  fifo_patience : nat;
  fifo_bound : forall w, (fifo_wait w <= fifo_patience)%nat;
  law_poll : forall w, exists t w', mfc0_7 w = Ok (t, w') /\ fifo_out w' = fifo_out w /\
    (t = 0 -> fifo_ready w') /\ (t <> 0 -> (fifo_wait w' < fifo_wait w)%nat);
  law_put : forall c w, fifo_ready w -> exists w', mtc0_7 c w = Ok w' /\ fifo_out w' = fifo_out w ++ [c];
}.
Section fifo.
Context {abi : Abi} `{FifoLaws W}.
Lemma poll_fifo_ok fuel w : (fifo_wait w < fuel)%nat ->
  exists w', poll_fifo fuel w = Ok w' /\ fifo_ready w' /\ fifo_out w' = fifo_out w.
Proof.
  revert w. induction fuel as [|fuel IH]; intros w Hf; [lia|]. cbn [poll_fifo].
  destruct (law_poll w) as (t & w1 & -> & Ho & Hr & Hw). cbn [mbind result_bind]. destruct (Z.eqb_spec t 0) as [Ht|Ht].
  - exists w1. auto.
  - destruct (IH w1) as (w2 & -> & Hr2 & Ho2); [specialize (Hw Ht); lia|]. exists w2. by rewrite Ho2.
Qed.
Lemma put_ok fuel c w : (fifo_patience < fuel)%nat ->
  exists w', (let! w := poll_fifo fuel w in mtc0_7 c w) = Ok w' /\ fifo_out w' = fifo_out w ++ [c].
Proof.
  intros Hf. destruct (poll_fifo_ok fuel w) as (w1 & -> & Hr & Ho); [pose proof (fifo_bound w); lia|].
  destruct (law_put c w1 Hr) as (w2 & E & Ho2). exists w2. cbn [mbind result_bind]. by rewrite E, Ho2, Ho.
Qed.
Lemma calls_fifo fuel l w : (fifo_patience < fuel)%nat ->
  exists w', calls (fun c w => let! w := poll_fifo fuel w in mtc0_7 c w) l w = Ok w' /\ fifo_out w' = fifo_out w ++ l.
Proof.
  intros Hf. revert w. induction l as [|c l IH]; intros w; cbn [calls]; [exists w; by rewrite app_nil_r|].
  destruct (put_ok fuel c w Hf) as (w1 & -> & Ho). cbn [mbind result_bind]. destruct (IH w1) as (w2 & -> & Ho2).
  exists w2. by rewrite Ho2, Ho, <- app_assoc.
Qed.
(** [printf_] ends and the console has received exactly the characters of the
    text, in order, less zero bytes; the value returned is the length of the text. *)
Theorem printf_reaches_console fuel format va t w :
  (fifo_patience < fuel)%nat -> render format va = Ok t -> len t < 2 ^ 31 ->
  exists w', printf_ fuel format va w = Ok (len t, w') /\ fifo_out w' = fifo_out w ++ nonzero t.
Proof.
  intros Hf E Hl. destruct (calls_fifo fuel (nonzero t) w Hf) as (w' & Ec & Ho). exists w'. split; [|done].
  pose proof size_bound as [Hs _]. pose proof (len_nonneg t).
  change (fctprintf (fun c w => let! w := poll_fifo fuel w in mtc0_7 c w) format va w = Ok (len t, w')).
  rewrite (fctprintf_calls _ _ _ _ _ E), Ec by lia. cbn [mbind result_bind]. by rewrite wraps_id by (lia || unfold in_s; lia).
Qed.
End fifo.

Lemma emit_null `{Abi} {W} maxlen t idx (w : W) : exists i, rev_loop _out_null maxlen t idx w = Ok (i, w).
Proof. revert idx. induction t as [|c t IH]; intros idx; [by exists idx|]. apply IH. Qed.
(** C31. [snprintf_] implements the renderer: it returns the length of the whole text;
    a buffer of [count] bytes gets the text cut to [count - 1] characters and a zero, and
    nothing past them is written; a count of zero or a null buffer writes nothing. *)
Theorem snprintf_refines_render `{Abi} format va t :
  render format va = Ok t -> len t < 2 ^ 31 ->
  (forall count, snprintf_ None count format va = Ok (len t, None)) /\
  (forall count b, 0 <= count <= len b -> count < 2 ^ size_w ->
     snprintf_ (Some b) count format va = Ok (len t, Some (printed count t b)) /\
     drop (Z.to_nat count) (printed count t b) = drop (Z.to_nat count) b).
Proof.
  intros E Hl. pose proof (len_nonneg t) as Ht. pose proof size_bound as [Hs _]. split.
  - intros count. unfold snprintf_, vsnprintf_. change (_vsnprintf _out_buffer true count format va []) with (_vsnprintf _out_null false count format va ([] : list Z)).
    rewrite (vsnprintf_refines_render _ _ _ _ _ _ E) by lia. destruct (emit_null (W := list Z) count t 0 []) as (i & ->).
    cbn [mbind result_bind _out_null]. by rewrite wraps_id by (lia || unfold in_s; lia).
  - intros count b Hc Hcs. split; [by apply vsnprintf_buffer|]. unfold printed. destruct (Z.eqb_spec count 0); [done|].
    set (k := Nat.min _ _). assert (length (take k t ++ [0]) = S k) as Hlen by (rewrite length_app, length_take; cbn [length]; lia).
    change (take k t ++ 0 :: drop (S k) b) with (take k t ++ [0] ++ drop (S k) b). rewrite app_assoc.
    rewrite drop_app_ge by lia. rewrite drop_drop. f_equal. lia.
Qed.

(** ** Concrete inputs *)
(** A FIFO that is busy for up to three polls after each character. *)
Definition slow_fifo : Type := nat * list Z.
#[export] Instance slow_fifo_platform : Platform slow_fifo := {|
  load8 _ _ := Stop HostUB; load32 _ _ := Stop HostUB; store8 _ _ _ := Stop HostUB;
  store16 _ _ _ := Stop HostUB; store32 _ _ _ := Stop HostUB;
  mfc0_7 w := match w.1 with O => Ok (0, w) | S n => Ok (1, (Nat.min n 2, w.2)) end;
  mtc0_7 c w := match w.1 with O => Ok (3%nat, w.2 ++ [c]) | _ => Ok w end;
|}.
#[export, refine] Instance slow_fifo_laws : FifoLaws slow_fifo := {|
  fifo_out := snd; fifo_wait w := Nat.min w.1 3; fifo_ready w := w.1 = O; fifo_patience := 3 |}.
Proof.
  - intros w. lia.
  - intros [[|n] l]; cbn; eexists _, _; (split; [done|]); cbn; split_and!; try done; lia.
  - intros c [n l] E. cbn in E. subst n. by eexists.
Defined.
Section witnesses.
#[local] Existing Instance n64_abi.
Definition fmt_hello : list Z := ["h"; "i"; " "; "%"; "s"; " "; "%"; "0"; "4"; "d"]%ch ++ [10; 0].
Definition va_hello : list arg := [A_ptr 0x1000 (["g"; "u"; "y"]%ch ++ [0]); A_int 42].
Definition txt_hello : list Z := ["h"; "i"; " "; "g"; "u"; "y"; " "; "0"; "0"; "4"; "2"]%ch ++ [10].
Lemma printf_reaches_console_witness :
  exists w', printf_ (W := slow_fifo) 4 fmt_hello va_hello (2%nat, []) = Ok (12, w') /\ w'.2 = txt_hello.
Proof.
  destruct (printf_reaches_console (W := slow_fifo) 4 fmt_hello va_hello txt_hello (2%nat, [])) as (w' & E & Ho);
    [cbn; lia|vm_compute; reflexivity|vm_compute; reflexivity|].
  exists w'. split; [exact E|]. etransitivity; [exact Ho|]. vm_compute. reflexivity.
Defined.
Lemma snprintf_refines_render_witness :
  snprintf_ None 5 fmt_hello va_hello = Ok (12, None) /\
  snprintf_ (Some [9; 9; 9; 9; 9; 9]) 5 fmt_hello va_hello = Ok (12, Some (["h"; "i"; " "; "g"]%ch ++ [0; 9])).
Proof.
  destruct (snprintf_refines_render fmt_hello va_hello txt_hello) as [H1 H2]; [vm_compute; reflexivity|vm_compute; reflexivity|].
  split; [apply H1|]. apply (H2 5 [9; 9; 9; 9; 9; 9]); vm_compute; (split; congruence) || reflexivity.
Defined.
End witnesses.
