(* ===== verification/PrintfNum.v ===== *)
(** The numbers of the formatted output: the conversion buffer is never overrun,
    integers read back from their text, whole doubles print exactly, and where the
    output departs from ISO C. *)
From Stdlib Require Import SpecFloat.
From S2P Require Import Prelude Bits Fp Doubles Firmware Printf PrintfProps.

(** ** Flag sets *)
Lemma has_bit flags k : 0 <= k -> has flags (1 << k) = Z.testbit flags k.
Proof.
  intros Hk. unfold has. rewrite Z.shiftl_1_l. destruct (Z.testbit flags k) eqn:E.
  - apply negb_true_iff, Z.eqb_neq. intros Hz. apply (f_equal (fun x => Z.testbit x k)) in Hz.
    by rewrite Z.land_spec, Z.pow2_bits_true, E, Z.bits_0 in Hz by done.
  - apply negb_false_iff, Z.eqb_eq, Z.bits_inj_0. intros n. rewrite Z.land_spec.
    destruct (Z.eq_dec n k) as [->|]; [by rewrite E|]. rewrite Z.pow2_bits_false by lia. apply andb_false_r.
Qed.

Lemma without_other flags f k : 0 <= k -> Z.testbit f k = false -> has (without flags f) (1 << k) = has flags (1 << k).
Proof.
  intros Hk Hf. rewrite !has_bit by done. unfold without. rewrite Z.land_spec, Z.lnot_spec, Hf by done. apply andb_true_r.
Qed.

(** ** The conversion buffer *)
Definition fits32 (buf : list Z) : Prop := len buf <= 32.
Lemma push_ok c buf : len buf < 32 -> push c buf = Ok (c :: buf).
Proof. intros ?. unfold push. by destruct (Z.ltb_spec (len buf) 32); [|lia]. Qed.
Lemma push_fits c buf : len buf < 32 -> fits32 (c :: buf).
Proof. unfold fits32. rewrite len_cons. lia. Qed.
(** The zeros [zeros_while] adds. *)
Definition zeros (n : Z) : list Z := replicate (Z.to_nat n) "0"%ch.
Lemma zeros_snoc n buf : 0 < n -> zeros n ++ buf = zeros (n - 1) ++ "0"%ch :: buf.
Proof.
  intros Hn. unfold zeros. replace (Z.to_nat n) with (S (Z.to_nat (n - 1))) by lia.
  by rewrite replicate_S_end, <- app_assoc.
Qed.
Lemma zeros_nil n : n <= 0 -> zeros n = [].
Proof. intros ?. unfold zeros. by replace (Z.to_nat n) with O by lia. Qed.
Lemma len_zeros n : 0 <= n -> len (zeros n) = n.
Proof. intros ?. unfold zeros. rewrite len_replicate. lia. Qed.
Lemma zeros_while_eq fuel lim buf :
  fits32 buf -> 32 - len buf < Z.of_nat fuel -> zeros_while fuel lim buf = Ok (zeros (Z.min lim 32 - len buf) ++ buf).
Proof.
  unfold fits32. revert buf. induction fuel as [|fuel IH]; intros buf Hb Hf; [lia|]. cbn [zeros_while].
  destruct (Z.ltb_spec (len buf) lim) as [?|?]; cbn [andb]; [|by rewrite zeros_nil by lia].
  destruct (Z.ltb_spec (len buf) 32) as [?|?]; [|by rewrite zeros_nil by lia].
  rewrite push_ok by done. cbn [mbind result_bind]. rewrite IH by (rewrite len_cons; lia).
  rewrite (zeros_snoc (_ - len buf)) by lia. rewrite len_cons. do 3 f_equal. lia.
Qed.
Lemma zeros_while_ok lim buf : fits32 buf -> zeros_while BUF_FUEL lim buf = Ok (zeros (Z.min lim 32 - len buf) ++ buf).
Proof. intros ?. apply zeros_while_eq; [done|]. unfold BUF_FUEL. pose proof (len_nonneg buf). lia. Qed.
Lemma zeros_fits lim buf : fits32 buf -> fits32 (zeros (Z.min lim 32 - len buf) ++ buf).
Proof.
  unfold fits32. intros Hb. rewrite len_app. destruct (Z.le_gt_cases 0 (Z.min lim 32 - len buf)); [rewrite len_zeros by done|rewrite zeros_nil by lia; change (len []) with 0]; lia.
Qed.
Lemma push_sign_ok negative flags buf : fits32 buf -> exists buf', push_sign negative flags 32 buf = Ok buf' /\ fits32 buf'.
Proof.
  intros Hb. unfold push_sign. destruct (Z.ltb_spec (len buf) 32) as [Hlt|_]; [|by exists buf].
  destruct negative; [|destruct (has flags FLAGS_PLUS); [|destruct (has flags FLAGS_SPACE); [|by exists buf]]];
    rewrite push_ok by done; eexists; (split; [done|by apply push_fits]).
Qed.
Lemma pad_zeros_ok negative prec width flags buf :
  fits32 buf -> exists p, pad_zeros negative prec width flags buf = Ok p /\ fits32 p.1.
Proof.
  intros Hb. unfold pad_zeros. destruct (has flags FLAGS_LEFT); [by exists (buf, width)|].
  rewrite zeros_while_ok by done. cbn [mbind result_bind]. pose proof (zeros_fits prec buf Hb) as Hb1. revert Hb1.
  generalize (zeros (Z.min prec 32 - len buf) ++ buf) as b1. intros b1 Hb1. destruct (has flags FLAGS_ZEROPAD).
  - rewrite zeros_while_ok by done. eexists. split; [done|]. by apply zeros_fits.
  - by eexists.
Qed.
Lemma tail_fits buf : fits32 buf -> fits32 (tail buf).
Proof. unfold fits32. destruct buf as [|c buf]; cbn [tail]; [done|]. rewrite len_cons. lia. Qed.
Lemma hash_prefix_ok base prec width flags buf :
  fits32 buf -> exists buf', hash_stage base prec width flags buf = Ok buf' /\ fits32 buf'.
Proof.
  intros Hb. unfold hash_stage. destruct (negb _); [by exists buf|]. set (b1 := if negb (has flags FLAGS_PRECISION) && _ && _ then _ else _).
  assert (fits32 b1) as Hb1.
  { unfold b1. destruct (_ && _ && _); [|done]. destruct (_ && (base =? 16)); auto using tail_fits. }
  clearbody b1. assert (forall b, fits32 b -> exists q, (if len b <? NTOA_SIZE then push "0"%ch b else Ok b) = Ok q /\ fits32 q) as Hk.
  { intros b Hfb. unfold NTOA_SIZE. destruct (Z.ltb_spec (len b) 32); [|by exists b]. rewrite push_ok by done. eexists. split; [done|by apply push_fits]. }
  unfold NTOA_SIZE in *. destruct (base =? 16), (has flags FLAGS_UPPERCASE), (base =? 2), (Z.ltb_spec (len b1) 32);
    cbn [andb negb]; try (rewrite push_ok by done); cbn [mbind result_bind]; apply Hk; auto using push_fits.
Qed.
Lemma ntoa_buf_ok buf negative base prec width flags :
  fits32 buf -> exists p, ntoa_buf buf negative base prec width flags = Ok p /\ fits32 p.1.
Proof.
  intros Hb. unfold ntoa_buf. destruct (pad_zeros_ok negative prec width flags buf Hb) as ([b1 w1] & -> & Hb1). cbn [mbind result_bind].
  destruct (hash_prefix_ok base prec w1 flags b1 Hb1) as (b2 & -> & Hb2). cbn [mbind result_bind].
  destruct (push_sign_ok negative flags b2 Hb2) as (b3 & E & Hb3). unfold NTOA_SIZE. rewrite E. by exists (b3, w1).
Qed.
Lemma digits_loop_ok fuel flags base v buf :
  base <> 0 -> len buf < 32 -> 32 - len buf <= Z.of_nat fuel -> exists buf', digits_loop fuel flags base v buf = Ok buf' /\ fits32 buf'.
Proof.
  intros Hbase. revert v buf. induction fuel as [|fuel IH]; intros v buf Hb Hf; [lia|]. cbn [digits_loop].
  rewrite (proj2 (Z.eqb_neq base 0)), push_ok by done. cbn [mbind result_bind]. unfold NTOA_SIZE. destruct (_ =/? 0); cbn [andb].
  - destruct (Z.ltb_spec (len (digit_char flags (v mod base) :: buf)) 32); [apply IH; rewrite ?len_cons in *; lia|].
    eexists. split; [done|by apply push_fits].
  - eexists. split; [done|by apply push_fits].
Qed.
Lemma integer_buffer_ok `{Abi} value negative base prec width flags : base <> 0 ->
  exists buf width', ntoa_text value negative base prec width flags =
    Ok (rev_text buf width' (if value =? 0 then without flags FLAGS_HASH else flags)) /\ len buf <= 32 /\
    (width' = width \/ width' = width - 1).
Proof.
  intros Hbase. unfold ntoa_text. set (fl := if value =? 0 then _ else _). set (m := if negb _ || _ then _ else _).
  assert (exists b, m = Ok b /\ fits32 b) as (b & -> & Hb).
  { unfold m. destruct (_ || _); [|by exists []]. by apply digits_loop_ok. }
  cbn [mbind result_bind]. destruct (ntoa_buf_ok b negative (u32 base) prec width fl Hb) as ([b' w'] & E & Hb').
  exists b', w'. rewrite E. split; [done|]. split; [done|]. clear -E. unfold ntoa_buf in E. bind_inv E q E1. destruct q as [b1 w1].
  bind_inv E b2 E2. bind_inv E b3 E3. injection E as _ <-. unfold pad_zeros in E1. destruct (has fl FLAGS_LEFT); [injection E1 as _ <-; auto|].
  bind_inv E1 b4 E4. bind_inv E1 b5 E5. injection E1 as _ <-. destruct (_ && _); auto.
Qed.
(** C34. The integer conversions end and never leave their 32-byte buffer: for every
    value, sign, base other than zero, precision, width and set of flags what goes out
    is a text of at most 32 characters and its padding.  With base zero the first digit
    is a division by zero, unless a precision and a value of zero leave no digits. *)
Theorem integer_buffer_safe `{Abi} {W} (out : out_fct_type (W := W)) maxlen value negative base prec width flags idx w :
  u32_ok width ->
  (base <> 0 ->
   exists buf width', len buf <= 32 /\
     let t := rev_text buf width' (if value =? 0 then without flags FLAGS_HASH else flags) in
     _ntoa_long out maxlen value negative base prec width flags idx w = rev_loop out maxlen t idx w /\
     _ntoa_long_long out maxlen value negative base prec width flags idx w = rev_loop out maxlen t idx w) /\
  (base = 0 -> has flags FLAGS_PRECISION = false \/ value <> 0 ->
   _ntoa_long out maxlen value negative base prec width flags idx w = Stop HostUB /\
   _ntoa_long_long out maxlen value negative base prec width flags idx w = Stop HostUB).
Proof.
  intros Hw. split.
  - intros Hbase. destruct (integer_buffer_ok value negative base prec width flags Hbase) as (b & w' & E & Hb & _). exists b, w'. split; [done|].
    split; [by apply _ntoa_long_emit|by apply _ntoa_long_long_emit].
  - intros -> Hd. assert (_ntoa_long out maxlen value negative 0 prec width flags idx w = Stop HostUB) as E; [|by split].
    unfold _ntoa_long. set (fl := if value =? 0 then _ else _). replace (negb (has fl FLAGS_PRECISION) || (value =/? 0)) with true; [done|].
    subst fl. destruct (Z.eqb_spec value 0) as [->|]; [|by rewrite orb_true_r]. destruct Hd as [Hp|]; [|done].
    unfold FLAGS_PRECISION in *. rewrite without_other by done. by rewrite Hp.
Qed.

(** ** Integers read back *)
Definition digit_val (c : Z) : Z :=
  if _is_digit c then c - "0"%ch else if ("a"%ch <=? c) && (c <=? "f"%ch) then c - "a"%ch + 10
  else if ("A"%ch <=? c) && (c <=? "F"%ch) then c - "A"%ch + 10 else 16.
Definition is_digit_of (base c : Z) : Prop := 0 <= digit_val c < base.
#[export] Instance is_digit_of_dec base c : Decision (is_digit_of base c).
Proof. unfold is_digit_of. apply _. Defined.
Definition read_digits (base : Z) (l : list Z) : Z := foldl (fun a c => a * base + digit_val c) 0 l.
(** A reader of numbers: blanks, an optional sign, the digits. *)
Fixpoint skip_spaces (t : list Z) : list Z :=
  match t with c :: t' => if c =? " "%ch then skip_spaces t' else t | [] => [] end.
Fixpoint take_digits (base : Z) (t : list Z) : list Z :=
  match t with c :: t' => if decide (is_digit_of base c) then c :: take_digits base t' else [] | [] => [] end.
Definition scan_number (base : Z) (t : list Z) : Z :=
  match skip_spaces t with
  | c :: t' => if c =? "-"%ch then - (read_digits base (take_digits base t'))
               else if c =? "+"%ch then read_digits base (take_digits base t')
               else read_digits base (take_digits base (c :: t'))
  | [] => 0
  end.

Lemma digit_char_val flags d : 0 <= d < 16 -> digit_val (digit_char flags d) = d.
Proof.
  intros Hd. unfold digit_char. assert (d = 0 \/ d = 1 \/ d = 2 \/ d = 3 \/ d = 4 \/ d = 5 \/ d = 6 \/ d = 7 \/ d = 8 \/ d = 9 \/
    d = 10 \/ d = 11 \/ d = 12 \/ d = 13 \/ d = 14 \/ d = 15) as Hc by lia.
  destruct (has flags FLAGS_UPPERCASE); destruct_or! Hc; subst d; reflexivity.
Qed.
Lemma read_digits_snoc base l c : read_digits base (l ++ [c]) = read_digits base l * base + digit_val c.
Proof. unfold read_digits. by rewrite foldl_snoc. Qed.
Lemma read_digits_zeros base n l : read_digits base (zeros n ++ l) = read_digits base l.
Proof. unfold read_digits, zeros. rewrite foldl_app. f_equal. induction (Z.to_nat n) as [|k IH]; [done|]. cbn [replicate foldl]. exact IH. Qed.
Lemma digits_loop_read fuel flags base v buf :
  2 <= base <= 16 -> len buf < 32 -> 32 - len buf <= Z.of_nat fuel -> 0 <= v < base ^ (32 - len buf) ->
  exists D, digits_loop fuel flags base v buf = Ok (D ++ buf) /\ read_digits base D = v /\ Forall (is_digit_of base) D /\
    1 <= len D /\ (forall k, 0 < k -> v < base ^ k -> len D <= k).
Proof.
  intros Hbase. revert v buf. induction fuel as [|fuel IH]; intros v buf Hb Hf Hv; [lia|]. cbn [digits_loop]. rewrite (proj2 (Z.eqb_neq base 0)) by lia.
  pose proof (Z.mod_pos_bound v base ltac:(lia)) as Hm. pose proof (Z.div_mod v base ltac:(lia)) as Hdm.
  rewrite push_ok by done. cbn [mbind result_bind]. set (c := digit_char flags (v mod base)).
  assert (digit_val c = v mod base) as Hc by (apply digit_char_val; lia).
  assert (is_digit_of base c) as Hd by (unfold is_digit_of; lia).
  assert ((v / base =/? 0) = false -> read_digits base [c] = v) as Hlast.
  { intros Hz%negb_false_iff%Z.eqb_eq. unfold read_digits. cbn [foldl]. rewrite Hc. lia. }
  unfold NTOA_SIZE. destruct (v / base =/? 0) eqn:Ez; cbn [andb].
  - apply negb_true_iff, Z.eqb_neq in Ez. pose proof (Z.div_pos v base ltac:(lia) ltac:(lia)) as Hq.
    destruct (Z.eq_dec (len buf) 31) as [E31|Hn31].
    { replace (32 - len buf) with 1 in Hv by lia. rewrite Z.pow_1_r in Hv. rewrite Z.div_small in Ez by lia. done. }
    destruct (Z.ltb_spec (len (c :: buf)) 32) as [Hlt|?]; [|rewrite len_cons in *; lia].
    assert (v / base < base ^ (32 - len (c :: buf))) as Hq2.
    { apply Z.div_lt_upper_bound; [lia|]. rewrite len_cons in *. rewrite <- Z.pow_succ_r by lia. replace (Z.succ _) with (32 - len buf) by lia. apply Hv. }
    destruct (IH (v / base) (c :: buf)) as (D & E & HD & Hall & Hlen & Hk); [done|rewrite len_cons; lia|lia|].
    exists (D ++ [c]). rewrite <- app_assoc. split; [exact E|]. rewrite read_digits_snoc, HD, Hc. split; [lia|].
    split; [apply Forall_app; auto|]. rewrite len_app. change (len [c]) with 1. split; [lia|].
    intros k Hk0 Hvk. destruct (Z.eq_dec k 1) as [->|]. { rewrite Z.div_small in Ez by lia. done. }
    specialize (Hk (k - 1)). enough (len D <= k - 1) by lia. apply Hk; [lia|]. apply Z.div_lt_upper_bound; [lia|].
    rewrite <- Z.pow_succ_r by lia. by replace (Z.succ _) with k by lia.
  - exists [c]. split; [done|]. split; [by apply Hlast|]. split; [auto|]. change (len [c]) with 1. split; [lia|]. lia.
Qed.

(** *** The layout of an integer *)
Definition sign_chars (negative : bool) (flags : Z) : list Z :=
  if negative then ["-"%ch] else if has flags FLAGS_PLUS then ["+"%ch] else if has flags FLAGS_SPACE then [" "%ch] else [].
Lemma push_sign_eq negative flags buf :
  len buf <= 31 -> push_sign negative flags 32 buf = Ok (sign_chars negative flags ++ buf).
Proof.
  intros Hb. unfold push_sign, sign_chars. destruct (Z.ltb_spec (len buf) 32); [|lia].
  destruct negative; [by apply push_ok|]. destruct (has flags FLAGS_PLUS); [by apply push_ok|].
  destruct (has flags FLAGS_SPACE); [by apply push_ok|done].
Qed.
Lemma has_plus_space flags : has flags (FLAGS_PLUS .| FLAGS_SPACE) = has flags FLAGS_PLUS || has flags FLAGS_SPACE.
Proof.
  unfold has. rewrite Z.land_lor_distr_r. destruct (Z.eqb_spec (flags .& FLAGS_PLUS) 0) as [E|E], (Z.eqb_spec (flags .& FLAGS_SPACE) 0) as [E'|E'];
    cbn [negb orb]; rewrite ?E, ?E'; try done; apply negb_true_iff, Z.eqb_neq; rewrite Z.lor_eq_0_iff; tauto.
Qed.
Lemma sign_column negative width flags :
  sign_takes_column negative width flags = (width =/? 0) && (1 <=? len (sign_chars negative flags)).
Proof.
  unfold sign_takes_column, sign_chars. rewrite has_plus_space.
  destruct negative, (has flags FLAGS_PLUS), (has flags FLAGS_SPACE); done.
Qed.
Lemma len_sign negative flags : 0 <= len (sign_chars negative flags) <= 1.
Proof. unfold sign_chars. destruct negative, (has flags FLAGS_PLUS), (has flags FLAGS_SPACE); done. Qed.
Lemma zeros_app a b buf : 0 <= a -> 0 <= b -> zeros a ++ zeros b ++ buf = zeros (a + b) ++ buf.
Proof. intros ? ?. unfold zeros. rewrite app_assoc, <- replicate_add. do 2 f_equal. lia. Qed.
Lemma zeros_max n buf : zeros n ++ buf = zeros (Z.max 0 n) ++ buf.
Proof. destruct (Z.le_gt_cases 0 n); [by rewrite Z.max_r by lia|by rewrite !zeros_nil by lia]. Qed.
(** The digits on the buffer after padding: the zeros the precision and the
    [0] flag ask for, the latter a column short when a sign is to come. *)
Lemma pad_zeros_eq negative prec width flags buf :
  len buf <= 31 -> 0 <= prec <= 31 -> 0 <= width <= 31 ->
  let s := len (sign_chars negative flags) in
  let p := if has flags FLAGS_LEFT then 0 else Z.max 0 (prec - len buf) in
  let z := if negb (has flags FLAGS_LEFT) && has flags FLAGS_ZEROPAD then Z.max 0 (width - s - (len buf + p)) else 0 in
  exists w', pad_zeros negative prec width flags buf = Ok (zeros (z + p) ++ buf, w') /\
    (has flags FLAGS_LEFT = true \/ has flags FLAGS_ZEROPAD = false -> w' = width).
Proof.
  intros Hb Hp Hw s p z. pose proof (len_sign negative flags) as Hs. fold s in Hs. pose proof (len_nonneg buf) as Hb0.
  assert (fits32 buf) as Hf by (unfold fits32; lia). unfold pad_zeros. subst p z.
  destruct (has flags FLAGS_LEFT); [by exists width|]. cbn [negb andb].
  rewrite zeros_while_ok, (Z.min_l prec), zeros_max by (done || lia). cbn [mbind result_bind]. set (p := Z.max 0 (prec - len buf)).
  assert (len (zeros p ++ buf) = p + len buf) as Hlp by (rewrite len_app, len_zeros by lia; done).
  destruct (has flags FLAGS_ZEROPAD); cbn [andb].
  - rewrite sign_column. fold s. set (w' := if _ && _ then width - 1 else width). exists w'. split; [|by intros [?|?]].
    rewrite zeros_while_ok by (unfold fits32; rewrite Hlp; lia). cbn [mbind result_bind]. rewrite Hlp, zeros_max, zeros_app by lia.
    do 4 f_equal. unfold w'. destruct (Z.eqb_spec width 0), (Z.leb_spec 1 s); cbn [negb andb]; lia.
  - exists width. by rewrite Z.add_0_l.
Qed.
Lemma clear_nohash value flags : has flags FLAGS_HASH = false ->
  (if value =? 0 then without flags FLAGS_HASH else flags) = flags.
Proof.
  intros Hh. destruct (value =? 0); [|done]. apply Z.bits_inj'. intros n Hn. unfold without. rewrite Z.land_spec, Z.lnot_spec by done.
  unfold FLAGS_HASH in *. rewrite has_bit in Hh by done. rewrite Z.shiftl_1_l. destruct (Z.eq_dec n 4) as [->|].
  - by rewrite Hh.
  - by rewrite Z.pow2_bits_false, andb_true_r by lia.
Qed.
Lemma ntoa_text_layout `{Abi} value negative base prec width flags :
  has flags FLAGS_HASH = false -> 2 <= base <= 16 -> 0 <= value < base ^ 31 -> 0 <= prec <= 31 -> 0 <= width <= 31 ->
  exists a D b, let sgn := sign_chars negative flags in
    ntoa_text value negative base prec width flags = Ok (spaces a ++ sgn ++ D ++ spaces b) /\
    read_digits base D = value /\ Forall (is_digit_of base) D /\
    len (spaces a ++ sgn ++ D ++ spaces b) = Z.max width (len sgn + len D) /\ len sgn + len D <= 32.
Proof.
  intros Hh Hbase Hv Hp Hw. unfold ntoa_text. rewrite clear_nohash by done. cbv zeta. set (sgn := sign_chars negative flags).
  set (m := if _ || _ then digits_loop _ _ _ _ _ else _).
  assert (exists D0, m = Ok D0 /\ read_digits base D0 = value /\ Forall (is_digit_of base) D0 /\ len D0 <= 31) as (D0 & -> & Hr & HD & Hl0).
  { unfold m. destruct (negb (has flags FLAGS_PRECISION) || (value =/? 0)) eqn:E.
    - destruct (digits_loop_read BUF_FUEL flags base value []) as (D & Ed & Hr & HD & _ & Hk); [done|done|done| |].
      { change (32 - len []) with 32. split; [lia|]. eapply Z.lt_le_trans; [apply Hv|]. apply Z.pow_le_mono_r; lia. }
      exists D. rewrite app_nil_r in Ed. specialize (Hk 31). rewrite Ed. split_and!; try done. apply Hk; lia.
    - exists []. apply orb_false_iff in E as [_ E%negb_false_iff%Z.eqb_eq]. subst value. split_and!; try done. }
  cbn [mbind result_bind]. unfold ntoa_buf. destruct (pad_zeros_eq negative prec width flags D0) as (w' & -> & Hw'); try done.
  cbn [mbind result_bind]. fold sgn in Hw' |- *. set (p := if has flags FLAGS_LEFT then 0 else _). set (z := if _ && _ then Z.max _ _ else 0).
  pose proof (len_sign negative flags) as Hs. fold sgn in Hs. pose proof (len_nonneg D0) as Hd0.
  assert (0 <= p <= 31 /\ len D0 + p <= 31) as [Hp1 Hp2] by (unfold p; destruct (has flags FLAGS_LEFT); lia).
  assert (0 <= z /\ (z = 0 \/ len sgn + (len D0 + p) + z = width)) as [Hz1 Hz2] by (unfold z; destruct (_ && _); lia).
  unfold hash_stage. rewrite Hh. cbn [negb mbind result_bind]. set (D := zeros (z + p) ++ D0).
  assert (len D = z + p + len D0) as HlD by (unfold D; rewrite len_app, len_zeros by lia; lia).
  unfold NTOA_SIZE. rewrite push_sign_eq by lia. fold sgn. cbn [mbind result_bind].
  assert (len (sgn ++ D) = len sgn + len D) as HsD by apply len_app.
  assert (Forall (is_digit_of base) D) as HDD.
  { apply Forall_app. split; [|done]. apply Forall_replicate. split; [done|]. change (digit_val "0"%ch) with 0. lia. }
  set (left := has flags FLAGS_LEFT) in *. set (zp := has flags FLAGS_ZEROPAD) in *.
  exists (if left || zp then 0 else width - (len sgn + len D)), D, (if left then width - (len sgn + len D) else 0).
  split_and!; [|by unfold D; rewrite read_digits_zeros|done| |lia].
  - unfold rev_text. fold left zp. rewrite <- !app_assoc. rewrite HsD, wrapu_small by (unfold u32_ok; lia).
    destruct left, zp; cbn [negb andb orb app]; rewrite ?Hw' by auto; reflexivity.
  - rewrite !len_app. unfold spaces. rewrite !len_replicate.
    unfold z in *. destruct left, zp; cbn [orb negb andb] in *; lia.
Qed.

(** *** Reading it back *)
Lemma skip_spaces_app a l : skip_spaces (spaces a ++ l) = skip_spaces l.
Proof. unfold spaces. by induction (Z.to_nat a). Qed.
Lemma take_digits_app base D l :
  Forall (is_digit_of base) D -> take_digits base l = [] -> take_digits base (D ++ l) = D.
Proof.
  intros HD Hl. induction HD as [|c D Hc HD IH]; [done|]. cbn [app take_digits]. rewrite decide_True by done. by rewrite IH.
Qed.
Lemma take_spaces base b : base <= 16 -> take_digits base (spaces b) = [].
Proof.
  intros Hb. unfold spaces. destruct (Z.to_nat b) as [|n]; [done|]. cbn [replicate take_digits].
  rewrite decide_False; [done|]. unfold is_digit_of. change (digit_val " "%ch) with 16. lia.
Qed.
Lemma digit_not_sign base c : base <= 16 -> is_digit_of base c -> (c =? " "%ch) = false /\ (c =? "-"%ch) = false /\ (c =? "+"%ch) = false.
Proof.
  intros Hb Hc. split_and!; apply Z.eqb_neq; intros ->; unfold is_digit_of in Hc;
    [change (digit_val " "%ch) with 16 in Hc|change (digit_val "-"%ch) with 16 in Hc|change (digit_val "+"%ch) with 16 in Hc]; lia.
Qed.
Lemma scan_number_layout base negative flags a D b :
  2 <= base <= 16 -> Forall (is_digit_of base) D ->
  scan_number base (spaces a ++ sign_chars negative flags ++ D ++ spaces b) = if negative then - (read_digits base D) else read_digits base D.
Proof.
  intros Hb HD. unfold scan_number. rewrite skip_spaces_app.
  assert (take_digits base (D ++ spaces b) = D) as Htd by (apply take_digits_app, take_spaces; [done|lia]).
  assert (forall l, skip_spaces (D ++ spaces b) = l -> match l with c :: t' => if c =? "-"%ch then - (read_digits base (take_digits base t'))
    else if c =? "+"%ch then read_digits base (take_digits base t') else read_digits base (take_digits base (c :: t')) | [] => 0 end = read_digits base D) as Hplain.
  { intros l <-. destruct HD as [|c D Hc HD]; cbn [app] in *.
    - replace (spaces b) with (spaces b ++ []) by apply app_nil_r. by rewrite skip_spaces_app.
    - destruct (digit_not_sign base c ltac:(lia) Hc) as (E1 & E2 & E3). cbn [skip_spaces]. rewrite E1, E2, E3. by rewrite Htd. }
  unfold sign_chars. destruct negative; [cbn; by rewrite Htd|]. destruct (has flags FLAGS_PLUS); [cbn; by rewrite Htd|].
  destruct (has flags FLAGS_SPACE); by apply Hplain.
Qed.

(** The value an integer conversion denotes, its argument, and its width in bits. *)
Section int_value.
Context {abi : Abi}.
Definition int_bits (flags : Z) : Z := if has flags FLAGS_LONG_LONG then 64 else if has flags FLAGS_LONG then long_w else 32.
Definition int_value (flags c v : Z) : Z :=
  if is_signed_conv c then
    if has flags FLAGS_LONG_LONG then s64 v else if has flags FLAGS_LONG then wraps long_w v
    else if has flags FLAGS_CHAR then to_char v else if has flags FLAGS_SHORT then s16 v else s32 v
  else
    if has flags FLAGS_LONG_LONG then u64 v else if has flags FLAGS_LONG then wrapu long_w v
    else if has flags FLAGS_CHAR then u8 v else if has flags FLAGS_SHORT then u16 v else u32 v.
Definition int_arg_of (flags v : Z) : arg :=
  if has flags FLAGS_LONG_LONG then A_llong v else if has flags FLAGS_LONG then A_long v else A_int v.
Lemma to_char_range v : in_s 32 (to_char v).
Proof.
  unfold to_char. destruct char_signed; [apply (in_s_mono 8 32); [lia|apply wraps_range; lia]|].
  apply (in_s_of_u 32 8); [lia|apply wrapu_range; lia].
Qed.
Lemma long_bounds : 32 <= long_w <= 64.
Proof. destruct long_ok as [-> | ->]; lia. Qed.
Lemma magnitude_abs w x : 32 <= w -> in_s w x -> x <> - 2 ^ (w - 1) ->
  exists m, magnitude w x = Ok m /\ wrapu w m = Z.abs x.
Proof.
  intros Hw Hx Hne. unfold in_s in Hx. pose proof (pow2_half w ltac:(lia)) as E. unfold magnitude, sint.
  destruct (Z.ltb_spec 0 x).
  - exists x. split; [done|]. rewrite wrapu_id by (unfold in_u; lia). lia.
  - destruct (Z.leb_spec (- 2 ^ (w - 1)) (0 - x)); [|lia]. destruct (Z.ltb_spec (0 - x) (2 ^ (w - 1))); [|lia]. cbn [andb].
    exists (0 - x). split; [done|]. rewrite wrapu_id by (unfold in_u; lia). lia.
Qed.
Lemma int_arg_value flags c v va :
  int_value flags c v <> - 2 ^ (int_bits flags - 1) ->
  int_arg flags c (int_arg_of flags v :: va) = Ok (Z.abs (int_value flags c v), int_value flags c v <? 0, va).
Proof.
  intros Hne. pose proof long_bounds as Hl. unfold int_arg, int_value, int_arg_of, int_bits in *.
  assert (forall w x, 32 <= w -> in_s w x -> x <> - 2 ^ (w - 1) ->
    (let! m := magnitude w x in Ok (wrapu w m, x <? 0, va)) = Ok (Z.abs x, x <? 0, va)) as Hs.
  { intros w x Hw Hx Hx'. destruct (magnitude_abs w x Hw Hx Hx') as (m & -> & <-). done. }
  assert (forall w x, 0 <= w -> Ok (wrapu w x, false, va) = Ok (Z.abs (wrapu w x), wrapu w x <? 0, va)) as Hu.
  { intros w x Hw. pose proof (wrapu_nonneg w x Hw). rewrite Z.abs_eq by done. by destruct (Z.ltb_spec (wrapu w x) 0); [lia|]. }
  destruct (is_signed_conv c), (has flags FLAGS_LONG_LONG); cbn [va_llong mbind result_bind].
  - apply Hs; [lia|apply wraps_range; lia|done].
  - destruct (has flags FLAGS_LONG); cbn [va_long va_int mbind result_bind]; [apply Hs; [lia|apply wraps_range; lia|done]|].
    apply Hs; [lia| |done]. destruct (has flags FLAGS_CHAR); [apply to_char_range|]. destruct (has flags FLAGS_SHORT).
    + apply (in_s_mono 16 32); [lia|apply wraps_range; lia].
    + apply wraps_range. lia.
  - apply Hu. lia.
  - destruct (has flags FLAGS_LONG); cbn [va_long va_int mbind result_bind]; [apply Hu; lia|].
    destruct (has flags FLAGS_CHAR); [apply Hu; lia|]. destruct (has flags FLAGS_SHORT); apply Hu; lia.
Qed.
End int_value.
Lemma int_base_range c : 2 <= int_base c <= 16.
Proof. unfold int_base. destruct (_ || _); [lia|]. destruct (c =? _); [lia|]. destruct (c =? _); lia. Qed.

Definition int_conversions : list Z := ["d"; "i"; "u"; "x"; "X"; "o"; "b"]%ch.
Lemma is_int_conversion c : In c int_conversions ->
  (c =? "d"%ch) || (c =? "i"%ch) || (c =? "u"%ch) || (c =? "x"%ch) || (c =? "X"%ch) || (c =? "o"%ch) || (c =? "b"%ch) = true.
Proof. cbn [In int_conversions]. intros Hc. repeat (destruct Hc as [<- | Hc]; [reflexivity|]). done. Qed.
(** The text of a conversion whose value fits the conversion buffer. *)
Lemma int_conversion_text `{Abi} sp v va :
  let c := sp_conv sp in let flags := int_flags (sp_flags sp) c in let value := int_value flags c v in
  has flags FLAGS_HASH = false -> 0 <= sp_prec sp <= 31 -> 0 <= sp_width sp <= 31 ->
  value <> - 2 ^ (int_bits flags - 1) -> Z.abs value < int_base c ^ 31 ->
  exists t, (let! (v, negative, va) := int_arg flags c (int_arg_of flags v :: va) in
             let! t := ntoa_text v negative (int_base c) (sp_prec sp) (sp_width sp) flags in Ok (t, va)) = Ok (t, va) /\
    scan_number (int_base c) t = value /\ sp_width sp <= len t <= 32.
Proof.
  intros c flags value Hh Hp Hw Hne Hv. pose proof (int_base_range c) as Hb.
  destruct (ntoa_text_layout (Z.abs value) (value <? 0) (int_base c) (sp_prec sp) (sp_width sp) flags) as (a & D & b & E & Hr & HD & Hl & H32); [done..|lia|done|done|].
  exists (spaces a ++ sign_chars (value <? 0) flags ++ D ++ spaces b). split_and!; [| |lia|lia].
  - rewrite int_arg_value by done. fold value. cbn [mbind result_bind]. by rewrite E.
  - rewrite scan_number_layout, Hr by done. destruct (Z.ltb_spec value 0); lia.
Qed.
(** A format of one conversion renders as its text. *)
Lemma render_one `{Abi} f va0 sp va va' t :
  parse_spec f va0 = Ok (sp, [0], va) -> convert_text sp va = Ok (t, va') -> render ("%"%ch :: f) va0 = Ok t.
Proof.
  intros Hp Hc. unfold render. cbn [length render_loop deref mbind result_bind tail]. change ("%"%ch =? 0) with false. change ("%"%ch =/? "%"%ch) with false.
  cbv iota. rewrite Hp. cbn [mbind result_bind]. rewrite Hc. cbn. by rewrite app_nil_r.
Qed.
(** C32. An integer conversion prints its value.  For a conversion character of
    [d i u x X o b], any size, any flags in effect but [#], precision and width up to
    31, and a value that has a negation in its type and fewer than 32 digits in its
    base, there is one text, at least as wide as asked and at most 32 characters, that
    reads back as the value in the base of the conversion; the conversion sends exactly
    that text to its output function, and [snprintf_] of a format made of that one
    conversion leaves it terminated in a buffer large enough and returns its length. *)
Theorem integer_reads_back `{Abi} sp v va :
  let c := sp_conv sp in let flags := int_flags (sp_flags sp) c in let value := int_value flags c v in
  let args := int_arg_of flags v :: va in
  In c int_conversions -> has flags FLAGS_HASH = false ->
  0 <= sp_prec sp <= 31 -> 0 <= sp_width sp <= 31 ->
  value <> - 2 ^ (int_bits flags - 1) -> Z.abs value < int_base c ^ 31 ->
  exists t, scan_number (int_base c) t = value /\ sp_width sp <= len t <= 32 /\
    (forall W (out : out_fct_type (W := W)) maxlen idx w,
       convert out maxlen sp args idx w = let! (idx, w) := rev_loop out maxlen t idx w in Ok (idx, va, w)) /\
    (forall f va0 count b, parse_spec f va0 = Ok (sp, [0], args) -> 32 < count <= len b -> count < 2 ^ size_w ->
       snprintf_ (Some b) count ("%"%ch :: f) va0 = Ok (len t, Some (t ++ 0 :: drop (S (length t)) b))).
Proof.
  intros c flags value args Hc Hh Hp Hw Hne Hv.
  destruct (int_conversion_text sp v va) as (t & E & Hr & Hl); [done..|]. fold c flags args in E.
  assert (convert_text sp args = Ok (t, va)) as Et by (unfold convert_text; cbv zeta; fold c; by rewrite (is_int_conversion _ Hc)).
  exists t. split; [exact Hr|]. split; [exact Hl|]. split.
  - intros W out maxlen idx w. unfold convert. cbv zeta. fold c. rewrite (is_int_conversion _ Hc). apply conv_int_emit; [unfold u32_ok; lia|exact E].
  - intros f va0 count b Hf Hcount Hs. unfold snprintf_.
    rewrite (vsnprintf_buffer _ _ t) by (done || lia || by eapply render_one). unfold printed.
    destruct (Z.eqb_spec count 0); [lia|]. unfold len in Hl. rewrite Nat.min_l by lia. by rewrite firstn_all.
Qed.

(** ** Whole doubles *)
Lemma whole_loop_digits fuel v buf :
  0 <= v -> len buf < 32 -> 32 - len buf < Z.of_nat fuel -> whole_loop fuel v buf = digits_loop fuel 0 10 v buf.
Proof.
  revert v buf. induction fuel as [|fuel IH]; intros v buf Hv Hb Hf; [lia|]. cbn [whole_loop digits_loop]. unfold FTOA_SIZE, NTOA_SIZE.
  destruct (Z.ltb_spec (len buf) 32); [|lia]. rewrite Z.rem_mod_nonneg, Z.quot_div_nonneg by lia.
  assert (digit_char 0 (v mod 10) = "0"%ch + v mod 10) as ->.
  { unfold digit_char. pose proof (Z.mod_pos_bound v 10 ltac:(lia)). by destruct (Z.ltb_spec (v mod 10) 10); [|lia]. }
  rewrite push_ok by done. cbn [mbind result_bind]. destruct (v / 10 =? 0); cbn [negb andb]; [done|].
  destruct (Z.ltb_spec (len (("0"%ch + v mod 10) :: buf)) 32) as [Hlt|Hge]; rewrite len_cons in *.
  - apply IH; [|rewrite ?len_cons..]; [apply Z.div_pos; lia|lia|lia].
  - destruct fuel as [|fuel]; [lia|]. cbn [whole_loop]. unfold FTOA_SIZE. rewrite len_cons. by destruct (Z.ltb_spec (len buf + 1) 32); [lia|].
Qed.
Lemma double_of_opp n : 0 < n -> double_of (- n) = SFopp (double_of n).
Proof.
  intros Hn. unfold double_of. destruct n as [|m|m]; try lia. change (- Zpos m) with (Zneg m). cbn [binary_normalize]. unfold binary_round.
  destruct (shl_align m 0 _) as [mz ez]. unfold binary_round_aux. destruct (shr_fexp 53 1024 (Zpos mz) ez loc_Exact) as [r e].
  destruct (shr_fexp 53 1024 (round_nearest_even _ _) e loc_Exact) as [r' e']. destruct (shr_m r') as [|k|k]; [done| |done].
  by destruct (e' <=? 1024 - 53).
Qed.
Lemma double_compare a b : 0 < a < 2 ^ 53 -> 0 < b < 2 ^ 53 -> SFcompare (double_of a) (double_of b) = Some (a ?= b).
Proof.
  intros Ha Hb. rewrite (double_of_pos a Ha), (double_of_pos b Hb). cbn [SFcompare]. f_equal.
  pose proof (digits_bound a Ha) as Da. pose proof (digits_bound b Hb) as Db. pose proof (N_pos a Ha) as Na. pose proof (N_pos b Hb) as Nb.
  destruct (Z.compare_spec (Z.log2 a + 1 - 53) (Z.log2 b + 1 - 53)) as [E|Hlt|Hgt].
  - change (Pos.compare_cont Eq (Z.to_pos (a * 2 ^ (53 - (Z.log2 a + 1)))) (Z.to_pos (b * 2 ^ (53 - (Z.log2 b + 1))))) with
      (Z.to_pos (a * 2 ^ (53 - (Z.log2 a + 1))) ?= Z.to_pos (b * 2 ^ (53 - (Z.log2 b + 1))))%positive.
    rewrite <- Z2Pos.inj_compare by done. replace (Z.log2 b) with (Z.log2 a) by lia.
    symmetry. apply Zmult_compare_compat_r. apply Z.lt_gt, Z.pow_pos_nonneg; lia.
  - symmetry. apply Z.compare_lt_iff. apply Z.log2_lt_cancel. lia.
  - symmetry. apply Z.compare_gt_iff. apply Z.log2_lt_cancel. lia.
Qed.
Lemma dtrunc_of n : 0 <= n < 2 ^ 53 -> dtrunc (double_of n) = Some n.
Proof.
  intros Hn. destruct (Z.eq_dec n 0) as [->|]; [done|]. assert (0 < n < 2 ^ 53) as Hn' by lia. rewrite (double_of_pos n Hn').
  pose proof (digits_bound n Hn') as D. pose proof (N_pos n Hn') as N. unfold dtrunc. rewrite Z2Pos.id by done. f_equal.
  destruct (Z.leb_spec 0 (Z.log2 n + 1 - 53)).
  - replace (Z.log2 n + 1) with 53 by lia. rewrite Z.sub_diag, Z.pow_0_r, Z.mul_1_r. apply Z.shiftl_0_r.
  - replace (- (Z.log2 n + 1 - 53)) with (53 - (Z.log2 n + 1)) by lia. rewrite Z.shiftr_div_pow2 by lia. apply Z.div_mul.
    apply Z.pow_nonzero; lia.
Qed.
Lemma dsub_self n : 0 <= n < 2 ^ 53 -> dsub (double_of n) (double_of n) = S754_zero false.
Proof.
  intros Hn. destruct (Z.eq_dec n 0) as [->|]; [done|]. rewrite (double_of_pos n) by lia. unfold dsub, SFsub. cbv zeta. by rewrite Z.sub_diag.
Qed.
Lemma dnan_of n : 0 < n < 2 ^ 53 -> dnan (double_of n) = false /\ dnan (SFopp (double_of n)) = false.
Proof.
  intros Hn. rewrite (double_of_pos n Hn). unfold dnan, SFeqb. cbn [SFopp SFcompare negb]. rewrite !Z.compare_refl.
  split; change (Pos.compare_cont Eq ?x ?x) with (x ?= x)%positive; by rewrite Pos.compare_refl.
Qed.
Lemma count_zeros_eq fuel n buf : 0 <= n -> len buf + n < 32 -> n < Z.of_nat fuel -> count_zeros fuel n buf = Ok (zeros n ++ buf).
Proof.
  revert n buf. induction fuel as [|fuel IH]; intros n buf Hn Hb Hf; [lia|]. cbn [count_zeros]. unfold FTOA_SIZE.
  destruct (Z.ltb_spec (len buf) 32); [|lia]. destruct (Z.ltb_spec 0 n); cbn [andb]; [|by rewrite zeros_nil by lia].
  rewrite push_ok by done. cbn [mbind result_bind]. rewrite IH by (rewrite ?len_cons; lia). by rewrite (zeros_snoc n) by lia.
Qed.
(** A whole double below 2^53, its sign and the comparisons made on it. *)
Record whole_double (m : Z) (negative : bool) (x : double) : Prop := {
  wd_sign : dlt x (S754_zero false) = negative;
  wd_abs : (if negative then dsub (S754_zero false) x else x) = double_of m;
  wd_finite : dnan x || dlt x (SFopp DBL_MAX) || dlt DBL_MAX x = false;
  wd_small : dlt PRINTF_MAX_FLOAT x || dlt x (SFopp PRINTF_MAX_FLOAT) = false;
}.
Lemma dlt_opp m e m' e' : SFltb (SFopp (S754_finite false m e)) (SFopp (S754_finite false m' e')) = SFltb (S754_finite false m' e') (S754_finite false m e).
Proof.
  unfold SFltb. cbn [SFopp negb SFcompare]. rewrite (Z.compare_antisym e e'). destruct (e ?= e'); cbn [CompOpp]; try done.
  change (Pos.compare_cont Eq ?x ?y) with (x ?= y)%positive. rewrite (Pos.compare_antisym m m'). by destruct (m ?= m')%positive.
Qed.
Lemma whole_double_of n : Z.abs n <= 1000000000 -> whole_double (Z.abs n) (n <? 0) (double_of n).
Proof.
  intros Hn. destruct (Z.eq_dec n 0) as [->|Hn0]; [by split|].
  assert (0 < Z.abs n < 2 ^ 53) as Ha by lia. pose proof (dnan_of _ Ha) as [Hnan Hnan'].
  assert (dlt PRINTF_MAX_FLOAT (double_of (Z.abs n)) = false) as Hmax.
  { unfold dlt, SFltb, PRINTF_MAX_FLOAT. rewrite double_compare by lia. destruct (Z.compare_spec 1000000000 (Z.abs n)); lia || done. }
  pose proof (double_of_pos _ Ha) as E. set (e := Z.log2 (Z.abs n) + 1 - 53) in *.
  assert (e <= 971) as He by (pose proof (digits_bound _ Ha); lia).
  assert (dlt DBL_MAX (double_of (Z.abs n)) = false) as Hdbl.
  { rewrite E. unfold dlt, SFltb. change DBL_MAX with (S754_finite false 9007199254740991 971). cbn [SFcompare].
    pose proof (digits_bound _ Ha). destruct (Z.compare_spec 971 e); [lia|lia|done]. }
  destruct (Z.ltb_spec n 0) as [Hlt|Hge].
  - replace n with (- Z.abs n) by lia. rewrite double_of_opp, Z.abs_opp, Z.abs_idemp by lia. rewrite E in *.
    split; [done|done| |].
    + rewrite Hnan'. change DBL_MAX with (S754_finite false 9007199254740991 971) in *. unfold dlt in *. rewrite dlt_opp, Hdbl. done.
    + change PRINTF_MAX_FLOAT with (S754_finite false 8388608000000000 (-23)) in *. unfold dlt in *. rewrite dlt_opp, Hmax. done.
  - replace n with (Z.abs n) by lia. rewrite Z.abs_idemp. rewrite E in *. split; [done|done| |].
    + rewrite Hnan, Hdbl. done.
    + rewrite Hmax. done.
Qed.
Lemma pow10_ok p : 0 <= p <= 9 -> exists d, pow10_at p = Ok d /\ dmul (S754_zero false) d = S754_zero false.
Proof.
  intros Hp. assert (p = 0 \/ p = 1 \/ p = 2 \/ p = 3 \/ p = 4 \/ p = 5 \/ p = 6 \/ p = 7 \/ p = 8 \/ p = 9) as Hc by lia.
  destruct_or! Hc; subst p; eexists; split; reflexivity.
Qed.
(** The fraction of a whole number: the point and the zeros of the precision. *)
Definition point_zeros (prec : Z) : list Z := if prec =? 0 then [] else "."%ch :: zeros prec.
Lemma ftoa_fraction_whole `{Abi} x m prec :
  0 <= m < 2 ^ 53 -> 0 <= prec <= 9 -> x = double_of m ->
  ftoa_fraction x (S754_zero false) m 0 prec [] = Ok (point_zeros prec, m).
Proof.
  intros Hm Hp ->. unfold ftoa_fraction, point_zeros. change (round_frac (S754_zero false) prec 0 m long_w) with (Ok (A:=Z * Z) (0, m)). cbn [mbind result_bind].
  destruct (Z.eqb_spec prec 0) as [->|Hne].
  - rewrite dsub_self by done. done.
  - cbn [BUF_FUEL frac_loop]. change (len [] <? FTOA_SIZE) with true. cbv iota.
    change ("0"%ch + 0 mod 10) with ("0"%ch). rewrite push_ok by done. cbn [mbind result_bind]. change (0 / 10 =? 0) with true. cbv iota. cbn [mbind result_bind].
    rewrite (wrapu_id 32 (prec - 1)) by (unfold in_u; lia).
    rewrite count_zeros_eq by (change (len ["0"%ch]) with 1; unfold BUF_FUEL; lia). cbn [mbind result_bind].
    rewrite <- zeros_snoc, app_nil_r by lia. unfold FTOA_SIZE. rewrite len_zeros by lia.
    destruct (Z.ltb_spec prec 32); [|lia]. by rewrite push_ok by (rewrite len_zeros; lia).
Qed.
Lemma ftoa_buf_whole `{Abi} x m negative prec width flags :
  whole_double m negative x -> 0 <= m <= 1000000000 ->
  let p := if has flags FLAGS_PRECISION then prec else DEFAULT_FLOAT_PRECISION in
  0 <= p <= 9 -> has flags FLAGS_LEFT = true \/ has flags FLAGS_ZEROPAD = false ->
  exists D, ftoa_buf x prec width flags = Ok (sign_chars negative flags ++ D ++ point_zeros p, width) /\
    read_digits 10 D = m /\ Forall (is_digit_of 10) D /\ 1 <= len D <= 10.
Proof.
  intros [Hs Ha _ _] Hm p Hp Hpad. unfold ftoa_buf. cbv zeta. rewrite Hs. fold p. rewrite Ha.
  assert (excess_prec BUF_FUEL p [] = Ok ([], p)) as ->.
  { cbn [BUF_FUEL excess_prec]. change (len [] <? FTOA_SIZE) with true. destruct (Z.ltb_spec 9 p); [lia|done]. }
  cbn [mbind result_bind]. unfold int_of_double at 1. rewrite dtrunc_of by lia. unfold sint.
  destruct (Z.leb_spec (- 2 ^ (32 - 1)) m); [|lia]. destruct (Z.ltb_spec m (2 ^ (32 - 1))); [|lia]. cbn [andb mbind result_bind]. destruct (pow10_ok p Hp) as (d & -> & Hd). cbn [mbind result_bind]. rewrite dsub_self, Hd by lia.
  assert (unsigned_of_double long_w (S754_zero false) = Ok 0) as ->.
  { unfold unsigned_of_double. cbn [dtrunc]. pose proof long_bounds. destruct (Z.ltb_spec 0 (2 ^ long_w)) as [_|Hge]; [done|].
    assert (0 < 2 ^ long_w) by (apply Z.pow_pos_nonneg; lia). lia. }
  cbn [mbind result_bind]. rewrite ftoa_fraction_whole by (done || lia). cbn [mbind result_bind].
  assert (len (point_zeros p) <= 10) as Hlp by (unfold point_zeros; destruct (p =? 0); [done|rewrite len_cons, len_zeros; lia]).
  pose proof (len_nonneg (point_zeros p)) as Hlp0. rewrite whole_loop_digits by (unfold BUF_FUEL; lia).
  destruct (digits_loop_read BUF_FUEL 0 10 m (point_zeros p)) as (D & -> & Hr & HD & Hl1 & Hk); [lia|lia|unfold BUF_FUEL; lia| |].
  { split; [lia|]. eapply Z.lt_le_trans; [|apply (Z.pow_le_mono_r 10 10); lia]. lia. }
  cbn [mbind result_bind]. exists D. assert (len D <= 10) as HlD by (apply Hk; lia).
  replace (negb (has flags FLAGS_LEFT) && has flags FLAGS_ZEROPAD) with false by (destruct Hpad as [-> | ->]; by rewrite ?andb_false_r).
  cbn [mbind result_bind]. unfold FTOA_SIZE. rewrite push_sign_eq by (rewrite len_app; lia). done.
Qed.
(** A whole double up to 1e9 in magnitude prints exactly: sign, the digits of
    the number without a leading zero, and as many zeros after the point as the
    precision asks for (six by default), padded to the width. *)
Theorem whole_double_exact `{Abi} n prec width flags :
  Z.abs n <= 1000000000 ->
  let p := if has flags FLAGS_PRECISION then prec else DEFAULT_FLOAT_PRECISION in
  0 <= p <= 9 -> has flags FLAGS_LEFT = true \/ has flags FLAGS_ZEROPAD = false ->
  exists D, read_digits 10 D = Z.abs n /\ Forall (is_digit_of 10) D /\ 1 <= len D <= 10 /\
    forall W (out : out_fct_type (W := W)) maxlen idx w, u32_ok width ->
      _ftoa out maxlen (double_of n) prec width flags idx w =
      rev_loop out maxlen (rev_text (sign_chars (n <? 0) flags ++ D ++ point_zeros p) width flags) idx w.
Proof.
  intros Hn p Hp Hpad. pose proof (whole_double_of n Hn) as Hwd.
  destruct (ftoa_buf_whole (double_of n) (Z.abs n) (n <? 0) prec width flags) as (D & E & Hr & HD & Hl); [done|lia|done|done|].
  exists D. split_and!; try done; try lia. intros W out maxlen idx w Hw. unfold _ftoa. apply ftoa_fuel_emit; [done|].
  unfold FLOAT_FUEL. cbn [ftoa_text]. destruct Hwd as [_ _ [[-> ->]%orb_false_iff ->]%orb_false_iff ->]. by rewrite E.
Qed.

(** ** Departures from ISO C, computed *)
Section deviations.
#[local] Existing Instance n64_abi.
(** The text of a format given as characters. *)
Abbreviation text f va := (render (f ++ [0]) va).
Definition d_095 : double := dlit 0x3fee666666666666.
Definition d_1e15 : double := double_of 1000000000000000.
(** [%.1f] of 0.95 rounds half-way to a fraction of 10 that nothing carries; [%e] of
    1e15 has a mantissa of 10 and of 0.0 an exponent; [%#4x] eats digits of a number as
    wide as the field; [%-4.3d] drops the zeros of the precision; [%lb] stops at 32
    digits. *)
Lemma printf_departs :
  text ["%"; "."; "1"; "f"]%ch [A_double d_095] = Ok (replicate 30 "0"%ch ++ ["1"; "0"]%ch) /\
  text ["%"; "e"]%ch [A_double d_1e15] = Ok ["1"; "0"; "."; "0"; "0"; "0"; "0"; "0"; "0"; "e"; "+"; "1"; "4"]%ch /\
  text ["%"; "."; "0"; "e"]%ch [A_double (S754_zero false)] = Ok ["0"; "e"; "-"; "3"; "0"; "8"]%ch /\
  text ["%"; "#"; "4"; "x"]%ch [A_int 0x1234] = Ok ["0"; "x"; "3"; "4"]%ch /\
  text ["%"; "-"; "4"; "."; "3"; "d"]%ch [A_int 7] = Ok ["7"; " "; " "; " "]%ch /\
  text ["%"; "l"; "b"]%ch [A_long (2 ^ 40)] = Ok (replicate 32 "0"%ch).
Proof. vm_compute. repeat split. Qed.
(** Undefined behaviour: a format that ends in a bare percent sign is read past its
    terminator; a precision above 41 indexes past the table of powers; the magnitude of
    the least int overflows; [%.2s] reads a third character. *)
Lemma printf_undefined :
  text ["a"; "%"]%ch [] = Stop HostUB /\
  text ["%"; "."; "4"; "2"; "f"]%ch [A_double (double_of 1)] = Stop HostUB /\
  text ["%"; "d"]%ch [A_int (- 2 ^ 31)] = Stop HostUB /\
  text ["%"; "."; "2"; "s"]%ch [A_ptr 0 ["a"; "b"]%ch] = Stop HostUB.
Proof. vm_compute. repeat split. Qed.
End deviations.

(** ** Concrete inputs *)
Section witnesses.
#[local] Existing Instance n64_abi.
Lemma integer_buffer_safe_witness : u32_ok 5 /\
  (exists buf width', len buf <= 32 /\
    let t := rev_text buf width' (without 21 FLAGS_HASH) in
    _ntoa_long _out_buffer 2 0 false 16 0 5 21 0 [7; 7] = rev_loop _out_buffer 2 t 0 [7; 7] /\
    _ntoa_long_long _out_buffer 2 0 false 16 0 5 21 0 [7; 7] = rev_loop _out_buffer 2 t 0 [7; 7]) /\
  _ntoa_long _out_buffer 2 9 false 0 0 5 0 0 [7; 7] = Stop HostUB.
Proof.
  assert (u32_ok 5) as Hw by (vm_compute; split; congruence). split; [exact Hw|]. split.
  - apply (proj1 (integer_buffer_safe _out_buffer 2 0 false 16 0 5 21 0 [7; 7] Hw)). discriminate.
  - apply (proj2 (integer_buffer_safe _out_buffer 2 9 false 0 0 5 0 0 [7; 7] Hw) eq_refl). left. reflexivity.
Defined.
(** [%08ld] of a negative long. *)
Definition sp_08ld : spec := mk_spec (FLAGS_ZEROPAD .| FLAGS_LONG) 8 0 "d"%ch.
Lemma integer_reads_back_witness :
  exists t, scan_number 10 t = -90210 /\ 8 <= len t <= 32 /\
    snprintf_ (Some (replicate 33 7)) 33 (["%"; "0"; "8"; "l"; "d"]%ch ++ [0]) [A_long (-90210)] =
      Ok (len t, Some (t ++ 0 :: drop (S (length t)) (replicate 33 7))).
Proof.
  destruct (integer_reads_back sp_08ld (-90210) []) as (t & Hs & Hl & _ & Hb);
    [by left|reflexivity|vm_compute; split; congruence..|vm_compute; congruence|vm_compute; reflexivity|].
  exists t. split; [etransitivity; [exact Hs|]; vm_compute; reflexivity|]. split; [exact Hl|].
  apply (Hb (["0"; "8"; "l"; "d"]%ch ++ [0]) [A_long (-90210)] 33 (replicate 33 7)); vm_compute; repeat split; congruence.
Defined.
Lemma whole_double_exact_witness :
  exists D, read_digits 10 D = 1234567 /\ Forall (is_digit_of 10) D /\ 1 <= len D <= 10 /\
    forall W (out : out_fct_type (W := W)) maxlen idx w, u32_ok 12 ->
      _ftoa out maxlen (double_of (-1234567)) 2 12 FLAGS_PRECISION idx w =
      rev_loop out maxlen (rev_text (sign_chars true FLAGS_PRECISION ++ D ++ point_zeros 2) 12 FLAGS_PRECISION) idx w.
Proof. apply (whole_double_exact (-1234567) 2 12 FLAGS_PRECISION); [lia|vm_compute; split; congruence|right; reflexivity]. Defined.
End witnesses.
