(* ===== verification/PrintfExp.v ===== *)
(** The decimal exponent of [%e] ([src/hello/printf.c], [_etoa]): for every finite
    double the power of ten found is close enough to the value that what is left to
    print as [%f] is at most 1e9, so [_ftoa] and [_etoa] do not call each other again. *)
From S2P Require Import Prelude Bits Insns State Fp Fpu Doubles Rounding FpProps FpArith Firmware Printf.
From Stdlib Require Import SpecFloat.

(** ** Doubles as exact values *)
Abbreviation U := (sf_units 53 1024).
(** The unit one. *)
Definition one : Z := 2 ^ 1074.
Lemma one_pos : 0 < one.
Proof. by apply Z.pow_pos_nonneg. Qed.
Abbreviation dvalid := (valid 53 1024).
Abbreviation dfin := (fin 53 1024).
(** Rounding never crosses a number of the format. *)
Lemma P2 : 2 <= 53. Proof. lia. Qed.
Lemma X2 : 53 < 1024. Proof. lia. Qed.
Lemma nearest_le c x B : cut c -> nearest_rep 53 1024 c x -> representable 53 1024 B -> c (2 * B) <> Gt -> U x <= B.
Proof.
  intros Hc Hn HB H2. destruct (Z.le_gt_cases (U x) B) as [|Hlt]; [done|]. destruct (Hn B HB) as [H _]. destruct (H Hlt) as [H1 _].
  destruct H1. apply (Hc (2 * B)); [lia|done].
Qed.
Lemma nearest_ge c x B : cut c -> nearest_rep 53 1024 c x -> representable 53 1024 B -> c (2 * B) <> Lt -> B <= U x.
Proof.
  intros Hc Hn HB H2. destruct (Z.le_gt_cases B (U x)) as [|Hlt]; [done|]. destruct (Hn B HB) as [_ H]. destruct (H Hlt) as [H1 _].
  destruct H1. apply (cut_gt c Hc _ (2 * B)); [lia|done].
Qed.
Lemma ratio_between a b P Q x : 0 < Q -> nearest_rep 53 1024 (ratio P Q) x -> representable 53 1024 a -> representable 53 1024 b ->
  a * Q <= P <= b * Q -> a <= U x <= b.
Proof.
  intros HQ Hn Ha Hb Hab. split.
  - apply (nearest_ge _ _ _ (cut_ratio P Q HQ) Hn Ha). unfold ratio. rewrite Z.compare_lt_iff. lia.
  - apply (nearest_le _ _ _ (cut_ratio P Q HQ) Hn Hb). unfold ratio. rewrite Z.compare_gt_iff. lia.
Qed.
(** Multiples of [2^-16] and of one below [2^53]. *)
Lemma rep_grid n k : Z.abs n <= 2 ^ 53 -> 0 <= k <= 1074 -> representable 53 1024 (n * 2 ^ k).
Proof. intros Hn Hk. exists n, k. split; [done|]. split; [|done]. unfold emin. lia. Qed.
Lemma fin_bounded x : dvalid x -> Z.abs (U x) < top 53 1024 -> dfin x.
Proof. intros Hv Hb. destruct x as [s|s| |s m e]; try done. cbn [sf_units] in Hb. destruct s; cbn [cond_Zopp] in Hb; lia. Qed.
Lemma below_top x n k : Z.abs n <= 2 ^ 53 -> 0 <= k <= 1074 -> Z.abs x <= Z.abs n * 2 ^ k -> Z.abs x < top 53 1024.
Proof.
  intros Hn Hk Hx. assert (0 < 2 ^ k) by (apply Z.pow_pos_nonneg; lia). assert (2 ^ k <= one) by (apply Z.pow_le_mono_r; lia).
  assert (2 ^ 53 * one < top 53 1024) by (vm_compute; reflexivity). generalize dependent (top 53 1024). generalize dependent one. intros. nia.
Qed.
(** The operations stay between bounds of the format. *)
Lemma add_between x y a b : dfin x -> dfin y -> representable 53 1024 a -> representable 53 1024 b -> a <= U x + U y <= b ->
  a <= U (double_add x y) <= b /\ dvalid (double_add x y).
Proof.
  intros Hx Hy Ha Hb Hab. destruct (add_rounds 53 1024 P2 X2 x y Hx Hy) as (H1 & H2 & _).
  split; [|done]. apply (ratio_between a b (U x + U y) 1); try done; lia.
Qed.
Lemma sub_between x y a b : dfin x -> dfin y -> representable 53 1024 a -> representable 53 1024 b -> a <= U x - U y <= b ->
  a <= U (dsub x y) <= b /\ dvalid (dsub x y).
Proof.
  intros Hx Hy Ha Hb Hab. unfold dsub. rewrite sub_opp. apply add_between; try done; [by destruct y|].
  assert (U (SFopp y) = - U y) as -> by (destruct y as [[]|[]| |[] m e]; cbn [SFopp sf_units cond_Zopp negb]; lia). lia.
Qed.
Lemma mul_between x y a b : dfin x -> dfin y -> representable 53 1024 a -> representable 53 1024 b -> a * one <= U x * U y <= b * one ->
  a <= U (dmul x y) <= b /\ dvalid (dmul x y).
Proof.
  intros Hx Hy Ha Hb Hab. destruct (mul_rounds 53 1024 P2 X2 x y Hx Hy) as (H1 & H2 & _).
  split; [|done]. change (- emin 53 1024) with 1074 in H1. apply (ratio_between a b (U x * U y) one); try done.
Qed.
Lemma double_of_units n : Z.abs n <= 2 ^ 53 -> U (double_of n) = n * one /\ dfin (double_of n).
Proof.
  intros Hn. destruct (normalize_rounds 53 1024 P2 X2 n 0 false (n * one) 1) as (H1 & H2 & _); [done| |].
  { exists 0. split; [done|]. split; [by vm_compute|]. rewrite Z.pow_0_r, !Z.mul_1_r. change (2 ^ (0 - emin 53 1024 + 0)) with one. lia. }
  fold (double_of n) in H1, H2. assert (representable 53 1024 (n * one)) as Hr by (by apply (rep_grid n 1074)).
  assert (n * one <= U (double_of n) <= n * one) as Hb by (apply (ratio_between _ _ (n * one) 1); try done; lia).
  split; [lia|]. apply fin_bounded; [done|]. apply (below_top _ n 1074); [done|done|]. change (2 ^ 1074) with one. pose proof one_pos. nia.
Qed.
(** The integer part. *)
Lemma trunc_units x : dfin x -> dtrunc x = Some (Z.quot (U x) one).
Proof.
  destruct x as [s|s| |s m e]; try done. intros ((He & _) & _). change (emin 53 1024) with (-1074) in He. cbn [dtrunc]. f_equal.
  assert ((if 0 <=? e then Zpos m << e else Zpos m >> (- e)) = Z.quot (Zpos m * 2 ^ (e - -1074)) one) as E.
  { rewrite Z.quot_div_nonneg by ((apply Z.mul_nonneg_nonneg; [lia|apply Z.pow_nonneg; lia]) || by vm_compute). destruct (Z.leb_spec 0 e).
    - rewrite Z.shiftl_mul_pow2 by done. replace (e - -1074) with (e + 1074) by lia. unfold one. rewrite Z.pow_add_r, Z.mul_assoc, Z.div_mul by (done || lia). done.
    - rewrite Z.shiftr_div_pow2 by lia. assert (one = 2 ^ (- e) * 2 ^ (e - -1074)) as -> by (unfold one; rewrite <- Z.pow_add_r by lia; f_equal; lia).
      rewrite Z.div_mul_cancel_r by (apply Z.pow_nonzero; lia). done. }
  rewrite E. cbn [sf_units]. change (emin 53 1024) with (-1074). destruct s; cbn [cond_Zopp]; [|done].
  rewrite Z.quot_opp_l by (by vm_compute). done.
Qed.

(** Comparison is the order of the values. *)
Lemma encoded x : dvalid x -> exists b, is_nan_bits binary64 b = false /\ sf binary64 b = x.
Proof.
  intros Hv. assert (exists b, sf binary64 b = x) as [b E].
  { destruct x as [[]|[]| |s m e]; [by exists (2 ^ 63)|by exists 0|by exists 0xfff0000000000000|by exists 0x7ff0000000000000|done|].
    exists (bits_of_sf binary64 0 (S754_finite s m e)). apply (decode_encode T_double). by apply (canonical_canon T_double). }
  exists b. split; [|done]. apply (valid_not_nan T_double b). change (fmt_of T_double) with binary64. rewrite E. exact Hv.
Qed.
Lemma compare_valid x y : dvalid x -> dvalid y -> SFcompare x y = Some (U x ?= U y).
Proof.
  intros Hx Hy. destruct (encoded x Hx) as (a & Na & <-), (encoded y Hy) as (b & Nb & <-).
  pose proof (compare_units T_double a b) as Hc. change (fmt_of T_double) with binary64 in Hc. rewrite Hc. unfold fp_order. rewrite Na, Nb. cbn [orb].
  destruct (fields_sf T_double a Na) as (_ & Ea & _), (fields_sf T_double b Nb) as (_ & Eb & _).
  assert (U (sf binary64 a) = fp_units binary64 a) as -> by exact Ea. assert (U (sf binary64 b) = fp_units binary64 b) as -> by exact Eb. done.
Qed.
Lemma dlt_units x y : dvalid x -> dvalid y -> dlt x y = (U x <? U y).
Proof. intros Hx Hy. unfold dlt, SFltb, Z.ltb. rewrite compare_valid by done. by destruct (U x ?= U y). Qed.
Lemma dle_units x y : dvalid x -> dvalid y -> dle x y = (U x <=? U y).
Proof. intros Hx Hy. unfold dle, SFleb, Z.leb. rewrite compare_valid by done. by destruct (U x ?= U y). Qed.

(** ** The fields of a double *)
Definition mantissa_of (bits : Z) : double := dlit ((bits .& ((1 << 52) - 1)) .| (1023 << 52)).
(** The exponent field of a double and the bound it gives. *)
Lemma exponent_field s e m x : 0 <= e < 2047 -> 0 <= m < 2 ^ 52 -> bits_of_sf binary64 0 x = pack binary64 s e m -> U x < 2 ^ (e + 52) ->
  let bits := bits_of_sf binary64 0 x in -1023 <= exp2_of bits <= 1023 /\ U x < 2 ^ (exp2_of bits + 1075).
Proof.
  intros He Hm E Hu bits. unfold exp2_of. change ((bits >> 52) .& 0x7ff) with (bits_exp binary64 bits).
  destruct (pack_fields T_double s e m) as (_ & E1 & _); [change (few (fmt_of T_double)) with 11; lia|done|]. change (fmt_of T_double) with binary64 in E1.
  unfold bits. rewrite E, E1. assert (s32 e = e) as -> by (apply wraps_id; unfold in_s; lia).
  replace (e - 1023 + 1075) with (e + 52) by lia. split; [lia|done].
Qed.
Lemma exp2_bound x : dfin x -> 0 <= U x ->
  let bits := bits_of_sf binary64 0 x in -1023 <= exp2_of bits <= 1023 /\ U x < 2 ^ (exp2_of bits + 1075).
Proof.
  intros Hx Hn. destruct x as [s|s| |s m e]; try done; [apply (exponent_field s 0 0); done|].
  pose proof (units_pos 53 1024 m e Hx) as Hp. destruct Hx as ((He & He') & Hm & Hl). cbn [sf_units] in *. change (emin 53 1024) with (-1074) in *.
  destruct s; cbn [cond_Zopp] in *; [lia|]. assert (0 < 2 ^ (e - -1074)) by (apply Z.pow_pos_nonneg; lia).
  destruct (Z.ltb_spec (Zpos m) (2 ^ 52)) as [Hs|Hs].
  - assert (e = -1074) as -> by (destruct (Z.eq_dec e (-1074)); [done|]; specialize (Hl ltac:(lia)); change (53 - 1) with 52 in Hl; lia).
    apply (exponent_field false 0 (Zpos m)); [lia|lia| |].
    + cbn [bits_of_sf]. change (fmw binary64) with 52. by rewrite (proj2 (Z.ltb_lt _ _) Hs).
    + cbn [sf_units cond_Zopp]. change (emin 53 1024) with (-1074). rewrite Z.sub_diag. lia.
  - apply (exponent_field false (e + 1075) (Zpos m - 2 ^ 52)); [lia|lia| |].
    + cbn [bits_of_sf]. change (fmw binary64) with 52. change (femin binary64) with (-1074). rewrite (proj2 (Z.ltb_ge _ _) Hs). f_equal. lia.
    + cbn [sf_units cond_Zopp]. change (emin 53 1024) with (-1074). replace (e + 1075 + 52) with (53 + (e - -1074)) by lia.
      rewrite Z.pow_add_r by lia. apply Z.mul_lt_mono_pos_r; [done|lia].
Qed.
(** The mantissa in [1, 2). *)
Lemma mantissa_range bits : dfin (mantissa_of bits) /\ one <= U (mantissa_of bits) <= 2 * one.
Proof.
  unfold mantissa_of, dlit. set (m := bits .& ((1 << 52) - 1)). assert (0 <= m < 2 ^ 52) as Hm by (apply (land_mask_range bits 52); done).
  assert (m .| (1023 << 52) = pack binary64 false 1023 m) as -> by (rewrite Z.lor_comm; done).
  destruct (pack_fields T_double false 1023 m) as (E1 & E2 & E3 & _); [by vm_compute|done|]. change (fmt_of T_double) with binary64 in *.
  set (b := pack binary64 false 1023 m) in *. assert (is_nan_bits binary64 b = false) as Hn by (unfold is_nan_bits; by rewrite E2).
  destruct (fields_sf T_double b Hn) as (_ & Hu & Hf & _). change (fmt_of T_double) with binary64 in *. change (sf binary64 b) with (sf_of_bits binary64 b) in *.
  change (fprec binary64) with 53 in *. change (femax binary64) with 1024 in *. split.
  - apply Hf. unfold fp_finite. change (fmt_of T_double) with binary64. by rewrite E2.
  - rewrite Hu. unfold fp_units. rewrite E1, E2, E3. change (1023 =? 0) with false. change (2 ^ fmw binary64) with (2 ^ 52). change (1023 - 1) with 1022.
    assert (one = 2 ^ 52 * 2 ^ 1022) as -> by (rewrite <- Z.pow_add_r by done; done). assert (0 < 2 ^ 1022) by (by apply Z.pow_pos_nonneg). generalize dependent (2 ^ 1022). intros. nia.
Qed.
(** ** Bounds *)
(** Doubles are bracketed by multiples of [2^-16], the steps. *)
Definition step : Z := 2 ^ 1058.
Lemma valid_canon x : valid_binary 53 1024 x = true -> x <> S754_nan -> dvalid x.
Proof.
  destruct x as [s|s| |s m e]; try done. intros Hb _. cbn [valid_binary] in Hb. unfold bounded, canonical_mantissa, fexp in Hb.
  apply andb_true_iff in Hb as [Hc Hm]. apply Z.eqb_eq in Hc. apply Z.leb_le in Hm. change (emin 53 1024) with (-1074) in Hc.
  destruct (digits_range (Zpos m) ltac:(lia)) as (_ & H1 & H2). cbn [Zdigits2] in H1, H2. unfold valid, canon. change (emin 53 1024) with (-1074).
  split; [lia|]. split.
  - eapply Z.lt_le_trans; [exact H1|]. apply Z.pow_le_mono_r; lia.
  - intros Hl. eapply Z.le_trans; [|apply H2; lia]. apply Z.pow_le_mono_r; lia.
Qed.
Definition in_band (x : double) (lo hi : Z) : bool :=
  valid_binary 53 1024 x && match x with S754_finite _ _ _ => true | _ => false end && (lo * step <=? U x) && (U x <=? hi * step).
Lemma band x lo hi : in_band x lo hi = true -> dfin x /\ lo * step <= U x <= hi * step.
Proof.
  unfold in_band. intros [[[Hv Hf]%andb_true_iff Hlo]%andb_true_iff Hhi]%andb_true_iff. apply Z.leb_le in Hlo, Hhi. split; [|done].
  destruct x as [| | |s m e]; try done. by apply (valid_canon (S754_finite s m e)).
Qed.
Lemma one_step : one = 65536 * step.
Proof. unfold one, step. change 65536 with (2 ^ 16). by rewrite <- Z.pow_add_r. Qed.
Lemma step_pos : 0 < step.
Proof. by apply Z.pow_pos_nonneg. Qed.
Lemma rep_step k : Z.abs k <= 2 ^ 30 -> representable 53 1024 (k * step).
Proof. intros Hk. apply (rep_grid k 1058); lia. Qed.
Lemma bracket x lo hi : dvalid x -> lo * step <= U x <= hi * step -> Z.abs lo <= 2 ^ 30 -> Z.abs hi <= 2 ^ 30 -> dfin x.
Proof.
  intros Hv Hx Hlo Hhi. apply fin_bounded; [done|]. apply (below_top _ (2 ^ 30) 1058); [lia|lia|].
  change (2 ^ 1058) with step. pose proof step_pos. generalize dependent step. intros u Hx Hu. nia.
Qed.
Lemma scaled_between n u c lo hi : 0 < u -> lo * u <= c <= hi * u -> -1023 <= n <= 1023 -> hi = lo + 1 ->
  (n * lo - 1023) * u * (65536 * u) <= n * (65536 * u) * c <= (n * lo + 1023) * u * (65536 * u).
Proof.
  intros Hu Hc Hn ->. assert (exists d, c = lo * u + d /\ 0 <= d <= u) as (d & -> & Hd) by (exists (c - lo * u); lia).
  assert (- 1023 * u <= n * d <= 1023 * u) by nia. assert (0 < 65536 * u) by lia. split; nia.
Qed.
Lemma div_between x y a b : dfin x -> dfin y -> 0 < U y -> representable 53 1024 a -> representable 53 1024 b -> a * U y <= U x * one <= b * U y ->
  a <= U (double_div x y) <= b /\ dvalid (double_div x y).
Proof.
  intros Hx Hy H0 Ha Hb Hab. destruct (div_rounds 53 1024 P2 X2 x y Hx Hy ltac:(lia)) as (H1 & H2 & _).
  change (- emin 53 1024) with 1074 in H1. rewrite Z.sgn_pos, Z.mul_1_r, Z.abs_eq in H1 by lia.
  split; [|done]. by apply (ratio_between a b (U x * one) (U y)).
Qed.
(** A double whose value, in steps, is between two integers. *)
Definition within (x : double) (lo hi : Z) : Prop := dfin x /\ lo * step <= U x <= hi * step.
Lemma within_fin x lo hi : dvalid x -> lo * step <= U x <= hi * step -> Z.abs lo <= 2 ^ 30 -> Z.abs hi <= 2 ^ 30 -> within x lo hi.
Proof. intros Hv Hx Hlo Hhi. split; [|done]. by apply (bracket x lo hi). Qed.
Lemma within_add x y a b c d : within x a b -> within y c d -> Z.abs (a + c) <= 2 ^ 30 -> Z.abs (b + d) <= 2 ^ 30 ->
  within (double_add x y) (a + c) (b + d).
Proof.
  intros [Fx Bx] [Fy By] H1 H2. destruct (add_between x y ((a + c) * step) ((b + d) * step)) as [B V]; [done|done|by apply rep_step..|lia|].
  by apply within_fin.
Qed.
Lemma within_sub x y a b c d : within x a b -> within y c d -> Z.abs (a - d) <= 2 ^ 30 -> Z.abs (b - c) <= 2 ^ 30 ->
  within (dsub x y) (a - d) (b - c).
Proof.
  intros [Fx Bx] [Fy By] H1 H2. destruct (sub_between x y ((a - d) * step) ((b - c) * step)) as [B V]; [done|done|by apply rep_step..|lia|].
  by apply within_fin.
Qed.
(** A multiple of a constant. *)
Lemma within_scaled n c lo : within c lo (lo + 1) -> -1023 <= n <= 1023 -> 0 <= lo <= 300000 ->
  within (dmul (double_of n) c) (n * lo - 1023) (n * lo + 1023).
Proof.
  intros [Fc Bc] Hn Hlo. destruct (double_of_units n ltac:(lia)) as [En Fn]. assert (Z.abs (n * lo) <= 1023 * 300000) by nia.
  destruct (mul_between (double_of n) c ((n * lo - 1023) * step) ((n * lo + 1023) * step)) as [B V]; [done|done|apply rep_step; lia..| |].
  { rewrite En, one_step. pose proof step_pos. by apply (scaled_between n step (U c) lo (lo + 1)). }
  apply within_fin; (done || lia).
Qed.
(** A quotient by a number that is at least [c]. *)
Lemma within_div x y a b c d lo hi : within x a b -> within y c d -> 0 < c -> lo <= 0 <= hi -> lo * c <= a * 65536 -> b * 65536 <= hi * c ->
  Z.abs lo <= 2 ^ 30 -> Z.abs hi <= 2 ^ 30 -> within (double_div x y) lo hi.
Proof.
  intros [Fx Bx] [Fy By] Hc Hlh Hlo Hhi H1 H2. pose proof step_pos as Hs.
  destruct (div_between x y (lo * step) (hi * step)) as [B V]; [done|done|nia|by apply rep_step..| |by apply within_fin].
  rewrite one_step. generalize dependent step. intros u Bx By Hu. clear -Bx By Hc Hlh Hlo Hhi Hu.
  assert (lo * U y <= lo * (c * u)) by nia. assert (hi * (c * u) <= hi * U y) by nia.
  assert (lo * (c * u) <= a * 65536 * u) by nia. assert (b * 65536 * u <= hi * (c * u)) by nia.
  assert (lo * u * U y = lo * U y * u) as -> by ring. assert (hi * u * U y = hi * U y * u) as -> by ring.
  assert (U x * (65536 * u) = U x * 65536 * u) as -> by ring. split; apply Z.mul_le_mono_nonneg_r; lia.
Qed.
Lemma within_square x a b m : within x a b -> Z.abs a <= m -> Z.abs b <= m -> m <= 2 ^ 20 -> forall hi, m * m <= hi * 65536 -> hi <= 2 ^ 30 ->
  within (dmul x x) 0 hi.
Proof.
  intros [Fx Bx] Ha Hb Hm hi Hh Hh2. pose proof step_pos as Hs.
  destruct (mul_between x x (0 * step) (hi * step)) as [B V]; [done|done|apply rep_step; lia|apply rep_step; nia| |apply within_fin; (done || nia)].
  rewrite one_step. generalize dependent step. intros u Bx Hu. clear -Bx Ha Hb Hm Hh Hu.
  assert (- (m * u) <= U x <= m * u) as Hx by nia. assert (0 <= U x * U x <= m * u * (m * u)) as [H0 H1] by nia. split; [lia|].
  assert (m * u * (m * u) = m * m * (u * u)) as E by ring. assert (m * m * (u * u) <= hi * 65536 * (u * u)) by (apply Z.mul_le_mono_nonneg_r; nia). lia.
Qed.
Lemma within_weaken x a b a' b' : within x a b -> a' <= a -> b <= b' -> within x a' b'.
Proof. intros [Fx Bx] Ha Hb. split; [done|]. pose proof step_pos. nia. Qed.
Lemma constant x lo hi : in_band x lo hi = true -> within x lo hi.
Proof. apply band. Qed.
(** The conversion to [int] drops the fraction. *)
Lemma within_trunc x a b n : within x a b -> int_of_double x = Ok n ->
  (65536 * n <= b \/ n <= 0) /\ (a <= 65536 * n \/ 0 <= n) /\ a - 65536 < 65536 * n < b + 65536.
Proof.
  intros [Fx Bx]. unfold int_of_double. rewrite trunc_units by done. unfold sint. remember (Z.quot (U x) one) as z eqn:Ez.
  destruct ((- 2 ^ (32 - 1) <=? z) && (z <? 2 ^ (32 - 1))); [|discriminate]. intros Eq. injection Eq as <-. rewrite one_step in Ez.
  pose proof step_pos as Hs. pose proof (Z.quot_rem (U x) (65536 * step) ltac:(lia)) as Er. rewrite <- Ez in Er. clear Fx.
  assert (0 <= U x -> 0 <= z /\ 0 <= Z.rem (U x) (65536 * step) < 65536 * step) as H1.
  { intros H. split; [rewrite Ez; apply Z.quot_pos; lia|apply Z.rem_bound_pos; lia]. }
  assert (U x <= 0 -> z <= 0 /\ - (65536 * step) < Z.rem (U x) (65536 * step) <= 0) as H2.
  { intros H. pose proof (Z.rem_bound_pos (- U x) (65536 * step) ltac:(lia) ltac:(lia)) as Hr. rewrite Z.rem_opp_l in Hr by lia.
    pose proof (Z.quot_pos (- U x) (65536 * step) ltac:(lia) ltac:(lia)) as Hq. rewrite Z.quot_opp_l in Hq by lia. lia. }
  generalize dependent (Z.rem (U x) (65536 * step)). generalize dependent (U x). generalize dependent step. intros u Hs v Bx _ r Er H1 H2.
  destruct (Z.le_gt_cases 0 v) as [Hv|Hv]; [destruct (H1 Hv)|destruct (H2 ltac:(lia))]; clear H1 H2; split_and!; nia.
Qed.
Lemma within_int n : Z.abs n <= 2 ^ 13 -> within (double_of n) (n * 65536) (n * 65536).
Proof. intros Hn. destruct (double_of_units n ltac:(lia)) as [E F]. split; [done|]. rewrite E, one_step. lia. Qed.
Lemma within_double z a b : within z a b -> Z.abs a <= 2 ^ 20 -> Z.abs b <= 2 ^ 20 -> within (dmul (double_of 2) z) (2 * a) (2 * b).
Proof.
  intros [Fz Bz] Ha Hb. destruct (double_of_units 2 ltac:(lia)) as [E F].
  destruct (mul_between (double_of 2) z (2 * a * step) (2 * b * step)) as [B V]; [done|done|apply rep_step; lia..| |apply within_fin; (done || lia)].
  rewrite E. pose proof one_pos. generalize dependent one. intros o Ho. generalize dependent step. intros. nia.
Qed.

(** ** The estimate *)
Definition estimate (n : Z) (mant : double) : double :=
  double_add (double_add (dlit 0x3fc68a288b60c8b3) (dmul (double_of n) (dlit 0x3fd34413509f79fb)))
             (dmul (dsub mant (dlit 0x3ff8000000000000)) (dlit 0x3fd287a7636f4361)).
Lemma estimate_range n mant : -1023 <= n <= 1023 -> within mant 65536 131072 ->
  within (estimate n mant) (n * 19728 + 1029) (n * 19728 + 22052).
Proof.
  intros Hn Hm. unfold estimate.
  pose proof (constant (dlit 0x3fc68a288b60c8b3) 11540 11541 ltac:(by vm_compute)) as C1. pose proof (constant (dlit 0x3fd34413509f79fb) 19728 19729 ltac:(by vm_compute)) as C2.
  pose proof (constant (dlit 0x3fd287a7636f4361) 18974 18975 ltac:(by vm_compute)) as C3. pose proof (constant (dlit 0x3ff8000000000000) 98304 98304 ltac:(by vm_compute)) as C4.
  pose proof (within_add _ _ _ _ _ _ C1 (within_scaled n _ _ C2 Hn ltac:(lia)) ltac:(lia) ltac:(lia)) as [F6 B6].
  pose proof (within_sub _ _ _ _ _ _ Hm C4 ltac:(lia) ltac:(lia)) as [F7 B7]. destruct C3 as [F3 B3]. clear C1 C2 C4.
  set (s := double_add _ (dmul _ _)) in *. set (d := dsub mant _) in *. set (c3 := dlit 0x3fd287a7636f4361) in *. clearbody s d c3.
  destruct (mul_between d c3 (-9488 * step) (9488 * step)) as [B8 V8]; [done|done|apply rep_step; lia..| |].
  { rewrite one_step. pose proof step_pos. generalize dependent step. intros u. intros. nia. }
  pose proof (within_fin _ _ _ V8 B8 ltac:(lia) ltac:(lia)) as H8. apply (within_weaken _ _ _ _ _ (within_add s _ _ _ _ _ (conj F6 B6) H8 ltac:(lia) ltac:(lia))); lia.
Qed.

(** ** The power of ten *)
(** The continued fraction for the exponential. *)
Definition exp_tail (z2 : double) : double :=
  double_div z2 (double_add (double_of 6) (double_div z2 (double_add (double_of 10) (double_div z2 (double_of 14))))).
Definition exp_fraction (z : double) : double :=
  double_add (double_of 1) (double_div (dmul (double_of 2) z) (double_add (dsub (double_of 2) z) (exp_tail (dmul z z)))).
Lemma exp_tail_range z2 : within z2 0 77500 -> within (exp_tail z2) 0 13000.
Proof.
  intros H. unfold exp_tail.
  pose proof (within_div z2 (double_of 14) 0 77500 917504 917504 0 5600 H (within_int 14 ltac:(lia)) ltac:(lia) ltac:(lia) ltac:(lia) ltac:(lia) ltac:(lia) ltac:(lia)) as H1.
  pose proof (within_add (double_of 10) _ 655360 655360 0 5600 (within_int 10 ltac:(lia)) H1 ltac:(lia) ltac:(lia)) as H2.
  pose proof (within_div z2 _ 0 77500 655360 660960 0 8000 H H2 ltac:(lia) ltac:(lia) ltac:(lia) ltac:(lia) ltac:(lia) ltac:(lia)) as H3.
  pose proof (within_add (double_of 6) _ 393216 393216 0 8000 (within_int 6 ltac:(lia)) H3 ltac:(lia) ltac:(lia)) as H4.
  apply (within_div z2 _ 0 77500 393216 401216 0 13000 H H4); lia.
Qed.
Lemma exp_fraction_part z a b lo : within z a b -> -71200 <= a -> a <= b -> b <= 26000 -> lo <= 0 -> lo * (131072 - b) <= 2 * a * 65536 -> -57344 <= lo ->
  within (exp_fraction z) 8192 110000.
Proof.
  intros H Ha Hab Hb Hlo0 Hlo Hlo2. unfold exp_fraction.
  pose proof (exp_tail_range _ (within_square z a b 71200 H ltac:(lia) ltac:(lia) ltac:(lia) 77500 ltac:(lia) ltac:(lia))) as Ht.
  pose proof (within_sub (double_of 2) z 131072 131072 a b (within_int 2 ltac:(lia)) H ltac:(lia) ltac:(lia)) as H1.
  pose proof (within_add _ _ _ _ _ _ H1 Ht ltac:(lia) ltac:(lia)) as H2. pose proof (within_double z a b H ltac:(lia) ltac:(lia)) as H3.
  pose proof (within_div _ _ _ _ _ _ lo 40000 H3 H2 ltac:(lia) ltac:(lia) ltac:(lia) ltac:(lia) ltac:(lia) ltac:(lia)) as H4.
  pose proof (within_add (double_of 1) _ 65536 65536 _ _ (within_int 1 ltac:(lia)) H4 ltac:(lia) ltac:(lia)) as H5.
  apply (within_weaken _ _ _ _ _ H5); lia.
Qed.
Lemma exp_fraction_range z : within z (-71200) 26000 -> within (exp_fraction z) 8192 110000.
Proof.
  intros [F B]. destruct (Z.le_gt_cases (-32768 * step) (U z)) as [H|H].
  - apply (exp_fraction_part z (-32768) 26000 (-50000)); try lia. split; [done|lia].
  - apply (exp_fraction_part z (-71200) (-32768) (-57344)); try lia. split; [done|lia].
Qed.
(** The pieces of the computation. *)
Definition exp2_estimate (e : Z) : double := double_add (dmul (double_of e) (dlit 0x400a934f0979a371)) (dlit 0x3fe0000000000000).
Definition exp_arg (e n : Z) : double := dsub (dmul (double_of e) (dlit 0x40026bb1bbb55516)) (dmul (double_of n) (dlit 0x3fe62e42fefa39ef)).
Definition scale_of (n : Z) : double := dlit (u64 (u64 (n + 1023) << 52)).
Lemma power_of_pieces e : power_of e = (let! n := int_of_double (exp2_estimate e) in Ok (dmul (scale_of n) (exp_fraction (exp_arg e n)))).
Proof. reflexivity. Qed.
(** A power of two. *)
Lemma scale_units n : -1022 <= n <= 1023 -> dfin (scale_of n) /\ U (scale_of n) = 2 ^ (n + 1074).
Proof.
  intros Hn. unfold scale_of. assert (u64 (n + 1023) = n + 1023) as -> by (apply wrapu_id; unfold in_u; lia).
  assert (u64 ((n + 1023) << 52) = pack binary64 false (n + 1023) 0) as ->.
  { rewrite Z.shiftl_mul_pow2 by lia. rewrite (pack_sum T_double) by (change (few (fmt_of T_double)) with 11; change (fmw (fmt_of T_double)) with 52; lia).
    change (few (fmt_of T_double)) with 11. change (fmw (fmt_of T_double)) with 52. cbn [Z.b2z]. rewrite Z.mul_0_l, Z.add_0_r, Z.add_0_l.
    apply wrapu_id. unfold in_u. lia. }
  destruct (pack_fields T_double false (n + 1023) 0) as (E1 & E2 & E3 & _); [change (few (fmt_of T_double)) with 11; lia|done|]. change (fmt_of T_double) with binary64 in *.
  unfold dlit. set (b := pack binary64 false (n + 1023) 0) in *.
  assert (is_nan_bits binary64 b = false) as Hnan by (unfold is_nan_bits; rewrite E3; apply andb_false_r).
  destruct (fields_sf T_double b Hnan) as (_ & Hu & Hf & _). split.
  - apply Hf. unfold fp_finite. change (fmt_of T_double) with binary64. rewrite E2. apply negb_true_iff, Z.eqb_neq. change (2 ^ few binary64) with 2048. lia.
  - transitivity (fp_units binary64 b); [exact Hu|]. unfold fp_units. rewrite E1, E2, E3. rewrite (proj2 (Z.eqb_neq _ _)) by lia.
    change (2 ^ fmw binary64) with (2 ^ 52). rewrite Z.add_0_l, <- Z.pow_add_r by lia. f_equal. lia.
Qed.
Lemma rep_wide m j : Z.abs m <= 2 ^ 17 -> 0 <= j <= 2081 -> representable 53 1024 (m * 2 ^ j).
Proof.
  intros Hm Hj. destruct (Z.le_gt_cases j 36) as [Hle|Hgt]; [exists m, j|exists (m * 2 ^ 36), (j - 36)].
  - split; [lia|]. split; [unfold emin; lia|done].
  - split; [lia|]. split; [unfold emin; lia|]. rewrite <- Z.mul_assoc, <- Z.pow_add_r by lia. do 2 f_equal. lia.
Qed.
Lemma scaled_fraction n sc g f : -1022 <= n <= 1023 -> dfin sc -> U sc = 2 ^ (n + 1074) -> within g 8192 110000 -> dmul sc g = f ->
  dfin f /\ 2 ^ (n + 1071) <= U f /\ dfin (double_div f (double_of 10)) /\ 2 ^ (n + 1067) <= U (double_div f (double_of 10)).
Proof.
  intros Hn Fs Es [Fg Bg] <-.
  assert (representable 53 1024 (110000 * 2 ^ (n + 1058)) /\ 110000 * 2 ^ (n + 1058) < top 53 1024) as [Rb Rt].
  { split; [apply rep_wide; lia|]. apply Z.le_lt_trans with (110000 * 2 ^ 2081); [|by vm_compute].
    apply Z.mul_le_mono_nonneg_l; [lia|apply Z.pow_le_mono_r; lia]. }
  assert (forall k, 13 <= k <= 2094 -> representable 53 1024 (2 ^ k)) as R2.
  { intros k Hk. replace k with (13 + (k - 13)) by lia. rewrite Z.pow_add_r by lia. apply rep_wide; lia. }
  assert (0 < 2 ^ (n + 1058)) as Hp by (apply Z.pow_pos_nonneg; lia). pose proof one_pos as Ho.
  destruct (mul_between sc g (2 ^ (n + 1071)) (110000 * 2 ^ (n + 1058))) as [Bf Vf]; [done|done|apply R2; lia|done| |].
  { rewrite Es. assert (2 ^ (n + 1071) * one = 2 ^ (n + 1074) * (8192 * step)) as ->.
    { unfold one, step. change 8192 with (2 ^ 13). rewrite <- !Z.pow_add_r by lia. f_equal. lia. }
    assert (110000 * 2 ^ (n + 1058) * one = 2 ^ (n + 1074) * (110000 * step)) as ->.
    { unfold one, step. rewrite !Z.mul_assoc, (Z.mul_comm (2 ^ (n + 1074))), <- !Z.mul_assoc, <- !Z.pow_add_r by lia. do 2 f_equal. lia. }
    assert (0 < 2 ^ (n + 1074)) by (apply Z.pow_pos_nonneg; lia). split; apply Z.mul_le_mono_nonneg_l; lia. }
  set (f := dmul sc g) in *. clearbody f. assert (0 < 2 ^ (n + 1067)) as Hq by (apply Z.pow_pos_nonneg; lia).
  assert (2 ^ (n + 1071) = 16 * 2 ^ (n + 1067)) as E16 by (change 16 with (2 ^ 4); rewrite <- Z.pow_add_r by lia; f_equal; lia).
  assert (dfin f) as Ff by (apply fin_bounded; [done|lia]). split; [done|]. split; [lia|].
  destruct (double_of_units 10 ltac:(lia)) as [E10 F10].
  destruct (div_between f (double_of 10) (2 ^ (n + 1067)) (110000 * 2 ^ (n + 1058))) as [Bq Vq]; [done|done|lia|apply R2; lia|done| |].
  { rewrite E10. generalize dependent one. intros o Ho E10. clear -Bf E16 Hp Hq Ho. split; nia. }
  split; [|lia]. apply fin_bounded; [done|lia].
Qed.
(** The power of ten of an exponent, against a power of two. *)
Lemma power_of_range e f : -308 <= e <= 308 -> power_of e = Ok f ->
  exists n, e * 217705 - 34000 < 65536 * n /\ -1022 <= n <= 1023 /\ dfin f /\ 2 ^ (n + 1071) <= U f /\
    dfin (double_div f (double_of 10)) /\ 2 ^ (n + 1067) <= U (double_div f (double_of 10)).
Proof.
  intros He E. rewrite power_of_pieces in E.
  pose proof (constant (dlit 0x400a934f0979a371) 217705 217706 ltac:(by vm_compute)) as C1. pose proof (constant (dlit 0x3fe0000000000000) 32768 32768 ltac:(by vm_compute)) as C2.
  pose proof (constant (dlit 0x40026bb1bbb55516) 150902 150903 ltac:(by vm_compute)) as C3. pose proof (constant (dlit 0x3fe62e42fefa39ef) 45426 45427 ltac:(by vm_compute)) as C4.
  pose proof (within_scaled e _ _ C1 ltac:(lia) ltac:(lia)) as H1. pose proof (within_add _ _ _ _ _ _ H1 C2 ltac:(lia) ltac:(lia)) as H2.
  fold (exp2_estimate e) in H2. destruct (int_of_double (exp2_estimate e)) as [n|] eqn:En; [|discriminate]. cbn [mbind result_bind] in E.
  destruct (within_trunc _ _ _ _ H2 En) as (T1 & T2 & T3). clear En H1 H2 C1 C2.
  assert (-1022 <= n <= 1023) as Hn by lia. exists n. split; [lia|]. split; [done|].
  pose proof (within_scaled e _ _ C3 ltac:(lia) ltac:(lia)) as H3. pose proof (within_scaled n _ _ C4 ltac:(lia) ltac:(lia)) as H4.
  pose proof (within_sub _ _ _ _ _ _ H3 H4 ltac:(lia) ltac:(lia)) as H5. clear H3 H4 C3 C4. fold (exp_arg e n) in H5.
  destruct (exp_fraction_range (exp_arg e n)) as [Fg Bg]; [apply (within_weaken _ _ _ _ _ H5); lia|]. set (g := exp_fraction _) in *. clearbody g.
  destruct (scale_units n Hn) as [Fs Es]. set (sc := scale_of n) in *. clearbody sc. clear H5 T1 T2 T3 He.
  apply (scaled_fraction n sc g f); [done|done|done|by split|by injection E].
Qed.
(** What is left to print. *)
Definition small (x : double) : Prop := dvalid x /\ Z.abs (U x) <= 10 ^ 9 * one.
Lemma quotient_small x f n k : dfin x -> 0 <= U x -> U x < 2 ^ (n + 1075) -> n <= k + 28 -> -1074 <= k -> dfin f -> 2 ^ (k + 1074) <= U f -> small (double_div x f).
Proof.
  intros Hx H0 Hn Hk Hk0 Hf Hp. assert (0 < 2 ^ (k + 1074)) as Hpos by (apply Z.pow_pos_nonneg; lia).
  assert (2 ^ (n + 1075) <= 10 ^ 9 * 2 ^ (k + 1074)) as Hb.
  { apply Z.le_trans with (2 ^ (29 + (k + 1074))); [apply Z.pow_le_mono_r; lia|]. rewrite Z.pow_add_r by lia. change (2 ^ 29) with 536870912. change (10 ^ 9) with 1000000000. lia. }
  pose proof one_pos as Ho.
  destruct (div_between x f (0 * one) (10 ^ 9 * one)) as [B V]; [done|done|lia|apply rep_grid; lia..| |split; [done|lia]].
  assert (0 <= U x <= 10 ^ 9 * U f) as Hq by lia. clear -Hq Ho. split; nia.
Qed.
Lemma exponent_range x e : dfin x -> 0 <= U x -> let bits := bits_of_sf binary64 0 x in
  int_of_double (estimate (exp2_of bits) (mantissa_of bits)) = Ok e ->
  exp2_of bits * 19728 < 65536 * e + 65536 /\ -308 <= e <= 308.
Proof.
  intros Hx Hn bits E. destruct (exp2_bound x Hx Hn) as [Hr _]. fold bits in Hr. destruct (mantissa_range bits) as [Fm Hm].
  assert (within (mantissa_of bits) 65536 131072) as Hin by (split; [done|rewrite one_step in Hm; lia]).
  pose proof (estimate_range (exp2_of bits) (mantissa_of bits) Hr Hin) as Hw. destruct (within_trunc _ _ _ _ Hw E) as (T1 & T2 & T3). clear Hw E. lia.
Qed.
Lemma decimal_exponent_small x e f : dfin x -> 0 <= U x -> decimal_exponent x = Ok (e, f) ->
  small (double_div x f) /\ (e = 0 -> small x).
Proof.
  intros Hx Hn E. unfold decimal_exponent in E. destruct (exp2_bound x Hx Hn) as [Hr Hb].
  pose proof (exponent_range x) as Hrange. set (bits := bits_of_sf binary64 0 x) in *.
  change (mbind (M := result) (fun e0 => let! f0 := power_of e0 in if dlt x f0 then Ok (e0 - 1, double_div f0 (double_of 10)) else Ok (e0, f0))
    (int_of_double (estimate (exp2_of bits) (mantissa_of bits))) = Ok (e, f)) in E.
  destruct (int_of_double _) as [e0|] eqn:Ee; [|discriminate]. destruct (Hrange e0 Hx Hn Ee) as [Hlo He0]. cbn [mbind result_bind] in E.
  destruct (power_of e0) as [f0|] eqn:Ep; [|discriminate]. destruct (power_of_range e0 f0 He0 Ep) as (k & Hk & Hk' & Ff & Uf & Ff' & Uf').
  set (n := exp2_of bits) in *. clearbody n bits. clear Hrange Ee Ep. cbn [mbind result_bind] in E.
  assert (e0 <= 1 -> small x) as Hsm.
  { intros H1. split; [by apply fin_valid|]. rewrite Z.abs_eq by done. assert (n <= 6) by lia.
    assert (2 ^ (n + 1075) <= 2 ^ (7 + 1074)) by (apply Z.pow_le_mono_r; lia). rewrite (Z.pow_add_r 2 7) in * by lia. change (2 ^ 7) with 128 in *. change (2 ^ 1074) with one in *. pose proof one_pos. change (10 ^ 9) with 1000000000. lia. }
  destruct (dlt x f0); injection E as <- <-.
  - split; [|intros; apply Hsm; lia]. apply (quotient_small x _ n (k - 7)); try done; try lia. by replace (k - 7 + 1074) with (k + 1067) by lia.
  - split; [|intros; apply Hsm; lia]. apply (quotient_small x _ n (k - 3)); try done; try lia. by replace (k - 3 + 1074) with (k + 1071) by lia.
Qed.
