(* ===== verification/PrintfEnds.v ===== *)
(** Termination of the guest's formatted output ([src/hello/printf.c]) on every format
    and every list of arguments: the loops over the format and over the 32-byte
    buffers, and the mutual recursion of [_ftoa] and [_etoa], which is two calls deep
    ([PrintfExp]). *)
From S2P Require Import Prelude Bits Fp Doubles Rounding FpArith Firmware Printf PrintfProps PrintfNum PrintfExp.
From Stdlib Require Import SpecFloat.

(** The computation does not run out of the model's fuel. *)
Definition ends {A} (r : result A) : Prop := r <> Stop OutOfFuel.
Lemma ends_bind {A B} (m : result A) (f : A -> result B) : ends m -> (forall a, m = Ok a -> ends (f a)) -> ends (mbind (M:=result) f m).
Proof. destruct m as [a|s]; intros Hm Hf; [by apply Hf|]. intros E. apply Hm. injection E as ->. done. Qed.
Lemma ends_Ok {A} (a : A) : ends (Ok a).
Proof. done. Qed.
Lemma ends_UB {A} : ends (A:=A) (Stop HostUB).
Proof. done. Qed.
Lemma ends_sint w x : ends (sint w x).
Proof. unfold sint. by destruct (_ && _). Qed.
Lemma ends_magnitude w x : ends (magnitude w x).
Proof. unfold magnitude. destruct (0 <? x); [done|apply ends_sint]. Qed.
Lemma ends_deref p : ends (deref p).
Proof. by destruct p. Qed.
Lemma ends_va_int va : ends (va_int va).
Proof. by destruct va as [|[] ?]. Qed.
Lemma ends_va_long va : ends (va_long va).
Proof. by destruct va as [|[] ?]. Qed.
Lemma ends_va_llong va : ends (va_llong va).
Proof. by destruct va as [|[] ?]. Qed.
Lemma ends_va_ptr va : ends (va_ptr va).
Proof. by destruct va as [|[] ?]. Qed.
Create HintDb ends.
#[export] Hint Resolve ends_Ok ends_UB ends_sint ends_magnitude ends_deref ends_va_int ends_va_long ends_va_llong ends_va_ptr : ends.
Ltac ends_step := first
  [ solve [auto with ends]
  | apply ends_bind; [|intros ? ?]
  | match goal with |- ends (match ?x with _ => _ end) => destruct x end ].
Ltac ends_auto := repeat ends_step.

(** What is left of the format and of the arguments: a double is one of the format. *)
Definition is_double (d : double) : Prop := valid_binary 53 1024 d = true.
Definition is_arg (a : arg) : Prop := match a with A_double d => is_double d | _ => True end.
Lemma atoi_ends i l : ends (atoi_loop i l) /\ forall q, atoi_loop i l = Ok q -> (length q.2 <= length l)%nat.
Proof.
  revert i. induction l as [|c l IH]; intros i; cbn [atoi_loop]; [done|]. destruct (_is_digit c).
  - destruct (IH (u32 (u32 (i * 10) + u32 (c - "0"%ch)))) as [He Hl]. split; [done|]. intros q Hq%Hl. cbn [length]. lia.
  - split; [done|]. by intros q [= <-].
Qed.
Lemma parse_flags_ends flags l : ends (parse_flags flags l) /\ forall q, parse_flags flags l = Ok q -> (length q.2 <= length l)%nat.
Proof.
  revert flags. induction l as [|c l IH]; intros flags; cbn [parse_flags]; [done|].
  repeat (match goal with |- context [c =? ?k] => destruct (c =? k) end;
    [match goal with |- context [parse_flags ?f l] => destruct (IH f) as [He Hl] end; split; [done|]; intros q Hq%Hl; cbn [length]; lia|]).
  split; [done|]. by intros q [= <-].
Qed.
Lemma tail_short (l : list Z) : (length (tail l) <= length l)%nat.
Proof. destruct l; cbn; lia. Qed.
Definition shrinks (format : list Z) (va : list arg) (format' : list Z) (va' : list arg) : Prop :=
  (length format' <= length format)%nat /\ (Forall is_arg va -> Forall is_arg va').
Lemma shrinks_same format va : shrinks format va format va.
Proof. by split. Qed.
Lemma shrinks_tail format va : shrinks format va (tail format) va.
Proof. split; [apply tail_short|done]. Qed.
Lemma shrinks_trans f1 v1 f2 v2 f3 v3 : shrinks f1 v1 f2 v2 -> shrinks f2 v2 f3 v3 -> shrinks f1 v1 f3 v3.
Proof. intros [? ?] [? ?]. split; [lia|auto]. Qed.
Lemma va_int_shrinks va v va' f : va_int va = Ok (v, va') -> shrinks f va f va'.
Proof. destruct va as [|[] ?]; try done. intros [= _ <-]. split; [done|]. by intros [_ ?]%Forall_cons. Qed.
Lemma parse_width_ends `{Abi} flags format va : ends (parse_width flags format va) /\
  forall f w format' va', parse_width flags format va = Ok (f, w, format', va') -> shrinks format va format' va'.
Proof.
  unfold parse_width, _atoi. split.
  - ends_auto. apply atoi_ends.
  - intros f w format' va' E. bind_inv E c E1. destruct (_is_digit c).
    { bind_inv E q E2. apply atoi_ends in E2. destruct q as [w0 l]. injection E as <- <- <- <-. by split. }
    destruct (c =? "*"%ch); [|injection E as <- <- <- <-; by apply shrinks_same].
    bind_inv E q E2. destruct q as [v va1]. apply (va_int_shrinks _ _ _ (tail format)) in E2.
    destruct (s32 v <? 0); [bind_inv E x E3|]; injection E as <- <- <- <-; eapply shrinks_trans; [apply shrinks_tail|exact E2|apply shrinks_tail|exact E2].
Qed.
Lemma parse_precision_ends `{Abi} flags format va : ends (parse_precision flags format va) /\
  forall f w format' va', parse_precision flags format va = Ok (f, w, format', va') -> shrinks format va format' va'.
Proof.
  unfold parse_precision, _atoi. split.
  - ends_auto. apply atoi_ends.
  - intros f w format' va' E. bind_inv E c E1. destruct (c =? "."%ch); [|injection E as <- <- <- <-; by apply shrinks_same].
    bind_inv E d E2. eapply shrinks_trans; [apply shrinks_tail|]. destruct (_is_digit d).
    { bind_inv E q E3. apply atoi_ends in E3. destruct q as [w0 l]. injection E as <- <- <- <-. by split. }
    destruct (d =? "*"%ch); [|injection E as <- <- <- <-; by apply shrinks_same].
    bind_inv E q E3. destruct q as [v va1]. injection E as <- <- <- <-. eapply shrinks_trans; [apply shrinks_tail|].
    by eapply va_int_shrinks.
Qed.
Lemma parse_length_ends `{Abi} flags format : ends (parse_length flags format) /\
  forall f format', parse_length flags format = Ok (f, format') -> (length format' <= length format)%nat.
Proof.
  unfold parse_length. cbv zeta. split; [ends_auto|]. intros f format' E. bind_inv E c E1.
  pose proof (tail_short format). pose proof (tail_short (tail format)).
  destruct (c =? "l"%ch); [bind_inv E d E2; destruct (d =? "l"%ch); injection E as <- <-; lia|].
  destruct (c =? "h"%ch); [bind_inv E d E2; destruct (d =? "h"%ch); injection E as <- <-; lia|].
  repeat (match type of E with (if ?b then _ else _) = _ => destruct b end; [injection E as <- <-; lia|]). injection E as <- <-. lia.
Qed.
Lemma parse_spec_ends `{Abi} format va : ends (parse_spec format va) /\
  forall sp format' va', parse_spec format va = Ok (sp, format', va') -> shrinks format va format' va'.
Proof.
  unfold parse_spec. split.
  - apply ends_bind; [apply parse_flags_ends|]. intros [f1 l1] _. apply ends_bind; [apply parse_width_ends|]. intros [[[f2 w] l2] v2] _.
    apply ends_bind; [apply parse_precision_ends|]. intros [[[f3 p] l3] v3] _. apply ends_bind; [apply parse_length_ends|]. intros [f4 l4] _. ends_auto.
  - intros sp format' va' E. bind_inv E q1 E1. apply parse_flags_ends in E1. destruct q1 as [f1 l1]. bind_inv E q2 E2.
    destruct q2 as [[[f2 w] l2] v2]. apply parse_width_ends in E2. bind_inv E q3 E3. destruct q3 as [[[f3 p] l3] v3].
    apply parse_precision_ends in E3. bind_inv E q4 E4. destruct q4 as [f4 l4]. apply parse_length_ends in E4. bind_inv E c E5.
    injection E as <- <- <-. eapply shrinks_trans; [exact (conj E1 (fun Hv => Hv))|]. eapply shrinks_trans; [exact E2|]. eapply shrinks_trans; [exact E3|].
    split; [pose proof (tail_short l4); lia|done].
Qed.
(** ** Doubles *)
(** A computation that ends, with a property of its result. *)
Definition holds {A} (P : A -> Prop) (r : result A) : Prop := match r with Ok a => P a | Stop s => s <> OutOfFuel end.
Lemma holds_bind {A B} (P : A -> Prop) (Q : B -> Prop) (m : result A) (f : A -> result B) :
  holds P m -> (forall a, P a -> holds Q (f a)) -> holds Q (mbind (M:=result) f m).
Proof. destruct m as [a|s]; intros Hm Hf; [by apply Hf|exact Hm]. Qed.
Lemma holds_ends {A} (P : A -> Prop) (r : result A) : holds P r -> ends r.
Proof. destruct r as [a|s]; [done|]. intros H E. injection E as ->. done. Qed.
Lemma ends_holds {A} (r : result A) : ends r -> holds (fun _ => True) r.
Proof. destruct r as [a|s]; [done|]. intros H. cbn. intros ->. done. Qed.
(** The buffer does not overflow. *)
Definition fits (b : list Z) : Prop := len b <= 32.
Lemma push_room c b : fits b -> holds (fun b' => len b' = len b + 1 /\ fits b') (push c b).
Proof. unfold fits, push. intros Hb. destruct (Z.ltb_spec (len b) 32); [|done]. cbn [holds]. rewrite len_cons. lia. Qed.
(** A loop that pushes a character per turn while the buffer has room. *)
Ltac push_loop IH := eapply holds_bind; [apply push_room; done|]; intros b' [Hl Hb']; try (apply IH; [done|lia]).
Lemma zeros_while_fits fuel lim b : fits b -> 32 - len b < Z.of_nat fuel -> holds fits (zeros_while fuel lim b).
Proof.
  revert b. induction fuel as [|fuel IH]; intros b Hb Hf; [unfold fits in Hb; lia|]. cbn [zeros_while].
  destruct (_ && _); [|done]. push_loop IH.
Qed.
Lemma excess_prec_fits fuel prec b : fits b -> 32 - len b < Z.of_nat fuel -> holds (fun p => fits p.1) (excess_prec fuel prec b).
Proof.
  revert prec b. induction fuel as [|fuel IH]; intros prec b Hb Hf; [unfold fits in Hb; lia|]. cbn [excess_prec].
  destruct (_ && _); [|done]. push_loop IH.
Qed.
Lemma frac_loop_fits fuel frac count b : fits b -> 32 - len b < Z.of_nat fuel -> holds (fun p => fits p.1) (frac_loop fuel frac count b).
Proof.
  revert frac count b. induction fuel as [|fuel IH]; intros frac count b Hb Hf; [unfold fits in Hb; lia|]. cbn [frac_loop].
  destruct (len b <? FTOA_SIZE); [|done]. cbv zeta. push_loop IH. destruct (_ =? 0); [done|]. apply IH; [done|lia].
Qed.
Lemma count_zeros_fits fuel count b : fits b -> 32 - len b < Z.of_nat fuel -> holds fits (count_zeros fuel count b).
Proof.
  revert count b. induction fuel as [|fuel IH]; intros count b Hb Hf; [unfold fits in Hb; lia|]. cbn [count_zeros].
  destruct (_ && _); [|done]. push_loop IH.
Qed.
Lemma whole_loop_fits fuel whole b : fits b -> 32 - len b < Z.of_nat fuel -> holds fits (whole_loop fuel whole b).
Proof.
  revert whole b. induction fuel as [|fuel IH]; intros whole b Hb Hf; [unfold fits in Hb; lia|]. cbn [whole_loop].
  destruct (len b <? FTOA_SIZE); [|done]. push_loop IH. cbv zeta. destruct (_ =? 0); [done|]. apply IH; [done|lia].
Qed.
Lemma buf_fuel b : 32 - len b < Z.of_nat BUF_FUEL.
Proof. pose proof (len_nonneg b). unfold BUF_FUEL. lia. Qed.
Lemma push_room' c b : fits b -> holds fits (push c b).
Proof. intros Hb. pose proof (push_room c b Hb) as H. destruct (push c b); [apply H|exact H]. Qed.
Lemma push_sign_ends negative flags b : fits b -> ends (push_sign negative flags FTOA_SIZE b).
Proof.
  intros Hb. unfold push_sign. pose proof (fun c => holds_ends _ _ (push_room' c b Hb)) as Hp. repeat case_match; (apply Hp || done).
Qed.
Lemma int_of_double_ends d : ends (int_of_double d).
Proof. unfold int_of_double. destruct (dtrunc d); [apply ends_sint|done]. Qed.
Lemma unsigned_of_double_ends w d : ends (unsigned_of_double w d).
Proof. unfold unsigned_of_double. destruct (dtrunc d); [|done]. by destruct (_ && _). Qed.
Lemma pow10_at_ends i : ends (pow10_at i).
Proof. unfold pow10_at. by destruct (pow10 !! _). Qed.
#[export] Hint Resolve int_of_double_ends unsigned_of_double_ends pow10_at_ends : ends.
Lemma decimal_exponent_ends v : ends (decimal_exponent v).
Proof.
  unfold decimal_exponent, power_of. cbv zeta. apply ends_bind; [apply int_of_double_ends|]. intros e _. apply ends_bind.
  - apply ends_bind; [apply int_of_double_ends|]. done.
  - intros f _. by destruct (dlt v f).
Qed.
Lemma adapt_exp_ends v prec flags mw ev : ends (adapt_exp v prec flags mw ev).
Proof.
  unfold adapt_exp. destruct (negb _); [done|]. destruct (_ && _); [|done]. apply ends_bind; [|done]. destruct (_ <? _); [|done]. ends_auto.
Qed.
Section ftoa.
Context {abi : Abi}.
Lemma round_frac_ends tmp prec frac whole lw : ends (round_frac tmp prec frac whole lw).
Proof. unfold round_frac. cbv zeta. destruct (dlt _ _); [|by repeat case_match]. apply ends_bind; [apply pow10_at_ends|]. intros p _. destruct (dle _ _); [ends_auto|done]. Qed.
Lemma ftoa_fraction_fits v tmp whole frac prec b : fits b -> holds (fun p => fits p.1) (ftoa_fraction v tmp whole frac prec b).
Proof.
  intros Hb. unfold ftoa_fraction. eapply holds_bind; [apply ends_holds, round_frac_ends|]. intros [frac' whole'] _. destruct (prec =? 0).
  - eapply holds_bind; [apply ends_holds; destruct (_ && _); [apply ends_sint|done]|]. intros w _. done.
  - eapply holds_bind; [apply frac_loop_fits; [done|apply buf_fuel]|]. intros [b1 c1] H1.
    eapply holds_bind; [apply count_zeros_fits; [done|apply buf_fuel]|]. intros b2 H2.
    eapply holds_bind; [destruct (_ <? _); [by apply push_room'|done]|]. by intros b3 H3.
Qed.
Lemma ftoa_buf_ends v prec width flags : ends (ftoa_buf v prec width flags).
Proof.
  unfold ftoa_buf. cbv zeta. apply (holds_ends (fun _ => True)).
  eapply holds_bind; [apply excess_prec_fits; [done|apply buf_fuel]|]. intros [b1 p1] H1.
  eapply holds_bind; [apply ends_holds, int_of_double_ends|]. intros wh _. eapply holds_bind; [apply ends_holds, pow10_at_ends|]. intros p _.
  eapply holds_bind; [apply ends_holds, unsigned_of_double_ends|]. intros fr _.
  eapply holds_bind; [by apply ftoa_fraction_fits|]. intros [b2 wh2] H2.
  eapply holds_bind; [apply whole_loop_fits; [done|apply buf_fuel]|]. intros b3 H3.
  eapply (holds_bind (fun q : list Z * Z => fits q.1)).
  - destruct (negb _ && _); [|done]. eapply holds_bind; [apply zeros_while_fits; [done|apply buf_fuel]|]. by intros b4 H4.
  - intros [b4 w4] H4. eapply holds_bind; [apply ends_holds, push_sign_ends; exact H4|]. done.
Qed.
End ftoa.
Section terminates.
Context {abi : Abi} {W : Type} (out : out_fct_type (W := W)) (maxlen : Z).
Hypothesis out_ends : forall c idx w, ends (out c idx maxlen w).
Implicit Types (idx : Z) (w : W).
Lemma ends_emit t idx w : ends (rev_loop out maxlen t idx w).
Proof. revert idx w. induction t as [|c t IH]; intros idx w; cbn [rev_loop]; [done|]. apply ends_bind; [apply out_ends|auto]. Qed.
Lemma ends_ntoa value negative base prec width flags idx w :
  u32_ok width -> ends (_ntoa_long out maxlen value negative base prec width flags idx w).
Proof.
  intros Hw. destruct (Z.eq_dec base 0) as [->|Hb].
  - destruct (ntoa_text value negative 0 prec width flags) as [t|e] eqn:E; [rewrite (_ntoa_long_emit _ _ _ _ _ _ _ _ _ _ _ Hw E); apply ends_emit|].
    unfold _ntoa_long. unfold ntoa_text in E. destruct (negb _ || _); [done|]. cbn [mbind result_bind] in E |- *.
    destruct (ntoa_buf_ok [] negative (u32 0) prec width (if value =? 0 then without flags FLAGS_HASH else flags)) as ([b w'] & Eb & _); [done|].
    by rewrite Eb in E.
  - destruct (integer_buffer_ok value negative base prec width flags Hb) as (b & w' & E & _).
    rewrite (_ntoa_long_emit _ _ _ _ _ _ _ _ _ _ _ Hw E). apply ends_emit.
Qed.
Lemma ends_pad l width idx w : 0 <= l -> u32_ok width -> ends (pad_while out maxlen (pad_fuel width) l width idx w).
Proof. intros Hl Hw. rewrite pad_while_emit by (done || by apply pad_fuel_ok). apply ends_emit. Qed.
Lemma ends_str p bounded prec idx w : ends (str_loop out maxlen p bounded prec idx w).
Proof.
  revert prec idx w. induction p as [|c p IH]; intros prec idx w; cbn [str_loop]; [done|].
  destruct (c =? 0); [done|]. destruct (_ && _); [done|]. apply ends_bind; [apply out_ends|auto].
Qed.
Lemma ends_strnlen n m p : ends (strnlen_loop n m p).
Proof. revert n m. induction p as [|c p IH]; intros n m; cbn [strnlen_loop]; [done|]. destruct (c =? 0); [done|]. destruct (m =? 0); [done|apply IH]. Qed.
Lemma ends_ntoa_ll value negative base prec width flags idx w :
  u32_ok width -> ends (_ntoa_long_long out maxlen value negative base prec width flags idx w).
Proof. apply ends_ntoa. Qed.
#[local] Hint Resolve ends_ntoa ends_ntoa_ll ends_pad ends_str ends_strnlen : ends.
(** Not a number, or beyond the largest double. *)
Definition special (v : double) : bool := dnan v || dlt v (SFopp DBL_MAX) || dlt DBL_MAX v.
Lemma not_special v : is_double v -> special v = false -> fin 53 1024 v.
Proof.
  unfold is_double. destruct v as [s|s| |s m e]; try done; [by destruct s|]. intros Hv _. by apply (valid_canon (S754_finite s m e)).
Qed.
Lemma small_opp v : small v -> small (SFopp v).
Proof.
  intros [Hv Hs]. split; [by destruct v|]. assert (sf_units 53 1024 (SFopp v) = - sf_units 53 1024 v) as ->; [|by rewrite Z.abs_opp].
  destruct v as [[]|[]| |[] m e]; cbn [SFopp sf_units cond_Zopp negb]; lia.
Qed.
Lemma ftoa_ends_below fuel v prec width flags idx w : u32_ok width -> special v = true \/ small v ->
  ends (ftoa_fuel out maxlen (S fuel) v prec width flags idx w).
Proof.
  intros Hw Hv. cbn [ftoa_fuel]. unfold special in Hv.
  destruct (dnan v); [rewrite _out_rev_emit by done; apply ends_emit|].
  destruct (dlt v (SFopp DBL_MAX)); [rewrite _out_rev_emit by done; apply ends_emit|].
  destruct (dlt DBL_MAX v); [rewrite _out_rev_emit by done; apply ends_emit|]. destruct Hv as [|[Hv Hs]]; [done|].
  destruct (double_of_units 1000000000 ltac:(lia)) as [Eu Ef]. fold PRINTF_MAX_FLOAT in Eu, Ef.
  assert (dlt PRINTF_MAX_FLOAT v = false) as ->.
  { rewrite dlt_units by (done || by apply fin_valid). rewrite Eu. apply Z.ltb_ge. change 1000000000 with (10 ^ 9). lia. }
  assert (dlt v (SFopp PRINTF_MAX_FLOAT) = false) as ->.
  { rewrite dlt_units by done. assert (sf_units 53 1024 (SFopp PRINTF_MAX_FLOAT) = - sf_units 53 1024 PRINTF_MAX_FLOAT) as -> by (by vm_compute).
    rewrite Eu. apply Z.ltb_ge. change 1000000000 with (10 ^ 9). lia. }
  cbn [orb]. apply ends_bind; [apply ftoa_buf_ends|]. intros [b w'] E. apply ftoa_buf_width in E; [|done]. rewrite _out_rev_emit by done. apply ends_emit.
Qed.
(** [_etoa] calls [_ftoa] on a value that needs no further call. *)
Lemma etoa_ends_with fuel v prec width flags idx w : u32_ok width -> is_double v ->
  ends (etoa_with out maxlen (ftoa_fuel out maxlen (S fuel)) v prec width flags idx w).
Proof.
  intros Hw Hd. unfold etoa_with. destruct (_ || _ || _) eqn:Esp.
  { apply ftoa_ends_below; [done|]. left. unfold special. by destruct (dnan v), (dlt DBL_MAX v), (dlt v (SFopp DBL_MAX)). }
  cbv zeta. assert (fin 53 1024 v) as Hf by (apply not_special; [done|]; unfold special; by destruct (dnan v), (dlt DBL_MAX v), (dlt v (SFopp DBL_MAX))).
  set (negative := dlt v _). set (x := if negative then SFopp v else v).
  assert (fin 53 1024 x /\ 0 <= sf_units 53 1024 x) as [Hx Hx0].
  { unfold x, negative. rewrite dlt_units by (done || by apply fin_valid). cbn [sf_units].
    destruct (Z.ltb_spec (sf_units 53 1024 v) 0); [|done]. split; [by destruct v|].
    assert (sf_units 53 1024 (SFopp v) = - sf_units 53 1024 v) as ->; [|lia]. destruct v as [[]|[]| |[] m e]; cbn [SFopp sf_units cond_Zopp negb]; lia. }
  clearbody x negative. set (pr := if has flags FLAGS_PRECISION then _ else _). clearbody pr.
  apply ends_bind; [apply decimal_exponent_ends|]. intros [ev f] Ee. destruct (decimal_exponent_small x ev f Hx Hx0 Ee) as [Hq H0].
  set (mw := if _ && _ then 4 else 5). assert (mw = 4 \/ mw = 5) as Hmw by (unfold mw; destruct (_ && _); lia). clearbody mw.
  apply ends_bind; [apply adapt_exp_ends|]. intros [[[pr' flags'] mw'] ev'] Ea.
  assert ((mw' = 0 \/ mw' = mw) /\ small (if ev' =/? 0 then double_div x f else x)) as [Hmw' Hsm].
  { split; [apply adapt_exp_minwidth in Ea; exact Ea|]. unfold adapt_exp in Ea. destruct (negb (has flags FLAGS_ADAPT_EXP)); [injection Ea as <- <- <- <-; destruct (Z.eqb_spec ev 0); [by apply H0|done]|].
    destruct (dle _ x && dlt x _) eqn:Er; [|injection Ea as <- <- <- <-; destruct (Z.eqb_spec ev 0); [by apply H0|done]].
    bind_inv Ea p Ep. injection Ea as <- <- <- <-. cbn [Z.eqb negb]. apply andb_true_iff in Er as [_ Er].
    assert (dlit 0x412e848000000000 = double_of 1000000) as E6 by (by vm_compute). rewrite E6 in Er.
    destruct (double_of_units 1000000 ltac:(lia)) as [Eu Ef]. rewrite dlt_units in Er by (by apply fin_valid). rewrite Eu in Er. apply Z.ltb_lt in Er.
    split; [by apply fin_valid|]. assert (0 < 2 ^ 1074) by (by apply Z.pow_pos_nonneg). change (10 ^ 9) with 1000000000. lia. }
  set (fw := if has flags' FLAGS_LEFT && (mw' =/? 0) then _ else _).
  assert (u32_ok fw) as Hfw.
  { unfold fw, u32_ok in *. destruct (_ && _); [lia|]. destruct (Z.ltb_spec mw' width); lia. }
  apply ends_bind.
  { apply ftoa_ends_below; [done|]. right. destruct negative; [by apply small_opp|done]. }
  intros [i1 w1] _. destruct (mw' =/? 0) eqn:E0; [|done]. apply ends_bind; [apply out_ends|]. intros w2 _.
  assert (u32_ok (mw' - 1)) by (apply negb_true_iff, Z.eqb_neq in E0; unfold u32_ok; lia).
  apply ends_bind; [by apply ends_ntoa|]. intros [i3 w3] _. destruct (has flags' FLAGS_LEFT); [|done].
  erewrite pad_since_emit; [apply ends_emit|done|reflexivity|apply pad_fuel_ok, wrapu_nonneg; pose proof size_bound; lia].
Qed.
Lemma ftoa_below fuel v prec width flags idx w : special v = false ->
  ftoa_fuel out maxlen (S fuel) v prec width flags idx w =
  if dlt PRINTF_MAX_FLOAT v || dlt v (SFopp PRINTF_MAX_FLOAT) then etoa_with out maxlen (ftoa_fuel out maxlen fuel) v prec width flags idx w
  else let! (buf, width) := ftoa_buf v prec width flags in _out_rev out maxlen buf width flags idx w.
Proof. unfold special. intros [[E1 E2]%orb_false_iff E3]%orb_false_iff. cbn [ftoa_fuel]. by rewrite E1, E2, E3. Qed.
Lemma ftoa_ends_fuel fuel v prec width flags idx w : u32_ok width -> is_double v ->
  ends (ftoa_fuel out maxlen (S (S fuel)) v prec width flags idx w).
Proof.
  intros Hw Hd. destruct (special v) eqn:Es; [apply ftoa_ends_below; auto|].
  rewrite ftoa_below by done. destruct (dlt PRINTF_MAX_FLOAT v || dlt v (SFopp PRINTF_MAX_FLOAT)).
  - by apply (etoa_ends_with fuel).
  - apply ends_bind; [apply ftoa_buf_ends|]. intros [b w'] E. apply ftoa_buf_width in E; [|done]. rewrite _out_rev_emit by done. apply ends_emit.
Qed.
Lemma ftoa_ends v prec width flags idx w : u32_ok width -> is_double v -> ends (_ftoa out maxlen v prec width flags idx w).
Proof. apply (ftoa_ends_fuel 1). Qed.
Lemma etoa_ends v prec width flags idx w : u32_ok width -> is_double v -> ends (_etoa out maxlen v prec width flags idx w).
Proof. apply (etoa_ends_with 2). Qed.
Lemma convert_ends sp va idx w :
  u32_ok (sp_width sp) -> u32_ok (sp_prec sp) -> Forall is_arg va -> ends (convert out maxlen sp va idx w).
Proof.
  intros Hw Hp Hva. unfold convert. cbv zeta.
  destruct (_ || (sp_conv sp =? "b"%ch)); [unfold conv_int; cbv zeta; ends_auto|].
  assert (ends (va_double va)) as Hde by (by destruct va as [|[] ?]).
  assert (forall d va', va_double va = Ok (d, va') -> is_double d) as Hd.
  { intros d va'. destruct va as [|[] va]; try done. apply Forall_cons in Hva as [Hd _]. by intros [= -> _]. }
  destruct (_ || (sp_conv sp =? "F"%ch)).
  { unfold conv_fixed. cbv zeta. apply ends_bind; [done|]. intros [d va'] E%Hd. apply ends_bind; [by apply ftoa_ends|]. by intros []. }
  destruct (_ || (sp_conv sp =? "G"%ch)).
  { unfold conv_exp. cbv zeta. apply ends_bind; [done|]. intros [d va'] E%Hd. apply ends_bind; [by apply etoa_ends|]. by intros []. }
  destruct (sp_conv sp =? "c"%ch).
  { unfold conv_char. cbv zeta. ends_auto; (apply ends_pad; [lia|done]) || apply out_ends. }
  destruct (sp_conv sp =? "s"%ch).
  { unfold conv_str, _strnlen_s. cbv zeta. ends_auto; apply ends_pad; try done.
    all: match goal with H : _ = Ok ?l |- _ => bind_inv H k Ek; injection H as <-; pose proof (u32_range k) end.
    all: unfold u32_ok in *; repeat case_match; lia. }
  destruct (sp_conv sp =? "p"%ch).
  { unfold conv_ptr. cbv zeta. assert (u32_ok (ptr_w / 8 * 2)) by (destruct ptr_ok as [-> | ->]; done). ends_auto. }
  ends_auto.
Qed.
Lemma va_tail_int va v va' : va_int va = Ok (v, va') -> va' = tail va.
Proof. destruct va as [|[] ?]; try done. by intros [= _ <-]. Qed.
Lemma va_tail_long va v va' : va_long va = Ok (v, va') -> va' = tail va.
Proof. destruct va as [|[] ?]; try done. by intros [= _ <-]. Qed.
Lemma va_tail_llong va v va' : va_llong va = Ok (v, va') -> va' = tail va.
Proof. destruct va as [|[] ?]; try done. by intros [= _ <-]. Qed.
Lemma va_tail_double va v va' : va_double va = Ok (v, va') -> va' = tail va.
Proof. destruct va as [|[] ?]; try done. by intros [= _ <-]. Qed.
Lemma va_tail_ptr va a p va' : va_ptr va = Ok (a, p, va') -> va' = tail va.
Proof. destruct va as [|[] ?]; try done. by intros [= _ _ <-]. Qed.
#[local] Hint Resolve va_tail_int va_tail_long va_tail_llong va_tail_double va_tail_ptr : core.
Ltac open_binds E := repeat first
  [ progress cbv beta iota zeta in E
  | let x := fresh "x" in let H := fresh "Hx" in bind_inv E x H; try destruct x
  | match type of E with context [match ?q with (_, _) => _ end] => is_var q; destruct q end
  | match type of E with (if ?b then _ else _) = _ => destruct b end ].
(** A conversion takes one argument, or none. *)
Lemma convert_args sp va idx w idx' va' w' :
  convert out maxlen sp va idx w = Ok (idx', va', w') -> va' = va \/ va' = tail va.
Proof.
  unfold convert, conv_int, conv_fixed, conv_exp, conv_char, conv_str, conv_ptr. intros E.
  open_binds E; injection E as _ <- _; eauto.
Qed.
Lemma Forall_tail_arg va : Forall is_arg va -> Forall is_arg (tail va).
Proof. destruct va; [done|]. by intros [_ ?]%Forall_cons. Qed.
Lemma format_loop_ends fuel format va idx w :
  (length format < fuel)%nat -> Forall is_arg va -> ends (format_loop out maxlen fuel format va idx w).
Proof.
  revert format va idx w. induction fuel as [|fuel IH]; intros format va idx w Hf Hva; [lia|]. cbn [format_loop].
  apply ends_bind; [apply ends_deref|]. intros c Hc. destruct format as [|c' format]; [done|]. cbn [tail length] in *.
  destruct (c =? 0); [done|]. destruct (c =/? "%"%ch).
  - apply ends_bind; [apply out_ends|]. intros w1 _. apply IH; [lia|done].
  - destruct (parse_spec_ends format va) as [He Hs]. apply ends_bind; [done|]. intros [[sp f1] va1] Ep.
    apply Hs in Ep as Hsh. apply parse_spec_range in Ep as [Hw Hp]. destruct Hsh as [Hl Hv1]. specialize (Hv1 Hva).
    apply ends_bind; [by apply convert_ends|]. intros [[i2 va2] w2] Ec. apply convert_args in Ec.
    apply IH; [lia|]. destruct Ec as [-> | ->]; [done|by apply Forall_tail_arg].
Qed.
End terminates.
(** C33. The formatting loop terminates on every format, well-formed or not, and every
    list of arguments, any doubles among them, with any output function that does: one
    turn per character of the format is enough, and [_ftoa] and [_etoa] call each other
    at most twice, since for every double the mantissa [_etoa] hands on is at most
    1e9. *)
Theorem vsnprintf_terminates `{Abi} {W} (out : out_fct_type (W := W)) null maxlen format va w :
  (forall c idx w, out c idx maxlen w <> Stop OutOfFuel) -> Forall is_arg va ->
  _vsnprintf out null maxlen format va w <> Stop OutOfFuel.
Proof.
  intros Ho Hva. unfold _vsnprintf. cbv zeta. set (o := if null then _ else out).
  assert (forall c i w, ends (o c i maxlen w)) as Hend by (intros c i w0; unfold o; destruct null; [done|apply Ho]).
  apply (ends_bind (format_loop o _ _ _ _ _ _)); [apply format_loop_ends; [done|lia|done]|].
  intros [i w1] _. apply ends_bind; [apply Hend|done].
Qed.

(** ** A concrete input *)
Section witnesses.
#[local] Existing Instance n64_abi.
(** An integer, the largest double and a format that breaks off. *)
Lemma vsnprintf_terminates_witness :
  (forall c idx w, _out_buffer c idx 4 w <> Stop OutOfFuel) /\ Forall is_arg [A_int 3; A_double DBL_MAX] /\
  _vsnprintf _out_buffer false 4 ["%"; "5"; "i"; "%"; "f"; "%"]%ch [A_int 3; A_double DBL_MAX] [1; 2; 3; 4] <> Stop OutOfFuel.
Proof.
  assert (forall c idx w, _out_buffer c idx 4 w <> Stop OutOfFuel) as Ho by (intros; unfold _out_buffer; by repeat case_match).
  assert (Forall is_arg [A_int 3; A_double DBL_MAX]) as Ha by (repeat constructor).
  split; [exact Ho|]. split; [exact Ha|]. apply (vsnprintf_terminates _out_buffer false 4); [exact Ho|exact Ha].
Defined.
End witnesses.
