(* ===== verification/Bench.v ===== *)
(** The main loop of the test bench ([main] of [src/top.cc]): reset and resume of
    the core, then one iteration per cycle -- the snoop injector, the rising edge, the
    console, the counters, the lockstep checker, the reasons to stop, the memory
    port, the falling edge.  The core is the class [Core]: a synchronous machine
    whose pins hold their values between evaluations.  Progress messages and the
    traces of the environment are left out. *)
From Stdlib Require Import SpecFloat String.
From S2P Require Import Prelude Bits Insns State Mem Fp Exec Devices Bus Cosim Snoop Latency Doubles Setup.
#[local] Open Scope string_scope.
#[local] Open Scope list_scope.
#[local] Open Scope Z_scope.

(** The inputs of the core: [tb->x = v] changes a pin until it is changed again. *)
Record pins := mk_pins {
  clk : bool; reset : bool; resume : bool; resume_pc_pin : Z; pin_step : Z; pin_single_step : bool;
  pin_ip : Zmap bool; mem_rsp_valid : bool; mem_rsp_load_data : list Z; putchar_fifo_pop : bool;
  pin_snoop_valid : bool; pin_snoop_wbinv : bool; pin_snoop_addr : Z;
}.
Definition set_clk (v : bool) (p : pins) : pins :=
  mk_pins v (reset p) (resume p) (resume_pc_pin p) (pin_step p) (pin_single_step p) (pin_ip p) (mem_rsp_valid p)
    (mem_rsp_load_data p) (putchar_fifo_pop p) (pin_snoop_valid p) (pin_snoop_wbinv p) (pin_snoop_addr p).
Definition set_reset (v : bool) (p : pins) : pins :=
  mk_pins (clk p) v (resume p) (resume_pc_pin p) (pin_step p) (pin_single_step p) (pin_ip p) (mem_rsp_valid p)
    (mem_rsp_load_data p) (putchar_fifo_pop p) (pin_snoop_valid p) (pin_snoop_wbinv p) (pin_snoop_addr p).
Definition set_resume (v : bool) (p : pins) : pins :=
  mk_pins (clk p) (reset p) v (resume_pc_pin p) (pin_step p) (pin_single_step p) (pin_ip p) (mem_rsp_valid p)
    (mem_rsp_load_data p) (putchar_fifo_pop p) (pin_snoop_valid p) (pin_snoop_wbinv p) (pin_snoop_addr p).
Definition set_resume_pc (v : Z) (p : pins) : pins :=
  mk_pins (clk p) (reset p) (resume p) v (pin_step p) (pin_single_step p) (pin_ip p) (mem_rsp_valid p)
    (mem_rsp_load_data p) (putchar_fifo_pop p) (pin_snoop_valid p) (pin_snoop_wbinv p) (pin_snoop_addr p).
Definition set_steps (single : bool) (v : Z) (p : pins) : pins :=
  mk_pins (clk p) (reset p) (resume p) (resume_pc_pin p) v single (pin_ip p) (mem_rsp_valid p)
    (mem_rsp_load_data p) (putchar_fifo_pop p) (pin_snoop_valid p) (pin_snoop_wbinv p) (pin_snoop_addr p).
Definition set_ip (i : Z) (v : bool) (p : pins) : pins :=
  mk_pins (clk p) (reset p) (resume p) (resume_pc_pin p) (pin_step p) (pin_single_step p) (wr i v (pin_ip p)) (mem_rsp_valid p)
    (mem_rsp_load_data p) (putchar_fifo_pop p) (pin_snoop_valid p) (pin_snoop_wbinv p) (pin_snoop_addr p).
Definition set_rsp (v : bool) (d : list Z) (p : pins) : pins :=
  mk_pins (clk p) (reset p) (resume p) (resume_pc_pin p) (pin_step p) (pin_single_step p) (pin_ip p) v d
    (putchar_fifo_pop p) (pin_snoop_valid p) (pin_snoop_wbinv p) (pin_snoop_addr p).
Definition set_pop (v : bool) (p : pins) : pins :=
  mk_pins (clk p) (reset p) (resume p) (resume_pc_pin p) (pin_step p) (pin_single_step p) (pin_ip p) (mem_rsp_valid p)
    (mem_rsp_load_data p) v (pin_snoop_valid p) (pin_snoop_wbinv p) (pin_snoop_addr p).
(** The request port the injector drives. *)
Definition set_snoop (j : injector) (p : pins) : pins :=
  mk_pins (clk p) (reset p) (resume p) (resume_pc_pin p) (pin_step p) (pin_single_step p) (pin_ip p) (mem_rsp_valid p)
    (mem_rsp_load_data p) (putchar_fifo_pop p) (snoop_req_valid j) (snoop_req_wbinv j) (snoop_req_addr j).
Definition pins_init : pins := mk_pins false false false 0 0 false ∅ false [] false false false 0.

(** The outputs of the core the loop reads. *)
Record tb_out := mk_tb_out {
  o_tb : tb_t;                                     (* what the checker reads *)
  o_snoop_ack : bool; o_snoop_done : bool; o_mem_req : option request;
  ready_for_resume : bool; o_putchar : option Z;   (* None: the FIFO is empty *)
  in_flush_mode : bool; got_break : bool; got_ud : bool;
  branch_pc_valid : bool; branch_fault : bool; branch_pc : Z;
  o_inflight : Z; dbg_head_status : Z; dbg_head_pc : Z;
}.
(** The Verilated core: [eval], its outputs, [gotFinish], and the TLB writes
    [tlb_wr_log] is called with during an [eval]. *)
Class Core (K : Type) := {
  eval : pins -> K -> K;
  outs : K -> tb_out;
  got_finish : K -> bool;
  tlb_writes : pins -> K -> list (Z * Z * Z * Z * Z);
}.

(** The counters of [main] that only the report reads, and those that steer. *)
Record counters := mk_counters {
  n_branches : Z; n_mispredicts : Z; n_flush_cycles : Z; mispredicts : Zmap Z; pushout_histo : Zmap Z;
  tip_map : Zmap double; tip_insn_cnts : Zmap Z; inflight : Zmap Z; max_inflight : Z;
  n_loads : Z; n_stores : Z; last_addr : Z; last_load_addr : Z; last_store_addr : Z;
}.
Definition counters_init : counters := mk_counters 0 0 0 ∅ ∅ ∅ ∅ ∅ 0 0 0 0 0 0.
Record loop_t (K : Type) := mk_loop {
  core : K; l_pins : pins; l_chk : checker; l_port : port; l_gen : latgen; l_inj : injector;
  l_cycle : Z; insns_retired : Z; last_retire : Z; last_retired_pc : Z; cnt : counters;
}.
Arguments mk_loop {K}. Arguments core {K}. Arguments l_pins {K}. Arguments l_chk {K}. Arguments l_port {K}.
Arguments l_gen {K}. Arguments l_inj {K}. Arguments l_cycle {K}. Arguments insns_retired {K}. Arguments last_retire {K}.
Arguments last_retired_pc {K}. Arguments cnt {K}.

(** The options and the environment of the loop. *)
Record bench_opts := mk_bench_opts {
  max_cycle : Z; max_icnt : Z; opt_mem_lat : Z; opt_single_step : bool; step_hold : Z; opt_magic_halt : bool;
  enable_chk : bool; opt_snoop_delay : Z; opt_snoop_every : Z; opt_mem_env : mem_env;
  assert_ip : Z; assert_cycle : Z;                 (* R9999_ASSERT_IP, R9999_ASSERT_CYCLE *)
}.

(** The command line, as the values given by option name, with the defaults; the
    environment comes beside it, the checker from the set-up. *)
Definition parse_options (vm : string -> option Z) (chk : bool) (env : mem_env) (aip acyc : Z) : bench_opts :=
  let val n d := default d (vm n) in let flag n d := val n (Z.b2z d) =/? 0 in
  mk_bench_opts (val "maxcycle" (1 << 34)) (val "maxicnt" (1 << 50)) (val "memlat" 4) (flag "singlestep" false) (val "step_hold" 0)
    (flag "magic-halt" true) chk (val "snoop-delay" 0) (val "snoop-every" 1) env aip acyc.

(** Why the loop ends. *)
Inductive exit_reason :=
  | GotFinish | CycleLimit | InsnLimit | CheckerStop | NoRetire | MagicHalt | GotBreak | GotUd | GotBadAddr.
#[export] Instance exit_reason_eq_dec : EqDecision exit_reason.
Proof. solve_decision. Defined.

Section loop.
Context `{Config, HostFP} {K : Type} `{Core K}.
Variable fuel : nat.                               (* of each call of the interpreter *)
Variable o : bench_opts.
Implicit Types (l : loop_t K).

Definition with_core (k : K) l : loop_t K :=
  mk_loop k (l_pins l) (l_chk l) (l_port l) (l_gen l) (l_inj l) (l_cycle l) (insns_retired l) (last_retire l) (last_retired_pc l) (cnt l).
Definition with_pins (p : pins) l : loop_t K :=
  mk_loop (core l) p (l_chk l) (l_port l) (l_gen l) (l_inj l) (l_cycle l) (insns_retired l) (last_retire l) (last_retired_pc l) (cnt l).
Definition with_chk (c : checker) l : loop_t K :=
  mk_loop (core l) (l_pins l) c (l_port l) (l_gen l) (l_inj l) (l_cycle l) (insns_retired l) (last_retire l) (last_retired_pc l) (cnt l).
Definition with_port (p : port) (g : latgen) l : loop_t K :=
  mk_loop (core l) (l_pins l) (l_chk l) p g (l_inj l) (l_cycle l) (insns_retired l) (last_retire l) (last_retired_pc l) (cnt l).
Definition with_inj (j : injector) l : loop_t K :=
  mk_loop (core l) (l_pins l) (l_chk l) (l_port l) (l_gen l) j (l_cycle l) (insns_retired l) (last_retire l) (last_retired_pc l) (cnt l).
Definition with_cycle (n : Z) l : loop_t K :=
  mk_loop (core l) (l_pins l) (l_chk l) (l_port l) (l_gen l) (l_inj l) n (insns_retired l) (last_retire l) (last_retired_pc l) (cnt l).
Definition with_last_retire (n : Z) l : loop_t K :=
  mk_loop (core l) (l_pins l) (l_chk l) (l_port l) (l_gen l) (l_inj l) (l_cycle l) (insns_retired l) n (last_retired_pc l) (cnt l).
Definition with_cnt (c : counters) l : loop_t K :=
  mk_loop (core l) (l_pins l) (l_chk l) (l_port l) (l_gen l) (l_inj l) (l_cycle l) (insns_retired l) (last_retire l) (last_retired_pc l) c.
Definition tb l : tb_out := outs (core l).

(** [tb->clk = v; tb->eval();] *)
Definition evaluate (v : bool) l : loop_t K :=
  let p := set_clk v (l_pins l) in
  let log c '(entry, ehi, elo0, elo1, pm) := tlb_wr_log entry ehi elo0 elo1 pm c in
  l |> with_pins p |> with_chk (foldl log (l_chk l) (tlb_writes p (core l))) |> with_core (eval p (core l)).
Definition clock l : loop_t K := evaluate false (evaluate true l).

(** ** Reset and resume *)
Definition reset_cycle l : loop_t K :=
  let p := set_reset true (set_rsp false (mem_rsp_load_data (l_pins l)) (l_pins l)) in
  let p := foldl (fun p i => set_ip i false p) p [6; 5; 4; 3; 2] in
  with_cycle (u64 (l_cycle l + 1)) (clock (with_pins p l)).
(** [for(cycle = 0; (cycle < 4) && !gotFinish(); ++cycle) { ... ++cycle; }] *)
Fixpoint reset_loop (n : nat) l : result (loop_t K) :=
  match n with
  | O => Stop OutOfFuel
  | S n => if (l_cycle l <? 4) && negb (got_finish (core l))
           then let l := reset_cycle l in reset_loop n (with_cycle (u64 (l_cycle l + 1)) l) else Ok l
  end.
Fixpoint wait_ready (n : nat) l : result (loop_t K) :=
  match n with
  | O => Stop OutOfFuel
  | S n => if ready_for_resume (tb l) then Ok l else wait_ready n (clock (with_cycle (u64 (l_cycle l + 1)) l))
  end.
Definition resume_pulse l : loop_t K :=
  let l := clock (with_pins (set_resume true (l_pins l)) (with_cycle (u64 (l_cycle l + 1)) l)) in
  clock (with_pins (set_resume false (l_pins l)) (with_cycle (u64 (l_cycle l + 1)) l)).
Definition bring_up (n : nat) (rpc : Z) l : result (loop_t K) :=
  let! l := reset_loop 3 (with_cycle 0 l) in
  let l := with_pins (set_resume_pc rpc (l_pins l)) l in
  let l := clock (with_pins (set_reset false (l_pins l)) l) in
  let! l := wait_ready n l in
  let l := resume_pulse l in
  let l := resume_pulse (with_pins (set_resume_pc rpc (l_pins l)) l) in
  Ok (with_pins (set_steps (opt_single_step o) 0 (l_pins l)) (with_cycle 0 l)).

(** ** The phases of a cycle *)
Definition inject_phase l : loop_t K :=
  let j := inject (opt_snoop_delay o) (l_cycle l) (o_snoop_ack (tb l)) (o_snoop_done (tb l)) (l_inj l) in
  with_pins (set_snoop j (l_pins l)) (with_inj j l).
(** The step pin: held for a while every period, or toggled every fourth cycle. *)
Definition step_pin (cycle v : Z) : Z :=
  if 0 <? step_hold o then (if 4 <=? cycle mod u64 (step_hold o + 400) then 1 else 0)
  else if cycle .& 3 =? 0 then (.~ v) .& 1 else v.
Definition ip_pins (cycle : Z) (p : pins) : pins :=
  if (assert_ip o =/? 0) && (assert_cycle o <=? cycle) && (2 <=? assert_ip o) && (assert_ip o <=? 6)
  then set_ip (assert_ip o) true p else p.
Definition rise l : loop_t K :=
  let p := set_steps (pin_single_step (l_pins l)) (step_pin (l_cycle l) (pin_step (l_pins l))) (l_pins l) in
  evaluate true (with_pins (ip_pins (l_cycle l) p) l).
(** The putchar FIFO: the character goes to the console, the pop pin is raised. *)
Definition console_phase l : loop_t K :=
  match o_putchar (tb l) with
  | Some c =>
      let p := l_port l in
      l |> with_port (mk_port (mem_reply_cycle p) (put_console [u8 c] (p_bus p)) (sim_halted p) (reply p)) (l_gen l)
        |> with_pins (set_pop true (l_pins l))
  | None => l
  end.
Definition count_branches l : loop_t K :=
  let t := tb l in let c := cnt l in
  with_cnt (mk_counters
    (if branch_pc_valid t then u64 (n_branches c + 1) else n_branches c)
    (if branch_fault t then u64 (n_mispredicts c + 1) else n_mispredicts c)
    (if in_flush_mode t then u64 (n_flush_cycles c + 1) else n_flush_cycles c)
    (if branch_fault t then wr (u32 (branch_pc t)) (u64 ((mispredicts c).[u32 (branch_pc t)] + 1)) (mispredicts c) else mispredicts c)
    (pushout_histo c) (tip_map c) (tip_insn_cnts c) (inflight c) (max_inflight c) (n_loads c) (n_stores c)
    (last_addr c) (last_load_addr c) (last_store_addr c)) l.
(** The cycle is charged to program counters. *)
Definition charge (pc : Z) (x : double) (m : Zmap double) : Zmap double := wr pc (double_add m.[pc] x) m.
Definition count_insn (pc : Z) (m : Zmap Z) : Zmap Z := wr pc (u64 (m.[pc] + 1)) m.
Definition one : double := double_of 1.
Definition tip_charge (t : tb_out) (last_pc : Z) (m : Zmap double * Zmap Z) : Zmap double * Zmap Z :=
  let '(tip, ins) := m in
  let r := o_tb t in
  if dbg_head_status t .& 1 =/? 0 then (charge last_pc one tip, ins)
  else if negb (retire_valid r || retire_two_valid r) then (charge (u64 (dbg_head_pc t)) one tip, ins)
  else
    let total := double_add (double_of (Z.b2z (retire_valid r))) (double_of (Z.b2z (retire_two_valid r))) in
    let x := double_div one total in
    let tip := charge (u64 (retire_pc r)) x tip in
    let ins := count_insn (u64 (retire_pc r)) ins in
    if retire_two_valid r
    then (charge (u64 (retire_two_pc r)) x tip, count_insn (u64 (retire_two_pc r)) ins) else (tip, ins).
Definition tip_phase l : loop_t K :=
  let c := cnt l in
  let '(tip, ins) := tip_charge (tb l) (last_retired_pc l) (tip_map c, tip_insn_cnts c) in
  with_cnt (mk_counters (n_branches c) (n_mispredicts c) (n_flush_cycles c) (mispredicts c) (pushout_histo c) tip ins
    (inflight c) (max_inflight c) (n_loads c) (n_stores c) (last_addr c) (last_load_addr c) (last_store_addr c)) l.
(** The counts of a retirement, and the cycles since the last one. *)
Definition retire_phase l : loop_t K :=
  let r := o_tb (tb l) in let c := cnt l in
  if negb (retire_valid r) then l else
  let pc32 := u32 (retire_pc r) in
  let push := if 1 <? last_retire l then wr pc32 (u64 ((pushout_histo c).[pc32] + last_retire l)) (pushout_histo c) else pushout_histo c in
  let n := u64 (insns_retired l + 1) in
  mk_loop (core l) (l_pins l) (l_chk l) (l_port l) (l_gen l) (l_inj l) (l_cycle l)
    (if retire_two_valid r then u64 (n + 1) else n) 0 (u64 (retire_pc r))
    (mk_counters (n_branches c) (n_mispredicts c) (n_flush_cycles c) (mispredicts c) push (tip_map c) (tip_insn_cnts c)
      (inflight c) (max_inflight c) (n_loads c) (n_stores c) (last_addr c) (last_load_addr c) (last_store_addr c)).
(** Without a checker only BREAK and SYSCALL stop the run. *)
Definition unchecked (m : sparse_mem) (r : tb_t) (c : checker) : result (checker * verdict) :=
  let c := retire_reg r c in
  let! v :=
    if negb (retire_valid r) then Ok Continue
    else if got_bad_addr r then Ok Break
    else let! w := mem_get 4 (u32 (retire_pc r .& 0x1fffffff)) m in
         Ok (if is_break_or_syscall (bswap false 4 w) then Break else Continue) in
  match v with Break => Ok (c, Break) | Continue => Ok (retire_reg_two r c, Continue) end.
Definition checker_phase l : result (loop_t K * verdict) :=
  let r := o_tb (tb l) in
  let! (c, v) := if enable_chk o then cycle fuel r (l_chk l) else unchecked (b_mem (p_bus (l_port l))) r (l_chk l) in
  Ok (with_chk c l, v).
(** The checks at the end of the high phase, in order. *)
Definition stop_reason l : option exit_reason :=
  let t := tb l in
  if (2 ^ 16 <? last_retire l) && negb (in_flush_mode t) then Some NoRetire
  else if sim_halted (l_port l) then Some MagicHalt
  else if got_break t then Some GotBreak
  else if got_ud t then Some GotUd
  else if got_bad_addr (o_tb t) then Some GotBadAddr
  else None.
Definition inflight_phase l : loop_t K :=
  let c := cnt l in let n := o_inflight (tb l) in
  let i := n .& 31 in
  with_cnt (mk_counters (n_branches c) (n_mispredicts c) (n_flush_cycles c) (mispredicts c) (pushout_histo c) (tip_map c) (tip_insn_cnts c)
    (wr i (u64 ((inflight c).[i] + 1)) (inflight c)) (Z.max (max_inflight c) (u32 n)) (n_loads c) (n_stores c)
    (last_addr c) (last_load_addr c) (last_store_addr c)) l.
(** The memory port at the falling edge; a reply counts as progress. *)
Definition count_reply (r : request) (c : counters) : counters :=
  let load := opcode r =? 4 in let store := opcode r =? 7 in
  mk_counters (n_branches c) (n_mispredicts c) (n_flush_cycles c) (mispredicts c) (pushout_histo c) (tip_map c) (tip_insn_cnts c)
    (inflight c) (max_inflight c) (if load then u64 (n_loads c + 1) else n_loads c) (if store then u64 (n_stores c + 1) else n_stores c)
    (u64 (req_addr r)) (if load then u64 (req_addr r) else last_load_addr c) (if store then u64 (req_addr r) else last_store_addr c).
Definition port_phase l : result (loop_t K) :=
  let req := o_mem_req (tb l) in
  let! j := match accepted req (l_port l) with
            | Some r => enqueue (opt_snoop_delay o) (opt_snoop_every o) (l_cycle l) r (l_inj l)
            | None => Ok (l_inj l)
            end in
  let! (p, g) := negedge_drawn (opt_mem_env o) (opt_mem_lat o) (opt_magic_halt o) (l_cycle l) req (l_port l, l_gen l) in
  let l := with_port p g (with_inj j l) in
  let old := mem_rsp_load_data (l_pins l) in
  match reply p, req with
  | Some d, Some r =>
      Ok (l |> with_last_retire 0 |> with_cnt (count_reply r (cnt l))
            |> with_pins (set_rsp true (if opcode r =? 4 then d else old) (l_pins l)))
  | _, _ => Ok (with_pins (set_rsp false old (l_pins l)) l)
  end.
Definition fall l : loop_t K :=
  let l := evaluate false l in
  with_cycle (u64 (l_cycle l + 1)) (with_pins (set_pop false (l_pins l)) l).

(** ** The loop *)
(** Up to the checker: the snoop port, the rising edge, the console, the counts. *)
Definition high_phase l : loop_t K :=
  l |> inject_phase |> rise |> console_phase |> count_branches |> tip_phase |> retire_phase.
Definition iteration l : result (loop_t K * option exit_reason) :=
  let! (l, v) := checker_phase (high_phase l) in
  match v with
  | Break => Ok (l, Some CheckerStop)
  | Continue =>
      let l := with_last_retire (u64 (last_retire l + 1)) l in
      match stop_reason l with
      | Some r => Ok (l, Some r)
      | None =>
          let l := if enable_chk o then l else with_chk (with_pend [] (l_chk l)) l in
          let! l := port_phase (inflight_phase l) in
          Ok (fall l, None)
      end
  end.
Definition loop_guard l : option exit_reason :=
  if got_finish (core l) then Some GotFinish
  else if negb (l_cycle l <? max_cycle o) then Some CycleLimit
  else if negb (insns_retired l <? max_icnt o) then Some InsnLimit
  else None.
Fixpoint main_loop (n : nat) l : result (loop_t K * exit_reason) :=
  match n with
  | O => Stop OutOfFuel
  | S n =>
      match loop_guard l with
      | Some r => Ok (l, r)
      | None =>
          let! (l, r) := iteration l in
          match r with Some r => Ok (l, r) | None => main_loop n l end
      end
  end.
End loop.

(** From the set-up to the loop: the port serves the memory of [s]. *)
Definition first_port (b : bench_t) : port := mk_port (-1) (mk_bus (mem (b_s b)) (icnt (b_s b)) (b_devices b) []) false None.
Definition first_loop {K} (b : bench_t) (k : K) : loop_t K :=
  mk_loop k pins_init (first_checker b) (first_port b) latgen_init injector_init 0 0 0 0 counters_init.
(** [main] from the brought-up machines to the end of the loop; [ready] bounds the
    wait for the core. *)
Definition simulate `{Config, HostFP} {K} `{Core K} (fuel ready cycles : nat) (o : bench_opts) (b : bench_t) (k : K)
  : result (loop_t K * exit_reason) :=
  let! l := bring_up o ready (resume_pc b) (first_loop b k) in
  main_loop fuel o cycles l.
