(* ===== verification/BenchProps.v ===== *)
(** Properties of the main loop: the invariant of the closed system of core,
    checker, injector and memory port, its end within the limits, and the hang
    detection. *)
From S2P Require Import Prelude Bits Insns State Mem Wf Exc Tlb Fp Exec Devices Bus Arch Utlb Decode Cosim CosimProps Snoop SnoopProps Latency Doubles Loader LoaderProps Setup SetupProps Bench.

Section bench.
Context `{Config, HostFP} {K : Type} `{Core K}.
Variable fuel : nat.
Variable o : bench_opts.
Implicit Types (l : loop_t K).
Abbreviation delay := (opt_snoop_delay o).

(** ** Frames *)
Lemma foldl_log c ws : foldl (fun c '(entry, ehi, elo0, elo1, pm) => tlb_wr_log entry ehi elo0 elo1 pm c) c ws =
  with_pend (g_pend_tlb c ++ map (fun '(entry, ehi, elo0, elo1, pm) => mk_pend_tlb entry (u64 ehi) (u64 elo0) (u64 elo1) (u32 (u32 pm << 13))) ws) c.
Proof.
  revert c. induction ws as [|[[[[entry ehi] elo0] elo1] pm] ws IH]; intros c; cbn [foldl map]; [by rewrite app_nil_r; destruct c|].
  rewrite IH. unfold tlb_wr_log, with_pend. cbn. by rewrite <- app_assoc.
Qed.
Lemma steady_foldl_log c ws : steady c -> steady (foldl (fun c '(entry, ehi, elo0, elo1, pm) => tlb_wr_log entry ehi elo0 elo1 pm c) c ws).
Proof.
  revert c. induction ws as [|[[[[entry ehi] elo0] elo1] pm] ws IH]; intros c Hc; [done|]. cbn [foldl]. by apply IH, steady_tlb_wr_log.
Qed.
(** What a phase leaves alone. *)
Record same_but_core l l' : Prop := {
  sb_port : l_port l' = l_port l; sb_gen : l_gen l' = l_gen l; sb_inj : l_inj l' = l_inj l; sb_cycle : l_cycle l' = l_cycle l;
  sb_insns : insns_retired l' = insns_retired l; sb_last : last_retire l' = last_retire l; sb_cnt : cnt l' = cnt l;
}.
Lemma evaluate_frame v l : same_but_core l (evaluate v l).
Proof. by split. Qed.
Lemma evaluate_pins v l : l_pins (evaluate v l) = set_clk v (l_pins l).
Proof. done. Qed.
Lemma evaluate_steady v l : steady (l_chk l) -> steady (l_chk (evaluate v l)).
Proof. apply steady_foldl_log. Qed.

(** ** The invariant *)
(** The checker is in step, the injector keeps its handshake, and the request port
    of the core is the injector's. *)
Record sound l : Prop := {
  so_steady : steady (l_chk l);
  so_inj : 0 < delay -> injector_ok delay (l_cycle l) (l_inj l);
  so_snoop : l_pins l = set_snoop (l_inj l) (l_pins l);
  so_cycle : 0 <= l_cycle l;
}.
(** Between iterations the pop pin is low. *)
Definition settled l : Prop := sound l /\ putchar_fifo_pop (l_pins l) = false.
Definition ports_ok : Prop := forall k : K, tb_ok (o_tb (outs k)).

Lemma set_snoop_same j j' p : snoop_req_valid j' = snoop_req_valid j -> snoop_req_wbinv j' = snoop_req_wbinv j -> snoop_req_addr j' = snoop_req_addr j ->
  set_snoop j' p = set_snoop j p.
Proof. unfold set_snoop. by intros -> -> ->. Qed.
Lemma sound_evaluate v l : sound l -> sound (evaluate v l).
Proof.
  intros [Hs Hi Hp Hc]. split; [by apply evaluate_steady|done| |done]. rewrite evaluate_pins. change (l_inj (evaluate v l)) with (l_inj l).
  rewrite Hp. done.
Qed.
(** Pins other than the snoop port. *)
Lemma sound_pins l p : sound l -> p = set_snoop (l_inj l) p -> sound (with_pins p l).
Proof. by intros [Hs Hi Hp Hc] E. Qed.
Lemma sound_inject l : sound l -> sound (inject_phase o l).
Proof.
  intros [Hs Hi Hp Hc]. split; [done| |done|done]. intros Hd. by apply inject_ok; [|apply Hi].
Qed.
Lemma sound_rise l : sound l -> sound (rise o l).
Proof.
  intros Hl. apply sound_evaluate, sound_pins; [done|]. destruct Hl as [_ _ Hp _]. unfold ip_pins, set_steps, set_ip.
  rewrite Hp. by destruct (_ && _).
Qed.
Lemma sound_console l : sound l -> sound (console_phase l).
Proof. unfold console_phase. destruct (o_putchar (tb l)); [|done]. intros [Hs Hi Hp Hc]. split; [done..| |done]. cbn. by rewrite Hp. Qed.
Lemma sound_counts l c : sound l -> sound (with_cnt c l).
Proof. by intros []. Qed.
Lemma sound_tip l : sound l -> sound (tip_phase l).
Proof. unfold tip_phase. destruct (tip_charge _ _ _) as [tip ins]. apply sound_counts. Qed.
Lemma sound_retire l : sound l -> sound (retire_phase l).
Proof. unfold retire_phase. cbv zeta. destruct (negb _); [done|]. by intros []. Qed.
Lemma sound_high l : sound l -> sound (high_phase o l).
Proof. intros Hl. unfold high_phase. by apply sound_retire, sound_tip, sound_counts, sound_console, sound_rise, sound_inject. Qed.
Lemma unchecked_judged m r c : tb_ok r -> steady c -> post judged (unchecked m r c).
Proof.
  intros Hr Hc. unfold unchecked. assert (steady (retire_reg r c)) as Hs.
  { split; [apply typed_retire_reg; [done|apply Hc]|]. unfold retire_reg. destruct Hc as (_ & ? & ?). by destruct (retire_reg_valid r). }
  eapply (post_bind (fun _ => True)).
  - destruct (negb _); [done|]. destruct (got_bad_addr r); [done|]. by destruct (mem_get _ _ _).
  - intros v _. destruct v; [|split; [apply Hs|done]]. pose proof (steady_retire_reg_two r _ Hr Hs) as Hs2. split; [apply Hs2|done].
Qed.
Lemma checker_phase_judged l : ports_ok -> sound l ->
  post (fun lv => typed (l_chk lv.1) /\ (lv.2 = Continue -> sound lv.1) /\ lv.1 = with_chk (l_chk lv.1) l) (checker_phase fuel o l).
Proof.
  intros Hp [Hs Hi Hsn Hc]. unfold checker_phase. cbv zeta. eapply (post_bind judged).
  - destruct (enable_chk o); [apply cycle_judged; [apply Hp|done]|apply unchecked_judged; [apply Hp|done]].
  - intros [c v] [Ht Hv]. cbn [post fst snd]. split; [done|]. split; [|done]. intros E. split; [by apply Hv|done..].
Qed.
Lemma enqueue_port cycle r j j' : enqueue delay (opt_snoop_every o) cycle r j = Ok j' ->
  snoop_req_valid j' = snoop_req_valid j /\ snoop_req_wbinv j' = snoop_req_wbinv j /\ snoop_req_addr j' = snoop_req_addr j.
Proof.
  unfold enqueue. destruct (negb _); [by intros [= <-]|]. destruct (_ =? 0); [done|]. cbv zeta.
  destruct (_ =? 0); [|by intros [= <-]]. destruct (_ <? 256); by intros [= <-].
Qed.
Lemma port_phase_sound l : l_cycle l + delay < 2 ^ 64 -> sound l -> post (fun l' => sound l' /\ l_cycle l' = l_cycle l) (port_phase o l).
Proof.
  intros Hb [Hs Hi Hp Hc]. unfold port_phase. cbv zeta.
  set (enq := match accepted _ _ with Some _ => _ | None => _ end).
  assert (post (fun j => (0 < delay -> injector_ok delay (l_cycle l) j) /\ set_snoop j (l_pins l) = set_snoop (l_inj l) (l_pins l)) enq) as Hj.
  { unfold enq. destruct (accepted _ _) as [r|]; [|done]. destruct (enqueue _ _ _ r (l_inj l)) as [j|] eqn:E; [|done]. split.
    - intros Hd. eapply enqueue_ok; [|by apply Hi|exact E]. unfold in_u. lia.
    - apply enqueue_port in E as (E1 & E2 & E3). by apply set_snoop_same. }
  eapply post_bind; [exact Hj|]. intros j [Hji Hjp]. destruct (negedge_drawn _ _ _ _ _ _) as [[p g]|]; [|done]. cbn [mbind result_bind].
  set (l1 := with_port p g (with_inj j l)).
  assert (sound l1) as Hl1 by (split; [done|done| |done]; cbn; rewrite Hjp; exact Hp).
  assert (l_pins l = set_snoop j (l_pins l)) as Hq by (rewrite Hjp; exact Hp).
  assert (forall v d, set_rsp v d (l_pins l) = set_snoop j (set_rsp v d (l_pins l))) as Hr by (intros v d; by rewrite Hq).
  destruct (reply p) as [d|], (o_mem_req (tb l)) as [r|]; (split; [apply sound_pins; [by destruct Hl1|apply Hr]|done]).
Qed.
Lemma fall_settled l : sound l -> l_cycle l + 1 < 2 ^ 64 -> settled (fall l) /\ l_cycle (fall l) = l_cycle l + 1.
Proof.
  intros Hs Hb. pose proof (so_cycle _ Hs) as Hc. apply (sound_evaluate false) in Hs as [Hst Hi Hp _]. unfold fall.
  assert (l_cycle (evaluate false l) = l_cycle l) as E by done. set (l1 := evaluate false l) in *. clearbody l1. cbn [l_cycle with_cycle with_pins].
  rewrite E in *. rewrite wrapu_id by (unfold in_u; lia). split; [|done]. split; [|done]. split; [done| | |cbn; lia].
  - intros Hd. apply (injector_ok_later delay (l_cycle l)); [cbn; lia|by apply Hi].
  - cbn. by rewrite Hp.
Qed.
(** One iteration: the loop goes on settled, a cycle later; or it leaves with the
    checker typed, and sound unless the checker stopped it. *)
Definition iterated l (r : loop_t K * option exit_reason) : Prop :=
  match r.2 with
  | None => settled r.1 /\ l_cycle r.1 = l_cycle l + 1
  | Some x => typed (l_chk r.1) /\ (x <> CheckerStop -> sound r.1) /\ l_cycle r.1 = l_cycle l
  end.
Lemma high_cycle l : l_cycle (high_phase o l) = l_cycle l.
Proof.
  unfold high_phase, retire_phase. cbv zeta. set (l1 := tip_phase _). assert (l_cycle l1 = l_cycle l) as E.
  { unfold l1, tip_phase. destruct (tip_charge _ _ _). cbn. unfold console_phase. by destruct (o_putchar _). }
  by destruct (negb _).
Qed.
Lemma stop_reason_checker l : stop_reason l <> Some CheckerStop.
Proof. unfold stop_reason. by repeat case_match. Qed.
Lemma iteration_ok l : ports_ok -> l_cycle l + 1 + delay < 2 ^ 64 -> 0 <= delay -> settled l -> post (iterated l) (iteration fuel o l).
Proof.
  intros Hports Hb Hd [Hs _]. unfold iteration. pose proof (sound_high l Hs) as Hh. pose proof (high_cycle l) as Ec.
  eapply post_bind; [by apply checker_phase_judged|]. intros [l1 v] (Ht & Hv & E). cbn [fst snd] in *.
  assert (l_cycle l1 = l_cycle l) as Ec1 by (rewrite E, <- Ec; done). destruct v; [|split; [done|split; [done|done]]].
  specialize (Hv eq_refl). set (l2 := with_last_retire _ l1). assert (sound l2) as H2 by by destruct Hv.
  destruct (stop_reason l2) as [r|] eqn:Er.
  { split; [apply H2|]. split; [done|done]. }
  set (l3 := if enable_chk o then l2 else _). assert (sound l3 /\ l_cycle l3 = l_cycle l) as [H3 E3].
  { unfold l3. destruct (enable_chk o); [done|]. split; [|done]. destruct H2 as [[(Hw & Hco & Hg & Hq) Hi] Hinj Hp Hc]. split; [|done..].
    split; [|done]. by split_and!. }
  eapply post_bind; [apply port_phase_sound; [cbn; rewrite E3; lia|by apply sound_counts]|]. intros l4 [H4 E4].
  change (l_cycle (inflight_phase l3)) with (l_cycle l3) in E4. cbn [post iterated snd]. rewrite <- E3, <- E4. apply fall_settled; [done|].
  rewrite E4, E3. lia.
Qed.

(** ** The end of the loop *)
(** What the reason says of the state the loop is left in. *)
Definition reason_ok (r : exit_reason) l : Prop :=
  match r with
  | GotFinish => got_finish (core l) = true
  | CycleLimit => l_cycle l = max_cycle o
  | InsnLimit => max_icnt o <= insns_retired l
  | NoRetire => 2 ^ 16 < last_retire l /\ in_flush_mode (tb l) = false
  | MagicHalt => sim_halted (l_port l) = true
  | GotBreak => got_break (tb l) = true
  | GotUd => got_ud (tb l) = true
  | GotBadAddr => got_bad_addr (o_tb (tb l)) = true
  | CheckerStop => True
  end.
Lemma stop_reason_ok l r : stop_reason l = Some r -> reason_ok r l.
Proof.
  unfold stop_reason. destruct (Z.ltb_spec (2 ^ 16) (last_retire l)), (in_flush_mode (tb l)) eqn:E1, (sim_halted (l_port l)) eqn:E2,
    (got_break (tb l)) eqn:E3, (got_ud (tb l)) eqn:E4, (got_bad_addr (o_tb (tb l))) eqn:E5; cbn [andb negb]; intros [= <-]; cbn; done.
Qed.
Lemma iteration_reason l : post (fun r => match r.2 with Some x => reason_ok x r.1 | None => True end) (iteration fuel o l).
Proof.
  unfold iteration. destruct (checker_phase fuel o (high_phase o l)) as [[l1 v]|]; [|done]. cbn [mbind result_bind]. destruct v; [|done].
  destruct (stop_reason _) as [r|] eqn:E; [by apply stop_reason_ok|]. by destruct (port_phase o _).
Qed.
Lemma guard_ok l r : loop_guard o l = Some r -> l_cycle l <= max_cycle o -> reason_ok r l.
Proof.
  unfold loop_guard. destruct (got_finish (core l)) eqn:E1; [by intros [= <-]|]. destruct (Z.ltb_spec (l_cycle l) (max_cycle o)); cbn [negb].
  - destruct (Z.ltb_spec (insns_retired l) (max_icnt o)); [done|by intros [= <-]].
  - intros [= <-] ?. cbn. lia.
Qed.
Lemma guard_none l : loop_guard o l = None -> l_cycle l < max_cycle o.
Proof. unfold loop_guard. destruct (got_finish (core l)); [done|]. by destruct (Z.ltb_spec (l_cycle l) (max_cycle o)). Qed.
(** The loop states an iteration of the run starts from. *)
Inductive reaches l : loop_t K -> Prop :=
  | reaches_here : reaches l l
  | reaches_next l1 l2 : reaches l l1 -> loop_guard o l1 = None -> iteration fuel o l1 = Ok (l2, None) -> reaches l l2.
Lemma reaches_first l l1 l2 : loop_guard o l = None -> iteration fuel o l = Ok (l1, None) -> reaches l1 l2 -> reaches l l2.
Proof.
  intros Hg Hi Hr. induction Hr as [|l2 l3 Hr IH Hg2 Hi2]; [|by eapply reaches_next].
  eapply reaches_next; [apply reaches_here|done|done].
Qed.
(** The result of the loop from a settled state. *)
Definition ended l (r : loop_t K * exit_reason) : Prop :=
  typed (l_chk r.1) /\ reason_ok r.2 r.1 /\ l_cycle l <= l_cycle r.1 <= max_cycle o /\ (r.2 <> CheckerStop -> sound r.1).
Definition limits_ok : Prop := 0 <= delay /\ max_cycle o + 1 + delay < 2 ^ 64.
Lemma main_loop_ok n l : ports_ok -> limits_ok -> settled l -> l_cycle l <= max_cycle o -> post (ended l) (main_loop fuel o n l).
Proof.
  intros Hp [Hd Hm]. revert l. induction n as [|n IH]; intros l Hs Hc; cbn [main_loop]; [done|].
  destruct (loop_guard o l) as [r|] eqn:Eg.
  { pose proof (guard_ok l r Eg Hc). destruct Hs as [Hs _]. split; [apply Hs|]. split; [done|]. split; [cbn; lia|done]. }
  apply guard_none in Eg. pose proof (iteration_ok l Hp ltac:(lia) Hd Hs) as Hi. pose proof (iteration_reason l) as Hr.
  destruct (iteration fuel o l) as [[l1 r]|]; [|done]. cbn [mbind result_bind]. destruct r as [r|].
  - destruct Hi as (Ht & Hv & E). split; [done|]. split; [done|]. cbn [fst snd] in *. split; [lia|done].
  - destruct Hi as [Hs1 E]. cbn [fst snd] in *. specialize (IH l1 Hs1 ltac:(lia)). destruct (main_loop fuel o n l1) as [[l2 r2]|]; [|done].
    destruct IH as (Ht & Hr2 & Hc2 & Hv). split; [done|]. split; [done|]. cbn [fst snd] in *. split; [lia|done].
Qed.
(** With more turns than cycles left the loop ends by itself, or where an
    iteration stops the process. *)
Lemma main_loop_ends n l : ports_ok -> limits_ok -> settled l -> l_cycle l <= max_cycle o ->
  (Z.to_nat (max_cycle o - l_cycle l) < n)%nat ->
  (exists r, main_loop fuel o n l = Ok r /\ ended l r) \/
  (exists l1 w, reaches l l1 /\ iteration fuel o l1 = Stop w /\ main_loop fuel o n l = Stop w).
Proof.
  intros Hp Hl Hs Hc Hn. pose proof (main_loop_ok n l Hp Hl Hs Hc) as Ho.
  destruct (main_loop fuel o n l) as [r|w] eqn:E; [by left; exists r|]. right. clear Ho. destruct Hl as [Hd Hm].
  revert l Hs Hc Hn E. induction n as [|n IH]; intros l Hs Hc Hn; [lia|]. cbn [main_loop].
  destruct (loop_guard o l) as [r|] eqn:Eg; [done|]. pose proof (guard_none l Eg) as Hlt.
  pose proof (iteration_ok l Hp ltac:(lia) Hd Hs) as Hi. destruct (iteration fuel o l) as [[l1 r]|w'] eqn:Ei; cbn [mbind result_bind].
  - destruct r as [r|]; [done|]. destruct Hi as [Hs1 E1]. cbn [fst snd] in *. intros E.
    destruct (IH l1 Hs1 ltac:(lia) ltac:(lia) E) as (l2 & w2 & Hr & Ei2 & Ew). exists l2, w2. split; [by eapply reaches_first|done].
  - intros [= <-]. exists l, w'. split; [apply reaches_here|done].
Qed.

(** ** Progress *)
Lemma high_tb l : tb (high_phase o l) = tb (rise o (inject_phase o l)) /\
  last_retire (high_phase o l) = if retire_valid (o_tb (tb (rise o (inject_phase o l)))) then 0 else last_retire l.
Proof.
  unfold high_phase. set (l1 := rise o (inject_phase o l)). change (last_retire l) with (last_retire l1). clearbody l1.
  set (l2 := tip_phase (count_branches (console_phase l1))). assert (core l2 = core l1 /\ last_retire l2 = last_retire l1) as [E1 E2].
  { unfold l2, tip_phase. destruct (tip_charge _ _ _). cbn. unfold console_phase. by destruct (o_putchar _). }
  clearbody l2. unfold retire_phase, tb. cbv zeta. rewrite E1. destruct (retire_valid _); cbn [negb core last_retire]; by rewrite ?E1, ?E2.
Qed.
(** In the iteration from [l]: the core retires; it is flushing its caches. *)
Definition retires l : bool := retire_valid (o_tb (tb (rise o (inject_phase o l)))).
Definition flushes l : bool := in_flush_mode (tb (rise o (inject_phase o l))).
Lemma port_phase_last l : post (fun l' => last_retire l' = if mem_rsp_valid (l_pins l') then 0 else last_retire l) (port_phase o l).
Proof.
  unfold port_phase. cbv zeta. destruct (match accepted _ _ with Some _ => _ | None => _ end) as [j|]; [|done]. cbn [mbind result_bind].
  destruct (negedge_drawn _ _ _ _ _ _) as [[p g]|]; [|done]. cbn [mbind result_bind]. by destruct (reply p), (o_mem_req (tb l)).
Qed.
Lemma iteration_last l : post (fun r => match r.2 with
    | None => last_retire r.1 = (if mem_rsp_valid (l_pins r.1) then 0 else u64 ((if retires l then 0 else last_retire l) + 1)) /\
              (2 ^ 16 < u64 ((if retires l then 0 else last_retire l) + 1) -> flushes l = true)
    | Some r => 2 ^ 16 < u64 ((if retires l then 0 else last_retire l) + 1) -> flushes l = false -> r = CheckerStop \/ r = NoRetire
    end) (iteration fuel o l).
Proof.
  unfold iteration, checker_phase. cbv zeta. destruct (high_tb l) as [Et El]. set (h := high_phase o l) in *. fold (retires l) in El.
  match goal with |- context [if enable_chk o then ?a else ?b] => destruct (if enable_chk o then a else b) as [[c v]|] end; [|done].
  cbn [mbind result_bind]. destruct v; [|cbn; auto]. rewrite <- El. set (l2 := with_last_retire _ (with_chk c h)).
  assert (stop_reason l2 = if (2 ^ 16 <? u64 (last_retire h + 1)) && negb (flushes l) then Some NoRetire else stop_reason l2) as Es.
  { destruct (_ && _) eqn:E; [|done]. unfold stop_reason. change (tb l2) with (tb h). rewrite Et. fold (flushes l). change (last_retire l2) with (u64 (last_retire h + 1)). by rewrite E. }
  destruct (stop_reason l2) as [r|].
  - cbn. intros Hlt Hf. destruct (Z.ltb_spec (2 ^ 16) (u64 (last_retire h + 1))); [|lia]. rewrite Hf in Es. injection Es as ->. auto.
  - set (l3 := if enable_chk o then l2 else _). assert (last_retire l3 = u64 (last_retire h + 1)) as E3 by (unfold l3; by destruct (enable_chk o)).
    pose proof (port_phase_last (inflight_phase l3)) as Hp. destruct (port_phase o (inflight_phase l3)) as [l4|]; [|done].
    cbn [mbind result_bind post fst snd] in *. split; [rewrite <- E3; exact Hp|].
    intros Hlt. destruct (Z.ltb_spec (2 ^ 16) (u64 (last_retire h + 1))); [|lia]. cbn [andb] in Es. by destruct (flushes l).
Qed.
(** [n] iterations in which the core retires nothing and the port answers nothing. *)
Inductive quiet l : nat -> loop_t K -> Prop :=
  | quiet_0 : quiet l O l
  | quiet_S n l1 l2 : quiet l n l1 -> retires l1 = false -> iteration fuel o l1 = Ok (l2, None) ->
      mem_rsp_valid (l_pins l2) = false -> quiet l (S n) l2.
Lemma quiet_last l n l' : quiet l n l' -> 0 <= last_retire l -> last_retire l + Z.of_nat n < 2 ^ 64 ->
  last_retire l' = last_retire l + Z.of_nat n.
Proof.
  intros Hq H0' Hb. induction Hq as [|n l1 l2 Hq IH Hr Hi Hv]; [lia|]. specialize (IH ltac:(lia)).
  pose proof (iteration_last l1) as Hl. rewrite Hi in Hl. destruct Hl as [Hl _]. cbn [fst snd] in Hl.
  rewrite Hr, Hv, IH, wrapu_id in Hl by (unfold in_u; lia). lia.
Qed.

(** ** Bringing the core up *)
(** Before the loop: only the core, its pins and the log of TLB writes move. *)
Record fresh (pt : port) l : Prop := {
  fr_steady : steady (l_chk l); fr_inj : l_inj l = injector_init; fr_snoop : l_pins l = set_snoop injector_init (l_pins l);
  fr_pop : putchar_fifo_pop (l_pins l) = false; fr_port : l_port l = pt;
  fr_insns : insns_retired l = 0; fr_last : last_retire l = 0; fr_gen : l_gen l = latgen_init; fr_cnt : cnt l = counters_init;
}.
Lemma fresh_evaluate pt v l : fresh pt l -> fresh pt (evaluate v l).
Proof. intros [Hs Hi Hp Hq]. split; try done; [by apply evaluate_steady|]. rewrite evaluate_pins. by rewrite Hp. Qed.
Lemma fresh_clock pt l : fresh pt l -> fresh pt (clock l).
Proof. intros Hl. by do 2 apply fresh_evaluate. Qed.
Lemma fresh_cycle pt n l : fresh pt l -> fresh pt (with_cycle n l).
Proof. by intros []. Qed.
Lemma fresh_pins pt p l : fresh pt l -> p = set_snoop injector_init p -> putchar_fifo_pop p = false -> fresh pt (with_pins p l).
Proof. by intros []. Qed.
(** A change of the pins that is not the snoop port or the pop pin. *)
Ltac fresh_set := apply fresh_pins; [| |]; [done|match goal with Hf : fresh _ ?l |- _ => rewrite (fr_snoop _ _ Hf) end; reflexivity|
  match goal with Hf : fresh _ ?l |- _ => apply (fr_pop _ _ Hf) end].
Lemma reset_pins_fresh pt l : fresh pt l ->
  fresh pt (with_pins (foldl (fun p i => set_ip i false p) (set_reset true (set_rsp false (mem_rsp_load_data (l_pins l)) (l_pins l))) [6; 5; 4; 3; 2]) l).
Proof. intros Hf. fresh_set. Qed.
Lemma reset_loop_fresh pt n l : fresh pt l -> post (fresh pt) (reset_loop n l).
Proof.
  revert l. induction n as [|n IH]; intros l Hl; cbn [reset_loop]; [done|]. destruct (_ && _); [|done].
  apply IH, fresh_cycle, fresh_cycle, fresh_clock, reset_pins_fresh, Hl.
Qed.
Lemma wait_ready_fresh pt n l : fresh pt l -> post (fresh pt) (wait_ready n l).
Proof.
  revert l. induction n as [|n IH]; intros l Hl; cbn [wait_ready]; [done|]. destruct (ready_for_resume _); [done|].
  by apply IH, fresh_clock, fresh_cycle.
Qed.
Lemma fresh_set_resume pt v l : fresh pt l -> fresh pt (with_pins (set_resume v (l_pins l)) l).
Proof. intros Hf. fresh_set. Qed.
Lemma fresh_set_resume_pc pt v l : fresh pt l -> fresh pt (with_pins (set_resume_pc v (l_pins l)) l).
Proof. intros Hf. fresh_set. Qed.
Lemma fresh_set_reset pt v l : fresh pt l -> fresh pt (with_pins (set_reset v (l_pins l)) l).
Proof. intros Hf. fresh_set. Qed.
Lemma fresh_set_steps pt a v l : fresh pt l -> fresh pt (with_pins (set_steps a v (l_pins l)) l).
Proof. intros Hf. fresh_set. Qed.
Lemma fresh_resume_clock pt v n l : fresh pt l -> fresh pt (clock (with_pins (set_resume v (l_pins l)) (with_cycle n l))).
Proof. intros Hf. apply fresh_clock. apply (fresh_set_resume pt v (with_cycle n l)). by apply fresh_cycle. Qed.
Lemma resume_pulse_fresh pt l : fresh pt l -> fresh pt (resume_pulse l).
Proof. intros Hf. unfold resume_pulse. cbv zeta. by do 2 apply fresh_resume_clock. Qed.
Lemma resume_pulse_pins l : resume_pc_pin (l_pins (resume_pulse l)) = resume_pc_pin (l_pins l) /\ resume (l_pins (resume_pulse l)) = false.
Proof. by split. Qed.
(** A clock of the core with the pins [p], and a pulse of its resume pin. *)
Definition strobe (p : pins) (k : K) : K := eval (set_clk false p) (eval (set_clk true p) k).
Definition pulse (p : pins) (k : K) : K := strobe (set_resume false p) (strobe (set_resume true p) k).
(** The core said it was ready and was resumed: from a state [k] in which it is ready for
    a resume it has seen the two pulses of the resume pin, out of reset and with [rpc] on
    its resume-pc pins, and nothing else; the loop starts at cycle 0. *)
Definition resumed (rpc : Z) l : Prop :=
  (exists p k, ready_for_resume (outs k) = true /\ reset p = false /\ resume_pc_pin p = rpc /\ core l = pulse p (pulse p k)) /\
  l_cycle l = 0 /\ reset (l_pins l) = false /\ resume_pc_pin (l_pins l) = rpc /\ resume (l_pins l) = false /\
  pin_single_step (l_pins l) = opt_single_step o.
Definition driven (rpc : Z) l : Prop := reset (l_pins l) = false /\ resume_pc_pin (l_pins l) = rpc.
Lemma wait_ready_driven rpc n l : driven rpc l -> post (fun l' => driven rpc l' /\ ready_for_resume (outs (core l')) = true) (wait_ready n l).
Proof.
  revert l. induction n as [|n IH]; intros l Hl; cbn [wait_ready]; [done|]. destruct (ready_for_resume _) eqn:E; [by split|]. by apply IH.
Qed.
Lemma resumed_fresh pt rpc l :
  fresh pt l -> fresh pt (resume_pulse (with_pins (set_resume_pc rpc (l_pins l)) l)).
Proof. intros Hf. by apply resume_pulse_fresh, fresh_set_resume_pc. Qed.
Lemma pulsed_twice rpc l : driven rpc l ->
  let l1 := resume_pulse l in let l2 := resume_pulse (with_pins (set_resume_pc rpc (l_pins l1)) l1) in
  core l2 = pulse (l_pins l) (pulse (l_pins l) (core l)) /\ driven rpc l2 /\ resume (l_pins l2) = false.
Proof. unfold driven. intros [Hr <-]. by split_and!. Qed.
Lemma released_fresh pt rpc l :
  fresh pt l -> fresh pt (clock (with_pins (set_reset false (l_pins (with_pins (set_resume_pc rpc (l_pins l)) l))) (with_pins (set_resume_pc rpc (l_pins l)) l))).
Proof. intros Hf. apply fresh_clock, fresh_set_reset, fresh_set_resume_pc, Hf. Qed.
Lemma post_and {A} (P Q : A -> Prop) (r : result A) : post P r -> post Q r -> post (fun a => P a /\ Q a) r.
Proof. by destruct r. Qed.
Lemma bring_up_fresh pt n rpc l : fresh pt l -> post (fun l' => fresh pt l' /\ resumed rpc l') (bring_up o n rpc l).
Proof.
  intros Hf. unfold bring_up. eapply post_bind; [apply reset_loop_fresh, fresh_cycle, Hf|]. intros l1 H1'. cbv zeta.
  eapply post_bind; [apply post_and; [apply (wait_ready_fresh pt), released_fresh, H1'|by apply (wait_ready_driven rpc)]|].
  intros l2 (H2 & Hd & Hrdy). pose proof (resumed_fresh pt rpc _ (resume_pulse_fresh pt l2 H2)) as H3.
  destruct (pulsed_twice rpc l2 Hd) as (Ec & [E1 E2] & E3). revert H3 Ec E1 E2 E3.
  generalize (resume_pulse (with_pins (set_resume_pc rpc (l_pins (resume_pulse l2))) (resume_pulse l2))).
  intros l3 H3 Ec E1 E2 E3. split; [apply (fresh_set_steps pt _ _ (with_cycle 0 l3)), fresh_cycle, H3|].
  split; [|by split_and!]. exists (l_pins l2), (core l2). destruct Hd. by split_and!.
Qed.
(** The interpreter does not move while the core is brought up. *)
Lemma ss_logged (ws : list (Z * Z * Z * Z * Z)) c :
  ss (foldl (fun c '(entry, ehi, elo0, elo1, pm) => tlb_wr_log entry ehi elo0 elo1 pm c) c ws) = ss c.
Proof. revert c. induction ws as [|[[[[? ?] ?] ?] ?] ws IH]; intros c; [done|]. cbn [foldl]. by rewrite IH. Qed.
Definition idle_at (t : state) l : Prop := ss (l_chk l) = t.
Lemma idle_clock t l : idle_at t l -> idle_at t (clock l).
Proof. unfold idle_at. intros <-. unfold clock, evaluate. cbn. by rewrite !ss_logged. Qed.
Lemma reset_loop_idle t n l : idle_at t l -> post (idle_at t) (reset_loop n l).
Proof.
  revert l. induction n as [|n IH]; intros l Hl; cbn [reset_loop]; [done|]. destruct (_ && _); [|done]. apply IH.
  change (idle_at t (clock (with_pins (foldl (fun p i => set_ip i false p) (set_reset true (set_rsp false (mem_rsp_load_data (l_pins l)) (l_pins l))) [6; 5; 4; 3; 2]) l))).
  by apply idle_clock.
Qed.
Lemma wait_ready_idle t n l : idle_at t l -> post (idle_at t) (wait_ready n l).
Proof.
  revert l. induction n as [|n IH]; intros l Hl; cbn [wait_ready]; [done|]. destruct (ready_for_resume _); [done|]. by apply IH, idle_clock.
Qed.
Lemma pulse_idle t l : idle_at t l -> idle_at t (resume_pulse l).
Proof. intros Hl. unfold resume_pulse. cbv zeta. by do 2 apply idle_clock. Qed.
Lemma bring_up_idle t n rpc l : idle_at t l -> post (idle_at t) (bring_up o n rpc l).
Proof.
  intros Hl. unfold bring_up. eapply post_bind; [by apply reset_loop_idle|]. intros l1 H1'. cbv zeta.
  eapply post_bind; [by apply wait_ready_idle, idle_clock|]. intros l2 H2. apply pulse_idle in H2. revert H2. generalize (resume_pulse l2). intros l3 H3.
  assert (idle_at t (resume_pulse (with_pins (set_resume_pc rpc (l_pins l3)) l3))) as H4 by (by apply pulse_idle).
  revert H4. generalize (resume_pulse (with_pins (set_resume_pc rpc (l_pins l3)) l3)). by intros l4.
Qed.
Lemma fresh_settled pt l : fresh pt l -> 0 <= l_cycle l -> settled l.
Proof.
  intros [Hs Hi Hp Hq _ _ _ _ _] Hc. split; [|done]. split; [done| |by rewrite Hi|done]. intros _. rewrite Hi. apply injector_ok_init.
Qed.
End bench.


(** C5. A simulation from the files to its end.  When the ELF file loads and the
    firmware fits, the set-up succeeds and the pc it resumes the core at is the pc of the
    checker's interpreter, its low word sign-extended.  A simulation that returns has
    waited for the core to be ready, pulsed its resume pin out of reset with that pc on
    the resume-pc pins, and run the loop on the core so resumed, with the interpreter
    still at that pc, to one of its limits or to one of its reasons to stop, which then holds.  The checker stays typed and
    coherent all along, the snoop injector keeps its handshake, and a run that the
    checker has not stopped has recorded no divergence.  The core is any machine whose
    register numbers have five bits. *)
Theorem simulation_sound `{Config, HostFP} {K} `{Core K} (pgSize : Z) (o : options) (bo : bench_opts) (elf : option file) (s : state)
    (Hi : sgi_indy o = false) (He : mips_binary o = Some elf)
    (Hs : load_elf pgSize elf (reset_state (opt_noutlb o)) = Ok s) (Ha : arcs_ok o)
    (Hports : ports_ok (K := K)) (Hlim : limits_ok bo) (Hmax : 0 <= max_cycle bo) :
  exists b, setup pgSize o = Ok b /\ brought_up o s b /\
    let ipc := pc (ss (first_checker b)) in
    forall (fuel ready cycles : nat) (k : K),
      post (fun '(l, r) =>
              (exists l0, resumed bo (u64 (s32 ipc)) l0 /\ pc (ss (l_chk l0)) = ipc /\ main_loop fuel bo cycles l0 = Ok (l, r)) /\
              typed (l_chk l) /\ reason_ok bo r l /\ 0 <= l_cycle l <= max_cycle bo /\
              (r <> CheckerStop -> incorrect (l_chk l) = false /\
                 (0 < opt_snoop_delay bo -> injector_ok (opt_snoop_delay bo) (l_cycle l) (l_inj l))))
        (simulate fuel ready cycles bo b k).
Proof.
  destruct (setup_brought_up pgSize o elf s Hi He Hs Ha) as (b & Hb & Hup & Hm & Hpc & Es). exists b. split; [done|]. split; [done|].
  intros ipc fuel ready cycles k. unfold simulate.
  assert (resume_pc b = u64 (s32 ipc)) as Er.
  { destruct Hup as (m & Ebs & _ & _ & Ess & _). subst ipc. unfold resume_pc, first_checker. cbn [ss]. rewrite Ess.
    change (pc (interpreter o (b_s b))) with (pc (b_s b)). by rewrite wraps_wrapu by done. }
  assert (fresh (first_port b) (first_loop b k)) as Hf by (split; try done; by eapply brought_up_steady).
  eapply post_bind; [apply post_and; [by apply bring_up_fresh|by apply bring_up_idle]|]. intros l [[Hl Hres] Hss].
  pose proof Hres as (_ & Hc & _).
  pose proof (main_loop_ok fuel bo cycles l Hports Hlim (fresh_settled bo _ l Hl ltac:(lia)) ltac:(lia)) as Hr.
  destruct (main_loop fuel bo cycles l) as [[l' r]|] eqn:El; [|done]. destruct Hr as (Ht & Hr & Hcy & Hsn). cbn [fst snd] in *.
  split; [|split; [done|]; split; [done|]; split; [lia|]; intros Hne; destruct (Hsn Hne) as [(_ & ? & _) Hinj _ _]; by split].
  exists l. rewrite <- Er. split; [done|]. split; [by rewrite Hss|done].
Qed.

(** C29. The loop ends.  From a settled state, once it may turn more often than
    cycles are left it returns with a reason that holds of the state it leaves, no
    later than the cycle limit; the only other way out is an iteration that stops
    the process. *)
Theorem simulation_ends `{Config, HostFP} {K} `{Core K} (fuel n : nat) (o : bench_opts) (l : loop_t K)
    (Hports : ports_ok (K := K)) (Hlim : limits_ok o) (Hs : settled o l) (Hc : l_cycle l <= max_cycle o)
    (Hn : (Z.to_nat (max_cycle o - l_cycle l) < n)%nat) :
  (exists l' r, main_loop fuel o n l = Ok (l', r) /\ reason_ok o r l' /\ l_cycle l <= l_cycle l' <= max_cycle o) \/
  (exists l1 w, reaches fuel o l l1 /\ iteration fuel o l1 = Stop w /\ main_loop fuel o n l = Stop w).
Proof.
  destruct (main_loop_ends fuel o n l Hports Hlim Hs Hc Hn) as [([l' r] & E & _ & Hr & Hcy & _)|Hstop]; [|by right].
  left. by exists l', r.
Qed.

(** C30. A hung core is stopped.  The loop counts the cycles since the last
    retirement or memory reply exactly; in the iteration that brings the count past
    65536 it leaves, with the hang reported unless the checker stopped it first,
    provided the core is not flushing its caches. *)
Theorem hang_detected `{Config, HostFP} {K} `{Core K} (fuel n : nat) (o : bench_opts) (l l1 : loop_t K)
    (Hq : quiet fuel o l n l1) (Hl0 : 0 <= last_retire l) (Hn : last_retire l + Z.of_nat n = 2 ^ 16)
    (Hr : retires o l1 = false) (Hf : flushes o l1 = false) :
  last_retire l1 = 2 ^ 16 /\
  post (fun r => r.2 = Some CheckerStop \/ r.2 = Some NoRetire) (iteration fuel o l1).
Proof.
  pose proof (quiet_last fuel o l n l1 Hq Hl0 ltac:(lia)) as E. split; [lia|]. pose proof (iteration_last fuel o l1) as Hl.
  destruct (iteration fuel o l1) as [[l2 [r|]]|]; [| |done]; cbn [post fst snd] in *; rewrite Hr, E, Hn in Hl;
    change (u64 (2 ^ 16 + 1)) with 65537 in Hl; change (2 ^ 16) with 65536 in Hl.
  - destruct (Hl ltac:(lia) Hf) as [-> | ->]; auto.
  - destruct Hl as [_ Hl]. rewrite Hl in Hf by lia. done.
Qed.

(** ** Concrete inputs *)
(** A core that is ready at once and then does nothing. *)
Definition idle_tb : tb_t := mk_tb false 0 0 false 0 0 false 0 false 0 0 0 0 false 0 false.
Definition idle_out : tb_out := mk_tb_out idle_tb false false None true None false false false false false 0 0 1 0.
#[export] Instance idle_core : Core unit := {|
  eval _ k := k; outs _ := idle_out; got_finish _ := false; tlb_writes _ _ := [] |}.
Lemma idle_ports : ports_ok (K := unit).
Proof. intros k. split; cbn; lia. Qed.
Definition sample_bench : bench_opts := mk_bench_opts 20 1000 4 false 0 true true 3 1 (mk_mem_env None None None) 0 0.
Definition sample_loop (last : Z) : loop_t unit :=
  mk_loop tt pins_init boot_checker (mk_port (-1) (mk_bus (mk_sparse_mem ∅ false) 0 None []) false None) latgen_init injector_init
    5 0 last 0 counters_init.
Lemma sample_settled last : @settled r4400_config unit sample_bench (sample_loop last).
Proof.
  split; [|done]. split; [| |done|cbn; lia]; [|intros _; apply injector_ok_init].
  split; [|done]. split_and!; [|apply coh_empty|apply arr_ok_empty|constructor].
  destruct wf_boot_state. by constructor; try done; unfold in_s; cbn; unfold kseg1_pc; lia.
Qed.
Lemma simulation_sound_witness :
  exists b, @setup r4400_config 4096 sample_options = Ok b /\
    post (fun '(l, r) => (exists l0, @resumed unit idle_core sample_bench (u64 (s32 (pc (ss (first_checker b))))) l0) /\
        reason_ok sample_bench r l /\ 0 <= l_cycle l <= 20)
      (@simulate r4400_config indefinite_host unit idle_core 3 5 30 sample_bench b tt).
Proof.
  destruct (@simulation_sound r4400_config indefinite_host unit idle_core 4096 sample_options sample_bench (Some sample_file) sample_loaded)
    as (b & Hb & _ & Hall);
    [reflexivity|reflexivity|vm_compute; reflexivity|split; [apply file_ok_check; vm_compute; reflexivity|split; discriminate]
    |exact idle_ports|split; [discriminate|reflexivity]|discriminate|].
  exists b. split; [exact Hb|]. specialize (Hall 3%nat 5%nat 30%nat tt).
  destruct (simulate 3 5 30 sample_bench b tt) as [[l r]|]; [|exact I]. destruct Hall as ((l0 & Hl0 & _) & _ & Hr & Hc & _).
  split; [exists l0; exact Hl0|]. split; [exact Hr|exact Hc].
Defined.
Lemma simulation_ends_witness :
  (exists l' r, @main_loop r4400_config indefinite_host unit idle_core 3 sample_bench 16 (sample_loop 0) = Ok (l', r) /\
     @reason_ok unit idle_core sample_bench r l' /\ 5 <= l_cycle l' <= 20) \/
  (exists l1 w, @reaches r4400_config indefinite_host unit idle_core 3 sample_bench (sample_loop 0) l1 /\
     @iteration r4400_config indefinite_host unit idle_core 3 sample_bench l1 = Stop w /\
     @main_loop r4400_config indefinite_host unit idle_core 3 sample_bench 16 (sample_loop 0) = Stop w).
Proof.
  apply (@simulation_ends r4400_config indefinite_host unit idle_core 3 16 sample_bench (sample_loop 0));
    [exact idle_ports|split; [discriminate|reflexivity]|apply sample_settled|discriminate|cbn; lia].
Defined.
Lemma hang_detected_witness :
  exists l1, @iteration r4400_config indefinite_host unit idle_core 3 sample_bench (sample_loop 65535) = Ok (l1, None) /\
    last_retire l1 = 2 ^ 16 /\
    post (fun r => r.2 = Some CheckerStop \/ r.2 = Some NoRetire) (@iteration r4400_config indefinite_host unit idle_core 3 sample_bench l1).
Proof.
  destruct (@iteration r4400_config indefinite_host unit idle_core 3 sample_bench (sample_loop 65535)) as [[l1 [r|]]|] eqn:E;
    [exfalso; clear -E; vm_compute in E; discriminate| |exfalso; clear -E; vm_compute in E; discriminate].
  exists l1. split; [reflexivity|].
  assert (mem_rsp_valid (l_pins l1) = false) as Hv by (clear -E; vm_compute in E; injection E as <-; reflexivity).
  apply (@hang_detected r4400_config indefinite_host unit idle_core 3 1 sample_bench (sample_loop 65535) l1);
    [eapply quiet_S; [apply quiet_0|reflexivity|exact E|exact Hv]|discriminate|reflexivity|reflexivity|reflexivity].
Defined.
