(* ===== verification/Report.v ===== *)
(** The report of a run (the end of [main] in [src/top.cc], [topdown_report], and
    [dump_histo] of [src/top.hh]): the log, the two histogram files, the cycle
    attribution, the lines on the console, the readback of the trace buffer and the
    memory dump.  A line is the list of the items the code streams; how a stream
    renders a number, and the disassembly of a word, are left to the host. *)
From stdpp Require Import sorting.
From Stdlib Require Import String SpecFloat.
From S2P Require Import Prelude Bits Insns State Mem Fp Exec Devices Bus Cosim Snoop Latency Stats Doubles StageStats Bench.
#[local] Open Scope string_scope.
#[local] Open Scope list_scope.
#[local] Open Scope Z_scope.

(** What is streamed: text, a number, a floating-point number (or one converted to
    [uint64_t]), a hexadecimal number, the disassembly of a word at a pc, an
    instruction class.  A [printf] is its format and its arguments. *)
Inductive item := Txt (t : string) | Num (n : Z) | Flt (d : double) | Int (d : double) | Hex (n : Z) | Asm (insn pc : Z) | Cls (i : mipsInsn.t).
Definition line : Type := list item.

(** ** Maps in key order *)
Definition key_le {A} (p q : Z * A) : Prop := p.1 <= q.1.
#[export] Instance key_le_dec {A} (p q : Z * A) : Decision (key_le p q) := Z_le_dec p.1 q.1.
Definition entries {A} (m : Zmap A) : list (Z * A) := merge_sort key_le (map_to_list m).
(** [std::pair]'s order, lexicographic. *)
Definition pair_le (p q : Z * Z) : Prop := p.1 < q.1 \/ (p.1 = q.1 /\ p.2 <= q.2).
#[export] Instance pair_le_dec p q : Decision (pair_le p q).
Proof. unfold pair_le. apply _. Defined.
(** [total += p.second] over a map. *)
Definition map_total (h : list (Z * Z)) : Z := foldl (fun a p => u64 (a + p.2)) 0 h.
(** [total += p.first * p.second], and the same sum kept in a [double]. *)
Definition map_weight (h : list (Z * Z)) : Z := foldl (fun a p => u64 (a + u64 (p.1 * p.2))) 0 h.
Definition map_avg (h : list (Z * Z)) : double := foldl (fun a p => double_add a (double_of (u64 (p.1 * p.2)))) (double_of 0) h.
Definition ratio (a b : Z) : double := double_div (double_of a) (double_of b).
Definition percent (x : double) : double := double_mul (double_of 100) x.

(** ** [dump_histo] *)
(** The count goes into the first half of a pair whose type is the key's, 32 bits. *)
Definition by_count (h : Zmap Z) : list (Z * Z) :=
  reverse (merge_sort pair_le (map (fun p => (u32 p.2, p.1)) (entries h))).
Definition dump_histo (h : Zmap Z) (m : sparse_mem) : result (list line) :=
  foldr (fun p rest =>
      let! w := mem_get 4 (u32 p.2) m in
      let! rest := rest in
      Ok ([Hex p.2; Txt ":"; Asm (bswap false 4 w) p.2; Txt ","; Num p.1] :: rest))
    (Ok []) (by_count h).

(** ** The cycle attribution *)
Definition tip_total (tip : Zmap double) : double := foldl (fun a p => double_add a p.2) (double_of 0) (entries tip).
(** [std::sort] by decreasing cycles leaves the order of equal ones open. *)
Definition tip_sorted (tip : Zmap double) (tv : list (Z * double)) : Prop :=
  tv ≡ₚ entries tip /\ StronglySorted (fun p q : Z * double => SFltb p.2 q.2 = false) tv.
Definition tip_line (insns_retired : Z) (m : sparse_mem) (p : Z * double) : result line :=
  let pc := p.1 .& 0x1fffffff in
  let! w := mem_get 4 (u32 pc) m in
  Ok [Hex p.1; Txt ":"; Asm (bswap false 4 w) pc; Txt ","; Flt p.2; Txt ",";
      Flt (if insns_retired =/? 0 then double_mul (double_div p.2 (double_of insns_retired)) (double_of 1000) else double_of 0)].
Fixpoint tip_lines (insns_retired : Z) (m : sparse_mem) (tv : list (Z * double)) : result (list line) :=
  match tv with
  | [] => Ok []
  | p :: tv => let! l := tip_line insns_retired m p in let! ls := tip_lines insns_retired m tv in Ok (l :: ls)
  end.

(** ** The inputs of the report *)
(** The cache counters of the core. *)
Record cache_counts := mk_cache_counts {
  l1d_cache_hits : Z; l1d_cache_accesses : Z; l1i_cache_hits : Z; l1i_cache_accesses : Z; l2_cache_hits : Z; l2_cache_accesses : Z;
}.
(** The file-scope statistics of [top.cc]. *)
Record statics := mk_statics {
  st_counters : Stats.counters; st_exec : exec_stats; st_l1d : l1d_stats; st_faults : fault_stats;
  branch_distribution : Zmap Z; restart_ds_distribution : Zmap Z; st_retirement : retirement; st_topdown : topdown.t; st_stages : stages;
}.

(** ** Sections of the log *)
(** The occupancy of the reorder buffer, averaged over the cycles. *)
Definition avg_inflight (inflight : Zmap Z) : double :=
  let '(avg, sum) := foldl (fun '(avg, sum) i =>
      if inflight.[i] =? 0 then (avg, sum)
      else (double_add avg (double_of (u64 (i * inflight.[i]))), double_add sum (double_of inflight.[i])))
    (double_of 0, double_of 0) (topdown.upto 32) in
  double_div avg sum.
Definition head_lines (cycle n_checks insns max_if : Z) (c : Bench.counters) : list line :=
  [ [Txt "n_mispredicts = "; Num (n_mispredicts c); Txt ", cycles = "; Num cycle; Txt ", insns = "; Num insns; Txt ", n_checks = "; Num n_checks];
    [Flt (ratio insns cycle); Txt " insn per cycle"];
    [Num insns; Txt " insns retired"];
    [Txt "avg insns in ROB = "; Flt (avg_inflight (inflight c)); Txt ", max inflight = "; Num max_if] ].
Definition cache_lines (k : cache_counts) : list line :=
  [ [Txt "l1d cache hits = "; Num (l1d_cache_hits k)];
    [Txt "l1d cache accesses = "; Num (l1d_cache_accesses k)];
    [Txt "l1d hit rate = "; Flt (percent (ratio (l1d_cache_hits k) (l1d_cache_accesses k)))];
    [Txt "l1i cache hits = "; Num (l1i_cache_hits k)];
    [Txt "l1i cache accesses = "; Num (l1i_cache_accesses k)];
    [Txt "l1i hit rate = "; Flt (percent (ratio (l1i_cache_hits k) (l1i_cache_accesses k)))];
    [Txt "l2 cache hits = "; Num (l2_cache_hits k)];
    [Txt "l2 cache accesses = "; Num (l2_cache_accesses k)] ].
Definition branch_lines (insns : Z) (c : Bench.counters) (t : statics) : list line :=
  [ [Txt "branch mispredict rate = "; Flt (double_mul (ratio (n_mispredicts c) (n_branches c)) (double_of 100))];
    [Txt "mispredicts per kiloinsn = "; Flt (double_mul (ratio (n_mispredicts c) insns) (double_of 1000))];
    [Num (n_flush_cycles c); Txt " cycles spent flushing caches"];
    [Num (n_loads c); Txt " cache line loads"];
    [Num (n_stores c); Txt " cache line stores"];
    [Num (l1d_misses (st_retirement t)); Txt " l1d misses"];
    [Num (l1d_insns (st_retirement t)); Txt " insns access the l1d"] ].
(** The mean number of instructions fetched, over [n_fetch[0..4]]. *)
Definition avg_fetch (n_fetch : Zmap Z) : double :=
  ratio (foldl (fun a i => u64 (a + u64 (n_fetch.[i] * i))) 0 (topdown.upto 5)) (foldl (fun a i => u64 (a + n_fetch.[i])) 0 (topdown.upto 5)).
Definition queue_lines (t : statics) : list line :=
  let c := st_counters t in let e := st_exec t in
  [ [Txt "avg fetch = "; Flt (avg_fetch (n_fetch c))];
    [Txt "resteer bubble = "; Num (n_resteer_bubble c)];
    [Txt "front-end queues full = "; Num (n_fq_full c)];
    [Num (n_int_exec e).[0]; Txt " cycles where int exec queue is not empty"];
    [Num (n_int_exec e).[1]; Txt " cycles where int exec queue dispatches"];
    [Num (n_mem_exec e).[0]; Txt " cycles where mem exec queue is not empty"];
    [Num (n_mem_exec e).[1]; Txt " cycles where mem exec queue dispatches"];
    [Num (n_mem_exec e).[2]; Txt " cycles where mem exec queue is blocked by a store"];
    [Num (q_full e).[0]; Txt " cycles with int queue full"];
    [Num (q_full e).[1]; Txt " cycles with mem queue full"];
    [Num (dq_empty c); Txt " cycles with an empty decode queue"];
    [Num (uq_full c); Txt " cycles with a  full uop queue"];
    [Num (n_active c); Txt " cycles where the machine is in active state"];
    [Num (rob_full c); Txt " cycles where the rob is full"] ].
(** The key where half of the entries are reached, if any. *)
Fixpoint halfway (half acc : Z) (h : list (Z * Z)) : option Z :=
  match h with
  | [] => None
  | (k, n) :: h => let acc := u64 (acc + n) in if half <=? acc then Some k else halfway half acc h
  end.
Definition median_line (what : string) (h : list (Z * Z)) : list line :=
  match halfway (map_total h / 2) 0 h with Some k => [[Num k; Txt what]] | None => [] end.
Definition first_key (h : list (Z * Z)) : Z := match h with [] => 0 | p :: _ => p.1 end.
Definition last_key (h : list (Z * Z)) : Z := match last h with Some p => p.1 | None => 0 end.
Definition flush_lines (t : statics) : list line :=
  let h := entries (restart_distribution (st_faults t)) in
  let d := entries (restart_ds_distribution t) in
  median_line " median flush cycles" h ++
  (if map_total h =/? 0 then
     [ [Flt (map_avg h); Txt " cycles spent in pipeline flush"];
       [Num (map_total h); Txt " times pipeline was flushed"];
       [Flt (double_div (map_avg h) (double_of (map_total h))); Txt " cycles to flush on avg"];
       [Num (first_key h); Txt " min cycles to flush"];
       [Num (last_key h); Txt " max cycles to flush"] ] else []) ++
  median_line " median delay slot flush cycles" d ++
  (if map_total d =/? 0 then
     [ [Flt (map_avg d); Txt " cycles spent waiting for delay slot in flush"];
       [Flt (double_div (map_avg d) (double_of (map_total d))); Txt " cycles waiting on delay slot on avg"];
       [Num (first_key d); Txt " min cycles for delay slot"];
       [Num (last_key d); Txt " max cycles for delay slot"] ] else []).
Definition distribution_lines (what : string) (h : Zmap Z) : list line :=
  map (fun p => [Num p.1; Txt what; Num p.2; Txt " times"]) (entries h).
Definition fault_lines (t : statics) : list line :=
  distribution_lines " faults inflight, " (fault_distribution (st_faults t)) ++
  distribution_lines " branches inflight, " (branch_distribution t) ++
  distribution_lines " cycles before restart, " (fault_to_restart_distribution (st_faults t)).
(** The histogram means and medians; each median starts from the one before. *)
Definition latency_lines (t : statics) : list line :=
  let rdy := entries (int_sched_rdy_map (st_exec t)) in
  let mem := entries (mem_lat_map (st_retirement t)) in
  let non_mem := entries (non_mem_lat_map (st_retirement t)) in
  let med := histo_median mem 0 in
  [ [Txt "avg int rdy insn = "; Flt (histo_mean rdy)];
    [Txt "median int rdy insn = "; Num (histo_median rdy 0)];
    [Txt "avg mem alloc to complete = "; Flt (histo_mean mem)];
    [Txt "median mem alloc to complete = "; Num med];
    [Txt "avg non-mem alloc to complete = "; Flt (histo_mean non_mem)];
    [Txt "median non-mem alloc to complete = "; Num (histo_median non_mem med)] ].
Definition l1d_stall_str : list string :=
  ["no stall"; "got miss"; "full memory queue"; "not possible"; "load retry"; "store to same set"; "cm block stall"; "inflight rob ptr"].
Definition stall_line (r : Zmap Z) (i : Z) : list line :=
  if r.[i] =/? 0 then [[Num r.[i]; Txt " "; Txt (default "" (l1d_stall_str !! Z.to_nat i))]] else [].
Definition l1d_lines (t : statics) : list line :=
  let d := st_l1d t in
  [ [Txt "l1d_reqs = "; Num (l1d_reqs d)]; [Txt "l1d_acks = "; Num (l1d_acks d)]; [Txt "l1d_stores = "; Num (l1d_stores d)];
    [Txt "l1d tput = "; Flt (ratio (l1d_acks d) (l1d_reqs d))] ] ++
  mjoin (map (stall_line (l1d_stall_reasons d)) (tail (topdown.upto 8))).
(** The instruction histogram, in the order [visit] the hash map is walked in. *)
Definition insn_histo_lines (visit : list (mipsInsn.t * Z)) : list line :=
  mjoin (map (fun p => if p.2 =/? 0 then [[Cls p.1; Txt ","; Num p.2]] else []) visit) ++
  [[Txt "total_histo = "; Num (foldl (fun a p => u64 (a + p.2)) 0 visit)]].

(** ** [topdown_report] *)
Definition st_name : list string :=
  ["FLUSH_FOR_HALT"; "HALT"; "ACTIVE"; "DRAIN"; "RAT"; "DELAY_SLOT"; "ALLOC_FOR_SERIALIZE"; "HALT_WAIT_FOR_RESTART";
   "WAIT_FOR_SERIALIZE_AND_RESTART"; "ARCH_FAULT"; "WRITE_EPC"; "EXCEPTION_DRAIN"; "SERIALIZE_IN_FAULTED_DELAY_SLOT";
   "WAIT_FOR_SERIALIZE_IN_FAULTED_DELAY_SLOT"; "CACHE_FLUSH"; "DEAD"].
Definition be_name : list string :=
  ["-"; "ROB full"; "uop queue full"; "free list short"; "oldest-first pending"; "pending fault"; "other"; "pairing rule"].
Definition cls_name : list string := ["alu"; "branch"; "load"; "store"].
Definition why_name : list string :=
  ["full group of 4"; "cut at 16B line end"; "cut before taken cflow"; "cflow insn alone"; "delay slot alone"; "fetch queue full";
   "resteer bubble"; "miss/tlb/other state"; "restart/flush"; "group + taken br + ds"].
Definition name_at (names : list string) (i : Z) : item := Txt (default "" (names !! Z.to_nat i)).

Section topdown_report.
Variable t : topdown.t.
Definition slots : double := double_mul (double_of 2) (double_of (topdown.cycles t)).
Definition squashed_uops : double := double_of (topdown.squashed t).
Definition t_ret : double := double_div (double_of (topdown.retired t)) slots.
Definition t_bad : double := double_div (double_add squashed_uops (double_mul (double_of 2) (double_of (topdown.recov t)))) slots.
Definition t_fe : double := double_div (double_of (u64 (topdown.fe_lat t + topdown.fe_bw t))) slots.
Definition t_be : double :=
  double_div (double_add (double_of (topdown.be_sum t)) (double_mul (double_of 2) (double_of (topdown.serial t)))) slots.
Definition t_sum : double := double_add (double_add (double_add t_ret t_bad) t_fe) t_be.
Definition slot_lines (w : window) : list line :=
  [ [Txt "==== TOP-DOWN (retired-insn window "; Num (pipestart w); Txt ".."; Num (pipeend w); Txt ", "; Num (topdown.cycles t); Txt " cycles, ";
     Int slots; Txt " slots, IPC "; Flt (ratio (topdown.retired t) (topdown.cycles t)); Txt ") ===="];
    [Txt "  retiring        %5.1f%%"; Flt (percent t_ret)];
    [Txt "  bad speculation %5.1f%%   (squashed uops %.0f + recovery %lu cyc)"; Flt (percent t_bad); Flt squashed_uops; Num (topdown.recov t)];
    [Txt "  frontend bound  %5.1f%%   (latency: nothing offered %5.1f%%, bandwidth: 1 of 2 offered %5.1f%%)"; Flt (percent t_fe);
     Flt (double_div (double_of (u64 (100 * topdown.fe_lat t))) slots); Flt (double_div (double_of (u64 (100 * topdown.fe_bw t))) slots)];
    [Txt "  backend bound   %5.1f%%   (serializing states %lu cyc)"; Flt (percent t_be); Num (topdown.serial t)] ].
Definition be_line (i : Z) : list line :=
  if (topdown.be t).[i] =/? 0
  then [[Txt "      %-22s %5.1f%%"; name_at be_name i; Flt (double_div (double_of (u64 (100 * (topdown.be t).[i]))) slots)]] else [].
Definition class_line (g : stages) (k : Z) : list line :=
  if (cls_n g).[k] =? 0 then []
  else [[Txt "    %-7s n=%-6lu"; name_at cls_name k; Num (cls_n g).[k]] ++
        mjoin (map (fun j => [Txt "   %6.2f (%2lu)"; Flt (stage_mean g k j); Num (cls_min g).[5 * k + j]]) (topdown.upto 5))].
Definition state_items : line :=
  mjoin (map (fun i => if (topdown.state_cyc t).[i] =/? 0 then [Txt " %s=%lu"; name_at st_name i; Num (topdown.state_cyc t).[i]] else []) (topdown.upto 16)).
(** The fetch groups; the mean occupancy of the fetch queue sums all 64 cells. *)
Definition share (n : Z) : double := double_div (percent (double_of n)) (double_of (topdown.f_cyc t)).
Definition why_line (i : Z) : list line :=
  if (topdown.f_why_cyc t).[i] =/? 0
  then [[Txt "    %-24s %6.1f%%   %.2f"; name_at why_name i; Flt (share (topdown.f_why_cyc t).[i]); Flt (ratio (topdown.f_why_insns t).[i] (topdown.f_why_cyc t).[i])]]
  else [].
Definition occupancy : double :=
  foldl (fun occ i => double_add occ (double_mul (double_of i) (double_of (topdown.f_fqcnt t).[i]))) (double_of 0) (topdown.upto 64).
Definition fetch_lines : list line :=
  if topdown.f_cyc t =? 0 then [] else
  [[Txt "  fetch: %.3f insns/cycle over %lu cycles; group size hist:"; Flt (ratio (topdown.f_insns t) (topdown.f_cyc t)); Num (topdown.f_cyc t)] ++
   mjoin (map (fun i => [Txt " %d=%.1f%%"; Num i; Flt (share (topdown.f_npush t).[i])]) (topdown.upto 5));
   [Txt "    why the group ended      %%cycles   insns/group"]] ++
  mjoin (map why_line (topdown.upto 10)) ++
  [[Txt "    fetch queue occupancy:"] ++
   mjoin (map (fun i => if (topdown.f_fqcnt t).[i] =/? 0 then [Txt " %d=%.1f%%"; Num i; Flt (share (topdown.f_fqcnt t).[i])] else []) (topdown.upto 64)) ++
   [Txt "  (mean %.2f)"; Flt (double_div occupancy (double_of (topdown.f_cyc t)))]].
Definition topdown_report (w : window) (g : stages) : list line :=
  if topdown.cycles t =? 0 then [[Txt "topdown: no cycles in window"]] else
  slot_lines w ++ mjoin (map be_line (tail (topdown.upto 8))) ++
  [[Txt "  stage latency, mean (min) cycles:   alloc->sched   sched->issue   issue->complete   alloc->complete   complete->retire"]] ++
  mjoin (map (class_line g) (topdown.upto 4)) ++
  [[Txt "    (memory ops: 'sched' = dispatch from the memory uop queue to address generation)"];
   [Txt "  (sum %.1f%%)  cycles by state:"; Flt (percent t_sum)] ++ state_items] ++ fetch_lines.
End topdown_report.

(** ** The whole report *)
Section report.
Context {K : Type}.
Implicit Types (l : loop_t K) (t : statics) (k : cache_counts).
Definition memory l : sparse_mem := b_mem (p_bus (l_port l)).
(** The log file of a run that ended without a divergence. *)
Definition log_file (visit : list (mipsInsn.t * Z)) (k : cache_counts) t l : list line :=
  let c := cnt l in
  head_lines (l_cycle l) (n_checks (l_chk l)) (insns_retired l) (max_inflight c) c ++ cache_lines k ++
  branch_lines (insns_retired l) c t ++ queue_lines t ++ flush_lines t ++ fault_lines t ++
  [[Num (map_total (entries (pushout_histo c))); Txt " cycles of pushout"]] ++
  latency_lines t ++ l1d_lines t ++ insn_histo_lines visit.
Definition snoop_line (delay : Z) (j : injector) : list line :=
  if delay =/? 0 then
    [[Txt "[snoopinj] delay "; Num delay; Txt ": issued "; Num (snoop_issued j); Txt " completed "; Num (snoop_done_n j);
      Txt " dropped (queue full) "; Num (snoop_dropped j); Txt " still queued "; Num (Z.of_nat (length (snoop_q j)))]] else [].
(** [(100.0 * hits) / accesses]; the hit rate is left out when nothing was accessed. *)
Definition counter_lines (k : cache_counts) : list line :=
  [[Txt "[ctr] l1d acc="; Num (l1d_cache_accesses k); Txt " hit="; Num (l1d_cache_hits k)] ++
   (if l1d_cache_accesses k =/? 0
    then [Txt " ("; Flt (double_div (percent (double_of (l1d_cache_hits k))) (double_of (l1d_cache_accesses k))); Txt "%)"] else []);
   [Txt "[ctr] l1i acc="; Num (l1i_cache_accesses k); Txt " hit="; Num (l1i_cache_hits k)];
   [Txt "[ctr] l2  acc="; Num (l2_cache_accesses k); Txt " hit="; Num (l2_cache_hits k)]].
Definition console_lines (o : bench_opts) (w : window) (k : cache_counts) t l : list line :=
  let r := entries (retire_map (st_retirement t)) in
  [[Txt "tip cycles  = "; Flt (tip_total (tip_map (cnt l)))];
   [Txt "total_retire = "; Num (map_total r)]] ++
  snoop_line (opt_snoop_delay o) (l_inj l) ++
  [[Txt "total_cycle  = "; Num (map_weight r)];
   [Txt "total ipc    = "; Flt (ratio (map_total r) (map_weight r))]] ++
  counter_lines k ++
  (if topdown.enabled (st_topdown t) then topdown_report (st_topdown t) w (st_stages t) else []).
(** A run that diverged: its instruction count and the cache counters. *)
Definition diverged_lines (k : cache_counts) l : list line :=
  [[Txt "instructions retired = "; Num (insns_retired l)];
   [Txt "[ctr] l1d_accesses = "; Num (l1d_cache_accesses k); Txt "  l1d_hits = "; Num (l1d_cache_hits k)] ++
   (if l1d_cache_accesses k =/? 0
    then [Txt "  ("; Flt (double_div (percent (double_of (l1d_cache_hits k))) (double_of (l1d_cache_accesses k))); Txt "% hit)"] else []);
   [Txt "[ctr] l1i_accesses = "; Num (l1i_cache_accesses k); Txt "  l1i_hits = "; Num (l1i_cache_hits k)];
   [Txt "[ctr] l2_accesses  = "; Num (l2_cache_accesses k); Txt "  l2_hits  = "; Num (l2_cache_hits k)]].
Record run_report := mk_run_report {
  log : list line; branch_info : list line; pushout_info : list line; tip_info : list line; console_out : list line;
}.
(** [tv] is the order the sort left the attribution in, [visit] that of the
    instruction histogram. *)
Definition final_report (o : bench_opts) (w : window) (visit : list (mipsInsn.t * Z)) (tv : list (Z * double)) (k : cache_counts) t l : result run_report :=
  if incorrect (l_chk l) then Ok (mk_run_report [] [] [] [] (diverged_lines k l)) else
  let! b := dump_histo (mispredicts (cnt l)) (memory l) in
  let! p := dump_histo (pushout_histo (cnt l)) (memory l) in
  let! tip := tip_lines (insns_retired l) (memory l) tv in
  Ok (mk_run_report (log_file visit k t l) b p tip (console_lines o w k t l)).
End report.

(** ** Readback *)
(** The debug port of the core: the word at an index. *)
Section readback.
Variable dbg_trace_data : Z -> Z.
(** A retirement record is six words; bit 6 of the last marks it valid. *)
Record trace_row := mk_trace_row {
  tr_row : Z; tr_slot : Z; tr_pc : Z; tr_fetch : Z; tr_alloc : Z; tr_complete : Z; tr_retire : Z; tr_faulted : Z; tr_cause : Z;
}.
Definition trace_slot (row r : Z) : list trace_row :=
  let rec w := u32 (dbg_trace_data ((row << 4) .| w)) in
  let b := 6 * r in
  let fl := rec (b + 5) in
  if (fl >> 6) .& 1 =? 0 then []
  else [mk_trace_row row r (rec b) (rec (b + 1)) (rec (b + 2)) (rec (b + 3)) (rec (b + 4)) ((fl >> 5) .& 1) (fl .& 0x1f)].
Definition trace_buffer (wptr : nat) : list trace_row :=
  mjoin (map (fun row => trace_slot row 0 ++ trace_slot row 1) (topdown.upto wptr)).
(** The last-restart record, present when its top byte is 0x5a. *)
Record restart_record := mk_restart_record {
  rs_why : Z; rs_cause : Z; rs_head_slot : Z; rs_pc : Z; rs_src_pc : Z; rs_cycle : Z; rs_count : Z; rs_retired_since : Z;
}.
Definition why_names : list string := ["none"; "mispredict"; "exception"; "serialize"; "cache_flush"; "resume"; "?"; "?"].
Definition last_restart : option restart_record :=
  let rec w := u32 (dbg_trace_data (0x4010 .| w)) in
  if rec 0 >> 24 =? 0x5a
  then Some (mk_restart_record (rec 0 .& 7) ((rec 0 >> 3) .& 0x1f) ((rec 0 >> 8) .& 0xff) (rec 1) (rec 2) (rec 3) (rec 4) (rec 5))
  else None.
End readback.
(** [--memdump]: the bytes at a physical address, past the aliases; a range outside
    the mapping is undefined. *)
Definition memdump (dpa : Z) (dlen : nat) (m : sparse_mem) : result (list Z) :=
  if mem_sz <? dpa + Z.of_nat dlen then Stop HostUB else Ok (load_bytes (mem_bytes m) dpa dlen).
