(* ===== verification/ReportProps.v ===== *)
(** Properties of the report: every cycle of the run is charged exactly once, and
    the histogram files list every entry in decreasing order of its count modulo
    [2^32]. *)
From stdpp Require Import sorting.
From Stdlib Require Import String SpecFloat.
From S2P Require Import Prelude Bits Insns State Mem Wf Fp Exec Devices Bus Arch Utlb Decode Cosim CosimProps Snoop SnoopProps Latency Stats Doubles StageStats Bench BenchProps Report.

#[local] Open Scope string_scope.
#[local] Open Scope list_scope.
#[local] Open Scope Z_scope.

(** ** Maps in key order *)
#[export] Instance key_le_total {A} : Total (key_le (A := A)).
Proof. intros p q. unfold key_le. lia. Qed.
#[export] Instance key_le_trans {A} : Transitive (key_le (A := A)).
Proof. intros p q r. unfold key_le. lia. Qed.
#[export] Instance pair_le_total : Total pair_le.
Proof. intros p q. unfold pair_le. lia. Qed.
#[export] Instance pair_le_trans : Transitive pair_le.
Proof. intros p q r. unfold pair_le. lia. Qed.
Lemma entries_perm {A} (m : Zmap A) : entries m ≡ₚ map_to_list m.
Proof. apply merge_sort_Permutation. Qed.
Lemma entries_sorted {A} (m : Zmap A) : StronglySorted key_le (entries m).
Proof. apply StronglySorted_merge_sort; apply _. Qed.
Lemma elem_of_entries {A} (m : Zmap A) i x : (i, x) ∈ entries m <-> m !! i = Some x.
Proof. by rewrite entries_perm, elem_of_map_to_list. Qed.

(** ** Sums in halves of a cycle *)
(** A cell of the attribution holds a number of half cycles. *)
Definition half (h : Z) : double := scaled h (-1).
Definition halves_of (m : Zmap double) (h : Zmap Z) : Prop :=
  dom m = dom h /\ (forall i, m.[i] = half h.[i]) /\ (forall i, 0 <= h.[i]).
(** The sum over the keys of a map. *)
Definition zsum (h : Zmap Z) : Z := map_fold (fun _ x a => x + a) 0 h.
Lemma zsum_empty : zsum ∅ = 0.
Proof. apply map_fold_empty. Qed.
Lemma zsum_insert i x (h : Zmap Z) : h !! i = None -> zsum (<[i := x]> h) = x + zsum h.
Proof. intros E. unfold zsum. by rewrite map_fold_insert_L by (intros; lia || done). Qed.
Lemma zsum_delete i (h : Zmap Z) : zsum h = h.[i] + zsum (delete i h).
Proof.
  unfold rd. destruct (h !! i) as [x|] eqn:E; cbn [default].
  - rewrite <- (insert_delete_id h i x E) at 1. apply zsum_insert, lookup_delete_eq.
  - by rewrite delete_id.
Qed.
Lemma zsum_wr i n (h : Zmap Z) : zsum (wr i (h.[i] + n) h) = zsum h + n.
Proof.
  unfold wr. rewrite <- insert_delete_eq, zsum_insert by apply lookup_delete_eq. rewrite (zsum_delete i h). lia.
Qed.
Lemma zsum_at i (h : Zmap Z) : (forall j, 0 <= h.[j]) -> 0 <= h.[i] <= zsum h.
Proof.
  intros Hh. split; [done|]. rewrite (zsum_delete i h). enough (0 <= zsum (delete i h)) by lia.
  assert (forall j, 0 <= (delete i h).[j]) as Hd.
  { intros j. unfold rd. destruct (decide (i = j)) as [->|]; [by rewrite lookup_delete_eq|]. rewrite lookup_delete_ne by done. apply Hh. }
  revert Hd. generalize (delete i h). clear Hh h. intros h. induction h as [|j x h E IH] using map_ind; intros Hh; [by rewrite zsum_empty|].
  rewrite zsum_insert by done. pose proof (Hh j) as Hj. unfold rd in Hj. rewrite lookup_insert_eq in Hj. cbn in Hj.
  enough (0 <= zsum h) by lia. apply IH. intros k. specialize (Hh k). unfold rd in *. destruct (decide (j = k)) as [->|]; [by rewrite E|].
  by rewrite lookup_insert_ne in Hh.
Qed.
(** The total of the report, over the entries. *)
Lemma half_add a b : 0 <= a -> 0 <= b -> a + b < 2 ^ 53 -> double_add (half a) (half b) = half (a + b).
Proof. intros. by apply scaled_add_exact. Qed.
Definition zsum_list (l : list (Z * Z)) : Z := foldr (fun p a => p.2 + a) 0 l.
#[local] Instance zsum_list_perm : Proper (Permutation ==> eq) zsum_list.
Proof. intros l l' Hl. induction Hl as [|p l l' _ IH|p q l|l l' l'' _ IH1 _ IH2]; unfold zsum_list in *; cbn [foldr]; lia. Qed.
Lemma zsum_map_to_list (h : Zmap Z) : zsum h = zsum_list (map_to_list h).
Proof. unfold zsum. rewrite map_fold_foldr. apply foldr_ext; [|done|done]. by intros [] ?. Qed.
(** The entries of a map whose cells are a function of another with the same keys. *)
Lemma zsum_along {A} (m : Zmap A) (h : Zmap Z) : dom m = dom h -> zsum h = zsum_list (map (fun p => (p.1, h.[p.1])) (entries m)).
Proof.
  intros Hd. rewrite zsum_map_to_list. apply zsum_list_perm. rewrite entries_perm. apply NoDup_Permutation.
  - apply NoDup_map_to_list.
  - apply (NoDup_fmap_1 fst). rewrite <- list_fmap_compose. change (NoDup (map_to_list m).*1). apply NoDup_fst_map_to_list.
  - intros [i x]. rewrite elem_of_map_to_list, list_elem_of_fmap. unfold rd. split.
    + intros E. assert (i ∈ dom m) as [y Ey]%elem_of_dom by (rewrite Hd; by apply elem_of_dom).
      exists (i, y). split; [cbn; by rewrite E|by apply elem_of_map_to_list].
    + intros ([j y] & E & Hj%elem_of_map_to_list). cbn in E. injection E as -> ->.
      assert (j ∈ dom h) as [z Ez]%elem_of_dom by (rewrite <- Hd; by apply elem_of_dom). by rewrite Ez.
Qed.
Lemma total_halves (l : list (Z * double)) (g : Z -> Z) a : (forall p, p ∈ l -> p.2 = half (g p.1) /\ 0 <= g p.1) -> 0 <= a ->
  a + zsum_list (map (fun p => (p.1, g p.1)) l) < 2 ^ 53 ->
  foldl (fun a p => double_add a p.2) (half a) l = half (a + zsum_list (map (fun p => (p.1, g p.1)) l)).
Proof.
  revert a. induction l as [|p l IH]; intros a Hl Ha Hb; cbn [foldl map]; [by rewrite Z.add_0_r|].
  destruct (Hl p ltac:(left)) as [E Hg]. cbn [map zsum_list foldr snd fst] in *. fold (zsum_list (map (fun p => (p.1, g p.1)) l)) in *.
  assert (0 <= zsum_list (map (fun p => (p.1, g p.1)) l)) as Hn.
  { clear -Hl. induction l as [|q l IH]; [done|]. cbn. fold (zsum_list (map (fun p => (p.1, g p.1)) l)).
    destruct (Hl q ltac:(right; left)). enough (0 <= zsum_list (map (fun p => (p.1, g p.1)) l)) by lia. apply IH. intros r [->|Hr]%elem_of_cons; apply Hl; [left|by right; right]. }
  rewrite E, half_add, IH by (lia || (intros; apply Hl; by right)). f_equal. lia.
Qed.
Lemma tip_total_halves tip h : halves_of tip h -> zsum h < 2 ^ 53 -> tip_total tip = half (zsum h).
Proof.
  intros (Hd & Hc & Hh) Hb. unfold tip_total. change (double_of 0) with (half 0). rewrite (zsum_along tip h Hd) in *.
  rewrite (total_halves _ (fun i => h.[i])); [done| |done|done]. intros [i x] Hp%elem_of_entries. cbn. split; [|apply Hh].
  rewrite <- Hc. unfold rd. by rewrite Hp.
Qed.
Lemma charge_halves pc k tip h : halves_of tip h -> 0 <= k -> zsum h + k < 2 ^ 53 ->
  halves_of (charge pc (half k) tip) (wr pc (h.[pc] + k) h).
Proof.
  intros (Hd & Hc & Hh) Hk Hb. pose proof (zsum_at pc h Hh). split; [unfold charge, wr; by rewrite !dom_insert_L, Hd|].
  split; intros i; [unfold charge|]; rewrite !rd_wr; destruct (Z.eqb_spec pc i) as [->|]; try done; [|lia].
  by rewrite Hc, half_add by lia.
Qed.

(** ** Every cycle is charged once *)
(** The attribution holds [n] cycles. *)
Definition charged (n : Z) (tip : Zmap double) : Prop := exists h, halves_of tip h /\ zsum h = 2 * n.
Lemma charged_init : charged 0 ∅.
Proof. exists ∅. split; [|apply zsum_empty]. split; [by rewrite !dom_empty_L|]. split; intros i; by rewrite !rd_empty. Qed.
(** A second instruction retires only beside a first. *)
Definition in_order (t : tb_out) : bool := negb (retire_two_valid (o_tb t)) || retire_valid (o_tb t).
Lemma tip_charged t pc n tip ins : charged n tip -> in_order t = true -> 0 <= n < 2 ^ 52 - 1 ->
  charged (n + 1) (tip_charge t pc (tip, ins)).1.
Proof.
  intros (h & Hh & Hs) Ho Hn. unfold tip_charge, in_order in *. change one with (half 2).
  assert (forall pc, charged (n + 1) (charge pc (half 2) tip)) as Hall.
  { intros pc'. exists (wr pc' (h.[pc'] + 2) h). split; [apply charge_halves; [done|lia..]|]. rewrite zsum_wr. lia. }
  destruct (dbg_head_status t .& 1 =/? 0); [apply Hall|]. destruct (retire_valid (o_tb t)), (retire_two_valid (o_tb t)); try done; cbn [orb negb Z.b2z].
  - change (double_div _ _) with (half 1).
    set (p := u64 (retire_pc (o_tb t))). set (q := u64 (retire_two_pc (o_tb t))). set (h1 := wr p (h.[p] + 1) h).
    assert (halves_of (charge p (half 1) tip) h1) as H1 by (apply charge_halves; [done|lia..]).
    assert (zsum h1 = 2 * n + 1) as E1 by (unfold h1; rewrite zsum_wr; lia).
    exists (wr q (h1.[q] + 1) h1). split; [apply charge_halves; [done|lia..]|]. rewrite zsum_wr. lia.
  - change (double_div _ _) with (half 2). apply Hall.
  - apply Hall.
Qed.
Lemma tip_total_charged n tip : charged n tip -> 0 <= n < 2 ^ 52 -> tip_total tip = double_of n.
Proof.
  intros (h & Hh & Hs) Hn. rewrite (tip_total_halves tip h), Hs by (done || lia). destruct (Z.eq_dec n 0) as [->|Hn0]; [done|].
  unfold half. rewrite scaled_pos, double_of_pos by lia. rewrite Z.log2_double by lia. f_equal; [|lia]. f_equal.
  replace (53 - (Z.log2 n + 1)) with (Z.succ (53 - (Z.succ (Z.log2 n) + 1))) by lia.
  rewrite Z.pow_succ_r; [lia|]. assert (Z.log2 n < 52) by (apply Z.log2_lt_pow2; lia). lia.
Qed.

Section loop.
Context `{Config, HostFP} {K : Type} `{Core K}.
Variable fuel : nat.
Variable o : bench_opts.
Implicit Types (l : loop_t K).
(** What the core shows in the iteration from [l]. *)
Definition seen l : tb_out := tb (rise o (inject_phase o l)).
Lemma high_tip l :
  tip_map (cnt (high_phase o l)) = (tip_charge (seen l) (last_retired_pc l) (tip_map (cnt l), tip_insn_cnts (cnt l))).1.
Proof.
  unfold high_phase, seen. set (l1 := rise o (inject_phase o l)). assert (cnt l1 = cnt l /\ last_retired_pc l1 = last_retired_pc l) as [Ec Ep] by done.
  clearbody l1. rewrite <- Ec, <- Ep. set (l2 := count_branches (console_phase l1)).
  assert (tip_map (cnt l2) = tip_map (cnt l1) /\ tip_insn_cnts (cnt l2) = tip_insn_cnts (cnt l1) /\ last_retired_pc l2 = last_retired_pc l1 /\ tb l2 = tb l1) as (E1 & E2 & E3 & E4).
  { unfold l2, count_branches, console_phase, tb. by destruct (o_putchar (outs (core l1))). }
  clearbody l2. rewrite <- E1, <- E2, <- E3, <- E4. unfold retire_phase, tip_phase. cbv zeta.
  destruct (tip_charge _ _ _) as [tip ins]. by destruct (negb _).
Qed.
Lemma port_tip l : post (fun l' => tip_map (cnt l') = tip_map (cnt l)) (port_phase o l).
Proof.
  unfold port_phase. cbv zeta. destruct (match accepted _ _ with Some _ => _ | None => _ end) as [j|]; [|done]. cbn [mbind result_bind].
  destruct (negedge_drawn _ _ _ _ _ _) as [[p g]|]; [|done]. cbn [mbind result_bind]. by destruct (reply p), (o_mem_req (tb l)).
Qed.
Lemma iteration_tip l : post (fun r => tip_map (cnt r.1) = tip_map (cnt (high_phase o l))) (iteration fuel o l).
Proof.
  unfold iteration, checker_phase. cbv zeta. set (h := high_phase o l). clearbody h.
  match goal with |- context [if enable_chk o then ?a else ?b] => destruct (if enable_chk o then a else b) as [[c v]|] end; [|done].
  cbn [mbind result_bind]. destruct v; [|done]. destruct (stop_reason _); [done|].
  set (l3 := if enable_chk o then _ else _). assert (tip_map (cnt (inflight_phase l3)) = tip_map (cnt h)) as E by (unfold l3; by destruct (enable_chk o)).
  pose proof (port_tip (inflight_phase l3)) as Hp. destruct (port_phase o (inflight_phase l3)) as [l4|]; [|done].
  cbn [mbind result_bind post fst] in *. by rewrite <- E, <- Hp.
Qed.
(** The cycles charged when the loop ends: one for each iteration, the one it was
    left in included. *)
Definition cycles_charged (r : exit_reason) l : Z :=
  match r with GotFinish | CycleLimit | InsnLimit => l_cycle l | _ => l_cycle l + 1 end.
Definition pairs_ok : Prop := forall k : K, in_order (outs k) = true.
Lemma guard_charged l r : loop_guard o l = Some r -> cycles_charged r l = l_cycle l.
Proof.
  unfold loop_guard. destruct (got_finish _); [by intros [= <-]|]. destruct (negb _); [by intros [= <-]|]. destruct (negb _); [|done]. by intros [= <-].
Qed.
Lemma left_charged l r l' : iteration fuel o l = Ok (l', Some r) -> cycles_charged r l' = l_cycle l' + 1.
Proof.
  unfold iteration. destruct (checker_phase fuel o (high_phase o l)) as [[l1 v]|]; [|done]. cbn [mbind result_bind]. destruct v; [|by intros [= <- <-]].
  destruct (stop_reason _) as [r'|] eqn:E; [|by destruct (port_phase o _)]. intros [= <- <-]. revert E. unfold stop_reason. repeat case_match; by intros [= <-].
Qed.
Lemma main_loop_tip n l : ports_ok (K := K) -> pairs_ok -> limits_ok o -> max_cycle o < 2 ^ 52 - 1 -> settled o l -> l_cycle l <= max_cycle o ->
  charged (l_cycle l) (tip_map (cnt l)) ->
  post (fun '(l', r) => 0 <= cycles_charged r l' < 2 ^ 52 /\ charged (cycles_charged r l') (tip_map (cnt l'))) (main_loop fuel o n l).
Proof.
  intros Hp Ho [Hd Hm] Hb. revert l. induction n as [|n IH]; intros l Hs Hc Ht; cbn [main_loop]; [done|].
  pose proof (so_cycle _ _ (proj1 Hs)) as H0'. destruct (loop_guard o l) as [r|] eqn:Eg.
  { cbn [post]. rewrite (guard_charged l r Eg). split; [lia|done]. }
  apply guard_none in Eg. pose proof (iteration_ok fuel o l Hp ltac:(lia) Hd Hs) as Hi. pose proof (iteration_tip l) as Hm'.
  rewrite high_tip in Hm'. pose proof (tip_charged (seen l) (last_retired_pc l) _ _ (tip_insn_cnts (cnt l)) Ht (Ho _) ltac:(lia)) as Hch.
  destruct (iteration fuel o l) as [[l1 r]|] eqn:Ei; [|done]. cbn [mbind result_bind post fst snd] in *. rewrite <- Hm' in Hch.
  destruct r as [r|].
  - cbn [post]. rewrite (left_charged l r l1 Ei). destruct Hi as (_ & _ & E). cbn [fst] in E. rewrite E. split; [lia|done].
  - destruct Hi as [Hs1 E]. cbn [fst] in *. apply IH; [done|lia|by rewrite E].
Qed.
End loop.

(** C35. Every cycle is charged to program counters, once.  In a run from the first
    cycle, if the core never retires a second instruction without a first, the
    cycle attribution the report sums up is exactly the number of iterations, split
    cycles included: no rounding, nothing lost, nothing counted twice. *)
Theorem tip_charges_every_cycle `{Config, HostFP} {K} `{Core K} (fuel n : nat) (o : bench_opts) (l : loop_t K)
    (Hports : ports_ok (K := K)) (Hpairs : pairs_ok (K := K)) (Hlim : limits_ok o) (Hmax : 0 <= max_cycle o < 2 ^ 52 - 1)
    (Hs : settled o l) (Hc : l_cycle l = 0) (Ht : tip_map (cnt l) = ∅) :
  post (fun '(l', r) => tip_total (tip_map (cnt l')) = double_of (cycles_charged r l')) (main_loop fuel o n l).
Proof.
  assert (charged (l_cycle l) (tip_map (cnt l))) as H0' by (rewrite Hc, Ht; apply charged_init).
  pose proof (main_loop_tip fuel o n l Hports Hpairs Hlim ltac:(lia) Hs ltac:(lia) H0') as Hr.
  destruct (main_loop fuel o n l) as [[l' r]|]; [|done]. destruct Hr as [Hn Hch]. by apply tip_total_charged.
Qed.
Lemma tip_charges_every_cycle_witness :
  let l := mk_loop tt pins_init boot_checker (mk_port (-1) (mk_bus (mk_sparse_mem ∅ false) 0 None []) false None) latgen_init injector_init
    0 0 0 0 counters_init in
  post (fun '(l', r) => tip_total (tip_map (cnt l')) = double_of 20 /\ r = CycleLimit)
    (@main_loop r4400_config indefinite_host unit idle_core 3 sample_bench 30 l).
Proof.
  intros l. assert (@settled r4400_config unit sample_bench l) as Hs.
  { destruct (sample_settled 0) as [[Hs Hi Hp _] Hq]. split; [split|]; [exact Hs|intros _; apply injector_ok_init|done|done|done]. }
  pose proof (@tip_charges_every_cycle r4400_config indefinite_host unit idle_core 3 30 sample_bench l idle_ports (fun _ => eq_refl)
    ltac:(split; cbn; lia) ltac:(cbn; lia) Hs eq_refl eq_refl) as Ht.
  assert (exists l', @main_loop r4400_config indefinite_host unit idle_core 3 sample_bench 30 l = Ok (l', CycleLimit) /\ l_cycle l' = 20) as (l' & E & Ec)
    by (clear; eexists; split; vm_compute; reflexivity).
  rewrite E in *. cbn [post cycles_charged] in *. rewrite Ec in Ht. by split.
Defined.

(** ** The histogram files *)
(** The row of an entry: its pc and its count, as the file prints them. *)
Definition row_line (m : sparse_mem) (p : Z * Z) (l : line) : Prop :=
  exists w, mem_get 4 (u32 p.1) m = Ok w /\
    l = [Hex p.1; Txt ":"; Asm (bswap false 4 w) p.1; Txt ","; Num p.2].
(** An instruction address of 32 bits. *)
Definition insn_addr (pc : Z) : Prop := in_u 32 pc /\ pc mod 4 = 0.
Lemma dump_rows m (rows : list (Z * Z)) : Forall (fun p => insn_addr p.2) rows ->
  exists ls, foldr (fun p rest =>
      let! w := mem_get 4 (u32 p.2) m in
      let! rest := rest in
      Ok ([Hex p.2; Txt ":"; Asm (bswap false 4 w) p.2; Txt ","; Num p.1] :: rest)) (Ok []) rows = Ok ls /\
    Forall2 (row_line m) (map (fun p => (p.2, p.1)) rows) ls.
Proof.
  induction 1 as [|p rows [Hp Ha] _ (ls & IH & Hls)]; [by exists []|]. cbn [foldr map]. rewrite IH.
  pose proof (mem_get_aligned 4 m (u32 p.2) ltac:(auto)) as Hw. rewrite wrapu_id in Hw by done. specialize (Hw Hp Ha).
  rewrite <- (wrapu_id 32 p.2 Hp) in Hw at 1. rewrite Hw. cbn [mbind result_bind].
  eexists. split; [done|]. constructor; [by eexists|done].
Qed.
Definition desc (p q : Z * Z) : Prop := q.2 <= p.2.
#[local] Instance desc_trans : Transitive desc.
Proof. intros p q r. unfold desc. lia. Qed.
Lemma by_count_sorted h : StronglySorted desc (map (fun p => (p.2, p.1)) (by_count h)).
Proof.
  apply Sorted_StronglySorted; [apply _|]. apply (Sorted_fmap (fun p : Z * Z => (p.2, p.1)) (flip pair_le) desc).
  - intros p q. unfold pair_le, desc. cbn. lia.
  - apply Sorted_reverse, Sorted_merge_sort. apply _.
Qed.
Lemma by_count_perm h : map (fun p => (p.2, p.1)) (by_count h) ≡ₚ map (fun p => (p.1, u32 p.2)) (map_to_list h).
Proof.
  unfold by_count. rewrite reverse_Permutation, merge_sort_Permutation, entries_perm, map_map. done.
Qed.

(** The histogram files list every entry once, with the word at its address, by
    decreasing count.  The counts come out modulo [2^32], for they pass through a
    pair whose first half has the type of the key: while none reaches [2^32] the
    rows are exactly the entries of the map. *)
Theorem dump_histo_lists_entries (h : Zmap Z) (m : sparse_mem)
    (Hpc : forall pc n, h !! pc = Some n -> insn_addr pc) :
  exists rows lines, dump_histo h m = Ok lines /\ Forall2 (row_line m) rows lines /\ StronglySorted desc rows /\
    rows ≡ₚ map (fun p => (p.1, u32 p.2)) (map_to_list h) /\
    ((forall pc n, h !! pc = Some n -> in_u 32 n) -> rows ≡ₚ map_to_list h).
Proof.
  pose proof (by_count_perm h) as Hperm. set (rows := map (fun p => (p.2, p.1)) (by_count h)) in *.
  assert (Forall (fun p => insn_addr p.2) (by_count h)) as Hf.
  { apply Forall_forall. intros p Hp. assert ((p.2, p.1) ∈ rows) as Hin by (apply list_elem_of_fmap; by exists p).
    rewrite Hperm in Hin. apply list_elem_of_fmap in Hin as ([pc n] & E & Hin%elem_of_map_to_list). cbn in E. injection E as -> _. by eapply Hpc. }
  destruct (dump_rows m _ Hf) as (ls & E & Hls). exists rows, ls. split_and!; try done; [apply by_count_sorted|].
  intros Hn. rewrite Hperm. rewrite <- (list_fmap_id (map_to_list h)) at 2. apply Permutation_refl', list_fmap_ext.
  intros i [pc n] Hi. cbn. rewrite wrapu_id; [done|]. eapply Hn. apply elem_of_map_to_list. by eapply list_elem_of_lookup_2.
Qed.
Lemma dump_histo_lists_entries_witness :
  let h := wr 0x80001000 3 (wr 0x80001004 (2 ^ 32) (wr 0x80001008 7 ∅)) in
  exists lines, dump_histo h (mk_sparse_mem ∅ false) = Ok lines /\ map (fun l => match l with [Hex pc; _; _; _; Num n] => (pc, n) | _ => (0, 0) end) lines =
    [(0x80001008, 7); (0x80001000, 3); (0x80001004, 0)].
Proof.
  intros h. assert (forall pc n, h !! pc = Some n -> insn_addr pc) as Hpc.
  { intros pc n. unfold h, wr. rewrite !lookup_insert_Some, lookup_empty. intros [[<- _]|[_ [[<- _]|[_ [[<- _]|[_ ?]]]]]]; (by split; [unfold in_u; lia|]) || done. }
  destruct (dump_histo_lists_entries h (mk_sparse_mem ∅ false) Hpc) as (rows & lines & E & _). exists lines. split; [exact E|].
  clear Hpc rows. assert (Ok lines = dump_histo h (mk_sparse_mem ∅ false)) as E' by (symmetry; exact E). clear E. revert E'.
  let r := eval vm_compute in (dump_histo h (mk_sparse_mem ∅ false)) in change (dump_histo h (mk_sparse_mem ∅ false)) with r.
  intros [= ->]. vm_compute. reflexivity.
Defined.
