(* ===== verification/Viewer.v ===== *)
(** The pipe-trace viewer: the records of [src/pipeline_record.hh] and the page
    [src/gen_html.cc] writes from them.  A text is the list of its characters; the
    files are the lines [getline] finds in them, and the archive gives back the
    records that were appended. *)
From Stdlib Require Import Ascii String.
From Stdlib Require Import DecimalString HexadecimalString.
From S2P Require Import Prelude.

Definition text : Type := list ascii.
Definition txt (s : string) : text := list_ascii_of_string s.
#[local] Open Scope string_scope.
#[local] Open Scope list_scope.
#[local] Open Scope Z_scope.
(** [out << n] for a [uint64_t], in decimal and after [std::hex]. *)
Definition dec (n : Z) : text := txt (DecimalString.NilZero.string_of_uint (N.to_uint (Z.to_N n))).
Definition hex (n : Z) : text := txt (HexadecimalString.NilZero.string_of_uint (N.to_hex_uint (Z.to_N n))).
Definition quote : ascii := "034".
Definition Q : text := [quote].

(** ** Records *)
Record pipeline_record := mk_pipeline_record {
  uuid : Z; disasm : text; pc : Z; fetch_cycle : Z; alloc_cycle : Z; complete_cycle : Z; retire_cycle : Z;
  faulted : bool; events : list (Z * ascii);
}.
Definition no_record : pipeline_record := mk_pipeline_record (2 ^ 64 - 1) [] 0 0 0 0 0 false [].
(** [pipeline_logger::append]. *)
Definition append (r : pipeline_record) (records : list pipeline_record) : list pipeline_record := records ++ [r].
(** [operator<<]. *)
Definition record_text (r : pipeline_record) : text :=
  disasm r ++ txt "," ++ hex (pc r) ++ txt "," ++ dec (fetch_cycle r) ++ txt "," ++ dec (alloc_cycle r) ++
  txt "," ++ dec (complete_cycle r) ++ txt "," ++ dec (retire_cycle r) ++ txt "," ++ txt (if faulted r then "1" else "0") ++
  mjoin (map (fun e => txt "," ++ [e.2] ++ txt "@" ++ dec e.1) (events r)).

(** ** The template *)
Fixpoint starts_with (p s : text) : bool :=
  match p, s with
  | [], _ => true
  | c :: p, d :: s => Ascii.eqb c d && starts_with p s
  | _, [] => false
  end.
(** [regex_search] of a literal. *)
Fixpoint contains (p s : text) : bool :=
  starts_with p s || match s with [] => false | _ :: s => contains p s end.
Definition is_placeholder (l : text) : bool := contains (txt "var tableData") l.
(** The lines before the first placeholder, those after it, and whether one was seen. *)
Fixpoint read_lines (lines pre post : list text) (use_pre : bool) : list text * list text * bool :=
  match lines with
  | [] => (pre, post, use_pre)
  | l :: ls =>
      if is_placeholder l then read_lines ls pre post false
      else if use_pre then read_lines ls (pre ++ [l]) post use_pre
      else read_lines ls pre (post ++ [l]) use_pre
  end.
Definition read_template (template : option (list text)) : result (list text * list text) :=
  match template with
  | None => Stop HostExit                        (* can't open template *)
  | Some lines =>
      let '(pre, post, use_pre) := read_lines lines [] [] true in
      if use_pre then Stop HostExit else Ok (pre, post)
  end.
(** [template_path]: beside the executable. *)
Fixpoint upto_slash (exe : text) : text :=
  match exe with
  | [] => []
  | c :: s => let r := upto_slash s in
      if Ascii.eqb c "/" || negb (match r with [] => true | _ => false end) then c :: r else []
  end.
Definition template_path (exe : option text) : text :=
  match exe with
  | None | Some [] => txt "traceTemplate.html"
  | Some e => upto_slash e ++ txt "traceTemplate.html"
  end.

(** ** The page *)
Definition event_text (e : Z * ascii) : text := Q ++ dec e.1 ++ Q ++ txt ":" ++ Q ++ [e.2] ++ Q ++ txt ",".
Definition op_text (r : pipeline_record) : text :=
  txt "{" ++ Q ++ txt "str" ++ Q ++ txt ":" ++ Q ++ hex (pc r) ++ txt " " ++ disasm r ++ Q ++
  txt ",uops:[{" ++ Q ++ txt "uuid" ++ Q ++ txt ":" ++ Q ++ dec (uuid r) ++ Q ++ txt "," ++
  Q ++ txt "events" ++ Q ++ txt ":{" ++
  Q ++ dec (fetch_cycle r) ++ Q ++ txt ":" ++ Q ++ txt "F" ++ Q ++ txt "," ++
  Q ++ dec (alloc_cycle r) ++ Q ++ txt ":" ++ Q ++ txt "A" ++ Q ++ txt "," ++
  mjoin (map event_text (events r)) ++
  Q ++ dec (complete_cycle r) ++ Q ++ txt ":" ++ Q ++ txt "C" ++ Q ++ txt "," ++
  Q ++ dec (retire_cycle r) ++ Q ++ txt ":" ++ Q ++ txt "R" ++ Q ++ txt "}}]" ++ txt "}".
(** The records shown: numbered from 1, from [start] on, up to [start + len]. *)
Fixpoint window_from (start len cnt : Z) (rs : list pipeline_record) : list pipeline_record :=
  match rs with
  | [] => []
  | r :: rs =>
      let cnt := u64 (cnt + 1) in
      if cnt <? start then window_from start len cnt rs
      else if u64 (start + len) <? cnt then []
      else r :: window_from start len cnt rs
  end.
Fixpoint ops_text (ops : list text) : text :=
  match ops with
  | [] => []
  | s :: ops => s ++ match ops with [] => [] | _ => txt "," end ++ ops_text ops
  end.
Definition table_line (rs : list pipeline_record) : text := txt "var tableData = [" ++ ops_text (map op_text rs) ++ txt "]".
(** [main]: the lines of the page. *)
Definition gen_html (template : option (list text)) (start len : Z) (archive : option (list pipeline_record)) : result (list text) :=
  let! (pre, post) := read_template template in
  match archive with
  | None => Stop HostExit                        (* exception occured loading *)
  | Some rs => Ok (pre ++ [table_line (window_from start len 0 rs)] ++ post)
  end.
