(* ===== verification/ViewerProps.v ===== *)
(** Properties of the viewer: the page is the template with its placeholder line
    replaced, it shows the records of the window, and a reader of the table finds
    every one of them, field by field. *)
From Stdlib Require Import Ascii String.
From Stdlib Require Import DecimalString DecimalN HexadecimalString HexadecimalN.
From S2P Require Import Prelude Bits Viewer.
#[local] Open Scope string_scope.
#[local] Open Scope list_scope.
#[local] Open Scope Z_scope.

(** ** Scanning a text *)
(** Past a fixed prefix; up to the first [c]. *)
Fixpoint eat (p s : text) : option text :=
  match p, s with
  | [], _ => Some s
  | c :: p, d :: s => if Ascii.eqb c d then eat p s else None
  | _, [] => None
  end.
Fixpoint until (c : ascii) (s : text) : option (text * text) :=
  match s with
  | [] => None
  | d :: s => if Ascii.eqb c d then Some ([], s) else match until c s with Some (a, r) => Some (d :: a, r) | None => None end
  end.
Definition free (c : ascii) (s : text) : Prop := Forall (fun d => d <> c) s.
Lemma eat_app p s : eat p (p ++ s) = Some s.
Proof. induction p as [|c p IH]; [done|]. cbn. by rewrite Ascii.eqb_refl. Qed.
Lemma until_app c a s : free c a -> until c (a ++ c :: s) = Some (a, s).
Proof.
  induction 1 as [|d a Hd _ IH]; cbn; [by rewrite Ascii.eqb_refl|]. destruct (Ascii.eqb_spec c d) as [->|]; [done|]. by rewrite IH.
Qed.
(** Numbers read back, and hold neither quotes nor spaces. *)
Definition undec (s : text) : option Z := (fun d => Z.of_N (N.of_uint d)) <$> DecimalString.NilZero.uint_of_string (string_of_list_ascii s).
Definition unhex (s : text) : option Z := (fun d => Z.of_N (N.of_hex_uint d)) <$> HexadecimalString.NilZero.uint_of_string (string_of_list_ascii s).
Lemma undec_dec n : 0 <= n -> undec (dec n) = Some n.
Proof.
  intros Hn. unfold undec, dec, txt. rewrite string_of_list_ascii_of_string, DecimalString.NilZero.usu.
  - cbn. rewrite DecimalN.Unsigned.of_to. f_equal. lia.
  - intros E. pose proof (f_equal N.of_uint E) as E0. rewrite DecimalN.Unsigned.of_to in E0. cbn in E0. by rewrite E0 in E.
Qed.
Lemma unhex_hex n : 0 <= n -> unhex (hex n) = Some n.
Proof.
  intros Hn. unfold unhex, hex, txt. rewrite string_of_list_ascii_of_string, HexadecimalString.NilZero.usu.
  - cbn. rewrite HexadecimalN.Unsigned.of_to. f_equal. lia.
  - intros E. pose proof (f_equal N.of_hex_uint E) as E0. rewrite HexadecimalN.Unsigned.of_to in E0. cbn in E0. by rewrite E0 in E.
Qed.
Lemma dec_free c n : c = quote \/ c = " "%char -> free c (dec n).
Proof.
  intros Hc. unfold free, dec, txt, DecimalString.NilZero.string_of_uint.
  assert (forall d, Forall (fun d => d <> c) (list_ascii_of_string (DecimalString.NilEmpty.string_of_uint d))) as Hd.
  { induction d; cbn; constructor; try done; by destruct Hc as [-> | ->]. }
  destruct (N.to_uint (Z.to_N n)); [|apply Hd..]. repeat constructor; by destruct Hc as [-> | ->].
Qed.
Lemma hex_free c n : c = quote \/ c = " "%char -> free c (hex n).
Proof.
  intros Hc. unfold free, hex, txt, HexadecimalString.NilZero.string_of_uint.
  assert (forall d, Forall (fun d => d <> c) (list_ascii_of_string (HexadecimalString.NilEmpty.string_of_uint d))) as Hd.
  { induction d; cbn; constructor; try done; by destruct Hc as [-> | ->]. }
  destruct (N.to_hex_uint (Z.to_N n)); [|apply Hd..]. repeat constructor; by destruct Hc as [-> | ->].
Qed.

(** ** A reader of the table *)
(** What the page says of a record. *)
Record shown := mk_shown { s_pc : Z; s_disasm : text; s_uuid : Z; s_events : list (Z * text) }.
Definition show (r : pipeline_record) : shown :=
  mk_shown (pc r) (disasm r) (uuid r)
    ([(fetch_cycle r, txt "F"); (alloc_cycle r, txt "A")] ++ map (fun e => (e.1, [e.2])) (events r) ++
     [(complete_cycle r, txt "C"); (retire_cycle r, txt "R")]).
Definition quoted (s : text) : option (text * text) := s ← eat Q s; until quote s.
(** A cell [cycle:letter], and the cells of a uop. *)
Definition read_cell (s : text) : option (Z * text * text) :=
  '(k, s) ← quoted s; s ← eat (txt ":") s; '(v, s) ← quoted s; n ← undec k; Some (n, v, s).
Fixpoint read_cells (fuel : nat) (s : text) : option (list (Z * text) * text) :=
  match fuel with
  | O => None
  | S fuel =>
      '(n, v, s) ← read_cell s;
      match eat (txt ",") s with
      | Some s => '(l, s) ← read_cells fuel s; Some ((n, v) :: l, s)
      | None => Some ([(n, v)], s)
      end
  end.
(** The fixed text around the fields. *)
Definition key_str : text := txt "{" ++ Q ++ txt "str" ++ Q ++ txt ":" ++ Q.
Definition key_uuid : text := txt ",uops:[{" ++ Q ++ txt "uuid" ++ Q ++ txt ":".
Definition key_events : text := txt "," ++ Q ++ txt "events" ++ Q ++ txt ":{".
Definition read_op (s : text) : option (shown * text) :=
  s ← eat key_str s;
  '(h, s) ← until " " s; p ← unhex h;
  '(d, s) ← until quote s;
  s ← eat key_uuid s;
  '(u, s) ← quoted s; u ← undec u;
  s ← eat key_events s;
  '(l, s) ← read_cells (length s) s;
  s ← eat (txt "}}]}") s;
  Some (mk_shown p d u l, s).
Fixpoint read_ops (fuel : nat) (s : text) : option (list shown) :=
  match fuel with
  | O => None
  | S fuel =>
      '(r, s) ← read_op s;
      match eat (txt ",") s with
      | Some s => l ← read_ops fuel s; Some (r :: l)
      | None => _ ← eat (txt "]") s; Some [r]
      end
  end.
Definition read_table (s : text) : option (list shown) :=
  s ← eat (txt "var tableData = [") s;
  match eat (txt "]") s with Some _ => Some [] | None => read_ops (length s) s end.

(** Records the table can carry: 64-bit numbers, no quote inside a string. *)
Definition plain (r : pipeline_record) : Prop :=
  0 <= pc r /\ 0 <= uuid r /\ 0 <= fetch_cycle r /\ 0 <= alloc_cycle r /\ 0 <= complete_cycle r /\ 0 <= retire_cycle r /\
  free quote (disasm r) /\ Forall (fun e => 0 <= e.1 /\ e.2 <> quote) (events r).
Lemma quoted_app a s : free quote a -> quoted (Q ++ a ++ Q ++ s) = Some (a, s).
Proof. intros Ha. unfold quoted. rewrite eat_app. cbn [mbind option_bind]. by apply until_app. Qed.
Definition cell_text (n : Z) (v : text) : text := Q ++ dec n ++ Q ++ txt ":" ++ Q ++ v ++ Q.
Lemma read_cell_text n v s : 0 <= n -> free quote v -> read_cell (cell_text n v ++ s) = Some (n, v, s).
Proof.
  intros Hn Hv. unfold read_cell, cell_text. rewrite <- !app_assoc, quoted_app by (apply dec_free; auto). cbn [mbind option_bind].
  rewrite eat_app. cbn [mbind option_bind]. rewrite quoted_app by done. cbn [mbind option_bind]. by rewrite undec_dec.
Qed.
(** Cells joined by commas. *)
Fixpoint cells_text (l : list (Z * text)) : text :=
  match l with
  | [] => []
  | [c] => cell_text c.1 c.2
  | c :: l => cell_text c.1 c.2 ++ txt "," ++ cells_text l
  end.
Lemma read_cells_text l fuel s : Forall (fun c => 0 <= c.1 /\ free quote c.2) l -> l <> [] -> (length l <= fuel)%nat -> eat (txt ",") s = None ->
  read_cells fuel (cells_text l ++ s) = Some (l, s).
Proof.
  intros Hl. revert fuel. induction Hl as [|[n v] l [Hn Hv] Hl IH]; intros fuel Hne Hf Hs; [done|]. destruct fuel as [|fuel]; [cbn in Hf; lia|].
  destruct l as [|c l]; cbn [cells_text read_cells fst snd].
  - rewrite read_cell_text by done. cbn [mbind option_bind]. by rewrite Hs.
  - rewrite <- !app_assoc, read_cell_text by done. cbn [mbind option_bind]. rewrite eat_app, IH by (done || cbn in *; lia). done.
Qed.
Lemma cells_app (evs : list (Z * ascii)) c l : cells_text (map (fun e => (e.1, [e.2])) evs ++ c :: l) = mjoin (map event_text evs) ++ cells_text (c :: l).
Proof.
  induction evs as [|e evs IH]; [done|]. cbn [map]. rewrite <- app_comm_cons. change (mjoin (event_text e :: map event_text evs)) with (event_text e ++ mjoin (map event_text evs)).
  rewrite <- app_assoc, <- IH. cbn [cells_text fst snd]. destruct (map _ evs ++ c :: l) eqn:E; [by destruct evs|].
  unfold event_text, cell_text. by rewrite <- !app_assoc.
Qed.
Lemma op_text_shape r : op_text r =
  key_str ++ hex (pc r) ++ " "%char :: disasm r ++ quote :: key_uuid ++ Q ++ dec (uuid r) ++ Q ++
  key_events ++ cells_text (s_events (show r)) ++ txt "}}]}".
Proof.
  unfold op_text, show, key_str, key_uuid, key_events. cbn [s_events]. change ([(fetch_cycle r, txt "F"); (alloc_cycle r, txt "A")] ++ ?l) with ((fetch_cycle r, txt "F") :: (alloc_cycle r, txt "A") :: l).
  destruct (map (fun e => (e.1, [e.2])) (events r) ++ [(complete_cycle r, txt "C"); (retire_cycle r, txt "R")]) as [|c l] eqn:E; [by destruct (events r)|].
  change (cells_text ((fetch_cycle r, txt "F") :: (alloc_cycle r, txt "A") :: c :: l))
    with (cell_text (fetch_cycle r) (txt "F") ++ txt "," ++ cell_text (alloc_cycle r) (txt "A") ++ txt "," ++ cells_text (c :: l)).
  rewrite <- E, cells_app. cbn [cells_text fst snd]. unfold cell_text. by rewrite <- !app_assoc.
Qed.
Lemma length_cells l : (length l <= length (cells_text l))%nat.
Proof.
  induction l as [|[n v] l IH]; [done|]. cbn [cells_text fst snd]. destruct l as [|c l].
  - unfold cell_text. rewrite length_app. cbn. lia.
  - unfold cell_text. rewrite !length_app. change (length Q) with 1%nat. change (length ((n, v) :: c :: l)) with (S (length (c :: l))).
    generalize dependent (cells_text (c :: l)). lia.
Qed.
Lemma show_cells r : plain r -> Forall (fun c => 0 <= c.1 /\ free quote c.2) (s_events (show r)).
Proof.
  intros (_ & _ & Hf & Ha & Hc & Hr & _ & He). cbn. repeat constructor; try done.
  apply Forall_app. split; [|by repeat constructor]. apply Forall_map. eapply Forall_impl; [exact He|].
  intros [n c] [Hn Hq]. split; [done|]. by repeat constructor.
Qed.
Lemma read_op_text r s : plain r -> read_op (op_text r ++ s) = Some (show r, s).
Proof.
  intros Hp. pose proof (show_cells r Hp) as Hcells. destruct Hp as (Hpc & Hu & _ & _ & _ & _ & Hd & _). rewrite op_text_shape. unfold read_op.
  rewrite <- !app_assoc, <- app_comm_cons, <- !app_assoc, <- app_comm_cons, <- !app_assoc, eat_app. cbn [mbind option_bind].
  rewrite until_app by (apply hex_free; auto). cbn [mbind option_bind]. rewrite unhex_hex by done. cbn [mbind option_bind].
  rewrite until_app by done. cbn [mbind option_bind]. rewrite eat_app. cbn [mbind option_bind].
  rewrite quoted_app by (apply dec_free; auto). cbn [mbind option_bind]. rewrite undec_dec by done. cbn [mbind option_bind]. rewrite eat_app. cbn [mbind option_bind].
  rewrite read_cells_text; [|done|done| |done].
  - cbn [mbind option_bind]. by rewrite eat_app.
  - rewrite length_app. pose proof (length_cells (s_events (show r))). lia.
Qed.
Lemma read_ops_text rs fuel : Forall plain rs -> rs <> [] -> (length rs <= fuel)%nat -> read_ops fuel (ops_text (map op_text rs) ++ txt "]") = Some (map show rs).
Proof.
  intros Hr. revert fuel. induction Hr as [|r rs Hr Hrs IH]; intros fuel Hne Hf; [done|]. destruct fuel as [|fuel]; [cbn in Hf; lia|].
  cbn [map ops_text read_ops]. destruct rs as [|r2 rs].
  - cbn [map ops_text]. rewrite !app_nil_r, read_op_text by done. done.
  - cbn [map]. change (match op_text r2 :: map op_text rs with [] => [] | _ => txt "," end) with (txt ",").
    rewrite <- !app_assoc, read_op_text by done. cbn [mbind option_bind]. rewrite eat_app. change (op_text r2 :: map op_text rs) with (map op_text (r2 :: rs)).
    rewrite IH by (done || cbn in *; lia). done.
Qed.
Lemma length_ops rs : (length rs <= length (ops_text (map op_text rs)))%nat.
Proof.
  induction rs as [|r rs IH]; [done|]. cbn [map ops_text length]. rewrite !length_app. rewrite op_text_shape, length_app. change (length key_str) with 8%nat. lia.
Qed.
Lemma read_table_line rs : Forall plain rs -> read_table (table_line rs) = Some (map show rs).
Proof.
  intros Hr. unfold read_table, table_line. rewrite eat_app. cbn [mbind option_bind]. destruct rs as [|r rs]; [done|].
  assert (eat (txt "]") (ops_text (map op_text (r :: rs)) ++ txt "]") = None) as ->
    by (cbn [map ops_text]; rewrite op_text_shape; done).
  apply read_ops_text; [done|done|]. rewrite length_app. pose proof (length_ops (r :: rs)). lia.
Qed.

(** ** The window and the template *)
Lemma window_open start len cnt rs : start <= cnt + 1 -> 0 <= cnt -> cnt + Z.of_nat (length rs) < 2 ^ 64 -> 0 <= start + len < 2 ^ 64 ->
  window_from start len cnt rs = take (Z.to_nat (start + len - cnt)) rs.
Proof.
  revert cnt. induction rs as [|r rs IH]; intros cnt Hs Hc Hb Hl; cbn [window_from]; [by rewrite take_nil|]. cbn [length] in Hb. cbv zeta.
  rewrite !wrapu_id by (unfold in_u; lia). destruct (Z.ltb_spec (cnt + 1) start); [lia|]. destruct (Z.ltb_spec (start + len) (cnt + 1)).
  - by replace (Z.to_nat (start + len - cnt)) with O by lia.
  - replace (Z.to_nat (start + len - cnt)) with (S (Z.to_nat (start + len - (cnt + 1)))) by lia. cbn [take]. by rewrite IH by lia.
Qed.
Lemma window_skip start len cnt rs : 0 <= cnt <= start - 1 -> cnt + Z.of_nat (length rs) < 2 ^ 64 -> 0 <= len -> start + len < 2 ^ 64 ->
  window_from start len cnt rs = take (Z.to_nat (len + 1)) (drop (Z.to_nat (start - 1 - cnt)) rs).
Proof.
  intros Hc Hb Hl Hs. remember (Z.to_nat (start - 1 - cnt)) as d eqn:Ed. revert cnt rs Hc Hb Ed.
  induction d as [|d IH]; intros cnt rs Hc Hb Ed; [rewrite window_open by lia; cbn [drop]; f_equal; lia|].
  destruct rs as [|r rs]; [by rewrite drop_nil, take_nil|]. cbn [window_from drop length] in *. cbv zeta.
  rewrite wrapu_id by (unfold in_u; lia). destruct (Z.ltb_spec (cnt + 1) start); [|lia]. apply IH; lia.
Qed.
(** The records a window shows. *)
Definition numbered (start len : Z) (rs : list pipeline_record) : list pipeline_record :=
  if start =? 0 then take (Z.to_nat len) rs else take (Z.to_nat (len + 1)) (drop (Z.to_nat (start - 1)) rs).
Lemma window_numbered start len rs : 0 <= start -> 0 <= len -> start + len < 2 ^ 64 -> Z.of_nat (length rs) < 2 ^ 64 ->
  window_from start len 0 rs = numbered start len rs.
Proof.
  intros H1 H2 H3 H4. unfold numbered. destruct (Z.eqb_spec start 0) as [->|]; [rewrite window_open by lia; f_equal; lia|].
  rewrite window_skip by lia. f_equal. f_equal. lia.
Qed.
Lemma read_lines_post ls pre post : read_lines ls pre post false = (pre, post ++ filter (fun l => is_placeholder l = false) ls, false).
Proof.
  revert post. induction ls as [|l ls IH]; intros post; cbn [read_lines]; [by rewrite app_nil_r|].
  destruct (is_placeholder l) eqn:E; rewrite IH.
  - by rewrite filter_cons_False by congruence.
  - by rewrite filter_cons_True, <- app_assoc by done.
Qed.
Lemma read_lines_split a p b pre post : Forall (fun l => is_placeholder l = false) a -> is_placeholder p = true ->
  read_lines (a ++ p :: b) pre post true = (pre ++ a, post ++ filter (fun l => is_placeholder l = false) b, false).
Proof.
  intros Ha Hp. revert pre. induction Ha as [|l a Hl _ IH]; intros pre; cbn [app read_lines].
  - by rewrite Hp, read_lines_post, app_nil_r.
  - rewrite Hl, IH. by rewrite <- app_assoc.
Qed.

(** C36. The page shows the trace.  For a template with a placeholder, the page is
    the template with that line replaced by the table (later placeholders dropped);
    a reader of the table finds, field by field, exactly the records of the window:
    from the [start]th on, [len + 1] of them, or the first [len] when [start] is 0.
    Strings must hold no quote, for the page does not escape them. *)
Theorem viewer_page_reads_back (a b : list text) (p : text) (rs : list pipeline_record) (start len : Z)
    (Ha : Forall (fun l => is_placeholder l = false) a) (Hp : is_placeholder p = true) (Hrs : Forall plain rs)
    (Hstart : 0 <= start) (Hlen : 0 <= len) (Hb : start + len < 2 ^ 64) (Hn : Z.of_nat (length rs) < 2 ^ 64) :
  exists table, gen_html (Some (a ++ p :: b)) start len (Some rs) = Ok (a ++ [table] ++ filter (fun l => is_placeholder l = false) b) /\
    read_table table = Some (map show (numbered start len rs)).
Proof.
  unfold gen_html, read_template. rewrite read_lines_split by done. cbn [mbind result_bind]. rewrite window_numbered by done.
  eexists. split; [done|]. apply read_table_line. unfold numbered. destruct (start =? 0); [by apply Forall_take|]. by apply Forall_take, Forall_drop.
Qed.
Definition sample_record (n : Z) : pipeline_record :=
  mk_pipeline_record n (txt "addiu sp,sp,-32") (0x80001000 + 4 * n) n (n + 2) (n + 5) (n + 7) false [(n + 3, "Q"%char)].
Lemma viewer_page_reads_back_witness :
  exists table, gen_html (Some [txt "<html>"; txt "var tableData = []"; txt "</html>"]) 2 1 (Some (map sample_record [0; 1; 2; 3])) =
      Ok [txt "<html>"; table; txt "</html>"] /\
    read_table table = Some (map (fun r => show (sample_record r)) [1; 2]).
Proof.
  destruct (viewer_page_reads_back [txt "<html>"] [txt "</html>"] (txt "var tableData = []") (map sample_record [0; 1; 2; 3]) 2 1)
    as (table & E & Er); [by repeat constructor|done| |done|done|done|done|].
  - repeat constructor; cbn; try lia; by repeat constructor.
  - exists table. split; [etransitivity; [exact E|]|exact Er]. vm_compute. reflexivity.
Defined.
(** With [--start 2 --len 1] the page shows two records, with [--start 0] one; a
    quote inside a disassembly ends its string early. *)
Example viewer_window_width : map (fun s => length (numbered s 1 (map sample_record [0; 1; 2; 3]))) [0; 1; 2] = [1; 2; 2]%nat.
Proof. reflexivity. Qed.
Example quote_not_escaped : read_table (table_line [mk_pipeline_record 0 [quote] 0 0 0 0 0 false []]) = None.
Proof. reflexivity. Qed.
