(* ===== verification/Encode.v ===== *)
(** The instruction encoders and the floating-point helper of [src/top.hh], against
    the interpreter they are the inverse of. *)
From S2P Require Import Prelude Bits Insns State Exc LoadStore Alu Fp Fpu Exec.

(** ** Bit fields *)
(** Fields from the least significant one: a width and a value, cut to the width. *)
Fixpoint bit_fields (fs : list (Z * Z)) : Z :=
  match fs with
  | [] => 0
  | (w, v) :: fs => v mod 2 ^ w + bit_fields fs * 2 ^ w
  end.
(** The layouts of the unions [itype] and [rtype]. *)
Definition itype (imm rs rt op : Z) : Z := bit_fields [(16, imm); (5, rs); (5, rt); (6, op)].
Definition rtype (subop z rd rt rs op : Z) : Z := bit_fields [(6, subop); (5, z); (5, rd); (5, rt); (5, rs); (6, op)].
Definition ceqs (fs ft cc : Z) : Z := bit_fields [(6, 50); (2, 0); (3, cc); (5, fs); (5, ft); (5, 16); (6, 17)].
Definition mtc1 (fs rt : Z) : Z := bit_fields [(11, 0); (5, fs); (5, rt); (5, 4); (6, 17)].
Definition mthi (rs : Z) : Z := bit_fields [(6, 17); (15, 0); (5, rs); (6, 0)].
Definition mtlo (rs : Z) : Z := bit_fields [(6, 19); (15, 0); (5, rs); (6, 0)].
(** The fields of a [double] and the bit pattern they are. *)
Definition double_bias : Z := 1023.
Definition dbl_word (f e s : Z) : Z := bit_fields [(52, f); (11, e); (1, s)].
Definition round_to_alignment (x m : Z) : result Z := if m =? 0 then Stop HostUB else Ok (u64 (u64 (u64 (x + m) - 1) / m * m)).

(** ** [compute_fp_insn] *)
Section compute.
Context `{HostFP}.
(** [std::numeric_limits<T>::max()]. *)
Definition fp_max (T : fp_type) : Z := let F := fmt_of T in pack F false (Z.ones (few F) - 1) (Z.ones (fmw F)).
Definition compute_fp_insn (T : fp_type) (r_inst : Z) (op : fpOperation) (s : state) : Z :=
  let F := fmt_of T in
  let ft := read_T T ((r_inst >> 16) .& 31) s in
  let fs := read_T T ((r_inst >> 11) .& 31) s in
  match op with
  | fp_op_abs => fp_abs F fs
  | fp_op_neg => fp_neg F fs
  | fp_op_mov => fs
  | fp_op_add => fp_add F fs ft
  | fp_op_sub => fp_sub F fs ft
  | fp_op_mul => fp_mul F fs ft
  | fp_op_div => if fp_eq F ft 0 then fp_max T else fp_div F fs ft
  | fp_op_sqrt => fp_sqrt F fs
  | fp_op_rsqrt => fp_div F (fp_one F) (fp_sqrt F fs)
  | fp_op_recip => fp_div F (fp_one F) fs
  | _ => 0
  end.
End compute.

(** ** What the interpreter makes of an encoded word *)
Lemma bit_fields_bound fs : Forall (fun f => 0 <= f.1) fs -> 0 <= bit_fields fs < 2 ^ foldr (fun f n => f.1 + n) 0 fs.
Proof.
  induction 1 as [|[w v] fs Hw Hfs IH]; [done|]. cbn [bit_fields foldr fst] in *.
  assert (0 <= foldr (fun f n => f.1 + n) 0 fs) as Hs by (clear -Hfs; induction Hfs; cbn; lia).
  rewrite Z.pow_add_r by done. assert (0 < 2 ^ w) by (by apply Z.pow_pos_nonneg). pose proof (Z.mod_pos_bound v (2 ^ w) ltac:(done)). nia.
Qed.
(** The fields above the first, and the first. *)
Lemma bit_fields_shift w v fs n : 0 <= w <= n -> bit_fields ((w, v) :: fs) >> n = bit_fields fs >> (n - w).
Proof.
  intros Hn. rewrite !Z.shiftr_div_pow2 by lia. cbn [bit_fields]. replace n with (w + (n - w)) at 1 by lia. assert (0 < 2 ^ w) by (apply Z.pow_pos_nonneg; lia).
  rewrite Z.pow_add_r, <- Z.div_div by (try apply Z.pow_pos_nonneg; lia). f_equal.
  rewrite Z.div_add, Z.div_small by (try apply Z.mod_pos_bound; lia). lia.
Qed.
Lemma bit_fields_low w v fs : 0 <= w -> bit_fields ((w, v) :: fs) .& Z.ones w = v mod 2 ^ w.
Proof.
  intros Hw. assert (0 < 2 ^ w) by (by apply Z.pow_pos_nonneg). rewrite Z.land_ones by done. cbn [bit_fields]. rewrite Z.mod_add by lia. by rewrite Z.mod_mod by lia.
Qed.
(** Reads a field of an encoded word. *)
Ltac fields := repeat (rewrite bit_fields_shift by lia); cbn [Z.sub Z.add Z.opp Z.pos_sub Pos.pred_double Pos.add Pos.succ];
  rewrite ?Z.shiftr_0_r; try (first [change 31 with (Z.ones 5) | change 63 with (Z.ones 6) | change 7 with (Z.ones 3)]; rewrite bit_fields_low by lia).
Section encoded.
Context `{Config, HostFP}.
Variable EL : bool.
Variable step : state -> result state.
Definition reg_field (r : Z) : Prop := 0 <= r < 32.
Lemma mthi_fields rs : reg_field rs -> mthi rs >> 26 = 0 /\ mthi rs .& 63 = 17 /\ f_rs (mthi rs) = rs.
Proof. intros Hr. unfold f_rs, mthi. split_and!; fields; [done..|by apply Z.mod_small]. Qed.
Lemma mtlo_fields rs : reg_field rs -> mtlo rs >> 26 = 0 /\ mtlo rs .& 63 = 19 /\ f_rs (mtlo rs) = rs.
Proof. intros Hr. unfold f_rs, mtlo. split_and!; fields; [done..|by apply Z.mod_small]. Qed.
Lemma mtc1_fields fs rt : reg_field fs -> reg_field rt ->
  mtc1 fs rt >> 26 = 17 /\ mtc1 fs rt .& ((1 << 11) - 1) = 0 /\ f_rs (mtc1 fs rt) = 4 /\ f_rt (mtc1 fs rt) = rt /\ f_rd (mtc1 fs rt) = fs.
Proof.
  intros Hf Hr. unfold f_rs, f_rt, f_rd, mtc1. split_and!; [fields; done| |fields; done|fields; by apply Z.mod_small|fields; by apply Z.mod_small].
  change ((1 << 11) - 1) with (Z.ones 11). by rewrite bit_fields_low.
Qed.
Lemma ceqs_fields fs ft cc : reg_field fs -> reg_field ft -> 0 <= cc < 8 ->
  let w := ceqs fs ft cc in w >> 26 = 17 /\ w .& 63 = 50 /\ f_rs w = 16 /\ f_rt w = ft /\ f_rd w = fs /\ (w >> 8) .& 7 = cc.
Proof.
  intros Hs Ht Hc w. unfold f_rs, f_rt, f_rd, w, ceqs. split_and!; fields; [done..|by apply Z.mod_small|by apply Z.mod_small|by apply Z.mod_small].
Qed.
(** The encoders are inverse to the decoder: the interpreter runs each word as the
    instruction it is named after, on the registers it was built from.  [c.eq.s] also
    needs registers that exist when FR is clear. *)
Theorem encoders_decode rs rt fs ft cc s :
  reg_field rs -> reg_field rt -> reg_field fs -> reg_field ft -> 0 <= cc < 8 ->
  (dispatch EL step (mthi rs) s = Ok (_mthi (mthi rs) s) /\ r_rs (mthi rs) s = (gpr s).[rs]) /\
  (dispatch EL step (mtlo rs) s = Ok (_mtlo (mtlo rs) s) /\ r_rs (mtlo rs) s = (gpr s).[rs]) /\
  (dispatch EL step (mtc1 fs rt) s = Ok (_mtc1 (mtc1 fs rt) s) /\ f_fs (mtc1 fs rt) = fs /\ f_rt (mtc1 fs rt) = rt) /\
  (fr0 s = false -> dispatch EL step (ceqs fs ft cc) s =
     Ok (s |> setConditionCode (Z.b2z (fp_eq binary32 (read_T T_float fs s) (read_T T_float ft s))) cc |> add_pc 4)).
Proof.
  intros H1 H2 H3 H4 H5. destruct (mthi_fields rs H1) as (E1 & E2 & E3). destruct (mtlo_fields rs H1) as (F1 & F2 & F3).
  destruct (mtc1_fields fs rt H3 H2) as (G1 & G2 & G3 & G4 & G5).
  split_and!; try (unfold r_rs; by rewrite ?E3, ?F3); try done.
  - unfold dispatch. rewrite E1. cbn [Z.eqb]. unfold exec_rtype. by rewrite E2.
  - unfold dispatch. rewrite F1. cbn [Z.eqb]. unfold exec_rtype. by rewrite F2.
  - unfold dispatch. rewrite G1. change (execCoproc1 step (mtc1 fs rt) s = Ok (_mtc1 (mtc1 fs rt) s)). unfold execCoproc1, is_cop1_move, exec_cop1_move, f_fmt.
    by rewrite G2, G3.
  - intros Hfr. destruct (ceqs_fields fs ft cc H3 H4 H5) as (C1 & C2 & C3 & C4 & C5 & C6). set (w := ceqs fs ft cc) in *. clearbody w.
    unfold dispatch. rewrite C1. change (execCoproc1 step w s = Ok (s |> setConditionCode (Z.b2z (fp_eq binary32 (read_T T_float fs s) (read_T T_float ft s))) cc |> add_pc 4)).
    assert (((w .& 2047) =/? 0) = true) as Hm.
    { destruct (Z.eqb_spec (w .& 2047) 0) as [E|]; [|done]. assert (w .& (2047 .& 63) = 50) as Hx by exact C2. by rewrite Z.land_assoc, E in Hx. }
    unfold execCoproc1, f_fmt, is_cop1_move. rewrite C3. change ((1 << 11) - 1) with 2047. apply negb_true_iff in Hm. rewrite Hm. cbn [andb Z.eqb Pos.eqb].
    unfold exec_cop1_op. cbv zeta. rewrite C2, Hfr. change (_c w s = Ok (s |> setConditionCode (Z.b2z (fp_eq binary32 (read_T T_float fs s) (read_T T_float ft s))) cc |> add_pc 4)).
    unfold _c, by_fmt, f_fmt. rewrite C3. unfold fpCmp. cbv zeta. rewrite C6. unfold f_fs, f_ft. rewrite C4, C5.
    assert (w .& 15 = 2) as -> by (change 15 with (63 .& 15); by rewrite Z.land_assoc, C2). unfold fp_cond. cbn [fmt_of].
    by destruct (fp_eq binary32 _ _).
Qed.
(** [compute_fp_insn] is the interpreter's arithmetic, but for a division by zero and
    the operations it does not know. *)
Lemma compute_fp_insn_agrees T inst op s :
  compute_fp_insn T inst op s =
    match fp_compute T op (read_T T (f_fs inst) s) (read_T T (f_ft inst) s) with
    | Some (v, _) => match op with fp_op_div => if fp_eq (fmt_of T) (read_T T (f_ft inst) s) 0 then fp_max T else v | _ => v end
    | None => 0
    end.
Proof. by destruct op. Qed.
End encoded.
(** [itype] names the two register fields the other way round than the architecture
    and [itype_t] of [interpret.hh]. *)
Lemma itype_swapped imm rs rt op : reg_field rs -> reg_field rt -> f_rs (itype imm rs rt op) = rt /\ f_rt (itype imm rs rt op) = rs.
Proof. intros H1 H2. unfold f_rs, f_rt, itype. split; fields; by apply Z.mod_small. Qed.
