(* ===== verification/Harness.v ===== *)
(** The model-checking harness of the firmware callbacks ([src/arcs/cbmc_harness.c]),
    its inputs all quantified, and the theorems it approximates: [stub_getenv] never
    reads past the terminator and answers one of its two strings, [stub_write] sends
    exactly the bytes of its buffer. *)
From Stdlib Require Import String Ascii.
From S2P Require Import Prelude Bits Devices Bus Firmware FirmwareProps.
#[local] Open Scope Z_scope.

Section harness.
Context {W : Type} `{Platform W} (sy : symbols).
Implicit Types (w : W).
(** The characters of a local array, stored one by one. *)
Fixpoint fill (a : Z) (l : list Z) w : result W :=
  match l with [] => Ok w | c :: l => let! w := store8 a c w in fill (u32 (a + 1)) l w end.
(** [name] is an array of 6, its last character zero; [cs] the five free ones.  The
    result is the value of the assertion. *)
Definition harness_getenv (name : Z) (cs : list Z) w : result bool :=
  let! w := fill name cs w in
  let! w := store8 (u32 (name + 5)) 0 w in
  let! (r, w) := stub_getenv sy name w in
  Ok ((r =? monitor_str sy) || (r =? eaddr_str sy)).
(** [buf] is an array of 8 and [cnt] a word; a length above 8 is assumed away. *)
Definition harness_write (fuel : nat) (buf cnt : Z) (cs : list Z) (len : Z) w : result bool :=
  let! w := fill buf cs w in
  if negb (len <=? 8) then Ok true else
  let! w := store32 cnt 0 w in
  let! (rc, w) := stub_write fuel buf len cnt w in
  let! (n, w) := load32 cnt w in
  Ok ((rc =? 0) && (n =? len)).
End harness.

(** What [stub_write] asks of the FIFO behind register 7: the full flag goes away,
    and a character written while it is clear goes out. *)
Class FifoPort (W : Type) `{PlatformLaws W} := {
  sent : W -> list Z;
  full_for : W -> nat;
  accepting : W -> Prop;
  full_bound : nat;
  law_full_bound : forall w, (full_for w <= full_bound)%nat;
  law_full : forall w, exists v w', mfc0_7 w = Ok (v, w') /\ sent w' = sent w /\ (forall a, ram w' a = ram w a) /\
    (v .& 1 = 0 -> accepting w') /\ (v .& 1 <> 0 -> (full_for w' < full_for w)%nat);
  law_sent : forall c w, accepting w -> exists w', mtc0_7 c w = Ok w' /\ sent w' = sent w ++ [c] /\ forall a, ram w' a = ram w a;
  law_sent_store : forall a x w w', store32 a x w = Ok w' -> sent w' = sent w;
}.

(** * Theorems *)
Section harness_laws.
Context {W : Type} `{FifoPort W} (sy : symbols).
Implicit Types (w : W).
(** The bytes of [l] lie at [p], and every one of them may be read. *)
Definition holds_bytes (p : Z) (l : list Z) w : Prop :=
  forall i c, l !! i = Some c -> readable (phys p + Z.of_nat i) = true /\ ram w (phys p + Z.of_nat i) = c.
Lemma load_held p l w i c n : run_ok p n -> Z.of_nat i < n -> holds_bytes p l w -> l !! i = Some c ->
  load8 (u32 (p + Z.of_nat i)) w = Ok (c, w).
Proof.
  intros Hr Hi Hh Hc. destruct (run_step p n (Z.of_nat i) Hr ltac:(lia)) as (K & P & _).
  destruct (Hh i c Hc) as [R E]. rewrite law_load8 by (done || by rewrite P). by rewrite P, E.
Qed.
(** [stub_getenv] needs no byte past the terminator, and its answer is decided by
    the first three characters. *)
Theorem getenv_reads_name name s w : name <> 0 -> run_ok name (Z.of_nat (length s) + 1) ->
  Forall (fun c => c <> 0) s -> holds_bytes name (s ++ [0]) w ->
  stub_getenv sy name w = Ok (if decide (take 3 s = [0x6d; 0x6f; 0x6e]) then monitor_str sy else eaddr_str sy, w).
Proof.
  intros Hn Hr Hs Hh. unfold stub_getenv. rewrite (proj2 (Z.eqb_neq name 0)) by done.
  assert (forall i c, (s ++ [0]) !! i = Some c -> load8 (u32 (name + Z.of_nat i)) w = Ok (c, w)) as L.
  { intros i c Hc. apply (load_held name (s ++ [0]) w i c _ Hr); [|done|done].
    apply lookup_lt_Some in Hc. rewrite length_app in Hc. cbn in Hc. lia. }
  pose proof (L 0%nat) as L0. change (Z.of_nat 0) with 0 in L0. rewrite Z.add_0_r in L0.
  rewrite (wrapu_id 32 name) in L0 by (destruct Hr as [[? ?] _]; unfold in_u; change (2 ^ 32) with 4294967296; lia).
  pose proof (L 1%nat) as L1. change (Z.of_nat 1) with 1 in L1. pose proof (L 2%nat) as L2. change (Z.of_nat 2) with 2 in L2.
  clear L Hh Hr.
  destruct s as [|a s]; [by rewrite (L0 0)|]. rewrite (L0 a) by done. cbn [mbind result_bind].
  destruct (Z.eqb_spec a 0x6d) as [->|Ha]; cbn [negb]; [|by destruct (decide _) as [E|]; [injection E|]].
  destruct s as [|b s]; [by rewrite (L1 0)|]. rewrite (L1 b) by done. cbn [mbind result_bind].
  destruct (Z.eqb_spec b 0x6f) as [->|Hb]; cbn [negb]; [|by destruct (decide _) as [E|]; [injection E|]].
  destruct s as [|c s]; [by rewrite (L2 0)|]. rewrite (L2 c) by done. cbn [mbind result_bind].
  destruct (Z.eqb_spec c 0x6e) as [->|Hc]; destruct (decide _) as [E|E]; [done| |by injection E|done].
  by destruct E.
Qed.

(** Storing a list leaves it in memory, and changes nothing else. *)
Lemma fill_ok p n l : forall i w, run_ok p n -> 0 <= i -> i + Z.of_nat (length l) <= n -> writable_run (W:=W) (phys p) n ->
  exists w', fill (u32 (p + i)) l w = Ok w' /\
    (forall k c, l !! k = Some c -> ram w' (phys p + i + Z.of_nat k) = u8 c) /\
    forall a, ~ (phys p + i <= a < phys p + i + Z.of_nat (length l)) -> ram w' a = ram w a.
Proof.
  induction l as [|c l IH]; intros i w Hr Hi Hl Hw; cbn [fill length] in *; [by exists w|].
  destruct (run_step p n i Hr ltac:(lia)) as (K & P & E).
  destruct (law_store8 (u32 (p + i)) c w K) as (w1 & -> & _ & M1); [rewrite P; apply Hw; lia|]. cbn [mbind result_bind].
  assert (u32 (u32 (p + i) + 1) = u32 (p + (i + 1))) as -> by (rewrite E; f_equal; lia).
  destruct (IH (i + 1) w1 Hr) as (w2 & -> & R2 & M2); [lia..|done|].
  exists w2. split; [done|]. rewrite P in M1. split.
  - intros [|k] x Hx; cbn in Hx.
    + injection Hx as ->. rewrite M2 by lia. rewrite M1. by destruct (insideP (phys p + i) 1 (phys p + i + Z.of_nat 0)); [|lia].
    + rewrite <- (R2 k x Hx). f_equal. lia.
  - intros a Ha. rewrite M2, M1 by lia. by destruct (insideP (phys p + i) 1 a); [lia|].
Qed.

(** ** The write loop *)
Lemma wait_fifo_ok fuel w : (full_for w < fuel)%nat ->
  exists w', wait_fifo fuel w = Ok w' /\ accepting w' /\ sent w' = sent w /\ same_ram w w'.
Proof.
  revert w; induction fuel as [|fuel IH]; intros w Hf; [lia|]. cbn [wait_fifo].
  destruct (law_full w) as (v & w1 & -> & S1 & M1 & A1 & F1). cbn [mbind result_bind].
  destruct (Z.eqb_spec (v .& 1) 0) as [E|E]; cbn [negb].
  - exists w1. split; [done|]. split; [by apply A1|]. by split.
  - destruct (IH w1) as (w2 & -> & A2 & S2 & M2); [specialize (F1 E); lia|].
    exists w2. split; [done|]. split; [done|]. split; [by rewrite S2, S1|]. intros a. by rewrite M2, M1.
Qed.
Lemma write_loop_ok fuel p n l : forall i w, (full_bound < fuel)%nat -> run_ok p n -> 0 <= i -> i + Z.of_nat (length l) <= n ->
  readable_run (W:=W) (phys p) n -> (forall k c, l !! k = Some c -> ram w (phys p + i + Z.of_nat k) = c) ->
  exists w', write_loop fuel (length l) (u32 (p + i)) w = Ok w' /\ sent w' = sent w ++ l /\ same_ram w w'.
Proof.
  induction l as [|c l IH]; intros i w Hf Hr Hi Hl Hrd Hh; cbn [write_loop length] in *.
  - exists w. rewrite app_nil_r. by repeat split.
  - destruct (run_step p n i Hr ltac:(lia)) as (K & P & E).
    destruct (wait_fifo_ok fuel w) as (w1 & -> & A1 & S1 & M1); [pose proof (law_full_bound w); lia|]. cbn [mbind result_bind].
    assert (load8 (u32 (p + i)) w1 = Ok (c, w1)) as L.
    { rewrite law_load8 by (done || (rewrite P; apply Hrd; lia)). rewrite P, M1. specialize (Hh 0%nat c eq_refl).
      rewrite Z.add_0_r in Hh. by rewrite Hh. }
    rewrite L. cbn [mbind result_bind].
    assert (c .& 0xff = c) as ->.
    { specialize (Hh 0%nat c eq_refl). rewrite <- Hh. change 0xff with (Z.ones 8). rewrite Z.land_ones by done.
      apply Z.mod_small. apply ram_byte. }
    destruct (law_sent c w1 A1) as (w2 & -> & S2 & M2). cbn [mbind result_bind].
    assert (u32 (u32 (p + i) + 1) = u32 (p + (i + 1))) as -> by (rewrite E; f_equal; lia).
    destruct (IH (i + 1) w2) as (w3 & -> & S3 & M3); try done; try lia.
    { intros k x Hx. rewrite M2, M1. rewrite <- (Hh (S k) x Hx). f_equal. lia. }
    exists w3. split; [done|]. split; [rewrite S3, S2, S1; by rewrite <- app_assoc|]. intros a. by rewrite M3, M2, M1.
Qed.
(** [stub_write] sends the bytes of the buffer in order, reads no byte past them,
    and reports their number where the caller asked for it. *)
Theorem write_sends_buffer fuel buf cnt l w : (full_bound < fuel)%nat -> Z.of_nat (length l) < 2 ^ 32 ->
  run_ok buf (Z.of_nat (length l)) -> readable_run (W:=W) (phys buf) (Z.of_nat (length l)) -> holds_bytes buf l w ->
  (cnt = 0 \/ kernel_va cnt /\ cnt mod 4 = 0 /\ writable_run (W:=W) (phys cnt) 4) ->
  exists w', stub_write fuel buf (Z.of_nat (length l)) cnt w = Ok (0, w') /\ sent w' = sent w ++ l /\
    forall a, ram w' a = if bool_decide (cnt <> 0) && inside (phys cnt) 4 a
                         then nth (Z.to_nat (a - phys cnt)) (rev (le_split 4 (Z.of_nat (length l)))) 0 else ram w a.
Proof.
  intros Hf Hl Hr Hrd Hh Hc. unfold stub_write. rewrite Nat2Z.id.
  destruct (write_loop_ok fuel buf (Z.of_nat (length l)) l 0 w) as (w1 & E1 & S1 & M1); try done; try lia.
  { intros k c Hk. rewrite Z.add_0_r. by apply (Hh k c). }
  rewrite Z.add_0_r in E1. rewrite (wrapu_id 32 buf) in E1
    by (destruct Hr as [[? ?] _]; unfold in_u; change (2 ^ 32) with 4294967296; lia).
  rewrite E1. cbn [mbind result_bind].
  destruct (Z.eqb_spec cnt 0) as [->|Hn]; cbn [negb].
  - exists w1. by split; [|split; [|intros a; apply M1]].
  - destruct Hc as [|(K & A & Hw)]; [done|].
    destruct (law_store32 cnt (Z.of_nat (length l)) w1 K A Hw) as (w2 & E2 & _ & M2). rewrite E2. cbn [mbind result_bind].
    exists w2. split; [done|]. split; [rewrite (law_sent_store _ _ _ _ E2); exact S1|].
    intros a. rewrite M2, M1. by rewrite bool_decide_true by done.
Qed.

(** ** The harnesses *)
(** An array of [n] bytes the program may read and write. *)
Definition array_at (p n : Z) : Prop := run_ok p n /\ readable_run (W:=W) (phys p) n /\ writable_run (W:=W) (phys p) n.
Lemma array_bytes p n (Hp : array_at p n) k w : 0 <= Z.of_nat k <= n -> holds_bytes p (map (fun i => ram w (phys p + Z.of_nat i)) (seq 0 k)) w.
Proof.
  intros Hk i c Hc. rewrite list_lookup_fmap in Hc. apply fmap_Some in Hc as (j & Hj & ->).
  apply lookup_seq in Hj as [-> Hi]. split; [|done]. apply (proj1 (proj2 Hp)). lia.
Qed.
Lemma array_va p n : array_at p n -> 0 < n -> u32 p = p /\ kernel_va p.
Proof.
  intros [Hr _] Hn. pose proof (run_step p n 0 Hr ltac:(lia)) as (K & _ & E). rewrite Z.add_0_r in K, E. by rewrite E in K.
Qed.
(** A terminated array holds a string: the part before its first zero. *)
Lemma string_of l : exists s rest, l ++ [0] = (s ++ [0]) ++ rest /\ Forall (fun c => c <> 0) s /\ (length s <= length l)%nat.
Proof.
  induction l as [|c l (s & r & E & F & L)]; [by exists [], []|]. cbn [app length]. destruct (decide (c = 0)) as [->|Hc].
  - exists [], (l ++ [0]). cbn. split; [done|]. split; [constructor|lia].
  - exists (c :: s), r. cbn. rewrite E. split; [done|]. split; [by constructor|lia].
Qed.
Theorem harness_getenv_holds name cs w : name <> 0 -> length cs = 5%nat -> array_at name 6 -> harness_getenv sy name cs w = Ok true.
Proof.
  intros Hn Hl Ha. destruct (array_va name 6 Ha ltac:(lia)) as [Eu _]. pose proof Ha as (Hr & Hrd & Hw). unfold harness_getenv.
  destruct (fill_ok name 6 cs 0 w Hr) as (w1 & E1 & B1 & _); [lia..|done|]. rewrite Z.add_0_r, Eu in E1. rewrite E1. cbn [mbind result_bind].
  destruct (run_step name 6 5 Hr ltac:(lia)) as (K5 & P5 & _).
  destruct (law_store8 (u32 (name + 5)) 0 w1 K5) as (w2 & -> & _ & M2); [rewrite P5; apply Hw; lia|]. cbn [mbind result_bind].
  destruct (string_of (map u8 cs)) as (s & r & E & F & L). rewrite length_map, Hl in L.
  assert (holds_bytes name (map u8 cs ++ [0]) w2) as Hh.
  { intros i c Hc. pose proof (lookup_lt_Some _ _ _ Hc) as Hi. rewrite length_app, length_map, Hl in Hi. cbn in Hi.
    split; [apply Hrd; lia|]. rewrite M2, P5. destruct (insideP (phys name + 5) 1 (phys name + Z.of_nat i)).
    - rewrite lookup_app_r in Hc by (rewrite length_map; lia). rewrite length_map, Hl in Hc.
      replace (i - 5)%nat with 0%nat in Hc by lia. by injection Hc as <-.
    - rewrite lookup_app_l in Hc by (rewrite length_map; lia). rewrite list_lookup_fmap in Hc. apply fmap_Some in Hc as (x & Hx & ->).
      rewrite <- (B1 i x Hx). f_equal. lia. }
  rewrite (getenv_reads_name name s w2); [|done| |done|].
  - cbn [mbind result_bind]. destruct (decide _); by rewrite Z.eqb_refl, ?orb_true_r.
  - destruct Hr as [? ?]. split; [done|lia].
  - intros i c Hc. apply Hh. rewrite E. by apply lookup_app_l_Some.
Qed.
Lemma join_stored n : 0 <= n < 2 ^ 32 ->
  le_join (rev (map (fun k => nth (Z.to_nat k) (rev (le_split 4 n)) 0) [0; 1; 2; 3])) = n.
Proof.
  intros Hn. transitivity (le_join (le_split 4 n)); [done|]. rewrite le_join_split. by apply Z.mod_small.
Qed.
Theorem harness_write_holds fuel buf cnt cs len w : (full_bound < fuel)%nat -> length cs = 8%nat -> 0 <= len < 2 ^ 32 ->
  array_at buf 8 -> array_at cnt 4 -> cnt <> 0 -> cnt mod 4 = 0 -> harness_write fuel buf cnt cs len w = Ok true.
Proof.
  intros Hf Hl Hlen Hb Hc Hn Hal. destruct (array_va buf 8 Hb ltac:(lia)) as [Eu _]. pose proof Hb as (Hr & Hrd & Hw). unfold harness_write.
  destruct (fill_ok buf 8 cs 0 w Hr) as (w1 & E1 & _); [lia..|done|]. rewrite Z.add_0_r, Eu in E1. rewrite E1. cbn [mbind result_bind].
  destruct (Z.leb_spec len 8) as [H8|H8]; [|done]. cbn [negb].
  destruct (array_va cnt 4 Hc ltac:(lia)) as [_ Kc]. pose proof Hc as (_ & Crd & Cw).
  destruct (law_store32 cnt 0 w1 Kc Hal) as (w2 & -> & _ & _); [intros k Hk; by apply Cw|]. cbn [mbind result_bind].
  pose proof (array_bytes buf 8 Hb (Z.to_nat len) w2 ltac:(lia)) as Hh.
  set (l := map _ _) in Hh. assert (Z.of_nat (length l) = len) as El by (unfold l; rewrite length_map, length_seq; lia).
  clearbody l. destruct (write_sends_buffer fuel buf cnt l w2) as (w3 & E3 & _ & M3); rewrite ?El; try done; try lia.
  { destruct Hr. split; [done|lia]. } { intros k Hk. apply Hrd. lia. } { right. split; [done|]. split; [done|exact Cw]. }
  rewrite El in E3, M3. rewrite E3. cbn [mbind result_bind].
  rewrite law_load32; [|done|done|intros k Hk; by apply Crd]. cbn [mbind result_bind].
  rewrite Z.eqb_refl. cbn [andb]. f_equal. apply Z.eqb_eq. etransitivity; [|exact (join_stored len Hlen)].
  do 2 f_equal. apply map_ext_in. intros k Hk. assert (0 <= k < 4) by (cbn in Hk; lia). rewrite M3, bool_decide_true by done. cbn [andb].
  destruct (insideP (phys cnt) 4 (phys cnt + k)); [|lia]. do 2 f_equal. lia.
Qed.
End harness_laws.

(** ** The test board keeps the laws *)
#[export] Program Instance board_fifo : FifoPort board := {|
  sent := bd_console; full_for _ := O; accepting _ := True; full_bound := O |}.
Next Obligation. intros. constructor. Qed.
Next Obligation. intros w. exists 0, w. by repeat split. Qed.
Next Obligation. intros c w _. eexists. by repeat split. Qed.
Next Obligation. intros a x w w' [= <-]. done. Qed.
Definition harness_symbols : symbols := mk_symbols 0 0 0 0 0 0 0x88000000 0x88000010 0 0.
Lemma board_array p n : run_ok p n -> phys p + n <= 0x1f000000 -> array_at (W:=board) p n.
Proof.
  intros Hr Hp. split; [done|]. split; intros k Hk; cbn; unfold in_memory; unfold in_dram; rewrite (proj2 (Z.ltb_lt _ _)) by lia; done.
Qed.
(** The harnesses hold on the board, whatever the characters and the length. *)
Lemma harnesses_on_board cs ds len : length cs = 5%nat -> length ds = 8%nat -> 0 <= len < 2 ^ 32 ->
  harness_getenv harness_symbols 0x88001000 cs sample_board = Ok true /\
  harness_write 1 0x88001000 0x88001010 ds len sample_board = Ok true.
Proof.
  intros Hc Hd Hl. split; [apply harness_getenv_holds|apply harness_write_holds]; try done; try lia; try (cbn; lia);
    (apply board_array; [split; [split; vm_compute; congruence|vm_compute; congruence]|vm_compute; congruence]).
Qed.
