(* ===== verification/Dump.v ===== *)
(** What is printed of a machine: the disassembler ([src/disassemble.cc], over the
    capstone library as parameters), the text of a state ([operator<<] of
    [src/interpret.cc]), the comparison and the strings of memory
    ([src/sparse_mem.hh], [interpret.cc]), the [--memdump] request ([src/top.cc]). *)
From Stdlib Require Import Ascii String.
From S2P Require Import Prelude Bits State Mem Viewer Report.
#[local] Open Scope string_scope.
#[local] Open Scope list_scope.
#[local] Open Scope Z_scope.

(** ** The disassembler *)
Definition regNames : list text := map txt
  ["zero"; "at"; "v0"; "v1"; "a0"; "a1"; "a2"; "a3"; "t0"; "t1"; "t2"; "t3"; "t4"; "t5"; "t6"; "t7";
   "s0"; "s1"; "s2"; "s3"; "s4"; "s5"; "s6"; "s7"; "t8"; "t9"; "k0"; "k1"; "gp"; "sp"; "s8"; "ra"].
Definition condNames : list text := map txt
  ["f"; "un"; "eq"; "ueq"; "olt"; "ult"; "ole"; "ule"; "sf"; "ngle"; "seq"; "ngl"; "lt"; "nge"; "le"; "ngt"].
Definition getCondName (c : Z) : text := nth (Z.to_nat (c .& 15)) condNames [].
Definition getGPRName (r : Z) : text := nth (Z.to_nat (r .& 31)) regNames [].

(** The errors the table names, and any other capstone may return. *)
Inductive cs_err :=
  | CS_ERR_OK | CS_ERR_MEM | CS_ERR_ARCH | CS_ERR_HANDLE | CS_ERR_CSH | CS_ERR_MODE | CS_ERR_DETAIL
  | CS_ERR_MEMSETUP | CS_ERR_VERSION | CS_ERR_DIET | CS_ERR_SKIPDATA | CS_ERR_X86_ATT | CS_ERR_X86_INTEL
  | CS_ERR_UNKNOWN (n : Z).
Definition cs_error_map (e : cs_err) : option text :=
  match e with
  | CS_ERR_OK => Some (txt "CS_ERR_OK") | CS_ERR_MEM => Some (txt "CS_ERR_MEM") | CS_ERR_ARCH => Some (txt "CS_ERR_ARCH")
  | CS_ERR_HANDLE => Some (txt "CS_ERR_HANDLE") | CS_ERR_CSH => Some (txt "CS_ERR_CSH") | CS_ERR_MODE => Some (txt "CS_ERR_MODE")
  | CS_ERR_DETAIL => Some (txt "CS_ERR_DETAIL") | CS_ERR_MEMSETUP => Some (txt "CS_ERR_MEMSETUP")
  | CS_ERR_VERSION => Some (txt "CS_ERR_VERSION") | CS_ERR_DIET => Some (txt "CS_ERR_DIET")
  | CS_ERR_SKIPDATA => Some (txt "CS_ERR_SKIPDATA") | CS_ERR_X86_ATT => Some (txt "CS_ERR_X86_ATT")
  | CS_ERR_X86_INTEL => Some (txt "CS_ERR_X86_INTEL")
  | CS_ERR_UNKNOWN _ => None
  end.
(** [cs_open] returns its error and the handle it made. *)
Definition initCapstone {H} (cs_open : cs_err * H) : result H :=
  match cs_open with
  | (CS_ERR_OK, h) => Ok h
  | _ => Stop HostExit                          (* the message, or [at] throws, uncaught *)
  end.
Section capstone.
(** The instructions [cs_disasm] finds in the bytes of a word at an address: mnemonic
    and operands. *)
Variable cs_disasm : list Z -> Z -> list (text * text).
Definition getAsmString (inst addr : Z) : text :=
  match cs_disasm (le_split 4 inst) addr with
  | [(mnemonic, op_str)] => mnemonic ++ txt " " ++ op_str
  | _ => []
  end.
Definition disassemble (out : text) (inst addr : Z) : text := out ++ getAsmString inst addr.
End capstone.

(** ** The text of a state *)
(** [out << n] for an [int64_t]; after [std::hex] it is printed as unsigned. *)
Definition sdec (n : Z) : text := if n <? 0 then txt "-" ++ dec (- n) else dec n.
Definition nl : text := ["010"%char].
Definition gpr_line (s : state) (i : Z) : text :=
  getGPRName i ++ txt " : 0x" ++ hex (u64 (gpr s).[i]) ++ txt "(" ++ sdec (gpr s).[i] ++ txt ")" ++ nl.
Definition state_text (s : state) : text :=
  mjoin (map (gpr_line s) (map Z.of_nat (seq 0 32))) ++ txt "icnt : " ++ dec (icnt s) ++ nl.

(** ** Memory *)
(** [compare]: [n] bytes from [b] on; the lines it prints when [verbose]. *)
Fixpoint compare_from (verbose : bool) (m other : sparse_mem) (n : nat) (b : Z) (error : bool) : bool * list text :=
  match n with
  | O => (error, [])
  | S n =>
      let x := (mem_bytes m).[b] in let y := (mem_bytes other).[b] in
      if x =/? y then
        let (e, ls) := compare_from verbose m other n (b + 1) true in
        (e, if verbose then (txt "byte " ++ hex b ++ txt " differs " ++ hex x ++ txt " vs " ++ hex y ++ nl) :: ls else ls)
      else compare_from verbose m other n (b + 1) error
  end.
Definition compare (verbose : bool) (m other : sparse_mem) : bool * list text :=
  compare_from verbose m other (Z.to_nat mem_sz) 0 false.
Definition get_raw_ptr (byte_addr : Z) (m : sparse_mem) : Z :=
  let byte_addr := byte_addr .& ((1 << 32) - 1) in if route_devices m then mc_alias byte_addr else byte_addr.
(** The scan for the terminator: the length of the string at [p], within the [n] bytes the
    mapping still has. *)
Fixpoint string_length (m : sparse_mem) (n : nat) (p len : Z) : result Z :=
  match n with
  | O => Stop HostUB
  | S n => if (mem_bytes m).[p] =/? 0 then string_length m n (p + 1) (len + 1) else Ok len
  end.
(** The new buffer: the string, then its terminator. *)
Definition get_open_string (m : sparse_mem) (offset : Z) : result (list Z) :=
  let ptr := get_raw_ptr offset m in
  let! len := string_length m (Z.to_nat (mem_sz - ptr)) ptr 0 in
  Ok (load_bytes (mem_bytes m) ptr (Z.to_nat len) ++ [0]).

(** ** The memory-dump request *)
Definition isspace (c : ascii) : bool :=
  let n := Z.of_nat (nat_of_ascii c) in (n =? 32) || ((9 <=? n) && (n <=? 13)).
Fixpoint skip_space (s : text) : text :=
  match s with c :: s' => if isspace c then skip_space s' else s | [] => [] end.
Definition xdigit (c : ascii) : option Z :=
  let n := Z.of_nat (nat_of_ascii c) in
  if (48 <=? n) && (n <=? 57) then Some (n - 48)
  else if (97 <=? n) && (n <=? 102) then Some (n - 87)
  else if (65 <=? n) && (n <=? 70) then Some (n - 55) else None.
(** The longest run of digits, its value and its length. *)
Fixpoint xdigits (s : text) (v : Z) (n : nat) : Z * nat * text :=
  match s with
  | c :: s' => match xdigit c with Some d => xdigits s' (16 * v + d) (S n) | None => (v, n, s) end
  | [] => (v, n, [])
  end.
Definition sign_of (s : text) : bool * text :=
  match s with
  | c :: s' => if Ascii.eqb c "-" then (true, s') else if Ascii.eqb c "+" then (false, s') else (false, s)
  | [] => (false, [])
  end.
Definition drop_0x (s : text) : text :=
  match s with
  | c :: d :: s' => if Ascii.eqb c "0" && (Ascii.eqb d "x" || Ascii.eqb d "X") then s' else s
  | _ => s
  end.
(** [%lx]: spaces, a sign, an optional 0x, then at least one digit; [None] is a
    matching failure.  A value past 64 bits is undefined. *)
Definition scan_lx (s : text) : result (option (Z * text)) :=
  let (neg, s) := sign_of (skip_space s) in
  let '(v, n, s) := xdigits (drop_0x s) 0 O in
  match n with
  | O => Ok None
  | _ => if 2 ^ 64 <=? v then Stop HostUB else Ok (Some (if neg : bool then u64 (- v) else v, s))
  end.
Fixpoint nonspace (n : nat) (s : text) : text :=
  match n, s with
  | S n, c :: s => if isspace c then [] else c :: nonspace n s
  | _, _ => []
  end.
(** [%511s]. *)
Definition scan_511s (s : text) : option text :=
  match nonspace 511 (skip_space s) with [] => None | f => Some f end.
Definition scan_colon (s : text) : option text :=
  match s with c :: s => if Ascii.eqb c ":" then Some s else None | [] => None end.
(** [sscanf(spec, "%lx:%lx:%511s") == 3]. *)
Definition scan_spec (spec : text) : result (option (Z * Z * text)) :=
  let! r := scan_lx spec in
  match r with
  | None => Ok None
  | Some (dpa, s) =>
      match scan_colon s with
      | None => Ok None
      | Some s =>
          let! r := scan_lx s in
          Ok (match r with
              | None => None
              | Some (dlen, s) => s ← scan_colon s; f ← scan_511s s; Some (dpa, dlen, f)
              end)
      end
  end.
Inductive dump_outcome :=
  | NoDump                                      (* the option was not given *)
  | BadSpec
  | CannotOpen (file : text)
  | Wrote (file : text) (bytes : list Z).
Definition memdump_request (can_open : text -> bool) (spec : text) (m : sparse_mem) : result dump_outcome :=
  match spec with
  | [] => Ok NoDump
  | _ =>
      let! r := scan_spec spec in
      match r with
      | None => Ok BadSpec
      | Some (dpa, dlen, f) =>
          if can_open f then let! l := memdump dpa (Z.to_nat dlen) m in Ok (Wrote f l) else Ok (CannotOpen f)
      end
  end.
