(* ===== verification/DumpProps.v ===== *)
(** Properties of what is printed of a machine: the text of a state and the
    [--memdump] request read back, the memory comparison and the guest strings are
    exact. *)
From Stdlib Require Import Ascii String.
From Stdlib Require Import DecimalString DecimalN HexadecimalString HexadecimalN.
From S2P Require Import Prelude Bits State Mem Viewer ViewerProps Report Dump.
#[local] Open Scope string_scope.
#[local] Open Scope list_scope.
#[local] Open Scope Z_scope.

(** ** Digits *)
Definition is_xdigit (c : ascii) : bool := match xdigit c with Some _ => true | None => false end.
Lemma xdigit_plain c : is_xdigit c = true ->
  isspace c = false /\ (c =? "-")%char = false /\ (c =? "+")%char = false /\ (c =? "x")%char = false /\ (c =? "X")%char = false.
Proof. destruct c as [[] [] [] [] [] [] [] []]; vm_compute; done. Qed.
Lemma dec_digits n : Forall (fun c => is_xdigit c = true) (dec n).
Proof.
  unfold dec, txt, DecimalString.NilZero.string_of_uint.
  assert (forall d, Forall (fun c => is_xdigit c = true) (list_ascii_of_string (DecimalString.NilEmpty.string_of_uint d))) as Hd
    by (induction d; cbn [DecimalString.NilEmpty.string_of_uint list_ascii_of_string]; constructor; done).
  destruct (N.to_uint (Z.to_N n)); [|apply Hd..]. by repeat constructor.
Qed.
Lemma hex_digits n : Forall (fun c => is_xdigit c = true) (hex n).
Proof.
  unfold hex, txt, HexadecimalString.NilZero.string_of_uint.
  assert (forall d, Forall (fun c => is_xdigit c = true) (list_ascii_of_string (HexadecimalString.NilEmpty.string_of_uint d))) as Hd
    by (induction d; cbn [HexadecimalString.NilEmpty.string_of_uint list_ascii_of_string]; constructor; done).
  destruct (N.to_hex_uint (Z.to_N n)); [|apply Hd..]. by repeat constructor.
Qed.
Lemma digits_free c l : is_xdigit c = false -> Forall (fun c => is_xdigit c = true) l -> free c l.
Proof. intros Hc Hl. eapply Forall_impl; [exact Hl|]. by intros d Hd ->; rewrite Hd in Hc. Qed.
Lemma xdigits_acc d r : forall p n, (forall c r', r = c :: r' -> is_xdigit c = false) ->
  xdigits (list_ascii_of_string (HexadecimalString.NilEmpty.string_of_uint d) ++ r) (Zpos p) n =
    (Zpos (Pos.of_hex_uint_acc d p), (n + length (list_ascii_of_string (HexadecimalString.NilEmpty.string_of_uint d)))%nat, r).
Proof.
  induction d; intros p k Hr; cbn [HexadecimalString.NilEmpty.string_of_uint list_ascii_of_string app xdigits length Pos.of_hex_uint_acc].
  { rewrite Nat.add_0_r. destruct r as [|c r]; [done|]. cbn [xdigits]. specialize (Hr c r eq_refl). unfold is_xdigit in Hr.
    by destruct (xdigit c). }
  all: match goal with |- context [xdigit ?c] => let x := eval vm_compute in (xdigit c) in change (xdigit c) with x end; cbv iota;
    rewrite <- Nat.add_succ_comm, <- IHd by exact Hr; f_equal; lia.
Qed.
Lemma xdigits_hex n r k : 0 <= n -> (forall c r', r = c :: r' -> is_xdigit c = false) -> xdigits (hex n ++ r) 0 k = (n, (k + length (hex n))%nat, r).
Proof.
  intros Hn Hr. unfold hex, txt, HexadecimalString.NilZero.string_of_uint.
  assert (forall d k, xdigits (list_ascii_of_string (HexadecimalString.NilEmpty.string_of_uint d) ++ r) 0 k =
    (Z.of_N (N.of_hex_uint d), (k + length (list_ascii_of_string (HexadecimalString.NilEmpty.string_of_uint d)))%nat, r)) as Hd.
  { clear k. induction d; intros k; cbn [HexadecimalString.NilEmpty.string_of_uint list_ascii_of_string app xdigits length].
    { rewrite Nat.add_0_r. destruct r as [|c r]; [done|]. cbn [xdigits]. specialize (Hr c r eq_refl). unfold is_xdigit in Hr.
      by destruct (xdigit c). }
    all: match goal with |- context [xdigit ?c] => let x := eval vm_compute in (xdigit c) in change (xdigit c) with x end; cbv iota;
      rewrite <- Nat.add_succ_comm.
    1: by rewrite <- IHd.
    all: rewrite Z.mul_0_r, Z.add_0_l; by rewrite xdigits_acc. }
  pose proof (HexadecimalN.Unsigned.of_to (Z.to_N n)) as E. specialize (Hd (N.to_hex_uint (Z.to_N n)) k).
  rewrite E in Hd. rewrite Z2N.id in Hd by done. destruct (N.to_hex_uint (Z.to_N n)); [|exact Hd..].
  cbn in E. assert (n = 0) as -> by lia. cbn. rewrite Nat.add_1_r. destruct r as [|c r]; [done|]. cbn. specialize (Hr c r eq_refl). unfold is_xdigit in Hr.
  by destruct (xdigit c).
Qed.
Lemma hex_nonempty n : exists c l, hex n = c :: l.
Proof.
  unfold hex, txt, HexadecimalString.NilZero.string_of_uint. destruct (N.to_hex_uint _); eexists _, _; reflexivity.
Qed.

(** ** The request *)
Lemma scan_lx_hex n c s : 0 <= n < 2 ^ 64 -> is_xdigit c = false -> (c =? "x")%char = false -> (c =? "X")%char = false ->
  scan_lx (hex n ++ c :: s) = Ok (Some (n, c :: s)).
Proof.
  intros Hn Hc Hx HX. unfold scan_lx. pose proof (hex_digits n) as Hd. destruct (hex_nonempty n) as (d & l & E).
  assert (drop_0x (hex n ++ c :: s) = hex n ++ c :: s) as E0.
  { rewrite E in Hd |- *. cbn [app drop_0x]. destruct l as [|d' l]; cbn [app].
    - by rewrite Hx, HX, andb_false_r.
    - rewrite !Forall_cons in Hd. destruct Hd as (_ & Hd' & _). destruct (xdigit_plain d' Hd') as (_ & _ & _ & -> & ->).
      by rewrite andb_false_r. }
  assert (sign_of (skip_space (hex n ++ c :: s)) = (false, hex n ++ c :: s)) as ->.
  { rewrite E in Hd |- *. apply Forall_cons in Hd as [Hd _]. destruct (xdigit_plain d Hd) as (S1 & S2 & S3 & _).
    cbn [app skip_space]. rewrite S1. cbn [sign_of]. by rewrite S2, S3. }
  rewrite E0, xdigits_hex; [|lia|by intros ? ? [= <- <-]]. rewrite E. cbn [length Nat.add].
  destruct (Z.leb_spec (2 ^ 64) n); [lia|done].
Qed.
Definition unspaced (f : text) : Prop := Forall (fun c => isspace c = false) f.
Lemma nonspace_take n f : unspaced f -> nonspace n f = take n f.
Proof.
  revert f; induction n as [|n IH]; intros f Hf; [by destruct f|]. destruct f as [|c f]; [done|].
  apply Forall_cons in Hf as [Hc Hf]. cbn. by rewrite Hc, IH.
Qed.
(** A request printed as two hexadecimal numbers and a file name is read back, the
    name cut at the 511 characters the buffer holds. *)
Theorem spec_reads_back dpa dlen f : 0 <= dpa < 2 ^ 64 -> 0 <= dlen < 2 ^ 64 -> f <> [] -> unspaced f ->
  scan_spec (hex dpa ++ txt ":" ++ hex dlen ++ txt ":" ++ f) = Ok (Some (dpa, dlen, take 511 f)).
Proof.
  intros Hp Hl Hf Hs. unfold scan_spec. cbn [txt list_ascii_of_string app].
  rewrite scan_lx_hex by done. cbn [mbind result_bind scan_colon]. rewrite Ascii.eqb_refl.
  rewrite scan_lx_hex by done. cbn [mbind result_bind scan_colon option_bind]. rewrite Ascii.eqb_refl. cbn [mbind option_bind].
  unfold scan_511s. destruct f as [|c f]; [done|]. pose proof Hs as Hs'. apply Forall_cons in Hs' as [Hc _].
  cbn [skip_space]. rewrite Hc, nonspace_take by done. done.
Qed.
(** What the run then does with it. *)
Theorem memdump_request_writes can_open dpa dlen f m : 0 <= dpa -> 0 <= dlen -> dpa + dlen <= mem_sz -> f <> [] -> unspaced f ->
  memdump_request can_open (hex dpa ++ txt ":" ++ hex dlen ++ txt ":" ++ f) m =
    Ok (if can_open (take 511 f) then Wrote (take 511 f) (load_bytes (mem_bytes m) dpa (Z.to_nat dlen)) else CannotOpen (take 511 f)).
Proof.
  intros Hp Hl Hm Hf Hs. assert (mem_sz < 2 ^ 64) by done. unfold memdump_request.
  rewrite spec_reads_back by (done || lia). destruct (hex_nonempty dpa) as (c & l & ->). cbn [app mbind result_bind].
  destruct (can_open (take 511 f)); [|done]. unfold memdump. rewrite Z2Nat.id by done.
  by rewrite (proj2 (Z.ltb_ge _ _)) by lia.
Qed.

(** ** The text of a state *)
Definition unsdec (s : text) : option Z :=
  match eat (txt "-") s with Some s => Z.opp <$> undec s | None => undec s end.
(** The registers, in order, and the text after them. *)
Fixpoint read_regs (n : nat) (s : text) : option (list Z * text) :=
  match n with
  | O => Some ([], s)
  | S n =>
      '(_, s) ← until "(" s; '(v, s) ← until ")" s; v ← unsdec v; s ← eat nl s;
      '(l, s) ← read_regs n s; Some (v :: l, s)
  end.
Definition read_state (s : text) : option (list Z * Z) :=
  '(l, s) ← read_regs 32 s; s ← eat (txt "icnt : ") s; '(i, _) ← until "010" s; i ← undec i; Some (l, i).
Lemma unsdec_sdec n : unsdec (sdec n) = Some n.
Proof.
  unfold unsdec, sdec. destruct (Z.ltb_spec n 0).
  - rewrite eat_app, undec_dec by lia. cbn. f_equal. lia.
  - pose proof (dec_digits n) as Hd. pose proof (undec_dec n ltac:(lia)) as E. destruct (dec n) as [|c l]; [done|].
    apply Forall_cons in Hd as [Hc _]. apply xdigit_plain in Hc as (_ & Hm & _).
    cbn [txt list_ascii_of_string eat]. by rewrite Ascii.eqb_sym, Hm.
Qed.
Lemma sdec_free n : free ")" (sdec n).
Proof.
  unfold sdec. destruct (n <? 0); [apply Forall_app; split; [by repeat constructor|]|]; by (apply digits_free; [|apply dec_digits]).
Qed.
Lemma name_free i : free "(" (getGPRName i).
Proof.
  unfold getGPRName, regNames. generalize (Z.to_nat (i .& 31)). intros k.
  do 32 (destruct k as [|k]; [by repeat constructor|]). destruct k; constructor.
Qed.
Lemma read_line s i r n : read_regs (S n) (gpr_line s i ++ r) = '(l, r) ← read_regs n r; Some ((gpr s).[i] :: l, r).
Proof.
  cbn [read_regs]. unfold gpr_line.
  replace ((getGPRName i ++ txt " : 0x" ++ hex (u64 (gpr s).[i]) ++ txt "(" ++ sdec (gpr s).[i] ++ txt ")" ++ nl) ++ r)
    with ((getGPRName i ++ txt " : 0x" ++ hex (u64 (gpr s).[i])) ++ "("%char :: (sdec (gpr s).[i] ++ ")"%char :: (nl ++ r)))
    by (rewrite <- !app_assoc; reflexivity).
  rewrite until_app.
  2: { apply Forall_app; split; [apply name_free|]. apply Forall_app; split; [by repeat constructor|]. by apply digits_free; [|apply hex_digits]. }
  cbn [mbind option_bind]. rewrite until_app by apply sdec_free. cbn [mbind option_bind]. rewrite unsdec_sdec. cbn [mbind option_bind].
  by rewrite eat_app.
Qed.
Lemma read_lines_of s l r n : length l = n -> read_regs n (mjoin (map (gpr_line s) l) ++ r) = Some (map (fun i => (gpr s).[i]) l, r).
Proof.
  intros <-. induction l as [|i l IH]; [done|]. cbn [map length]. change (mjoin (gpr_line s i :: map (gpr_line s) l)) with (gpr_line s i ++ mjoin (map (gpr_line s) l)).
  rewrite <- app_assoc, read_line, IH. done.
Qed.
(** The text holds every register, signed, and the instruction count. *)
Theorem state_text_reads_back s : 0 <= icnt s ->
  read_state (state_text s) = Some (map (fun i => (gpr s).[i]) (map Z.of_nat (seq 0 32)), icnt s).
Proof.
  intros Hi. unfold read_state, state_text. rewrite read_lines_of by done. cbn [mbind option_bind].
  rewrite eat_app. cbn [mbind option_bind]. unfold nl.
  rewrite until_app by (by apply digits_free; [|apply dec_digits]). cbn [mbind option_bind]. by rewrite undec_dec.
Qed.

(** ** Memory *)
Lemma compare_from_exact verbose m o n : forall b e, (compare_from verbose m o n b e).1 = true <->
  e = true \/ exists a, b <= a < b + Z.of_nat n /\ (mem_bytes m).[a] <> (mem_bytes o).[a].
Proof.
  induction n as [|n IH]; intros b e; cbn [compare_from].
  { split; [by left|]. intros [E|(a & Ha & _)]; [done|lia]. }
  destruct (Z.eqb_spec (mem_bytes m).[b] (mem_bytes o).[b]) as [E|E]; cbn [negb].
  - rewrite IH. split; (intros [He|(a & Ha & Hd)]; [by left|right]); exists a; (split; [|done]); [lia|].
    assert (a <> b) by congruence. lia.
  - pose proof (proj2 (IH (b + 1) true) (or_introl eq_refl)) as H1. destruct (compare_from _ _ _ _ _ true) as [e' ls]. cbn in *.
    split; [|done]. intros _. right. exists b. split; [lia|done].
Qed.
(** [compare] answers that the memories differ exactly when some byte does. *)
Theorem memory_compare_exact verbose m o :
  (compare verbose m o).1 = true <-> exists a, 0 <= a < mem_sz /\ (mem_bytes m).[a] <> (mem_bytes o).[a].
Proof.
  unfold compare. pose proof (Z2Nat.id mem_sz ltac:(done)) as E. revert E. generalize (Z.to_nat mem_sz). intros n E.
  rewrite compare_from_exact, E, Z.add_0_l. split; [by intros [?|?]|by right].
Qed.
Lemma compare_from_silent m o n : forall b e, (compare_from false m o n b e).2 = [].
Proof.
  induction n as [|n IH]; intros b e; cbn [compare_from]; [done|]. destruct (negb _); [|apply IH].
  specialize (IH (b + 1) true). by destruct (compare_from _ _ _ _ _ _).
Qed.
(** The call of [main] prints nothing: it is not verbose, and its result is dropped. *)
Theorem compare_silent m o : (compare false m o).2 = [].
Proof. unfold compare. generalize (Z.to_nat mem_sz). intros n. apply compare_from_silent. Qed.
Lemma string_length_ok m p k n len : (k < n)%nat -> (forall i, (i < k)%nat -> (mem_bytes m).[p + Z.of_nat i] <> 0) ->
  (mem_bytes m).[p + Z.of_nat k] = 0 -> string_length m n p len = Ok (len + Z.of_nat k).
Proof.
  revert p n len; induction k as [|k IH]; intros p n len Hk Hn Hz; (destruct n as [|n]; [lia|]); cbn [string_length].
  - rewrite Z.add_0_r in Hz. rewrite Hz. cbn. f_equal. lia.
  - pose proof (Hn 0%nat ltac:(lia)) as H0. rewrite Z.add_0_r in H0. rewrite (proj2 (Z.eqb_neq _ _)) by done. cbn [negb].
    rewrite IH; [f_equal; lia|lia| |by rewrite <- Hz; f_equal; lia].
    intros i Hi. specialize (Hn (S i) ltac:(lia)). by replace (p + 1 + Z.of_nat i) with (p + Z.of_nat (S i)) by lia.
Qed.
Lemma string_length_runs_off m n : forall p len, (forall i, (i < n)%nat -> (mem_bytes m).[p + Z.of_nat i] <> 0) ->
  string_length m n p len = Stop HostUB.
Proof.
  induction n as [|n IH]; intros p len Hn; cbn [string_length]; [done|].
  pose proof (Hn 0%nat ltac:(lia)) as H0. rewrite Z.add_0_r in H0. rewrite (proj2 (Z.eqb_neq _ _)) by done. cbn [negb].
  apply IH. intros i Hi. specialize (Hn (S i) ltac:(lia)). by replace (p + 1 + Z.of_nat i) with (p + Z.of_nat (S i)) by lia.
Qed.
(** [get_open_string] returns the bytes before the first zero, and one zero. *)
Theorem get_open_string_exact m offset k (p := get_raw_ptr offset m) : Z.of_nat k < mem_sz - p ->
  (forall i, (i < k)%nat -> (mem_bytes m).[p + Z.of_nat i] <> 0) -> (mem_bytes m).[p + Z.of_nat k] = 0 ->
  get_open_string m offset = Ok (load_bytes (mem_bytes m) p k ++ [0]).
Proof.
  intros Hk Hn Hz. unfold get_open_string. fold p. rewrite (string_length_ok m p k) by (done || lia).
  cbn [mbind result_bind]. by rewrite Z.add_0_l, Nat2Z.id.
Qed.
