(* ===== verification/Lockstep.v ===== *)
(** The checker and a correct core ([src/top.cc], the cycle loop of [main]).  A core is
    correct when its retirements follow the interpreter: at every instruction boundary
    the program counters and the registers agree, however the instructions are packed
    into cycles -- one or two at a time, a branch with its delay slot or before it,
    cycles without retirement, TLB writes, interrupts, and faulting instructions, which
    only the interpreter executes.  [follows] says that and nothing of the checker.  The
    checker is blind to a few such cores; [clear] names the retirements it handles, and
    the examples at the end show a correct core of each other kind that it accuses or
    stops. *)
From S2P Require Import Prelude Bits Insns State Mem Exc Tlb LoadStore Alu Fp Exec ExecProps Control Cosim CosimProps.

(** ** Correct cores *)
(** The six exception vectors, as the program counters' low words. *)
Definition vectors : list Z := [0x80000000; 0x80000080; 0x80000180; 0xbfc00200; 0xbfc00280; 0xbfc00380].
(** What a retirement is: an instruction with nothing pending, a control transfer whose
    delay slot is still to retire, that slot, or the first instruction of the handler of
    a fault the core does not retire. *)
Inductive kind := K_step | K_branch | K_slot | K_fault.
(** A retirement: on the first port or the second, its pc, and the interpreter before
    and after what it stands for. *)
Record retirement := mk_retirement {
  r_first : bool; r_pc : Z; r_kind : kind; r_before : state; r_after : state;
}.

Section follows.
Context `{Config, HostFP}.
Variable fuel : nat.
Implicit Types (t : state) (g : Zmap Z) (tb : tb_t) (q : list pend_tlb_t).

(** The register file after a retirement port, and the timing-dependent state a
    cycle gives the interpreter. *)
Definition port_one tb g : Zmap Z :=
  if retire_reg_valid tb then wr (retire_reg_ptr tb) (s64 (retire_reg_data tb)) g else g.
Definition port_two tb g : Zmap Z :=
  if retire_reg_two_valid tb then wr (retire_reg_two_ptr tb) (s64 (retire_reg_two_data tb)) g else g.
Definition timed tb t : state :=
  ss (sync_irq tb (sync_cp0 tb (mk_checker t ∅ [] 0 0 0 false 0))).

(** The 32 registers agree, register 0 as the interpreter holds it. *)
Definition agree t g : Prop := forall i, 0 <= i < 32 -> (gpr t).[i] = g.[i].
(** One instruction [insn] of the interpreter, at [p]; a read of Count or Random takes
    the core's value. *)
Definition executes (insn p : Z) t g t' : Prop :=
  exists t1 pa, execMips fuel t = Ok t1 /\ iss_fetch_inst t1 p = Ok (insn, pa) /\
    t' = ss (adopt_timing_cp0 insn (mk_checker t1 g [] 0 0 0 false 0)).
(** An instruction that ends in an exception at one of the vectors. *)
Definition faults t t1 : Prop :=
  execMips fuel t = Ok t1 /\ brk t1 = 0 /\ sr_bit t1 SR_EXL = true /\ In (u32 (pc t1)) vectors.

(** Where the core is: between instructions, or short of the delay slot of a branch
    the interpreter has executed as one with it. *)
Inductive place := Boundary | BeforeSlot (p : Z).
Definition point : Type := place * state * list pend_tlb_t.

(** What a retirement at [p] of the core with registers [g] stands for. *)
Inductive retires (p : Z) (g : Zmap Z) : kind -> point -> point -> Prop :=
  | R_step t q insn t' :
      u32 p = u32 (pc t) -> executes insn p (fold_left apply_pend q t) g t' -> agree t' g ->
      retires p g K_step (Boundary, t, q) (Boundary, t', [])
  | R_branch t q insn t' :
      u32 p = u32 (pc t) -> executes insn p (fold_left apply_pend q t) g t' -> has_delay_slot insn = true ->
      retires p g K_branch (Boundary, t, q) (BeforeSlot (u32 (p + 4)), t', [])
  | R_slot d t q :
      u32 p = d -> agree t g -> retires p g K_slot (BeforeSlot d, t, q) (Boundary, t, q)
  | R_fault t q t1 insn t' :
      faults (fold_left apply_pend q t) t1 -> u32 p = u32 (pc t1) -> executes insn p t1 g t' -> agree t' g ->
      retires p g K_fault (Boundary, t, q) (Boundary, t', []).
Definition maybe_retires (valid first : bool) p g (x y : point) (rs : list retirement) : Prop :=
  if valid then exists k, retires p g k x y /\ rs = [mk_retirement first p k x.1.2 y.1.2] else y = x /\ rs = [].

(** The events of a correct core, with its retirements.  It takes an interrupt between
    instructions. *)
Inductive follows : point -> Zmap Z -> list event -> list retirement -> Prop :=
  | F_end x g : follows x g [] []
  | F_tlb m t q g entry ehi elo0 elo1 pm l rs :
      follows (m, t, q ++ [mk_pend_tlb entry (u64 ehi) (u64 elo0) (u64 elo1) (u32 (u32 pm << 13))]) g l rs ->
      follows (m, t, q) g (EvTlbWrite entry ehi elo0 elo1 pm :: l) rs
  | F_cycle m t q g tb y z l rs1 rs2 rs :
      (took_irq tb = true -> m = Boundary) ->
      maybe_retires (retire_valid tb) true (retire_pc tb) (port_one tb g) (m, timed tb t, q) y rs1 ->
      maybe_retires (retire_two_valid tb) false (retire_two_pc tb) (port_two tb (port_one tb g)) y z rs2 ->
      follows z (port_two tb (port_one tb g)) l rs ->
      follows (m, t, q) g (EvCycle tb :: l) (rs1 ++ rs2 ++ rs).

(** ** What the checker can follow *)
(** The vector area a retirement is looked for in, and the pages left out when the
    interpreter is looked for outside of it. *)
Definition in_vectors (a : Z) : Prop := 0xbfc00180 <= a < 0xbfc00400 \/ 0x80000000 <= a < 0x80000200.
Definition in_vector_pages (a : Z) : Prop := 0xbfc00000 <= a < 0xbfc00400 \/ 0x80000000 <= a < 0x80000200.
(** MFC0 or DMFC0 of Random or Count. *)
Definition reads_timing (insn : Z) : bool :=
  (insn >> 26 =? 0x10) && ((f_rs insn =? 0) || (f_rs insn =? 1)) && ((f_rd insn =? 1) || (f_rd insn =? 9)).
(** The run is not over (no BREAK or SYSCALL outside OS mode); a control transfer whose
    slot is pending does not end at that slot; a slot that retires on the first port does
    not leave the vector area for code outside its pages, and no BREAK or SYSCALL waits
    at the word the checker reads for the instruction after it; the handler of a fault
    begins on the first port, the fault was outside the vector pages, and the handler's
    first instruction does not read Count or Random. *)
Definition clear (r : retirement) : Prop :=
  brk (r_after r) = 0 /\
  match r_kind r with
  | K_step => True
  | K_branch => u32 (pc (r_after r)) <> u32 (r_pc r + 4)
  | K_slot => r_first r = true ->
      (in_vectors (u32 (r_pc r)) -> in_vector_pages (u32 (pc (r_before r)))) /\
      exists w, get 4 (va2pa (u32 (pc (r_before r)))) (r_before r) = Ok w /\ is_break_or_syscall (bswap IS_LITTLE_ENDIAN 4 w) = false
  | K_fault => r_first r = true /\ ~ in_vector_pages (u32 (pc (r_before r))) /\
      forall insn pa, iss_fetch_inst (r_after r) (r_pc r) = Ok (insn, pa) -> reads_timing insn = false
  end.
(** No bus error is reported with a retirement. *)
Definition bus_ok (e : event) : Prop :=
  match e with EvCycle tb => retire_valid tb = true -> got_bad_addr tb = false | _ => True end.

(** * Theorems *)
Lemma in_vectors_spec a : rtl_in_exc_handler a = true <-> in_vectors a.
Proof. unfold rtl_in_exc_handler, in_vectors. rewrite orb_true_iff, !andb_true_iff, !Z.leb_le, !Z.ltb_lt. done. Qed.
Lemma in_pages_spec a : sim_in_user_code a = true <-> ~ in_vector_pages a.
Proof. unfold sim_in_user_code, in_vector_pages. rewrite negb_true_iff, <- not_true_iff_false, orb_true_iff, !andb_true_iff, !Z.leb_le, !Z.ltb_lt. done. Qed.
Lemma vectors_in a : In a vectors -> in_vectors a.
Proof. cbn [In vectors]. unfold in_vectors. lia. Qed.
Lemma adopt_other insn c : reads_timing insn = false -> adopt_timing_cp0 insn c = c.
Proof. unfold reads_timing, adopt_timing_cp0, f_rs, f_rd. cbv zeta. by intros ->. Qed.
Lemma fetch_adopt insn c p : iss_fetch_inst (ss (adopt_timing_cp0 insn c)) p = iss_fetch_inst (ss c) p.
Proof. unfold adopt_timing_cp0. cbv zeta. by destruct (_ && _). Qed.
(** The checker stands at a point of the core. *)
Record at_point (c : checker) (x : point) (g : Zmap Z) : Prop := {
  ap_view : (ss c, g_pend_tlb c) = (x.1.2, x.2); ap_regs : s_gpr c = g; ap_ok : incorrect c = false;
  ap_count : 0 <= last_check c <= if x.1.1 is Boundary then 2 else 0;
  ap_slot : if x.1.1 is BeforeSlot d then u32 (pc x.1.2) <> d else True;
}.
Lemma at_matched p t g c m : ss c = t -> g_pend_tlb c = [] -> s_gpr c = g -> incorrect c = false ->
  (if m is BeforeSlot d then u32 (pc t) <> d else True) -> at_point (matched p c) (m, t, []) g.
Proof. intros <- E <- Hi Hs. split; cbn; [by rewrite E|done|done|by destruct m|done]. Qed.
Lemma pc_timed tb t : took_irq tb = false -> pc (timed tb t) = pc t.
Proof. intros E. unfold timed, sync_irq. by rewrite E. Qed.
Lemma at_sync tb c m t q g : (took_irq tb = true -> m = Boundary) -> at_point c (m, t, q) g ->
  at_point (c |> retire_reg tb |> sync_cp0 tb |> sync_irq tb) (m, timed tb t, q) (port_one tb g).
Proof.
  intros Hm [[= E1 E2] E3 E4 E5 E6]. cbn in E5, E6.
  assert (if m is BeforeSlot d then u32 (pc (timed tb t)) <> d else True) as Hs.
  { destruct m as [|d]; [done|]. rewrite pc_timed; [done|]. destruct (took_irq tb); [by specialize (Hm eq_refl)|done]. }
  revert Hs. unfold timed, retire_reg, sync_irq, port_one. intros Hs.
  destruct (retire_reg_valid tb), (took_irq tb); split; cbn in Hs |- *; rewrite ?E1, ?E2, ?E3; try done.
Qed.
#[local] Opaque execMips.
(** A step of the checker at the core's instruction. *)
Lemma step_executes {A} insn p t q g t' c (k : checker -> result A) : (ss c, g_pend_tlb c) = (t, q) -> s_gpr c = g ->
  executes insn p (fold_left apply_pend q t) g t' ->
  exists d, ss d = t' /\ g_pend_tlb d = [] /\ s_gpr d = g /\ incorrect d = incorrect c /\
    (let! c := iss_step fuel c in let! (insn, _) := iss_fetch_inst (ss c) p in k (adopt_timing_cp0 insn c)) = k d.
Proof.
  intros [= E1 E2] E3 (t1 & pa & Ex & Ef & ->). unfold iss_step. rewrite E1, E2, Ex. cbn [mbind result_bind ss with_ss with_pend].
  rewrite Ef. cbn [mbind result_bind]. eexists. split; [|split; [|split; [|split; [|reflexivity]]]];
    unfold adopt_timing_cp0 in *; cbn in *; destruct (_ && _) in *; cbn in *; by rewrite ?E3.
Qed.
Lemma wrong_agree c : agree (ss c) (s_gpr c) -> wrong_regs c = [].
Proof. intros Ha. by apply wrong_regs_nil. Qed.
(** What [check_match] and the second slot do after the step. *)
Definition judge (compare : bool) (p : Z) c : result (checker * verdict) :=
  if brk (ss c) =/? 0 then Ok (c, Break) else
  let wrong := if compare && (u32 (pc (ss c)) =? u32 (p + 4)) then wrong_regs c else [] in
  match wrong with
  | [] => Ok (matched p c, Continue)
  | _ => Ok (flag_incorrect (Z.of_nat (length wrong)) c, Break)
  end.
Lemma check_match_judge tb c : check_match fuel tb c =
  let! c := iss_step fuel c in let! (insn, _) := iss_fetch_inst (ss c) (retire_pc tb) in judge true (retire_pc tb) (adopt_timing_cp0 insn c).
Proof. reflexivity. Qed.
(** After an instruction at [p]: the registers agree, or its slot is still to retire and
    control is not at that slot. *)
Definition settles (p : Z) t g (m : place) : Prop :=
  match m with Boundary => agree t g | BeforeSlot d => d = u32 (p + 4) /\ u32 (pc t) <> d end.
Lemma judge_settled compare p c m q : brk (ss c) = 0 -> q = [] -> g_pend_tlb c = q -> incorrect c = false -> settles p (ss c) (s_gpr c) m ->
  exists d, judge compare p c = Ok (d, Continue) /\ at_point d (m, ss c, q) (s_gpr c).
Proof.
  intros Hb -> Hq Hi Hs. exists (matched p c). split; [|apply at_matched; try done; destruct m; [done|apply Hs]]. unfold judge. cbv zeta. rewrite Hb. cbn [Z.eqb negb].
  destruct m as [|d]; cbn in Hs.
  - rewrite wrong_agree by done. by destruct (_ && _).
  - destruct Hs as [-> Hs]. rewrite (proj2 (Z.eqb_neq _ _) Hs). by rewrite andb_false_r.
Qed.
Lemma step_settled compare insn p t q g t' m c : (ss c, g_pend_tlb c) = (t, q) -> s_gpr c = g -> incorrect c = false ->
  executes insn p (fold_left apply_pend q t) g t' -> brk t' = 0 -> settles p t' g m ->
  exists d, (let! c := iss_step fuel c in let! (insn, _) := iss_fetch_inst (ss c) p in judge compare p (adopt_timing_cp0 insn c)) = Ok (d, Continue) /\
    at_point d (m, t', []) g.
Proof.
  intros Ec Eg Ei Hx Hb Hs. destruct (step_executes insn p t q g t' c (judge compare p) Ec Eg Hx) as (d & E1 & E2 & E3 & E4 & ->).
  rewrite <- E1, <- E3. apply judge_settled; try done; congruence.
Qed.
(** A slot that retires first: one more retirement without a match. *)
Lemma slot_counted tb c t q g : at_point c (BeforeSlot (u32 (retire_pc tb)), t, q) g ->
  clear (mk_retirement true (retire_pc tb) K_slot t t) ->
  exists d, check_mismatch fuel tb c = Ok (d, Continue) /\ at_point d (Boundary, t, q) g.
Proof.
  intros [[= Ess Eq] Eg Ei El Es] [_ Hk]. cbn in El, Es. destruct (Hk eq_refl) as (Hv & w & Hw & Hnb). cbn [r_pc r_before] in Hv, Hw.
  unfold check_mismatch, catch_up. rewrite Ess.
  replace (rtl_in_exc_handler _ && sim_in_user_code _) with false; cbn [mbind result_bind].
  - unfold watchdog. cbn [ss with_last_check]. rewrite Ess, Hw. cbn [mbind result_bind]. rewrite Hnb. cbn [last_check with_last_check].
    assert (last_check c = 0) as -> by lia. exists (with_last_check 1 c). split; [done|]. split; cbn; by rewrite ?Ess, ?Eq.
  - symmetry. apply andb_false_iff. destruct (rtl_in_exc_handler _) eqn:Er; [right|by left]. apply in_vectors_spec, Hv in Er.
    apply not_true_iff_false. intros Hn%in_pages_spec. done.
Qed.
(** The first instruction of a handler: the interpreter catches up through the fault. *)
Lemma fault_caught tb c t q g t1 insn t' : at_point c (Boundary, t, q) g ->
  faults (fold_left apply_pend q t) t1 -> u32 (retire_pc tb) = u32 (pc t1) -> executes insn (retire_pc tb) t1 g t' -> agree t' g ->
  clear (mk_retirement true (retire_pc tb) K_fault t t') ->
  u32 (retire_pc tb) <> u32 (pc t) /\ exists d, check_mismatch fuel tb c = Ok (d, Continue) /\ at_point d (Boundary, t', []) g.
Proof.
  intros [[= Ess Eq] Eg Ei El Es] (Hx & Hb & _ & Hin) Hp (t2 & pa & Hx2 & Hf2 & Ht') Ha [Hb2 (_ & Hout & Hrd)].
  cbn [r_pc r_before r_after r_kind] in *. apply vectors_in in Hin. rewrite <- Hp in Hin. assert (reads_timing insn = false) as Hr.
  { apply (Hrd insn pa). by rewrite Ht', fetch_adopt. }
  rewrite adopt_other in Ht' by done. cbn [ss] in Ht'. subst t2. split.
  { intros E. apply Hout. rewrite <- E. unfold in_vectors in Hin. unfold in_vector_pages. lia. }
  unfold check_mismatch, catch_up. rewrite Ess, (proj2 (in_vectors_spec _) Hin), (proj2 (in_pages_spec _) Hout). cbn [andb]. unfold iss_step.
  rewrite Ess, Eq, Hx. cbn [mbind result_bind ss with_ss with_pend g_pend_tlb fold_left]. rewrite Hb, Hp, !Z.eqb_refl. cbn [Z.eqb negb].
  rewrite Hx2. cbn [mbind result_bind ss with_ss with_pend]. rewrite Hb2. cbn [Z.eqb negb]. eexists. split; [reflexivity|].
  by apply at_matched.
Qed.
Lemma first_ok tb c x y g rs : at_point c x g -> bus_ok (EvCycle tb) ->
  maybe_retires (retire_valid tb) true (retire_pc tb) g x y rs -> Forall clear rs ->
  exists d, check_retire fuel tb c = Ok (d, Continue) /\ at_point d y g.
Proof.
  intros Hc Hbad Hr. unfold check_retire. cbn [bus_ok] in Hbad. destruct (retire_valid tb); cbn [negb maybe_retires] in *; [|destruct Hr as [-> _]; by exists c].
  rewrite Hbad by done. destruct Hr as (k & Hr & ->). intros Hk. apply Forall_cons in Hk as [Hk _]. pose proof Hc as [[= Ess Eq] Eg Ei El Es].
  destruct Hr as [t q insn t' Hp Hx Hs|t q insn t' Hp Hx Hs|d t q Hp Ha|t q t1 insn t' Hf Hp Hx Ha]; cbn [fst snd] in *.
  - rewrite Ess, Hp, Z.eqb_refl, check_match_judge. apply (step_settled true insn _ t q _ _ _ c); [by rewrite Ess, Eq|done..|apply Hk|done].
  - rewrite Ess, Hp, Z.eqb_refl, check_match_judge. apply (step_settled true insn _ t q _ _ _ c); [by rewrite Ess, Eq|done..|apply Hk|split; [done|apply Hk]].
  - rewrite Ess. rewrite (proj2 (Z.eqb_neq _ (u32 (pc t)))) by congruence. subst d. by apply slot_counted.
  - destruct (fault_caught tb c t q g t1 insn t' Hc Hf Hp Hx Ha Hk) as [Hne Hd]. rewrite Ess. by rewrite (proj2 (Z.eqb_neq _ _) Hne).
Qed.
Lemma second_ok tb c x y g rs : at_point c x g -> maybe_retires (retire_two_valid tb) false (retire_two_pc tb) g x y rs -> Forall clear rs ->
  exists d, check_retire_two fuel tb c = Ok (d, Continue) /\ at_point d y g.
Proof.
  intros Hc Hr. unfold check_retire_two. destruct (retire_two_valid tb); cbn [maybe_retires] in *; [|destruct Hr as [-> _]; by exists c].
  destruct Hr as (k & Hr & ->). intros Hk. apply Forall_cons in Hk as [Hk _]. pose proof Hc as [[= Ess Eq] Eg Ei El Es].
  destruct Hr as [t q insn t' Hp Hx Hs|t q insn t' Hp Hx Hs|d t q Hp Ha|t q t1 insn t' Hf Hp Hx Ha]; cbn [fst snd] in *.
  - rewrite Ess, Hp, Z.eqb_refl. apply (step_settled false insn _ t q _ _ _ c); [by rewrite Ess, Eq|done..|apply Hk|done].
  - rewrite Ess, Hp, Z.eqb_refl. apply (step_settled false insn _ t q _ _ _ c); [by rewrite Ess, Eq|done..|apply Hk|split; [done|apply Hk]].
  - rewrite Ess, Hp. rewrite (proj2 (Z.eqb_neq d (u32 (pc t)))) by congruence. exists c. split; [done|].
    split; cbn; [by rewrite Ess, Eq|done|done|lia|done].
  - by destruct Hk as [_ [? _]].
Qed.
Lemma cycle_ok tb c m t q g y z rs1 rs2 : at_point c (m, t, q) g ->
  (took_irq tb = true -> m = Boundary) -> bus_ok (EvCycle tb) ->
  maybe_retires (retire_valid tb) true (retire_pc tb) (port_one tb g) (m, timed tb t, q) y rs1 -> Forall clear rs1 ->
  maybe_retires (retire_two_valid tb) false (retire_two_pc tb) (port_two tb (port_one tb g)) y z rs2 -> Forall clear rs2 ->
  exists d, cycle fuel tb c = Ok (d, Continue) /\ at_point d z (port_two tb (port_one tb g)).
Proof.
  intros Hc Hm Hb H1 K1 H2 K2. unfold cycle. apply (at_sync tb) in Hc; [|done].
  destruct (first_ok tb _ _ y _ rs1 Hc Hb H1 K1) as (d & -> & Hd). cbn [mbind result_bind].
  apply (second_ok tb _ y z _ rs2); [|done..]. destruct Hd as [E1 E2 E3 E4 E5]. unfold retire_reg_two, port_two in *.
  destruct (retire_reg_two_valid tb); split; cbn; by rewrite ?E2.
Qed.
Lemma follows_ok x g l rs : follows x g l rs -> Forall clear rs -> Forall bus_ok l -> forall c, at_point c x g ->
  exists d, run fuel l c = Ok (d, Continue) /\ incorrect d = false.
Proof.
  induction 1 as [x g|m t q g entry ehi elo0 elo1 pm l rs _ IH|m t q g tb y z l rs1 rs2 rs Hm H1 H2 _ IH]; intros Hk Hb c Hc; cbn [run].
  - exists c. split; [done|apply Hc].
  - apply Forall_cons in Hb as [_ Hb]. apply IH; [done..|]. destruct Hc as [[= E1 E2] E3 E4 E5 E6]. split; cbn; by rewrite ?E1, ?E2.
  - apply Forall_cons in Hb as [Hb1 Hb]. apply Forall_app in Hk as [K1 [K2 Hk]%Forall_app].
    destruct (cycle_ok tb c m t q g y z rs1 rs2 Hc Hm Hb1 H1 K1 H2 K2) as (d & -> & Hd). cbn [mbind result_bind]. by apply IH.
Qed.
End follows.

(** The checker accepts a correct core.  When the events of the core follow the
    interpreter -- the program counters and the thirty-two registers agree at every
    instruction boundary, in whatever packing of retirements into cycles, with TLB
    writes, interrupts and faulting instructions among them -- and every retirement is
    one the checker can follow, the co-simulation runs to the end of the events and is
    not flagged. *)
Theorem lockstep_accepts `{Config, HostFP} (fuel : nat) (l : list event) (rs : list retirement) (c : checker)
  (Hok : incorrect c = false) (Hl : 0 <= last_check c <= 2)
  (Hf : follows fuel (Boundary, ss c, g_pend_tlb c) (s_gpr c) l rs) (Hk : Forall clear rs) (Hb : Forall bus_ok l) :
  exists d, run fuel l c = Ok (d, Continue) /\ incorrect d = false.
Proof. eapply follows_ok; [exact Hf|exact Hk|exact Hb|]. by split. Qed.

(** ** A correct core, instruction by instruction *)
Section concrete.
Context `{Config, HostFP}.
Variable fuel : nat.
(** The step of [executes], computed, and when it is one. *)
Definition insn_at (p : Z) (t : state) : Z :=
  match execMips fuel t with Ok t1 => match iss_fetch_inst t1 p with Ok (insn, _) => insn | Stop _ => 0 end | Stop _ => 0 end.
Definition step_at (p : Z) (t : state) (g : Zmap Z) : state :=
  match execMips fuel t with
  | Ok t1 => ss (adopt_timing_cp0 (insn_at p t) (mk_checker t1 g [] 0 0 0 false 0))
  | Stop _ => t
  end.
Definition runs_at (p : Z) (t : state) : bool :=
  match execMips fuel t with
  | Ok t1 => match iss_fetch_inst t1 p with Ok _ => true | Stop _ => false end
  | Stop _ => false
  end.
Definition agreeb (t : state) (g : Zmap Z) : bool := forallb (fun i => (gpr t).[i] =? g.[i]) (seqZ 0 32).
Lemma agreeb_agree t g : agreeb t g = true -> agree t g.
Proof. intros Ha i Hi. rewrite <- Z.eqb_eq. eapply forallb_forall in Ha; [exact Ha|]. apply list_elem_of_In, elem_of_seqZ. lia. Qed.
#[local] Opaque execMips.
Lemma runs_executes p t g : runs_at p t = true -> executes fuel (insn_at p t) p t g (step_at p t g).
Proof.
  unfold runs_at. intros Hr. destruct (execMips fuel t) as [t1|] eqn:E1; [|done]. destruct (iss_fetch_inst t1 p) as [[insn pa]|] eqn:E2; [|done].
  exists t1, pa. split; [done|]. unfold step_at, insn_at. by rewrite E1, E2.
Qed.
Lemma step_boundary p g t q : (u32 p =? u32 (pc t)) && runs_at p (fold_left apply_pend q t) && agreeb (step_at p (fold_left apply_pend q t) g) g = true ->
  retires fuel p g K_step (Boundary, t, q) (Boundary, step_at p (fold_left apply_pend q t) g, []).
Proof.
  rewrite !andb_true_iff. intros [[Hp Hr] Ha]. eapply R_step; [by apply Z.eqb_eq|by apply runs_executes|by apply agreeb_agree].
Qed.
Lemma step_branch p g t q : (u32 p =? u32 (pc t)) && runs_at p (fold_left apply_pend q t) && has_delay_slot (insn_at p (fold_left apply_pend q t)) = true ->
  retires fuel p g K_branch (Boundary, t, q) (BeforeSlot (u32 (p + 4)), step_at p (fold_left apply_pend q t) g, []).
Proof. rewrite !andb_true_iff. intros [[Hp Hr] Hd]. eapply R_branch; [by apply Z.eqb_eq|by apply runs_executes|done]. Qed.
Lemma step_slot p g t q d : (u32 p =? d) && agreeb t g = true -> retires fuel p g K_slot (BeforeSlot d, t, q) (Boundary, t, q).
Proof. rewrite !andb_true_iff. intros [Hp Ha]. apply R_slot; [by apply Z.eqb_eq|by apply agreeb_agree]. Qed.
(** The state an instruction faults into. *)
Definition fault_at (t : state) : state := match execMips fuel t with Ok t1 => t1 | Stop _ => t end.
Definition faults_at (t : state) : bool :=
  match execMips fuel t with
  | Ok t1 => (brk t1 =? 0) && sr_bit t1 SR_EXL && bool_decide (u32 (pc t1) ∈ vectors) | Stop _ => false
  end.
Lemma faults_faults t : faults_at t = true -> faults fuel t (fault_at t).
Proof.
  unfold faults_at, faults, fault_at. destruct (execMips fuel t) as [t1|]; [|done]. rewrite !andb_true_iff. intros [[Hb Hx] Hv].
  split; [done|]. split; [by apply Z.eqb_eq|]. split; [done|]. apply list_elem_of_In. by eapply bool_decide_eq_true.
Qed.
Lemma step_fault p g t q : faults_at (fold_left apply_pend q t) && (u32 p =? u32 (pc (fault_at (fold_left apply_pend q t)))) &&
    runs_at p (fault_at (fold_left apply_pend q t)) && agreeb (step_at p (fault_at (fold_left apply_pend q t)) g) g = true ->
  retires fuel p g K_fault (Boundary, t, q) (Boundary, step_at p (fault_at (fold_left apply_pend q t)) g, []).
Proof.
  rewrite !andb_true_iff. intros [[[Hf Hp] Hr] Ha]. eapply R_fault; [by apply faults_faults|by apply Z.eqb_eq|by apply runs_executes|by apply agreeb_agree].
Qed.
(** [clear], computed, where the fault's handler is not asked for. *)
Definition clearb (r : retirement) : bool :=
  (brk (r_after r) =? 0) &&
  match r_kind r with
  | K_step => true
  | K_branch => negb (u32 (pc (r_after r)) =? u32 (r_pc r + 4))
  | K_slot => negb (r_first r) ||
      (negb (rtl_in_exc_handler (u32 (r_pc r))) &&
       match get 4 (va2pa (u32 (pc (r_before r)))) (r_before r) with
       | Ok w => negb (is_break_or_syscall (bswap IS_LITTLE_ENDIAN 4 w)) | Stop _ => false
       end)
  | K_fault => false
  end.
Lemma clearb_clear r : clearb r = true -> clear r.
Proof.
  unfold clearb, clear. rewrite andb_true_iff. intros [Hb Hk]. split; [by apply Z.eqb_eq|]. destruct (r_kind r); [done| | |done].
  - by apply Z.eqb_neq, negb_true_iff.
  - intros Hf. rewrite Hf in Hk. apply andb_true_iff in Hk as [Hv Hw]. split.
    + intros Hi%in_vectors_spec. by rewrite Hi in Hv.
    + destruct (get _ _ _) as [w|]; [|done]. exists w. split; [done|]. by apply negb_true_iff.
Qed.
End concrete.
#[local] Existing Instance r4400_config.
#[local] Existing Instance indefinite_host.
(** One event of a concrete core: each port retires what [l] proves, or nothing. *)
Ltac port_of l := eexists; split; [apply l; vm_compute; reflexivity|reflexivity].
Ltac port_idle := split; reflexivity.
Ltac no_irq := let E := fresh in intros E; (reflexivity || (vm_compute in E; discriminate E)).

(** A machine about to run, with words at some addresses of DRAM, and a cycle of its
    core: the retirements with the register each writes. *)
Definition put_words (m : Zmap Z) (bw : Z * list Z) : Zmap Z := store_bytes m bw.1 (mjoin (map (fun w => rev (le_split 4 w)) bw.2)).
Definition machine (p : Z) (code : list (Z * list Z)) : checker :=
  let m := mk_sparse_mem (foldl put_words ∅ code) true in
  mk_checker (set_g_iss_tlb_ext true (set_pc (s64 p) (initState (H:=r4400_config) (state_init m false)))) ∅ [] 0 0 0 false 0.
Definition retire1 (p r v : Z) : tb_t := mk_tb (0 <? r) r v false 0 0 true p false 0 1 47 0 false 0 false.
Definition retire2 (p r v p2 r2 v2 : Z) : tb_t := mk_tb (0 <? r) r v (0 <? r2) r2 v2 true p true p2 1 47 0 false 0 false.
Definition kseg1 (a : Z) : Z := a - 0x60000000.
Definition loop_words : list Z := [0x24010005; 0x10000002; 0x24020007; 0; 0x24230001].
(** addiu; a branch, its slot in the next cycle with the instruction at the target. *)
Definition loop_events : list event :=
  [EvCycle (retire1 (kseg1 0) 1 5); EvCycle (retire1 (kseg1 4) 0 0); EvCycle (retire2 (kseg1 8) 2 7 (kseg1 16) 3 6)].
(** The core of the events [l] is correct. *)
Abbreviation correct c l rs :=
  (@follows r4400_config indefinite_host 4 (Boundary, ss c, g_pend_tlb c) (s_gpr c) l rs) (only parsing).
Lemma loop_follows : let c := machine (kseg1 0) [(0x08000000, loop_words)] in
  exists rs, correct c loop_events rs /\ Forall (@clear r4400_config) rs /\ Forall bus_ok loop_events.
Proof.
  eexists. split; [|split].
  - eapply F_cycle; [no_irq|port_of step_boundary|port_idle|].
    eapply F_cycle; [no_irq|port_of step_branch|port_idle|].
    eapply F_cycle; [no_irq|port_of step_slot|port_of step_boundary|apply F_end].
  - repeat (apply Forall_cons_2; [apply clearb_clear; vm_compute; reflexivity|]). apply Forall_nil_2.
  - repeat constructor.
Qed.
Lemma lockstep_accepts_witness :
  exists d, @run r4400_config indefinite_host 4 loop_events (machine (kseg1 0) [(0x08000000, loop_words)]) = Ok (d, Continue) /\ incorrect d = false.
Proof.
  destruct loop_follows as (rs & Hf & Hk & Hb).
  apply (@lockstep_accepts r4400_config indefinite_host 4 loop_events rs); [done|vm_compute; by split|exact Hf|exact Hk|exact Hb].
Defined.

(** ** Correct cores the checker accuses or stops *)
(** How a run ends: the verdict, the flag, the halt and the pc of the interpreter. *)
Definition ending (r : result (checker * verdict)) : option (verdict * bool * Z * Z) :=
  match r with Ok (d, v) => Some (v, incorrect d, brk (ss d), u32 (pc (ss d))) | Stop _ => None end.
Abbreviation ends_as c l e := (ending (@run r4400_config indefinite_host 4 l c) = Some e) (only parsing).
(** A branch to its own delay slot: the registers are compared before those of the
    second port are in, and the interpreter has already run the slot. *)
Definition own_slot : checker := machine (kseg1 0) [(0x08000000, [0x10000000; 0x24020007])].
Definition own_slot_events : list event := [EvCycle (retire2 (kseg1 0) 0 0 (kseg1 4) 2 7)].
Example branch_to_own_slot_accused :
  (exists rs, correct own_slot own_slot_events rs) /\ ends_as own_slot own_slot_events (Break, true, 0, u32 (kseg1 4)).
Proof.
  split; [|vm_compute; reflexivity]. eexists. eapply F_cycle; [no_irq|port_of step_branch|port_of step_slot|apply F_end].
Qed.
(** A handler leaves the vector area by a jump whose slot retires alone: the slot is
    taken for the entry of a handler, the interpreter runs ahead, and a branch at the
    target is one retirement too many for the watchdog. *)
Definition escape : checker :=
  machine (0x80000180 - 2 ^ 32) [(0x08000180, [0x08000400; 0]); (0x08001000, [0x10000003; 0])].
Definition escape_events : list event :=
  map (fun p => EvCycle (retire1 (p - 2 ^ 32) 0 0)) [0x80000180; 0x80000184; 0x80001000; 0x80001004].
Example vector_escape_accused :
  (exists rs, correct escape escape_events rs) /\ ends_as escape escape_events (Break, true, 0, 0x80001010).
Proof.
  split; [|vm_compute; reflexivity]. eexists. eapply F_cycle; [no_irq|port_of step_branch|port_idle|].
  eapply F_cycle; [no_irq|port_of step_slot|port_idle|]. eapply F_cycle; [no_irq|port_of step_branch|port_idle|].
  eapply F_cycle; [no_irq|port_of step_slot|port_idle|apply F_end].
Qed.
(** A program under an operating system branches to a SYSCALL and the slot retires
    alone: the run ends, as if the program had. *)
Definition os_machine (p : Z) (code : list (Z * list Z)) : checker :=
  let c := machine p code in with_ss (set_g_iss_os_mode true (ss c)) c.
Definition at_syscall : checker := os_machine (kseg1 0) [(0x08000000, [0x10000001; 0; 0x0000000c])].
Definition at_syscall_events : list event := [EvCycle (retire1 (kseg1 0) 0 0); EvCycle (retire1 (kseg1 4) 0 0)].
Example pending_syscall_ends_run :
  (exists rs, correct at_syscall at_syscall_events rs) /\ ends_as at_syscall at_syscall_events (Break, false, 0, u32 (kseg1 8)).
Proof.
  split; [|vm_compute; reflexivity]. eexists. eapply F_cycle; [no_irq|port_of step_branch|port_idle|].
  eapply F_cycle; [no_irq|port_of step_slot|port_idle|apply F_end].
Qed.
(** The first instruction of a handler reads Count: the interpreter keeps its own value
    of it when it catches up, and the next comparison finds the register different. *)
Definition timed_handler : checker :=
  os_machine (kseg1 0) [(0x08000000, [0x0000000c]); (0x1fc00380, [0x401a4800; 0])].
Definition timed_handler_events : list event :=
  [EvCycle (retire1 (0xbfc00380 - 2 ^ 32) 26 5); EvCycle (retire1 (0xbfc00384 - 2 ^ 32) 0 0)].
Example handler_reads_count_accused :
  (exists rs, correct timed_handler timed_handler_events rs) /\
  ends_as timed_handler timed_handler_events (Break, true, 0, 0xbfc00388).
Proof.
  split; [|vm_compute; reflexivity]. eexists. eapply F_cycle; [no_irq|port_of step_fault|port_idle|].
  eapply F_cycle; [no_irq|port_of step_boundary|port_idle|apply F_end].
Qed.
(** A fault inside the vector pages: the interpreter does not catch up and the watchdog
    stops the core. *)
Definition nested_fault : checker :=
  os_machine (0x80000180 - 2 ^ 32) [(0x08000180, [0x00000034]); (0x1fc00380, [0; 0; 0; 0])].
Definition nested_fault_events : list event :=
  map (fun p => EvCycle (retire1 (p - 2 ^ 32) 0 0)) [0xbfc00380; 0xbfc00384; 0xbfc00388].
Example nested_fault_accused :
  (exists rs, correct nested_fault nested_fault_events rs) /\ ends_as nested_fault nested_fault_events (Break, true, 0, 0x80000180).
Proof.
  split; [|vm_compute; reflexivity]. eexists. eapply F_cycle; [no_irq|port_of step_fault|port_idle|].
  eapply F_cycle; [no_irq|port_of step_boundary|port_idle|]. eapply F_cycle; [no_irq|port_of step_boundary|port_idle|apply F_end].
Qed.
