(* ===== verification/BenchTrace.v ===== *)
(** The main loop as the checker sees it: a run of the loop is the run of the checker
    on the events of the core -- the TLB writes logged at each edge of the clock and
    one cycle per iteration, in order -- so what [Cosim] and [Lockstep] show of event
    lists holds of whole simulations. *)
From S2P Require Import Prelude Bits Insns State Mem Wf Exc Tlb Fp Exec Devices Bus Cosim CosimProps Snoop Latency Bench BenchProps Lockstep.

Section trace.
Context `{Config, HostFP} {K : Type} `{Core K}.
Variable fuel : nat.
Variable o : bench_opts.
Implicit Types (l : loop_t K).

(** ** The events *)
Definition write_event '(entry, ehi, elo0, elo1, pm) : event := EvTlbWrite entry ehi elo0 elo1 pm.
(** The TLB writes of [tb->clk = v; tb->eval();]. *)
Definition edge_events (v : bool) l : list event := map write_event (tlb_writes (set_clk v (l_pins l)) (core l)).
(** The pins at the rising edge are the ones [rise] leaves. *)
Definition rise_events l : list event :=
  map write_event (tlb_writes (l_pins (rise o (inject_phase o l))) (core l)).
Definition cycle_events l : list event := rise_events l ++ [EvCycle (o_tb (tb (high_phase o l)))].
(** The falling edge, where the iteration gets there; [l1] is what the checker leaves. *)
Definition low_phase l1 : result (loop_t K) :=
  port_phase o (inflight_phase (with_last_retire (u64 (last_retire l1 + 1)) l1)).
Definition fall_events l : list event :=
  match checker_phase fuel o (high_phase o l) with
  | Ok (l1, Continue) => match low_phase l1 with Ok l2 => edge_events false l2 | Stop _ => [] end
  | _ => []
  end.
(** The events of [n] turns of the loop. *)
Fixpoint trace (n : nat) l : list event :=
  match n with
  | O => []
  | S n =>
      match loop_guard o l with
      | Some _ => []
      | None =>
          cycle_events l ++
          match iteration fuel o l with Ok (l1, None) => fall_events l ++ trace n l1 | _ => [] end
      end
  end.

(** ** The checker through the loop *)
Lemma run_app es es' c : run fuel (es ++ es') c =
  let! (c, v) := run fuel es c in match v with Break => Ok (c, Break) | Continue => run fuel es' c end.
Proof.
  revert c. induction es as [|[entry ehi elo0 elo1 pm|t] es IH]; intros c; [done|apply IH|]. cbn [app run].
  destruct (cycle fuel t c) as [[c1 []]|]; [apply IH|done|done].
Qed.
Lemma run_writes ws c : run fuel (map write_event ws) c =
  Ok (foldl (fun c '(entry, ehi, elo0, elo1, pm) => tlb_wr_log entry ehi elo0 elo1 pm c) c ws, Continue).
Proof. revert c. induction ws as [|[[[[entry ehi] elo0] elo1] pm] ws IH]; intros c; [done|apply IH]. Qed.
Lemma run_edge v l : run fuel (edge_events v l) (l_chk l) = Ok (l_chk (evaluate v l), Continue).
Proof. apply run_writes. Qed.
Lemma high_chk l : l_chk (high_phase o l) = l_chk (rise o (inject_phase o l)).
Proof.
  unfold high_phase. set (l1 := rise o _). clearbody l1. set (l2 := tip_phase _). assert (l_chk l2 = l_chk l1) as <-.
  { unfold l2, tip_phase. destruct (tip_charge _ _ _). cbn. unfold console_phase. by destruct (o_putchar _). }
  unfold retire_phase. by destruct (negb _).
Qed.
Lemma port_chk l : post (fun l' => l_chk l' = l_chk l) (port_phase o l).
Proof.
  unfold port_phase. cbv zeta. destruct (match accepted _ _ with Some _ => _ | None => _ end) as [j|]; [|done]. cbn [mbind result_bind].
  destruct (negedge_drawn _ _ _ _ _ _) as [[p g]|]; [|done]. cbn [mbind result_bind]. by destruct (reply p), (o_mem_req (tb l)).
Qed.
(** Up to the checker's verdict an iteration is its events. *)
Lemma run_cycle_events l : enable_chk o = true -> run fuel (cycle_events l) (l_chk l) =
  let! (l1, v) := checker_phase fuel o (high_phase o l) in Ok (l_chk l1, v).
Proof.
  intros Hchk. unfold cycle_events. rewrite run_app. unfold rise_events. rewrite run_writes. cbn [mbind result_bind run].
  unfold checker_phase. rewrite Hchk, high_chk. set (c := foldl _ _ _). change (l_chk (rise o (inject_phase o l))) with c.
  destruct (cycle fuel _ c) as [[d []]|]; done.
Qed.
(** What one iteration does to the checker. *)
Definition iterates l (r : loop_t K * option exit_reason) : Prop :=
  match r.2 with
  | Some CheckerStop => run fuel (cycle_events l) (l_chk l) = Ok (l_chk r.1, Break)
  | Some _ => run fuel (cycle_events l) (l_chk l) = Ok (l_chk r.1, Continue)
  | None => run fuel (cycle_events l ++ fall_events l) (l_chk l) = Ok (l_chk r.1, Continue)
  end.
Lemma iteration_runs l : enable_chk o = true -> post (iterates l) (iteration fuel o l).
Proof.
  intros Hchk. unfold iterates, iteration. rewrite run_app, (run_cycle_events l Hchk). unfold fall_events.
  destruct (checker_phase fuel o (high_phase o l)) as [[l1 v]|]; [|done]. cbn [mbind result_bind]. destruct v; [|done].
  set (l2 := with_last_retire _ l1). assert (l_chk l2 = l_chk l1) as E2 by done. destruct (stop_reason l2) as [r|] eqn:Er.
  - destruct r; try done. by apply stop_reason_checker in Er.
  - rewrite Hchk. unfold low_phase. fold l2. pose proof (port_chk (inflight_phase l2)) as Hp. destruct (port_phase o (inflight_phase l2)) as [l3|]; [|done].
    cbn [post snd fst mbind result_bind] in *. change (l_chk l1) with (l_chk (inflight_phase l2)). by rewrite <- Hp, run_edge.
Qed.
(** The loop is the checker on its trace. *)
Definition verdict_of (r : exit_reason) : verdict := if decide (r = CheckerStop) then Break else Continue.
Lemma guard_not_checker l : loop_guard o l <> Some CheckerStop.
Proof. unfold loop_guard. by repeat case_match. Qed.
Lemma main_loop_runs n l : enable_chk o = true ->
  post (fun '(l', r) => run fuel (trace n l) (l_chk l) = Ok (l_chk l', verdict_of r)) (main_loop fuel o n l).
Proof.
  intros Hchk. revert l. induction n as [|n IH]; intros l; cbn [main_loop trace]; [done|].
  destruct (loop_guard o l) as [r|] eqn:Eg.
  { cbn. unfold verdict_of. rewrite decide_False; [done|]. intros ->. by apply guard_not_checker in Eg. }
  pose proof (iteration_runs l Hchk) as Hi. destruct (iteration fuel o l) as [[l1 [r|]]|]; [..|done]; cbn [mbind result_bind post iterates fst snd] in *.
  - rewrite app_nil_r. unfold verdict_of. by destruct r.
  - specialize (IH l1). rewrite app_assoc, run_app, Hi. exact IH.
Qed.
(** The core's cycles all accepted, only the memory port can stop the process. *)
Lemma run_prefix es es' c d : run fuel (es ++ es') c = Ok (d, Continue) ->
  exists b, run fuel es c = Ok (b, Continue) /\ run fuel es' b = Ok (d, Continue).
Proof.
  rewrite run_app. destruct (run fuel es c) as [[b []]|]; cbn [mbind result_bind]; [|done|done]. intros E. by exists b.
Qed.
Definition stopped_by_port n l : Prop :=
  exists l1 l2 w, reaches fuel o l l1 /\ checker_phase fuel o (high_phase o l1) = Ok (l2, Continue) /\
    low_phase l2 = Stop w /\ main_loop fuel o n l = Stop w.
Lemma iteration_stops l w d : enable_chk o = true -> run fuel (cycle_events l) (l_chk l) = Ok (d, Continue) ->
  iteration fuel o l = Stop w -> exists l2, checker_phase fuel o (high_phase o l) = Ok (l2, Continue) /\ low_phase l2 = Stop w.
Proof.
  intros Hchk. rewrite (run_cycle_events l Hchk). unfold iteration. destruct (checker_phase fuel o (high_phase o l)) as [[l1 []]|]; cbn [mbind result_bind]; [|done|done].
  intros _ Hw. exists l1. split; [done|]. destruct (stop_reason _); [done|]. rewrite Hchk in Hw. unfold low_phase.
  destruct (port_phase o _); cbn [mbind result_bind] in Hw; congruence.
Qed.
Lemma port_cycle l : post (fun l' => l_cycle l' = l_cycle l) (port_phase o l).
Proof.
  unfold port_phase. cbv zeta. destruct (match accepted _ _ with Some _ => _ | None => _ end) as [j|]; [|done]. cbn [mbind result_bind].
  destruct (negedge_drawn _ _ _ _ _ _) as [[p g]|]; [|done]. cbn [mbind result_bind]. by destruct (reply p), (o_mem_req (tb l)).
Qed.
Lemma iteration_cycle l : post (fun r => r.2 = None -> l_cycle r.1 = u64 (l_cycle l + 1)) (iteration fuel o l).
Proof.
  unfold iteration. rewrite <- (high_cycle o l). set (h := high_phase o l).
  assert (post (fun r => l_cycle r.1 = l_cycle h) (checker_phase fuel o h)) as Hk.
  { unfold checker_phase. match goal with |- context [if enable_chk o then ?a else ?b] => destruct (if enable_chk o then a else b) as [[c v]|] end; done. }
  destruct (checker_phase fuel o h) as [[l1 v]|]; [|done]. cbn [mbind result_bind post fst] in *. destruct v; [|done].
  set (l2 := with_last_retire _ l1). destruct (stop_reason l2); [done|]. set (l3 := if enable_chk o then l2 else _).
  assert (l_cycle l3 = l_cycle h) as E3 by (unfold l3; destruct (enable_chk o); exact Hk).
  pose proof (port_cycle (inflight_phase l3)) as Hp. destruct (port_phase o (inflight_phase l3)) as [l4|]; [|done].
  cbn [mbind result_bind post fst snd] in *. intros _. rewrite <- E3. unfold fall. cbn. by rewrite Hp.
Qed.
Lemma loop_total n l d : enable_chk o = true -> 0 <= l_cycle l <= max_cycle o -> max_cycle o < 2 ^ 64 ->
  (Z.to_nat (max_cycle o - l_cycle l) < n)%nat -> run fuel (trace n l) (l_chk l) = Ok (d, Continue) ->
  (exists l' r, main_loop fuel o n l = Ok (l', r) /\ reason_ok o r l') \/ stopped_by_port n l.
Proof.
  intros Hchk Hc Hm. revert l Hc. induction n as [|n IH]; intros l Hc Hn Hr; [lia|]. unfold stopped_by_port. cbn [main_loop trace] in *.
  destruct (loop_guard o l) as [r|] eqn:Eg; [left; exists l, r; split; [done|apply guard_ok; [done|lia]]|].
  pose proof (guard_none o l Eg) as Hlt. pose proof (iteration_cycle l) as Hi. pose proof (iteration_reason fuel o l) as Hq. pose proof (iteration_runs l Hchk) as Hx.
  apply run_prefix in Hr as (b & Hb & Hr). destruct (iteration fuel o l) as [[l1 [r|]]|w] eqn:Ei; cbn [mbind result_bind post fst snd iterates] in *.
  - left. by exists l1, r.
  - specialize (Hi eq_refl). rewrite wrapu_id in Hi by (unfold in_u; lia). rewrite run_app, Hb in Hx. cbn [mbind result_bind] in Hx.
    apply run_prefix in Hr as (b1 & Hb1 & Hr). rewrite Hx in Hb1. injection Hb1 as <-.
    destruct (IH l1 ltac:(lia) ltac:(lia) Hr) as [Hd|(l2 & l3 & w & Hre & Hk & Hl & Hw)]; [by left|right].
    exists l2, l3, w. split; [by eapply reaches_first|done].
  - right. destruct (iteration_stops l w b Hchk Hb Ei) as (l2 & Hk & Hl). exists l, l2, w. split; [apply reaches_here|done].
Qed.
End trace.

(** C24. The checker accepts a correct core, with the exceptions named here.  Let the
    events the main loop draws from the core follow the interpreter: at every instruction
    boundary the low words of the program counters and the registers agree (register 0
    as the interpreter holds it, which the checker compares too), however the
    retirements are packed into cycles, with TLB writes, interrupts between instructions
    and faulting instructions among them.  Let each retirement be [clear]: no BREAK or
    SYSCALL ends the run; no branch goes to its own delay slot; a slot that retires on
    the first port does not leave the vector area, and the word at the interpreter's pc
    is readable and no BREAK or SYSCALL; a handler is entered on the first port, from a
    fault outside the vector pages, by an instruction that does not read Count or Random.
    Let no bus error come with a retirement.  Then the loop ends within the cycle limit
    for a reason other than the checker and the run is not flagged; short of that only
    the memory port can stop the process, on a cycle the checker has accepted.  That
    the code accuses or stops correct cores outside of [clear] is shown by
    [branch_to_own_slot_accused], [vector_escape_accused], [pending_syscall_ends_run],
    [handler_reads_count_accused] and [nested_fault_accused]. *)
Theorem correct_core_accepted `{Config, HostFP} {K} `{Core K} (fuel n : nat) (o : bench_opts) (l : loop_t K) (rs : list retirement)
    (Hchk : enable_chk o = true) (Hok : incorrect (l_chk l) = false) (Hl : 0 <= last_check (l_chk l) <= 2)
    (Hc : 0 <= l_cycle l <= max_cycle o) (Hm : max_cycle o < 2 ^ 64) (Hn : (Z.to_nat (max_cycle o - l_cycle l) < n)%nat)
    (Hf : follows fuel (Boundary, ss (l_chk l), g_pend_tlb (l_chk l)) (s_gpr (l_chk l)) (trace fuel o n l) rs)
    (Hk : Forall clear rs) (Hb : Forall bus_ok (trace fuel o n l)) :
  (exists l' r, main_loop fuel o n l = Ok (l', r) /\ r <> CheckerStop /\ reason_ok o r l' /\ incorrect (l_chk l') = false) \/
  stopped_by_port fuel o n l.
Proof.
  destruct (follows_ok fuel _ _ _ _ Hf Hk Hb (l_chk l)) as (d & Hd & Hi); [by split|].
  destruct (loop_total fuel o n l d Hchk Hc Hm Hn Hd) as [(l' & r & Er & Hq)|Hs]; [left|by right].
  pose proof (main_loop_runs fuel o n l Hchk) as Hr. rewrite Er in Hr. cbn in Hr. rewrite Hr in Hd. unfold verdict_of in Hd.
  destruct (decide (r = CheckerStop)) in Hd; [done|]. injection Hd as <-. by exists l', r.
Qed.

(** ** A correct core in the loop *)
(** A core that plays its outputs, one per rising edge, and finishes at the end. *)
#[export] Instance scripted_core : Core (list tb_out) := {|
  eval p k := if clk p then tail k else k; outs k := default idle_out (head k);
  got_finish k := bool_decide (length k <= 1)%nat; tlb_writes _ _ := [] |}.
Definition shows (t : tb_t) : tb_out := mk_tb_out t false false None true None false false false false false 0 0 1 0.
(** The loop of [loop_words]: the core retires the branch alone, its slot with the
    instruction at the target. *)
Definition scripted_loop : loop_t (list tb_out) :=
  let c := machine (kseg1 0) [(0x08000000, loop_words)] in
  let k := idle_out :: map shows [retire1 (kseg1 0) 1 5; retire1 (kseg1 4) 0 0; retire2 (kseg1 8) 2 7 (kseg1 16) 3 6] in
  mk_loop k pins_init c (mk_port (-1) (mk_bus (mem (ss c)) 0 None []) false None) latgen_init injector_init 0 0 0 0 counters_init.
Example scripted_trace : @trace r4400_config indefinite_host _ scripted_core 4 sample_bench 30 scripted_loop = loop_events.
Proof. vm_compute. reflexivity. Qed.
Lemma correct_core_accepted_witness :
  (exists l' r, @main_loop r4400_config indefinite_host _ scripted_core 4 sample_bench 30 scripted_loop = Ok (l', r) /\
     r <> CheckerStop /\ @reason_ok _ scripted_core sample_bench r l' /\ incorrect (l_chk l') = false) \/
  @stopped_by_port r4400_config indefinite_host _ scripted_core 4 sample_bench 30 scripted_loop.
Proof.
  destruct loop_follows as (rs & Hf & Hk & Hb).
  apply (@correct_core_accepted r4400_config indefinite_host _ scripted_core 4 30 sample_bench scripted_loop rs);
    [reflexivity|reflexivity|vm_compute; by split|split; discriminate|reflexivity|cbn; lia|..].
  - rewrite scripted_trace. exact Hf.
  - exact Hk.
  - rewrite scripted_trace. exact Hb.
Defined.
(** The run ends because the core finishes. *)
Example scripted_end :
  post (fun '(l', r) => r = GotFinish /\ u32 (pc (ss (l_chk l'))) = u32 (kseg1 20) /\ insns_retired l' = 4 /\ incorrect (l_chk l') = false)
    (@main_loop r4400_config indefinite_host _ scripted_core 4 sample_bench 30 scripted_loop).
Proof. vm_compute. by split. Qed.
